(* ===== verification/_CoqProject ===== *)
-Q . S2P
Prelude.v
Blake2b.v
Blake2bSpec.v
Blocks.v
Common.v
Stats.v
Numbers.v
TextForms.v
BlockJson.v
Store.v
Tables.v
Visitors.v
Ledger.v
Rollback.v
Chain.v
Balance.v
LedgerInv.v
Queries.v
Process.v
Accept.v
Unwind.v
RollbackInv.v
Determined.v
Genesis.v
Runs.v
Votes.v
Elections.v
OnlineReps.v
Caches.v
Work.v
Messages.v
Peers.v
PeerChoice.v
Bootstrap.v
BootstrapSync.v
BootstrapPulls.v
BootstrapRun.v
Upgrades.v
UpgradesSpec.v
UpgradesRun.v
Networks.v
Node.v
NodeInv.v
Drain.v
WalletStore.v
WalletKeys.v
WalletPasswords.v
WalletActions.v
WalletSends.v
Wallets.v
WalletSeeds.v
WalletQueue.v
TestNet.v
Witnesses.v
NodeWitnesses.v
BootstrapWitnesses.v
UpgradesWitnesses.v
TextWitnesses.v
WalletWitnesses.v
Primes.v
Groups.v
Edwards.v
Curve25519.v
Words.v
Field25519.v
FieldBytes.v
FieldPow.v
Scalars.v
ScalarsSpec.v
ScalarDigits.v
Ge25519.v
Ge25519Spec.v
GePack.v
GeTables.v
ScalarMult.v
BaseTable.v
ScalarMultSpec.v
Ed25519.v
Ed25519Spec.v
Signatures.v
