(* ===== verification/Prelude.v ===== *)
(** * Verification of the RaiBlocks ledger and node

    RaiBlocks (src/rai) keeps a ledger in which every account has its own chain of blocks.
    A send leaves an amount pending, a receive or open block of the destination takes it;
    representatives vote with the balances delegated to them on blocks that compete for
    the same place. The program consists of a library of blocks, numbers and work (lib/),
    the store and the ledger (blockstore.cpp, ledger.cpp, common.cpp), Blake2b and Ed25519
    (blake2/, ed25519-donna/), the node that queues
    blocks, collects votes and talks to other nodes (node/), wallets, a JSON interface and
    user interfaces. This development models the library, the store, the ledger, the wallets,
    the cryptography and the decision-making parts of the node as executable functions, and
    proves what they promise.

    ** How code becomes definitions

    A machine integer is a [Z] with its wrap-around written out ([wrap w]); a fixed-size
    hash, key or signature is a [Z] too, and its bytes are given by [be_bytes]. Bytes are
    [Byte.byte], byte streams are lists. A function that fails an assertion, follows a
    null pointer or has an iterator at its end where it needs an element returns [None];
    error codes are values. State is passed explicitly; messages to the network, observers
    and other threads are returned as a list of effects. LMDB tables are finite maps
    ([gmap]), the ledger's store is a record of them. Limbs of big numbers in ed25519-donna
    are words of 64 bits with every carry written out. Ledger, node and wallets are
    parametric in what they use of the environment: class [Env] has the digest, Ed25519, the clock and the
    genesis data; [Crypto] AES, Argon2 and the public key of a private key; [Networks] and
    [Signatures] give instances with the modelled Blake2b and Ed25519. What is not in src/ is always a parameter: [Streams] has the
    number streams of the standard library; [HashOrder] the iteration order of hash maps;
    [NodeConfig], [WalletConfig] settings of the node; [Traffic] says which blocks are ever submitted, and
    [TrafficLaws] that they are well formed, that their digests do not collide and are
    no special value. The clocks that handlers read and the random numbers that they draw
    are arguments.

    ** Files

    - [Prelude]: widths, sums over maps, bytes of numbers, [assert].
    - [Blake2b], [Blake2bSpec]: blake2/blake2b-ref.c, and its equivalence with the digest
      as a fold of the compression over padded blocks; known answers of blake2-kat.h.
    - [Blocks], [Common]: lib/blocks.cpp and the records of common.cpp with their codecs.
    - [Stats]: the counters of node/stats.cpp.
    - [Numbers], [TextForms]: lib/numbers.cpp and lib/interface.cpp; hexadecimal, decimal
      and account text, balances with a decimal point. [BlockJson]: blocks as property
      trees (lib/blocks.cpp).
    - [Store], [Tables]: the tables of blockstore.cpp; blocks are spread over five tables
      and printed with the hash of their successor, [Tables] views them as one map.
      It also has walks over the keys of a table in order.
    - [Visitors]: the balance, amount and representative visitors of common.cpp.
    - [Ledger], [Rollback]: ledger.cpp.
    - [Chain], [Balance], [LedgerInv], [Queries], [Process], [Accept], [Unwind],
      [RollbackInv], [Determined], [Genesis]: the invariant of a ledger, that the queries
      compute what the chains say, that [process] and [rollback] keep the invariant, and
      that the ledger is determined by its blocks. [Queries] also has parts of a chain as
      lists.
    - [Runs]: the theorems on every reachable ledger.
    - [Votes], [Elections], [OnlineReps], [Caches], [Work], [Messages]: votes and tallies,
      elections (node.cpp), online representatives, cached votes and unchecked blocks
      (blockstore.cpp), the work pool (lib/work.cpp), messages (node/common.cpp).
    - [Peers], [PeerChoice]: the table of peers of node.cpp, samples and the choice of a
      peer to bootstrap from.
    - [Bootstrap]: the conversation of node/bootstrap.cpp, client and
      server, between bytes and state; [BootstrapSync], [BootstrapPulls], [BootstrapRun]:
      what a comparison of frontiers, a pull and a push achieve.
    - [Upgrades], [UpgradesSpec], [UpgradesRun]: the upgrades of blockstore.cpp, from the
      records of versioning.cpp to those of today, and that they restore the ledger.
    - [Networks]: the genesis data of the three networks, with the modelled Blake2b.
    - [Node], [NodeInv], [Drain]: block processor and vote processor, what they keep, that
      the queue drains, and the wait for it.
    - [WalletStore], [WalletKeys], [WalletPasswords]: the table of keys of a wallet
      (node/wallet.cpp), keys from a seed, passwords, moves and backups.
    - [WalletActions], [WalletSends]: the blocks that a wallet makes, and that the ledger
      accepts them.
    - [Wallets], [WalletSeeds], [WalletQueue]: the wallets of a node, the change of a seed,
      and the queue of wallet actions.
    - [Primes], [Groups], [Edwards], [Curve25519]: mathematics of Ed25519: 2{^255} - 19 is
      prime, multiples in a commutative group, the addition of twisted Edwards curves is
      complete and associative, the group of points of the curve.
    - [Words], [Field25519], [FieldBytes], [FieldPow]: the field arithmetic of
      ed25519-donna/curve25519-donna-64bit.h and curve25519-donna-helpers.h.
    - [Scalars], [ScalarsSpec], [ScalarDigits]: modm-donna-64bit.h, scalars modulo the order
      of the base point, and their recodings into digits.
    - [Ge25519], [Ge25519Spec], [GePack], [GeTables], [ScalarMult], [BaseTable],
      [ScalarMultSpec]: ed25519-donna-impl-base.h and its tables, points in extended
      coordinates, packing and unpacking, scalar multiplication.
    - [Ed25519], [Ed25519Spec], [Signatures]: ed25519.c with the hash of lib/interface.cpp,
      keys and signatures, and the environment of the node with them.
    - [TestNet], [Witnesses], [NodeWitnesses], [BootstrapWitnesses], [UpgradesWitnesses],
      [TextWitnesses], [WalletWitnesses]: a small concrete network and its wallets, on which
      the hypotheses of the theorems hold.

    ** What is shown

    Ledger ([Runs]). In every ledger that starts with the genesis block and was changed by
    [process] and [rollback] in any order, both functions come to an end without a failed
    assertion; a block is accepted exactly when the rules allow it; a rollback removes
    exactly blocks that depend on the given one and undoes an accepted block; money is
    conserved; voting weights, pending amounts, account records and the checksum are what
    the stored blocks say; a send is received once, with its amount; two ledgers with the
    same blocks are the same.

    Node ([Votes], [Elections], [OnlineReps], [Caches], [NodeInv], [Drain]). A majority wins
    the tally; a quorum is what it should be; votes count in order, and an election
    confirms once; the block processor keeps the node consistent, queues the blocks that
    waited, and drains its queue; caches lose nothing when they are flushed. The exceptions
    that the code has are stated and shown by examples.

    Peers ([Peers], [PeerChoice]). The table holds each peer once and no address that cannot
    be one; a keepalive is sent to an endpoint once; samples are of the size asked for;
    every peer has its turn for a bootstrap.

    Bootstrap ([BootstrapSync], [BootstrapPulls], [BootstrapRun]). Between two ledgers over
    the same traffic, the comparison of frontiers queues the pulls of exactly the accounts
    with an unknown head; every block that the server has and the client lacks is in one
    of these pulls, and what the server lacks is pushed within the limit of the cost.
    Requests are answered in their order; a pull that keeps failing is given up; the
    shuffle of the pulls loses none.

    Upgrades ([UpgradesSpec], [UpgradesRun]). A database of any earlier version that has the
    blocks, balances and pending sends of a ledger is opened without a failed assertion,
    and its tables are those of the ledger. Blocks of the first versions are taken to have
    the field of the successor, which may be zero.

    Wallets ([WalletKeys], [WalletPasswords], [WalletSends], [WalletSeeds], [WalletQueue]).
    Keys that are inserted, derived, moved or restored from a backup can be fetched; a
    changed password opens the wallet again; sends and receives that a wallet makes are
    accepted by the ledger with the effect asked for, and are in the ledger when the wait
    for the block processor is over; the search for the accounts of a new seed ends, and
    finds those in use; the queue of actions is served in order and runs empty, while the
    ledger changes under it. What watched accounts and empty sends do is shown by examples.

    Signatures ([FieldPow], [ScalarsSpec], [ScalarDigits], [GePack], [ScalarMultSpec],
    [Ed25519Spec], [Signatures]). The limb arithmetic never overflows its words and computes
    in the field and modulo the order; every row of the tables is the multiple of the base
    point it stands for, and the base point has the order [L]; the scalar multiplications
    compute multiples in the group of the curve; unpacking decides which bytes are points.
    A signature made with a key is accepted under its public key; verification decides the
    equation of the signature.

    Formats ([Blocks], [BlockJson], [Messages], [TextForms], [Blake2bSpec], [Networks]). Both
    directions of the codecs of blocks and messages; blocks from the trees they print; text
    of accounts and balances; the digest.

    Work ([Work]). In every interleaving of the threads of the pool a request is answered
    at most once and with valid work.

    ** Fuel and bounds

    Walks along chains take as fuel the number of stored blocks plus a constant; the
    theorems on [Runs] show that it suffices for every walk ([Balance], [Queries]), and
    that nested rollbacks need no more than one level per stored block ([RollbackInv]). The
    loop of [blake2b_update] has the length of its input as fuel. The loops over a wallet
    take its number of entries, which is enough as long as derived keys do not collide; the
    upgrades of a database take the number of accounts or of blocks, and need fewer than
    2{^64} blocks; the search of [change_seed] takes fuel as an argument, and 2{^32}
    turns always suffice ([WalletSeeds]). [Drain] gives a number of turns after which the
    block queue is empty, as many as [processor_flush] has. The theorem on the work pool holds for runs of fewer than 2^32 tickets, after
    which the ticket of the code wraps around; block counts wrap at 2^64 in the model as in
    the code.

    ** What is not modelled

    Sockets, threads, timers and logging, and with them the pool of connections of a
    bootstrap; the JSON interface and the JSON form of settings, and the text of a property
    tree, which a library reads and prints; AES and Argon2, which are libraries; batch verification of
    signatures and the variants of Ed25519 for 32-bit and vector instructions; graphical
    programs. Transactions of the database are taken to succeed. *)

From stdpp Require Import base gmap list numbers option tactics.
From Stdlib Require Import ZArith Lia.
From Stdlib Require Strings.Byte.

#[local] Open Scope Z_scope.

(** ** Machine-width integers *)

(** Wrap-around of a [w]-bit unsigned integer. *)
Definition wrap (w z : Z) : Z := z mod 2 ^ w.

Definition in_width (w z : Z) : Prop := 0 <= z < 2 ^ w.

#[global] Instance in_width_dec w z : Decision (in_width w z).
Proof. unfold in_width. apply _. Defined.

Lemma wrap_small w z : in_width w z -> wrap w z = z.
Proof. apply Z.mod_small. Qed.

Lemma wrap_in_width w z : 0 <= w -> in_width w (wrap w z).
Proof. intros Hw. apply Z.mod_pos_bound. lia. Qed.

Lemma wrap_wrap w z : wrap w (wrap w z) = wrap w z.
Proof. apply Zmod_mod. Qed.

Lemma wrap_add_l w a b : wrap w (wrap w a + b) = wrap w (a + b).
Proof. apply Zplus_mod_idemp_l. Qed.

Lemma wrap_add_r w a b : wrap w (a + wrap w b) = wrap w (a + b).
Proof. apply Zplus_mod_idemp_r. Qed.

Lemma wrap_sub_l w a b : wrap w (wrap w a - b) = wrap w (a - b).
Proof. apply Zminus_mod_idemp_l. Qed.

Lemma wrap_sub_r w a b : wrap w (a - wrap w b) = wrap w (a - b).
Proof. apply Zminus_mod_idemp_r. Qed.

Lemma wrap_add_add w a b c : wrap w (wrap w a + b + c) = wrap w (a + b + c).
Proof. rewrite <- !Z.add_assoc. apply wrap_add_l. Qed.

Create Rewrite HintDb wrap.
#[export] Hint Rewrite wrap_wrap wrap_add_l wrap_add_r wrap_sub_l wrap_sub_r wrap_add_add : wrap.

(** Equality of two wrapped sums. *)
Ltac wrap_eq := autorewrite with wrap; f_equal; lia.

(** ** Folds of a commutative operation over a finite map *)

Section map_acc.
Context {K V : Type} `{Countable K}.
Context (op : Z -> Z -> Z) (e : Z).
Context (op_comm : forall a b, op a b = op b a).
Context (op_assoc : forall a b c, op a (op b c) = op (op a b) c).

Definition map_acc (f : K -> V -> Z) (m : gmap K V) : Z :=
  map_fold (fun k v acc => op (f k v) acc) e m.

Lemma map_acc_empty f : map_acc f ∅ = e.
Proof. apply map_fold_empty. Qed.

Lemma map_acc_insert f m k v :
  m !! k = None -> map_acc f (<[k:=v]> m) = op (f k v) (map_acc f m).
Proof.
  intros Hk. unfold map_acc.
  rewrite (map_fold_insert_L (fun k v acc => op (f k v) acc)); [done| |done].
  intros j1 j2 z1 z2 y _ _ _. by rewrite !op_assoc, (op_comm (f j1 z1)).
Qed.

Lemma map_acc_delete f m k v :
  m !! k = Some v -> map_acc f m = op (f k v) (map_acc f (delete k m)).
Proof.
  intros Hk. rewrite <- (insert_delete_id m k v) at 1 by done.
  apply map_acc_insert, lookup_delete_eq.
Qed.

Lemma map_acc_ext f g m :
  (forall k v, m !! k = Some v -> f k v = g k v) -> map_acc f m = map_acc g m.
Proof.
  induction m as [|k v m Hk IH] using map_ind; intros Hfg; [done|].
  rewrite !map_acc_insert by done.
  rewrite (Hfg k v) by apply lookup_insert_eq. f_equal. apply IH.
  intros j w Hj. apply Hfg. rewrite lookup_insert_ne; congruence.
Qed.
End map_acc.

(** A fold sees the image of a map only. *)
Lemma map_acc_fmap {K V W} `{Countable K} (op : Z -> Z -> Z) (e : Z)
    (f : K -> W -> Z) (g : V -> W) (m : gmap K V) :
  map_acc op e f (g <$> m) = map_acc op e (fun k v => f k (g v)) m.
Proof. unfold map_acc. apply map_fold_fmap. Qed.

(** The sum of [f k v] over the entries of a map. *)
Definition map_sum {K V} `{Countable K} (f : K -> V -> Z) (m : gmap K V) : Z :=
  map_acc Z.add 0 f m.

(** The exclusive or of [f k v] over the entries of a map. *)
Definition map_lxor {K V} `{Countable K} (f : K -> V -> Z) (m : gmap K V) : Z :=
  map_acc Z.lxor 0 f m.

Section map_sum.
Context {K V : Type} `{Countable K}.
Implicit Types (f g : K -> V -> Z) (m : gmap K V).

Lemma map_sum_empty f : map_sum f ∅ = 0.
Proof. apply map_acc_empty. Qed.

Lemma map_sum_insert f m k v :
  m !! k = None -> map_sum f (<[k:=v]> m) = f k v + map_sum f m.
Proof. apply map_acc_insert; intros; lia. Qed.

Lemma map_sum_delete f m k v :
  m !! k = Some v -> map_sum f (delete k m) = map_sum f m - f k v.
Proof.
  intros Hk. unfold map_sum.
  rewrite (map_acc_delete Z.add 0) with (m := m) (k := k) (v := v); [lia| | |done]; intros; lia.
Qed.

Lemma map_sum_update f m k v v' :
  m !! k = Some v -> map_sum f (<[k:=v']> m) = map_sum f m - f k v + f k v'.
Proof.
  intros Hk. rewrite <- insert_delete_eq, map_sum_insert by apply lookup_delete_eq.
  rewrite (map_sum_delete _ _ _ _ Hk). lia.
Qed.

Lemma map_sum_ext f g m :
  (forall k v, m !! k = Some v -> f k v = g k v) -> map_sum f m = map_sum g m.
Proof. apply map_acc_ext; intros; lia. Qed.

Lemma map_sum_nonneg f m :
  (forall k v, m !! k = Some v -> 0 <= f k v) -> 0 <= map_sum f m.
Proof.
  induction m as [|k v m Hk IH] using map_ind; intros Hf.
  - by rewrite map_sum_empty.
  - rewrite map_sum_insert by done.
    pose proof (Hf k v (lookup_insert_eq _ _ _)).
    assert (0 <= map_sum f m); [|lia].
    apply IH. intros j w Hj. apply Hf. rewrite lookup_insert_ne; congruence.
Qed.

Lemma map_sum_le f g m :
  (forall k v, m !! k = Some v -> f k v <= g k v) -> map_sum f m <= map_sum g m.
Proof.
  induction m as [|k v m Hk IH] using map_ind; intros Hf.
  - by rewrite !map_sum_empty.
  - rewrite !map_sum_insert by done.
    pose proof (Hf k v (lookup_insert_eq _ _ _)).
    assert (map_sum f m <= map_sum g m); [|lia].
    apply IH. intros j w Hj. apply Hf. rewrite lookup_insert_ne; congruence.
Qed.

Lemma map_sum_add f g m : map_sum (fun k v => f k v + g k v) m = map_sum f m + map_sum g m.
Proof.
  induction m as [|k v m Hk IH] using map_ind; [by rewrite !map_sum_empty|].
  rewrite !map_sum_insert, IH by done. lia.
Qed.

Lemma map_sum_zero f m : (forall k v, m !! k = Some v -> f k v = 0) -> map_sum f m = 0.
Proof.
  induction m as [|k v m Hk IH] using map_ind; intros Hf; [apply map_sum_empty|].
  rewrite map_sum_insert, (Hf k v (lookup_insert_eq _ _ _)), IH; [done| |done].
  intros j w Hj. apply Hf. rewrite lookup_insert_ne; congruence.
Qed.

Lemma map_sum_lookup_le f m k v :
  (forall k v, m !! k = Some v -> 0 <= f k v) ->
  m !! k = Some v -> f k v <= map_sum f m.
Proof.
  intros Hf Hk. pose proof (map_sum_delete f _ _ _ Hk).
  assert (0 <= map_sum f (delete k m)); [|lia].
  apply map_sum_nonneg. intros j w [_ Hj]%lookup_delete_Some. eauto.
Qed.
End map_sum.

Section map_lxor.
Context {K V : Type} `{Countable K}.
Implicit Types (f : K -> V -> Z) (m : gmap K V).

Lemma map_lxor_insert f m k v :
  m !! k = None -> map_lxor f (<[k:=v]> m) = Z.lxor (f k v) (map_lxor f m).
Proof.
  apply map_acc_insert; intros; [apply Z.lxor_comm|symmetry; apply Z.lxor_assoc].
Qed.

Lemma map_lxor_delete f m k v :
  m !! k = Some v -> map_lxor f (delete k m) = Z.lxor (map_lxor f m) (f k v).
Proof.
  intros Hk. unfold map_lxor.
  rewrite (map_acc_delete Z.lxor 0) with (m := m) (k := k) (v := v);
    [|apply Z.lxor_comm|intros; symmetry; apply Z.lxor_assoc|done].
  by rewrite Z.lxor_comm, <- Z.lxor_assoc, Z.lxor_nilpotent, Z.lxor_0_l.
Qed.

Lemma map_lxor_update f m k v v' :
  m !! k = Some v ->
  map_lxor f (<[k:=v']> m) = Z.lxor (Z.lxor (map_lxor f m) (f k v)) (f k v').
Proof.
  intros Hk. rewrite <- insert_delete_eq, map_lxor_insert by apply lookup_delete_eq.
  by rewrite (map_lxor_delete _ _ _ _ Hk), Z.lxor_comm.
Qed.
End map_lxor.

(** ** Bytes *)

Abbreviation byte := Init.Byte.byte.

#[global] Instance byte_eq_dec : EqDecision byte := Strings.Byte.byte_eq_dec.

Definition Z_of_byte (b : byte) : Z := Z.of_N (Strings.Byte.to_N b).

(** Conversion to [uint8_t] keeps the low eight bits. *)
Definition byte_of_Z (z : Z) : byte :=
  default Init.Byte.x00 (Strings.Byte.of_N (Z.to_N (z mod 256))).

Lemma Z_of_byte_range b : 0 <= Z_of_byte b < 256.
Proof.
  unfold Z_of_byte. pose proof (Strings.Byte.to_N_bounded b). lia.
Qed.

Lemma Z_of_byte_of_Z z : Z_of_byte (byte_of_Z z) = z mod 256.
Proof.
  unfold Z_of_byte, byte_of_Z. pose proof (Z.mod_pos_bound z 256 ltac:(lia)).
  destruct (Strings.Byte.of_N _) as [b|] eqn:E; simpl.
  - apply Strings.Byte.to_of_N in E. rewrite E. lia.
  - apply Strings.Byte.of_N_None_iff in E. lia.
Qed.

Lemma byte_of_Z_of_byte b : byte_of_Z (Z_of_byte b) = b.
Proof.
  unfold byte_of_Z. rewrite Z.mod_small by apply Z_of_byte_range.
  unfold Z_of_byte. by rewrite N2Z.id, Strings.Byte.of_to_N.
Qed.

#[global] Instance byte_countable : Countable byte := inj_countable' Z_of_byte byte_of_Z byte_of_Z_of_byte.

(** Little-endian image of the low [8 * n] bits of [z]. *)
Fixpoint le_bytes (n : nat) (z : Z) : list byte :=
  match n with
  | O => []
  | S n => byte_of_Z z :: le_bytes n (Z.shiftr z 8)
  end.

Fixpoint of_le_bytes (bs : list byte) : Z :=
  match bs with
  | [] => 0
  | b :: bs => Z_of_byte b + 256 * of_le_bytes bs
  end.

(** Big-endian image: most significant byte first. *)
Definition be_bytes (n : nat) (z : Z) : list byte := reverse (le_bytes n z).
Definition of_be_bytes (bs : list byte) : Z := of_le_bytes (reverse bs).

Lemma le_bytes_length n z : length (le_bytes n z) = n.
Proof. revert z. induction n; intros z; simpl; auto. Qed.

Lemma be_bytes_length n z : length (be_bytes n z) = n.
Proof. unfold be_bytes. by rewrite length_reverse, le_bytes_length. Qed.

Lemma of_le_bytes_range bs : in_width (8 * Z.of_nat (length bs)) (of_le_bytes bs).
Proof.
  unfold in_width. induction bs as [|b bs IH]; [by split|].
  cbn [of_le_bytes length]. pose proof (Z_of_byte_range b).
  replace (8 * Z.of_nat (S (length bs))) with (8 + 8 * Z.of_nat (length bs)) by lia.
  rewrite Z.pow_add_r by lia. change (2 ^ 8) with 256. nia.
Qed.

Lemma of_le_le_bytes n z : of_le_bytes (le_bytes n z) = wrap (8 * Z.of_nat n) z.
Proof.
  unfold wrap. revert z. induction n as [|n IH]; intros z.
  { simpl. by rewrite Z.mod_1_r. }
  cbn [le_bytes of_le_bytes]. rewrite IH, Z_of_byte_of_Z, Z.shiftr_div_pow2 by lia.
  replace (8 * Z.of_nat (S n)) with (8 + 8 * Z.of_nat n) by lia.
  rewrite Z.pow_add_r by lia. change (2 ^ 8) with 256.
  rewrite Z.rem_mul_r; lia.
Qed.

Lemma le_of_le_bytes bs : le_bytes (length bs) (of_le_bytes bs) = bs.
Proof.
  induction bs as [|b bs IH]; [done|]. cbn [le_bytes of_le_bytes length].
  pose proof (Z_of_byte_range b) as Hb.
  replace (Z_of_byte b + 256 * of_le_bytes bs)
    with (Z_of_byte b + of_le_bytes bs * 2 ^ 8) by (change (2 ^ 8) with 256; lia).
  rewrite Z.shiftr_div_pow2, Z.div_add, Z.div_small, Z.add_0_l, IH by (done || lia).
  f_equal. rewrite <- (byte_of_Z_of_byte b) at 2. unfold byte_of_Z.
  change (2 ^ 8) with 256. by rewrite Z_mod_plus_full.
Qed.

Lemma of_be_be_bytes n z : of_be_bytes (be_bytes n z) = wrap (8 * Z.of_nat n) z.
Proof. unfold of_be_bytes, be_bytes. by rewrite reverse_involutive, of_le_le_bytes. Qed.

Lemma be_of_be_bytes bs : be_bytes (length bs) (of_be_bytes bs) = bs.
Proof.
  unfold of_be_bytes, be_bytes. rewrite <- (length_reverse bs), le_of_le_bytes.
  apply reverse_involutive.
Qed.

Lemma of_be_bytes_range bs : in_width (8 * Z.of_nat (length bs)) (of_be_bytes bs).
Proof. unfold of_be_bytes. rewrite <- (length_reverse bs). apply of_le_bytes_range. Qed.

#[global] Arguments le_bytes : simpl never.
#[global] Arguments of_le_bytes : simpl never.
#[global] Arguments be_bytes : simpl never.
#[global] Arguments of_be_bytes : simpl never.
#[global] Arguments byte_of_Z : simpl never.
#[global] Arguments wrap : simpl never.
#[global] Arguments in_width : simpl never.

(** ** Byte streams

    [std::basic_streambuf<uint8_t>]: writing appends, reading consumes a prefix
    and fails when fewer bytes than asked for are left. *)

Definition stream := list byte.

Definition read_bytes (n : nat) (s : stream) : option (list byte * stream) :=
  if decide (n <= length s)%nat then Some (take n s, drop n s) else None.

(** A field whose bytes are the big-endian image of its number, as in
    [uint128_union], [uint256_union] and [uint512_union]. *)
Definition read_be (n : nat) (s : stream) : option (Z * stream) :=
  '(bs, s) ← read_bytes n s; Some (of_be_bytes bs, s).

(** A native integer: the supported platforms are little-endian. *)
Definition read_le (n : nat) (s : stream) : option (Z * stream) :=
  '(bs, s) ← read_bytes n s; Some (of_le_bytes bs, s).

Lemma read_bytes_app bs s : read_bytes (length bs) (bs ++ s) = Some (bs, s).
Proof.
  unfold read_bytes. rewrite decide_True by (rewrite length_app; lia).
  by rewrite take_app_length, drop_app_length.
Qed.

Lemma read_bytes_Some n s bs s' :
  read_bytes n s = Some (bs, s') -> s = bs ++ s' /\ length bs = n.
Proof.
  unfold read_bytes. case_decide; intros; simplify_eq.
  split; [by rewrite take_drop|]. rewrite length_take. lia.
Qed.

Lemma read_be_bytes n z s :
  in_width (8 * Z.of_nat n) z -> read_be n (be_bytes n z ++ s) = Some (z, s).
Proof.
  intros Hz. unfold read_be.
  rewrite <- (be_bytes_length n z) at 1. rewrite read_bytes_app. simpl.
  by rewrite of_be_be_bytes, wrap_small.
Qed.

Lemma read_le_bytes n z s :
  in_width (8 * Z.of_nat n) z -> read_le n (le_bytes n z ++ s) = Some (z, s).
Proof.
  intros Hz. unfold read_le.
  rewrite <- (le_bytes_length n z) at 1. rewrite read_bytes_app. simpl.
  by rewrite of_le_le_bytes, wrap_small.
Qed.

Lemma read_be_Some n s z s' :
  read_be n s = Some (z, s') -> s = be_bytes n z ++ s' /\ in_width (8 * Z.of_nat n) z.
Proof.
  unfold read_be. intros ([bs t] & [-> Hn]%read_bytes_Some & ?)%bind_Some. simplify_eq.
  split; [by rewrite be_of_be_bytes|apply of_be_bytes_range].
Qed.

Lemma read_le_Some n s z s' :
  read_le n s = Some (z, s') -> s = le_bytes n z ++ s' /\ in_width (8 * Z.of_nat n) z.
Proof.
  unfold read_le. intros ([bs t] & [-> Hn]%read_bytes_Some & ?)%bind_Some. simplify_eq.
  split; [by rewrite le_of_le_bytes|apply of_le_bytes_range].
Qed.

(** A codec: a printer and a parser that invert each other on the values that
    satisfy [codec_wf]. *)
Class Codec (A : Type) := {
  codec_wf : A -> Prop;
  codec_put : A -> stream;
  codec_get : stream -> option (A * stream)
}.

Class CodecLaws (A : Type) `{Codec A} := {
  codec_get_put a s : codec_wf a -> codec_get (codec_put a ++ s) = Some (a, s);
  codec_put_get a s s' : codec_get s = Some (a, s') -> s = codec_put a ++ s' /\ codec_wf a
}.

(** One step of a sequential reader: peel one field off a hypothesis. *)
Ltac read_step :=
  match goal with
  | H : (_ ≫= _) = Some _ |- _ => apply bind_Some in H as ([? ?] & ? & H)
  | H : read_be _ _ = Some _ |- _ => apply read_be_Some in H as [-> ?]
  | H : read_le _ _ = Some _ |- _ => apply read_le_Some in H as [-> ?]
  end.
Ltac read_inv := repeat (read_step; cbn beta iota in * ); simplify_eq.

(** Run a sequential reader on what the writer produced. *)
Ltac read_run :=
  repeat (rewrite <- app_assoc);
  repeat (first [rewrite read_be_bytes by done|rewrite read_le_bytes by done]; cbn [mbind option_bind]).

#[global] Arguments read_bytes : simpl never.
#[global] Arguments read_be : simpl never.
#[global] Arguments read_le : simpl never.

(** ** Assertions

    [assert]: a failed assertion ends the program. *)
Definition assert (b : bool) : option unit := if b then Some tt else None.
