(* ===== verification/Blake2b.v ===== *)
(** * Blake2b: the digest behind hashes, checksums and proofs of work

    The reference implementation blake2/blake2b-ref.c with the helpers of
    blake2/blake2-impl.h. Words of 64 bits are numbers; arrays are lists of the length of
    the array. Functions that return a negative number on an error return [None]. *)

From stdpp Require Import base list option tactics gmap.
From Stdlib Require Import ZArith Lia.
From S2P Require Import Prelude.
#[local] Open Scope Z_scope.

(** ** Helpers *)

Definition load64 (src : list byte) : Z := of_le_bytes (take 8 src).
Definition store64 (w : Z) : list byte := le_bytes 8 w.
Definition store32 (w : Z) : list byte := le_bytes 4 w.

Definition rotr64 (w c : Z) : Z := Z.lor (Z.shiftr w c) (wrap 64 (Z.shiftl w (64 - c))).

(** [memcpy (dst + offset, src, length src)]. *)
Definition memcpy (dst : list byte) (offset : nat) (src : list byte) : list byte :=
  take offset dst ++ src ++ drop (offset + length src) dst.

(** ** Constants *)

Definition BLAKE2B_BLOCKBYTES : nat := 128.
Definition BLAKE2B_OUTBYTES : nat := 64.
Definition BLAKE2B_KEYBYTES : nat := 64.

Definition blake2b_IV : list Z :=
  [0x6a09e667f3bcc908; 0xbb67ae8584caa73b; 0x3c6ef372fe94f82b; 0xa54ff53a5f1d36f1;
   0x510e527fade682d1; 0x9b05688c2b3e6c1f; 0x1f83d9abfb41bd6b; 0x5be0cd19137e2179].

Definition blake2b_sigma : list (list nat) :=
  ([[ 0;  1;  2;  3;  4;  5;  6;  7;  8;  9; 10; 11; 12; 13; 14; 15];
    [14; 10;  4;  8;  9; 15; 13;  6;  1; 12;  0;  2; 11;  7;  5;  3];
    [11;  8; 12;  0;  5;  2; 15; 13; 10; 14;  3;  6;  7;  1;  9;  4];
    [ 7;  9;  3;  1; 13; 12; 11; 14;  2;  6;  5; 10;  4;  0; 15;  8];
    [ 9;  0;  5;  7;  2;  4; 10; 15; 14;  1; 11; 12;  6;  8;  3; 13];
    [ 2; 12;  6; 10;  0; 11;  8;  3;  4; 13;  7;  5; 15; 14;  1;  9];
    [12;  5;  1; 15; 14; 13;  4; 10;  0;  7;  6;  3;  9;  2;  8; 11];
    [13; 11;  7; 14; 12;  1;  3;  9;  5;  0; 15;  4;  8;  6;  2; 10];
    [ 6; 15; 14;  9; 11;  3;  0;  8; 12;  2; 13;  7;  1;  4; 10;  5];
    [10;  2;  8;  4;  7;  6;  1;  5; 15; 11;  9; 14;  3; 12; 13;  0];
    [ 0;  1;  2;  3;  4;  5;  6;  7;  8;  9; 10; 11; 12; 13; 14; 15];
    [14; 10;  4;  8;  9; 15; 13;  6;  1; 12;  0;  2; 11;  7;  5;  3]])%nat.

(** ** State *)

Record blake2b_state := Blake2bState {
  bs_h : list Z;
  bs_t0 : Z;
  bs_t1 : Z;
  bs_f0 : Z;
  bs_f1 : Z;
  bs_buf : list byte;
  bs_buflen : nat;
  bs_outlen : nat;
  bs_last_node : Z
}.

Definition set_h (h : list Z) (S : blake2b_state) : blake2b_state :=
  Blake2bState h (bs_t0 S) (bs_t1 S) (bs_f0 S) (bs_f1 S) (bs_buf S) (bs_buflen S) (bs_outlen S) (bs_last_node S).
Definition set_t (t0 t1 : Z) (S : blake2b_state) : blake2b_state :=
  Blake2bState (bs_h S) t0 t1 (bs_f0 S) (bs_f1 S) (bs_buf S) (bs_buflen S) (bs_outlen S) (bs_last_node S).
Definition set_f (f0 f1 : Z) (S : blake2b_state) : blake2b_state :=
  Blake2bState (bs_h S) (bs_t0 S) (bs_t1 S) f0 f1 (bs_buf S) (bs_buflen S) (bs_outlen S) (bs_last_node S).
Definition set_buf (buf : list byte) (buflen : nat) (S : blake2b_state) : blake2b_state :=
  Blake2bState (bs_h S) (bs_t0 S) (bs_t1 S) (bs_f0 S) (bs_f1 S) buf buflen (bs_outlen S) (bs_last_node S).

(** ** Flags and counter *)

Definition blake2b_set_lastnode (S : blake2b_state) : blake2b_state := set_f (bs_f0 S) (2 ^ 64 - 1) S.
Definition blake2b_is_lastblock (S : blake2b_state) : bool := negb (bs_f0 S =? 0).
Definition blake2b_set_lastblock (S : blake2b_state) : blake2b_state :=
  let S := if negb (bs_last_node S =? 0) then blake2b_set_lastnode S else S in set_f (2 ^ 64 - 1) (bs_f1 S) S.

Definition blake2b_increment_counter (inc : Z) (S : blake2b_state) : blake2b_state :=
  let t0 := wrap 64 (bs_t0 S + inc) in set_t t0 (wrap 64 (bs_t1 S + if t0 <? inc then 1 else 0)) S.

(** ** Initialisation *)

Definition blake2b_init0 : blake2b_state :=
  Blake2bState blake2b_IV 0 0 0 0 (replicate BLAKE2B_BLOCKBYTES Init.Byte.x00) 0 0 0.

(** The parameter block, in the order of its fields. *)
Definition blake2b_param (digest_length key_length : Z) : list byte :=
  le_bytes 1 digest_length ++ le_bytes 1 key_length ++ le_bytes 1 1 ++ le_bytes 1 1
  ++ store32 0 ++ store32 0 ++ store32 0 ++ le_bytes 1 0 ++ le_bytes 1 0
  ++ replicate 14 Init.Byte.x00 ++ replicate 16 Init.Byte.x00 ++ replicate 16 Init.Byte.x00.

Definition blake2b_init_param (P : list byte) : blake2b_state :=
  let S := blake2b_init0 in
  let h := imap (fun i w => Z.lxor w (load64 (drop (8 * i) P))) (bs_h S) in
  Blake2bState h (bs_t0 S) (bs_t1 S) (bs_f0 S) (bs_f1 S) (bs_buf S) (bs_buflen S)
    (Z.to_nat (of_le_bytes (take 1 P))) (bs_last_node S).

Definition blake2b_init (outlen : nat) : option blake2b_state :=
  if (outlen =? 0)%nat || (BLAKE2B_OUTBYTES <? outlen)%nat then None
  else Some (blake2b_init_param (blake2b_param (Z.of_nat outlen) 0)).

(** ** Compression *)

Definition word (l : list Z) (i : nat) : Z := default 0 (l !! i).

(** The macro [G] on the entries [a], [b], [c], [d] of [v]. *)
Definition G_mix (m : list Z) (r i : nat) (a b c d : nat) (v : list Z) : list Z :=
  let sigma k := word m (default 0%nat (default [] (blake2b_sigma !! r) !! k)) in
  let v := <[a := wrap 64 (wrap 64 (word v a + word v b) + sigma (2 * i)%nat)]> v in
  let v := <[d := rotr64 (Z.lxor (word v d) (word v a)) 32]> v in
  let v := <[c := wrap 64 (word v c + word v d)]> v in
  let v := <[b := rotr64 (Z.lxor (word v b) (word v c)) 24]> v in
  let v := <[a := wrap 64 (wrap 64 (word v a + word v b) + sigma (2 * i + 1)%nat)]> v in
  let v := <[d := rotr64 (Z.lxor (word v d) (word v a)) 16]> v in
  let v := <[c := wrap 64 (word v c + word v d)]> v in
  <[b := rotr64 (Z.lxor (word v b) (word v c)) 63]> v.

(** The macro [ROUND]. *)
Definition ROUND (m : list Z) (r : nat) (v : list Z) : list Z :=
  let v := G_mix m r 0 0 4 8 12 v in
  let v := G_mix m r 1 1 5 9 13 v in
  let v := G_mix m r 2 2 6 10 14 v in
  let v := G_mix m r 3 3 7 11 15 v in
  let v := G_mix m r 4 0 5 10 15 v in
  let v := G_mix m r 5 1 6 11 12 v in
  let v := G_mix m r 6 2 7 8 13 v in
  G_mix m r 7 3 4 9 14 v.

Definition blake2b_compress (block : list byte) (S : blake2b_state) : blake2b_state :=
  let m := (fun i => load64 (drop (8 * i) block)) <$> seq 0 16 in
  let v := bs_h S
    ++ [word blake2b_IV 0; word blake2b_IV 1; word blake2b_IV 2; word blake2b_IV 3;
        Z.lxor (word blake2b_IV 4) (bs_t0 S); Z.lxor (word blake2b_IV 5) (bs_t1 S);
        Z.lxor (word blake2b_IV 6) (bs_f0 S); Z.lxor (word blake2b_IV 7) (bs_f1 S)] in
  let v := fold_left (fun v r => ROUND m r v) (seq 0 12) v in
  set_h (imap (fun i w => Z.lxor (Z.lxor w (word v i)) (word v (i + 8))) (bs_h S)) S.

(** ** Updates *)

(** The loop over whole blocks of the input: the state and the rest of the input. *)
Fixpoint blake2b_blocks (fuel : nat) (input : list byte) (S : blake2b_state) : option (list byte * blake2b_state) :=
  match fuel with
  | O => None
  | Datatypes.S fuel =>
    if (BLAKE2B_BLOCKBYTES <? length input)%nat then
      let S := blake2b_increment_counter (Z.of_nat BLAKE2B_BLOCKBYTES) S in
      let S := blake2b_compress (take BLAKE2B_BLOCKBYTES input) S in
      blake2b_blocks fuel (drop BLAKE2B_BLOCKBYTES input) S
    else Some (input, S)
  end.

Definition blake2b_update (input : list byte) (S : blake2b_state) : option blake2b_state :=
  if (0 <? length input)%nat then
    let left := bs_buflen S in
    let fill := (BLAKE2B_BLOCKBYTES - left)%nat in
    '(input, S) ←
      (if (fill <? length input)%nat then
         let S := set_buf (memcpy (bs_buf S) left (take fill input)) 0 S in
         let S := blake2b_increment_counter (Z.of_nat BLAKE2B_BLOCKBYTES) S in
         let S := blake2b_compress (bs_buf S) S in
         blake2b_blocks (Datatypes.S (length input)) (drop fill input) S
       else Some (input, S));
    Some (set_buf (memcpy (bs_buf S) (bs_buflen S) input) (bs_buflen S + length input) S)
  else Some S.

(** [blake2b_final] with room for [outlen] bytes: the bytes written. *)
Definition blake2b_final (outlen : nat) (S : blake2b_state) : option (list byte) :=
  if (outlen <? bs_outlen S)%nat then None else
  if blake2b_is_lastblock S then None else
  let S := blake2b_increment_counter (Z.of_nat (bs_buflen S)) S in
  let S := blake2b_set_lastblock S in
  let S := set_buf (memcpy (bs_buf S) (bs_buflen S) (replicate (BLAKE2B_BLOCKBYTES - bs_buflen S) Init.Byte.x00))
             (bs_buflen S) S in
  let S := blake2b_compress (bs_buf S) S in
  Some (take (bs_outlen S) (concat (store64 <$> bs_h S))).

(** [blake2b_init_key]. *)
Definition blake2b_init_key (outlen : nat) (key : list byte) : option blake2b_state :=
  if (outlen =? 0)%nat || (BLAKE2B_OUTBYTES <? outlen)%nat then None else
  if (length key =? 0)%nat || (BLAKE2B_KEYBYTES <? length key)%nat then None else
  let S := blake2b_init_param (blake2b_param (Z.of_nat outlen) (Z.of_nat (length key))) in
  blake2b_update (memcpy (replicate BLAKE2B_BLOCKBYTES Init.Byte.x00) 0 key) S.

(** The simple interface [blake2b]. *)
Definition blake2b_simple (outlen : nat) (input key : list byte) : option (list byte) :=
  if (outlen =? 0)%nat || (BLAKE2B_OUTBYTES <? outlen)%nat then None else
  if (BLAKE2B_KEYBYTES <? length key)%nat then None else
  S ← (if (0 <? length key)%nat then blake2b_init_key outlen key else blake2b_init outlen);
  S ← blake2b_update input S;
  blake2b_final outlen S.
