(* ===== verification/Blake2bSpec.v ===== *)
(** * Blake2bSpec: the buffered implementation computes the digest of the whole message

    The digest as a function of the whole message, block after block (RFC 7693), and the
    proof that [blake2b_init], any sequence of [blake2b_update] and [blake2b_final] compute
    it, however the message is cut into pieces. *)

From stdpp Require Import base list option tactics gmap.
From Stdlib Require Import ZArith Lia.
From S2P Require Import Prelude Blake2b.
#[local] Open Scope Z_scope.

(** ** Specification *)

(** The compression function on the chaining value, the count of bytes and the flag of the
    last block. *)
Definition compress_words (h : list Z) (block : list byte) (t0 t1 f0 f1 : Z) : list Z :=
  bs_h (blake2b_compress block (Blake2bState h t0 t1 f0 f1 [] 0 0 0)).

Definition F_spec (h : list Z) (block : list byte) (t : Z) (last_block : bool) : list Z :=
  compress_words h block (wrap 64 t) (wrap 64 (t / 2 ^ 64)) (if last_block then 2 ^ 64 - 1 else 0) 0.

Definition pad_block (msg : list byte) : list byte := msg ++ replicate (128 - length msg) Init.Byte.x00.

(** The last block is the one after which nothing is left; it may be full. *)
Fixpoint spec_loop (fuel : nat) (h : list Z) (t : Z) (msg : list byte) : list Z :=
  match fuel with
  | O => h
  | S fuel =>
    if (128 <? length msg)%nat
    then spec_loop fuel (F_spec h (take 128 msg) (t + 128) false) (t + 128) (drop 128 msg)
    else F_spec h (pad_block msg) (t + Z.of_nat (length msg)) true
  end.

Definition hash_blocks (h : list Z) (t : Z) (msg : list byte) : list Z := spec_loop (S (length msg)) h t msg.

Definition initial_words (outlen keylen : nat) : list Z :=
  imap (fun i w => Z.lxor w (load64 (drop (8 * i) (blake2b_param (Z.of_nat outlen) (Z.of_nat keylen))))) blake2b_IV.

(** The digest of a message with an optional key. *)
Definition blake2b_spec (outlen : nat) (key msg : list byte) : list byte :=
  let msg := (if (0 <? length key)%nat then pad_block key else []) ++ msg in
  take outlen (concat (store64 <$> hash_blocks (initial_words outlen (length key)) 0 msg)).

(** ** Lemmas *)

Lemma spec_loop_fuel fuel fuel' h t msg :
  (length msg < fuel)%nat -> (length msg < fuel')%nat -> spec_loop fuel h t msg = spec_loop fuel' h t msg.
Proof.
  revert fuel' h t msg. induction fuel as [|fuel IH]; intros fuel' h t msg H1 H2; [lia|].
  destruct fuel' as [|fuel']; [lia|]. cbn [spec_loop]. destruct (Nat.ltb_spec 128 (length msg)); [|done].
  apply IH; rewrite length_drop; lia.
Qed.

Lemma hash_blocks_step h t msg : (128 < length msg)%nat ->
  hash_blocks h t msg = hash_blocks (F_spec h (take 128 msg) (t + 128) false) (t + 128) (drop 128 msg).
Proof.
  intros Hl. unfold hash_blocks at 1. cbn [spec_loop]. destruct (Nat.ltb_spec 128 (length msg)); [|lia].
  apply spec_loop_fuel; rewrite length_drop; lia.
Qed.

Lemma hash_blocks_last h t msg : (length msg <= 128)%nat ->
  hash_blocks h t msg = F_spec h (pad_block msg) (t + Z.of_nat (length msg)) true.
Proof. intros Hl. unfold hash_blocks. cbn [spec_loop]. destruct (Nat.ltb_spec 128 (length msg)); [lia|done]. Qed.

Lemma compress_words_length h block t0 t1 f0 f1 : length (compress_words h block t0 t1 f0 f1) = length h.
Proof. unfold compress_words, blake2b_compress. cbn [bs_h set_h]. by rewrite length_imap. Qed.

(** The state after a compression. *)
Lemma compress_state block S :
  blake2b_compress block S = set_h (compress_words (bs_h S) block (bs_t0 S) (bs_t1 S) (bs_f0 S) (bs_f1 S)) S.
Proof. done. Qed.

#[local] Opaque blake2b_compress compress_words.

Lemma hash_blocks_length h t msg : length (hash_blocks h t msg) = length h.
Proof.
  unfold hash_blocks. generalize (S (length msg)) as fuel. intros fuel. revert h t msg.
  induction fuel as [|fuel IH]; intros h t msg; [done|]. cbn [spec_loop].
  destruct (128 <? length msg)%nat; [rewrite IH|]; unfold F_spec; by rewrite compress_words_length.
Qed.

(** The two words of the counter. *)
Definition counts (S : blake2b_state) (t : Z) : Prop := 0 <= t /\ bs_t0 S = wrap 64 t /\ bs_t1 S = wrap 64 (t / 2 ^ 64).

Lemma increment_counts inc S t : 0 <= inc < 2 ^ 64 -> counts S t -> counts (blake2b_increment_counter inc S) (t + inc).
Proof.
  intros Hi (Ht & H0 & H1). unfold counts, blake2b_increment_counter. cbn. rewrite H0, H1, wrap_add_l.
  split_and!; [lia|done|]. rewrite wrap_add_l.
  pose proof (Z.div_mod t (2 ^ 64) ltac:(lia)) as Hd. pose proof (Z.mod_pos_bound t (2 ^ 64) ltac:(lia)) as Hm.
  set (q := t / 2 ^ 64) in *. set (r := t mod 2 ^ 64) in *.
  assert (wrap 64 (t + inc) = if r + inc <? 2 ^ 64 then r + inc else r + inc - 2 ^ 64) as ->.
  { unfold wrap. destruct (Z.ltb_spec (r + inc) (2 ^ 64)).
    - rewrite Hd, <- (Z.mod_small (r + inc) (2 ^ 64)) by lia. replace (2 ^ 64 * q + r + inc) with (r + inc + q * 2 ^ 64) by lia.
      apply Z_mod_plus_full.
    - rewrite Hd, <- (Z.mod_small (r + inc - 2 ^ 64) (2 ^ 64)) by lia.
      replace (2 ^ 64 * q + r + inc) with (r + inc - 2 ^ 64 + (q + 1) * 2 ^ 64) by lia. apply Z_mod_plus_full. }
  assert ((t + inc) / 2 ^ 64 = q + if r + inc <? 2 ^ 64 then 0 else 1) as ->.
  { destruct (Z.ltb_spec (r + inc) (2 ^ 64)).
    - symmetry. apply Z.div_unique with (r + inc); lia.
    - symmetry. apply Z.div_unique with (r + inc - 2 ^ 64); lia. }
  f_equal. f_equal. destruct (Z.ltb_spec (r + inc) (2 ^ 64)).
  - by destruct (Z.ltb_spec (r + inc) inc); [lia|].
  - by destruct (Z.ltb_spec (r + inc - 2 ^ 64) inc); [|lia].
Qed.

(** ** The state and the message absorbed so far *)

#[local] Opaque hash_blocks.

(** [S] has absorbed [p]: what is left to do with more input is to continue with the bytes
    in the buffer. *)
Record absorbed (h0 : list Z) (outlen : nat) (p : list byte) (S : blake2b_state) (t : Z) : Prop := {
  ab_rest rest : hash_blocks h0 0 (p ++ rest) = hash_blocks (bs_h S) t (take (bs_buflen S) (bs_buf S) ++ rest);
  ab_counts : counts S t;
  ab_flags : bs_f0 S = 0 /\ bs_f1 S = 0 /\ bs_last_node S = 0;
  ab_buf : length (bs_buf S) = 128%nat /\ (bs_buflen S <= 128)%nat;
  ab_outlen : bs_outlen S = outlen
}.

Lemma memcpy_length dst offset src : (offset + length src <= length dst)%nat -> length (memcpy dst offset src) = length dst.
Proof. intros H. unfold memcpy. rewrite !length_app, length_take, length_drop. lia. Qed.

Lemma memcpy_take dst offset src : (offset + length src <= length dst)%nat ->
  take (offset + length src) (memcpy dst offset src) = take offset dst ++ src.
Proof.
  intros H. unfold memcpy. rewrite app_assoc. rewrite take_app_length'; [done|]. rewrite length_app, length_take. lia.
Qed.

(** Compressing a whole block that is not the last one. *)
Lemma compress_step block S t : length block = 128%nat -> counts S t -> bs_f0 S = 0 -> bs_f1 S = 0 ->
  let S' := blake2b_compress block (blake2b_increment_counter 128 S) in
  counts S' (t + 128)
  /\ forall rest, rest <> [] -> hash_blocks (bs_h S) t (block ++ rest) = hash_blocks (bs_h S') (t + 128) rest.
Proof.
  intros Hb Hc H0 H1 S'. pose proof (increment_counts 128 S t ltac:(lia) Hc) as Hc'. split; [done|].
  intros rest Hr. rewrite hash_blocks_step by (rewrite length_app, Hb; destruct rest; [done|cbn; lia]).
  rewrite take_app_length', drop_app_length' by done.
  assert (F_spec (bs_h S) block (t + 128) false = bs_h S') as ->; [|done].
  unfold F_spec, S'. rewrite compress_state. cbn [bs_h set_h].
  destruct Hc' as (_ & E0 & E1). rewrite E0, E1. cbn. by rewrite H0, H1.
Qed.

Lemma blocks_ok fuel input S t :
  (length input < fuel)%nat -> counts S t -> bs_f0 S = 0 -> bs_f1 S = 0 -> input <> [] ->
  exists last S' t', blake2b_blocks fuel input S = Some (last, S') /\ counts S' t' /\ (length last <= 128)%nat
    /\ S' = set_h (bs_h S') (set_t (bs_t0 S') (bs_t1 S') S)
    /\ forall rest, hash_blocks (bs_h S) t (input ++ rest) = hash_blocks (bs_h S') t' (last ++ rest).
Proof.
  revert input S t. induction fuel as [|fuel IH]; intros input S t Hf Hc H0 H1 Hn; [lia|]. cbn [blake2b_blocks].
  change (Z.of_nat BLAKE2B_BLOCKBYTES) with 128. change BLAKE2B_BLOCKBYTES with 128%nat.
  destruct (Nat.ltb_spec 128 (length input)) as [Hl|Hl].
  2: { exists input, S, t. split_and!; [done..|by destruct S|done]. }
  assert (length (take 128 input) = 128%nat) as Ht by (rewrite length_take; lia).
  destruct (compress_step _ _ _ Ht Hc H0 H1) as [Hc' Hs]. set (S1 := blake2b_compress _ _) in *.
  assert (drop 128 input <> []) as Hd by (intros E; apply (f_equal length) in E; rewrite length_drop in E; cbn in E; lia).
  destruct (IH (drop 128 input) S1 (t + 128)) as (last & S' & t' & -> & Hct & Hll & HS & Hr); [rewrite length_drop; lia|done..|].
  exists last, S', t'. split_and!; [done..|by rewrite HS|]. intros rest.
  rewrite <- (take_drop 128 input) at 1. rewrite <- app_assoc, Hs by (by destruct (drop 128 input)). apply Hr.
Qed.

Lemma update_ok h0 outlen p S t input :
  absorbed h0 outlen p S t ->
  exists S' t', blake2b_update input S = Some S' /\ absorbed h0 outlen (p ++ input) S' t'.
Proof.
  intros [A1 A2 (F0 & F1 & F2) [B1 B2] A5]. unfold blake2b_update.
  destruct (Nat.ltb_spec 0 (length input)) as [Hi|Hi].
  2: { exists S, t. destruct input; [|cbn in Hi; lia]. rewrite app_nil_r. split; [done|]. by split. }
  change (Z.of_nat BLAKE2B_BLOCKBYTES) with 128. change BLAKE2B_BLOCKBYTES with 128%nat. set (fill := (128 - bs_buflen S)%nat). destruct (Nat.ltb_spec fill (length input)) as [Hf|Hf].
  2: { cbn [mbind option_bind]. eexists _, t. split; [done|]. split; cbn; [|done..|split; [by rewrite memcpy_length by (unfold fill in *; lia)|lia]|done].
       intros rest. rewrite memcpy_take by (unfold fill in *; lia). rewrite <- !app_assoc. apply A1. }
  set (buf := memcpy (bs_buf S) (bs_buflen S) (take fill input)). set (S0 := set_buf buf 0 S).
  assert (length (take fill input) = fill) as Htl by (rewrite length_take; lia).
  assert (buf = take (bs_buflen S) (bs_buf S) ++ take fill input) as Hbuf.
  { rewrite <- memcpy_take by (rewrite Htl; unfold fill; lia). rewrite take_ge; [done|]. fold buf. unfold buf.
    rewrite memcpy_length; rewrite Htl; unfold fill; lia. }
  assert (length buf = 128%nat) as Hbl by (unfold buf; rewrite memcpy_length; rewrite ?Htl; unfold fill; lia).
  destruct (compress_step buf S0 t Hbl A2 F0 F1) as [Hc' Hs]. set (S1 := blake2b_compress _ _) in *.
  assert (drop fill input <> []) as Hd by (intros E; apply (f_equal length) in E; rewrite length_drop in E; cbn in E; lia).
  destruct (blocks_ok (Datatypes.S (length input)) (drop fill input) S1 (t + 128)) as (last & S' & t' & Hb & Hct & Hll & HS & Hr);
    [rewrite length_drop; lia|done..|].
  cbv zeta. fold S0. change (bs_buf (blake2b_increment_counter 128 S0)) with buf. fold S1. rewrite Hb. cbn [mbind option_bind]. eexists _, t'. split; [done|].
  assert (bs_buf S' = buf /\ bs_buflen S' = 0%nat /\ bs_f0 S' = 0 /\ bs_f1 S' = 0 /\ bs_last_node S' = 0 /\ bs_outlen S' = outlen)
    as (-> & -> & ? & ? & ? & ?) by by rewrite HS.
  split; cbn; [|done..|split; [by rewrite memcpy_length by lia|lia]|done].
  intros rest. rewrite <- (Nat.add_0_l (length last)), memcpy_take by lia. cbn. rewrite <- Hr, <- app_assoc, A1.
  rewrite <- (take_drop fill input) at 1. rewrite <- app_assoc, app_assoc, <- Hbuf. apply (Hs (drop fill input ++ rest)).
  by destruct (drop fill input).
Qed.

Lemma init_absorbed outlen keylen : (1 <= outlen <= 64)%nat ->
  absorbed (initial_words outlen keylen) outlen []
    (blake2b_init_param (blake2b_param (Z.of_nat outlen) (Z.of_nat keylen))) 0.
Proof.
  intros Ho. split; [done|done|done|cbn; lia|]. unfold blake2b_init_param. cbn [bs_outlen].
  change (take 1 (blake2b_param (Z.of_nat outlen) (Z.of_nat keylen))) with (le_bytes 1 (Z.of_nat outlen)).
  rewrite of_le_le_bytes, wrap_small by (unfold in_width; lia). lia.
Qed.

Lemma final_ok h0 outlen p S t :
  absorbed h0 outlen p S t -> blake2b_final outlen S = Some (take outlen (concat (store64 <$> hash_blocks h0 0 p))).
Proof.
  intros [A1 A2 (F0 & F1 & F2) [B1 B2] A5]. unfold blake2b_final. rewrite A5, Nat.ltb_irrefl.
  unfold blake2b_is_lastblock. rewrite F0. cbn [Z.eqb negb].
  set (q := take (bs_buflen S) (bs_buf S)). assert (length q = bs_buflen S) as Hq by (unfold q; rewrite length_take; lia).
  specialize (A1 []). rewrite !app_nil_r in A1. fold q in A1. rewrite A1, hash_blocks_last, Hq by lia.
  pose proof (increment_counts (Z.of_nat (bs_buflen S)) S t ltac:(lia) A2) as (_ & E0 & E1).
  set (S1 := blake2b_increment_counter _ S) in *. unfold blake2b_set_lastblock.
  assert (bs_last_node S1 = 0 /\ bs_h S1 = bs_h S /\ bs_f1 S1 = 0 /\ bs_buf S1 = bs_buf S /\ bs_buflen S1 = bs_buflen S
    /\ bs_outlen S1 = outlen) as (G1 & G2 & G3 & G4 & G5 & G6) by done.
  rewrite G1. cbn [Z.eqb negb]. rewrite compress_state. cbn [bs_h bs_t0 bs_t1 bs_f0 bs_f1 bs_buf bs_buflen bs_outlen set_f set_buf set_h].
  rewrite G2, G3, G4, G5, G6, E0, E1. unfold F_spec, pad_block. rewrite Hq.
  assert (memcpy (bs_buf S) (bs_buflen S) (replicate (BLAKE2B_BLOCKBYTES - bs_buflen S) Init.Byte.x00)
    = q ++ replicate (128 - bs_buflen S) Init.Byte.x00) as ->; [|done].
  unfold memcpy. fold q. rewrite drop_ge, app_nil_r; [done|]. rewrite length_replicate. unfold BLAKE2B_BLOCKBYTES. lia.
Qed.

(** ** Digests *)

(** Several updates in a row. *)
Fixpoint blake2b_updates (chunks : list (list byte)) (S : blake2b_state) : option blake2b_state :=
  match chunks with
  | [] => Some S
  | c :: chunks => S ← blake2b_update c S; blake2b_updates chunks S
  end.

Lemma updates_ok h0 outlen p S t chunks :
  absorbed h0 outlen p S t ->
  exists S' t', blake2b_updates chunks S = Some S' /\ absorbed h0 outlen (p ++ concat chunks) S' t'.
Proof.
  revert p S t. induction chunks as [|c chunks IH]; intros p S t H; cbn [blake2b_updates concat].
  { exists S, t. by rewrite app_nil_r. }
  destruct (update_ok _ _ _ _ _ c H) as (S1 & t1 & -> & H1). cbn [mbind option_bind].
  destruct (IH _ _ _ H1) as (S' & t' & -> & H'). exists S', t'. by rewrite app_assoc.
Qed.

Lemma spec_length outlen key msg : (outlen <= 64)%nat -> length (blake2b_spec outlen key msg) = outlen.
Proof.
  intros Ho. unfold blake2b_spec. rewrite length_take. set (h := hash_blocks _ _ _).
  assert (length h = 8%nat) as Hl by (unfold h; by rewrite hash_blocks_length).
  assert (length (concat (store64 <$> h)) = 8 * length h)%nat as ->; [|lia].
  clear. induction h as [|w h IH]; [done|]. rewrite fmap_cons. cbn [concat length]. unfold store64 at 1.
  rewrite length_app, le_bytes_length, IH. lia.
Qed.

(** The bytes 0, 1, 2 and so on. *)
Definition kat_bytes (n : nat) : list byte := (fun i => byte_of_Z (Z.of_nat i)) <$> seq 0 n.

(** The digest of pieces, as the callers compute it. *)
Definition blake2b_digest (outlen : nat) (chunks : list (list byte)) : option (list byte) :=
  S ← blake2b_init outlen; S ← blake2b_updates chunks S; blake2b_final outlen S.

Lemma digest_ok outlen chunks : (1 <= outlen <= 64)%nat ->
  blake2b_digest outlen chunks = Some (blake2b_spec outlen [] (concat chunks))
  /\ length (blake2b_spec outlen [] (concat chunks)) = outlen.
Proof.
  intros Ho. split; [|apply spec_length; lia]. unfold blake2b_digest, blake2b_init.
  destruct (Nat.eqb_spec outlen 0); [lia|]. unfold BLAKE2B_OUTBYTES. destruct (Nat.ltb_spec 64 outlen); [lia|].
  cbn [orb mbind option_bind]. change 0 with (Z.of_nat 0) at 1.
  destruct (updates_ok _ _ _ _ _ chunks (init_absorbed outlen 0 Ho)) as (S & t & -> & HS).
  cbn [mbind option_bind]. by rewrite (final_ok _ _ _ _ _ HS).
Qed.

(** C40. Initialisation, any number of updates and the final step compute the digest of the
    concatenation of the pieces, of the length asked for. *)
Theorem blake2b_streaming outlen chunks :
  (1 <= outlen <= 64)%nat ->
  blake2b_digest outlen chunks = Some (blake2b_spec outlen [] (concat chunks))
  /\ length (blake2b_spec outlen [] (concat chunks)) = outlen.
Proof. apply digest_ok. Qed.

Lemma blake2b_streaming_witness :
  blake2b_digest 3 [kat_bytes 100; []; kat_bytes 200] = Some (blake2b_spec 3 [] (kat_bytes 100 ++ kat_bytes 200))
  /\ length (blake2b_spec 3 [] (kat_bytes 100 ++ kat_bytes 200)) = 3%nat.
Proof. apply (blake2b_streaming 3 [kat_bytes 100; []; kat_bytes 200]). lia. Defined.

(** The simple interface computes the keyed digest: a key is a first block, filled up
    with zeros. It refuses lengths that are out of range. *)
Theorem blake2b_simple_spec outlen input key :
  blake2b_simple outlen input key
  = if ((1 <=? outlen) && (outlen <=? 64) && (length key <=? 64))%nat then Some (blake2b_spec outlen key input) else None.
Proof.
  unfold blake2b_simple, blake2b_init, blake2b_init_key, BLAKE2B_OUTBYTES, BLAKE2B_KEYBYTES.
  destruct (Nat.eqb_spec outlen 0) as [->|Ho]; [done|]. destruct (Nat.ltb_spec 64 outlen) as [Hl|Hl].
  { cbn [orb]. rewrite (proj2 (Nat.leb_gt outlen 64)), andb_false_r by done. done. }
  rewrite (proj2 (Nat.leb_le 1 outlen)), (proj2 (Nat.leb_le outlen 64)) by lia. cbn [orb andb].
  destruct (Nat.ltb_spec 64 (length key)) as [Hk|Hk]; [by rewrite (proj2 (Nat.leb_gt (length key) 64))|].
  rewrite (proj2 (Nat.leb_le (length key) 64)) by done. cbn [orb].
  pose proof (init_absorbed outlen (length key) ltac:(lia)) as HI. unfold blake2b_spec.
  destruct (Nat.ltb_spec 0 (length key)) as [Hk0|Hk0].
  - destruct (Nat.eqb_spec (length key) 0); [lia|].
    assert (memcpy (replicate BLAKE2B_BLOCKBYTES Init.Byte.x00) 0 key = pad_block key) as ->.
    { unfold memcpy, pad_block. cbn [take app]. by rewrite drop_replicate. }
    destruct (update_ok _ _ _ _ _ (pad_block key) HI) as (S1 & t1 & -> & H1). cbn [orb mbind option_bind].
    destruct (update_ok _ _ _ _ _ input H1) as (S2 & t2 & -> & H2). cbn [mbind option_bind]. by rewrite (final_ok _ _ _ _ _ H2).
  - destruct key; [|cbn in Hk0; lia]. cbn [mbind option_bind]. change (Z.of_nat (length [])) with 0 in HI.
    destruct (update_ok _ _ _ _ _ input HI) as (S2 & t2 & -> & H2). cbn [mbind option_bind]. by rewrite (final_ok _ _ _ _ _ H2).
Qed.

(** ** Known answers *)

(** The first answers of [blake2b_keyed_kat] (blake2-kat.h). *)
Example keyed_kat :
  blake2b_simple 64 [] (kat_bytes 64) = Some (byte_of_Z <$>
    [0x10; 0xeb; 0xb6; 0x77; 0x00; 0xb1; 0x86; 0x8e; 0xfb; 0x44; 0x17; 0x98; 0x7a; 0xcf; 0x46; 0x90;
     0xae; 0x9d; 0x97; 0x2f; 0xb7; 0xa5; 0x90; 0xc2; 0xf0; 0x28; 0x71; 0x79; 0x9a; 0xaa; 0x47; 0x86;
     0xb5; 0xe9; 0x96; 0xe8; 0xf0; 0xf4; 0xeb; 0x98; 0x1f; 0xc2; 0x14; 0xb0; 0x05; 0xf4; 0x2d; 0x2f;
     0xf4; 0x23; 0x34; 0x99; 0x39; 0x16; 0x53; 0xdf; 0x7a; 0xef; 0xcb; 0xc1; 0x3f; 0xc5; 0x15; 0x68])
  /\ blake2b_simple 64 (kat_bytes 1) (kat_bytes 64) = Some (byte_of_Z <$>
    [0x96; 0x1f; 0x6d; 0xd1; 0xe4; 0xdd; 0x30; 0xf6; 0x39; 0x01; 0x69; 0x0c; 0x51; 0x2e; 0x78; 0xe4;
     0xb4; 0x5e; 0x47; 0x42; 0xed; 0x19; 0x7c; 0x3c; 0x5e; 0x45; 0xc5; 0x49; 0xfd; 0x25; 0xf2; 0xe4;
     0x18; 0x7b; 0x0b; 0xc9; 0xfe; 0x30; 0x49; 0x2b; 0x16; 0xb0; 0xd0; 0xbc; 0x4e; 0xf9; 0xb0; 0xf3;
     0x4c; 0x70; 0x03; 0xfa; 0xc0; 0x9a; 0x5e; 0xf1; 0x53; 0x2e; 0x69; 0x43; 0x02; 0x34; 0xce; 0xbd])
  /\ blake2b_simple 64 (kat_bytes 129) (kat_bytes 64) = Some (byte_of_Z <$>
    [0x64; 0x47; 0x5d; 0xfe; 0x76; 0x00; 0xd7; 0x17; 0x1b; 0xea; 0x0b; 0x39; 0x4e; 0x27; 0xc9; 0xb0;
     0x0d; 0x8e; 0x74; 0xdd; 0x1e; 0x41; 0x6a; 0x79; 0x47; 0x36; 0x82; 0xad; 0x3d; 0xfd; 0xbb; 0x70;
     0x66; 0x31; 0x55; 0x80; 0x55; 0xcf; 0xc8; 0xa4; 0x0e; 0x07; 0xbd; 0x01; 0x5a; 0x45; 0x40; 0xdc;
     0xde; 0xa1; 0x58; 0x83; 0xcb; 0xbf; 0x31; 0x41; 0x2d; 0xf1; 0xde; 0x1c; 0xd4; 0x15; 0x2b; 0x91]).
Proof. by vm_compute. Qed.
