(* ===== verification/Blocks.v ===== *)
(** * Blocks: the five block types, their digests' input and their wire format *)

From stdpp Require Import base list option tactics.
From Stdlib Require Import ZArith Lia.
From S2P Require Import Prelude.
#[local] Open Scope Z_scope.

(** ** Data *)

(** [enum class block_type : uint8_t]. *)
Inductive block_type :=
| bt_invalid
| bt_not_a_block
| bt_send
| bt_receive
| bt_open
| bt_change
| bt_state.

#[global] Instance block_type_eq_dec : EqDecision block_type.
Proof. solve_decision. Defined.

Definition block_type_code (t : block_type) : Z :=
  match t with
  | bt_invalid => 0
  | bt_not_a_block => 1
  | bt_send => 2
  | bt_receive => 3
  | bt_open => 4
  | bt_change => 5
  | bt_state => 6
  end.

Record send_hashables := SendHashables {
  send_previous : Z;
  send_destination : Z;
  send_balance : Z
}.

Record send_block := SendBlock {
  send_h :> send_hashables;
  send_signature : Z;
  send_work : Z
}.

Record receive_hashables := ReceiveHashables {
  receive_previous : Z;
  receive_source : Z
}.

Record receive_block := ReceiveBlock {
  receive_h :> receive_hashables;
  receive_signature : Z;
  receive_work : Z
}.

Record open_hashables := OpenHashables {
  open_source : Z;
  open_representative : Z;
  open_account : Z
}.

Record open_block := OpenBlock {
  open_h :> open_hashables;
  open_signature : Z;
  open_work : Z
}.

Record change_hashables := ChangeHashables {
  change_previous : Z;
  change_representative : Z
}.

Record change_block := ChangeBlock {
  change_h :> change_hashables;
  change_signature : Z;
  change_work : Z
}.

Record state_hashables := StateHashables {
  state_account : Z;
  state_previous : Z;
  state_representative : Z;
  state_balance : Z;
  state_link : Z
}.

Record state_block := StateBlock {
  state_h :> state_hashables;
  state_signature : Z;
  state_work : Z
}.

(** [rai::block]: the abstract class with its five subclasses; a [block_visitor]
    is a [match]. *)
Inductive block :=
| Send (b : send_block)
| Receive (b : receive_block)
| Open (b : open_block)
| Change (b : change_block)
| State (b : state_block).

#[global] Instance send_hashables_eq_dec : EqDecision send_hashables.
Proof. solve_decision. Defined.
#[global] Instance send_block_eq_dec : EqDecision send_block.
Proof. solve_decision. Defined.
#[global] Instance receive_hashables_eq_dec : EqDecision receive_hashables.
Proof. solve_decision. Defined.
#[global] Instance receive_block_eq_dec : EqDecision receive_block.
Proof. solve_decision. Defined.
#[global] Instance open_hashables_eq_dec : EqDecision open_hashables.
Proof. solve_decision. Defined.
#[global] Instance open_block_eq_dec : EqDecision open_block.
Proof. solve_decision. Defined.
#[global] Instance change_hashables_eq_dec : EqDecision change_hashables.
Proof. solve_decision. Defined.
#[global] Instance change_block_eq_dec : EqDecision change_block.
Proof. solve_decision. Defined.
#[global] Instance state_hashables_eq_dec : EqDecision state_hashables.
Proof. solve_decision. Defined.
#[global] Instance state_block_eq_dec : EqDecision state_block.
Proof. solve_decision. Defined.
#[global] Instance block_eq_dec : EqDecision block.
Proof. solve_decision. Defined.

(** ** Accessors *)

Definition block_type_of (b : block) : block_type :=
  match b with
  | Send _ => bt_send
  | Receive _ => bt_receive
  | Open _ => bt_open
  | Change _ => bt_change
  | State _ => bt_state
  end.

(** [block::previous]: zero for an open block. *)
Definition previous (b : block) : Z :=
  match b with
  | Send b => send_previous b
  | Receive b => receive_previous b
  | Open _ => 0
  | Change b => change_previous b
  | State b => state_previous b
  end.

(** [block::source]: zero but for open and receive blocks. *)
Definition source (b : block) : Z :=
  match b with
  | Receive b => receive_source b
  | Open b => open_source b
  | Send _ | Change _ | State _ => 0
  end.

(** [block::root]: the previous block, or the account for a first block. *)
Definition root (b : block) : Z :=
  match b with
  | Send b => send_previous b
  | Receive b => receive_previous b
  | Open b => open_account b
  | Change b => change_previous b
  | State b => if negb (state_previous b =? 0) then state_previous b else state_account b
  end.

Definition representative (b : block) : Z :=
  match b with
  | Open b => open_representative b
  | Change b => change_representative b
  | State b => state_representative b
  | Send _ | Receive _ => 0
  end.

Definition block_signature (b : block) : Z :=
  match b with
  | Send b => send_signature b
  | Receive b => receive_signature b
  | Open b => open_signature b
  | Change b => change_signature b
  | State b => state_signature b
  end.

Definition block_work (b : block) : Z :=
  match b with
  | Send b => send_work b
  | Receive b => receive_work b
  | Open b => open_work b
  | Change b => change_work b
  | State b => state_work b
  end.

Definition signature_set (sig : Z) (b : block) : block :=
  match b with
  | Send b => Send (SendBlock b sig (send_work b))
  | Receive b => Receive (ReceiveBlock b sig (receive_work b))
  | Open b => Open (OpenBlock b sig (open_work b))
  | Change b => Change (ChangeBlock b sig (change_work b))
  | State b => State (StateBlock b sig (state_work b))
  end.

Definition block_work_set (work : Z) (b : block) : block :=
  match b with
  | Send b => Send (SendBlock b (send_signature b) work)
  | Receive b => Receive (ReceiveBlock b (receive_signature b) work)
  | Open b => Open (OpenBlock b (open_signature b) work)
  | Change b => Change (ChangeBlock b (change_signature b) work)
  | State b => State (StateBlock b (state_signature b) work)
  end.

(** The [switch] shared by the send, receive and change blocks. *)
Definition legacy_predecessor (t : block_type) : bool :=
  match t with
  | bt_send | bt_receive | bt_open | bt_change => true
  | _ => false
  end.

(** [block::valid_predecessor]. *)
Definition valid_predecessor (b prev : block) : bool :=
  match b with
  | Send _ => legacy_predecessor (block_type_of prev)
  | Receive _ => legacy_predecessor (block_type_of prev)
  | Open _ => false
  | Change _ => legacy_predecessor (block_type_of prev)
  | State _ => true
  end.

(** [operator==] of each block type, through [blocks_equal]: type first, then the
    fields. *)
Definition blocks_equal (a b : block) : bool :=
  match a, b with
  | Send a, Send b =>
      (send_destination a =? send_destination b) && (send_previous a =? send_previous b)
      && (send_balance a =? send_balance b) && (send_work a =? send_work b)
      && (send_signature a =? send_signature b)
  | Receive a, Receive b =>
      (receive_previous a =? receive_previous b) && (receive_source a =? receive_source b)
      && (receive_work a =? receive_work b) && (receive_signature a =? receive_signature b)
  | Open a, Open b =>
      (open_source a =? open_source b) && (open_representative a =? open_representative b)
      && (open_account a =? open_account b) && (open_work a =? open_work b)
      && (open_signature a =? open_signature b)
  | Change a, Change b =>
      (change_previous a =? change_previous b)
      && (change_representative a =? change_representative b)
      && (change_work a =? change_work b) && (change_signature a =? change_signature b)
  | State a, State b =>
      (state_account a =? state_account b) && (state_previous a =? state_previous b)
      && (state_representative a =? state_representative b)
      && (state_balance a =? state_balance b) && (state_link a =? state_link b)
      && (state_signature a =? state_signature b) && (state_work a =? state_work b)
  | _, _ => false
  end.

(** ** Digest input

    [block::hash] feeds these bytes to blake2b, one [blake2b_update] per field. *)

Definition send_hash_input (b : send_hashables) : stream :=
  be_bytes 32 (send_previous b) ++ be_bytes 32 (send_destination b)
  ++ be_bytes 16 (send_balance b).

Definition receive_hash_input (b : receive_hashables) : stream :=
  be_bytes 32 (receive_previous b) ++ be_bytes 32 (receive_source b).

Definition open_hash_input (b : open_hashables) : stream :=
  be_bytes 32 (open_source b) ++ be_bytes 32 (open_representative b)
  ++ be_bytes 32 (open_account b).

Definition change_hash_input (b : change_hashables) : stream :=
  be_bytes 32 (change_previous b) ++ be_bytes 32 (change_representative b).

Definition state_hashables_hash_input (b : state_hashables) : stream :=
  be_bytes 32 (state_account b) ++ be_bytes 32 (state_previous b)
  ++ be_bytes 32 (state_representative b) ++ be_bytes 16 (state_balance b)
  ++ be_bytes 32 (state_link b).

(** Only state blocks are prefixed by their type, as a 256-bit number. *)
Definition state_hash_input (b : state_hashables) : stream :=
  be_bytes 32 (block_type_code bt_state) ++ state_hashables_hash_input b.

Definition hash_input (b : block) : stream :=
  match b with
  | Send b => send_hash_input b
  | Receive b => receive_hash_input b
  | Open b => open_hash_input b
  | Change b => change_hash_input b
  | State b => state_hash_input b
  end.

(** ** Wire format *)

Definition send_serialize (b : send_block) : stream :=
  be_bytes 32 (send_previous b) ++ be_bytes 32 (send_destination b)
  ++ be_bytes 16 (send_balance b) ++ be_bytes 64 (send_signature b)
  ++ le_bytes 8 (send_work b).

Definition receive_serialize (b : receive_block) : stream :=
  be_bytes 32 (receive_previous b) ++ be_bytes 32 (receive_source b)
  ++ be_bytes 64 (receive_signature b) ++ le_bytes 8 (receive_work b).

Definition open_serialize (b : open_block) : stream :=
  be_bytes 32 (open_source b) ++ be_bytes 32 (open_representative b)
  ++ be_bytes 32 (open_account b) ++ be_bytes 64 (open_signature b)
  ++ le_bytes 8 (open_work b).

Definition change_serialize (b : change_block) : stream :=
  be_bytes 32 (change_previous b) ++ be_bytes 32 (change_representative b)
  ++ be_bytes 64 (change_signature b) ++ le_bytes 8 (change_work b).

(** A state block's work travels in big-endian order. *)
Definition state_serialize (b : state_block) : stream :=
  be_bytes 32 (state_account b) ++ be_bytes 32 (state_previous b)
  ++ be_bytes 32 (state_representative b) ++ be_bytes 16 (state_balance b)
  ++ be_bytes 32 (state_link b) ++ be_bytes 64 (state_signature b)
  ++ be_bytes 8 (state_work b).

Definition serialize (b : block) : stream :=
  match b with
  | Send b => send_serialize b
  | Receive b => receive_serialize b
  | Open b => open_serialize b
  | Change b => change_serialize b
  | State b => state_serialize b
  end.

Definition send_hashables_read (s : stream) : option (send_hashables * stream) :=
  '(p, s) ← read_be 32 s;
  '(d, s) ← read_be 32 s;
  '(b, s) ← read_be 16 s;
  Some (SendHashables p d b, s).

Definition send_block_read (s : stream) : option (send_block * stream) :=
  '(h, s) ← send_hashables_read s;
  '(sig, s) ← read_be 64 s;
  '(w, s) ← read_le 8 s;
  Some (SendBlock h sig w, s).

Definition receive_hashables_read (s : stream) : option (receive_hashables * stream) :=
  '(p, s) ← read_be 32 s;
  '(src, s) ← read_be 32 s;
  Some (ReceiveHashables p src, s).

Definition receive_block_read (s : stream) : option (receive_block * stream) :=
  '(h, s) ← receive_hashables_read s;
  '(sig, s) ← read_be 64 s;
  '(w, s) ← read_le 8 s;
  Some (ReceiveBlock h sig w, s).

Definition open_hashables_read (s : stream) : option (open_hashables * stream) :=
  '(src, s) ← read_be 32 s;
  '(r, s) ← read_be 32 s;
  '(a, s) ← read_be 32 s;
  Some (OpenHashables src r a, s).

Definition open_block_read (s : stream) : option (open_block * stream) :=
  '(h, s) ← open_hashables_read s;
  '(sig, s) ← read_be 64 s;
  '(w, s) ← read_le 8 s;
  Some (OpenBlock h sig w, s).

Definition change_hashables_read (s : stream) : option (change_hashables * stream) :=
  '(p, s) ← read_be 32 s;
  '(r, s) ← read_be 32 s;
  Some (ChangeHashables p r, s).

Definition change_block_read (s : stream) : option (change_block * stream) :=
  '(h, s) ← change_hashables_read s;
  '(sig, s) ← read_be 64 s;
  '(w, s) ← read_le 8 s;
  Some (ChangeBlock h sig w, s).

Definition state_hashables_read (s : stream) : option (state_hashables * stream) :=
  '(a, s) ← read_be 32 s;
  '(p, s) ← read_be 32 s;
  '(r, s) ← read_be 32 s;
  '(b, s) ← read_be 16 s;
  '(l, s) ← read_be 32 s;
  Some (StateHashables a p r b l, s).

(** The work is read as a native integer and then swapped
    ([boost::endian::big_to_native_inplace]). *)
Definition state_block_read (s : stream) : option (state_block * stream) :=
  '(h, s) ← state_hashables_read s;
  '(sig, s) ← read_be 64 s;
  '(w, s) ← read_le 8 s;
  Some (StateBlock h sig (of_le_bytes (reverse (le_bytes 8 w))), s).

(** [deserialize_block (stream, type)]: a null pointer ([None]) on a short stream. Other
    types run into [assert (false)]; [None] is for them the null pointer that the function
    returns when assertions are compiled out. *)
Definition deserialize_block_typed (t : block_type) (s : stream) : option (block * stream) :=
  match t with
  | bt_receive => '(b, s) ← receive_block_read s; Some (Receive b, s)
  | bt_send => '(b, s) ← send_block_read s; Some (Send b, s)
  | bt_open => '(b, s) ← open_block_read s; Some (Open b, s)
  | bt_change => '(b, s) ← change_block_read s; Some (Change b, s)
  | bt_state => '(b, s) ← state_block_read s; Some (State b, s)
  | bt_invalid | bt_not_a_block => None
  end.

(** The enum value of a byte; a byte outside the enumeration takes the [default]
    branch wherever the type is switched on, as [bt_invalid] does. *)
Definition block_type_of_code (c : Z) : block_type :=
  match c with
  | 1 => bt_not_a_block
  | 2 => bt_send
  | 3 => bt_receive
  | 4 => bt_open
  | 5 => bt_change
  | 6 => bt_state
  | _ => bt_invalid
  end.

(** [deserialize_block (stream)]: a one-byte type code, then the block. *)
Definition deserialize_block (s : stream) : option (block * stream) :=
  '(c, s) ← read_le 1 s;
  deserialize_block_typed (block_type_of_code c) s.

(** [serialize_block]. *)
Definition serialize_block (b : block) : stream :=
  le_bytes 1 (block_type_code (block_type_of b)) ++ serialize b.

(** [send_block::size] and so on. *)
Definition block_size (t : block_type) : Z :=
  match t with
  | bt_send => 32 + 32 + 16 + 64 + 8
  | bt_receive => 32 + 32 + 64 + 8
  | bt_open => 32 + 32 + 32 + 64 + 8
  | bt_change => 32 + 32 + 64 + 8
  | bt_state => 32 + 32 + 32 + 16 + 32 + 64 + 8
  | bt_invalid | bt_not_a_block => 0
  end.

(** ** Widths

    The fields are fixed-width byte arrays in the code; their numbers are in
    range. *)

Definition wf_block (b : block) : Prop :=
  match b with
  | Send b =>
      in_width 256 (send_previous b) /\ in_width 256 (send_destination b)
      /\ in_width 128 (send_balance b) /\ in_width 512 (send_signature b)
      /\ in_width 64 (send_work b)
  | Receive b =>
      in_width 256 (receive_previous b) /\ in_width 256 (receive_source b)
      /\ in_width 512 (receive_signature b) /\ in_width 64 (receive_work b)
  | Open b =>
      in_width 256 (open_source b) /\ in_width 256 (open_representative b)
      /\ in_width 256 (open_account b) /\ in_width 512 (open_signature b)
      /\ in_width 64 (open_work b)
  | Change b =>
      in_width 256 (change_previous b) /\ in_width 256 (change_representative b)
      /\ in_width 512 (change_signature b) /\ in_width 64 (change_work b)
  | State b =>
      in_width 256 (state_account b) /\ in_width 256 (state_previous b)
      /\ in_width 256 (state_representative b) /\ in_width 128 (state_balance b)
      /\ in_width 256 (state_link b) /\ in_width 512 (state_signature b)
      /\ in_width 64 (state_work b)
  end.

#[global] Instance wf_block_dec b : Decision (wf_block b).
Proof. destruct b; simpl; apply _. Defined.

(** ** Lemmas *)

Lemma be_of_le_swap w :
  in_width 64 w -> of_le_bytes (reverse (le_bytes 8 (of_le_bytes (be_bytes 8 w)))) = w.
Proof.
  intros Hw. unfold be_bytes.
  assert (length (reverse (le_bytes 8 w)) = 8%nat) as Hl
    by (by rewrite length_reverse, le_bytes_length).
  rewrite <- Hl at 1. rewrite le_of_le_bytes, reverse_involutive, of_le_le_bytes.
  by apply wrap_small.
Qed.

Lemma swap_le_bytes w : be_bytes 8 (of_le_bytes (reverse (le_bytes 8 w))) = le_bytes 8 w.
Proof.
  fold (of_be_bytes (le_bytes 8 w)). rewrite <- (be_of_be_bytes (le_bytes 8 w)) at 2.
  by rewrite le_bytes_length.
Qed.

Lemma swap_in_width w : in_width 64 (of_le_bytes (reverse (le_bytes 8 w))).
Proof.
  pose proof (of_be_bytes_range (le_bytes 8 w)) as H. by rewrite le_bytes_length in H.
Qed.

Create HintDb block_read.
#[export] Hint Unfold send_block_read receive_block_read open_block_read change_block_read
  state_block_read send_hashables_read receive_hashables_read open_hashables_read
  change_hashables_read state_hashables_read : block_read.
#[export] Hint Unfold send_serialize receive_serialize open_serialize change_serialize
  state_serialize : block_read.

Lemma deserialize_serialize_typed b s :
  wf_block b -> deserialize_block_typed (block_type_of b) (serialize b ++ s) = Some (b, s).
Proof.
  destruct b as [[[]]|[[]]|[[]]|[[]]|[[]]];
    cbn [wf_block block_type_of deserialize_block_typed serialize];
    intros Hwf; destruct_and! Hwf; autounfold with block_read;
    cbn [send_h send_previous send_destination send_balance send_signature send_work
         receive_h receive_previous receive_source receive_signature receive_work
         open_h open_source open_representative open_account open_signature open_work
         change_h change_previous change_representative change_signature change_work
         state_h state_account state_previous state_representative state_balance state_link
         state_signature state_work] in *;
    read_run; try done.
  unfold read_le.
  match goal with |- context [be_bytes 8 ?w ++ _] => pose proof (be_bytes_length 8 w) as Hl end.
  rewrite <- Hl at 1. rewrite read_bytes_app. cbn [mbind option_bind].
  by rewrite be_of_le_swap.
Qed.

Lemma deserialize_typed_serialize t b s s' :
  deserialize_block_typed t s = Some (b, s') ->
  s = serialize b ++ s' /\ block_type_of b = t /\ wf_block b.
Proof.
  destruct t; cbn [deserialize_block_typed]; intros H; try done;
    autounfold with block_read in H; read_inv; cbn [serialize];
    autounfold with block_read;
    cbn; rewrite <- ?app_assoc; split_and!; try done.
  - by rewrite swap_le_bytes.
  - apply swap_in_width.
Qed.

Lemma block_type_of_code_code t : block_type_of_code (block_type_code t) = t.
Proof. by destruct t. Qed.

#[export] Instance block_codec : Codec block := {
  codec_wf := wf_block;
  codec_put := serialize_block;
  codec_get := deserialize_block
}.

Lemma read_le_type b s :
  read_le 1 (le_bytes 1 (block_type_code (block_type_of b)) ++ s)
  = Some (block_type_code (block_type_of b), s).
Proof. apply read_le_bytes. by destruct b. Qed.

Lemma in_width_byte_code c :
  in_width (8 * Z.of_nat 1) c ->
  block_type_of_code c <> bt_invalid -> block_type_code (block_type_of_code c) = c.
Proof.
  intros _ Hc. destruct c as [|p|p]; try done.
  do 3 (destruct p as [p|p|]; try done).
Qed.

Lemma deserialize_block_put b s :
  wf_block b -> deserialize_block (serialize_block b ++ s) = Some (b, s).
Proof.
  intros Hwf. unfold deserialize_block, serialize_block.
  rewrite <- app_assoc, read_le_type. cbn [mbind option_bind].
  rewrite block_type_of_code_code. by apply deserialize_serialize_typed.
Qed.

Lemma serialize_block_get b s s' :
  deserialize_block s = Some (b, s') -> s = serialize_block b ++ s' /\ wf_block b.
Proof.
  unfold deserialize_block, serialize_block.
  intros ([c t] & [-> Hc]%read_le_Some & H)%bind_Some.
  apply deserialize_typed_serialize in H as (-> & Ht & Hwf). split; [|done].
  rewrite Ht, in_width_byte_code, app_assoc by (done || (rewrite <- Ht; by destruct b)). done.
Qed.

#[export] Instance block_codec_laws : CodecLaws block.
Proof. split; [exact deserialize_block_put|exact serialize_block_get]. Qed.

(** C36. A block printed by [serialize_block] is read back by [deserialize_block],
    whatever follows it in the stream. *)
Theorem deserialize_serialize_block b s :
  wf_block b -> deserialize_block (serialize_block b ++ s) = Some (b, s).
Proof. exact (codec_get_put (A := block) b s). Qed.

(** Whatever [deserialize_block] accepts is exactly the printed form of the block
    it returns, and that block's fields are in range. *)
Theorem serialize_deserialize_block b s s' :
  deserialize_block s = Some (b, s') -> s = serialize_block b ++ s' /\ wf_block b.
Proof. exact (codec_put_get (A := block) b s s'). Qed.

(** The printed form of a block has the length its class announces in [size]. *)
Theorem serialize_length b :
  Z.of_nat (length (serialize b)) = block_size (block_type_of b).
Proof.
  destruct b; cbn [serialize block_type_of block_size]; autounfold with block_read;
    rewrite !length_app, ?be_bytes_length, ?le_bytes_length; done.
Qed.

Lemma blocks_equal_iff a b : blocks_equal a b = true <-> a = b.
Proof.
  split; [|intros ->; destruct b; simpl; rewrite !Z.eqb_refl; done].
  destruct a as [[[]]|[[]]|[[]]|[[]]|[[]]], b as [[[]]|[[]]|[[]]|[[]]|[[]]];
    simpl; intros H; try done;
    repeat (apply andb_true_iff in H as [H ?%Z.eqb_eq]); apply Z.eqb_eq in H; by subst.
Qed.

(** [operator==] holds exactly of equal blocks. *)
Theorem blocks_equal_spec a b : blocks_equal a b = true <-> a = b.
Proof. apply blocks_equal_iff. Qed.

(** ** Digest inputs *)

(** Two blocks carry the same hashables under the same type. *)
Definition same_hashables (a b : block) : Prop :=
  match a, b with
  | Send a, Send b => send_h a = send_h b
  | Receive a, Receive b => receive_h a = receive_h b
  | Open a, Open b => open_h a = open_h b
  | Change a, Change b => change_h a = change_h b
  | State a, State b => state_h a = state_h b
  | _, _ => False
  end.

(** A receive block and a change block over the same two words. *)
Definition receive_change_twins (a b : block) : Prop :=
  match a, b with
  | Receive a, Change b | Change b, Receive a =>
      receive_previous a = change_previous b /\ receive_source a = change_representative b
  | _, _ => False
  end.

Lemma be_bytes_inj n x y :
  in_width (8 * Z.of_nat n) x -> in_width (8 * Z.of_nat n) y ->
  be_bytes n x = be_bytes n y -> x = y.
Proof.
  intros Hx Hy H%(f_equal of_be_bytes). rewrite !of_be_be_bytes, !wrap_small in H; done.
Qed.

Lemma be_bytes_app_inj n x y s t :
  in_width (8 * Z.of_nat n) x -> in_width (8 * Z.of_nat n) y ->
  be_bytes n x ++ s = be_bytes n y ++ t -> x = y /\ s = t.
Proof.
  intros Hx Hy [H1 H2]%app_inj_1; [|by rewrite !be_bytes_length].
  split; [|done]. by eapply be_bytes_inj.
Qed.

Ltac be_inj :=
  repeat match goal with
  | H : be_bytes _ _ ++ _ = be_bytes _ _ ++ _ |- _ =>
      apply be_bytes_app_inj in H as [? H]; [|done|done]
  | H : be_bytes _ _ = be_bytes _ _ |- _ => apply be_bytes_inj in H; [|done|done]
  end.

Lemma hash_input_length b :
  length (hash_input b) =
  match b with Send _ => 80 | Receive _ => 64 | Open _ => 96 | Change _ => 64 | State _ => 176 end%nat.
Proof.
  destruct b; cbn [hash_input];
    unfold send_hash_input, receive_hash_input, open_hash_input, change_hash_input,
      state_hash_input, state_hashables_hash_input;
    rewrite !length_app, !be_bytes_length; done.
Qed.

Lemma hash_input_hashables a b :
  wf_block a -> wf_block b -> hash_input a = hash_input b ->
  same_hashables a b \/ receive_change_twins a b.
Proof.
  intros Ha Hb H. pose proof (f_equal length H) as Hl. rewrite !hash_input_length in Hl.
  destruct a as [[[]]|[[]]|[[]]|[[]]|[[]]], b as [[[]]|[[]]|[[]]|[[]]|[[]]];
    try done; cbn in Ha, Hb, H |- *; destruct_and! Ha; destruct_and! Hb;
    unfold send_hash_input, receive_hash_input, open_hash_input, change_hash_input,
      state_hash_input, state_hashables_hash_input in H; cbn in H; be_inj; subst; auto.
Qed.

(** C37. The digest input determines the block up to signature and work, except that a
    receive block and a change block over the same two words are digested alike. *)
Theorem hash_input_inj a b :
  wf_block a -> wf_block b ->
  hash_input a = hash_input b <-> same_hashables a b \/ receive_change_twins a b.
Proof.
  intros Ha Hb. split; [by apply hash_input_hashables|].
  - destruct a as [[]|[[]]|[]|[[]]|[]], b as [[]|[[]]|[]|[[]]|[]]; cbn; intros [H|H];
      try done; try (by f_equal); destruct H as [-> ->]; done.
Qed.

Lemma wf_receive_1_2 : wf_block (Receive (ReceiveBlock (ReceiveHashables 1 2) 3 4)).
Proof. cbn. unfold in_width. lia. Qed.

Lemma wf_change_1_2 : wf_block (Change (ChangeBlock (ChangeHashables 1 2) 3 4)).
Proof. cbn. unfold in_width. lia. Qed.

Lemma deserialize_serialize_block_witness :
  deserialize_block (serialize_block (Receive (ReceiveBlock (ReceiveHashables 1 2) 3 4)) ++ [Byte.x00])
  = Some (Receive (ReceiveBlock (ReceiveHashables 1 2) 3 4), [Byte.x00]).
Proof. apply deserialize_serialize_block. exact wf_receive_1_2. Defined.

(** The bytes of a change block. *)
Definition change_bytes_1_2 : stream := serialize_block (Change (ChangeBlock (ChangeHashables 1 2) 3 4)).

Lemma serialize_deserialize_block_witness :
  change_bytes_1_2 = serialize_block (Change (ChangeBlock (ChangeHashables 1 2) 3 4)) ++ []
  /\ wf_block (Change (ChangeBlock (ChangeHashables 1 2) 3 4)).
Proof. apply serialize_deserialize_block. vm_compute. reflexivity. Defined.

Lemma hash_input_inj_witness :
  hash_input (Receive (ReceiveBlock (ReceiveHashables 1 2) 3 4))
  = hash_input (Change (ChangeBlock (ChangeHashables 1 2) 3 4)).
Proof. apply (hash_input_inj _ _ wf_receive_1_2 wf_change_1_2). right. done. Defined.
