(* ===== verification/Common.v ===== *)
(** * Common: the records of the ledger and their wire formats

    [rai/common.hpp], [rai/common.cpp]: account, pending and block information,
    votes, the outcome of processing a block, and the environment the ledger is
    run in. *)

From stdpp Require Import base list option tactics gmap.
From Stdlib Require Import ZArith Lia.
From S2P Require Import Prelude Blocks.
#[local] Open Scope Z_scope.

(** ** Environment

    What the ledger takes from outside its own logic: the blake2b digest (a number
    of output bytes and the concatenated input of its [update] calls), ed25519, the
    configured network's genesis block and the clock, whose n-th reading is
    [seconds_since_epoch n]. *)
Class Env := {
  blake2b : nat -> stream -> list byte;
  ed25519_sign_open : Z -> Z -> Z -> Z;
  ed25519_sign : Z -> Z -> Z -> Z;
  genesis_account : Z;
  genesis_signature : Z;
  genesis_work : Z;
  seconds_since_epoch : nat -> Z
}.

(** [std::numeric_limits<rai::uint128_t>::max ()]. *)
Definition genesis_amount : Z := 2 ^ 128 - 1.
Definition burn_account : Z := 0.

(** [block::hash]. *)
Definition hash `{Env} (b : block) : Z := of_be_bytes (blake2b 32 (hash_input b)).

(** [validate_message]: [true] is an error. *)
Definition validate_message `{Env} (public_key message signature : Z) : bool :=
  negb (0 =? ed25519_sign_open message public_key signature).

(** [sign_message]. *)
Definition sign_message `{Env} (private_key public_key message : Z) : Z :=
  ed25519_sign message private_key public_key.

(** ** Account information *)

Record account_info := AccountInfo {
  ai_head : Z;
  ai_rep_block : Z;
  ai_open_block : Z;
  ai_balance : Z;
  ai_modified : Z;
  ai_block_count : Z
}.

(** The default constructor. *)
Definition account_info_default : account_info := AccountInfo 0 0 0 0 0 0.

#[global] Instance account_info_eq_dec : EqDecision account_info.
Proof. solve_decision. Defined.

Definition account_info_serialize (i : account_info) : stream :=
  be_bytes 32 (ai_head i) ++ be_bytes 32 (ai_rep_block i) ++ be_bytes 32 (ai_open_block i)
  ++ be_bytes 16 (ai_balance i) ++ le_bytes 8 (ai_modified i) ++ le_bytes 8 (ai_block_count i).

Definition account_info_deserialize (s : stream) : option (account_info * stream) :=
  '(head, s) ← read_be 32 s;
  '(rep, s) ← read_be 32 s;
  '(op, s) ← read_be 32 s;
  '(bal, s) ← read_be 16 s;
  '(modified, s) ← read_le 8 s;
  '(count, s) ← read_le 8 s;
  Some (AccountInfo head rep op bal modified count, s).

Definition account_info_wf (i : account_info) : Prop :=
  in_width 256 (ai_head i) /\ in_width 256 (ai_rep_block i) /\ in_width 256 (ai_open_block i)
  /\ in_width 128 (ai_balance i) /\ in_width 64 (ai_modified i) /\ in_width 64 (ai_block_count i).

Definition account_info_equal (a b : account_info) : bool :=
  (ai_head a =? ai_head b) && (ai_rep_block a =? ai_rep_block b)
  && (ai_open_block a =? ai_open_block b) && (ai_balance a =? ai_balance b)
  && (ai_modified a =? ai_modified b) && (ai_block_count a =? ai_block_count b).

(** ** Pending sends *)

Record pending_info := PendingInfo {
  pi_source : Z;
  pi_amount : Z
}.

#[global] Instance pending_info_eq_dec : EqDecision pending_info.
Proof. solve_decision. Defined.

Definition pending_info_serialize (i : pending_info) : stream :=
  be_bytes 32 (pi_source i) ++ be_bytes 16 (pi_amount i).

Definition pending_info_deserialize (s : stream) : option (pending_info * stream) :=
  '(src, s) ← read_be 32 s;
  '(am, s) ← read_be 16 s;
  Some (PendingInfo src am, s).

Definition pending_info_wf (i : pending_info) : Prop :=
  in_width 256 (pi_source i) /\ in_width 128 (pi_amount i).

(** A pending key: destination account and hash of the send. *)
Record pending_key := PendingKey {
  pk_account : Z;
  pk_hash : Z
}.

#[global] Instance pending_key_eq_dec : EqDecision pending_key.
Proof. solve_decision. Defined.
#[global] Instance pending_key_countable : Countable pending_key.
Proof.
  apply (inj_countable' (fun k => (pk_account k, pk_hash k)) (fun p => PendingKey p.1 p.2)).
  by intros [].
Defined.

Definition pending_key_serialize (k : pending_key) : stream :=
  be_bytes 32 (pk_account k) ++ be_bytes 32 (pk_hash k).

Definition pending_key_deserialize (s : stream) : option (pending_key * stream) :=
  '(a, s) ← read_be 32 s;
  '(h, s) ← read_be 32 s;
  Some (PendingKey a h, s).

Definition pending_key_wf (k : pending_key) : Prop :=
  in_width 256 (pk_account k) /\ in_width 256 (pk_hash k).

(** ** Block information: account and balance, kept for every
    [block_info_max]-th legacy block of a chain. *)

Record block_info := BlockInfo {
  bi_account : Z;
  bi_balance : Z
}.

#[global] Instance block_info_eq_dec : EqDecision block_info.
Proof. solve_decision. Defined.

Definition block_info_serialize (i : block_info) : stream :=
  be_bytes 32 (bi_account i) ++ be_bytes 16 (bi_balance i).

Definition block_info_deserialize (s : stream) : option (block_info * stream) :=
  '(a, s) ← read_be 32 s;
  '(b, s) ← read_be 16 s;
  Some (BlockInfo a b, s).

Definition block_info_wf (i : block_info) : Prop :=
  in_width 256 (bi_account i) /\ in_width 128 (bi_balance i).

Record block_counts := BlockCounts {
  bc_send : Z;
  bc_receive : Z;
  bc_open : Z;
  bc_change : Z;
  bc_state : Z
}.

(** [block_counts::sum], in [size_t]. *)
Definition block_counts_sum (c : block_counts) : Z :=
  wrap 64 (bc_send c + bc_receive c + bc_open c + bc_change c + bc_state c).

(** ** Votes *)

Record vote := Vote {
  vote_sequence : Z;
  vote_block : block;
  vote_account : Z;
  vote_signature : Z
}.

#[global] Instance vote_eq_dec : EqDecision vote.
Proof. solve_decision. Defined.

(** [vote::hash]: the block's digest and the sequence number. *)
Definition vote_hash_input `{Env} (b : block) (sequence : Z) : stream :=
  be_bytes 32 (hash b) ++ le_bytes 8 sequence.

Definition vote_hash `{Env} (b : block) (sequence : Z) : Z :=
  of_be_bytes (blake2b 32 (vote_hash_input b sequence)).

Definition vote_make `{Env} (account prv sequence : Z) (b : block) : vote :=
  Vote sequence b account (sign_message prv account (vote_hash b sequence)).

(** [vote::validate]: [true] is an error. *)
Definition vote_validate `{Env} (v : vote) : bool :=
  validate_message (vote_account v) (vote_hash (vote_block v) (vote_sequence v)) (vote_signature v).

Definition vote_serialize (v : vote) : stream :=
  be_bytes 32 (vote_account v) ++ be_bytes 64 (vote_signature v)
  ++ le_bytes 8 (vote_sequence v) ++ serialize_block (vote_block v).

Definition vote_serialize_typed (v : vote) : stream :=
  be_bytes 32 (vote_account v) ++ be_bytes 64 (vote_signature v)
  ++ le_bytes 8 (vote_sequence v) ++ serialize (vote_block v).

Definition vote_read (s : stream) : option (vote * stream) :=
  '(a, s) ← read_be 32 s;
  '(sig, s) ← read_be 64 s;
  '(seq, s) ← read_le 8 s;
  '(b, s) ← deserialize_block s;
  Some (Vote seq b a sig, s).

Definition vote_read_typed (t : block_type) (s : stream) : option (vote * stream) :=
  '(a, s) ← read_be 32 s;
  '(sig, s) ← read_be 64 s;
  '(seq, s) ← read_le 8 s;
  '(b, s) ← deserialize_block_typed t s;
  Some (Vote seq b a sig, s).

Definition vote_wf (v : vote) : Prop :=
  in_width 256 (vote_account v) /\ in_width 512 (vote_signature v)
  /\ in_width 64 (vote_sequence v) /\ wf_block (vote_block v).

(** [vote::operator==]. *)
Definition vote_equal (a b : vote) : bool :=
  (vote_sequence a =? vote_sequence b) && blocks_equal (vote_block a) (vote_block b)
  && (vote_account a =? vote_account b) && (vote_signature a =? vote_signature b).

(** ** Outcome of processing a block *)

Inductive process_result :=
| progress
| bad_signature
| old
| negative_spend
| fork
| unreceivable
| gap_previous
| gap_source
| opened_burn_account
| balance_mismatch
| block_position.

#[global] Instance process_result_eq_dec : EqDecision process_result.
Proof. solve_decision. Defined.

(** [process_return]; a field the processor has not assigned is [None]. *)
Record process_return := ProcessReturn {
  pr_code : process_result;
  pr_account : option Z;
  pr_amount : option Z;
  pr_pending_account : option Z;
  pr_state_is_send : option bool
}.

(** ** Codec laws *)

Create HintDb record_read.
#[export] Hint Unfold account_info_serialize account_info_deserialize account_info_wf : record_read.
#[export] Hint Unfold pending_info_serialize pending_info_deserialize pending_info_wf : record_read.
#[export] Hint Unfold pending_key_serialize pending_key_deserialize pending_key_wf : record_read.
#[export] Hint Unfold block_info_serialize block_info_deserialize block_info_wf : record_read.
#[export] Hint Unfold vote_serialize vote_read vote_wf vote_serialize_typed vote_read_typed : record_read.

#[export] Instance account_info_codec : Codec account_info := {
  codec_wf := account_info_wf;
  codec_put := account_info_serialize;
  codec_get := account_info_deserialize
}.
#[export] Instance pending_info_codec : Codec pending_info := {
  codec_wf := pending_info_wf;
  codec_put := pending_info_serialize;
  codec_get := pending_info_deserialize
}.
#[export] Instance pending_key_codec : Codec pending_key := {
  codec_wf := pending_key_wf;
  codec_put := pending_key_serialize;
  codec_get := pending_key_deserialize
}.
#[export] Instance block_info_codec : Codec block_info := {
  codec_wf := block_info_wf;
  codec_put := block_info_serialize;
  codec_get := block_info_deserialize
}.
#[export] Instance vote_codec : Codec vote := {
  codec_wf := vote_wf;
  codec_put := vote_serialize;
  codec_get := vote_read
}.

(** Both laws of a record whose fields are all fixed-width numbers. *)
Ltac fixed_record_laws :=
  split;
  [intros [] ? H; cbn in H |- *; autounfold with record_read in *; cbn in H |- *;
   destruct_and! H; by read_run
  |intros ? ? ? H; cbn in H |- *; autounfold with record_read in *; read_inv; cbn;
   rewrite <- ?app_assoc; done].

#[export] Instance account_info_laws : CodecLaws account_info.
Proof. fixed_record_laws. Qed.
#[export] Instance pending_info_laws : CodecLaws pending_info.
Proof. fixed_record_laws. Qed.
#[export] Instance pending_key_laws : CodecLaws pending_key.
Proof. fixed_record_laws. Qed.
#[export] Instance block_info_laws : CodecLaws block_info.
Proof. fixed_record_laws. Qed.

(** [vote::deserialize] asks [deserialize_block] for a block of type
    [block_type ()], the value-initialised enumerator. *)
Definition vote_deserialize (s : stream) : option (vote * stream) :=
  '(a, s) ← read_be 32 s;
  '(sig, s) ← read_be 64 s;
  '(seq, s) ← read_le 8 s;
  '(b, s) ← deserialize_block_typed bt_invalid s;
  Some (Vote seq b a sig, s).

#[export] Instance vote_laws : CodecLaws vote.
Proof.
  split.
  - intros [] s H. cbn in H |- *. autounfold with record_read in *. cbn in H |- *.
    destruct_and! H. read_run. by rewrite deserialize_block_put.
  - intros v s s' H. cbn in H |- *. autounfold with record_read in *.
    apply bind_Some in H as ([a t1] & [-> Ha]%read_be_Some & H).
    apply bind_Some in H as ([sig t2] & [-> Hs]%read_be_Some & H).
    apply bind_Some in H as ([seq t3] & [-> Hq]%read_le_Some & H).
    apply bind_Some in H as ([b t4] & [-> Hb]%serialize_block_get & H).
    simplify_eq. cbn. rewrite <- ?app_assoc. done.
Qed.

Lemma vote_read_put v s : vote_wf v -> vote_read (vote_serialize v ++ s) = Some (v, s).
Proof. exact (codec_get_put (A := vote) v s). Qed.
