(* ===== verification/Stats.v ===== *)
(** * Stats: the counters of [rai/node/stats.hpp]

    The ledger counts the blocks it applies and rolls back. A counter is keyed by
    a 32-bit word that packs type, detail and direction. *)

From stdpp Require Import base gmap option tactics.
From Stdlib Require Import ZArith Lia.
From S2P Require Import Prelude.
#[local] Open Scope Z_scope.

(** [stat::type]. *)
Inductive stat_type :=
| st_traffic
| st_error
| st_message
| st_block
| st_ledger
| st_rollback
| st_bootstrap
| st_vote
| st_peering.

(** [stat::detail]. *)
Inductive stat_detail :=
| sd_all
| sd_bad_sender
| sd_insufficient_work
| sd_send
| sd_receive
| sd_open
| sd_change
| sd_state_block
| sd_keepalive
| sd_publish
| sd_republish_vote
| sd_confirm_req
| sd_confirm_ack
| sd_initiate
| sd_bulk_pull
| sd_bulk_push
| sd_bulk_pull_blocks
| sd_frontier_req
| sd_vote_valid
| sd_vote_replay
| sd_vote_invalid
| sd_handshake.

(** [stat::dir]. *)
Inductive stat_dir :=
| dir_in
| dir_out.

#[global] Instance stat_type_eq_dec : EqDecision stat_type.
Proof. solve_decision. Defined.
#[global] Instance stat_detail_eq_dec : EqDecision stat_detail.
Proof. solve_decision. Defined.
#[global] Instance stat_dir_eq_dec : EqDecision stat_dir.
Proof. solve_decision. Defined.

Definition stat_type_code (t : stat_type) : Z :=
  match t with
  | st_traffic => 0
  | st_error => 1
  | st_message => 2
  | st_block => 3
  | st_ledger => 4
  | st_rollback => 5
  | st_bootstrap => 6
  | st_vote => 7
  | st_peering => 8
  end.

Definition stat_detail_code (d : stat_detail) : Z :=
  match d with
  | sd_all => 0
  | sd_bad_sender => 1
  | sd_insufficient_work => 2
  | sd_send => 3
  | sd_receive => 4
  | sd_open => 5
  | sd_change => 6
  | sd_state_block => 7
  | sd_keepalive => 8
  | sd_publish => 9
  | sd_republish_vote => 10
  | sd_confirm_req => 11
  | sd_confirm_ack => 12
  | sd_initiate => 13
  | sd_bulk_pull => 14
  | sd_bulk_push => 15
  | sd_bulk_pull_blocks => 16
  | sd_frontier_req => 17
  | sd_vote_valid => 18
  | sd_vote_replay => 19
  | sd_vote_invalid => 20
  | sd_handshake => 21
  end.

Definition stat_dir_code (d : stat_dir) : Z :=
  match d with
  | dir_in => 0
  | dir_out => 1
  end.

(** [stat::key_of]. *)
Definition key_of (t : stat_type) (d : stat_detail) (dir : stat_dir) : Z :=
  Z.lor (Z.lor (Z.shiftl (stat_type_code t) 16) (Z.shiftl (stat_detail_code d) 8))
        (stat_dir_code dir).

Definition no_detail_mask : Z := 0xffff00ff.

(** The counters by key; an absent entry is created with value zero. *)
Definition counters := gmap Z Z.

Definition counter_value (key : Z) (c : counters) : Z := default 0 ((c : gmap Z Z) !! key).

(** The counter part of [stat::update]. *)
Definition stat_update (key value : Z) (c : counters) : counters :=
  <[key := wrap 64 (counter_value key c + value)]> (c : gmap Z Z).

(** [stat::add]. *)
Definition stat_add (t : stat_type) (d : stat_detail) (dir : stat_dir) (value : Z)
    (detail_only : bool) (c : counters) : counters :=
  let key := key_of t d dir in
  let c := stat_update key value c in
  if negb detail_only && negb (Z.land key no_detail_mask =? key)
  then stat_update (Z.land key no_detail_mask) value c else c.

(** [stat::inc (type, detail, dir)]. *)
Definition stat_inc (t : stat_type) (d : stat_detail) (dir : stat_dir) (c : counters) : counters :=
  stat_add t d dir 1 false c.

(** [stat::inc_detail_only], which leaves the last argument of [add] at its
    default. *)
Definition stat_inc_detail_only (t : stat_type) (d : stat_detail) (dir : stat_dir)
    (c : counters) : counters :=
  stat_add t d dir 1 false c.

(** [stat::count]. *)
Definition stat_count (t : stat_type) (d : stat_detail) (dir : stat_dir) (c : counters) : Z :=
  counter_value (key_of t d dir) c.

(** ** Lemmas *)

#[export] Instance stat_type_code_inj : Inj eq eq stat_type_code.
Proof. by intros [] []. Qed.
#[export] Instance stat_detail_code_inj : Inj eq eq stat_detail_code.
Proof. by intros [] []. Qed.
#[export] Instance stat_dir_code_inj : Inj eq eq stat_dir_code.
Proof. by intros [] []. Qed.

(** The fields of a key, as [type_to_string], [detail_to_string] and
    [dir_to_string] take them apart. *)
Lemma key_of_fields t d dir :
  Z.land (Z.shiftr (key_of t d dir) 16) 0xff = stat_type_code t
  /\ Z.land (Z.shiftr (key_of t d dir) 8) 0xff = stat_detail_code d
  /\ Z.land (key_of t d dir) 0xff = stat_dir_code dir.
Proof. by destruct t, d, dir. Qed.

Lemma key_of_inj t d dir t' d' dir' :
  key_of t d dir = key_of t' d' dir' -> t = t' /\ d = d' /\ dir = dir'.
Proof.
  intros H. pose proof (key_of_fields t d dir) as (H1 & H2 & H3).
  rewrite H in H1, H2, H3. pose proof (key_of_fields t' d' dir') as (H1' & H2' & H3').
  rewrite H1' in H1. rewrite H2' in H2. rewrite H3' in H3.
  by apply (inj _) in H1 as ->, H2 as ->, H3 as ->.
Qed.

Lemma key_of_mask t d dir : Z.land (key_of t d dir) no_detail_mask = key_of t sd_all dir.
Proof. by destruct t, d, dir. Qed.

Lemma counter_value_update key key' v c :
  counter_value key' (stat_update key v c)
  = if decide (key = key') then wrap 64 (counter_value key c + v) else counter_value key' c.
Proof.
  unfold counter_value, stat_update, counters in *. rewrite lookup_insert. by case_decide.
Qed.

Lemma stat_inc_counter t d dir key c :
  d <> sd_all ->
  counter_value key (stat_inc t d dir c) =
  if decide (key = key_of t d dir \/ key = key_of t sd_all dir)
  then wrap 64 (counter_value key c + 1) else counter_value key c.
Proof.
  intros Hd. unfold stat_inc, stat_add. rewrite key_of_mask.
  assert (key_of t sd_all dir <> key_of t d dir) as Hne
    by (intros (_ & <- & _)%key_of_inj; done).
  rewrite (proj2 (Z.eqb_neq _ _) Hne). cbn [negb andb].
  rewrite !counter_value_update. repeat case_decide; naive_solver.
Qed.

(** Incrementing a detail counter adds one to it and one to its type-level counter,
    and leaves every other counter alone. *)
Theorem stat_inc_count t d dir t' d' dir' c :
  d <> sd_all ->
  stat_count t' d' dir' (stat_inc t d dir c) =
  if decide (t' = t /\ dir' = dir /\ (d' = d \/ d' = sd_all))
  then wrap 64 (stat_count t' d' dir' c + 1) else stat_count t' d' dir' c.
Proof.
  intros Hd. unfold stat_count. rewrite stat_inc_counter by done.
  assert (key_of t' d' dir' = key_of t d dir \/ key_of t' d' dir' = key_of t sd_all dir
    <-> t' = t /\ dir' = dir /\ (d' = d \/ d' = sd_all)) as Hiff.
  { split; [intros [(-> & -> & ->)%key_of_inj|(-> & -> & ->)%key_of_inj]; auto|].
    intros (-> & -> & [->| ->]); auto. }
  repeat case_decide; tauto.
Qed.

(** [inc_detail_only] behaves as [inc]: the type-level counter moves too. *)
Theorem stat_inc_detail_only_type_level t d dir c :
  d <> sd_all ->
  stat_count t sd_all dir (stat_inc_detail_only t d dir c) = wrap 64 (stat_count t sd_all dir c + 1).
Proof.
  intros Hd. change (stat_inc_detail_only t d dir c) with (stat_inc t d dir c).
  unfold stat_count. rewrite stat_inc_counter by done. rewrite decide_True by auto. done.
Qed.

Lemma stat_inc_count_witness :
  stat_count st_ledger sd_all dir_in (stat_inc st_ledger sd_send dir_in ∅) = wrap 64 (0 + 1).
Proof. exact (stat_inc_count st_ledger sd_send dir_in st_ledger sd_all dir_in ∅ ltac:(discriminate)). Defined.

Lemma stat_inc_detail_only_witness :
  stat_count st_error sd_all dir_in (stat_inc_detail_only st_error sd_bad_sender dir_in ∅) = wrap 64 (0 + 1).
Proof. exact (stat_inc_detail_only_type_level st_error sd_bad_sender dir_in ∅ ltac:(discriminate)). Defined.
