(* ===== verification/Numbers.v ===== *)
(** * Numbers: text forms of numbers, accounts and balances

    [uint128_union], [uint256_union] and [uint512_union] (lib/numbers.cpp) are numbers here;
    this file has their hexadecimal, decimal and account text, the formatting of balances,
    key derivation, and the C functions of lib/interface.cpp over them. Texts are lists of
    characters. *)

From Stdlib Require Import ZArith Lia String.
From stdpp Require Import base list option tactics gmap.
From S2P Require Import Prelude Blocks Common.
#[local] Open Scope Z_scope.
#[local] Abbreviation length := Datatypes.length.

(** ** Characters *)

Definition chars (s : string) : stream := list_byte_of_string s.
Definition code (c : byte) : Z := Z_of_byte c.
Definition char_is (z : Z) (c : byte) : bool := code c =? z.

(** What formatted streams do with numbers of the multiprecision library: the letters of
    hexadecimal digits, and extraction of a number of a width from a text; [None] is an
    exception, and the rest of the text is returned. *)
Class Streams := {
  hex_upper : bool;
  extract : Z -> Z -> stream -> option (Z * stream)
}.

Definition digit_char (upper : bool) (d : Z) : byte :=
  byte_of_Z (if d <? 10 then 0x30 + d else (if upper then 0x41 else 0x61) + (d - 10)).

(** The digits of a number, most significant first. *)
Fixpoint digits_loop (fuel : nat) (base n : Z) (acc : list Z) : list Z :=
  match fuel with
  | O => acc
  | S fuel => let acc := n mod base :: acc in if n <? base then acc else digits_loop fuel base (n / base) acc
  end.

Definition digits (base n : Z) : list Z := digits_loop (S (Z.to_nat (Z.log2 n))) base n [].

(** [stream << number], in base 10 or 16. *)
Definition print_number (upper : bool) (base n : Z) : stream := digit_char upper <$> digits base n.
Definition print_dec (n : Z) : stream := print_number false 10 n.

(** [setw (w)] and [setfill ('0')]. *)
Definition pad_zeros (w : nat) (s : stream) : stream := replicate (w - length s) (byte_of_Z 0x30) ++ s.

Section text.
Context `{S0 : Streams}.

(** ** Hexadecimal and decimal text *)

Definition uint128_encode_hex (n : Z) : stream := pad_zeros 32 (print_number hex_upper 16 n).
Definition uint256_encode_hex (n : Z) : stream := pad_zeros 64 (print_number hex_upper 16 n).
Definition uint512_encode_hex (n : Z) : stream := pad_zeros 128 (print_number hex_upper 16 n).
Definition uint128_encode_dec (n : Z) : stream := print_dec n.
Definition uint256_encode_dec (n : Z) : stream := print_dec n.

(** Extraction of a whole text: the error and the new value; an exception leaves the old one. *)
Definition extract_all (w base : Z) (this : Z) (s : stream) : bool * Z :=
  match extract w base s with
  | None => (true, this)
  | Some (n, rest) => (match rest with [] => false | _ => true end, wrap w n)
  end.

(** The result is [true] for an error, and the new value. *)
Definition uint256_decode_hex (this : Z) (s : stream) : bool * Z :=
  if bool_decide (s <> []) && (length s <=? 64)%nat then extract_all 256 16 this s else (true, this).

Definition uint512_decode_hex (this : Z) (s : stream) : bool * Z :=
  if (128 <? length s)%nat then (true, this) else extract_all 512 16 this s.

Definition uint128_decode_hex (this : Z) (s : stream) : bool * Z :=
  if (32 <? length s)%nat then (true, this) else extract_all 128 16 this s.

(** A text that is too long, has a leading zero or a sign. *)
Definition bad_decimal (limit : nat) (s : stream) : bool :=
  (limit <? length s)%nat
  || ((1 <? length s)%nat && match s with c :: _ => char_is 0x30 c | [] => false end)
  || match s with c :: _ => char_is 0x2d c | [] => false end.

Definition uint256_decode_dec (this : Z) (s : stream) : bool * Z :=
  if bad_decimal 78 s then (true, this) else extract_all 256 10 this s.

Definition uint128_decode_dec (this : Z) (s : stream) : bool * Z :=
  if bad_decimal 39 s then (true, this) else extract_all 128 10 this s.
End text.

(** ** Property trees *)

(** A tree of texts under names; [ptree::get]: the value of the first pair with the name. *)
Definition tree_get (tree : list (stream * stream)) (name : stream) : option stream :=
  snd <$> List.find (fun e => bool_decide (fst e = name)) tree.

(** ** Accounts *)

Definition account_lookup : stream := chars "13456789abcdefghijkmnopqrstuwxyz".
Definition account_reverse : stream :=
  chars "~0~1234567~~~~~~~~~~~~~~~~~~~~~~~~~~~~~~~~~~~~~~~89:;<=>?@AB~CDEFGHIJK~LMNO~~~~~".

Definition account_encode (value : Z) : option byte :=
  _ ← assert (value <? 32); account_lookup !! Z.to_nat value.

Definition account_decode (value : Z) : option Z :=
  _ ← assert (0x30 <=? value);
  _ ← assert (value <=? 0x7e);
  c ← account_reverse !! Z.to_nat (value - 0x30);
  Some (wrap 8 (code c - 0x30)).

(** The loop of [encode_account]: the characters, last first. *)
Fixpoint account_chars (count : nat) (number_l : Z) : option stream :=
  match count with
  | O => Some []
  | S count =>
    c ← account_encode (Z.land number_l 0x1f);
    rest ← account_chars count (Z.shiftr number_l 5);
    Some (c :: rest)
  end.

(** The loop of [decode_account]: the inner [None] is an error. *)
Fixpoint account_number (s : stream) (number_l : Z) : option (option Z) :=
  match s with
  | [] => Some (Some number_l)
  | c :: s =>
    if (code c <? 0x30) || (0x80 <=? code c) then Some None else
    b ← account_decode (code c);
    if b =? 0x7e then Some None else account_number s (wrap 512 (wrap 512 (Z.shiftl number_l 5) + b))
  end.

Section account.
Context `{E0 : Env}.

(** The 40-bit checksum of an account. *)
Definition account_check (n : Z) : Z := of_le_bytes (blake2b 5 (be_bytes 32 n)).

Definition encode_account (n : Z) : option stream :=
  s ← account_chars 60 (Z.lor (wrap 512 (Z.shiftl n 40)) (account_check n));
  Some (reverse (s ++ chars "_brx")).

Definition to_account (n : Z) : option stream := encode_account n.

Definition to_account_split (n : Z) : option stream :=
  s ← to_account n;
  _ ← assert (length s =? 64)%nat;
  Some (take 32 s ++ chars (String (Ascii.ascii_of_nat 10) "") ++ drop 32 s).

Definition xrb_prefix (s : stream) : bool :=
  match s with
  | c0 :: c1 :: c2 :: c3 :: _ =>
    char_is 0x78 c0 && char_is 0x72 c1 && char_is 0x62 c2 && (char_is 0x5f c3 || char_is 0x2d c3)
  | _ => false
  end.

Definition nano_prefix (s : stream) : bool :=
  match s with
  | c0 :: c1 :: c2 :: c3 :: c4 :: _ =>
    char_is 0x6e c0 && char_is 0x61 c1 && char_is 0x6e c2 && char_is 0x6f c3 && (char_is 0x5f c4 || char_is 0x2d c4)
  | _ => false
  end.

(** [decode_account]: [true] is an error; [this] is overwritten before the checksum is
    compared. *)
Definition decode_account (this : Z) (s : stream) : option (bool * Z) :=
  if (length s <? 5)%nat then Some (true, this) else
  let xrb := xrb_prefix s in
  let nano := nano_prefix s in
  if (xrb && negb (length s =? 64)%nat) || (nano && negb (length s =? 65)%nat) then Some (true, this) else
  if xrb || nano then
    let text := drop (if xrb then 4 else 5) s in
    match text with
    | c :: _ =>
      if char_is 0x31 c || char_is 0x33 c then
        number_l ← account_number text 0;
        match number_l with
        | None => Some (true, this)
        | Some number_l =>
          let this := wrap 256 (Z.shiftr number_l 40) in
          let check := wrap 64 (Z.land number_l 0xffffffffff) in
          Some (negb (check =? account_check this), this)
        end
      else Some (true, this)
    | [] => Some (true, this)
    end
  else Some (true, this).

(** ** Keys *)

(** [deterministic_key]: the last word of the index has its bytes most significant first. *)
Definition deterministic_key (seed index : Z) : Z :=
  of_be_bytes (blake2b 32 (be_bytes 32 seed ++ be_bytes 4 (wrap 32 index))).
End account.

(** ** Balances *)

(** [format_frac]: the digits of a fraction of [scale], at most [precision] of them; trailing
    zeros are left out. The loop divides [reduce] by ten and ends at one. *)
Fixpoint format_frac (fuel : nat) (rem reduce precision : Z) : option stream :=
  match fuel with
  | O => None
  | S fuel =>
    if (1 <? reduce) && (0 <? rem) && (0 <? precision) then
      let reduce := reduce / 10 in
      _ ← assert (negb (reduce =? 0));
      let val := rem / reduce in
      rest ← format_frac fuel (rem - val * reduce) reduce (precision - 1);
      Some (print_dec val ++ rest)
    else Some []
  end.

(** The first loop of [format_dec]: the greatest power of ten up to [value], and the count
    of its digits. *)
Fixpoint largest_pow10 (fuel : nat) (value pow : Z) (count : nat) : option (Z * nat) :=
  match fuel with
  | O => None
  | S fuel => if value <? pow * 10 then Some (pow, count) else largest_pow10 fuel value (pow * 10) (S count)
  end.

(** The second loop: after which digits, counted from the last, there is a separator. *)
Fixpoint emit_groups (n : nat) (groupings : list Z) (group_index : nat) (group_count : Z) : list bool :=
  match n with
  | O => []
  | S n =>
    let group_count := group_count + 1 in
    if default 0 (groupings !! group_index) <? group_count
    then true :: emit_groups n groupings (Nat.min (S group_index) (length groupings - 1)) 1
    else false :: emit_groups n groupings group_index group_count
  end.

(** The third loop: digits and separators. *)
Fixpoint format_digits (fuel : nat) (sep : option byte) (emit : list bool) (rem reduce : Z) (count : nat)
    : option stream :=
  match fuel with
  | O => None
  | S fuel =>
    if 0 <? reduce then
      let val := rem / reduce in
      let count := (count - 1)%nat in
      let separator :=
        match sep with
        | Some c => if default false (emit !! count) && (1 <? reduce) then [c] else []
        | None => []
        end in
      rest ← format_digits fuel sep emit (rem - val * reduce) (reduce / 10) count;
      Some (print_dec val ++ separator ++ rest)
    else Some []
  end.

(** [format_dec]; no separator is the character zero in the code. *)
Definition format_dec (value : Z) (sep : option byte) (groupings : list Z) : option stream :=
  '(pow, count) ← largest_pow10 40 value 1 1;
  if (39 <? count)%nat then Some [] else
  let emit := match sep with Some _ => emit_groups count groupings 0 0 | None => [] end in
  format_digits 41 sep emit value (wrap 128 pow) count.

Fixpoint div10 (n : nat) (z : Z) : Z := match n with O => z | S n => div10 n (z / 10) end.

(** [format_balance]; [None] is a division by zero. *)
Definition format_balance (balance scale : Z) (precision : Z) (group_digits : bool)
    (thousands_sep decimal_point : byte) (grouping : list Z) : option stream :=
  _ ← assert (negb (scale =? 0));
  let int_part := balance / scale in
  let frac_part := balance mod scale in
  let prec_scale := div10 (Z.to_nat precision) scale in
  below ← (if (int_part =? 0) && (0 <? frac_part)
           then _ ← assert (negb (prec_scale =? 0)); Some (frac_part / prec_scale =? 0)
           else Some false);
  if below : bool then
    Some (chars "< "
          ++ (if 0 <? precision
              then chars "0" ++ [decimal_point] ++ replicate (Z.to_nat (precision - 1)) (byte_of_Z 0x30) else [])
          ++ chars "1")
  else
    int_text ← format_dec int_part (if group_digits && (0 <? length grouping)%nat then Some thousands_sep else None) grouping;
    frac_text ← (if (0 <? precision) && (0 <? frac_part)
                 then s ← format_frac 40 frac_part scale precision; Some (decimal_point :: s)
                 else Some []);
    Some (int_text ++ frac_text).

(** ** The C interface *)

(** [strncpy]: a shorter text is filled up with zeros. *)
Definition strncpy (s : stream) (n : nat) : stream := take n (s ++ replicate n Init.Byte.x00).

Section interface.
Context `{E0 : Env} `{S0 : Streams}.

Definition xrb_uint128_to_dec (n : Z) : stream := strncpy (uint128_encode_dec n) 32.
Definition xrb_uint256_to_string (n : Z) : stream := strncpy (uint256_encode_hex n) 64.
Definition xrb_uint256_to_address (n : Z) : option stream := s ← to_account n; Some (strncpy s 65).
Definition xrb_uint512_to_string (n : Z) : stream := strncpy (uint512_encode_hex n) 128.
Definition error_code (e : bool * Z) : Z * Z := (if fst e then 1 else 0, snd e).
Definition xrb_uint128_from_dec (s : stream) (this : Z) : Z * Z := error_code (uint128_decode_dec this s).
Definition xrb_uint256_from_string (s : stream) (this : Z) : Z * Z := error_code (uint256_decode_hex this s).
Definition xrb_uint512_from_string (s : stream) (this : Z) : Z * Z := error_code (uint512_decode_hex this s).
Definition xrb_valid_address (s : stream) : option Z := e ← decode_account 0 s; Some (fst (error_code e)).
Definition xrb_seed_key (seed index : Z) : Z := deterministic_key seed index.
End interface.
