(* ===== verification/TextForms.v ===== *)
(** * TextForms: round trips and exactness of the text forms of [Numbers] *)

From Stdlib Require Import ZArith Lia String.
From stdpp Require Import base list option tactics gmap.
From S2P Require Import Prelude Blocks Common Numbers.
#[local] Open Scope Z_scope.
#[local] Abbreviation length := Datatypes.length.

(** ** Digits *)

(** The number of a list of digits, most significant first. *)
Definition digits_value (base : Z) (ds : list Z) : Z := fold_left (fun n d => n * base + d) ds 0.

Lemma digits_value_app base n ds d :
  fold_left (fun n d => n * base + d) (ds ++ [d]) n = fold_left (fun n d => n * base + d) ds n * base + d.
Proof. by rewrite fold_left_app. Qed.

Lemma digits_value_snoc base ds d : digits_value base (ds ++ [d]) = digits_value base ds * base + d.
Proof. apply digits_value_app. Qed.

Lemma digits_value_zeros base k ds : digits_value base (replicate k 0 ++ ds) = digits_value base ds.
Proof. induction k as [|k IH]; [done|]. cbn. by rewrite <- IH. Qed.

Lemma digits_value_cons base d ds :
  digits_value base (d :: ds) = d * base ^ Z.of_nat (length ds) + digits_value base ds.
Proof.
  induction ds as [|x ds IH] using rev_ind; [cbn; lia|]. rewrite app_comm_cons, !digits_value_snoc, IH, length_app. cbn [length].
  replace (Z.of_nat (length ds + 1)) with (Z.succ (Z.of_nat (length ds))) by lia. rewrite Z.pow_succ_r by lia. ring.
Qed.

Lemma digits_value_range base ds : Forall (fun d => 0 <= d < base) ds ->
  0 <= digits_value base ds < base ^ Z.of_nat (length ds).
Proof.
  induction ds as [|d ds IH]; [done|]. intros [Hd Hds]%Forall_cons. specialize (IH Hds). rewrite digits_value_cons. cbn [length].
  rewrite Nat2Z.inj_succ, Z.pow_succ_r by lia. nia.
Qed.

(** What printing a number gives: digits of the base with its value, none too many. *)
Record digits_of (base n : Z) (ds : list Z) : Prop := {
  do_value : digits_value base ds = n;
  do_range : Forall (fun d => 0 <= d < base) ds;
  do_nonempty : ds <> [];
  do_length k : (1 <= k)%nat -> n < base ^ Z.of_nat k -> (length ds <= k)%nat;
  do_head : head ds = Some 0 -> ds = [0]
}.

Lemma digits_of_small base n : 0 <= n < base -> digits_of base n [n].
Proof.
  intros Hn. split; [done| |done|by cbn|by intros [= ->]]. by apply Forall_singleton.
Qed.

Lemma digits_of_snoc base n ds : 2 <= base -> base <= n -> digits_of base (n / base) ds -> digits_of base n (ds ++ [n mod base]).
Proof.
  intros Hb Hn [H1 H2 H3 H4 H5]. split.
  - rewrite digits_value_snoc, H1. pose proof (Z.div_mod n base). lia.
  - apply Forall_app. split; [done|]. apply Forall_singleton, Z.mod_pos_bound. lia.
  - by destruct ds.
  - intros k Hk Hlt. rewrite length_app. cbn. destruct k as [|[|k]]; [lia| |].
    + rewrite Z.pow_1_r in Hlt. lia.
    + enough (length ds <= S k)%nat by lia. apply H4; [lia|].
      apply Z.div_lt_upper_bound; [lia|]. rewrite <- Z.pow_succ_r by lia. by replace (Z.succ _) with (Z.of_nat (S (S k))) by lia.
  - destruct ds as [|d ds]; [done|]. cbn. intros [= ->]. specialize (H5 eq_refl). injection H5 as ->.
    cbn in H1. pose proof (Z.div_str_pos n base). lia.
Qed.

Lemma digits_loop_ok fuel base n acc :
  2 <= base -> 0 <= n < 2 ^ Z.of_nat fuel -> (0 < fuel)%nat ->
  exists ds, digits_loop fuel base n acc = ds ++ acc /\ digits_of base n ds.
Proof.
  intros Hb. revert n acc. induction fuel as [|fuel IH]; intros n acc Hn Hf; [lia|]. cbn [digits_loop].
  destruct (Z.ltb_spec n base) as [Hlt|Hge].
  - exists [n]. rewrite Z.mod_small by lia. split; [done|]. apply digits_of_small. lia.
  - assert (0 < n / base) as Hpos by (apply Z.div_str_pos; lia).
    assert (n / base < 2 ^ Z.of_nat fuel) as Hsmall.
    { apply Z.div_lt_upper_bound; [lia|]. rewrite Nat2Z.inj_succ, Z.pow_succ_r in Hn by lia. nia. }
    destruct fuel as [|fuel]; [rewrite Z.pow_0_r in Hsmall; lia|].
    destruct (IH (n / base) (n mod base :: acc)) as (ds & -> & Hds); [lia..|].
    exists (ds ++ [n mod base]). split; [by rewrite <- app_assoc|]. by apply digits_of_snoc.
Qed.

Lemma digits_ok base n : 2 <= base -> 0 <= n -> digits_of base n (digits base n).
Proof.
  intros Hb Hn. unfold digits. destruct (digits_loop_ok (S (Z.to_nat (Z.log2 n))) base n []) as (ds & -> & Hds); [done| |lia|].
  - split; [done|]. rewrite Nat2Z.inj_succ, Z2Nat.id by apply Z.log2_nonneg.
    destruct (Z.eq_dec n 0) as [->|]; [done|]. apply Z.log2_spec. lia.
  - by rewrite app_nil_r.
Qed.

(** ** Hexadecimal and decimal text *)

Section text.
Context `{S0 : Streams}.

(** Extraction reads a text of digits; one that starts with zero is read so only in base 16. *)
Class StreamsLaws : Prop := extract_digits w base ds upper :
  base = 16 \/ (base = 10 /\ (head ds = Some 0 -> ds = [0])) ->
  ds <> [] -> Forall (fun d => 0 <= d < base) ds -> in_width w (digits_value base ds) ->
  extract w base (digit_char upper <$> ds) = Some (digits_value base ds, []).

Context `{L0 : !StreamsLaws}.

Lemma extract_all_digits w base ds upper this :
  base = 16 \/ (base = 10 /\ (head ds = Some 0 -> ds = [0])) ->
  ds <> [] -> Forall (fun d => 0 <= d < base) ds -> in_width w (digits_value base ds) ->
  extract_all w base this (digit_char upper <$> ds) = (false, digits_value base ds).
Proof. intros H1 H2 H3 H4. unfold extract_all. by rewrite (extract_digits w), wrap_small by done. Qed.

(** The padded text, as digits. *)
Lemma pad_digits w upper ds :
  pad_zeros w (digit_char upper <$> ds) = digit_char upper <$> (replicate (w - length ds) 0 ++ ds).
Proof. unfold pad_zeros. by rewrite fmap_app, length_fmap, fmap_replicate. Qed.

(** The padded text of a number of [4 * k] bits: [k] digits. *)
Lemma padded_digits upper k n : (1 <= k)%nat -> in_width (4 * Z.of_nat k) n ->
  exists ds, pad_zeros k (print_number upper 16 n) = digit_char upper <$> ds /\ length ds = k
    /\ Forall (fun d => 0 <= d < 16) ds /\ digits_value 16 ds = n.
Proof.
  intros Hk Hn. destruct (digits_ok 16 n) as [H1 H2 H3 H4 H5]; [lia|apply Hn|]. unfold print_number. rewrite pad_digits.
  assert (length (digits 16 n) <= k)%nat as Hl.
  { apply H4; [done|]. change 16 with (2 ^ 4). rewrite <- Z.pow_mul_r by lia. apply Hn. }
  eexists. split_and!; [done| | |by rewrite digits_value_zeros].
  - rewrite length_app, length_replicate. lia.
  - apply Forall_app. split; [|done]. by apply Forall_replicate.
Qed.

Lemma hex_text k this n :
  (1 <= k)%nat -> in_width (4 * Z.of_nat k) n ->
  length (pad_zeros k (print_number hex_upper 16 n)) = k
  /\ extract_all (4 * Z.of_nat k) 16 this (pad_zeros k (print_number hex_upper 16 n)) = (false, n).
Proof.
  intros Hk Hn. destruct (padded_digits hex_upper k n Hk Hn) as (ds & -> & Hl & Hr & Hv). split; [by rewrite length_fmap|].
  rewrite extract_all_digits, Hv; [done|by left| |done|by rewrite Hv]. intros ->. cbn in Hl. lia.
Qed.

(** The hexadecimal text of a number of 128, 256 or 512 bits has 32, 64 or 128 digits and
    is decoded to the number. *)
Theorem hex_roundtrip this n :
  (in_width 128 n -> uint128_decode_hex this (uint128_encode_hex n) = (false, n))
  /\ (in_width 256 n -> uint256_decode_hex this (uint256_encode_hex n) = (false, n))
  /\ (in_width 512 n -> uint512_decode_hex this (uint512_encode_hex n) = (false, n)).
Proof.
  split_and!; intros Hn.
  - destruct (hex_text 32 this n) as [Hl He]; [lia|done|]. unfold uint128_decode_hex, uint128_encode_hex. by rewrite Hl.
  - destruct (hex_text 64 this n) as [Hl He]; [lia|done|]. unfold uint256_decode_hex, uint256_encode_hex. rewrite Hl.
    rewrite bool_decide_true by (intros E; by rewrite E in Hl). done.
  - destruct (hex_text 128 this n) as [Hl He]; [lia|done|]. unfold uint512_decode_hex, uint512_encode_hex. by rewrite Hl.
Qed.

Lemma digit_code upper d : 0 <= d < 10 -> code (digit_char upper d) = 0x30 + d.
Proof.
  intros Hd. unfold code, digit_char. destruct (Z.ltb_spec d 10); [|lia]. rewrite Z_of_byte_of_Z. apply Z.mod_small. lia.
Qed.

(** A printed decimal number passes the tests of the decoder and is extracted again. *)
Lemma dec_text w limit this n :
  (1 <= limit)%nat -> in_width w n -> 2 ^ w <= 10 ^ Z.of_nat limit ->
  bad_decimal limit (print_dec n) = false /\ extract_all w 10 this (print_dec n) = (false, n).
Proof.
  intros Hk Hn Hw. destruct (digits_ok 10 n) as [H1 H2 H3 H4 H5]; [lia|apply Hn|]. unfold print_dec, print_number. split.
  - unfold bad_decimal. rewrite length_fmap. assert (length (digits 10 n) <= limit)%nat by (apply H4; [done|destruct Hn; lia]).
    destruct (digits 10 n) as [|d ds] eqn:E; [done|]. cbn [fmap list_fmap]. apply Forall_cons in H2 as [Hd _].
    unfold char_is. rewrite digit_code by done. destruct (Nat.ltb_spec limit (length (d :: ds))); [lia|]. cbn [orb].
    destruct (Z.eqb_spec (0x30 + d) 0x2d); [lia|]. destruct (Z.eqb_spec (0x30 + d) 0x30) as [Hz|]; [|by rewrite andb_false_r].
    assert (d = 0) as -> by lia. specialize (H5 eq_refl). by injection H5 as ->.
  - rewrite extract_all_digits; rewrite ?H1; auto.
Qed.

(** The decimal text of a number of 128 or 256 bits is decoded to the number. *)
Theorem dec_roundtrip this n :
  (in_width 128 n -> uint128_decode_dec this (uint128_encode_dec n) = (false, n))
  /\ (in_width 256 n -> uint256_decode_dec this (uint256_encode_dec n) = (false, n)).
Proof.
  split; intros Hn.
  - destruct (dec_text 128 39 this n) as [Hb He]; [lia|done|by vm_compute|]. unfold uint128_decode_dec, uint128_encode_dec. by rewrite Hb.
  - destruct (dec_text 256 78 this n) as [Hb He]; [lia|done|by vm_compute|]. unfold uint256_decode_dec, uint256_encode_dec. by rewrite Hb.
Qed.
End text.

(** ** Accounts *)

(** Five-bit digits, least significant first. *)
Fixpoint digits32 (count : nat) (n : Z) : list Z :=
  match count with O => [] | S count => n mod 32 :: digits32 count (n / 32) end.

Lemma digits32_length count n : length (digits32 count n) = count.
Proof. revert n. induction count as [|count IH]; intros n; cbn; [done|]. by rewrite IH. Qed.

Lemma digits32_range count n : Forall (fun d => 0 <= d < 32) (digits32 count n).
Proof. revert n. induction count as [|count IH]; intros n; constructor; [apply Z.mod_pos_bound; lia|done]. Qed.

Lemma digits32_value count n : digits_value 32 (reverse (digits32 count n)) = n mod 32 ^ Z.of_nat count.
Proof.
  revert n. induction count as [|count IH]; intros n; cbn [digits32]; [by rewrite Z.mod_1_r|].
  rewrite reverse_cons, digits_value_snoc, IH, Nat2Z.inj_succ, Z.pow_succ_r, Z.rem_mul_r by lia. lia.
Qed.

Definition account_char (d : Z) : byte := default Init.Byte.x00 (account_lookup !! Z.to_nat d).

(** The 32 digits and their characters. *)
Lemma account_table : Forall (fun d =>
    account_encode d = Some (account_char d) /\ account_decode (code (account_char d)) = Some d
    /\ (code (account_char d) <? 0x30) || (0x80 <=? code (account_char d)) = false) (Z.of_nat <$> seq 0 32).
Proof. by repeat constructor. Qed.

Lemma account_digit d : 0 <= d < 32 ->
  account_encode d = Some (account_char d) /\ account_decode (code (account_char d)) = Some d
  /\ (code (account_char d) <? 0x30) || (0x80 <=? code (account_char d)) = false.
Proof.
  intros Hd. pose proof account_table as H. rewrite Forall_forall in H. apply H. apply list_elem_of_fmap.
  exists (Z.to_nat d). split; [lia|]. apply elem_of_seq. lia.
Qed.

Lemma account_chars_ok count n : account_chars count n = Some (account_char <$> digits32 count n).
Proof.
  revert n. induction count as [|count IH]; intros n; [done|]. cbn [account_chars].
  change 0x1f with (Z.ones 5). rewrite Z.land_ones, Z.shiftr_div_pow2 by lia. change (2 ^ 5) with 32.
  destruct (account_digit (n mod 32)) as (-> & _); [apply Z.mod_pos_bound; lia|]. cbn. by rewrite IH.
Qed.

Lemma fold_wrap w ds m :
  wrap w (fold_left (fun n d => n * 32 + d) ds (wrap w m)) = wrap w (fold_left (fun n d => n * 32 + d) ds m).
Proof.
  revert m. induction ds as [|d ds IH]; intros m; cbn [fold_left]; [apply wrap_wrap|].
  rewrite <- IH, <- (IH (m * 32 + d)). f_equal. f_equal. unfold wrap. by rewrite <- Zplus_mod_idemp_l, <- Zmult_mod_idemp_l, Zmod_mod, Zmult_mod_idemp_l, Zplus_mod_idemp_l.
Qed.

(** Reading digits of the alphabet gives their number. *)
Lemma account_number_ok ds n :
  Forall (fun d => 0 <= d < 32) ds -> wrap 512 n = n ->
  account_number (account_char <$> ds) n = Some (Some (wrap 512 (fold_left (fun n d => n * 32 + d) ds n))).
Proof.
  intros H. revert n. induction H as [|d ds Hd H IH]; intros n Hn; [cbn; by rewrite Hn|].
  destruct (account_digit d Hd) as (_ & Hdec & Hc). rewrite fmap_cons. cbn [account_number].
  rewrite Hc, Hdec. cbn [mbind option_bind]. destruct (Z.eqb_spec d 0x7e) as [|_]; [lia|].
  rewrite Z.shiftl_mul_pow2 by lia. change (2 ^ 5) with 32. rewrite wrap_add_l, IH by apply wrap_wrap. by rewrite fold_wrap.
Qed.

Lemma lor_shiftl n c k : 0 <= k -> 0 <= c < 2 ^ k -> Z.lor (Z.shiftl n k) c = n * 2 ^ k + c.
Proof.
  intros Hk Hc. rewrite <- Z.shiftl_mul_pow2 by done.
  assert (Z.land (Z.shiftl n k) c = 0) as Hd.
  { apply Z.bits_inj'. intros i Hi. rewrite Z.land_spec, Z.bits_0, Z.shiftl_spec by done.
    destruct (Z_lt_ge_dec i k); [by rewrite Z.testbit_neg_r by lia|].
    rewrite <- (Z.mod_small c (2 ^ k)), Z.mod_pow2_bits_high, andb_false_r by lia. done. }
  by rewrite Z.add_nocarry_lxor, Z.lxor_lor.
Qed.

Lemma digits32_digits ds : Forall (fun d => 0 <= d < 32) ds -> reverse (digits32 (length ds) (digits_value 32 ds)) = ds.
Proof.
  induction ds as [|d ds IH] using rev_ind; [done|]. intros [Hds Hd]%Forall_app. rewrite Forall_singleton in Hd.
  rewrite digits_value_snoc, length_app. cbn [length Nat.add]. rewrite Nat.add_1_r. cbn [digits32].
  rewrite Z.add_comm, Z_mod_plus_full, Z.mod_small, Z.div_add, Z.div_small, Z.add_0_l by lia. by rewrite reverse_cons, IH.
Qed.

(** The text of an account: 60 digits of the alphabet, the first of them zero or one. *)
Definition account_digits (m : Z) : list Z := reverse (digits32 60 m).

Lemma head_digit d ds : Forall (fun d => 0 <= d < 32) (d :: ds) -> length (d :: ds) = 60%nat ->
  digits_value 32 (d :: ds) < 2 ^ 296 <-> d <= 1.
Proof.
  intros [Hd Hds]%Forall_cons Hl. injection Hl as Hl. pose proof (digits_value_range 32 ds Hds) as Hr. rewrite Hl in Hr. change (Z.of_nat 59) with 59 in Hr.
  assert (digits_value 32 (d :: ds) = d * 32 ^ 59 + digits_value 32 ds) as ->; [|change (2 ^ 296) with (2 * 32 ^ 59); clear -Hr Hd; revert Hr; generalize (32 ^ 59) (digits_value 32 ds); intros; nia].
  rewrite digits_value_cons, Hl. done.
Qed.

Section account.
Context `{E0 : Env}.
(** Blake2b gives as many bytes as it is asked for. *)
Class DigestLength : Prop := blake2b_length n s : (1 <= n <= 64)%nat -> length (blake2b n s) = n.

Lemma account_check_range `{!DigestLength} n : 0 <= account_check n < 2 ^ 40.
Proof.
  unfold account_check. pose proof (of_le_bytes_range (blake2b 5 (be_bytes 32 n))) as Hr. by rewrite blake2b_length in Hr by lia.
Qed.

Lemma encode_account_ok `{!DigestLength} n : in_width 256 n ->
  encode_account n = Some (chars "xrb_" ++ (account_char <$> account_digits (n * 2 ^ 40 + account_check n))).
Proof.
  intros Hn. unfold encode_account. pose proof (account_check_range n) as Hc.
  rewrite wrap_small, lor_shiftl, account_chars_ok by (done || unfold in_width in *; rewrite ?Z.shiftl_mul_pow2 by lia; lia).
  cbn [mbind option_bind]. by rewrite reverse_app, <- fmap_reverse.
Qed.

(** The four accepted prefixes. *)
Definition account_prefix (p : stream) : bool :=
  bool_decide (p ∈ [chars "xrb_"; chars "xrb-"; chars "nano_"; chars "nano-"]).

(** What the decoder makes of digits of the alphabet. *)
Definition decoded (m : Z) : bool * Z :=
  (negb (m mod 2 ^ 40 =? account_check (wrap 256 (m / 2 ^ 40))), wrap 256 (m / 2 ^ 40)).

Lemma char_first d : 0 <= d < 32 -> char_is 0x31 (account_char d) || char_is 0x33 (account_char d) = bool_decide (d <= 1).
Proof.
  intros Hd. cut (Forall (fun d => char_is 0x31 (account_char d) || char_is 0x33 (account_char d) = bool_decide (d <= 1))
    (Z.of_nat <$> seq 0 32)).
  - rewrite Forall_forall. intros H. apply H, list_elem_of_fmap. exists (Z.to_nat d). split; [lia|]. apply elem_of_seq. lia.
  - by repeat constructor.
Qed.

Lemma decode_account_digits this p d ds :
  account_prefix p = true -> Forall (fun d => 0 <= d < 32) (d :: ds) -> length (d :: ds) = 60%nat ->
  decode_account this (p ++ (account_char <$> d :: ds))
  = Some (if bool_decide (d <= 1) then decoded (digits_value 32 (d :: ds)) else (true, this)).
Proof.
  intros Hp Hd Hl. unfold decode_account.
  assert (length (p ++ (account_char <$> d :: ds)) = (length p + 60)%nat) as Hlen by (by rewrite length_app, length_fmap, Hl).
  assert (account_number (account_char <$> d :: ds) 0 = Some (Some (digits_value 32 (d :: ds)))) as Hnum.
  { rewrite account_number_ok by done. f_equal. f_equal. apply wrap_small. pose proof (digits_value_range 32 _ Hd) as Hr.
    rewrite Hl in Hr. split; [apply Hr|]. eapply Z.lt_le_trans; [apply Hr|by vm_compute]. }
  assert (exists xrb, xrb_prefix (p ++ (account_char <$> d :: ds)) = xrb
    /\ nano_prefix (p ++ (account_char <$> d :: ds)) = negb xrb /\ length p = if xrb then 4%nat else 5%nat) as (xrb & Hx & Hn & Hpl).
  { unfold account_prefix in Hp. apply bool_decide_eq_true in Hp. rewrite !elem_of_cons in Hp.
    destruct Hp as [->|[->|[->|[->|?%not_elem_of_nil]]]]; [by exists true|by exists true|by exists false|by exists false|done]. }
  assert (drop (if xrb then 4 else 5)%nat (p ++ (account_char <$> d :: ds)) = account_char <$> d :: ds) as Hdrop
    by (rewrite <- Hpl; apply drop_app_length).
  rewrite Hx, Hn, Hlen, Hpl, Hdrop, Hnum, fmap_cons, char_first by by apply Forall_cons in Hd as [Hd _].
  cbn [mbind option_bind]. change 0xffffffffff with (Z.ones 40). rewrite Z.land_ones, Z.shiftr_div_pow2 by lia.
  rewrite (wrap_small 64) by (pose proof (Z.mod_pos_bound (digits_value 32 (d :: ds)) (2 ^ 40)); unfold in_width; lia).
  by destruct xrb; cbn; destruct (bool_decide (d <= 1)).
Qed.

(** What [encode_account] prints is read back. *)
Lemma account_text_read `{!DigestLength} this n :
  in_width 256 n ->
  exists s, encode_account n = Some s /\ length s = 64%nat /\ decode_account this s = Some (false, n).
Proof.
  intros Hn. pose proof (account_check_range n) as Hc. set (m := n * 2 ^ 40 + account_check n).
  exists (chars "xrb_" ++ (account_char <$> account_digits m)). split; [by apply encode_account_ok|].
  assert (length (account_digits m) = 60%nat) as Hl by (unfold account_digits; by rewrite length_reverse, digits32_length).
  split; [by rewrite length_app, length_fmap, Hl|].
  assert (Forall (fun d => 0 <= d < 32) (account_digits m)) as Hr by apply Forall_reverse, digits32_range.
  assert (0 <= m < 2 ^ 296) as Hm by (unfold in_width in Hn; lia).
  assert (digits_value 32 (account_digits m) = m) as Hv.
  { unfold account_digits. rewrite digits32_value. apply Z.mod_small. change (32 ^ Z.of_nat 60) with (2 ^ 300). lia. }
  destruct (account_digits m) as [|d ds]; [done|]. rewrite decode_account_digits by done.
  rewrite bool_decide_true by (apply (head_digit d ds); [done|done|]; rewrite Hv; lia). rewrite Hv. unfold decoded.
  assert (m / 2 ^ 40 = n) as -> by (unfold m; rewrite Z.add_comm, Z.div_add, Z.div_small by lia; lia).
  rewrite wrap_small by done. unfold m. rewrite Z.add_comm, Z_mod_plus_full, Z.mod_small by lia. by rewrite Z.eqb_refl.
Qed.

(** C38. The text of an account is decoded to the account: it starts with xrb_, and has 60
    characters of the alphabet, the last eight of them a checksum. *)
Theorem decode_encode_account `{!DigestLength} this n :
  in_width 256 n ->
  exists s, encode_account n = Some s /\ length s = 64%nat /\ decode_account this s = Some (false, n).
Proof. apply account_text_read. Qed.

Lemma alphabet_digits s : Forall (fun c => c ∈ account_lookup) s ->
  exists ds, s = account_char <$> ds /\ Forall (fun d => 0 <= d < 32) ds.
Proof.
  induction 1 as [|c s [i Hi]%list_elem_of_lookup _ (ds & -> & Hds)]; [by exists []|].
  pose proof (lookup_lt_Some _ _ _ Hi) as Hl. change (length account_lookup) with 32%nat in Hl.
  exists (Z.of_nat i :: ds). split; [|constructor; [lia|done]]. rewrite fmap_cons. f_equal. unfold account_char. rewrite Nat2Z.id.
  exact (eq_sym (f_equal (default Init.Byte.x00) Hi)).
Qed.

Lemma char_is_eq z c : char_is z c = true -> c = byte_of_Z z.
Proof. unfold char_is, code. intros <-%Z.eqb_eq. by rewrite byte_of_Z_of_byte. Qed.

Lemma xrb_prefix_ok s : xrb_prefix s = true -> exists p t, s = p ++ t /\ length p = 4%nat /\ account_prefix p = true.
Proof.
  destruct s as [|c0 [|c1 [|c2 [|c3 t]]]]; try done. cbn. rewrite !andb_true_iff, orb_true_iff.
  intros [[[->%char_is_eq ->%char_is_eq] ->%char_is_eq] [->%char_is_eq| ->%char_is_eq]]; by eexists [_; _; _; _], t.
Qed.

Lemma nano_prefix_ok s : nano_prefix s = true -> exists p t, s = p ++ t /\ length p = 5%nat /\ account_prefix p = true.
Proof.
  destruct s as [|c0 [|c1 [|c2 [|c3 [|c4 t]]]]]; try done. cbn. rewrite !andb_true_iff, orb_true_iff.
  intros [[[[->%char_is_eq ->%char_is_eq] ->%char_is_eq] ->%char_is_eq] [->%char_is_eq| ->%char_is_eq]];
    by eexists [_; _; _; _; _], t.
Qed.

(** An accepted text is a prefix and 60 characters. *)
Lemma decode_account_shape this s n : decode_account this s = Some (false, n) ->
  exists p t, s = p ++ t /\ account_prefix p = true /\ length p = (if xrb_prefix s then 4 else 5)%nat /\ length t = 60%nat.
Proof.
  unfold decode_account. destruct (length s <? 5)%nat; [done|].
  destruct (xrb_prefix s) eqn:Hx; cbn [andb orb].
  - destruct (xrb_prefix_ok s Hx) as (p & t & -> & Hl & Hp). rewrite length_app, Hl.
    destruct (Nat.eqb_spec (4 + length t) 64) as [Ht|]; [|done]. intros _. exists p, t. split_and!; [done..|lia].
  - destruct (nano_prefix s) eqn:Hn; [|done]. cbn [andb]. destruct (nano_prefix_ok s Hn) as (p & t & -> & Hl & Hp).
    rewrite length_app, Hl. destruct (Nat.eqb_spec (5 + length t) 65) as [Ht|]; [|done]. intros _. exists p, t.
    split_and!; [done..|lia].
Qed.

(** A text of characters of the alphabet that is decoded to an account is the text of
    that account, but for the prefix. *)
Theorem decode_account_canonical `{!DigestLength} this s n :
  decode_account this s = Some (false, n) ->
  Forall (fun c => c ∈ account_lookup) (drop (if xrb_prefix s then 4 else 5) s) ->
  encode_account n = Some (chars "xrb_" ++ drop (if xrb_prefix s then 4 else 5) s).
Proof.
  intros Hd Ha. destruct (decode_account_shape _ _ _ Hd) as (p & t & -> & Hp & Hpl & Hl).
  rewrite <- Hpl, drop_app_length in *. destruct (alphabet_digits t Ha) as (ds & -> & Hds). rewrite length_fmap in Hl.
  destruct ds as [|d ds]; [done|]. rewrite decode_account_digits in Hd by done. case_bool_decide as H1; [|done].
  apply (head_digit d ds Hds Hl) in H1. pose proof (digits_value_range 32 _ Hds) as Hr. set (m := digits_value 32 (d :: ds)) in *.
  injection Hd as Hc Hn. apply negb_false_iff, Z.eqb_eq in Hc. rewrite Hn in Hc.
  assert (0 <= m / 2 ^ 40 < 2 ^ 256) as Hq.
  { split; [apply Z.div_pos; lia|]. apply Z.div_lt_upper_bound; [lia|]. change (2 ^ 40 * 2 ^ 256) with (2 ^ 296). lia. }
  rewrite wrap_small in Hn by done. subst n. rewrite encode_account_ok by done. rewrite <- Hc.
  replace (m / 2 ^ 40 * 2 ^ 40 + m mod 2 ^ 40) with m by (rewrite Z.mul_comm; apply Z.div_mod; lia).
  unfold account_digits. rewrite <- Hl. unfold m. by rewrite digits32_digits.
Qed.
End account.

(** ** Balances *)

Lemma digits_of_last base n ds d :
  2 <= base -> digits_of base n (ds ++ [d]) -> d = n mod base /\ (ds <> [] -> base <= n /\ digits_of base (n / base) ds).
Proof.
  intros Hb [H1 H2 H3 H4 H5]. rewrite digits_value_snoc in H1. apply Forall_app in H2 as [H2 Hd]. rewrite Forall_singleton in Hd.
  assert (d = n mod base) as Hm by (rewrite <- H1, Z.add_comm, Z_mod_plus_full, Z.mod_small by lia; done).
  assert (digits_value base ds = n / base) as Hq by (rewrite <- H1, Z.add_comm, Z.div_add, Z.div_small by lia; lia).
  split; [done|]. intros Hne.
  assert (forall k, (1 <= k)%nat -> n / base < base ^ Z.of_nat k -> (length ds <= k)%nat) as Hlen.
  { intros k Hk Hlt. assert (length (ds ++ [d]) <= S k)%nat as Hl; [|rewrite length_app in Hl; cbn in Hl; lia].
    apply H4; [lia|]. rewrite Nat2Z.inj_succ, Z.pow_succ_r by lia. pose proof (Z.div_mod n base). nia. }
  assert (head ds <> Some 0) as Hh.
  { intros Hz. destruct ds as [|x ds]; [done|]. cbn in Hz. injection Hz as ->. specialize (H5 eq_refl). by destruct ds. }
  split; [|by split].
  destruct (Z_lt_ge_dec n base) as [Hlt|]; [|lia]. exfalso. destruct ds as [|x [|y ds]]; [done| |].
  - rewrite Forall_singleton in H2. unfold digits_value in Hq, H1. cbn [fold_left] in Hq, H1. apply Hh. cbn.
    rewrite Z.div_small in Hq by nia. f_equal. lia.
  - assert (length ((x :: y :: ds) ++ [d]) <= 1)%nat as Hl; [|cbn in Hl; lia]. apply H4; [done|]. by rewrite Z.pow_1_r.
Qed.

(** The digits of a number are unique. *)
Lemma digits_of_unique base n ds ds' : 2 <= base -> digits_of base n ds -> digits_of base n ds' -> ds = ds'.
Proof.
  intros Hb. revert n ds'. induction ds as [|d ds IH] using rev_ind; intros n ds' H H'; [by destruct (do_nonempty _ _ _ H)|].
  destruct ds' as [|d' ds' _] using rev_ind; [by destruct (do_nonempty _ _ _ H')|].
  destruct (digits_of_last _ _ _ _ Hb H) as [-> Hr], (digits_of_last _ _ _ _ Hb H') as [-> Hr']. f_equal.
  assert (forall l, digits_of base n (l ++ [n mod base]) -> base <= n -> l <> []) as Hne.
  { intros l [Hv _ _ _ _] Hn ->. cbn in Hv. pose proof (Z.mod_pos_bound n base). lia. }
  destruct (decide (ds = [])) as [->|Hd], (decide (ds' = [])) as [->|Hd']; [done| | |].
  - destruct (Hr' Hd') as [Hn _]. by destruct (Hne [] H Hn).
  - destruct (Hr Hd) as [Hn _]. by destruct (Hne [] H' Hn).
  - eapply IH; [by apply Hr|by apply Hr'].
Qed.

Lemma print_dec_digits n ds : 0 <= n -> digits_of 10 n ds -> print_dec n = digit_char false <$> ds.
Proof.
  intros Hn Hd. unfold print_dec, print_number. f_equal. eapply digits_of_unique; [|by apply digits_ok|done]. lia.
Qed.

Lemma print_digit d : 0 <= d < 10 -> print_dec d = [digit_char false d].
Proof. intros Hd. by rewrite (print_dec_digits d [d]) by (lia || by apply digits_of_small). Qed.

Lemma largest_pow10_ok fuel v i :
  0 <= v < 10 ^ Z.of_nat (i + fuel) -> (i = 0%nat \/ 10 ^ Z.of_nat i <= v) -> (0 < fuel)%nat ->
  exists j, largest_pow10 fuel v (10 ^ Z.of_nat i) (S i) = Some (10 ^ Z.of_nat j, S j)
    /\ v < 10 ^ Z.of_nat (S j) /\ (j = 0%nat \/ 10 ^ Z.of_nat j <= v).
Proof.
  revert i. induction fuel as [|fuel IH]; intros i Hv Hi Hf; [lia|]. cbn [largest_pow10].
  assert (10 ^ Z.of_nat i * 10 = 10 ^ Z.of_nat (S i)) as -> by (rewrite Nat2Z.inj_succ, Z.pow_succ_r by lia; lia).
  destruct (Z.ltb_spec v (10 ^ Z.of_nat (S i))) as [Hlt|Hge]; [by exists i|].
  apply IH; [by replace (S i + fuel)%nat with (i + S fuel)%nat by lia|auto|].
  destruct fuel; [|lia]. rewrite Nat.add_1_r in Hv. lia.
Qed.

(** A separator that is no digit. *)
Definition separator_ok (sep : option byte) : Prop := forall d, 0 <= d < 10 -> sep <> Some (digit_char false d).

Definition not_separator (sep : option byte) (s : list byte) : list byte := filter (fun c => sep <> Some c) s.

Lemma not_separator_none s : not_separator None s = s.
Proof. unfold not_separator. induction s as [|c s IH]; [done|]. by rewrite filter_cons_True, IH. Qed.

Lemma format_digits_ok fuel sep emit rem j count :
  separator_ok sep -> 0 <= rem < 10 ^ Z.of_nat (S j) -> (j + 1 < fuel)%nat ->
  exists s ds, format_digits fuel sep emit rem (10 ^ Z.of_nat j) count = Some s
    /\ not_separator sep s = digit_char false <$> ds
    /\ length ds = S j /\ Forall (fun d => 0 <= d < 10) ds /\ digits_value 10 ds = rem.
Proof.
  intros Hs. revert fuel rem count. induction j as [|j IH]; intros fuel rem count Hr Hf.
  all: destruct fuel as [|fuel]; [lia|]; cbn [format_digits]; rewrite (proj2 (Z.ltb_lt _ _)) by lia.
  all: lazymatch goal with |- context [print_dec (_ / ?q)] => set (pow := q) in * end; assert (0 < pow) as Hpow by (unfold pow; lia).
  all: rewrite Nat2Z.inj_succ, Z.pow_succ_r in Hr by lia; fold pow in Hr.
  all: assert (0 <= rem / pow < 10) as Hval by (split; [apply Z.div_pos; lia|apply Z.div_lt_upper_bound; lia]).
  all: set (sp := match sep with Some c => _ | None => _ end).
  all: assert (not_separator sep sp = []) as Hsp
    by (unfold sp, not_separator; destruct sep; [destruct (_ && _)|]; try done; by rewrite filter_cons_False by auto).
  all: rewrite print_digit by done.
  - destruct fuel as [|fuel]; [lia|]. cbn. eexists _, [rem]. split; [done|]. unfold not_separator in *.
    assert (pow = 1) as Hp by done. rewrite Hp, Z.div_1_r in *. rewrite filter_cons_True by by apply Hs.
    rewrite app_nil_r, Hsp. split_and!; [done|done| |done]. by apply Forall_singleton.
  - assert (rem - rem / pow * pow = rem mod pow) as -> by (pose proof (Z.div_mod rem pow); lia).
    assert (pow / 10 = 10 ^ Z.of_nat j) as ->.
    { unfold pow. rewrite Nat2Z.inj_succ, Z.pow_succ_r, Z.mul_comm, Z.div_mul by lia. done. }
    destruct (IH fuel (rem mod pow) (count - 1)%nat) as (s & ds & -> & H1 & H2 & H3 & H4); [by apply Z.mod_pos_bound|lia|].
    cbn [mbind option_bind]. eexists _, (rem / pow :: ds). split; [done|]. unfold not_separator in *.
    rewrite filter_app, filter_app, filter_cons_True, Hsp, H1 by by apply Hs. split_and!; [done|by rewrite <- H2|by constructor|].
    rewrite digits_value_cons, H2, H4. fold pow. pose proof (Z.div_mod rem pow). lia.
Qed.

(** [format_dec] prints the decimal digits of the number, with nothing but separators
    between them. *)
Lemma format_dec_digits v sep groupings :
  in_width 128 v -> separator_ok sep ->
  exists s, format_dec v sep groupings = Some s /\ not_separator sep s = print_dec v.
Proof.
  intros Hv Hs. unfold format_dec.
  assert (v < 10 ^ 39) as Hmax by (unfold in_width in Hv; eapply Z.lt_trans; [apply Hv|by vm_compute]).
  destruct (largest_pow10_ok 40 v 0) as (j & Hp & Hlt & Hge); [|auto|lia|].
  { split; [apply Hv|]. eapply Z.lt_trans; [exact Hmax|by vm_compute]. }
  change (10 ^ Z.of_nat 0) with 1 in Hp. rewrite Hp. cbn [mbind option_bind].
  assert (j < 39)%nat as Hj.
  { destruct Hge as [->|Hge]; [lia|]. apply Nat2Z.inj_lt. apply (Z.pow_lt_mono_r_iff 10); [lia..|]. cbn. lia. }
  destruct (Nat.ltb_spec 39 (S j)); [lia|].
  assert (in_width 128 (10 ^ Z.of_nat j)) as Hw.
  { split; [lia|]. eapply Z.le_lt_trans; [apply (Z.pow_le_mono_r 10 _ 38); lia|by vm_compute]. }
  rewrite wrap_small by done.
  destruct (format_digits_ok 41 sep (match sep with Some _ => emit_groups (S j) groupings 0 0 | None => [] end) v j (S j) Hs)
    as (s & ds & -> & H1 & H2 & H3 & H4); [split; [apply Hv|done]|lia|].
  exists s. split; [done|]. rewrite H1. symmetry. apply print_dec_digits; [apply Hv|]. split; [done|done|by destruct ds| |].
  - intros k Hk Hvk. rewrite H2. destruct Hge as [->|Hge]; [lia|].
    apply Nat2Z.inj_le. rewrite Nat2Z.inj_succ. apply Z.le_succ_l. apply (Z.pow_lt_mono_r_iff 10); lia.
  - destruct ds as [|d ds]; [done|]. cbn. intros [= ->]. injection H2 as H2. destruct Hge as [->|Hge]; [by destruct ds|].
    apply Forall_cons in H3 as [_ H3]. apply digits_value_range in H3. rewrite digits_value_cons in H4. rewrite H2 in H3. lia.
Qed.

(** A fraction of a power of ten: its digits without trailing zeros. *)
Definition fraction_digits (j : nat) (rem : Z) (fs : list Z) : Prop :=
  Forall (fun d => 0 <= d < 10) fs /\ (length fs <= j)%nat
  /\ digits_value 10 fs * 10 ^ Z.of_nat (j - length fs) = rem.

Lemma format_frac_ok fuel rem j :
  0 <= rem < 10 ^ Z.of_nat j -> (j < fuel)%nat ->
  exists fs, format_frac fuel rem (10 ^ Z.of_nat j) (Z.of_nat j) = Some (digit_char false <$> fs) /\ fraction_digits j rem fs.
Proof.
  revert fuel rem. induction j as [|j IH]; intros fuel rem Hr Hf; (destruct fuel as [|fuel]; [lia|]); cbn [format_frac].
  { exists []. split; [done|]. split_and!; [constructor|done|]. cbn in *. lia. }
  assert (1 < 10 ^ Z.of_nat (S j)) as H1 by (rewrite Nat2Z.inj_succ, Z.pow_succ_r by lia; lia).
  rewrite (proj2 (Z.ltb_lt _ _) H1), (proj2 (Z.ltb_lt 0 (Z.of_nat (S j)))) by lia. cbn [andb].
  destruct (Z.ltb_spec 0 rem) as [Hpos|Hz]; cbn [andb].
  2: { exists []. split; [done|]. split_and!; [constructor|cbn; lia|]. cbn. lia. }
  assert (10 ^ Z.of_nat (S j) / 10 = 10 ^ Z.of_nat j) as ->.
  { rewrite Nat2Z.inj_succ, Z.pow_succ_r, Z.mul_comm, Z.div_mul by lia. done. }
  rewrite Nat2Z.inj_succ, Z.pow_succ_r in Hr by lia. set (pow := 10 ^ Z.of_nat j) in *.
  assert (0 < pow) as Hpow by (unfold pow; lia). destruct (Z.eqb_spec pow 0); [lia|]. cbn [negb assert mbind option_bind].
  assert (0 <= rem / pow < 10) as Hval by (split; [apply Z.div_pos; lia|apply Z.div_lt_upper_bound; lia]).
  assert (rem - rem / pow * pow = rem mod pow) as -> by (pose proof (Z.div_mod rem pow); lia).
  replace (Z.of_nat (S j) - 1) with (Z.of_nat j) by lia.
  destruct (IH fuel (rem mod pow)) as (fs & -> & F1 & F2 & F3); [by apply Z.mod_pos_bound|lia|]. cbn [mbind option_bind].
  exists (rem / pow :: fs). rewrite print_digit by done. split; [done|]. split_and!; [by constructor|cbn; lia|].
  rewrite digits_value_cons. cbn [length]. rewrite Nat.sub_succ, Z.mul_add_distr_r, F3, <- Z.mul_assoc, <- Z.pow_add_r by lia.
  replace (Z.of_nat (length fs) + Z.of_nat (j - length fs)) with (Z.of_nat j) by lia. fold pow. pose proof (Z.div_mod rem pow). lia.
Qed.

Lemma div10_pow j : div10 j (10 ^ Z.of_nat j) = 1.
Proof.
  induction j as [|j IH]; [done|]. cbn [div10]. rewrite Nat2Z.inj_succ, Z.pow_succ_r, Z.mul_comm, Z.div_mul by lia. done.
Qed.

(** With a scale of [10 ^ j] and a precision of [j] digits, [format_balance] prints the
    exact balance: the whole units, and the fraction without trailing zeros. *)
Theorem format_balance_exact balance j sep point groupings :
  in_width 128 balance -> (j <= 38)%nat ->
  exists fs, format_balance balance (10 ^ Z.of_nat j) (Z.of_nat j) false sep point groupings
      = Some (print_dec (balance / 10 ^ Z.of_nat j)
              ++ if balance mod 10 ^ Z.of_nat j =? 0 then [] else point :: (digit_char false <$> fs))
    /\ fraction_digits j (balance mod 10 ^ Z.of_nat j) fs.
Proof.
  intros Hb Hj. unfold format_balance. set (scale := 10 ^ Z.of_nat j). assert (0 < scale) as Hs by (unfold scale; lia).
  destruct (Z.eqb_spec scale 0) as [|_]; [lia|]. cbn [negb assert mbind option_bind andb]. rewrite Nat2Z.id. fold scale.
  pose proof (Z.mod_pos_bound balance scale Hs) as Hm. set (frac := balance mod scale) in *.
  assert (in_width 128 (balance / scale)) as Hi.
  { unfold in_width in *. split; [apply Z.div_pos; lia|]. apply Z.div_lt_upper_bound; [done|]. nia. }
  destruct (format_dec_digits (balance / scale) None groupings Hi) as (s & -> & Hsd); [by intros d _|].
  rewrite not_separator_none in Hsd. subst s.
  destruct (format_frac_ok 40 frac j) as (fs & Hff & Hfs); [done|lia|]. fold scale in Hff. exists fs. split; [|done].
  rewrite div10_pow, Z.div_1_r, Hff. destruct (Z.ltb_spec 0 frac) as [Hp|Hz].
  - destruct (Z.eqb_spec frac 0); [lia|]. assert (0 < j)%nat as Hj0.
    { destruct j; [|lia]. unfold scale in Hm. cbn in Hm. lia. }
    rewrite (proj2 (Z.ltb_lt 0 (Z.of_nat j))) by lia. by destruct (balance / scale =? 0).
  - assert (frac = 0) as -> by lia. rewrite !andb_false_r. cbn. by rewrite app_nil_r.
Qed.

(** With more digits of precision than the scale has, the code divides by zero. *)
Example format_balance_divides_by_zero sep point groupings : format_balance 5 10 2 false sep point groupings = None.
Proof. done. Qed.

(** ** The C interface *)

(** [xrb_uint128_to_dec] copies at most 32 characters: of a number with more digits the
    last ones are lost. *)
Example uint128_to_dec_truncates :
  xrb_uint128_to_dec (10 ^ 32) = print_dec (10 ^ 31) /\ xrb_uint128_to_dec (10 ^ 32) <> print_dec (10 ^ 32).
Proof. by vm_compute. Qed.

(** The character DEL passes the range test of [decode_account] and fails an assertion in
    [account_decode]. *)
Example decode_account_fails `{Env} this :
  decode_account this (chars "xrb_1" ++ [Init.Byte.x7f] ++ replicate 58 (byte_of_Z 0x31)) = None.
Proof. done. Qed.
