(* ===== verification/BlockJson.v ===== *)
(** * BlockJson: blocks as property trees

    [serialize_json], the constructors from a tree, [deserialize_block_json] and the members
    [deserialize_json] of lib/blocks.cpp, up to the text of a tree, which a library reads and
    prints. A block is printed and read back; the members of open and change blocks do not
    read what the blocks print. *)

From Stdlib Require Import ZArith Lia String.
From stdpp Require Import base list option tactics gmap.
From S2P Require Import Prelude Blocks Common Numbers TextForms.
#[local] Open Scope Z_scope.
#[local] Abbreviation length := Datatypes.length.

(** ** Work in hexadecimal *)

Definition to_string_hex (value : Z) : stream := pad_zeros 16 (print_number false 16 value).

Definition is_space (c : byte) : bool := (code c =? 0x20) || ((9 <=? code c) && (code c <=? 13)).
Definition hex_digit (c : byte) : option Z :=
  let z := code c in
  if (0x30 <=? z) && (z <=? 0x39) then Some (z - 0x30)
  else if (0x41 <=? z) && (z <=? 0x46) then Some (z - 0x41 + 10)
  else if (0x61 <=? z) && (z <=? 0x66) then Some (z - 0x61 + 10)
  else None.

Fixpoint skip_spaces (s : stream) : stream :=
  match s with c :: rest => if is_space c then skip_spaces rest else s | [] => [] end.

Fixpoint hex_run (n : Z) (s : stream) : Z * stream :=
  match s with
  | c :: rest => match hex_digit c with Some d => hex_run (n * 16 + d) rest | None => (n, s) end
  | [] => (n, [])
  end.

Definition skip_0x (s : stream) : stream :=
  match s with
  | z :: x :: rest => if char_is 0x30 z && (char_is 0x78 x || char_is 0x58 x) then rest else s
  | _ => s
  end.

(** [stream >> number] for 64 bits in base 16: spaces, a sign, the prefix 0x, digits. The
    number, and whether the end of the text was met; a text of spaces leaves the variable as
    it was, and without digits it becomes 0. *)
Definition extract_hex64 (s : stream) : option Z * bool :=
  match skip_spaces s with
  | [] => (None, true)
  | c :: rest =>
    let neg := char_is 0x2d c in
    let s := if neg || char_is 0x2b c then rest else c :: rest in
    let '(n, rest) := hex_run 0 (skip_0x s) in
    (Some (wrap 64 (if neg then - n else n)), match rest with [] => true | _ => false end)
  end.

(** [from_string_hex]: [true] is an error. [None] where it reads a variable that has no
    value. *)
Definition from_string_hex (s : stream) : option (bool * Z) :=
  if bool_decide (s = []) || (16 <? length s)%nat then Some (true, 0)
  else
    let '(number, eof) := extract_hex64 s in
    n ← number;
    Some (negb eof, n).

(** ** Reading *)

(** The result of reading: [None] is a failed assertion, [Some None] an error, which is also
    what an exception becomes. *)
Definition read_result (A : Type) : Type := option (option A).
Definition read_ret {A} (x : A) : read_result A := Some (Some x).
Definition read_bind {A B} (f : A -> read_result B) (m : read_result A) : read_result B :=
  match m with Some (Some x) => f x | Some None => Some None | None => None end.
Definition read_error {A} : read_result A := Some None.
Local Notation "x <- m ; k" := (read_bind (fun x => k) m) (at level 100, m at next level, k at level 200, right associativity).

(** [tree_a.get<std::string>]. *)
Definition field (tree : list (stream * stream)) (name : string) : read_result stream := Some (tree_get tree (chars name)).
(** A decoder, which returns [true] for an error. *)
Definition decode (r : bool * Z) : read_result Z := Some (if fst r then None else Some (snd r)).
Definition decode_opt (r : option (bool * Z)) : read_result Z := match r with Some r => decode r | None => None end.
Definition when (b : bool) : read_result unit := Some (if b then Some tt else None).
Definition check (b : bool) : read_result unit := if b then read_ret tt else None.

Section json.
Context `{E0 : Env} `{S0 : Streams}.

Definition tree : Type := list (stream * stream).
Definition put (name : string) (value : stream) : stream * stream := (chars name, value).

(** ** Printing *)

Definition send_serialize_json (b : send_block) : option tree :=
  destination ← to_account (send_destination b);
  Some [put "type" (chars "send"); put "previous" (uint256_encode_hex (send_previous b)); put "destination" destination;
        put "balance" (uint128_encode_hex (send_balance b)); put "work" (to_string_hex (send_work b));
        put "signature" (uint512_encode_hex (send_signature b))].

Definition receive_serialize_json (b : receive_block) : option tree :=
  Some [put "type" (chars "receive"); put "previous" (uint256_encode_hex (receive_previous b));
        put "source" (uint256_encode_hex (receive_source b)); put "work" (to_string_hex (receive_work b));
        put "signature" (uint512_encode_hex (receive_signature b))].

Definition open_serialize_json (b : open_block) : option tree :=
  representative ← to_account (open_representative b);
  account ← to_account (open_account b);
  Some [put "type" (chars "open"); put "source" (uint256_encode_hex (open_source b)); put "representative" representative;
        put "account" account; put "work" (to_string_hex (open_work b)); put "signature" (uint512_encode_hex (open_signature b))].

Definition change_serialize_json (b : change_block) : option tree :=
  representative ← to_account (change_representative b);
  Some [put "type" (chars "change"); put "previous" (uint256_encode_hex (change_previous b)); put "representative" representative;
        put "work" (to_string_hex (change_work b)); put "signature" (uint512_encode_hex (change_signature b))].

Definition state_serialize_json (b : state_block) : option tree :=
  account ← to_account (state_account b);
  representative ← to_account (state_representative b);
  link_as_account ← to_account (state_link b);
  Some [put "type" (chars "state"); put "account" account; put "previous" (uint256_encode_hex (state_previous b));
        put "representative" representative; put "balance" (uint128_encode_dec (state_balance b));
        put "link" (uint256_encode_hex (state_link b)); put "link_as_account" link_as_account;
        put "signature" (uint512_encode_hex (state_signature b)); put "work" (to_string_hex (state_work b))].

Definition serialize_json (b : block) : option tree :=
  match b with
  | Send b => send_serialize_json b
  | Receive b => receive_serialize_json b
  | Open b => open_serialize_json b
  | Change b => change_serialize_json b
  | State b => state_serialize_json b
  end.

(** ** The constructors *)

Definition send_hashables_json (t : tree) : read_result send_hashables :=
  previous_l <- field t "previous"; destination_l <- field t "destination"; balance_l <- field t "balance";
  previous <- decode (uint256_decode_hex 0 previous_l);
  destination <- decode_opt (decode_account 0 destination_l);
  balance <- decode (uint128_decode_hex 0 balance_l);
  read_ret (SendHashables previous destination balance).

Definition send_block_json (t : tree) : read_result send_block :=
  h <- send_hashables_json t;
  signature_l <- field t "signature"; work_l <- field t "work";
  signature <- decode (uint512_decode_hex 0 signature_l);
  work <- decode_opt (from_string_hex work_l);
  read_ret (SendBlock h signature work).

Definition receive_hashables_json (t : tree) : read_result receive_hashables :=
  previous_l <- field t "previous"; source_l <- field t "source";
  previous <- decode (uint256_decode_hex 0 previous_l);
  source <- decode (uint256_decode_hex 0 source_l);
  read_ret (ReceiveHashables previous source).

Definition receive_block_json (t : tree) : read_result receive_block :=
  h <- receive_hashables_json t;
  signature_l <- field t "signature"; work_l <- field t "work";
  signature <- decode (uint512_decode_hex 0 signature_l);
  work <- decode_opt (from_string_hex work_l);
  read_ret (ReceiveBlock h signature work).

Definition open_hashables_json (t : tree) : read_result open_hashables :=
  source_l <- field t "source"; representative_l <- field t "representative"; account_l <- field t "account";
  source <- decode (uint256_decode_hex 0 source_l);
  representative <- decode_opt (decode_account 0 representative_l);
  account <- decode_opt (decode_account 0 account_l);
  read_ret (OpenHashables source representative account).

Definition open_block_json (t : tree) : read_result open_block :=
  h <- open_hashables_json t;
  work_l <- field t "work"; signature_l <- field t "signature";
  work <- decode_opt (from_string_hex work_l);
  signature <- decode (uint512_decode_hex 0 signature_l);
  read_ret (OpenBlock h signature work).

Definition change_hashables_json (t : tree) : read_result change_hashables :=
  previous_l <- field t "previous"; representative_l <- field t "representative";
  previous <- decode (uint256_decode_hex 0 previous_l);
  representative <- decode_opt (decode_account 0 representative_l);
  read_ret (ChangeHashables previous representative).

Definition change_block_json (t : tree) : read_result change_block :=
  h <- change_hashables_json t;
  work_l <- field t "work"; signature_l <- field t "signature";
  work <- decode_opt (from_string_hex work_l);
  signature <- decode (uint512_decode_hex 0 signature_l);
  read_ret (ChangeBlock h signature work).

(** [link.decode_account (link_l) && link.decode_hex (link_l)]: the link is an account or a
    number. *)
Definition decode_link (link_l : stream) : read_result Z :=
  match decode_account 0 link_l with
  | None => None
  | Some (error, link) => if error then decode (uint256_decode_hex link link_l) else read_ret link
  end.

Definition state_hashables_json (t : tree) : read_result state_hashables :=
  account_l <- field t "account"; previous_l <- field t "previous"; representative_l <- field t "representative";
  balance_l <- field t "balance"; link_l <- field t "link";
  account <- decode_opt (decode_account 0 account_l);
  previous <- decode (uint256_decode_hex 0 previous_l);
  representative <- decode_opt (decode_account 0 representative_l);
  balance <- decode (uint128_decode_dec 0 balance_l);
  link <- decode_link link_l;
  read_ret (StateHashables account previous representative balance link).

Definition state_block_json (t : tree) : read_result state_block :=
  h <- state_hashables_json t;
  type_l <- field t "type"; signature_l <- field t "signature"; work_l <- field t "work";
  _ <- when (bool_decide (type_l = chars "state"));
  work <- decode_opt (from_string_hex work_l);
  signature <- decode (uint512_decode_hex 0 signature_l);
  read_ret (StateBlock h signature work).

(** [Some None] is a null pointer. *)
Definition deserialize_block_json (t : tree) : read_result block :=
  type <- field t "type";
  if bool_decide (type = chars "receive") then b <- receive_block_json t; read_ret (Receive b)
  else if bool_decide (type = chars "send") then b <- send_block_json t; read_ret (Send b)
  else if bool_decide (type = chars "open") then b <- open_block_json t; read_ret (Open b)
  else if bool_decide (type = chars "change") then b <- change_block_json t; read_ret (Change b)
  else if bool_decide (type = chars "state") then b <- state_block_json t; read_ret (State b)
  else read_error.

(** ** The members *)

(** The assertion on the type; a tree without type is an error. *)
Definition assert_type (t : tree) (name : string) : read_result unit :=
  type <- field t "type"; check (bool_decide (type = chars name)).

(** The block on success; after an error some members of the object have been written. *)
Definition send_deserialize_json (t : tree) : read_result send_block :=
  _ <- assert_type t "send";
  previous_l <- field t "previous"; destination_l <- field t "destination"; balance_l <- field t "balance";
  work_l <- field t "work"; signature_l <- field t "signature";
  previous <- decode (uint256_decode_hex 0 previous_l);
  destination <- decode_opt (decode_account 0 destination_l);
  balance <- decode (uint128_decode_hex 0 balance_l);
  work <- decode_opt (from_string_hex work_l);
  signature <- decode (uint512_decode_hex 0 signature_l);
  read_ret (SendBlock (SendHashables previous destination balance) signature work).

Definition receive_deserialize_json (t : tree) : read_result receive_block :=
  _ <- assert_type t "receive";
  previous_l <- field t "previous"; source_l <- field t "source"; work_l <- field t "work"; signature_l <- field t "signature";
  previous <- decode (uint256_decode_hex 0 previous_l);
  source <- decode (uint256_decode_hex 0 source_l);
  work <- decode_opt (from_string_hex work_l);
  signature <- decode (uint512_decode_hex 0 signature_l);
  read_ret (ReceiveBlock (ReceiveHashables previous source) signature work).

Definition open_deserialize_json (t : tree) : read_result open_block :=
  _ <- assert_type t "open";
  source_l <- field t "source"; representative_l <- field t "representative"; account_l <- field t "account";
  work_l <- field t "work"; signature_l <- field t "signature";
  source <- decode (uint256_decode_hex 0 source_l);
  representative <- decode (uint256_decode_hex 0 representative_l);
  account <- decode (uint256_decode_hex 0 account_l);
  work <- decode_opt (from_string_hex work_l);
  signature <- decode (uint512_decode_hex 0 signature_l);
  read_ret (OpenBlock (OpenHashables source representative account) signature work).

Definition change_deserialize_json (t : tree) : read_result change_block :=
  _ <- assert_type t "change";
  previous_l <- field t "previous"; representative_l <- field t "representative";
  work_l <- field t "work"; signature_l <- field t "signature";
  previous <- decode (uint256_decode_hex 0 previous_l);
  representative <- decode (uint256_decode_hex 0 representative_l);
  work <- decode_opt (from_string_hex work_l);
  signature <- decode (uint512_decode_hex 0 signature_l);
  read_ret (ChangeBlock (ChangeHashables previous representative) signature work).

Definition state_deserialize_json (t : tree) : read_result state_block :=
  _ <- assert_type t "state";
  account_l <- field t "account"; previous_l <- field t "previous"; representative_l <- field t "representative";
  balance_l <- field t "balance"; link_l <- field t "link"; work_l <- field t "work"; signature_l <- field t "signature";
  account <- decode_opt (decode_account 0 account_l);
  previous <- decode (uint256_decode_hex 0 previous_l);
  representative <- decode_opt (decode_account 0 representative_l);
  balance <- decode (uint128_decode_dec 0 balance_l);
  link <- decode_link link_l;
  work <- decode_opt (from_string_hex work_l);
  signature <- decode (uint512_decode_hex 0 signature_l);
  read_ret (StateBlock (StateHashables account previous representative balance link) signature work).

(** ** What is printed is read *)

Context `{L0 : !StreamsLaws} `{DL : !DigestLength}.

Lemma hex_digit_char upper d : 0 <= d < 16 ->
  hex_digit (digit_char upper d) = Some d /\ is_space (digit_char upper d) = false
  /\ forall z, z ∈ [0x2d; 0x2b; 0x78; 0x58; 0x6e] -> char_is z (digit_char upper d) = false.
Proof.
  intros Hd. cut (Forall (fun d => hex_digit (digit_char upper d) = Some d /\ is_space (digit_char upper d) = false
    /\ Forall (fun z => char_is z (digit_char upper d) = false) [0x2d; 0x2b; 0x78; 0x58; 0x6e]) (Z.of_nat <$> seq 0 16)).
  - rewrite Forall_forall. intros Hall. destruct (Hall d) as (H1 & H2 & H3).
    { apply list_elem_of_fmap. exists (Z.to_nat d). rewrite elem_of_seq. lia. }
    rewrite Forall_forall in H3. done.
  - destruct upper; repeat constructor.
Qed.

Lemma hex_run_digits upper ds n : Forall (fun d => 0 <= d < 16) ds ->
  hex_run n (digit_char upper <$> ds) = (fold_left (fun n d => n * 16 + d) ds n, []).
Proof.
  intros Hds. revert n. induction Hds as [|d ds Hd Hds IH]; intros n; [done|]. rewrite fmap_cons. cbn [hex_run].
  destruct (hex_digit_char upper d Hd) as (-> & _). by rewrite IH.
Qed.

Lemma extract_hex64_digits upper ds : ds <> [] -> Forall (fun d => 0 <= d < 16) ds ->
  extract_hex64 (digit_char upper <$> ds) = (Some (wrap 64 (digits_value 16 ds)), true).
Proof.
  intros Hne Hds. destruct ds as [|d ds]; [done|]. pose proof Hds as [Hd Hds']%Forall_cons.
  destruct (hex_digit_char upper d Hd) as (_ & Hsp & Hc). unfold extract_hex64. rewrite fmap_cons. cbn [skip_spaces]. rewrite Hsp.
  rewrite (Hc 0x2d), (Hc 0x2b) by (repeat constructor). cbn [orb]. rewrite <- fmap_cons.
  assert (skip_0x (digit_char upper <$> d :: ds) = digit_char upper <$> d :: ds) as ->.
  { destruct ds as [|e ds]; [done|]. apply Forall_cons in Hds' as [He _]. destruct (hex_digit_char upper e He) as (_ & _ & Hx). cbn.
    by rewrite (Hx 0x78), (Hx 0x58), andb_false_r by (repeat constructor). }
  by rewrite hex_run_digits.
Qed.

Lemma work_roundtrip n : in_width 64 n -> decode_opt (from_string_hex (to_string_hex n)) = read_ret n.
Proof.
  intros Hn. destruct (padded_digits false 16 n) as (ds & Ht & Hl & Hr & Hv); [lia|done|]. unfold to_string_hex. rewrite Ht.
  assert (ds <> []) as Hne by (by intros ->). unfold from_string_hex. rewrite length_fmap, Hl.
  rewrite bool_decide_false by (intros ?%fmap_nil_inv; done). cbn [orb]. rewrite extract_hex64_digits by done. cbn.
  by rewrite Hv, wrap_small.
Qed.

Lemma hex256_read n : in_width 256 n -> decode (uint256_decode_hex 0 (uint256_encode_hex n)) = read_ret n.
Proof. intros Hn. unfold decode. by rewrite (proj1 (proj2 (hex_roundtrip 0 n))). Qed.
Lemma hex128_read n : in_width 128 n -> decode (uint128_decode_hex 0 (uint128_encode_hex n)) = read_ret n.
Proof. intros Hn. unfold decode. by rewrite (proj1 (hex_roundtrip 0 n)). Qed.
Lemma hex512_read n : in_width 512 n -> decode (uint512_decode_hex 0 (uint512_encode_hex n)) = read_ret n.
Proof. intros Hn. unfold decode. by rewrite (proj2 (proj2 (hex_roundtrip 0 n))). Qed.
Lemma dec128_read n : in_width 128 n -> decode (uint128_decode_dec 0 (uint128_encode_dec n)) = read_ret n.
Proof. intros Hn. unfold decode. by rewrite (proj1 (dec_roundtrip 0 n)). Qed.

Lemma account_read n : in_width 256 n -> exists s, to_account n = Some s /\ decode_opt (decode_account 0 s) = read_ret n.
Proof. intros Hn. destruct (account_text_read 0 n Hn) as (s & Hs & _ & Hd). exists s. split; [done|]. by rewrite Hd. Qed.

(** A text of digits is no account. *)
Lemma link_read n : in_width 256 n -> decode_link (uint256_encode_hex n) = read_ret n.
Proof.
  intros Hn. pose proof (hex256_read n Hn) as Hread. unfold decode_link.
  assert (decode_account 0 (uint256_encode_hex n) = Some (true, 0)) as ->; [|done].
  destruct (padded_digits hex_upper 64 n) as (ds & Ht & Hl & Hr & _); [lia|done|]. unfold uint256_encode_hex. rewrite Ht.
  destruct ds as [|d1 [|d2 [|d3 [|d4 [|d5 ds]]]]]; try (cbn in Hl; lia). apply Forall_cons in Hr as [Hd _].
  destruct (hex_digit_char hex_upper d1 Hd) as (_ & _ & Hc). unfold decode_account. cbn [fmap list_fmap length Nat.ltb Nat.leb].
  unfold xrb_prefix, nano_prefix. by rewrite (Hc 0x78), (Hc 0x6e) by (repeat constructor).
Qed.

(** Fields of a tree. *)
Lemma field_here name v t : field (put name v :: t) name = read_ret v.
Proof. unfold field, tree_get, put. cbn. by rewrite bool_decide_true. Qed.
Lemma field_next name name' v t : bool_decide (chars name' = chars name) = false -> field (put name' v :: t) name = field t name.
Proof. intros E. unfold field, tree_get, put. cbn. by rewrite E. Qed.
End json.

Ltac read_names := repeat match goal with
  | |- context [bool_decide (chars ?a = chars ?b)] =>
    let v := eval vm_compute in (bool_decide (chars a = chars b)) in change (bool_decide (chars a = chars b)) with v
  end.
Ltac read_fields := repeat (rewrite field_here || rewrite field_next by reflexivity); cbn [read_bind read_ret]; read_names;
  cbn [read_bind check when read_ret].
Ltac read_values := rewrite ?hex256_read, ?hex128_read, ?hex512_read, ?dec128_read, ?link_read, ?work_roundtrip by done; cbn [read_bind read_ret].

Section json_spec.
Context `{E0 : Env} `{S0 : Streams} `{L0 : !StreamsLaws} `{DL : !DigestLength}.

(** C39. A block is read from the property tree that it prints: all numbers, accounts and the
    work come back from their texts, for each of the five types. *)
Theorem json_roundtrip b : wf_block b -> exists t, serialize_json b = Some t /\ deserialize_block_json t = read_ret b.
Proof.
  destruct b as [b|b|b|b|b]; cbn [wf_block serialize_json]; intros Hwf; destruct_and! Hwf.
  - destruct (account_read (send_destination b)) as (a & Ha & Hra); [done|]. unfold send_serialize_json. rewrite Ha. eexists. split; [done|].
    unfold deserialize_block_json, send_block_json, send_hashables_json. read_fields. rewrite Hra. read_values. by destruct b as [[]].
  - eexists. split; [done|]. unfold deserialize_block_json, receive_block_json, receive_hashables_json. read_fields. read_values. by destruct b as [[]].
  - destruct (account_read (open_representative b)) as (r & Hr & Hrr); [done|]. destruct (account_read (open_account b)) as (a & Ha & Hra); [done|].
    unfold open_serialize_json. rewrite Hr. cbn [mbind option_bind]. rewrite Ha. eexists. split; [done|].
    unfold deserialize_block_json, open_block_json, open_hashables_json. read_fields. rewrite Hrr, Hra. read_values. by destruct b as [[]].
  - destruct (account_read (change_representative b)) as (r & Hr & Hrr); [done|]. unfold change_serialize_json. rewrite Hr. eexists. split; [done|].
    unfold deserialize_block_json, change_block_json, change_hashables_json. read_fields. rewrite Hrr. read_values. by destruct b as [[]].
  - destruct (account_read (state_account b)) as (a & Ha & Hra); [done|]. destruct (account_read (state_representative b)) as (r & Hr & Hrr); [done|].
    destruct (account_read (state_link b)) as (k & Hk & _); [done|]. unfold state_serialize_json. rewrite Ha. cbn [mbind option_bind]. rewrite Hr.
    cbn [mbind option_bind]. rewrite Hk. eexists. split; [done|].
    unfold deserialize_block_json, state_block_json, state_hashables_json. read_fields. rewrite Hra, Hrr. read_values. by destruct b as [[]].
Qed.

(** The members of send, receive and state blocks read what the blocks print. *)
Theorem members_read :
  (forall b, wf_block (Send b) -> exists t, send_serialize_json b = Some t /\ send_deserialize_json t = read_ret b)
  /\ (forall b, wf_block (Receive b) -> exists t, receive_serialize_json b = Some t /\ receive_deserialize_json t = read_ret b)
  /\ forall b, wf_block (State b) -> exists t, state_serialize_json b = Some t /\ state_deserialize_json t = read_ret b.
Proof.
  split_and!; intros b Hwf; cbn in Hwf; destruct_and! Hwf.
  - destruct (account_read (send_destination b)) as (a & Ha & Hra); [done|]. unfold send_serialize_json. rewrite Ha. eexists. split; [done|].
    unfold send_deserialize_json, assert_type. read_fields. rewrite Hra. read_values. by destruct b as [[]].
  - eexists. split; [done|]. unfold receive_deserialize_json, assert_type. read_fields. read_values. by destruct b as [[]].
  - destruct (account_read (state_account b)) as (a & Ha & Hra); [done|]. destruct (account_read (state_representative b)) as (r & Hr & Hrr); [done|].
    destruct (account_read (state_link b)) as (k & Hk & _); [done|]. unfold state_serialize_json. rewrite Ha. cbn [mbind option_bind]. rewrite Hr.
    cbn [mbind option_bind]. rewrite Hk. eexists. split; [done|].
    unfold state_deserialize_json, assert_type. read_fields. rewrite Hra, Hrr. read_values. by destruct b as [[]].
Qed.

(** Extraction in base 16 does not go past the letter r. *)
Class StreamsStop : Prop := extract_stops w n s : extract w 16 s = Some (n, []) -> byte_of_Z 0x72 ∉ s.
Context `{P0 : !StreamsStop}.

Lemma account_not_hex n s : in_width 256 n -> to_account n = Some s -> decode (uint256_decode_hex 0 s) = read_error.
Proof.
  intros Hn Hs. unfold to_account in Hs. rewrite (encode_account_ok n Hn) in Hs. apply (inj Some) in Hs.
  remember (account_char <$> account_digits (n * 2 ^ 40 + account_check n)) as l eqn:El. clear El. subst s.
  unfold decode, uint256_decode_hex. destruct (bool_decide _ && _); [|done].
  unfold extract_all. destruct (extract 256 16 _) as [[x [|c rest]]|] eqn:E; [|done..].
  apply extract_stops in E as []. right. left.
Qed.

(** The members of open and change blocks read representatives and accounts as hexadecimal
    numbers, but the blocks print them as accounts: what is printed is never read. *)
Theorem members_misread :
  (forall b, wf_block (Open b) -> exists t, open_serialize_json b = Some t /\ open_deserialize_json t = read_error)
  /\ forall b, wf_block (Change b) -> exists t, change_serialize_json b = Some t /\ change_deserialize_json t = read_error.
Proof.
  split; intros b Hwf; cbn in Hwf; destruct_and! Hwf.
  - destruct (account_read (open_representative b)) as (r & Hr & _); [done|]. destruct (account_read (open_account b)) as (a & Ha & _); [done|].
    unfold open_serialize_json. rewrite Hr. cbn [mbind option_bind]. rewrite Ha. eexists. split; [done|].
    unfold open_deserialize_json, assert_type. read_fields. read_values. by rewrite (account_not_hex (open_representative b) r).
  - destruct (account_read (change_representative b)) as (r & Hr & _); [done|]. unfold change_serialize_json. rewrite Hr. eexists. split; [done|].
    unfold change_deserialize_json, assert_type. read_fields. read_values. by rewrite (account_not_hex (change_representative b) r).
Qed.
End json_spec.

(** Only the end of the text is tested after the extraction of the work, not its failure: a
    sign or a prefix alone is work 0, a negative number is accepted, and a text of one space
    reads a variable that was never written. *)
Example work_texts :
  from_string_hex (chars "-") = Some (false, 0) /\ from_string_hex (chars "0x") = Some (false, 0)
  /\ from_string_hex (chars "-1") = Some (false, 2 ^ 64 - 1) /\ from_string_hex (chars " ") = None
  /\ from_string_hex (chars "g") = Some (true, 0).
Proof. by vm_compute. Qed.
