(* ===== verification/Store.v ===== *)
(** * Store: the tables of [rai/blockstore.cpp]

    Each LMDB table is a finite map; the values are the decoded records (the byte
    images are the codecs of [Blocks] and [Common]). [None] is a failed assertion:
    the status of an [mdb_del] of an absent key, a block that should be there. *)

From stdpp Require Import base list option tactics gmap sorting.
From Stdlib Require Import ZArith Lia.
From S2P Require Import Prelude Blocks Common.
#[local] Open Scope Z_scope.

(** ** Cursors *)

(** The keys of a table in the order of its cursor, and the first one from [k] on. *)
Definition ordered {A} (m : gmap Z A) : list Z := merge_sort Z.le (elements (dom m)).
Definition lower_bound {A} (m : gmap Z A) (k : Z) : option Z := head (filter (fun x => k <= x) (ordered m)).

Lemma ordered_elem {A} (m : gmap Z A) k : k ∈ ordered m <-> is_Some (m !! k).
Proof. unfold ordered. by rewrite merge_sort_Permutation, elem_of_elements, elem_of_dom. Qed.

Lemma ordered_nodup {A} (m : gmap Z A) : NoDup (ordered m).
Proof. unfold ordered. rewrite merge_sort_Permutation. apply NoDup_elements. Qed.

Lemma ordered_sorted {A} (m : gmap Z A) : StronglySorted Z.le (ordered m).
Proof. apply StronglySorted_merge_sort; [intros x y z; lia|intros x y; lia]. Qed.

Lemma lower_bound_Some {A} (m : gmap Z A) p k :
  lower_bound m p = Some k -> is_Some (m !! k) /\ p <= k /\ forall k', is_Some (m !! k') -> p <= k' -> k <= k'.
Proof.
  unfold lower_bound. intros H. setoid_rewrite <- (ordered_elem m). pose proof (ordered_sorted m) as Hs. revert Hs H.
  induction (ordered m) as [|x l IH]; [done|]. intros [Hs Hx]%StronglySorted_inv. rewrite filter_cons.
  destruct (decide (p <= x)) as [Hp|Hp]; cbn [head].
  - intros [= ->]. split_and!; [by left|done|]. intros k' [->|Hk']%elem_of_cons _; [lia|].
    rewrite Forall_forall in Hx. by apply Hx.
  - intros H. destruct (IH Hs H) as (H1 & H2 & H3). split_and!; [by right|done|].
    intros k' [->|Hk']%elem_of_cons Hp'; [lia|by apply H3].
Qed.

Lemma lower_bound_None {A} (m : gmap Z A) p k : lower_bound m p = None -> is_Some (m !! k) -> k < p.
Proof.
  unfold lower_bound. rewrite <- ordered_elem. induction (ordered m) as [|x l IH]; [by intros _ ?%not_elem_of_nil|].
  rewrite filter_cons. destruct (decide (p <= x)); [done|]. intros H [->|Hk]%elem_of_cons; [lia|by apply IH].
Qed.

(** ** Data *)

(** A stored block: the block and the hash of its successor (zero for none). *)
Abbreviation stored := (block * Z)%type.

(** The five block tables. *)
Record block_tables := BlockTables {
  send_blocks : gmap Z stored;
  receive_blocks : gmap Z stored;
  open_blocks : gmap Z stored;
  change_blocks : gmap Z stored;
  state_blocks : gmap Z stored
}.

(** [block_store]: the tables the ledger works on. *)
Record store := Store {
  frontiers : gmap Z Z;
  accounts : gmap Z account_info;
  tables :> block_tables;
  pending : gmap pending_key pending_info;
  blocks_info : gmap Z block_info;
  representation : gmap Z Z;
  checksums : gmap Z Z;
  meta : gmap Z Z
}.

Definition empty_store : store := Store ∅ ∅ (BlockTables ∅ ∅ ∅ ∅ ∅) ∅ ∅ ∅ ∅ ∅.

(** ** Field updates *)

Definition set_frontiers (t : gmap Z Z) (s : store) : store :=
  Store t (accounts s) (tables s) (pending s) (blocks_info s) (representation s) (checksums s)
    (meta s).
Definition set_accounts (t : gmap Z account_info) (s : store) : store :=
  Store (frontiers s) t (tables s) (pending s) (blocks_info s) (representation s) (checksums s)
    (meta s).
Definition set_tables (t : block_tables) (s : store) : store :=
  Store (frontiers s) (accounts s) t (pending s) (blocks_info s) (representation s) (checksums s)
    (meta s).
Definition set_pending (t : gmap pending_key pending_info) (s : store) : store :=
  Store (frontiers s) (accounts s) (tables s) t (blocks_info s) (representation s) (checksums s)
    (meta s).
Definition set_blocks_info (t : gmap Z block_info) (s : store) : store :=
  Store (frontiers s) (accounts s) (tables s) (pending s) t (representation s) (checksums s)
    (meta s).
Definition set_representation (t : gmap Z Z) (s : store) : store :=
  Store (frontiers s) (accounts s) (tables s) (pending s) (blocks_info s) t (checksums s)
    (meta s).
Definition set_checksums (t : gmap Z Z) (s : store) : store :=
  Store (frontiers s) (accounts s) (tables s) (pending s) (blocks_info s) (representation s) t
    (meta s).
Definition set_meta (t : gmap Z Z) (s : store) : store :=
  Store (frontiers s) (accounts s) (tables s) (pending s) (blocks_info s) (representation s)
    (checksums s) t.

Definition set_send_blocks (m : gmap Z stored) (t : block_tables) : block_tables :=
  BlockTables m (receive_blocks t) (open_blocks t) (change_blocks t) (state_blocks t).
Definition set_receive_blocks (m : gmap Z stored) (t : block_tables) : block_tables :=
  BlockTables (send_blocks t) m (open_blocks t) (change_blocks t) (state_blocks t).
Definition set_open_blocks (m : gmap Z stored) (t : block_tables) : block_tables :=
  BlockTables (send_blocks t) (receive_blocks t) m (change_blocks t) (state_blocks t).
Definition set_change_blocks (m : gmap Z stored) (t : block_tables) : block_tables :=
  BlockTables (send_blocks t) (receive_blocks t) (open_blocks t) m (state_blocks t).
Definition set_state_blocks (m : gmap Z stored) (t : block_tables) : block_tables :=
  BlockTables (send_blocks t) (receive_blocks t) (open_blocks t) (change_blocks t) m.

(** ** Block tables *)

(** [block_database]; no table for the other type codes. *)
Definition block_database (t : block_type) (s : block_tables) : option (gmap Z stored) :=
  match t with
  | bt_send => Some (send_blocks s)
  | bt_receive => Some (receive_blocks s)
  | bt_open => Some (open_blocks s)
  | bt_change => Some (change_blocks s)
  | bt_state => Some (state_blocks s)
  | bt_invalid | bt_not_a_block => None
  end.

(** [block_put_raw (block_database (type), hash, value)]. *)
Definition block_put_raw (t : block_type) (h : Z) (v : stored) (s : block_tables) : option block_tables :=
  match t with
  | bt_send => Some (set_send_blocks (<[h:=v]> (send_blocks s)) s)
  | bt_receive => Some (set_receive_blocks (<[h:=v]> (receive_blocks s)) s)
  | bt_open => Some (set_open_blocks (<[h:=v]> (open_blocks s)) s)
  | bt_change => Some (set_change_blocks (<[h:=v]> (change_blocks s)) s)
  | bt_state => Some (set_state_blocks (<[h:=v]> (state_blocks s)) s)
  | bt_invalid | bt_not_a_block => None
  end.

(** [block_get_raw]: the tables in the order send, receive, open, change, state. *)
Definition block_get_raw (s : block_tables) (h : Z) : option (block_type * stored) :=
  match send_blocks s !! h with
  | Some v => Some (bt_send, v)
  | None =>
  match receive_blocks s !! h with
  | Some v => Some (bt_receive, v)
  | None =>
  match open_blocks s !! h with
  | Some v => Some (bt_open, v)
  | None =>
  match change_blocks s !! h with
  | Some v => Some (bt_change, v)
  | None =>
  match state_blocks s !! h with
  | Some v => Some (bt_state, v)
  | None => None
  end end end end end.

(** [block_get]. *)
Definition block_get (s : block_tables) (h : Z) : option block :=
  '(_, (b, _)) ← block_get_raw s h; Some b.

(** [block_exists]. *)
Definition block_exists (s : block_tables) (h : Z) : bool :=
  match send_blocks s !! h with
  | Some _ => true
  | None =>
  match receive_blocks s !! h with
  | Some _ => true
  | None =>
  match open_blocks s !! h with
  | Some _ => true
  | None =>
  match change_blocks s !! h with
  | Some _ => true
  | None =>
  match state_blocks s !! h with
  | Some _ => true
  | None => false
  end end end end end.

(** [block_successor]: the last 32 bytes of the record, zero for no record. *)
Definition block_successor (s : block_tables) (h : Z) : Z :=
  match block_get_raw s h with
  | Some (_, (_, succ)) => succ
  | None => 0
  end.

(** [block_del]: the tables in the order state, send, receive, open, change; the
    last deletion must succeed. *)
Definition block_del (h : Z) (s : block_tables) : option block_tables :=
  match state_blocks s !! h with
  | Some _ => Some (set_state_blocks (delete h (state_blocks s)) s)
  | None =>
  match send_blocks s !! h with
  | Some _ => Some (set_send_blocks (delete h (send_blocks s)) s)
  | None =>
  match receive_blocks s !! h with
  | Some _ => Some (set_receive_blocks (delete h (receive_blocks s)) s)
  | None =>
  match open_blocks s !! h with
  | Some _ => Some (set_open_blocks (delete h (open_blocks s)) s)
  | None =>
  match change_blocks s !! h with
  | Some _ => Some (set_change_blocks (delete h (change_blocks s)) s)
  | None => None
  end end end end end.

(** Number of blocks of all types together. *)
Definition blocks_total (s : block_tables) : nat :=
  size (send_blocks s) + size (receive_blocks s) + size (open_blocks s)
  + size (change_blocks s) + size (state_blocks s).

(** [block_count]. *)
Definition block_count (s : block_tables) : block_counts :=
  BlockCounts (Z.of_nat (size (send_blocks s))) (Z.of_nat (size (receive_blocks s)))
    (Z.of_nat (size (open_blocks s))) (Z.of_nat (size (change_blocks s)))
    (Z.of_nat (size (state_blocks s))).

Section block_put.
Context `{Env}.

(** [set_predecessor::fill_value]: the previous block's record gets this block's
    digest as its successor. *)
Definition fill_value (b : block) (s : block_tables) : option block_tables :=
  '(t, (prev, _)) ← block_get_raw s (previous b);
  block_put_raw t (previous b) (prev, hash b) s.

(** [set_predecessor], the visitor. *)
Definition set_predecessor (b : block) (s : block_tables) : option block_tables :=
  match b with
  | Send _ => fill_value b s
  | Receive _ => fill_value b s
  | Open _ => Some s
  | Change _ => fill_value b s
  | State sb => if negb (state_previous sb =? 0) then fill_value b s else Some s
  end.

(** [block_put]. *)
Definition block_put (h : Z) (b : block) (successor : Z) (s : block_tables) : option block_tables :=
  _ ← assert ((successor =? 0) || block_exists s successor);
  s ← block_put_raw (block_type_of b) h (b, successor) s;
  s ← set_predecessor b s;
  _ ← assert ((previous b =? 0) || (block_successor s (previous b) =? h));
  Some s.

(** [block_successor_clear]. *)
Definition block_successor_clear (h : Z) (s : block_tables) : option block_tables :=
  b ← block_get s h;
  block_put h b 0 s.
End block_put.

(** A block table operation on the store. *)
Definition on_tables (f : block_tables -> option block_tables) (s : store) : option store :=
  t ← f (tables s); Some (set_tables t s).

(** ** Accounts, frontiers, pending sends, block information *)

(** [account_get]: [None] is the error return. *)
Definition account_get (s : store) (a : Z) : option account_info := accounts s !! a.
Definition account_exists (s : store) (a : Z) : bool :=
  match accounts s !! a with Some _ => true | None => false end.
Definition account_put (a : Z) (i : account_info) (s : store) : store :=
  set_accounts (<[a:=i]> (accounts s)) s.
Definition account_del (a : Z) (s : store) : option store :=
  _ ← accounts s !! a; Some (set_accounts (delete a (accounts s)) s).
Definition account_count (s : store) : Z := Z.of_nat (size (accounts s)).

(** [frontier_get]: zero for no entry. *)
Definition frontier_get (s : store) (h : Z) : Z := default 0 (frontiers s !! h).
Definition frontier_put (h a : Z) (s : store) : store :=
  set_frontiers (<[h:=a]> (frontiers s)) s.
Definition frontier_del (h : Z) (s : store) : option store :=
  _ ← frontiers s !! h; Some (set_frontiers (delete h (frontiers s)) s).

(** [pending_get]: [None] is the error return. *)
Definition pending_get (s : store) (k : pending_key) : option pending_info := pending s !! k.
Definition pending_exists (s : store) (k : pending_key) : bool :=
  match pending s !! k with Some _ => true | None => false end.
Definition pending_put (k : pending_key) (i : pending_info) (s : store) : store :=
  set_pending (<[k:=i]> (pending s)) s.
Definition pending_del (k : pending_key) (s : store) : option store :=
  _ ← pending s !! k; Some (set_pending (delete k (pending s)) s).

Definition block_info_max : Z := 32.

(** [block_info_get]: [None] is the error return. *)
Definition block_info_get (s : store) (h : Z) : option block_info := blocks_info s !! h.
Definition block_info_exists (s : store) (h : Z) : bool :=
  match blocks_info s !! h with Some _ => true | None => false end.
Definition block_info_put (h : Z) (i : block_info) (s : store) : store :=
  set_blocks_info (<[h:=i]> (blocks_info s)) s.
Definition block_info_del (h : Z) (s : store) : option store :=
  _ ← blocks_info s !! h; Some (set_blocks_info (delete h (blocks_info s)) s).

(** [root_exists]. *)
Definition root_exists (s : store) (r : Z) : bool := block_exists s r || account_exists s r.

(** ** Representation weights *)

Definition representation_get (s : store) (a : Z) : Z := default 0 (representation s !! a).
Definition representation_put (a w : Z) (s : store) : store :=
  set_representation (<[a:=w]> (representation s)) s.

(** [representation_add]: the weight goes to the representative named by the block
    [source], in 128-bit arithmetic. *)
Definition representation_add (source amount : Z) (s : store) : option store :=
  source_block ← block_get s source;
  let source_rep := representative source_block in
  let source_previous := representation_get s source_rep in
  Some (representation_put source_rep (wrap 128 (source_previous + amount)) s).

(** ** Checksums and meta *)

Definition checksum_key (prefix mask : Z) : Z := Z.lor prefix mask.
(** [checksum_get]: the inner [None] is the error return. *)
Definition checksum_get (prefix mask : Z) (s : store) : option (option Z) :=
  _ ← assert (Z.land prefix 0xff =? 0);
  Some (checksums s !! checksum_key prefix mask).
Definition checksum_put (prefix mask h : Z) (s : store) : option store :=
  _ ← assert (Z.land prefix 0xff =? 0);
  Some (set_checksums (<[checksum_key prefix mask := h]> (checksums s)) s).
Definition checksum_del (prefix mask : Z) (s : store) : option store :=
  _ ← assert (Z.land prefix 0xff =? 0);
  _ ← checksums s !! checksum_key prefix mask;
  Some (set_checksums (delete (checksum_key prefix mask) (checksums s)) s).

(** [version_get]: an absent entry is version one. *)
Definition version_get (s : store) : Z := default 1 (meta s !! 1).
Definition version_put (v : Z) (s : store) : store := set_meta (<[1:=v]> (meta s)) s.
