(* ===== verification/Tables.v ===== *)
(** * Tables: the five block tables as one map

    The block tables behave as one map from digests to stored blocks as long as
    every block sits in the table of its own type and under a digest no other table
    has. [block_get], [block_exists], [block_successor] read this map, [block_put] and
    [block_del] update it. *)

From stdpp Require Import base list option tactics gmap sorting.
From Stdlib Require Import ZArith Lia.
From S2P Require Import Prelude Blocks Common Store.
#[local] Open Scope Z_scope.

Definition blocks (t : block_tables) : gmap Z stored :=
  send_blocks t ∪ (receive_blocks t ∪ (open_blocks t ∪ (change_blocks t ∪ state_blocks t))).

(** Every entry is of its table's type and is the one the union shows. *)
Definition tables_ok (t : block_tables) : Prop :=
  forall ty m h v, block_database ty t = Some m -> m !! h = Some v ->
    block_type_of v.1 = ty /\ blocks t !! h = Some v.

Lemma blocks_lookup t h :
  blocks t !! h =
  match send_blocks t !! h with Some v => Some v | None =>
  match receive_blocks t !! h with Some v => Some v | None =>
  match open_blocks t !! h with Some v => Some v | None =>
  match change_blocks t !! h with Some v => Some v | None => state_blocks t !! h
  end end end end.
Proof.
  unfold blocks. rewrite !lookup_union.
  destruct (send_blocks t !! h), (receive_blocks t !! h), (open_blocks t !! h),
    (change_blocks t !! h), (state_blocks t !! h); done.
Qed.

Lemma blocks_total_size t : (size (blocks t) <= blocks_total t)%nat.
Proof.
  assert (forall m1 m2 : gmap Z stored, size (m1 ∪ m2) <= size m1 + size m2)%nat as Hu.
  { intros m1 m2. rewrite <- !size_dom, dom_union_L, size_union_alt.
    apply Nat.add_le_mono_l, subseteq_size. set_solver. }
  unfold blocks, blocks_total.
  pose proof (Hu (send_blocks t) (receive_blocks t ∪ (open_blocks t ∪ (change_blocks t ∪ state_blocks t)))).
  pose proof (Hu (receive_blocks t) (open_blocks t ∪ (change_blocks t ∪ state_blocks t))).
  pose proof (Hu (open_blocks t) (change_blocks t ∪ state_blocks t)).
  pose proof (Hu (change_blocks t) (state_blocks t)). lia.
Qed.

(** ** Reading *)

Section reading.
Context (t : block_tables) (Hok : tables_ok t).

Lemma block_get_raw_blocks h :
  block_get_raw t h = (fun v => (block_type_of v.1, v)) <$> blocks t !! h.
Proof.
  unfold block_get_raw. rewrite blocks_lookup.
  destruct (send_blocks t !! h) as [v|] eqn:E1;
    [by destruct (Hok bt_send _ h v eq_refl E1) as [Hty _]; cbn; rewrite Hty|].
  destruct (receive_blocks t !! h) as [v|] eqn:E2;
    [by destruct (Hok bt_receive _ h v eq_refl E2) as [Hty _]; cbn; rewrite Hty|].
  destruct (open_blocks t !! h) as [v|] eqn:E3;
    [by destruct (Hok bt_open _ h v eq_refl E3) as [Hty _]; cbn; rewrite Hty|].
  destruct (change_blocks t !! h) as [v|] eqn:E4;
    [by destruct (Hok bt_change _ h v eq_refl E4) as [Hty _]; cbn; rewrite Hty|].
  destruct (state_blocks t !! h) as [v|] eqn:E5;
    [by destruct (Hok bt_state _ h v eq_refl E5) as [Hty _]; cbn; rewrite Hty|done].
Qed.

Lemma block_get_blocks h : block_get t h = fst <$> blocks t !! h.
Proof.
  unfold block_get. rewrite block_get_raw_blocks. by destruct (blocks t !! h) as [[]|].
Qed.

Lemma block_successor_blocks h :
  block_successor t h = match blocks t !! h with Some v => v.2 | None => 0 end.
Proof.
  unfold block_successor. rewrite block_get_raw_blocks. by destruct (blocks t !! h) as [[]|].
Qed.
End reading.

Lemma block_exists_blocks t h :
  block_exists t h = match blocks t !! h with Some _ => true | None => false end.
Proof.
  unfold block_exists. rewrite blocks_lookup.
  destruct (send_blocks t !! h), (receive_blocks t !! h), (open_blocks t !! h),
    (change_blocks t !! h), (state_blocks t !! h); done.
Qed.

(** ** Writing *)

Lemma block_type_of_table b t : exists m, block_database (block_type_of b) t = Some m.
Proof. destruct b; simpl; eauto. Qed.

(** A record replaces one of its own type, or takes a digest no table has. *)
Lemma block_put_raw_blocks t h v :
  tables_ok t ->
  match blocks t !! h with Some v' => block_type_of v'.1 = block_type_of v.1 | None => True end ->
  exists t', block_put_raw (block_type_of v.1) h v t = Some t'
    /\ tables_ok t' /\ blocks t' = <[h:=v]> (blocks t).
Proof.
  intros Hok Hh.
  assert (Hty : forall ty m, block_database ty t = Some m -> ty <> block_type_of v.1 -> m !! h = None).
  { intros ty m Hm Hne. destruct (m !! h) as [v'|] eqn:E; [|done].
    destruct (Hok _ _ _ _ Hm E) as [<- Hv]. rewrite Hv in Hh. done. }
  enough (exists t', block_put_raw (block_type_of v.1) h v t = Some t'
    /\ blocks t' = <[h:=v]> (blocks t)
    /\ forall ty m m', block_database ty t = Some m -> block_database ty t' = Some m' ->
         m' = if decide (ty = block_type_of v.1) then <[h:=v]> m else m)
    as (t' & Ht' & Hb & Hm).
  { exists t'. split_and!; [done| |done]. intros ty m' k w Hm' Hk.
    destruct (block_database ty t) as [m|] eqn:Em; [|by destruct ty].
    rewrite (Hm _ _ _ Em Hm') in Hk. rewrite Hb. case_decide; subst.
    - apply lookup_insert_Some in Hk as [[-> ->]|[Hne Hk]]; [by rewrite lookup_insert_eq|].
      rewrite lookup_insert_ne by done. eauto.
    - rewrite lookup_insert_ne; [eauto|]. intros ->. by rewrite (Hty _ _ Em) in Hk. }
  destruct v as [b succ]. cbn [fst] in *.
  destruct b; cbn [block_type_of block_put_raw] in *; (eexists; split_and!; [done| |]);
    try (intros [] ? ?; cbn; intros; by simplify_eq);
    apply map_eq; intros k; rewrite lookup_insert; rewrite !blocks_lookup; cbn;
    rewrite ?lookup_insert; case_decide; subst; try done;
    rewrite ?(Hty bt_send _ eq_refl), ?(Hty bt_receive _ eq_refl), ?(Hty bt_open _ eq_refl),
      ?(Hty bt_change _ eq_refl) by done; done.
Qed.

Lemma block_del_blocks t h v :
  tables_ok t -> blocks t !! h = Some v ->
  exists t', block_del h t = Some t' /\ tables_ok t' /\ blocks t' = delete h (blocks t).
Proof.
  intros Hok Hv.
  assert (Hty : forall ty m, block_database ty t = Some m -> ty <> block_type_of v.1 -> m !! h = None).
  { intros ty m Hm Hne. destruct (m !! h) as [v'|] eqn:E; [|done].
    destruct (Hok _ _ _ _ Hm E) as [<- Hv']. simplify_eq. }
  assert (Hin : forall m, block_database (block_type_of v.1) t = Some m -> m !! h = Some v).
  { intros m Hm. rewrite blocks_lookup in Hv.
    destruct v as [b succ], b; cbn in Hm, Hty; simplify_eq;
      rewrite ?(Hty bt_send _ eq_refl), ?(Hty bt_receive _ eq_refl), ?(Hty bt_open _ eq_refl),
        ?(Hty bt_change _ eq_refl), ?(Hty bt_state _ eq_refl) in Hv by done;
      first [done|by destruct (_ !! h)]. }
  enough (exists t', block_del h t = Some t' /\ blocks t' = delete h (blocks t)
    /\ forall ty m m', block_database ty t = Some m -> block_database ty t' = Some m' ->
         m' = if decide (ty = block_type_of v.1) then delete h m else m)
    as (t' & Ht' & Hb & Hm).
  { exists t'. split_and!; [done| |done]. intros ty m' k w Hm' Hk.
    destruct (block_database ty t) as [m|] eqn:Em; [|by destruct ty].
    rewrite (Hm _ _ _ Em Hm') in Hk. rewrite Hb. case_decide; subst.
    - apply lookup_delete_Some in Hk as [Hne Hk]. rewrite lookup_delete_ne by done. eauto.
    - rewrite lookup_delete_ne; [eauto|]. intros ->. by rewrite (Hty _ _ Em) in Hk. }
  unfold block_del. destruct v as [b succ], b; cbn [fst block_type_of] in *;
    rewrite ?(Hty bt_send _ eq_refl), ?(Hty bt_receive _ eq_refl), ?(Hty bt_open _ eq_refl),
      ?(Hty bt_change _ eq_refl), ?(Hty bt_state _ eq_refl) by done;
    rewrite (Hin _ eq_refl); (eexists; split_and!; [done| |]);
    try (intros [] ? ?; cbn; intros; by simplify_eq);
    apply map_eq; intros k; rewrite lookup_delete; rewrite !blocks_lookup; cbn;
    rewrite ?lookup_delete; case_decide; subst; try done;
    rewrite ?(Hty bt_send _ eq_refl), ?(Hty bt_receive _ eq_refl), ?(Hty bt_open _ eq_refl),
      ?(Hty bt_change _ eq_refl), ?(Hty bt_state _ eq_refl) by done; done.
Qed.

(** ** [block_put] and [block_successor_clear] on the union *)

Section block_put.
Context `{Env}.

(** The previous block's record with the new successor. *)
Definition link_previous (b : block) (m : gmap Z stored) : gmap Z stored :=
  if previous b =? 0 then m else alter (fun v => (v.1, hash b)) (previous b) m.

(** An open block and a first state block have no predecessor; the others find
    theirs in the tables. *)
Definition previous_known (b : block) (m : gmap Z stored) : Prop :=
  match b with
  | Open _ => True
  | State sb => state_previous sb = 0 \/ is_Some (m !! state_previous sb)
  | _ => previous b <> 0 /\ is_Some (m !! previous b)
  end.

Lemma previous_known_mono b (m m' : gmap Z stored) :
  (forall k, is_Some (m !! k) -> is_Some (m' !! k)) -> previous_known b m -> previous_known b m'.
Proof. intros Hm. destruct b; cbn; naive_solver. Qed.

Lemma fill_value_blocks b t :
  tables_ok t -> is_Some (blocks t !! previous b) ->
  exists t', fill_value b t = Some t' /\ tables_ok t'
    /\ blocks t' = alter (fun v => (v.1, hash b)) (previous b) (blocks t).
Proof.
  intros Hok [[pb psucc] Hp]. unfold fill_value. rewrite block_get_raw_blocks, Hp by done. cbn.
  destruct (block_put_raw_blocks t (previous b) (pb, hash b)) as (t' & Ht' & Hok' & Hb);
    [done|by rewrite Hp|]. cbn in Ht'. rewrite Ht'. eexists; split_and!; [done..|].
  rewrite Hb. apply map_eq. intros k. rewrite lookup_insert, lookup_alter.
  case_decide; subst; [|done]. by rewrite Hp.
Qed.

Lemma set_predecessor_blocks b t :
  tables_ok t -> previous_known b (blocks t) ->
  exists t', set_predecessor b t = Some t' /\ tables_ok t'
    /\ blocks t' = link_previous b (blocks t).
Proof.
  intros Hok Hp. unfold link_previous.
  destruct b as [sb|rb|ob|cb|st]; cbn [set_predecessor previous_known] in *.
  1, 2, 4: destruct Hp as [H0%Z.eqb_neq Hp]; rewrite H0; by apply fill_value_blocks.
  - by exists t.
  - cbn [previous]. destruct (Z.eqb_spec (state_previous st) 0); cbn; [by exists t|].
    destruct Hp as [|Hp]; [done|]. by apply fill_value_blocks.
Qed.

Lemma block_put_successor b succ t :
  tables_ok t -> succ = 0 \/ is_Some (blocks t !! succ) ->
  match blocks t !! hash b with Some v => block_type_of v.1 = block_type_of b | None => True end ->
  previous_known b (blocks t) ->
  exists t', block_put (hash b) b succ t = Some t' /\ tables_ok t'
    /\ blocks t' = link_previous b (<[hash b := (b, succ)]> (blocks t)).
Proof.
  intros Hok Hs Hh Hp. unfold block_put.
  assert ((succ =? 0) || block_exists t succ = true) as ->.
  { destruct Hs as [->|[? Hs]]; [done|]. rewrite block_exists_blocks, Hs by done. apply orb_true_r. }
  cbn. destruct (block_put_raw_blocks t (hash b) (b, succ)) as (t1 & Ht1 & Hok1 & Hb1); [done|done|].
  cbn in Ht1. rewrite Ht1. cbn.
  assert (previous_known b (blocks t1)) as Hp1.
  { eapply previous_known_mono, Hp. intros k Hk. rewrite Hb1, lookup_insert_is_Some'. auto. }
  destruct (set_predecessor_blocks b t1) as (t2 & Ht2 & Hok2 & Hb2); [done..|].
  rewrite Ht2. cbn. exists t2. rewrite Hb2, Hb1. split_and!; try done.
  rewrite block_successor_blocks, Hb2 by done. unfold link_previous.
  destruct (Z.eqb_spec (previous b) 0) as [E|E]; [done|]. cbn.
  assert (is_Some (blocks t1 !! previous b)) as [v Hv]
    by (destruct b; cbn in Hp1, E |- *; naive_solver).
  rewrite lookup_alter, decide_True, Hv by done. cbn. by rewrite Z.eqb_refl.
Qed.

Lemma block_put_blocks b t :
  tables_ok t ->
  match blocks t !! hash b with Some v => block_type_of v.1 = block_type_of b | None => True end ->
  previous_known b (blocks t) ->
  exists t', block_put (hash b) b 0 t = Some t' /\ tables_ok t'
    /\ blocks t' = link_previous b (<[hash b := (b, 0)]> (blocks t)).
Proof. intros Hok. apply block_put_successor; auto. Qed.

(** Clearing the successor of a stored block whose predecessor already points to
    it changes that one field. *)
Lemma block_successor_clear_blocks h b succ t :
  tables_ok t -> blocks t !! h = Some (b, succ) -> hash b = h ->
  previous_known b (blocks t) ->
  (previous b <> 0 -> previous b <> h /\ exists pb, blocks t !! previous b = Some (pb, h)) ->
  exists t', block_successor_clear h t = Some t' /\ tables_ok t'
    /\ blocks t' = <[h := (b, 0)]> (blocks t).
Proof.
  intros Hok Hh Hhash Hp Hlink. unfold block_successor_clear.
  rewrite block_get_blocks, Hh by done. cbn. rewrite <- Hhash.
  destruct (block_put_blocks b t) as (t' & Ht' & Hok' & Hb'); [done| |done|].
  { by rewrite Hhash, Hh. }
  exists t'. split_and!; [done..|]. rewrite Hb'. unfold link_previous.
  destruct (Z.eqb_spec (previous b) 0) as [|E]; [done|].
  destruct (Hlink E) as (Hne & pb & Hpb). apply map_eq. intros k.
  rewrite lookup_alter. case_decide; subst; [|done].
  rewrite lookup_insert_ne, Hpb by congruence. done.
Qed.
End block_put.

(** * Walks over a table in the order of its keys

    The keys of a table from a given one on, as strictly sorted lists, and loops over them. *)

(** The keys from [p] on. *)
Definition from {A} (m : gmap Z A) (p : Z) : list Z := filter (fun x => p <= x) (ordered m).

Lemma ordered_strict {A} (m : gmap Z A) : StronglySorted Z.lt (ordered m).
Proof.
  pose proof (ordered_sorted m) as Hs. pose proof (ordered_nodup m) as Hn. revert Hs Hn.
  induction (ordered m) as [|x l IH]; [constructor|]. intros [Hs Hx]%StronglySorted_inv [Hx' Hn]%NoDup_cons.
  constructor; [auto|]. rewrite Forall_forall in Hx |- *. intros y Hy. specialize (Hx y Hy).
  assert (x <> y) by set_solver. lia.
Qed.

(** A strictly sorted list is determined by its elements. *)
Lemma strict_unique l1 l2 :
  StronglySorted Z.lt l1 -> StronglySorted Z.lt l2 -> (forall x, x ∈ l1 <-> x ∈ l2) -> l1 = l2.
Proof.
  revert l2. induction l1 as [|x l1 IH]; intros [|y l2] H1 H2 He; [done| | |].
  - exfalso. apply (not_elem_of_nil y), He. by left.
  - exfalso. apply (not_elem_of_nil x), He. by left.
  - apply StronglySorted_inv in H1 as [H1 Hx], H2 as [H2 Hy]. rewrite Forall_forall in Hx, Hy.
    assert (x = y) as <-.
    { pose proof (proj1 (He x) ltac:(by left)) as Hxy. pose proof (proj2 (He y) ltac:(by left)) as Hyx.
      apply elem_of_cons in Hxy as [|Hxy], Hyx as [|Hyx]; try done. specialize (Hx _ Hyx). specialize (Hy _ Hxy). lia. }
    f_equal. apply IH; [done..|]. intros z. specialize (He z). rewrite !elem_of_cons in He.
    split; intros Hz; [specialize (Hx _ Hz)|specialize (Hy _ Hz)]; destruct He as [He1 He2];
      [destruct He1|destruct He2]; auto; lia.
Qed.

Lemma strict_filter (P : Z -> Prop) `{!forall x, Decision (P x)} l : StronglySorted Z.lt l -> StronglySorted Z.lt (filter P l).
Proof.
  induction 1 as [|x l Hl IH Hx]; [constructor|]. rewrite filter_cons. case_decide; [|done]. constructor; [done|].
  rewrite Forall_forall in Hx |- *. intros y [_ Hy]%list_elem_of_filter. auto.
Qed.

Lemma from_elem {A} (m : gmap Z A) p x : x ∈ from m p <-> is_Some (m !! x) /\ p <= x.
Proof. unfold from. rewrite list_elem_of_filter, ordered_elem. tauto. Qed.

Lemma from_sorted {A} (m : gmap Z A) p : StronglySorted Z.lt (from m p).
Proof. apply strict_filter, ordered_strict. Qed.

Lemma from_tail {A} (m : gmap Z A) p k ks : from m p = k :: ks -> ks = from m (k + 1).
Proof.
  intros E. pose proof (from_sorted m p) as Hs. rewrite E in Hs. apply StronglySorted_inv in Hs as [Hs Hk].
  apply strict_unique; [done|apply from_sorted|]. intros x. rewrite from_elem.
  pose proof (from_elem m p x) as Hx. pose proof (from_elem m p k) as Hp. rewrite E in Hx, Hp. rewrite Forall_forall in Hk.
  rewrite elem_of_cons in Hx, Hp. split.
  - intros Hin. specialize (Hk _ Hin). destruct (proj1 Hx) as [? ?]; [by right|]. split; [done|lia].
  - intros [Hm Hle]. destruct (proj1 Hp) as [_ ?]; [by left|]. destruct (proj2 Hx) as [->|?]; [split; [done|lia]|lia|done].
Qed.

Lemma from_length {A} (m : gmap Z A) p : (length (from m p) <= size m)%nat.
Proof.
  unfold from. etrans; [apply length_filter|]. unfold ordered. rewrite merge_sort_Permutation.
  by rewrite <- size_dom.
Qed.

Lemma from_ordered {A} (m : gmap Z A) p : (forall k, is_Some (m !! k) -> p <= k) -> from m p = ordered m.
Proof.
  intros H. apply strict_unique; [apply from_sorted|apply ordered_strict|].
  intros k. rewrite from_elem, ordered_elem. split; [by intros [Hk _]|]. intros Hk. split; [done|by apply H].
Qed.

(** Tables with the same keys are walked over alike. *)
Lemma ordered_dom {A B} (m : gmap Z A) (n : gmap Z B) :
  (forall k, is_Some (m !! k) <-> is_Some (n !! k)) -> ordered m = ordered n.
Proof. intros H. apply strict_unique; [apply ordered_strict..|]. intros k. by rewrite !ordered_elem. Qed.

Lemma from_dom {A B} (m : gmap Z A) (n : gmap Z B) p :
  (forall k, is_Some (m !! k) <-> is_Some (n !! k)) -> from m p = from n p.
Proof. intros H. unfold from. by rewrite (ordered_dom m n). Qed.

(** A sum over the keys of a table in order is the sum over the table. *)
Definition list_sum {A} (f : Z -> A -> Z) (m : gmap Z A) (ks : list Z) : Z :=
  foldr (fun k acc => match m !! k with Some v => f k v | None => 0 end + acc) 0 ks.

Lemma list_sum_ext {A} (f : Z -> A -> Z) (m n : gmap Z A) ks :
  (forall k, k ∈ ks -> m !! k = n !! k) -> list_sum f m ks = list_sum f n ks.
Proof.
  induction ks as [|k ks IH]; intros H; [done|]. cbn. rewrite (H k) by (by left). f_equal. apply IH. intros x Hx. apply H. by right.
Qed.

Lemma list_sum_map {A} (f : Z -> A -> Z) ks : forall m : gmap Z A,
  NoDup ks -> (forall k, k ∈ ks <-> is_Some (m !! k)) -> list_sum f m ks = map_sum f m.
Proof.
  induction ks as [|k ks IH]; intros m Hn Hk.
  - assert (m = ∅) as ->; [|by rewrite map_sum_empty]. apply map_empty. intros k. apply eq_None_not_Some. rewrite <- Hk. apply not_elem_of_nil.
  - apply NoDup_cons in Hn as [Hnk Hn]. destruct (proj1 (Hk k)) as [v Hv]; [by left|].
    change (list_sum f m (k :: ks)) with (match m !! k with Some v => f k v | None => 0 end + list_sum f m ks). rewrite Hv.
    rewrite (list_sum_ext _ m (delete k m)).
    + rewrite IH, (map_sum_delete _ _ _ _ Hv); [lia|done|]. intros x. rewrite lookup_delete_is_Some, <- Hk, elem_of_cons.
      split; [intros Hx; split; [by intros ->|by right]|by intros [? [->|?]]].
    + intros x Hx. rewrite lookup_delete_ne; [done|]. by intros ->.
Qed.

Lemma ordered_sum {A} (f : Z -> A -> Z) (m : gmap Z A) : list_sum f m (ordered m) = map_sum f m.
Proof. apply list_sum_map; [apply ordered_nodup|]. intros k. apply ordered_elem. Qed.
