(* ===== verification/Visitors.v ===== *)
(** * Visitors: balances, amounts and representatives recomputed from blocks

    [amount_visitor], [balance_visitor] and [representative_visitor] of
    [rai/common.cpp]. Their loops walk the chains of blocks; each turn of a loop and
    each nested computation takes one unit of fuel, and [None] is a failed assertion
    (or, without enough fuel, no answer). *)

From stdpp Require Import base list option tactics gmap.
From Stdlib Require Import ZArith Lia.
From S2P Require Import Prelude Blocks Common Store.
#[local] Open Scope Z_scope.

Record amount_visitor := AmountVisitor {
  av_current_amount : Z;
  av_current_balance : Z;
  av_amount : Z
}.

Record balance_visitor := BalanceVisitor {
  bv_current_balance : Z;
  bv_current_amount : Z;
  bv_balance : Z
}.

Definition amount_visitor_init : amount_visitor := AmountVisitor 0 0 0.
Definition balance_visitor_init : balance_visitor := BalanceVisitor 0 0 0.

Section visitors.
Context `{Env}.

(** ** [amount_visitor] *)

Definition amount_visit_send (b : send_block) (v : amount_visitor) : amount_visitor :=
  AmountVisitor 0 (send_previous b) (send_balance b).

Definition amount_visit_receive (b : receive_block) (v : amount_visitor) : amount_visitor :=
  AmountVisitor (receive_source b) (av_current_balance v) (av_amount v).

Definition amount_visit_open (b : open_block) (v : amount_visitor) : amount_visitor :=
  if negb (open_source b =? genesis_account)
  then AmountVisitor (open_source b) (av_current_balance v) (av_amount v)
  else AmountVisitor 0 (av_current_balance v) genesis_amount.

Definition amount_visit_state (b : state_block) (v : amount_visitor) : amount_visitor :=
  AmountVisitor 0 (state_previous b) (state_balance b).

Definition amount_visit_change (b : change_block) (v : amount_visitor) : amount_visitor :=
  AmountVisitor 0 (av_current_balance v) 0.

Definition amount_visit (b : block) (v : amount_visitor) : amount_visitor :=
  match b with
  | Send b => amount_visit_send b v
  | Receive b => amount_visit_receive b v
  | Open b => amount_visit_open b v
  | State b => amount_visit_state b v
  | Change b => amount_visit_change b v
  end.

(** ** [balance_visitor] *)

Definition balance_visit_send (b : send_block) (v : balance_visitor) : balance_visitor :=
  BalanceVisitor 0 (bv_current_amount v) (wrap 128 (bv_balance v + send_balance b)).

Definition balance_visit_receive (s : store) (b : receive_block) (v : balance_visitor)
    : balance_visitor :=
  match block_info_get s (hash (Receive b)) with
  | Some i => BalanceVisitor 0 (bv_current_amount v) (wrap 128 (bv_balance v + bi_balance i))
  | None => BalanceVisitor (receive_previous b) (receive_source b) (bv_balance v)
  end.

Definition balance_visit_open (b : open_block) (v : balance_visitor) : balance_visitor :=
  BalanceVisitor 0 (open_source b) (bv_balance v).

Definition balance_visit_change (s : store) (b : change_block) (v : balance_visitor)
    : balance_visitor :=
  match block_info_get s (hash (Change b)) with
  | Some i => BalanceVisitor 0 (bv_current_amount v) (wrap 128 (bv_balance v + bi_balance i))
  | None => BalanceVisitor (change_previous b) (bv_current_amount v) (bv_balance v)
  end.

Definition balance_visit_state (b : state_block) (v : balance_visitor) : balance_visitor :=
  BalanceVisitor 0 (bv_current_amount v) (state_balance b).

Definition balance_visit (s : store) (b : block) (v : balance_visitor) : balance_visitor :=
  match b with
  | Send b => balance_visit_send b v
  | Receive b => balance_visit_receive s b v
  | Open b => balance_visit_open b v
  | Change b => balance_visit_change s b v
  | State b => balance_visit_state b v
  end.

(** ** The two [compute] loops, which call each other *)

Fixpoint amount_loop (fuel : nat) (s : store) (block_hash : Z) (v : amount_visitor)
    : option amount_visitor :=
  match fuel with
  | O => None
  | S fuel =>
    if (av_current_amount v =? 0) && (av_current_balance v =? 0) then Some v
    else if negb (av_current_amount v =? 0) then
      match block_get s (av_current_amount v) with
      | Some b => amount_loop fuel s block_hash (amount_visit b v)
      | None =>
        if block_hash =? genesis_account
        then amount_loop fuel s block_hash (AmountVisitor 0 (av_current_balance v) genesis_amount)
        else None
      end
    else
      prev ← balance_loop fuel s (BalanceVisitor (av_current_balance v) 0 0);
      let amount := av_amount v in
      let amount := if amount <? bv_balance prev then wrap 128 (bv_balance prev - amount)
                    else wrap 128 (amount - bv_balance prev) in
      amount_loop fuel s block_hash (AmountVisitor (av_current_amount v) 0 amount)
  end
with balance_loop (fuel : nat) (s : store) (v : balance_visitor) : option balance_visitor :=
  match fuel with
  | O => None
  | S fuel =>
    if (bv_current_balance v =? 0) && (bv_current_amount v =? 0) then Some v
    else if negb (bv_current_amount v =? 0) then
      source ← amount_loop fuel s (bv_current_amount v) (AmountVisitor (bv_current_amount v) 0 0);
      balance_loop fuel s
        (BalanceVisitor (bv_current_balance v) 0 (wrap 128 (bv_balance v + av_amount source)))
    else
      b ← block_get s (bv_current_balance v);
      balance_loop fuel s (balance_visit s b v)
  end.

(** [amount_visitor::compute], [balance_visitor::compute]. *)
Definition amount_compute (fuel : nat) (s : store) (h : Z) : option Z :=
  v ← amount_loop fuel s h (AmountVisitor h 0 0); Some (av_amount v).

Definition balance_compute (fuel : nat) (s : store) (h : Z) : option Z :=
  v ← balance_loop fuel s (BalanceVisitor h 0 0); Some (bv_balance v).

(** ** [representative_visitor]

    The visitor moves [current] down the chain or sets the result, and the loop
    ends once the result is not zero. *)
Record representative_visitor := RepresentativeVisitor {
  rv_current : Z;
  rv_result : Z
}.

Definition representative_visit (b : block) (v : representative_visitor)
    : representative_visitor :=
  match b with
  | Send _ => RepresentativeVisitor (previous b) (rv_result v)
  | Receive _ => RepresentativeVisitor (previous b) (rv_result v)
  | Open _ => RepresentativeVisitor (rv_current v) (hash b)
  | Change _ => RepresentativeVisitor (rv_current v) (hash b)
  | State _ => RepresentativeVisitor (rv_current v) (hash b)
  end.

Fixpoint representative_loop (fuel : nat) (s : store) (v : representative_visitor)
    : option representative_visitor :=
  match fuel with
  | O => None
  | S fuel =>
    if negb (rv_result v =? 0) then Some v
    else
      b ← block_get s (rv_current v);
      representative_loop fuel s (representative_visit b v)
  end.

(** [representative_visitor::compute]. *)
Definition representative_compute (fuel : nat) (s : store) (h : Z) : option Z :=
  v ← representative_loop fuel s (RepresentativeVisitor h 0); Some (rv_result v).
End visitors.

(** Two turns of a loop, or nestings, per block of a descending sequence of blocks: this
    is enough fuel (see [Balance]). *)
Definition visitor_fuel (s : store) : nat := (2 * blocks_total s + 4)%nat.
