(* ===== verification/Ledger.v ===== *)
(** * Ledger: [rai/ledger.cpp]

    Processing a block ([ledger_processor]), rolling blocks back
    ([rollback_visitor]) and the queries of [rai::ledger]. [None] is a failed
    assertion or a null pointer dereference. *)

From stdpp Require Import base list option tactics gmap.
From Stdlib Require Import ZArith Lia.
From S2P Require Import Prelude Blocks Common Stats Store Visitors.
#[local] Open Scope Z_scope.

(** The ledger: its store, the counters it updates, the number of clock readings so
    far and the bootstrap weights. *)
Record ledger := Ledger {
  l_store : store;
  l_stats : counters;
  l_clock : nat;
  l_bootstrap_weights : gmap Z Z;
  l_bootstrap_weight_max_blocks : Z;
  l_check_bootstrap_weights : bool
}.

Definition set_store (s : store) (l : ledger) : ledger :=
  Ledger s (l_stats l) (l_clock l) (l_bootstrap_weights l) (l_bootstrap_weight_max_blocks l)
    (l_check_bootstrap_weights l).
Definition set_stats (c : counters) (l : ledger) : ledger :=
  Ledger (l_store l) c (l_clock l) (l_bootstrap_weights l) (l_bootstrap_weight_max_blocks l)
    (l_check_bootstrap_weights l).
Definition tick (l : ledger) : ledger :=
  Ledger (l_store l) (l_stats l) (S (l_clock l)) (l_bootstrap_weights l)
    (l_bootstrap_weight_max_blocks l) (l_check_bootstrap_weights l).
Definition set_check_bootstrap_weights (c : bool) (l : ledger) : ledger :=
  Ledger (l_store l) (l_stats l) (l_clock l) (l_bootstrap_weights l)
    (l_bootstrap_weight_max_blocks l) c.

(** A store operation on the ledger's store: total, and one that can fail. *)
Definition upd (f : store -> store) (l : ledger) : ledger := set_store (f (l_store l)) l.
Definition try (f : store -> option store) (l : ledger) : option ledger :=
  s ← f (l_store l); Some (set_store s l).

(** [ledger.stats.inc]. *)
Definition inc (t : stat_type) (d : stat_detail) (l : ledger) : ledger :=
  set_stats (stat_inc t d dir_in (l_stats l)) l.

Section ledger.
Context `{Env}.

(** ** Queries *)

(** [ledger::balance]. *)
Definition balance (s : store) (h : Z) : option Z := balance_compute (visitor_fuel s) s h.

(** [ledger::amount]. *)
Definition amount (s : store) (h : Z) : option Z := amount_compute (visitor_fuel s) s h.

(** [ledger::representative_calculated], [ledger::representative]. *)
Definition representative_calculated (s : store) (h : Z) : option Z :=
  representative_compute (visitor_fuel s) s h.

Definition ledger_representative (s : store) (h : Z) : option Z :=
  result ← representative_calculated s h;
  _ ← assert ((result =? 0) || block_exists s result);
  Some result.

(** [ledger::account_balance]. *)
Definition account_balance (s : store) (a : Z) : Z :=
  match account_get s a with
  | Some info => ai_balance info
  | None => 0
  end.

(** [ledger::is_send]. *)
Definition is_send (s : store) (b : state_block) : option bool :=
  if negb (state_previous b =? 0) then
    bal ← balance s (state_previous b);
    Some (state_balance b <? bal)
  else Some false.

(** [ledger::block_destination]. *)
Definition block_destination (s : store) (b : block) : option Z :=
  match b with
  | Send b => Some (send_destination b)
  | State b => send ← is_send s b; Some (if (send : bool) then state_link b else 0)
  | _ => Some 0
  end.

(** [ledger::block_source]. *)
Definition block_source (s : store) (b : block) : option Z :=
  match b with
  | State sb => send ← is_send s sb; Some (if (send : bool) then source b else state_link sb)
  | _ => Some (source b)
  end.

(** [ledger::account]: the loop follows successors until it meets a state block, a
    block with block information, or the end of the chain. *)
Fixpoint account_loop (fuel : nat) (s : store) (h successor : Z) (b : block)
    : option (Z * Z * block) :=
  match fuel with
  | O => None
  | S fuel =>
    if negb (successor =? 0) && negb (bool_decide (block_type_of b = bt_state))
       && negb (block_info_exists s successor)
    then
      let successor := block_successor s h in
      if negb (successor =? 0) then
        b ← block_get s successor;
        account_loop fuel s successor successor b
      else account_loop fuel s h successor b
    else Some (h, successor, b)
  end.

Definition account (s : store) (h : Z) : option Z :=
  b ← block_get s h;
  '(h, successor, b) ← account_loop (S (S (blocks_total s))) s h 1 b;
  let result :=
    match b with
    | State sb => state_account sb
    | _ =>
      if successor =? 0 then frontier_get s h
      else match block_info_get s successor with Some i => bi_account i | None => 0 end
    end in
  _ ← assert (negb (result =? 0));
  Some result.

(** [ledger::latest], [ledger::latest_root]. *)
Definition latest (s : store) (a : Z) : Z :=
  match account_get s a with
  | Some info => ai_head info
  | None => 0
  end.

Definition latest_root (s : store) (a : Z) : Z :=
  match account_get s a with
  | Some info => ai_head info
  | None => a
  end.

(** [ledger::checksum]. *)
Definition checksum (s : store) : option Z :=
  r ← checksum_get 0 0 s; r.

(** [ledger::successor]. *)
Definition ledger_successor (s : store) (r : Z) : option (option block) :=
  succ ← (if account_exists s r then info ← account_get s r; Some (ai_open_block info)
          else Some (block_successor s r));
  if negb (succ =? 0) then
    b ← block_get s succ; Some (Some b)
  else Some None.

(** [ledger::forked_block]. *)
Definition forked_block (s : store) (b : block) : option block :=
  _ ← assert (negb (block_exists s (hash b)));
  _ ← assert (block_exists s (root b) || account_exists s (root b));
  match block_get s (block_successor s (root b)) with
  | Some r => Some r
  | None => info ← account_get s (root b); block_get s (ai_open_block info)
  end.

(** [ledger::weight]: bootstrap weights until enough blocks are known. *)
Definition weight (l : ledger) (a : Z) : Z * ledger :=
  if l_check_bootstrap_weights l then
    if block_counts_sum (block_count (l_store l)) <? l_bootstrap_weight_max_blocks l then
      match l_bootstrap_weights l !! a with
      | Some w => (w, l)
      | None => (representation_get (l_store l) a, l)
      end
    else (representation_get (l_store l) a, set_check_bootstrap_weights false l)
  else (representation_get (l_store l) a, l).

(** ** Head changes *)

(** [ledger::checksum_update]. *)
Definition checksum_update (h : Z) (s : store) : option store :=
  r ← checksum_get 0 0 s;
  value ← r;
  checksum_put 0 0 (Z.lxor value h) s.

(** [ledger::change_latest]. *)
Definition change_latest (a h rep bal count : Z) (is_state : bool) (l : ledger)
    : option ledger :=
  '(info, l) ←
    match account_get (l_store l) a with
    | Some info => l ← try (checksum_update (ai_head info)) l; Some (info, l)
    | None =>
      b ← block_get (l_store l) h;
      _ ← assert (previous b =? 0);
      Some (AccountInfo 0 0 h 0 0 0, l)
    end;
  if negb (h =? 0) then
    let info := AccountInfo h rep (ai_open_block info) bal (seconds_since_epoch (l_clock l)) count in
    let l := tick l in
    let l := upd (account_put a info) l in
    let l := if (count mod block_info_max =? 0) && negb is_state
             then upd (block_info_put h (BlockInfo a bal)) l else l in
    try (checksum_update h) l
  else try (account_del a) l.

(** ** [ledger_processor] *)

(** A block that is turned away: the ledger is left as it is. *)
Definition reject (c : process_result) : process_return := ProcessReturn c None None None None.

Definition process_change (b : change_block) (l : ledger) : option (ledger * process_return) :=
  let s := l_store l in
  let h := hash (Change b) in
  if block_exists s h then Some (l, reject old) else
  match block_get s (change_previous b) with
  | None => Some (l, reject gap_previous)
  | Some prev =>
  if negb (valid_predecessor (Change b) prev) then Some (l, reject block_position) else
  let account := frontier_get s (change_previous b) in
  if account =? 0 then Some (l, reject fork) else
  info ← account_get s account;
  _ ← assert (ai_head info =? change_previous b);
  if validate_message account h (change_signature b) then Some (l, reject bad_signature) else
  l ← try (on_tables (block_put h (Change b) 0)) l;
  bal ← balance (l_store l) (change_previous b);
  l ← try (representation_add h bal) l;
  l ← try (representation_add (ai_rep_block info) (wrap 128 (0 - bal))) l;
  l ← change_latest account h h (ai_balance info) (wrap 64 (ai_block_count info + 1)) false l;
  l ← try (frontier_del (change_previous b)) l;
  let l := upd (frontier_put h account) l in
  let l := inc st_ledger sd_change l in
  Some (l, ProcessReturn progress (Some account) (Some 0) None None)
  end.

Definition process_send (b : send_block) (l : ledger) : option (ledger * process_return) :=
  let s := l_store l in
  let h := hash (Send b) in
  if block_exists s h then Some (l, reject old) else
  match block_get s (send_previous b) with
  | None => Some (l, reject gap_previous)
  | Some prev =>
  if negb (valid_predecessor (Send b) prev) then Some (l, reject block_position) else
  let account := frontier_get s (send_previous b) in
  if account =? 0 then Some (l, reject fork) else
  if validate_message account h (send_signature b) then Some (l, reject bad_signature) else
  info ← account_get s account;
  _ ← assert (ai_head info =? send_previous b);
  if negb (send_balance b <=? ai_balance info) then Some (l, reject negative_spend) else
  let am := wrap 128 (ai_balance info - send_balance b) in
  l ← try (representation_add (ai_rep_block info) (wrap 128 (0 - am))) l;
  l ← try (on_tables (block_put h (Send b) 0)) l;
  l ← change_latest account h (ai_rep_block info) (send_balance b)
        (wrap 64 (ai_block_count info + 1)) false l;
  let l := upd (pending_put (PendingKey (send_destination b) h) (PendingInfo account am)) l in
  l ← try (frontier_del (send_previous b)) l;
  let l := upd (frontier_put h account) l in
  let l := inc st_ledger sd_send l in
  Some (l, ProcessReturn progress (Some account) (Some am) (Some (send_destination b)) None)
  end.

Definition process_receive (b : receive_block) (l : ledger) : option (ledger * process_return) :=
  let s := l_store l in
  let h := hash (Receive b) in
  if block_exists s h then Some (l, reject old) else
  match block_get s (receive_previous b) with
  | None => Some (l, reject gap_previous)
  | Some prev =>
  if negb (valid_predecessor (Receive b) prev) then Some (l, reject block_position) else
  if negb (block_exists s (receive_source b)) then Some (l, reject gap_source) else
  let account := frontier_get s (receive_previous b) in
  if account =? 0 then
    Some (l, reject (if block_exists s (receive_previous b) then fork else gap_previous))
  else
  if validate_message account h (receive_signature b) then Some (l, reject bad_signature) else
  let info := default account_info_default (account_get s account) in
  if negb (ai_head info =? receive_previous b) then Some (l, reject gap_previous) else
  let key := PendingKey account (receive_source b) in
  match pending_get s key with
  | None => Some (l, reject unreceivable)
  | Some pnd =>
  let new_balance := wrap 128 (ai_balance info + pi_amount pnd) in
  _ ← account_get s (pi_source pnd);
  l ← try (pending_del key) l;
  l ← try (on_tables (block_put h (Receive b) 0)) l;
  l ← change_latest account h (ai_rep_block info) new_balance
        (wrap 64 (ai_block_count info + 1)) false l;
  l ← try (representation_add (ai_rep_block info) (pi_amount pnd)) l;
  l ← try (frontier_del (receive_previous b)) l;
  let l := upd (frontier_put h account) l in
  let l := inc st_ledger sd_receive l in
  Some (l, ProcessReturn progress (Some account) (Some (pi_amount pnd)) None None)
  end end.

Definition process_open (b : open_block) (l : ledger) : option (ledger * process_return) :=
  let s := l_store l in
  let h := hash (Open b) in
  if block_exists s h then Some (l, reject old) else
  if negb (block_exists s (open_source b)) then Some (l, reject gap_source) else
  if validate_message (open_account b) h (open_signature b) then Some (l, reject bad_signature) else
  match account_get s (open_account b) with
  | Some _ => Some (l, reject fork)
  | None =>
  let info := account_info_default in
  let key := PendingKey (open_account b) (open_source b) in
  match pending_get s key with
  | None => Some (l, reject unreceivable)
  | Some pnd =>
  if open_account b =? burn_account then Some (l, reject opened_burn_account) else
  _ ← account_get s (pi_source pnd);
  l ← try (pending_del key) l;
  l ← try (on_tables (block_put h (Open b) 0)) l;
  l ← change_latest (open_account b) h h (pi_amount pnd)
        (wrap 64 (ai_block_count info + 1)) false l;
  l ← try (representation_add h (pi_amount pnd)) l;
  let l := upd (frontier_put h (open_account b)) l in
  let l := inc st_ledger sd_open l in
  Some (l, ProcessReturn progress (Some (open_account b)) (Some (pi_amount pnd)) None None)
  end end.

(** *** State blocks

    The position of the block in its account's chain: the code so far, whether it
    is a send, the amount, and the account information (default for a new
    account, which is counted as an open block). *)
Definition state_position (b : state_block) (l : ledger)
    : process_result * bool * Z * account_info * ledger :=
  let s := l_store l in
  let am := state_balance b in
  match account_get s (state_account b) with
  | Some info =>
    if state_previous b =? 0 then (fork, false, am, info, l) else
    if negb (block_exists s (state_previous b)) then (gap_previous, false, am, info, l) else
    let is_send := state_balance b <? ai_balance info in
    let am := if is_send then wrap 128 (ai_balance info - am) else wrap 128 (am - ai_balance info) in
    (if state_previous b =? ai_head info then progress else fork, is_send, am, info, l)
  | None =>
    if negb (previous (State b) =? 0) then (gap_previous, false, am, account_info_default, l) else
    let l := inc st_ledger sd_open l in
    (if negb (state_link b =? 0) then progress else gap_source, false, am, account_info_default, l)
  end.

(** What the link of a block that is not a send must satisfy. *)
Definition state_link_check (s : store) (b : state_block) (is_send : bool) (am : Z)
    : process_result :=
  if is_send then progress else
  if negb (state_link b =? 0) then
    if negb (block_exists s (state_link b)) then gap_source else
    match pending_get s (PendingKey (state_account b) (state_link b)) with
    | None => unreceivable
    | Some pnd => if am =? pi_amount pnd then progress else balance_mismatch
    end
  else if am =? 0 then progress else balance_mismatch.

(** The representation, pending and frontier updates of an accepted state block. *)
Definition state_weights (b : state_block) (info : account_info) (l : ledger) : option ledger :=
  l ← (if negb (ai_rep_block info =? 0)
       then try (representation_add (ai_rep_block info) (wrap 128 (0 - ai_balance info))) l
       else Some l);
  try (representation_add (hash (State b)) (state_balance b)) l.

Definition state_pending (b : state_block) (is_send : bool) (am : Z) (l : ledger) : option ledger :=
  if is_send then
    let l := upd (pending_put (PendingKey (state_link b) (hash (State b)))
                    (PendingInfo (state_account b) am)) l in
    Some (inc st_ledger sd_send l)
  else if negb (state_link b =? 0) then
    l ← try (pending_del (PendingKey (state_account b) (state_link b))) l;
    Some (inc st_ledger sd_receive l)
  else Some l.

Definition state_frontier (info : account_info) (l : ledger) : option ledger :=
  if negb (frontier_get (l_store l) (ai_head info) =? 0)
  then try (frontier_del (ai_head info)) l
  else Some l.

(** The updates for an accepted state block. *)
Definition state_apply (b : state_block) (is_send : bool) (am : Z) (info : account_info)
    (l : ledger) : option ledger :=
  let h := hash (State b) in
  let l := inc st_ledger sd_state_block l in
  l ← try (on_tables (block_put h (State b) 0)) l;
  l ← state_weights b info l;
  l ← state_pending b is_send am l;
  l ← change_latest (state_account b) h h (state_balance b)
        (wrap 64 (ai_block_count info + 1)) true l;
  state_frontier info l.

Definition process_state (b : state_block) (l : ledger) : option (ledger * process_return) :=
  let s := l_store l in
  let h := hash (State b) in
  if block_exists s h then Some (l, reject old) else
  if validate_message (state_account b) h (state_signature b) then Some (l, reject bad_signature) else
  if state_account b =? 0 then Some (l, reject opened_burn_account) else
  let '(code, is_send, am, info, l) := state_position b l in
  let code := if decide (code = progress) then state_link_check s b is_send am else code in
  if decide (code = progress) then
    l ← state_apply b is_send am info l;
    Some (l, ProcessReturn progress (Some (state_account b)) (Some am) None (Some is_send))
  else Some (l, ProcessReturn code None (Some am) None None).

(** [ledger::process]. *)
Definition process (b : block) (l : ledger) : option (ledger * process_return) :=
  match b with
  | Send b => process_send b l
  | Receive b => process_receive b l
  | Open b => process_open b l
  | Change b => process_change b l
  | State b => process_state b l
  end.
End ledger.
