(* ===== verification/Rollback.v ===== *)
(** * Rollback: [rollback_visitor] and [ledger::rollback] of [rai/ledger.cpp]

    Undoing the last block of an account, and undoing blocks until a given block is
    gone. A send that was received is undone after the blocks of the receiving
    account down to the receive, so the visitor and [ledger::rollback] call each
    other; [rb] is the recursive call. The loops and the recursion are bounded by the
    number of stored blocks. *)

From stdpp Require Import base list option tactics gmap.
From Stdlib Require Import ZArith Lia.
From S2P Require Import Prelude Blocks Common Stats Store Visitors Ledger.
#[local] Open Scope Z_scope.

Section rollback.
Context `{Env}.

Section visitor.
Context (rb : Z -> ledger -> option ledger).

(** Roll back the head of [destination] until [key] is pending. *)
Fixpoint until_pending (fuel : nat) (key : pending_key) (destination : Z) (l : ledger)
    : option (pending_info * ledger) :=
  match fuel with
  | O => None
  | S fuel =>
    match pending_get (l_store l) key with
    | Some p => Some (p, l)
    | None =>
      l ← rb (latest (l_store l) destination) l;
      until_pending fuel key destination l
    end
  end.

(** [if (!(info.block_count % block_info_max)) block_info_del (hash)]. *)
Definition drop_info (h : Z) (info : account_info) (l : ledger) : option ledger :=
  if ai_block_count info mod block_info_max =? 0 then try (block_info_del h) l else Some l.

(** [rollback_visitor::send_block], after the amount is pending again. *)
Definition undo_send (b : send_block) (pnd : pending_info) (l : ledger) : option ledger :=
  let h := hash (Send b) in
  info ← account_get (l_store l) (pi_source pnd);
  l ← try (pending_del (PendingKey (send_destination b) h)) l;
  rep ← ledger_representative (l_store l) h;
  l ← try (representation_add rep (pi_amount pnd)) l;
  bal ← balance (l_store l) (send_previous b);
  l ← change_latest (pi_source pnd) (send_previous b) (ai_rep_block info) bal
        (wrap 64 (ai_block_count info - 1)) false l;
  l ← try (on_tables (block_del h)) l;
  l ← try (frontier_del h) l;
  let l := upd (frontier_put (send_previous b) (pi_source pnd)) l in
  l ← try (on_tables (block_successor_clear (send_previous b))) l;
  l ← drop_info h info l;
  Some (inc st_rollback sd_send l).

Definition rollback_send (b : send_block) (l : ledger) : option ledger :=
  '(pnd, l) ← until_pending (S (blocks_total (l_store l)))
                (PendingKey (send_destination b) (hash (Send b))) (send_destination b) l;
  undo_send b pnd l.

Definition rollback_receive (b : receive_block) (l : ledger) : option ledger :=
  let h := hash (Receive b) in
  rep ← ledger_representative (l_store l) (receive_previous b);
  am ← amount (l_store l) (receive_source b);
  destination_account ← account (l_store l) h;
  source_account ← account (l_store l) (receive_source b);
  info ← account_get (l_store l) destination_account;
  rep_h ← ledger_representative (l_store l) h;
  l ← try (representation_add rep_h (wrap 128 (0 - am))) l;
  bal ← balance (l_store l) (receive_previous b);
  l ← change_latest destination_account (receive_previous b) rep bal
        (wrap 64 (ai_block_count info - 1)) false l;
  l ← try (on_tables (block_del h)) l;
  let l := upd (pending_put (PendingKey destination_account (receive_source b))
                  (PendingInfo source_account am)) l in
  l ← try (frontier_del h) l;
  let l := upd (frontier_put (receive_previous b) destination_account) l in
  l ← try (on_tables (block_successor_clear (receive_previous b))) l;
  l ← drop_info h info l;
  Some (inc st_rollback sd_receive l).

Definition rollback_open (b : open_block) (l : ledger) : option ledger :=
  let h := hash (Open b) in
  am ← amount (l_store l) (open_source b);
  destination_account ← account (l_store l) h;
  source_account ← account (l_store l) (open_source b);
  rep_h ← ledger_representative (l_store l) h;
  l ← try (representation_add rep_h (wrap 128 (0 - am))) l;
  l ← change_latest destination_account 0 0 0 0 false l;
  l ← try (on_tables (block_del h)) l;
  let l := upd (pending_put (PendingKey destination_account (open_source b))
                  (PendingInfo source_account am)) l in
  l ← try (frontier_del h) l;
  Some (inc st_rollback sd_open l).

Definition rollback_change (b : change_block) (l : ledger) : option ledger :=
  let h := hash (Change b) in
  rep ← ledger_representative (l_store l) (change_previous b);
  account ← account (l_store l) (change_previous b);
  info ← account_get (l_store l) account;
  bal ← balance (l_store l) (change_previous b);
  l ← try (representation_add rep bal) l;
  l ← try (representation_add h (wrap 128 (0 - bal))) l;
  l ← try (on_tables (block_del h)) l;
  l ← change_latest account (change_previous b) rep (ai_balance info)
        (wrap 64 (ai_block_count info - 1)) false l;
  l ← try (frontier_del h) l;
  let l := upd (frontier_put (change_previous b) account) l in
  l ← try (on_tables (block_successor_clear (change_previous b))) l;
  l ← drop_info h info l;
  Some (inc st_rollback sd_change l).

(** The weights, and the pending table, when a state block goes. *)
Definition rollback_state_weights (b : state_block) (rep bal : Z) (l : ledger) : option ledger :=
  l ← try (representation_add (hash (State b)) (wrap 128 (0 - state_balance b))) l;
  if negb (rep =? 0) then try (representation_add rep bal) l else Some l.

Definition rollback_state_pending (b : state_block) (bal : Z) (l : ledger) : option ledger :=
  if state_balance b <? bal then
    let key := PendingKey (state_link b) (hash (State b)) in
    '(_, l) ← until_pending (S (blocks_total (l_store l))) key (state_link b) l;
    l ← try (pending_del key) l;
    Some (inc st_rollback sd_send l)
  else if negb (state_link b =? 0) then
    source_account ← account (l_store l) (state_link b);
    let l := upd (pending_put (PendingKey (state_account b) (state_link b))
                    (PendingInfo source_account (wrap 128 (state_balance b - bal)))) l in
    Some (inc st_rollback sd_receive l)
  else Some l.

(** The predecessor becomes the last block of the chain. *)
Definition rollback_state_previous (b : state_block) (l : ledger) : option ledger :=
  match block_get (l_store l) (state_previous b) with
  | Some prev =>
    l ← try (on_tables (block_successor_clear (state_previous b))) l;
    Some (if block_type_code (block_type_of prev) <? block_type_code bt_state
          then upd (frontier_put (state_previous b) (state_account b)) l else l)
  | None => Some (inc st_rollback sd_open l)
  end.

Definition rollback_state_head (b : state_block) (rep bal : Z) (l : ledger) : option ledger :=
  info ← account_get (l_store l) (state_account b);
  l ← change_latest (state_account b) (state_previous b) rep bal
        (wrap 64 (ai_block_count info - 1)) false l;
  l ← rollback_state_previous b l;
  try (on_tables (block_del (hash (State b)))) l.

Definition rollback_state (b : state_block) (l : ledger) : option ledger :=
  rep ← (if negb (state_previous b =? 0) then ledger_representative (l_store l) (state_previous b)
         else Some 0);
  bal ← balance (l_store l) (state_previous b);
  l ← rollback_state_weights b rep bal l;
  l ← rollback_state_pending b bal l;
  rollback_state_head b rep bal l.

Definition rollback_visit (b : block) (l : ledger) : option ledger :=
  match b with
  | Send b => rollback_send b l
  | Receive b => rollback_receive b l
  | Open b => rollback_open b l
  | Change b => rollback_change b l
  | State b => rollback_state b l
  end.

(** [while (block_exists (h))]: undo the head of the account. *)
Fixpoint rollback_loop (fuel : nat) (h account_l : Z) (l : ledger) : option ledger :=
  match fuel with
  | O => None
  | S fuel =>
    if block_exists (l_store l) h then
      info ← account_get (l_store l) account_l;
      b ← block_get (l_store l) (ai_head info);
      l ← rollback_visit b l;
      rollback_loop fuel h account_l l
    else Some l
  end.
End visitor.

(** [ledger::rollback], with at most [fuel] nested calls. *)
Fixpoint rollback_nested (fuel : nat) (h : Z) (l : ledger) : option ledger :=
  match fuel with
  | O => None
  | S fuel =>
    _ ← assert (block_exists (l_store l) h);
    account_l ← account (l_store l) h;
    rollback_loop (rollback_nested fuel) (S (blocks_total (l_store l))) h account_l l
  end.

Definition rollback (h : Z) (l : ledger) : option ledger :=
  rollback_nested (S (blocks_total (l_store l))) h l.
End rollback.
