(* ===== verification/Chain.v ===== *)
(** * Chain: what a well-formed set of blocks is

    An account's blocks form a chain, and every block stands for facts the tables do
    not hold: the account it belongs to, the balance after it, its height, the block
    that names its representative, and a rank that puts it after the blocks it refers
    to. [chain_inv] relates the stored blocks to these facts, [extend] says that
    appending a block keeps the relation. *)

From stdpp Require Import base list option tactics gmap.
From Stdlib Require Import ZArith Lia.
From S2P Require Import Prelude Blocks Common Store Tables.
#[local] Open Scope Z_scope.

Record chain_info := ChainInfo {
  ci_account : Z;
  ci_balance : Z;
  ci_height : nat;
  ci_rep : Z;
  ci_rank : nat
}.

(** The blocks without their successors. *)
Definition contents (m : gmap Z stored) : gmap Z block := fst <$> m.

(** The blocks a run is about: what is submitted to the ledger. *)
Class Traffic := admitted : block -> Prop.

Section chain.
Context `{Env}.
Implicit Types (B : gmap Z block) (G : gmap Z chain_info) (M : gmap Z stored).

(** Digests that stand for something else: zero (no block), one (the first
    [successor] of [ledger::account]) and the genesis account (the source of the
    genesis block). *)
Definition hash_ok (h : Z) : Prop := h <> 0 /\ h <> 1 /\ h <> genesis_account.

(** What is assumed of the submitted blocks: their fields have the widths of their
    types, and the digest function has no collision among them. *)
Class TrafficLaws `{Traffic} : Prop := {
  admitted_wf b : admitted b -> wf_block b;
  admitted_hash b : admitted b -> hash_ok (hash b);
  admitted_inj b1 b2 : admitted b1 -> admitted b2 -> hash b1 = hash b2 -> hash_input b1 = hash_input b2
}.

(** [send_of B G h = Some (d, x)]: block [h] sends [x] to account [d]. *)
Definition send_of B G (h : Z) : option (Z * Z) :=
  match B !! h with
  | Some (Send b) =>
      p ← G !! send_previous b; Some (send_destination b, ci_balance p - send_balance b)
  | Some (State b) =>
      if state_previous b =? 0 then None else
      p ← G !! state_previous b;
      if state_balance b <? ci_balance p
      then Some (state_link b, ci_balance p - state_balance b) else None
  | _ => None
  end.

(** [source_of B G h = Some x]: block [h] receives the send [x]. *)
Definition source_of B G (h : Z) : option Z :=
  match B !! h with
  | Some (Receive b) => Some (receive_source b)
  | Some (Open b) => if open_source b =? genesis_account then None else Some (open_source b)
  | Some (State b) =>
      if state_link b =? 0 then None else
      if state_previous b =? 0 then Some (state_link b) else
      p ← G !! state_previous b;
      if state_balance b <? ci_balance p then None else Some (state_link b)
  | _ => None
  end.

(** [m] describes a block whose predecessor [prev] is described by [p]. *)
Definition follows G (prev : Z) (p m : chain_info) : Prop :=
  prev <> 0 /\ G !! prev = Some p /\ ci_account m = ci_account p
  /\ ci_height m = S (ci_height p) /\ (ci_rank p < ci_rank m)%nat.

Definition legacy B (h : Z) : Prop :=
  exists b, B !! h = Some b /\ legacy_predecessor (block_type_of b) = true.

(** [m] describes a block that receives [x] from the send [src]. *)
Definition receives B G (src x : Z) (m : chain_info) : Prop :=
  send_of B G src = Some (ci_account m, x)
  /\ exists q, G !! src = Some q /\ (ci_rank q < ci_rank m)%nat.

(** What the facts [m] say about the block [b] under digest [h]. *)
Definition block_ok B G (h : Z) (b : block) (m : chain_info) : Prop :=
  match b with
  | Send b => exists p, follows G (send_previous b) p m /\ legacy B (send_previous b)
      /\ ci_rep m = ci_rep p /\ ci_balance m = send_balance b
      /\ send_balance b <= ci_balance p
  | Receive b => exists p x, follows G (receive_previous b) p m /\ legacy B (receive_previous b)
      /\ ci_rep m = ci_rep p /\ receives B G (receive_source b) x m
      /\ ci_balance m = ci_balance p + x
  | Open b => ci_account m = open_account b /\ ci_height m = 1%nat /\ ci_rep m = h
      /\ (open_source b = genesis_account /\ open_account b = genesis_account
            /\ ci_balance m = genesis_amount
          \/ open_source b <> genesis_account /\ receives B G (open_source b) (ci_balance m) m)
  | Change b => exists p, follows G (change_previous b) p m /\ legacy B (change_previous b)
      /\ ci_rep m = h /\ ci_balance m = ci_balance p
  | State b => ci_account m = state_account b /\ ci_rep m = h /\ ci_balance m = state_balance b
      /\ (state_previous b = 0 /\ ci_height m = 1%nat /\ state_link b <> 0
            /\ receives B G (state_link b) (ci_balance m) m
          \/ exists p, follows G (state_previous b) p m
            /\ (state_balance b < ci_balance p
                \/ state_link b <> 0 /\ ci_balance p <= state_balance b
                   /\ receives B G (state_link b) (state_balance b - ci_balance p) m
                \/ state_link b = 0 /\ state_balance b = ci_balance p))
  end.

(** The block [h] names a representative. *)
Definition names_rep B (h : Z) : Prop :=
  exists b, B !! h = Some b
    /\ match b with Open _ | Change _ | State _ => True | _ => False end.

(** [b] refers to the block [x]: as its predecessor, source or link. *)
Definition refers (b : block) (x : Z) : Prop :=
  previous b = x \/ match b with
                    | Receive b => receive_source b = x
                    | Open b => open_source b = x
                    | State b => state_link b = x
                    | _ => False
                    end.

(** The block [k] is [h] or refers, through other blocks, to [h]. *)
Inductive depends B : Z -> Z -> Prop :=
| depends_refl h : depends B h h
| depends_step k b x h : B !! k = Some b -> refers b x -> depends B x h -> depends B k h.

Record chain_inv M G : Prop := {
  chain_dom h : is_Some (G !! h) <-> is_Some (M !! h);
  chain_hash h b succ : M !! h = Some (b, succ) -> hash b = h /\ hash_ok h;
  chain_facts h m : G !! h = Some m ->
    in_width 128 (ci_balance m) /\ ci_account m <> 0 /\ (0 < ci_height m)%nat
    /\ names_rep (contents M) (ci_rep m);
  chain_block h b succ m : M !! h = Some (b, succ) -> G !! h = Some m ->
    block_ok (contents M) G h b m;
  (** a block's predecessor points to it, and a successor points back *)
  chain_back h b succ : M !! h = Some (b, succ) -> previous b <> 0 ->
    exists pb, M !! previous b = Some (pb, h);
  chain_forth h b succ : M !! h = Some (b, succ) -> succ <> 0 ->
    exists sb ss, M !! succ = Some (sb, ss) /\ previous sb = h;
  (** a send is received at most once *)
  chain_once h1 h2 x :
    source_of (contents M) G h1 = Some x -> source_of (contents M) G h2 = Some x -> h1 = h2
}.

#[global] Arguments chain_dom {_ _} _ _.
#[global] Arguments chain_hash {_ _} _ _ _ _ _.
#[global] Arguments chain_facts {_ _} _ _ _ _.
#[global] Arguments chain_block {_ _} _ _ _ _ _ _ _.
#[global] Arguments chain_back {_ _} _ _ _ _ _ _.
#[global] Arguments chain_forth {_ _} _ _ _ _ _ _.
#[global] Arguments chain_once {_ _} _ _ _ _ _ _.

(** ** Growing maps *)

Lemma contents_lookup M h : contents M !! h = fst <$> M !! h.
Proof. apply lookup_fmap. Qed.

Lemma send_of_mono B G B' G' h r :
  B ⊆ B' -> G ⊆ G' -> send_of B G h = Some r -> send_of B' G' h = Some r.
Proof.
  intros HB HG. unfold send_of. destruct (B !! h) as [b|] eqn:Eb; [|done].
  rewrite (lookup_weaken _ _ _ _ Eb HB). destruct b as [b| | | |b]; try done.
  - intros (p & Hp & ?)%bind_Some. by rewrite (lookup_weaken _ _ _ _ Hp HG).
  - case_match; [done|]. intros (p & Hp & ?)%bind_Some. by rewrite (lookup_weaken _ _ _ _ Hp HG).
Qed.

Lemma receives_mono B G B' G' src x m :
  B ⊆ B' -> G ⊆ G' -> receives B G src x m -> receives B' G' src x m.
Proof.
  intros HB HG [Hs (q & Hq & Hr)]. split; [by eapply send_of_mono|].
  exists q. split; [by eapply lookup_weaken|done].
Qed.

Lemma follows_mono G G' prev p m : G ⊆ G' -> follows G prev p m -> follows G' prev p m.
Proof. intros HG (? & Hp & ?). split; [done|]. split; [by eapply lookup_weaken|done]. Qed.

Lemma legacy_mono B B' h : B ⊆ B' -> legacy B h -> legacy B' h.
Proof. intros HB (b & Hb & ?). exists b. split; [by eapply lookup_weaken|done]. Qed.

Lemma names_rep_mono B B' h : B ⊆ B' -> names_rep B h -> names_rep B' h.
Proof. intros HB (b & Hb & ?). exists b. split; [by eapply lookup_weaken|done]. Qed.

Lemma block_ok_mono B G B' G' h b m :
  B ⊆ B' -> G ⊆ G' -> block_ok B G h b m -> block_ok B' G' h b m.
Proof.
  intros HB HG. destruct b; cbn.
  - intros (p & ? & ? & ?). exists p. eauto using follows_mono, legacy_mono.
  - intros (p & x & ? & ? & ? & ? & ?). exists p, x.
    split_and!; eauto using follows_mono, legacy_mono, receives_mono.
  - intros (? & ? & ? & [?|[? ?]]); (split_and!; [done..|]); eauto using receives_mono.
  - intros (p & ? & ? & ?). exists p. eauto using follows_mono, legacy_mono.
  - intros (? & ? & ? & [(? & ? & ? & ?)|(p & ? & Hc)]); (split_and!; [done..|]).
    + left. eauto using receives_mono.
    + right. exists p. split; [by eapply follows_mono|].
      destruct Hc as [?|[(? & ? & ?)|?]]; eauto 6 using receives_mono.
Qed.

(** The facts about a stored block. *)
Lemma chain_lookup M G h b succ :
  chain_inv M G -> M !! h = Some (b, succ) ->
  exists m, G !! h = Some m /\ block_ok (contents M) G h b m.
Proof.
  intros HI Hb. destruct (proj2 (chain_dom HI h)) as [m Hm]; [by rewrite Hb|].
  exists m. split; [done|]. by eapply chain_block.
Qed.

Lemma contents_Some M h b : contents M !! h = Some b <-> exists succ, M !! h = Some (b, succ).
Proof.
  rewrite contents_lookup, fmap_Some. split.
  - intros ([] & -> & ->). eauto.
  - intros [succ ->]. by exists (b, succ).
Qed.

Lemma send_of_stable M G B' G' h b :
  chain_inv M G -> contents M !! h = Some b -> contents M ⊆ B' -> G ⊆ G' ->
  send_of B' G' h = send_of (contents M) G h.
Proof.
  intros HI Hb HB HG. pose proof Hb as [succ Hs]%contents_Some.
  destruct (chain_lookup _ _ _ _ _ HI Hs) as (m & Hm & Hok).
  unfold send_of. rewrite (lookup_weaken _ _ _ _ Hb HB), Hb.
  destruct b as [b| | | |b]; try done; cbn in Hok.
  - destruct Hok as (p & (_ & Hp & _) & _). by rewrite (lookup_weaken _ _ _ _ Hp HG), Hp.
  - destruct (Z.eqb_spec (state_previous b) 0); [done|].
    destruct Hok as (_ & _ & _ & [[? _]|(p & (_ & Hp & _) & _)]); [done|].
    by rewrite (lookup_weaken _ _ _ _ Hp HG), Hp.
Qed.

Lemma source_of_stable M G B' G' h b :
  chain_inv M G -> contents M !! h = Some b -> contents M ⊆ B' -> G ⊆ G' ->
  source_of B' G' h = source_of (contents M) G h.
Proof.
  intros HI Hb HB HG. pose proof Hb as [succ Hs]%contents_Some.
  destruct (chain_lookup _ _ _ _ _ HI Hs) as (m & Hm & Hok).
  unfold source_of. rewrite (lookup_weaken _ _ _ _ Hb HB), Hb.
  destruct b as [b| | | |b]; try done; cbn in Hok.
  destruct (Z.eqb_spec (state_link b) 0); [done|].
  destruct (Z.eqb_spec (state_previous b) 0); [done|].
  destruct Hok as (_ & _ & _ & [[? _]|(p & (_ & Hp & _) & _)]); [done|].
  by rewrite (lookup_weaken _ _ _ _ Hp HG), Hp.
Qed.

(** ** Sends and receives of one block *)

Lemma send_of_lookup B G h r : send_of B G h = Some r -> is_Some (B !! h).
Proof. unfold send_of. by destruct (B !! h). Qed.

Lemma source_of_lookup B G h x : source_of B G h = Some x -> is_Some (B !! h).
Proof. unfold source_of. by destruct (B !! h). Qed.

Lemma send_not_source B G h r : send_of B G h = Some r -> source_of B G h = None.
Proof.
  unfold send_of, source_of. destruct (B !! h) as [[]|]; try done.
  repeat case_match; try done; destruct (G !! _); cbn; try done; repeat case_match; done.
Qed.

(** What a block receives was sent to its account. *)
Lemma block_ok_source B B' G h b m x :
  block_ok B G h b m -> B' !! h = Some b -> source_of B' G h = Some x ->
  exists y, receives B G x y m.
Proof.
  intros Hok Hb. unfold source_of. rewrite Hb. destruct b as [|b|b| |b]; cbn in Hok; try done.
  - intros. simplify_eq. naive_solver.
  - case_match eqn:E; [done|]. intros. simplify_eq. rewrite Z.eqb_neq in E. naive_solver.
  - destruct (Z.eqb_spec (state_link b) 0); [done|].
    destruct (Z.eqb_spec (state_previous b) 0).
    + intros. simplify_eq. destruct Hok as (_ & _ & _ & [?|(p & [? _] & _)]); naive_solver.
    + destruct Hok as (_ & _ & _ & [[? _]|(p & (_ & -> & _) & Hc)]); [done|].
      cbn. destruct (Z.ltb_spec (state_balance b) (ci_balance p)); [done|].
      intros. simplify_eq. destruct Hc as [?|[?|?]]; [lia|naive_solver..].
Qed.

Lemma source_of_receives M G h x :
  chain_inv M G -> source_of (contents M) G h = Some x ->
  exists m y, G !! h = Some m /\ receives (contents M) G x y m.
Proof.
  intros HI Hs. destruct (source_of_lookup _ _ _ _ Hs) as [b Hb].
  pose proof Hb as [succ Hm]%contents_Some.
  destruct (chain_lookup _ _ _ _ _ HI Hm) as (m & HG & Hok).
  destruct (block_ok_source _ _ _ _ _ _ _ Hok Hb Hs) as [y ?]. eauto.
Qed.

(** The balance before a block. *)
Definition balance_before G (b : block) : Z :=
  match G !! previous b with Some p => ci_balance p | None => 0 end.

(** How a block changes the balance of its account. *)
Lemma block_ok_balance B B' G h b m :
  block_ok B G h b m -> B' !! h = Some b -> G !! 0 = None ->
  match b with Open b => open_source b <> genesis_account | _ => True end ->
  match send_of B' G h, source_of B' G h with
  | Some (d, x), _ => ci_balance m = balance_before G b - x
  | None, Some x => exists y, receives B G x y m /\ ci_balance m = balance_before G b + y
  | None, None => ci_balance m = balance_before G b
  end.
Proof.
  intros Hok Hb Hz Hg. unfold send_of, source_of, balance_before. rewrite Hb.
  destruct b as [sb|rb|ob|cb|sb]; cbn in Hok, Hg |- *.
  - destruct Hok as (p & (_ & -> & _) & _ & _ & -> & _). cbn. lia.
  - destruct Hok as (p & y & (_ & -> & _) & _ & _ & Hr & ->). eauto.
  - rewrite Hz. destruct Hok as (_ & _ & _ & [[? _]|[_ Hr]]); [done|].
    rewrite (proj2 (Z.eqb_neq _ _) Hg). eauto.
  - by destruct Hok as (p & (_ & -> & _) & _ & _ & ->).
  - destruct Hok as (_ & _ & Hbal & [(-> & _ & Hl & Hr)|(p & (Hne & -> & _) & Hc)]).
    + rewrite Hz, (proj2 (Z.eqb_neq _ _) Hl). cbn. eauto.
    + rewrite (proj2 (Z.eqb_neq _ _) Hne). cbn.
      destruct (Z.ltb_spec (state_balance sb) (ci_balance p)); [lia|].
      destruct Hc as [?|[(Hl & _ & Hr)|[Hl ?]]]; [lia| |rewrite Hl; cbn; lia].
      rewrite (proj2 (Z.eqb_neq _ _) Hl). eexists. split; [done|lia].
Qed.

Lemma block_ok_height B G h b m : block_ok B G h b m -> (0 < ci_height m)%nat.
Proof.
  destruct b; cbn; unfold follows; intros; destruct_and?; naive_solver lia.
Qed.

Lemma depends_trans B x y z : depends B x y -> depends B y z -> depends B x z.
Proof. induction 1; [done|]. intros. by eapply depends_step; eauto. Qed.

Lemma depends_mono B B' x y : B ⊆ B' -> depends B x y -> depends B' x y.
Proof.
  intros HB. induction 1 as [|k b x h Hk Hr _ IH]; [apply depends_refl|].
  by eapply depends_step; [eapply lookup_weaken| |].
Qed.

Lemma source_of_refers B G k b x : B !! k = Some b -> source_of B G k = Some x -> refers b x.
Proof.
  intros Hk Hs. right. unfold source_of in Hs. rewrite Hk in Hs. destruct b; try done.
  - congruence.
  - case_match; congruence.
  - repeat case_match; simplify_eq; try done. apply bind_Some in Hs as (p & _ & Hs). case_match; congruence.
Qed.

(** ** Appending a block *)

Lemma link_previous_contents b M : contents (link_previous b M) = contents M.
Proof.
  apply map_eq. intros k. rewrite !contents_lookup. unfold link_previous.
  case_match; [done|]. rewrite lookup_alter. case_decide; [|done].
  subst k. by destruct (M !! previous b).
Qed.

Lemma link_previous_lookup b M k :
  link_previous b M !! k =
  if decide (k = previous b /\ previous b <> 0) then (fun v => (v.1, hash b)) <$> M !! k
  else M !! k.
Proof.
  unfold link_previous. destruct (Z.eqb_spec (previous b) 0).
  - by rewrite decide_False by tauto.
  - rewrite lookup_alter. repeat case_decide; naive_solver.
Qed.

(** The block can be appended: it is new, and its predecessor, if it has one, is
    the last block of its chain. *)
Record appendable M (b : block) : Prop := {
  app_new : M !! hash b = None;
  app_hash : hash_ok (hash b);
  app_previous : previous b = 0 \/ exists pb, M !! previous b = Some (pb, 0)
}.

#[global] Arguments app_new {_ _} _.
#[global] Arguments app_hash {_ _} _.
#[global] Arguments app_previous {_ _} _.

Definition append (b : block) M : gmap Z stored :=
  link_previous b (<[hash b := (b, 0)]> M).

Lemma append_contents b M : contents (append b M) = <[hash b := b]> (contents M).
Proof. unfold append. rewrite link_previous_contents. apply fmap_insert. Qed.

Lemma append_lookup b M k :
  appendable M b ->
  append b M !! k =
  if decide (k = hash b) then Some (b, 0)
  else if decide (k = previous b /\ previous b <> 0) then (fun v => (v.1, hash b)) <$> M !! k
  else M !! k.
Proof.
  intros [Hnew Hok Hp]. unfold append. rewrite link_previous_lookup, lookup_insert.
  repeat case_decide; try naive_solver.
  destruct Hp as [|[pb Hp]]; [naive_solver|]. destruct_and!. subst. congruence.
Qed.

Lemma append_Some b M k kb ks :
  appendable M b -> append b M !! k = Some (kb, ks) ->
  k = hash b /\ kb = b /\ ks = 0
  \/ k <> hash b /\ k = previous b /\ previous b <> 0 /\ M !! k = Some (kb, 0) /\ ks = hash b
  \/ k <> hash b /\ ~ (k = previous b /\ previous b <> 0) /\ M !! k = Some (kb, ks).
Proof.
  intros Happ. rewrite append_lookup by done.
  repeat case_decide; intros Hk; [naive_solver| |naive_solver].
  destruct (app_previous Happ) as [|[pb Hp]]; destruct_and!; subst; [done|].
  rewrite Hp in Hk. cbn in Hk. naive_solver.
Qed.

Lemma append_old b M k kb ks :
  appendable M b -> M !! k = Some (kb, ks) ->
  exists ks', append b M !! k = Some (kb, ks')
    /\ ks' = if decide (k = previous b /\ previous b <> 0) then hash b else ks.
Proof.
  intros Happ Hk. rewrite append_lookup by done.
  rewrite decide_False by (intros ->; by rewrite (app_new Happ) in Hk).
  case_decide; rewrite Hk; eauto.
Qed.

Lemma block_ok_names_rep M G h b m :
  chain_inv M G -> block_ok (contents M) G h b m ->
  ci_rep m = h /\ match b with Open _ | Change _ | State _ => True | _ => False end
  \/ names_rep (contents M) (ci_rep m).
Proof.
  intros HI. destruct b; cbn; try naive_solver.
  - intros (p & (_ & Hp & _) & _ & -> & _). right. by apply (chain_facts HI _ _ Hp).
  - intros (p & x & (_ & Hp & _) & _ & -> & _). right. by apply (chain_facts HI _ _ Hp).
Qed.

Lemma extend_back M G b k kb ks :
  chain_inv M G -> appendable M b -> append b M !! k = Some (kb, ks) -> previous kb <> 0 ->
  exists pb, append b M !! previous kb = Some (pb, k).
Proof.
  intros HI Happ. pose proof Happ as [Hnew Hhash Hprev].
  intros [(-> & -> & _)|Hk]%append_Some Hp; [| |done].
  - destruct Hprev as [|[pb Hpb]]; [done|].
    destruct (append_old _ _ _ _ _ Happ Hpb) as (? & -> & ->). rewrite decide_True by done. eauto.
  - assert (k <> hash b /\ exists ks', M !! k = Some (kb, ks')) as [Hne [ks' Hk']] by naive_solver.
    destruct (chain_back HI _ _ _ Hk' Hp) as [pb Hpb].
    destruct (append_old _ _ _ _ _ Happ Hpb) as (? & -> & ->). case_decide as Hd; [|by eauto].
    destruct Hd as [Hd _]. rewrite Hd in *. destruct Hprev as [|[pb' Hpb']]; [done|].
    destruct (chain_hash HI _ _ _ Hk') as [_ [? _]]. congruence.
Qed.

Lemma extend_forth M G b k kb ks :
  chain_inv M G -> appendable M b -> append b M !! k = Some (kb, ks) -> ks <> 0 ->
  exists sb ss, append b M !! ks = Some (sb, ss) /\ previous sb = k.
Proof.
  intros HI Happ. pose proof Happ as [Hnew Hhash Hprev].
  intros Hk Hs.
  apply append_Some in Hk as [(_ & _ & ->)|[(Hne & -> & H0 & Hk & ->)|(Hne & Hd & Hk)]]; [done| | |done].
  - exists b, 0. rewrite append_lookup, decide_True by done. done.
  - destruct (chain_forth HI _ _ _ Hk Hs) as (sb & ss & Hsb & Hp).
    destruct (append_old _ _ _ _ _ Happ Hsb) as (? & ? & _). eauto.
Qed.

Lemma extend_once M G b m k1 k2 x :
  let C' := <[hash b := b]> (contents M) in let G' := <[hash b := m]> G in
  chain_inv M G -> contents M !! hash b = None -> G !! hash b = None ->
  (forall x k, source_of C' G' (hash b) = Some x -> source_of (contents M) G k <> Some x) ->
  source_of C' G' k1 = Some x -> source_of C' G' k2 = Some x -> k1 = k2.
Proof.
  intros C' G' HI HnewC HnewG Honce H1 H2.
  assert (contents M ⊆ C') as HB by by apply insert_subseteq. assert (G ⊆ G') as HG by by apply insert_subseteq.
  assert (Hst : forall k, k <> hash b ->
    source_of C' G' k = Some x ->
    source_of (contents M) G k = Some x).
  { intros k Hne Hk. destruct (contents M !! k) as [kb|] eqn:Ek.
    - by erewrite <- source_of_stable.
    - unfold source_of, C' in Hk. by rewrite lookup_insert_ne, Ek in Hk. }
  destruct (decide (k1 = hash b)) as [->|Hne1], (decide (k2 = hash b)) as [->|Hne2]; try done.
  - by destruct (Honce _ k2 H1); apply Hst.
  - by destruct (Honce _ k1 H2); apply Hst.
  - eapply (chain_once HI); by apply Hst.
Qed.

Lemma extend M G b m :
  chain_inv M G -> appendable M b ->
  block_ok (contents M) G (hash b) b m ->
  in_width 128 (ci_balance m) -> ci_account m <> 0 -> (0 < ci_height m)%nat ->
  (forall x k, source_of (<[hash b := b]> (contents M)) (<[hash b := m]> G) (hash b) = Some x ->
     source_of (contents M) G k <> Some x) ->
  chain_inv (append b M) (<[hash b := m]> G).
Proof.
  intros HI Happ Hok Hbal Hacc Hh Honce.
  pose proof (append_contents b M) as HC. pose proof Happ as [Hnew Hhash Hprev].
  assert (contents M !! hash b = None) as HnewC by (by rewrite contents_lookup, Hnew).
  assert (G !! hash b = None) as HnewG.
  { apply eq_None_not_Some. rewrite (chain_dom HI), Hnew. apply is_Some_None. }
  assert (contents M ⊆ <[hash b := b]> (contents M)) as HB by by apply insert_subseteq.
  assert (G ⊆ <[hash b := m]> G) as HG by by apply insert_subseteq.
  split.
  - intros k. rewrite append_lookup by done. rewrite lookup_insert.
    repeat case_decide; subst; try done; rewrite ?fmap_is_Some; apply (chain_dom HI).
  - intros k kb ks [(-> & -> & _)|[(_ & _ & _ & Hk & _)|(_ & _ & Hk)]]%append_Some; [done| | |done];
      by eapply chain_hash.
  - intros k km [[<- <-]|[Hne Hk]]%lookup_insert_Some; rewrite HC.
    + split_and!; [done..|].
      destruct (block_ok_names_rep _ _ _ _ _ HI Hok) as [[-> Hb]|Hr]; [|by eapply names_rep_mono].
      exists b. by rewrite lookup_insert_eq.
    + destruct (chain_facts HI _ _ Hk) as (? & ? & ? & ?). split_and!; [done..|].
      by eapply names_rep_mono.
  - intros k kb ks km Hk Hm. rewrite HC.
    apply append_Some in Hk as [(-> & -> & _)|Hk]; [| |done].
    + rewrite lookup_insert_eq in Hm. simplify_eq. by eapply block_ok_mono.
    + assert (k <> hash b /\ exists ks', M !! k = Some (kb, ks')) as [Hne [ks' Hk']] by naive_solver.
      rewrite lookup_insert_ne in Hm by done. eapply block_ok_mono; [done..|].
      by eapply chain_block.
  - intros k kb ks. by apply (extend_back M G b k kb ks).
  - intros k kb ks. by apply (extend_forth M G b k kb ks).
  - rewrite HC. intros k1 k2 x. by apply extend_once.
Qed.
End chain.
