(* ===== verification/Balance.v ===== *)
(** * Balance: the visitors compute the facts of the chain

    In a well-formed store the loops of [amount_visitor], [balance_visitor] and
    [representative_visitor] end, with the fuel [visitor_fuel] gives them, and return
    the balance, the amount and the representative block of the chain. *)

From stdpp Require Import base list option tactics gmap.
From Stdlib Require Import ZArith Lia.
From S2P Require Import Prelude Blocks Common Store Tables Visitors Ledger Chain.
#[local] Open Scope Z_scope.

Section balance.
Context `{Env} (s : store) (G : gmap Z chain_info).
Context (Hok : tables_ok s) (HI : chain_inv (blocks s) G).
Context (Hinfo : forall h i m, blocks_info s !! h = Some i -> G !! h = Some m ->
                   bi_balance i = ci_balance m).

Local Abbreviation C := (contents (blocks s)).

(** How many blocks are ranked below: the measure of the loops. *)
Definition rk (m : chain_info) : nat :=
  size (filter (fun kv : Z * chain_info => (ci_rank kv.2 < ci_rank m)%nat) G).

Lemma rk_subset h p (m1 m2 : gmap Z chain_info) :
  m1 ⊆ m2 -> m2 !! h = Some p -> m1 !! h = None -> (size m1 < size m2)%nat.
Proof.
  intros Hsub H2 H1. rewrite <- !size_dom. apply subset_size. split.
  - by apply subseteq_dom.
  - intros Hin. assert (h ∈ dom m1) as Hd by (apply Hin, elem_of_dom; eauto).
    apply elem_of_dom in Hd as [? ?]. congruence.
Qed.

Lemma rk_lt h p m : G !! h = Some p -> (ci_rank p < ci_rank m)%nat -> (rk p < rk m)%nat.
Proof.
  intros Hp Hlt. apply (rk_subset h p).
  - apply map_subseteq_spec. intros k v [Hk Hv]%map_lookup_filter_Some.
    apply map_lookup_filter_Some. cbn in *. split; [done|lia].
  - by apply map_lookup_filter_Some.
  - apply map_lookup_filter_None. right. intros v Hv. simplify_eq. cbn. lia.
Qed.

Lemma rk_total h m : G !! h = Some m -> (rk m < blocks_total s)%nat.
Proof.
  intros Hm. eapply Nat.lt_le_trans; [|apply blocks_total_size].
  assert (size G = size (blocks s)) as <-.
  { rewrite <- !size_dom. f_equal. apply set_eq. intros k. rewrite !elem_of_dom.
    apply (chain_dom HI). }
  apply (rk_subset h m); [apply map_filter_subseteq|done|].
  apply map_lookup_filter_None. right. intros v Hv. simplify_eq. cbn. lia.
Qed.

Lemma block_get_contents h : block_get s h = C !! h.
Proof. by rewrite block_get_blocks, contents_lookup by done. Qed.

Lemma genesis_not_stored : block_get s genesis_account = None.
Proof.
  rewrite block_get_contents. destruct (C !! genesis_account) as [b|] eqn:E; [|done].
  apply contents_Some in E as [succ E]. destruct (chain_hash HI _ _ _ E) as [_ (_ & _ & ?)]. done.
Qed.

Lemma zero_not_stored : C !! 0 = None.
Proof.
  destruct (C !! 0) as [b|] eqn:E; [|done].
  apply contents_Some in E as [succ E]. destruct (chain_hash HI _ _ _ E) as [_ (? & _)]. done.
Qed.

(** The facts about a block of the chain. *)
Lemma facts_lookup h m :
  G !! h = Some m ->
  exists b, C !! h = Some b /\ hash b = h /\ h <> 0 /\ block_ok C G h b m
    /\ in_width 128 (ci_balance m).
Proof.
  intros Hm. destruct (proj1 (chain_dom HI h)) as [[b succ] Hb]; [by rewrite Hm|].
  exists b. destruct (chain_hash HI _ _ _ Hb) as [? [? _]].
  split_and!; try done.
  - apply contents_Some. eauto.
  - by eapply chain_block.
  - by eapply chain_facts.
Qed.

(** One turn of each loop. *)
Lemma balance_loop_done fuel acc :
  (1 <= fuel)%nat -> balance_loop fuel s (BalanceVisitor 0 0 acc) = Some (BalanceVisitor 0 0 acc).
Proof. destruct fuel; [lia|done]. Qed.

Lemma amount_loop_done fuel h0 x :
  (1 <= fuel)%nat -> amount_loop fuel s h0 (AmountVisitor 0 0 x) = Some (AmountVisitor 0 0 x).
Proof. destruct fuel; [lia|done]. Qed.

Lemma balance_loop_visit fuel h b acc :
  h <> 0 -> C !! h = Some b ->
  balance_loop (S fuel) s (BalanceVisitor h 0 acc)
  = balance_loop fuel s (balance_visit s b (BalanceVisitor h 0 acc)).
Proof.
  intros H0%Z.eqb_neq Hb. cbn [balance_loop bv_current_balance bv_current_amount].
  rewrite H0, block_get_contents, Hb. done.
Qed.

Lemma amount_loop_visit fuel h0 h b cb x :
  h <> 0 -> C !! h = Some b ->
  amount_loop (S fuel) s h0 (AmountVisitor h cb x)
  = amount_loop fuel s h0 (amount_visit b (AmountVisitor h cb x)).
Proof.
  intros H0%Z.eqb_neq Hb. cbn [amount_loop av_current_balance av_current_amount].
  rewrite H0, block_get_contents, Hb. done.
Qed.

Lemma balance_loop_amount fuel cb src acc v :
  src <> 0 -> amount_loop fuel s src (AmountVisitor src 0 0) = Some v ->
  balance_loop (S fuel) s (BalanceVisitor cb src acc)
  = balance_loop fuel s (BalanceVisitor cb 0 (wrap 128 (acc + av_amount v))).
Proof.
  intros H0%Z.eqb_neq Hv. cbn [balance_loop bv_current_balance bv_current_amount bv_balance].
  rewrite H0, andb_false_r. cbn [negb]. by rewrite Hv.
Qed.

Lemma amount_loop_balance fuel h0 cb x v :
  cb <> 0 -> balance_loop fuel s (BalanceVisitor cb 0 0) = Some v ->
  amount_loop (S fuel) s h0 (AmountVisitor 0 cb x)
  = amount_loop fuel s h0 (AmountVisitor 0 0
      (if x <? bv_balance v then wrap 128 (bv_balance v - x) else wrap 128 (x - bv_balance v))).
Proof.
  intros H0%Z.eqb_neq Hv. cbn [amount_loop av_current_balance av_current_amount av_amount].
  rewrite H0. cbn [negb andb Z.eqb]. by rewrite Hv.
Qed.

(** The genesis block's source is the genesis account, which is not a block. *)
Lemma amount_loop_genesis fuel :
  genesis_account <> 0 -> (2 <= fuel)%nat ->
  amount_loop fuel s genesis_account (AmountVisitor genesis_account 0 0)
  = Some (AmountVisitor 0 0 genesis_amount).
Proof.
  intros H0%Z.eqb_neq Hf. destruct fuel as [|fuel]; [lia|].
  cbn [amount_loop av_current_balance av_current_amount]. rewrite H0, genesis_not_stored.
  cbn [negb andb]. rewrite Z.eqb_refl. by apply amount_loop_done; lia.
Qed.

#[local] Arguments amount_loop : simpl never.
#[local] Arguments balance_loop : simpl never.

(** The balance at [h], on top of an accumulator; a state block discards the
    accumulator, but the loop meets one only when nothing was accumulated. *)
Definition balance_at (n : nat) : Prop :=
  forall h m acc fuel, G !! h = Some m -> (rk m < n)%nat -> 0 <= acc ->
    acc + ci_balance m < 2 ^ 128 -> acc = 0 \/ legacy C h -> (2 * rk m + 4 <= fuel)%nat ->
    balance_loop fuel s (BalanceVisitor h 0 acc) = Some (BalanceVisitor 0 0 (acc + ci_balance m)).

Definition amount_at (n : nat) : Prop :=
  forall h m d x x0 h0 fuel, G !! h = Some m -> (rk m < n)%nat ->
    send_of C G h = Some (d, x) -> (2 * rk m + 4 <= fuel)%nat ->
    amount_loop fuel s h0 (AmountVisitor h 0 x0) = Some (AmountVisitor 0 0 x).

Lemma send_of_range h d x : send_of C G h = Some (d, x) -> 0 <= x < 2 ^ 128.
Proof.
  intros Hs. unfold send_of in Hs. destruct (C !! h) as [b|] eqn:Eb; [|done].
  apply contents_Some in Eb as [succ Eb].
  destruct (chain_lookup _ _ _ _ _ HI Eb) as (m & Hm & Hb).
  destruct (chain_facts HI _ _ Hm) as ([? ?] & _).
  destruct b as [b| | | |b]; try done; cbn in Hb.
  - destruct Hb as (p & (_ & Hp & _) & _ & _ & Hbal & Hle). rewrite Hp in Hs. cbn in Hs.
    destruct (chain_facts HI _ _ Hp) as ([? ?] & _). simplify_eq. lia.
  - destruct (Z.eqb_spec (state_previous b) 0); [done|].
    apply bind_Some in Hs as (p & Hp & Hs).
    destruct (chain_facts HI _ _ Hp) as ([? ?] & _).
    destruct (Z.ltb_spec (state_balance b) (ci_balance p)); simplify_eq.
    destruct Hb as (_ & _ & Hbal & _). lia.
Qed.

Lemma legacy_not_state h b : legacy C h -> C !! h = Some (State b) -> False.
Proof. intros (b' & Hb' & Hl) Hb. by simplify_eq. Qed.

Lemma amount_step n : balance_at n -> amount_at (S n).
Proof.
  intros IH h m d x x0 h0 fuel Hm Hr Hs Hf.
  destruct (facts_lookup _ _ Hm) as (b & Hb & Hh & H0 & Hbok & Hw).
  pose proof (send_of_range _ _ _ Hs) as Hx. unfold send_of in Hs. rewrite Hb in Hs.
  destruct fuel as [|[|fuel]]; [lia..|]. rewrite amount_loop_visit with (b := b) by done.
  assert (Hprev : forall pv p, follows G pv p m ->
    balance_loop fuel s (BalanceVisitor pv 0 0) = Some (BalanceVisitor 0 0 (ci_balance p))).
  { intros pv p (? & Hp & _ & _ & Hlt). pose proof (rk_lt _ _ _ Hp Hlt).
    destruct (facts_lookup _ _ Hp) as (_ & _ & _ & _ & _ & [? ?]).
    rewrite (IH pv p 0 fuel) by (done || lia || auto). done. }
  destruct b as [b| | | |b]; try done; cbn in Hbok |- *.
  - destruct Hbok as (p & Hfol & _ & _ & Hbal & Hle). pose proof Hfol as (Hne & Hp & _).
    rewrite Hp in Hs. cbn in Hs. simplify_eq.
    unfold amount_visit_send. erewrite amount_loop_balance; [|done|by apply Hprev]. cbn.
    rewrite amount_loop_done by lia. do 2 f_equal.
    destruct (facts_lookup _ _ Hp) as (_ & _ & _ & _ & _ & [? ?]).
    destruct (Z.ltb_spec (send_balance b) (ci_balance p));
      rewrite wrap_small by (unfold in_width; lia); lia.
  - destruct (Z.eqb_spec (state_previous b) 0); [done|].
    apply bind_Some in Hs as (p & Hp & Hs).
    destruct Hbok as (_ & _ & Hbal & [[? _]|(p' & Hfol & _)]); [done|].
    pose proof Hfol as (Hne & Hp' & _). simplify_eq.
    destruct (Z.ltb_spec (state_balance b) (ci_balance p)); simplify_eq.
    unfold amount_visit_state. erewrite amount_loop_balance; [|done|by apply Hprev]. cbn.
    rewrite amount_loop_done by lia. do 2 f_equal.
    destruct (Z.ltb_spec (state_balance b) (ci_balance p)); [|lia]. by apply wrap_small.
Qed.

Lemma balance_step n : balance_at n -> amount_at n -> balance_at (S n).
Proof.
  intros IHb IHa h m acc fuel Hm Hr Hacc Hlt Hleg Hf.
  destruct (facts_lookup _ _ Hm) as (b & Hb & Hh & H0 & Hbok & Hw).
  destruct fuel as [|[|fuel]]; [lia..|]. rewrite balance_loop_visit with (b := b) by done.
  assert (Hwrap : wrap 128 (acc + ci_balance m) = acc + ci_balance m).
  { apply wrap_small. destruct Hw. unfold in_width. lia. }
  assert (Hprev : forall pv p acc' f, follows G pv p m -> 0 <= acc' ->
    acc' + ci_balance p = acc + ci_balance m -> acc' = 0 \/ legacy C pv -> (S fuel <= f + 1)%nat ->
    balance_loop f s (BalanceVisitor pv 0 acc') = Some (BalanceVisitor 0 0 (acc + ci_balance m))).
  { intros pv p acc' f (_ & Hp & _ & _ & Hrk) Ha' Heq Hl Hff. rewrite <- Heq.
    pose proof (rk_lt _ _ _ Hp Hrk). apply IHb; (done || lia). }
  assert (Hrecv : forall src x cb, src <> 0 -> receives C G src x m ->
    balance_loop (S fuel) s (BalanceVisitor cb src acc)
    = balance_loop fuel s (BalanceVisitor cb 0 (wrap 128 (acc + x)))).
  { intros src x cb Hs0 (Hs & q & Hq & Hrk). pose proof (rk_lt _ _ _ Hq Hrk).
    by erewrite balance_loop_amount; [|done|eapply (IHa src q); (done || lia)]. }
  assert (Hsrc : forall src x, receives C G src x m -> src <> 0).
  { intros src x [_ (q & Hq & _)] ->. destruct (facts_lookup _ _ Hq) as (? & ? & ? & ? & _). done. }
  destruct b as [b|b|b|b|b]; cbn [balance_visit block_ok] in *.
  - unfold balance_visit_send. cbn. destruct Hbok as (p & _ & _ & _ & <- & _).
    rewrite Hwrap. apply balance_loop_done; lia.
  - destruct Hbok as (p & x & Hfol & Hpl & _ & Hrec & Hbal). unfold balance_visit_receive.
    unfold block_info_get. rewrite Hh. destruct (blocks_info s !! h) as [i|] eqn:Ei.
    + cbn. rewrite (Hinfo _ _ _ Ei Hm), Hwrap. apply balance_loop_done; lia.
    + pose proof Hrec as [Hx%send_of_range _].
      destruct Hfol as (? & Hp & Hrest). destruct (facts_lookup _ _ Hp) as (_ & _ & _ & _ & _ & [? ?]).
      rewrite (Hrecv _ x) by eauto. rewrite wrap_small by (unfold in_width; lia).
      apply (Hprev _ p); (done || lia || auto).
  - destruct Hbok as (Ha & _ & _ & Hc). unfold balance_visit_open. cbn.
    destruct (chain_facts HI _ _ Hm) as (_ & Ha0 & _).
    destruct Hc as [(Hg & Hga & Hbal)|[_ Hrec]].
    + rewrite Hg. erewrite balance_loop_amount; [|congruence|apply amount_loop_genesis; [congruence|lia]].
      cbn. rewrite <- Hbal, Hwrap. by apply balance_loop_done; lia.
    + rewrite (Hrecv _ (ci_balance m)) by eauto. rewrite Hwrap. apply balance_loop_done; lia.
  - destruct Hbok as (p & Hfol & Hpl & _ & Hbal). unfold balance_visit_change.
    unfold block_info_get. rewrite Hh. destruct (blocks_info s !! h) as [i|] eqn:Ei.
    + cbn. rewrite (Hinfo _ _ _ Ei Hm), Hwrap. apply balance_loop_done; lia.
    + cbn. apply (Hprev _ p); (done || lia || auto).
  - destruct Hleg as [->|Hl]; [|by destruct (legacy_not_state _ _ Hl Hb)].
    destruct Hbok as (_ & _ & Hbal & _). unfold balance_visit_state. cbn.
    rewrite <- Hbal, Z.add_0_l. apply balance_loop_done; lia.
Qed.

Lemma visitors_at n : balance_at n /\ amount_at n.
Proof.
  induction n as [|n [IHb IHa]]; [split; repeat intro; lia|].
  split; [by apply balance_step|by apply amount_step].
Qed.

Lemma balance_facts h m : G !! h = Some m -> balance s h = Some (ci_balance m).
Proof.
  intros Hm. unfold balance, balance_compute, visitor_fuel. pose proof (rk_total _ _ Hm).
  destruct (facts_lookup _ _ Hm) as (_ & _ & _ & _ & _ & [? ?]).
  rewrite (proj1 (visitors_at (S (rk m))) h m 0) by (done || lia || auto). done.
Qed.

Lemma balance_zero : balance s 0 = Some 0.
Proof.
  unfold balance, balance_compute. rewrite balance_loop_done by (unfold visitor_fuel; lia). done.
Qed.

Lemma amount_send_of h d x : send_of C G h = Some (d, x) -> amount s h = Some x.
Proof.
  intros Hs. assert (exists b, C !! h = Some b) as [b [succ Hb]%contents_Some].
  { unfold send_of in Hs. destruct (C !! h); [eauto|done]. }
  destruct (chain_lookup _ _ _ _ _ HI Hb) as (m & Hm & _). pose proof (rk_total _ _ Hm).
  unfold amount, amount_compute, visitor_fuel.
  rewrite (proj2 (visitors_at (S (rk m))) h m d x) by (done || lia). done.
Qed.

(** ** Representatives *)

Lemma representative_at n h m fuel :
  G !! h = Some m -> (rk m < n)%nat -> (rk m + 2 <= fuel)%nat ->
  exists cur, representative_loop fuel s (RepresentativeVisitor h 0)
    = Some (RepresentativeVisitor cur (ci_rep m)).
Proof.
  revert h m fuel. induction n as [|n IH]; intros h m fuel Hm Hr Hf; [lia|].
  destruct (facts_lookup _ _ Hm) as (b & Hb & Hh & H0 & Hbok & _).
  destruct fuel as [|[|fuel]]; [lia..|].
  cbn [representative_loop rv_result rv_current]. rewrite block_get_contents, Hb. cbn [mbind option_bind].
  assert (Hprev : forall pv p, follows G pv p m -> ci_rep m = ci_rep p ->
    exists cur, representative_loop (S fuel) s (RepresentativeVisitor pv 0)
      = Some (RepresentativeVisitor cur (ci_rep m))).
  { intros pv p (_ & Hp & _ & _ & Hrk) ->. pose proof (rk_lt _ _ _ Hp Hrk).
    apply (IH _ _ _ Hp); lia. }
  assert (Hself : ci_rep m = h -> representative_loop (S fuel) s (RepresentativeVisitor h (hash b))
      = Some (RepresentativeVisitor h (ci_rep m))).
  { intros ->. rewrite Hh. cbn. by rewrite (proj2 (Z.eqb_neq _ _) H0). }
  destruct b; cbn [block_ok representative_visit] in *; naive_solver.
Qed.

Lemma representative_facts h m : G !! h = Some m -> ledger_representative s h = Some (ci_rep m).
Proof.
  intros Hm. unfold ledger_representative, representative_calculated, representative_compute, visitor_fuel.
  pose proof (rk_total _ _ Hm).
  destruct (representative_at (S (rk m)) h m (2 * blocks_total s + 4)) as [cur ->]; [done|lia..|].
  cbn. destruct (chain_facts HI _ _ Hm) as (_ & _ & _ & (rb & [rs Hrb]%contents_Some & _)).
  rewrite block_exists_blocks, Hrb. by rewrite orb_true_r.
Qed.
End balance.
