(* ===== verification/LedgerInv.v ===== *)
(** * LedgerInv: the ledger's invariant

    The tables of the store agree with one another and with the chains of blocks:
    account heads are the ends of the chains, frontiers are the heads that are not
    state blocks, every send is pending or received, the balances and pending amounts
    add up to the genesis amount, the representation weights are the sums of the
    balances that name a representative, and the checksum is the exclusive or of the
    heads. [apply_inv] says that appending a valid block with the matching table
    updates keeps all of it. *)

From stdpp Require Import base list option tactics gmap.
From Stdlib Require Import ZArith Lia.
From S2P Require Import Prelude Blocks Common Store Tables Visitors Ledger Chain Balance.
#[local] Open Scope Z_scope.

Section ledger_inv.
Context `{E0 : Env} `{T0 : Traffic}.
Implicit Types (K : Z) (D : Z -> Z) (G : gmap Z chain_info) (s : store).

(** The total of balances and pending amounts. *)
Definition supply s : Z :=
  map_sum (fun _ i => ai_balance i) (accounts s) + map_sum (fun _ p => pi_amount p) (pending s).

(** The representative a block names. *)
Definition rep_of (B : gmap Z block) (h : Z) : Z :=
  match B !! h with Some b => representative b | None => 0 end.

(** The sum of the balances of the accounts represented by [r]. *)
Definition weight_of s (r : Z) : Z :=
  map_sum (fun _ i => if rep_of (contents (blocks s)) (ai_rep_block i) =? r then ai_balance i else 0)
    (accounts s).

Definition is_legacy (b : block) : bool := legacy_predecessor (block_type_of b).

(** [i] describes the account whose chain ends with the facts [m]. *)
Definition head_ok (a : Z) (i : account_info) (m : chain_info) : Prop :=
  ci_account m = a /\ ai_balance i = ci_balance m /\ ai_rep_block i = ci_rep m
  /\ ai_block_count i = wrap 64 (Z.of_nat (ci_height m)).

(** [K] is the checksum of an account table without entries, [D r] an amount by which
    the weight of [r] differs from its sum; both are zero for a ledger that was
    created and only used through [process] and [rollback]. *)
Record ledger_inv (K : Z) (D : Z -> Z) G s : Prop := {
  li_tables : tables_ok s;
  li_chain : chain_inv (blocks s) G;
  li_head a i : accounts s !! a = Some i ->
    exists b m, blocks s !! ai_head i = Some (b, 0) /\ G !! ai_head i = Some m /\ head_ok a i m;
  li_owner h m : G !! h = Some m -> is_Some (accounts s !! ci_account m);
  li_tip h b m : blocks s !! h = Some (b, 0) -> G !! h = Some m ->
    exists i, accounts s !! ci_account m = Some i /\ ai_head i = h;
  li_open h b succ m i : blocks s !! h = Some (b, succ) -> G !! h = Some m -> previous b = 0 ->
    accounts s !! ci_account m = Some i -> ai_open_block i = h;
  li_opened a i : accounts s !! a = Some i ->
    exists b succ m, blocks s !! ai_open_block i = Some (b, succ)
      /\ G !! ai_open_block i = Some m /\ ci_account m = a /\ previous b = 0;
  li_frontiers h a : frontiers s !! h = Some a <->
    exists i, accounts s !! a = Some i /\ ai_head i = h /\ legacy (contents (blocks s)) h;
  li_pending k p : pending s !! k = Some p ->
    send_of (contents (blocks s)) G (pk_hash k) = Some (pk_account k, pi_amount p)
    /\ exists m, G !! pk_hash k = Some m /\ ci_account m = pi_source p;
  li_unreceived k p h : pending s !! k = Some p ->
    source_of (contents (blocks s)) G h <> Some (pk_hash k);
  li_settled h d x : send_of (contents (blocks s)) G h = Some (d, x) ->
    is_Some (pending s !! PendingKey d h)
    \/ exists r, source_of (contents (blocks s)) G r = Some h;
  li_supply : supply s = genesis_amount;
  li_weights r : representation_get s r = wrap 128 (weight_of s r + D r);
  li_info h i m : blocks_info s !! h = Some i -> G !! h = Some m ->
    bi_account i = ci_account m /\ bi_balance i = ci_balance m;
  li_info_kept h b succ m : blocks s !! h = Some (b, succ) -> is_legacy b = true ->
    G !! h = Some m -> Z.of_nat (ci_height m) mod block_info_max = 0 -> is_Some (blocks_info s !! h);
  li_info_height h i b succ m : blocks_info s !! h = Some i -> blocks s !! h = Some (b, succ) ->
    is_legacy b = true -> G !! h = Some m -> Z.of_nat (ci_height m) mod block_info_max = 0;
  li_info_gone h i : blocks_info s !! h = Some i -> G !! h = None ->
    exists b, admitted (State b) /\ hash (State b) = h
      /\ bi_account i = state_account b /\ bi_balance i = state_balance b;
  li_admitted h b succ : blocks s !! h = Some (b, succ) -> admitted b;
  li_info_one : blocks_info s !! 1 = None;
  li_checksum : checksums s !! 0 = Some (Z.lxor K (map_lxor (fun _ i => ai_head i) (accounts s)))
}.
#[global] Arguments li_tables {_ _ _ _} _.
#[global] Arguments li_chain {_ _ _ _} _.
#[global] Arguments li_head {_ _ _ _} _ _ _ _.
#[global] Arguments li_owner {_ _ _ _} _ _ _ _.
#[global] Arguments li_tip {_ _ _ _} _ _ _ _ _ _.
#[global] Arguments li_open {_ _ _ _} _ _ _ _ _ _ _ _ _ _.
#[global] Arguments li_opened {_ _ _ _} _ _ _ _.
#[global] Arguments li_frontiers {_ _ _ _} _ _ _.
#[global] Arguments li_pending {_ _ _ _} _ _ _ _.
#[global] Arguments li_unreceived {_ _ _ _} _ _ _ _ _.
#[global] Arguments li_settled {_ _ _ _} _ _ _ _ _.
#[global] Arguments li_supply {_ _ _ _} _.
#[global] Arguments li_weights {_ _ _ _} _ _.
#[global] Arguments li_info {_ _ _ _} _ _ _ _ _ _.
#[global] Arguments li_info_kept {_ _ _ _} _ _ _ _ _ _ _ _ _.
#[global] Arguments li_info_height {_ _ _ _} _ _ _ _ _ _ _ _ _ _.
#[global] Arguments li_info_gone {_ _ _ _} _ _ _ _ _.
#[global] Arguments li_admitted {_ _ _ _} _ _ _ _ _.
#[global] Arguments li_info_one {_ _ _ _} _.
#[global] Arguments li_checksum {_ _ _ _} _.

(** ** Bounds *)

Section bounds.
Context K D G s (HI : ledger_inv K D G s).

Lemma account_balance_nonneg a i : accounts s !! a = Some i -> 0 <= ai_balance i.
Proof.
  intros (b & m & _ & Hm & _ & -> & _)%(li_head HI).
  destruct (chain_facts (li_chain HI) _ _ Hm) as [[] _]. lia.
Qed.

(** A send's amount is not negative. *)
Lemma sent_nonneg h d x : send_of (contents (blocks s)) G h = Some (d, x) -> 0 <= x.
Proof.
  intros Hs. destruct (send_of_lookup _ _ _ _ Hs) as [b Hb].
  pose proof Hb as [succ Hsb]%contents_Some.
  destruct (chain_lookup _ _ _ _ _ (li_chain HI) Hsb) as (m & _ & Hok).
  unfold send_of in Hs. rewrite Hb in Hs. destruct b; cbn in Hok, Hs; try done.
  - destruct Hok as (p & (_ & Hp & _) & _ & _ & _ & ?). rewrite Hp in Hs. cbn in Hs.
    simplify_eq. lia.
  - case_match; [done|]. apply bind_Some in Hs as (p & _ & Hs). case_match eqn:E; [|done].
    simplify_eq. apply Z.ltb_lt in E. lia.
Qed.

Lemma pending_nonneg k p : pending s !! k = Some p -> 0 <= pi_amount p.
Proof. intros [Hs _]%(li_pending HI). by eapply sent_nonneg. Qed.

Lemma weights_width r : in_width 128 (representation_get s r).
Proof. rewrite (li_weights HI). by apply wrap_in_width. Qed.

Lemma amount_width k p : pending s !! k = Some p -> in_width 128 (pi_amount p).
Proof.
  intros Hp. pose proof (li_supply HI) as Hs. unfold supply, genesis_amount in Hs.
  pose proof (map_sum_nonneg _ _ account_balance_nonneg) as H1.
  pose proof (map_sum_lookup_le _ _ _ _ pending_nonneg Hp) as H2.
  pose proof (pending_nonneg _ _ Hp). cbn in H1, H2. unfold in_width. lia.
Qed.

(** A pending amount added to a balance does not overflow. *)
Lemma receive_fits a i k p : accounts s !! a = Some i -> pending s !! k = Some p ->
  in_width 128 (ai_balance i + pi_amount p).
Proof.
  intros Hi Hp. pose proof (li_supply HI) as Hs. unfold supply, genesis_amount in Hs.
  pose proof (map_sum_lookup_le _ _ _ _ account_balance_nonneg Hi) as H1.
  pose proof (map_sum_lookup_le _ _ _ _ pending_nonneg Hp) as H2.
  pose proof (account_balance_nonneg _ _ Hi). pose proof (pending_nonneg _ _ Hp).
  cbn in H1, H2. unfold in_width. lia.
Qed.

(** The weight of a representative is at most the supply. *)
Lemma weight_of_range r : 0 <= weight_of s r <= genesis_amount.
Proof.
  pose proof (map_sum_nonneg _ _ pending_nonneg) as Hp. pose proof (li_supply HI) as Hs.
  unfold supply in Hs. unfold weight_of. split.
  - apply map_sum_nonneg. intros a i Hi. case_match; [by eapply account_balance_nonneg|lia].
  - enough (map_sum (fun _ i => if rep_of (contents (blocks s)) (ai_rep_block i) =? r
                                then ai_balance i else 0) (accounts s)
            <= map_sum (fun _ i => ai_balance i) (accounts s)) by lia.
    apply map_sum_le. intros a i Hi. case_match; [lia|by eapply account_balance_nonneg].
Qed.
End bounds.

(** ** A valid next block, and its effect on the tables *)

Record valid_step G s (b : block) (m : chain_info) : Prop := {
  vs_app : appendable (blocks s) b;
  vs_ok : block_ok (contents (blocks s)) G (hash b) b m;
  vs_width : in_width 128 (ci_balance m);
  vs_account : ci_account m <> 0;
  vs_head : match accounts s !! ci_account m with
            | Some i => previous b = ai_head i
            | None => previous b = 0
            end;
  vs_not_genesis : match b with Open b => open_source b <> genesis_account | _ => True end;
  vs_source x : source_of (<[hash b := b]> (contents (blocks s))) G (hash b) = Some x ->
    is_Some (pending s !! PendingKey (ci_account m) x);
  vs_info i : blocks_info s !! hash b = Some i ->
    bi_account i = ci_account m /\ bi_balance i = ci_balance m /\ is_legacy b = false;
  vs_admitted : admitted b;
  vs_rank k km : G !! k = Some km -> (ci_rank km < ci_rank m)%nat
}.

#[global] Arguments vs_app {_ _ _ _} _.
#[global] Arguments vs_ok {_ _ _ _} _.
#[global] Arguments vs_width {_ _ _ _} _.
#[global] Arguments vs_account {_ _ _ _} _.
#[global] Arguments vs_head {_ _ _ _} _.
#[global] Arguments vs_not_genesis {_ _ _ _} _.
#[global] Arguments vs_source {_ _ _ _} _ _ _.
#[global] Arguments vs_info {_ _ _ _} _ _ _.
#[global] Arguments vs_admitted {_ _ _ _} _.
#[global] Arguments vs_rank {_ _ _ _} _ _ _ _.

(** The pending table after [b]. *)
Definition pending_after G s (b : block) (m : chain_info) : gmap pending_key pending_info :=
  let C := <[hash b := b]> (contents (blocks s)) in
  match send_of C G (hash b) with
  | Some (d, x) => <[PendingKey d (hash b) := PendingInfo (ci_account m) x]> (pending s)
  | None =>
    match source_of C G (hash b) with
    | Some x => delete (PendingKey (ci_account m) x) (pending s)
    | None => pending s
    end
  end.

Definition old_balance s (m : chain_info) : Z :=
  match accounts s !! ci_account m with Some i => ai_balance i | None => 0 end.
Definition old_head s (m : chain_info) : Z :=
  match accounts s !! ci_account m with Some i => ai_head i | None => 0 end.

(** The change of the weight of [r]. *)
Definition weight_delta s (b : block) (m : chain_info) (r : Z) : Z :=
  (if rep_of (<[hash b := b]> (contents (blocks s))) (ci_rep m) =? r then ci_balance m else 0)
  - match accounts s !! ci_account m with
    | Some i => if rep_of (contents (blocks s)) (ai_rep_block i) =? r then ai_balance i else 0
    | None => 0
    end.

Record applied G s (b : block) (m : chain_info) s' : Prop := {
  ap_tables : tables_ok s';
  ap_blocks : blocks s' = append b (blocks s);
  ap_accounts : exists t,
    accounts s' = <[ci_account m := AccountInfo (hash b) (ci_rep m)
      (match accounts s !! ci_account m with Some i => ai_open_block i | None => hash b end)
      (ci_balance m) t (wrap 64 (Z.of_nat (ci_height m)))]> (accounts s);
  ap_frontiers h a : frontiers s' !! h = Some a <->
    h = hash b /\ a = ci_account m /\ is_legacy b = true
    \/ h <> hash b /\ h <> previous b /\ frontiers s !! h = Some a;
  ap_pending : pending s' = pending_after G s b m;
  ap_weights r : representation_get s' r = wrap 128 (representation_get s r + weight_delta s b m r);
  ap_info : blocks_info s' =
    if (Z.of_nat (ci_height m) mod block_info_max =? 0) && is_legacy b
    then <[hash b := BlockInfo (ci_account m) (ci_balance m)]> (blocks_info s) else blocks_info s;
  ap_checksum : checksums s' !! 0 =
    (fun c => Z.lxor (Z.lxor c (old_head s m)) (hash b)) <$> checksums s !! 0
}.

#[global] Arguments ap_tables {_ _ _ _ _} _.
#[global] Arguments ap_blocks {_ _ _ _ _} _.
#[global] Arguments ap_accounts {_ _ _ _ _} _.
#[global] Arguments ap_frontiers {_ _ _ _ _} _ _ _.
#[global] Arguments ap_pending {_ _ _ _ _} _.
#[global] Arguments ap_weights {_ _ _ _ _} _ _.
#[global] Arguments ap_info {_ _ _ _ _} _.
#[global] Arguments ap_checksum {_ _ _ _ _} _.

(** ** Facts about a valid step *)

Section step.
Context K D G s (b : block) (m : chain_info).
Context (HI : ledger_inv K D G s) (HV : valid_step G s b m).
Local Abbreviation C := (contents (blocks s)).
Local Abbreviation C' := (<[hash b := b]> (contents (blocks s))).
Local Abbreviation G' := (<[hash b := m]> G).

Lemma new_contents : C !! hash b = None.
Proof. by rewrite contents_lookup, (app_new (vs_app HV)). Qed.

Lemma new_facts : G !! hash b = None.
Proof.
  apply eq_None_not_Some. rewrite (chain_dom (li_chain HI)).
  rewrite (app_new (vs_app HV)). apply is_Some_None.
Qed.

Lemma contents_grow : C ⊆ C'.
Proof. apply insert_subseteq, new_contents. Qed.

Lemma facts_grow : G ⊆ G'.
Proof. apply insert_subseteq, new_facts. Qed.

(** The facts about the predecessor are those of the account's head. *)
Lemma old_facts p : follows G (previous b) p m ->
  exists i, accounts s !! ci_account m = Some i /\ ai_head i = previous b
    /\ head_ok (ci_account m) i p.
Proof.
  intros (Hne & Hp & Ha & _). destruct (li_owner HI _ _ Hp) as [i Hi]. rewrite <- Ha in Hi.
  exists i. split; [done|]. pose proof (vs_head HV) as Hh. rewrite Hi in Hh.
  destruct (li_head HI _ _ Hi) as (hb & hm & _ & Hm & Hok). rewrite <- Hh in Hm.
  simplify_eq. done.
Qed.

Lemma previous_not_new : previous b <> hash b.
Proof.
  destruct (vs_app HV) as [Hnew [H0 _] Hp]. intros E. rewrite E in Hp.
  destruct Hp as [?|[pb ?]]; congruence.
Qed.

(** The new block's own facts do not matter for what it sends or receives. *)
Lemma send_of_new : send_of C' G' (hash b) = send_of C' G (hash b).
Proof.
  pose proof previous_not_new as Hp. unfold send_of. rewrite lookup_insert_eq.
  destruct b; cbn in Hp; by rewrite ?lookup_insert_ne by done.
Qed.

Lemma source_of_new : source_of C' G' (hash b) = source_of C' G (hash b).
Proof.
  pose proof previous_not_new as Hp. unfold source_of. rewrite lookup_insert_eq.
  destruct b; cbn in Hp; by rewrite ?lookup_insert_ne by done.
Qed.

Lemma send_of_old k : k <> hash b -> send_of C' G' k = send_of C G k.
Proof.
  intros Hk. destruct (C !! k) as [kb|] eqn:E.
  - eapply send_of_stable; [apply HI|done|apply contents_grow|apply facts_grow].
  - unfold send_of. by rewrite lookup_insert_ne, E by done.
Qed.

Lemma source_of_old k : k <> hash b -> source_of C' G' k = source_of C G k.
Proof.
  intros Hk. destruct (C !! k) as [kb|] eqn:E.
  - eapply source_of_stable; [apply HI|done|apply contents_grow|apply facts_grow].
  - unfold source_of. by rewrite lookup_insert_ne, E by done.
Qed.

Lemma sent_not_new k r : send_of C G k = Some r -> k <> hash b.
Proof. intros [kb Hk]%send_of_lookup ->. by rewrite new_contents in Hk. Qed.

Lemma source_not_new k x : source_of C G k = Some x -> k <> hash b /\ x <> hash b.
Proof.
  intros Hs. destruct (source_of_receives _ _ _ _ (li_chain HI) Hs) as (? & ? & _ & [Hx _]).
  split; [|by eapply sent_not_new]. intros ->. apply source_of_lookup in Hs as [? Hs].
  by rewrite new_contents in Hs.
Qed.

(** The block receives a pending amount. *)
Lemma source_pending x : source_of C' G (hash b) = Some x ->
  exists p, pending s !! PendingKey (ci_account m) x = Some p /\ receives C G x (pi_amount p) m.
Proof.
  intros Hx. destruct (vs_source HV _ Hx) as [p Hp]. exists p. split; [done|].
  destruct (block_ok_source C C' G _ _ _ _ (vs_ok HV) ltac:(apply lookup_insert_eq) Hx)
    as [y [Hy ?]].
  destruct (li_pending HI _ _ Hp) as [Hs _]. cbn in Hs. rewrite Hs in Hy. by simplify_eq.
Qed.

Lemma step_chain : chain_inv (append b (blocks s)) G'.
Proof.
  apply extend; try apply HV; [apply HI|by eapply block_ok_height, HV|].
  intros x k Hx Hk. rewrite source_of_new in Hx.
  destruct (source_pending _ Hx) as (p & Hp & _). by eapply (li_unreceived HI _ _ k) in Hp.
Qed.

Lemma old_balance_follows p : follows G (previous b) p m -> old_balance s m = ci_balance p.
Proof.
  intros (i & Hi & _ & _ & Hb & _)%old_facts. unfold old_balance. by rewrite Hi.
Qed.

Lemma account_new : previous b = 0 -> accounts s !! ci_account m = None.
Proof.
  intros Hp. pose proof (vs_head HV) as Hh.
  destruct (accounts s !! ci_account m) as [i|] eqn:Hi; [|done].
  destruct (li_head HI _ _ Hi) as (hb & hm & Hs & _).
  destruct (chain_hash (li_chain HI) _ _ _ Hs) as [_ [? _]]. congruence.
Qed.

Lemma old_balance_new : previous b = 0 -> old_balance s m = 0.
Proof. intros Hp. unfold old_balance. by rewrite account_new. Qed.

(** How the balance changes. *)
Definition balance_moved : Prop :=
  match send_of C' G (hash b), source_of C' G (hash b) with
  | Some (d, x), _ => ci_balance m = old_balance s m - x
  | None, Some x => exists y, receives C G x y m /\ ci_balance m = old_balance s m + y
  | None, None => ci_balance m = old_balance s m
  end.

Lemma facts_zero : G !! 0 = None.
Proof.
  apply eq_None_not_Some. rewrite (chain_dom (li_chain HI)). intros [[zb zs] Hz].
  by destruct (chain_hash (li_chain HI) _ _ _ Hz) as [_ [? _]].
Qed.

Lemma balance_change : balance_moved.
Proof.
  pose proof (block_ok_balance C C' G _ _ _ (vs_ok HV) ltac:(apply lookup_insert_eq) facts_zero
    (vs_not_genesis HV)) as Hb.
  enough (balance_before G b = old_balance s m) as E by (by rewrite E in Hb). unfold balance_before.
  destruct (decide (previous b = 0)) as [E|E].
  - by rewrite E, facts_zero, old_balance_new.
  - assert (exists p, follows G (previous b) p m) as (p & Hf).
    { pose proof (vs_ok HV) as Hok. destruct b; cbn in Hok, E |- *; naive_solver. }
    rewrite (old_balance_follows _ Hf). by destruct Hf as (_ & -> & _).
Qed.

(** ** The invariant after the step *)

Context (s' : store) (HA : applied G s b m s').

Lemma step_contents : contents (blocks s') = C'.
Proof. by rewrite (ap_blocks HA), append_contents. Qed.

Lemma other_head a i : accounts s !! a = Some i -> a <> ci_account m -> ai_head i <> previous b.
Proof.
  intros Hi Hne E. pose proof (vs_head HV) as Hh.
  destruct (li_head HI _ _ Hi) as (hb & hm & Hs & Hm & Ha & _).
  destruct (accounts s !! ci_account m) as [j|] eqn:Hj.
  - destruct (li_head HI _ _ Hj) as (? & jm & _ & Hjm & Hja & _). congruence.
  - destruct (chain_hash (li_chain HI) _ _ _ Hs) as [_ [? _]]. congruence.
Qed.

Lemma step_accounts a :
  accounts s' !! a = if decide (a = ci_account m) then accounts s' !! ci_account m else accounts s !! a.
Proof.
  destruct (ap_accounts HA) as [t ->]. rewrite lookup_insert_eq.
  case_decide; subst; [by rewrite lookup_insert_eq|by rewrite lookup_insert_ne].
Qed.

Lemma step_account : exists i, accounts s' !! ci_account m = Some i
  /\ ai_head i = hash b /\ head_ok (ci_account m) i m
  /\ ai_open_block i = match accounts s !! ci_account m with
                       | Some i => ai_open_block i | None => hash b end.
Proof.
  destruct (ap_accounts HA) as [t ->]. rewrite lookup_insert_eq. eexists. by split.
Qed.

Lemma step_head a i : accounts s' !! a = Some i ->
  exists b m', blocks s' !! ai_head i = Some (b, 0) /\ G' !! ai_head i = Some m' /\ head_ok a i m'.
Proof.
  rewrite step_accounts. rewrite (ap_blocks HA). case_decide as Ha; intros Hi.
  - subst a. destruct step_account as (j & Hj & Hh & Hok & _). rewrite Hj in Hi. simplify_eq.
    rewrite Hh. exists b, m. rewrite append_lookup, decide_True, lookup_insert_eq by (done || apply HV).
    done.
  - destruct (li_head HI _ _ Hi) as (hb & hm & Hs & Hm & Hok). exists hb, hm.
    pose proof (other_head _ _ Hi Ha) as Hne.
    destruct (append_old _ _ _ _ _ (vs_app HV) Hs) as (ks & -> & ->).
    rewrite decide_False by tauto. split; [done|]. split; [|done].
    eapply lookup_weaken, facts_grow. done.
Qed.

Lemma step_owner h m' : G' !! h = Some m' -> is_Some (accounts s' !! ci_account m').
Proof.
  rewrite step_accounts. destruct step_account as (j & -> & _).
  intros [[<- <-]|[Hne Hk]]%lookup_insert_Some; [by rewrite decide_True|].
  case_decide; [done|]. by eapply li_owner.
Qed.

Lemma step_tip h hb m' : blocks s' !! h = Some (hb, 0) -> G' !! h = Some m' ->
  exists i, accounts s' !! ci_account m' = Some i /\ ai_head i = h.
Proof.
  rewrite step_accounts. destruct step_account as (j & -> & Hj & _).
  rewrite (ap_blocks HA). pose proof (vs_app HV) as Happ.
  intros [(-> & -> & _)|[(_ & _ & _ & _ & E)|(Hne & Hd & Hk)]]%append_Some Hm; [| | |done].
  - rewrite lookup_insert_eq in Hm. simplify_eq. rewrite decide_True by done. eauto.
  - by destruct (app_hash Happ) as [? _].
  - rewrite lookup_insert_ne in Hm by done.
    destruct (li_tip HI _ _ _ Hk Hm) as (i & Hi & Hh). case_decide as Ha; [|by eauto].
    rewrite Ha in Hi. pose proof (vs_head HV) as Hv. rewrite Hi in Hv.
    destruct (chain_hash (li_chain HI) _ _ _ Hk) as [_ [? _]]. destruct Hd. split; congruence.
Qed.

Lemma step_open h hb succ m' i : blocks s' !! h = Some (hb, succ) -> G' !! h = Some m' ->
  previous hb = 0 -> accounts s' !! ci_account m' = Some i -> ai_open_block i = h.
Proof.
  rewrite step_accounts. destruct step_account as (j & Ej & _ & _ & Ho). rewrite Ej.
  rewrite (ap_blocks HA). intros Hs Hm Hp Hi.
  apply append_Some in Hs as [(-> & -> & _)|Hs]; [| |apply HV].
  - rewrite lookup_insert_eq in Hm. injection Hm as <-.
    rewrite decide_True in Hi by done. injection Hi as <-. by rewrite Ho, account_new.
  - assert (h <> hash b /\ exists ks, blocks s !! h = Some (hb, ks)) as [Hne [ks Hk]] by naive_solver.
    rewrite lookup_insert_ne in Hm by done. case_decide as Ha; [|by eapply li_open].
    injection Hi as <-. destruct (li_owner HI _ _ Hm) as [i' Hi']. rewrite Ho, <- Ha, Hi'.
    by eapply li_open.
Qed.

Lemma step_opened a i : accounts s' !! a = Some i ->
  exists ob succ m', blocks s' !! ai_open_block i = Some (ob, succ)
    /\ G' !! ai_open_block i = Some m' /\ ci_account m' = a /\ previous ob = 0.
Proof.
  assert (Hold : forall a i, accounts s !! a = Some i ->
    exists ob succ m', append b (blocks s) !! ai_open_block i = Some (ob, succ)
      /\ G' !! ai_open_block i = Some m' /\ ci_account m' = a /\ previous ob = 0).
  { intros a' i' (ob & succ & m' & Hs & Hm & ?)%(li_opened HI).
    destruct (append_old _ _ _ _ _ (vs_app HV) Hs) as (ks & ? & _).
    exists ob, ks, m'. split; [done|]. split; [|done]. eapply lookup_weaken, facts_grow. done. }
  rewrite step_accounts, (ap_blocks HA).
  case_decide as Ha; [|by apply Hold]. subst a.
  destruct step_account as (j & Ej & _ & _ & Ho). rewrite Ej. intros [= <-]. rewrite Ho.
  pose proof (vs_head HV) as Hh.
  destruct (accounts s !! ci_account m) as [k|] eqn:Ek; [by apply Hold|].
  exists b, 0, m. rewrite append_lookup, decide_True, lookup_insert_eq by (done || apply HV). done.
Qed.

Lemma step_legacy h : legacy C' h <-> h = hash b /\ is_legacy b = true \/ h <> hash b /\ legacy C h.
Proof.
  unfold legacy, is_legacy. destruct (decide (h = hash b)) as [->|Hne].
  - rewrite lookup_insert_eq. naive_solver.
  - rewrite lookup_insert_ne by done. naive_solver.
Qed.

Lemma step_frontiers h a : frontiers s' !! h = Some a <->
  exists i, accounts s' !! a = Some i /\ ai_head i = h /\ legacy (contents (blocks s')) h.
Proof.
  rewrite (ap_frontiers HA), step_contents, (li_frontiers HI).
  setoid_rewrite step_legacy. rewrite step_accounts. destruct step_account as (j & -> & Hj & _). split.
  - intros [(-> & -> & Hl)|(Hne & Hp & i & Hi & Hh & Hl)].
    + rewrite decide_True by done. exists j. tauto.
    + exists i. case_decide as Ha; [|by auto]. subst a.
      pose proof (vs_head HV) as Hv. rewrite Hi in Hv. congruence.
  - intros (i & Hi & Hh & Hl). case_decide as Ha.
    + simplify_eq. left. naive_solver.
    + right. pose proof (other_head _ _ Hi Ha) as Hp. rewrite Hh in Hp.
      destruct (li_head HI _ _ Hi) as (hb & ? & Hs & _). rewrite Hh in Hs.
      assert (h <> hash b) as Hne.
      { intros ->. by rewrite (app_new (vs_app HV)) in Hs. }
      naive_solver.
Qed.

(** *** Pending amounts *)

Lemma pending_after_Some k p : pending_after G s b m !! k = Some p ->
  k <> PendingKey (pk_account k) (hash b) /\ pending s !! k = Some p
    /\ source_of C' G (hash b) <> Some (pk_hash k)
  \/ pk_hash k = hash b /\ pi_source p = ci_account m
    /\ send_of C' G (hash b) = Some (pk_account k, pi_amount p).
Proof.
  assert (Hnew : pending s !! k = Some p -> k <> PendingKey (pk_account k) (hash b)).
  { intros Hk E. destruct (li_pending HI _ _ Hk) as [Hs _].
    apply sent_not_new in Hs. by rewrite E in Hs. }
  unfold pending_after. destruct (send_of C' G (hash b)) as [[d x]|] eqn:Hs.
  - pose proof (send_not_source _ _ _ _ Hs) as Hn.
    intros [[<- <-]|[Hne Hk]]%lookup_insert_Some; [by right|left]. rewrite Hn. auto.
  - destruct (source_of C' G (hash b)) as [x|] eqn:Hx; [|by left; auto].
    intros [Hne Hk]%lookup_delete_Some. left. split; [by auto|]. split; [done|].
    intros [= ->]. destruct (source_pending _ Hx) as (q & Hq & _).
    destruct (li_pending HI _ _ Hk) as [H1 _], (li_pending HI _ _ Hq) as [H2 _].
    cbn in H2. rewrite H1 in H2. destruct k; cbn in *. by simplify_eq.
Qed.

Lemma step_pending k p : pending s' !! k = Some p ->
  send_of (contents (blocks s')) G' (pk_hash k) = Some (pk_account k, pi_amount p)
  /\ exists m', G' !! pk_hash k = Some m' /\ ci_account m' = pi_source p.
Proof.
  rewrite step_contents, (ap_pending HA).
  intros [(_ & Hk & _)|(Hk & Hp & Hs)]%pending_after_Some.
  - destruct (li_pending HI _ _ Hk) as (Hs & m' & Hm & Ha).
    rewrite send_of_old by (by eapply sent_not_new). split; [done|].
    exists m'. split; [|done]. eapply lookup_weaken, facts_grow. done.
  - rewrite Hk, send_of_new, lookup_insert_eq. eauto.
Qed.

Lemma step_unreceived k p h : pending s' !! k = Some p ->
  source_of (contents (blocks s')) G' h <> Some (pk_hash k).
Proof.
  rewrite step_contents, (ap_pending HA). intros Hk%pending_after_Some.
  destruct (decide (h = hash b)) as [->|Hne].
  - rewrite source_of_new. destruct Hk as [(_ & _ & Hk)|(Hk & _ & Hs)]; [done|].
    by rewrite (send_not_source _ _ _ _ Hs).
  - rewrite source_of_old by done. destruct Hk as [(_ & Hk & _)|(-> & _ & _)].
    + by eapply li_unreceived.
    + intros Hx. by destruct (source_not_new _ _ Hx).
Qed.

Lemma step_settled h d x : send_of (contents (blocks s')) G' h = Some (d, x) ->
  is_Some (pending s' !! PendingKey d h)
  \/ exists r, source_of (contents (blocks s')) G' r = Some h.
Proof.
  rewrite step_contents, (ap_pending HA). unfold pending_after.
  destruct (decide (h = hash b)) as [->|Hne].
  { rewrite send_of_new. intros ->. left. by rewrite lookup_insert_eq. }
  rewrite send_of_old by done. intros [Hp|[r Hr]]%(li_settled HI).
  - destruct (send_of C' G (hash b)) as [[d' x']|] eqn:Hs.
    { left. rewrite lookup_insert_ne; [done|]. congruence. }
    destruct (source_of C' G (hash b)) as [y|] eqn:Hy; [|by left].
    destruct (decide (PendingKey (ci_account m) y = PendingKey d h)) as [[= -> ->]|Hk].
    + right. exists (hash b). by rewrite source_of_new.
    + left. by rewrite lookup_delete_ne.
  - right. exists r. rewrite source_of_old; [done|]. by apply source_not_new in Hr as [? _].
Qed.

(** *** Sums *)

Lemma map_sum_accounts (f : Z -> account_info -> Z) i :
  map_sum f (<[ci_account m := i]> (accounts s))
  = map_sum f (accounts s)
    - match accounts s !! ci_account m with Some i => f (ci_account m) i | None => 0 end
    + f (ci_account m) i.
Proof.
  destruct (accounts s !! ci_account m) as [j|] eqn:E.
  - by rewrite (map_sum_update _ _ _ _ _ E).
  - rewrite map_sum_insert by done. lia.
Qed.

Lemma step_supply : supply s' = genesis_amount.
Proof.
  rewrite <- (li_supply HI). pose proof balance_change as Hb. unfold balance_moved in Hb.
  unfold supply. rewrite (ap_pending HA). destruct (ap_accounts HA) as [t ->].
  rewrite map_sum_accounts. cbn [ai_balance]. unfold pending_after.
  assert ((match accounts s !! ci_account m with Some i => ai_balance i | None => 0 end)
          = old_balance s m) as -> by done.
  destruct (send_of C' G (hash b)) as [[d x]|] eqn:Hs.
  - rewrite map_sum_insert; [cbn [pi_amount]; lia|].
    destruct (pending s !! PendingKey d (hash b)) as [p|] eqn:Hk; [|done].
    destruct (li_pending HI _ _ Hk) as [Hn _]. by apply sent_not_new in Hn.
  - destruct (source_of C' G (hash b)) as [x|] eqn:Hx; [|lia].
    destruct (source_pending _ Hx) as (p & Hp & [Hr _]). destruct Hb as (y & [Hr' _] & ->).
    rewrite Hr in Hr'. simplify_eq. rewrite (map_sum_delete _ _ _ _ Hp). lia.
Qed.

Lemma step_rep_of a i : accounts s !! a = Some i -> rep_of C' (ai_rep_block i) = rep_of C (ai_rep_block i).
Proof.
  intros (hb & hm & _ & Hm & _ & _ & -> & _)%(li_head HI).
  destruct (chain_facts (li_chain HI) _ _ Hm) as (_ & _ & _ & rb & Hrb & _).
  unfold rep_of. rewrite lookup_insert_ne; [done|]. intros E. rewrite <- E in Hrb.
  by rewrite new_contents in Hrb.
Qed.

Lemma step_weight_of r : weight_of s' r = weight_of s r + weight_delta s b m r.
Proof.
  unfold weight_of, weight_delta. rewrite step_contents.
  destruct (ap_accounts HA) as [t ->]. rewrite map_sum_accounts. cbn [ai_rep_block ai_balance].
  rewrite (map_sum_ext _ (fun _ i => if rep_of C (ai_rep_block i) =? r then ai_balance i else 0));
    [|intros a i Hi; by rewrite (step_rep_of _ _ Hi)].
  destruct (accounts s !! ci_account m) as [j|] eqn:Ej; [rewrite (step_rep_of _ _ Ej)|]; lia.
Qed.

Lemma step_weights r : representation_get s' r = wrap 128 (weight_of s' r + D r).
Proof.
  rewrite (ap_weights HA), (li_weights HI), step_weight_of. wrap_eq.
Qed.

(** *** Block information and the checksum *)

Lemma step_info h i m' : blocks_info s' !! h = Some i -> G' !! h = Some m' ->
  bi_account i = ci_account m' /\ bi_balance i = ci_balance m'.
Proof.
  rewrite (ap_info HA). intros Hi Hm.
  assert (h = hash b /\ i = BlockInfo (ci_account m) (ci_balance m) \/ blocks_info s !! h = Some i)
    as [[-> ->]|Hi'] by (case_match; [apply lookup_insert_Some in Hi; naive_solver|by right]).
  - rewrite lookup_insert_eq in Hm. by injection Hm as <-.
  - apply lookup_insert_Some in Hm as [[<- <-]|[Hne Hm]]; [|by eapply li_info].
    destruct (vs_info HV _ Hi') as (? & ? & _). done.
Qed.

Lemma step_info_kept h hb succ m' : blocks s' !! h = Some (hb, succ) -> is_legacy hb = true ->
  G' !! h = Some m' -> Z.of_nat (ci_height m') mod block_info_max = 0 -> is_Some (blocks_info s' !! h).
Proof.
  rewrite (ap_blocks HA), (ap_info HA). intros Hs Hl Hm Hh.
  apply append_Some in Hs as [(-> & -> & _)|Hs]; [| |apply HV].
  - rewrite lookup_insert_eq in Hm. injection Hm as <-. rewrite Hh, Hl. cbn.
    by rewrite lookup_insert_eq.
  - assert (h <> hash b /\ exists ks, blocks s !! h = Some (hb, ks)) as [Hne [ks Hk]] by naive_solver.
    rewrite lookup_insert_ne in Hm by done.
    destruct (li_info_kept HI _ _ _ _ Hk Hl Hm Hh) as [i Hi].
    case_match; [rewrite lookup_insert_ne by done|]; eauto.
Qed.

Lemma step_info_height h i hb succ m' : blocks_info s' !! h = Some i -> blocks s' !! h = Some (hb, succ) ->
  is_legacy hb = true -> G' !! h = Some m' -> Z.of_nat (ci_height m') mod block_info_max = 0.
Proof.
  rewrite (ap_blocks HA), (ap_info HA). intros Hi Hs Hl Hm.
  destruct (decide (h = hash b)) as [->|Hne].
  - rewrite append_lookup, decide_True in Hs by (done || apply HV). injection Hs as <- <-.
    rewrite lookup_insert_eq in Hm. injection Hm as <-. rewrite Hl, andb_true_r in Hi.
    case_match eqn:E; [by apply Z.eqb_eq|].
    destruct (vs_info HV _ Hi) as (_ & _ & ?). congruence.
  - rewrite lookup_insert_ne in Hm by done.
    assert (blocks_info s !! h = Some i) as Hi' by (case_match; [by rewrite lookup_insert_ne in Hi|done]).
    assert (exists ks, blocks s !! h = Some (hb, ks)) as [ks Hk].
    { apply append_Some in Hs; [naive_solver|apply HV]. }
    by eapply (li_info_height HI).
Qed.

Lemma step_info_gone h i : blocks_info s' !! h = Some i -> G' !! h = None ->
  exists sb, admitted (State sb) /\ hash (State sb) = h
    /\ bi_account i = state_account sb /\ bi_balance i = state_balance sb.
Proof.
  rewrite (ap_info HA). intros Hi [Hm Hne]%lookup_insert_None.
  apply (li_info_gone HI); [|done]. case_match; [by rewrite lookup_insert_ne in Hi|done].
Qed.

Lemma step_admitted h hb succ : blocks s' !! h = Some (hb, succ) -> admitted hb.
Proof.
  rewrite (ap_blocks HA). intros Hs%append_Some; [|apply HV].
  destruct Hs as [(_ & -> & _)|Hs]; [apply HV|].
  assert (exists ks, blocks s !! h = Some (hb, ks)) as [ks Hk] by naive_solver. by eapply (li_admitted HI).
Qed.

Lemma step_info_one : blocks_info s' !! 1 = None.
Proof.
  rewrite (ap_info HA). case_match; [|apply HI]. rewrite lookup_insert_ne; [apply HI|].
  apply (app_hash (vs_app HV)).
Qed.

Lemma step_checksum :
  checksums s' !! 0 = Some (Z.lxor K (map_lxor (fun _ i => ai_head i) (accounts s'))).
Proof.
  rewrite (ap_checksum HA), (li_checksum HI). cbn [fmap option_fmap option_map]. f_equal.
  destruct (ap_accounts HA) as [t ->]. unfold old_head.
  destruct (accounts s !! ci_account m) as [j|] eqn:Ej.
  - by rewrite (map_lxor_update _ _ _ _ _ Ej), !Z.lxor_assoc.
  - rewrite map_lxor_insert by done. by rewrite Z.lxor_0_r, (Z.lxor_comm (ai_head _)), Z.lxor_assoc.
Qed.

(** A valid block, with its updates, keeps the invariant. *)
Lemma apply_inv : ledger_inv K D G' s'.
Proof.
  split; eauto using step_head, step_owner, step_tip, step_open, step_opened, step_pending,
    step_unreceived, step_settled, step_supply, step_weights, step_info, step_info_kept,
    step_info_height, step_info_gone, step_admitted, step_info_one, step_checksum.
  - apply HA.
  - rewrite (ap_blocks HA). apply step_chain.
  - apply step_frontiers.
Qed.
End step.
End ledger_inv.
