(* ===== verification/Queries.v ===== *)
(** * Queries: the queries of [rai::ledger] on a consistent ledger

    The walks over the chains ([account], [balance], [amount], [representative]) end,
    and give the facts the invariant attaches to the blocks. *)

From stdpp Require Import base list option tactics gmap.
From Stdlib Require Import ZArith Lia.
From S2P Require Import Prelude Blocks Common Stats Store Tables Visitors Ledger Chain Balance.
From S2P Require Import LedgerInv.
#[local] Open Scope Z_scope.

Section queries.
Context `{E0 : Env} `{T0 : Traffic} (K : Z) (D : Z -> Z) (G : gmap Z chain_info) (s : store).
Context (HI : ledger_inv K D G s).
Local Abbreviation C := (contents (blocks s)).

Lemma info_balance h i m : blocks_info s !! h = Some i -> G !! h = Some m -> bi_balance i = ci_balance m.
Proof. intros Hi Hm. by eapply (li_info HI). Qed.

Lemma balance_of h m : G !! h = Some m -> balance s h = Some (ci_balance m).
Proof. apply (balance_facts _ _ (li_tables HI) (li_chain HI) info_balance). Qed.

Lemma balance_of_zero : balance s 0 = Some 0.
Proof. apply balance_zero. Qed.

Lemma amount_of h d x : send_of C G h = Some (d, x) -> amount s h = Some x.
Proof. apply (amount_send_of _ _ (li_tables HI) (li_chain HI) info_balance). Qed.

Lemma representative_of h m : G !! h = Some m -> ledger_representative s h = Some (ci_rep m).
Proof. apply (representative_facts _ _ (li_tables HI) (li_chain HI)). Qed.

Lemma block_get_of h : block_get s h = C !! h.
Proof. apply block_get_contents, HI. Qed.

Lemma stored_facts h b succ : blocks s !! h = Some (b, succ) ->
  exists m, G !! h = Some m /\ block_ok C G h b m.
Proof. by apply chain_lookup, HI. Qed.

Lemma facts_stored h m : G !! h = Some m ->
  exists b succ, blocks s !! h = Some (b, succ) /\ block_ok C G h b m /\ h <> 0.
Proof.
  intros Hm. destruct (proj1 (chain_dom (li_chain HI) h)) as [[b succ] Hb]; [by rewrite Hm|].
  exists b, succ. split_and!; [done|by eapply (chain_block (li_chain HI))|].
  by destruct (chain_hash (li_chain HI) _ _ _ Hb) as [_ [? _]].
Qed.

(** A block's successor follows it. *)
Lemma successor_facts h b succ m : blocks s !! h = Some (b, succ) -> G !! h = Some m -> succ <> 0 ->
  exists sb ss sm, blocks s !! succ = Some (sb, ss) /\ G !! succ = Some sm /\ previous sb = h
    /\ follows G h m sm.
Proof.
  intros Hb Hm Hs. destruct (chain_forth (li_chain HI) _ _ _ Hb Hs) as (sb & ss & Hsb & Hp).
  destruct (stored_facts _ _ _ Hsb) as (sm & Hsm & Hok). exists sb, ss, sm. split_and!; [done..|].
  destruct (chain_hash (li_chain HI) _ _ _ Hb) as [_ [H0 _]].
  assert (exists p, follows G (previous sb) p sm) as (p & Hf).
  { destruct sb; cbn in Hok, Hp |- *; naive_solver. }
  rewrite Hp in Hf. pose proof Hf as (_ & Hm' & _). by simplify_eq.
Qed.

(** The head of a block's account is the block or comes after it. *)
Lemma head_above h m : G !! h = Some m ->
  exists i hm, accounts s !! ci_account m = Some i /\ G !! ai_head i = Some hm
    /\ (ai_head i = h \/ (ci_rank m < ci_rank hm)%nat) /\ depends C (ai_head i) h.
Proof.
  remember (blocks_total s - rk G m)%nat as n eqn:Hn. revert h m Hn.
  induction n as [n IH] using lt_wf_ind. intros h m Hn Hm.
  destruct (facts_stored _ _ Hm) as (b & succ & Hb & _ & _).
  destruct (decide (succ = 0)) as [->|Hs].
  - destruct (li_tip HI _ _ _ Hb Hm) as (i & Hi & Hh). exists i, m. rewrite Hh.
    split_and!; auto using depends_refl.
  - destruct (successor_facts _ _ _ _ Hb Hm Hs) as (sb & ss & sm & Hsb & Hsm & Hp & _ & _ & Ha & _ & Hr).
    pose proof (rk_lt G _ _ _ Hm Hr). pose proof (rk_total s G (li_chain HI) _ _ Hsm).
    destruct (IH (blocks_total s - rk G sm)%nat) with (h := succ) (m := sm)
      as (i & hm & Hi & Hhm & Hc & Hd); [lia|done|done|].
    rewrite Ha in Hi. exists i, hm. split_and!; [done..| |].
    + right. destruct Hc as [<-|]; [by simplify_eq|lia].
    + eapply depends_trans; [done|]. eapply (depends_step _ _ sb h); [|by left|apply depends_refl].
      by rewrite contents_lookup, Hsb.
Qed.

(** No block points back to the last block of a chain. *)
Lemma tip_not_previous h b k kb ks :
  blocks s !! h = Some (b, 0) -> blocks s !! k = Some (kb, ks) -> previous kb <> h.
Proof.
  intros Hb Hk E. destruct (chain_hash (li_chain HI) _ _ _ Hb) as [_ [H0 _]].
  destruct (chain_hash (li_chain HI) _ _ _ Hk) as [_ [Hk0 _]].
  destruct (chain_back (li_chain HI) _ _ _ Hk) as [pb Hpb]; [congruence|].
  rewrite E, Hb in Hpb. congruence.
Qed.

Lemma block_ok_follows B h b m : block_ok B G h b m -> previous b <> 0 ->
  exists p, follows G (previous b) p m.
Proof. destruct b; cbn; naive_solver. Qed.

(** A first block without successor is the only block of its account. *)
Lemma only_block h b m k km :
  blocks s !! h = Some (b, 0) -> G !! h = Some m -> previous b = 0 ->
  G !! k = Some km -> ci_account km = ci_account m -> k = h.
Proof.
  intros Hb Hh H0. destruct (li_owner HI _ _ Hh) as [i Hi].
  remember (ci_rank km) as n eqn:Hn. revert k km Hn.
  induction n as [n IH] using lt_wf_ind. intros k km Hn Hm Ha.
  destruct (facts_stored _ _ Hm) as (kb & ks & Hs & Hok & _).
  destruct (decide (previous kb = 0)) as [E|E].
  - rewrite <- Ha in Hi. rewrite <- (li_open HI _ _ _ _ _ Hs Hm E Hi). rewrite Ha in Hi.
    apply (li_open HI _ _ _ _ _ Hb Hh H0 Hi).
  - destruct (block_ok_follows _ _ _ _ Hok E) as (p & _ & Hp & Hpa & _ & Hr).
    destruct (tip_not_previous _ _ _ _ _ Hb Hs). eapply (IH (ci_rank p)); [lia|done|done|congruence].
Qed.

(** ** [ledger::account] *)

Lemma account_loop_facts n : forall h b succ m cur,
  blocks s !! h = Some (b, succ) -> G !! h = Some m -> cur = 1 \/ cur = h ->
  (blocks_total s - rk G m <= n)%nat ->
  exists h' cur' b', account_loop (S (S n)) s h cur b = Some (h', cur', b')
    /\ match b' with
       | State sb => state_account sb = ci_account m
       | _ => if cur' =? 0 then frontiers s !! h' = Some (ci_account m)
              else exists i, blocks_info s !! cur' = Some i /\ bi_account i = ci_account m
       end.
Proof.
  induction n as [|n IH]; intros h b succ m cur Hb Hm Hcur Hn.
  { pose proof (rk_total s G (li_chain HI) _ _ Hm). lia. }
  pose proof (chain_hash (li_chain HI) _ _ _ Hb) as [_ [H0 _]].
  assert (cur <> 0) as Hc0 by (destruct Hcur; congruence).
  remember (S (S n)) as k eqn:Ek. cbn [account_loop]. rewrite (proj2 (Z.eqb_neq _ _) Hc0). cbn [negb andb].
  case_bool_decide as Ht; cbn [negb andb].
  { destruct b; try done. eexists _, _, _. split; [done|].
    by destruct (chain_block (li_chain HI) _ _ _ _ Hb Hm) as (-> & _). }
  assert (match b with State _ => False | _ => True end) as Hnb by (by destruct b).
  unfold block_info_exists. destruct (blocks_info s !! cur) as [i|] eqn:Hi; cbn [negb].
  { destruct Hcur as [-> | ->]; [by rewrite (li_info_one HI) in Hi|].
    eexists _, _, _. split; [done|]. destruct (li_info HI _ _ _ Hi Hm) as [? _].
    destruct b; try done; rewrite (proj2 (Z.eqb_neq _ _) H0); eauto. }
  rewrite block_successor_blocks, Hb by apply HI. cbn [snd].
  destruct (Z.eqb_spec succ 0) as [->|Hs]; cbn [negb].
  - rewrite Ek. eexists _, _, _. split; [done|]. destruct (li_tip HI _ _ _ Hb Hm) as (j & Hj & Hhd).
    assert (frontiers s !! h = Some (ci_account m)) as Hf.
    { apply (li_frontiers HI). exists j. split_and!; [done..|]. exists b. rewrite contents_lookup, Hb.
      split; [done|]. by destruct b. }
    by destruct b.
  - destruct (successor_facts _ _ _ _ Hb Hm Hs) as (sb & ss & sm & Hsb & Hsm & _ & _ & _ & Ha & _ & Hr).
    pose proof (rk_lt G _ _ _ Hm Hr). pose proof (rk_total s G (li_chain HI) _ _ Hsm).
    rewrite block_get_of, contents_lookup, Hsb. cbn [fmap option_fmap option_map fst mbind option_bind].
    rewrite <- Ha. apply (IH _ _ _ _ _ Hsb Hsm); [by right|lia].
Qed.

Lemma account_of h m : G !! h = Some m -> account s h = Some (ci_account m).
Proof.
  intros Hm. destruct (facts_stored _ _ Hm) as (b & succ & Hb & _ & _). unfold account.
  rewrite block_get_of, contents_lookup, Hb. cbn [fmap option_fmap option_map fst mbind option_bind].
  destruct (account_loop_facts (blocks_total s) h b succ m 1) as (h' & cur' & b' & -> & Hr);
    [done|done|by left|lia|].
  cbn [mbind option_bind]. destruct (chain_facts (li_chain HI) _ _ Hm) as (_ & Ha & _).
  assert (match b' with
          | State sb => state_account sb
          | _ => if cur' =? 0 then frontier_get s h'
                 else match block_info_get s cur' with Some i => bi_account i | None => 0 end
          end = ci_account m) as ->.
  { unfold frontier_get, block_info_get. destruct b'; try done;
      (case_match; [by rewrite Hr|destruct Hr as (i & -> & ?); done]). }
  by rewrite (proj2 (Z.eqb_neq _ _) Ha).
Qed.

(** ** Sends and receives *)

(** The stored block [b] is a send. *)
Definition sends (b : block) : Prop :=
  match b with Send _ => True | State b => is_send s b = Some true | _ => False end.

Lemma is_send_of h b : C !! h = Some (State b) ->
  is_send s b = Some (match send_of C G h with Some _ => true | None => false end).
Proof.
  intros Hb. pose proof Hb as [succ Hs]%contents_Some. destruct (stored_facts _ _ _ Hs) as (m & Hm & Hok).
  unfold is_send, send_of. rewrite Hb. destruct (Z.eqb_spec (state_previous b) 0) as [E|E]; [done|].
  cbn [negb]. destruct (block_ok_follows _ _ _ _ Hok E) as (p & _ & Hp & _). cbn [previous] in Hp.
  rewrite (balance_of _ _ Hp), Hp. cbn. by destruct (state_balance b <? ci_balance p).
Qed.

Lemma sends_of h b : C !! h = Some b -> sends b <-> is_Some (send_of C G h).
Proof.
  intros Hb. pose proof Hb as [succ Hs]%contents_Some. destruct (stored_facts _ _ _ Hs) as (m & Hm & Hok).
  destruct b as [b| | | |b]; cbn [sends].
  - destruct Hok as (p & (_ & Hp & _) & _). unfold send_of. rewrite Hb, Hp. cbn. split; eauto.
  - unfold send_of. rewrite Hb. split; [done|by intros []].
  - unfold send_of. rewrite Hb. split; [done|by intros []].
  - unfold send_of. rewrite Hb. split; [done|by intros []].
  - rewrite (is_send_of _ _ Hb). destruct (send_of C G h); split; [by eauto|done|done|by intros [? ?]].
Qed.

Lemma block_destination_of h b d y : C !! h = Some b -> send_of C G h = Some (d, y) ->
  block_destination s b = Some d.
Proof.
  intros Hb Hs. destruct b as [b| | | |b]; unfold send_of in Hs; rewrite Hb in Hs; try done.
  - apply bind_Some in Hs as (p & _ & Hs). cbn. by simplify_eq.
  - cbn [block_destination]. rewrite (is_send_of _ _ Hb). unfold send_of. rewrite Hb, Hs. cbn.
    case_match; [done|]. apply bind_Some in Hs as (p & _ & Hs). case_match; by simplify_eq.
Qed.

Lemma source_block_source h b x : C !! h = Some b -> source_of C G h = Some x -> block_source s b = Some x.
Proof.
  intros Hb Hx. destruct b as [b|b|b|b|b]; try (unfold source_of in Hx; rewrite Hb in Hx; done).
  - unfold source_of in Hx. rewrite Hb in Hx. case_match; [done|]. by simplify_eq.
  - cbn [block_source]. rewrite (is_send_of _ _ Hb). destruct (send_of C G h) as [r|] eqn:Hs.
    { by rewrite (send_not_source _ _ _ _ Hs) in Hx. }
    unfold source_of in Hx. rewrite Hb in Hx. cbn. repeat case_match; simplify_eq; try done.
    apply bind_Some in Hx as (p & _ & Hx). case_match; by simplify_eq.
Qed.

Lemma block_source_source h b x : C !! h = Some b -> block_source s b = Some x -> is_Some (C !! x) ->
  source_of C G h = Some x.
Proof.
  intros Hb Hx [xb [xs Hxs]%contents_Some].
  destruct (chain_hash (li_chain HI) _ _ _ Hxs) as [_ (H0 & _ & Hg)].
  pose proof Hb as [succ Hs]%contents_Some. destruct (stored_facts _ _ _ Hs) as (m & Hm & Hok).
  destruct b as [b|b|b|b|b]; cbn [block_source source] in Hx.
  - by simplify_eq.
  - unfold source_of. by rewrite Hb.
  - unfold source_of. rewrite Hb. simplify_eq. by rewrite (proj2 (Z.eqb_neq _ _) Hg).
  - by simplify_eq.
  - rewrite (is_send_of _ _ Hb) in Hx. destruct (send_of C G h) as [r|] eqn:Hsd; cbn in Hx; simplify_eq.
    unfold source_of. unfold send_of in Hsd. rewrite Hb in Hsd |- *.
    rewrite (proj2 (Z.eqb_neq _ _) H0). destruct (Z.eqb_spec (state_previous b) 0) as [E|E]; [done|].
    destruct (block_ok_follows _ _ _ _ Hok E) as (p & _ & Hp & _). cbn [previous] in Hp.
    rewrite Hp in Hsd |- *. cbn in Hsd |- *. by case_match.
Qed.
End queries.

(** * Segments: parts of a chain

    The blocks from one block of a chain down to another, as a list. On a consistent ledger
    there is one from the head of an account to each of its blocks, and one from each block
    to the beginning of its chain. *)

(** [l] are the blocks from [h] down to, and without, [e]. *)
Fixpoint segment (s : store) (h : Z) (l : list block) (e : Z) : Prop :=
  match l with
  | [] => h = e
  | b :: l => block_get s h = Some b /\ segment s (previous b) l e
  end.

Section segments.
Context `{E0 : Env} `{T0 : Traffic} (K : Z) (D : Z -> Z) (G : gmap Z chain_info) (s : store).
Context (HI : ledger_inv K D G s).

Lemma get_facts h b : block_get s h = Some b ->
  hash b = h /\ h <> 0 /\ admitted b /\ exists m, G !! h = Some m
    /\ (previous b = 0 \/ exists p, follows G (previous b) p m).
Proof.
  rewrite (block_get_of _ _ _ _ HI). intros [succ Hb]%contents_Some.
  destruct (chain_hash (li_chain HI) _ _ _ Hb) as [Hh [H0 _]]. destruct (stored_facts _ _ _ _ HI _ _ _ Hb) as (m & Hm & Hok).
  split_and!; [done|done|by eapply (li_admitted HI)|]. exists m. split; [done|].
  destruct (decide (previous b = 0)); [by left|right]. by eapply block_ok_follows.
Qed.

Lemma facts_get h m : G !! h = Some m -> exists b, block_get s h = Some b.
Proof.
  intros Hm. destruct (facts_stored _ _ _ _ HI _ _ Hm) as (b & succ & Hb & _). exists b.
  by rewrite (block_get_of _ _ _ _ HI), contents_lookup, Hb.
Qed.

Lemma get_zero : block_get s 0 = None.
Proof. destruct (block_get s 0) as [b|] eqn:E; [|done]. by destruct (get_facts _ _ E) as (_ & ? & _). Qed.

Lemma no_facts_zero : G !! 0 = None.
Proof. destruct (G !! 0) as [m|] eqn:E; [|done]. destruct (facts_get _ _ E) as [b Hb]. by rewrite get_zero in Hb. Qed.

Lemma segment_zero l e : segment s 0 l e -> l = [] /\ e = 0.
Proof. destruct l as [|b l]; [done|]. intros [Hb _]. by rewrite get_zero in Hb. Qed.

(** Ranks fall along a segment. *)
Lemma segment_rank l : forall h e m, segment s h l e -> G !! h = Some m ->
  (length l <= S (rk G m))%nat
  /\ forall me, G !! e = Some me -> ci_account me = ci_account m /\ (length l + ci_rank me <= ci_rank m)%nat.
Proof.
  induction l as [|b l IH]; intros h e m Hs Hm.
  { cbn in Hs. subst. split; [cbn; lia|]. intros me Hme. simplify_eq. split; [done|cbn; lia]. }
  destruct Hs as [Hb Hs]. destruct (get_facts _ _ Hb) as (_ & _ & _ & m' & Hm' & Hp). simplify_eq.
  destruct Hp as [Hp|(p & _ & Hp & Ha & _ & Hr)].
  - rewrite Hp in Hs. apply segment_zero in Hs as [-> ->]. split; [cbn; lia|]. intros me Hme.
    by rewrite no_facts_zero in Hme.
  - destruct (IH _ _ _ Hs Hp) as [Hl He]. pose proof (rk_lt G _ _ _ Hp Hr). split; [cbn; lia|].
    intros me Hme. destruct (He _ Hme) as [-> ?]. split; [done|cbn; lia].
Qed.

(** A segment does not meet its end before it. *)
Lemma segment_fresh l : forall h e, segment s h l e -> Forall (fun b => hash b <> e) l.
Proof.
  induction l as [|b l IH]; intros h e Hs; [constructor|]. constructor; [|by eapply IH, Hs].
  pose proof Hs as [Hb _]. destruct (get_facts _ _ Hb) as (Hh & _ & _ & m & Hm & _). rewrite Hh. intros ->.
  destruct (segment_rank _ _ _ _ Hs Hm) as [_ He]. destruct (He _ Hm) as [_ Hr]. cbn in Hr. lia.
Qed.

(** The chain below a block, and the chain from the head of its account to it. *)
Lemma segment_open h m : G !! h = Some m -> exists l, segment s h l 0.
Proof.
  remember (ci_rank m) as n eqn:Hn. revert h m Hn. induction n as [n IH] using lt_wf_ind. intros h m Hn Hm.
  destruct (facts_get _ _ Hm) as [b Hb]. destruct (get_facts _ _ Hb) as (_ & _ & _ & m' & Hm' & Hp). simplify_eq.
  destruct Hp as [Hp|(p & _ & Hp & _ & _ & Hr)]; [by exists [b]|].
  destruct (IH (ci_rank p)) with (h := previous b) (m := p) as [l Hl]; [done..|]. by exists (b :: l).
Qed.

Lemma segment_snoc l : forall h e b, segment s h l e -> block_get s e = Some b -> segment s h (l ++ [b]) (previous b).
Proof. induction l as [|x l IH]; intros h e b Hs Hb; [by cbn in *; subst|]. destruct Hs as [Hx Hs]. split; [done|by eapply IH]. Qed.

Lemma segment_head e m i : G !! e = Some m -> accounts s !! ci_account m = Some i -> exists l, segment s (ai_head i) l e.
Proof.
  remember (blocks_total s - rk G m)%nat as n eqn:Hn. revert e m Hn.
  induction n as [n IH] using lt_wf_ind. intros e m Hn Hm Hi.
  destruct (facts_stored _ _ _ _ HI _ _ Hm) as (b & succ & Hb & _ & _). destruct (decide (succ = 0)) as [->|Hs].
  - destruct (li_tip HI _ _ _ Hb Hm) as (j & Hj & Hh). simplify_eq. by exists [].
  - destruct (successor_facts _ _ _ _ HI _ _ _ _ Hb Hm Hs) as (sb & ss & sm & Hsb & Hsm & Hp & _ & _ & Ha & _ & Hr).
    pose proof (rk_lt G _ _ _ Hm Hr). pose proof (rk_total s G (li_chain HI) _ _ Hsm).
    destruct (IH (blocks_total s - rk G sm)%nat) with (e := succ) (m := sm) as [l Hl]; [lia|done|done|congruence|].
    exists (l ++ [sb]). rewrite <- Hp. eapply segment_snoc; [done|]. by rewrite (block_get_of _ _ _ _ HI), contents_lookup, Hsb.
Qed.

Lemma segment_admitted l : forall h e, segment s h l e -> Forall admitted l.
Proof.
  induction l as [|b l IH]; intros h e Hs; [constructor|]. destruct Hs as [Hb Hs]. constructor; [|by eapply IH].
  by destruct (get_facts _ _ Hb) as (_ & _ & ? & _).
Qed.

(** Heights count the blocks of a segment. *)
Lemma segment_height l : forall h e m, segment s h l e -> G !! h = Some m ->
  ci_height m = (length l + from_option ci_height 0 (G !! e))%nat.
Proof.
  induction l as [|b l IH]; intros h e m Hs Hm; [cbn in Hs; subst; by rewrite Hm|]. destruct Hs as [Hb Hs].
  destruct (get_facts _ _ Hb) as (_ & _ & _ & m' & Hm' & Hp). simplify_eq. cbn [length].
  destruct Hp as [Hp|(p & _ & Hp & _ & Hh & _)]; [|by rewrite Hh, (IH _ _ _ Hs Hp)].
  rewrite Hp in Hs. apply segment_zero in Hs as [-> ->]. rewrite (block_get_of _ _ _ _ HI) in Hb. apply contents_Some in Hb as [succ Hb].
  destruct (stored_facts _ _ _ _ HI _ _ _ Hb) as (m' & Hm' & Hok). simplify_eq.
  rewrite no_facts_zero. destruct b; cbn in Hp, Hok |- *; unfold follows in Hok; naive_solver.
Qed.

(** The chain from a block down to the first block of its account. *)
Lemma segment_first h m i : G !! h = Some m -> accounts s !! ci_account m = Some i -> exists l, segment s h l (ai_open_block i).
Proof.
  remember (ci_rank m) as n eqn:Hn. revert h m Hn. induction n as [n IH] using lt_wf_ind. intros h m Hn Hm Hi.
  destruct (facts_get _ _ Hm) as [b Hb]. destruct (get_facts _ _ Hb) as (_ & _ & _ & m' & Hm' & Hp). simplify_eq.
  destruct Hp as [Hp|(p & _ & Hp & Ha & _ & Hr)].
  - exists []. cbn. rewrite (block_get_of _ _ _ _ HI) in Hb. apply contents_Some in Hb as [succ Hb]. symmetry. by eapply (li_open HI).
  - destruct (IH (ci_rank p)) with (h := previous b) (m := p) as [l Hl]; [done..|congruence|]. by exists (b :: l).
Qed.
End segments.

(** The last block of a segment. *)
Lemma segment_last s l : forall h b e, segment s h (l ++ [b]) e -> exists x, segment s h l x /\ block_get s x = Some b /\ previous b = e.
Proof.
  induction l as [|a l IH]; intros h b e Hs; [destruct Hs as [Hb He]; by exists h|].
  destruct Hs as [Ha Hs]. destruct (IH _ _ _ Hs) as (x & Hx & ?). by exists x.
Qed.

(** Two ways down from one block: one end is on the other way, or below its end. *)
Lemma segment_meet s l : forall x e h l', segment s x l e -> segment s x l' h ->
  (exists b, b ∈ l /\ block_get s h = Some b) \/ exists l'', segment s e l'' h.
Proof.
  induction l as [|b l IH]; intros x e h l' He Hh; [cbn in He; subst; eauto|].
  destruct He as [Hb He]. destruct l' as [|b' l']; [cbn in Hh; subst; left; exists b; split; [by left|done]|].
  destruct Hh as [Hb' Hh]. assert (b' = b) as -> by congruence.
  destruct (IH _ _ _ _ He Hh) as [(c & Hc & Hg)|?]; [left; exists c; split; [by right|done]|by right].
Qed.
