(* ===== verification/Process.v ===== *)
(** * Process: [ledger::process] on a consistent ledger

    On a ledger that satisfies the invariant no assertion of [ledger_processor] fails;
    a block that is turned away leaves the store as it was, and an accepted one is a
    valid next block with the matching table updates. *)

From stdpp Require Import base list option tactics gmap.
From Stdlib Require Import ZArith Lia.
From S2P Require Import Prelude Blocks Common Stats Store Tables Visitors Ledger Chain Balance.
From S2P Require Import LedgerInv.
#[local] Open Scope Z_scope.

Section process.
Context `{E0 : Env} `{T0 : Traffic}.
Implicit Types (K : Z) (D : Z -> Z) (G : gmap Z chain_info) (s : store) (l : ledger).

(** What is known about a digest with block information: nothing yet, or the state
    block that had it before. *)
Definition info_ok s (b : block) : Prop :=
  forall i, blocks_info s !! hash b = Some i ->
    match b with
    | State b => bi_account i = state_account b /\ bi_balance i = state_balance b
    | _ => False
    end.

(** The block is turned away, or it is valid and its updates are made. *)
Definition outcome G (b : block) l l' (r : process_return) : Prop :=
  pr_code r <> progress /\ l_store l' = l_store l
  \/ pr_code r = progress /\ exists m, valid_step G (l_store l) b m
       /\ applied G (l_store l) b m (l_store l').

(** ** The operations that [process] composes *)

Lemma try_Some f l s : f (l_store l) = Some s -> try f l = Some (set_store s l).
Proof. unfold try. by intros ->. Qed.

Lemma on_tables_Some f s t : f (tables s) = Some t -> on_tables f s = Some (set_tables t s).
Proof. unfold on_tables. by intros ->. Qed.

Lemma rank_bound G : exists n, forall h m, G !! h = Some m -> (ci_rank m < n)%nat.
Proof.
  induction G as [|h m G Hh [n IH]] using map_ind.
  - exists O. intros h m Hm. by rewrite lookup_empty in Hm.
  - exists (S (n + ci_rank m)). intros k km [[<- <-]|[_ Hk]]%lookup_insert_Some; [lia|].
    apply IH in Hk. lia.
Qed.

Definition rep_added s (src x : Z) (R : gmap Z Z) : Prop :=
  forall r, default 0 (R !! r)
    = wrap 128 (representation_get s r + if rep_of (contents (blocks s)) src =? r then x else 0).

Lemma representation_add_spec s src x :
  tables_ok s -> (forall r, in_width 128 (representation_get s r)) ->
  is_Some (contents (blocks s) !! src) ->
  exists R, representation_add src x s = Some (set_representation R s) /\ rep_added s src x R.
Proof.
  intros Hok Hw [b Hb]. unfold representation_add. rewrite block_get_blocks by done.
  pose proof Hb as Hb'. rewrite contents_lookup in Hb'. rewrite Hb'. cbn.
  eexists. split; [done|]. intros r. unfold rep_of. rewrite Hb. unfold representation_get.
  destruct (Z.eqb_spec (representative b) r) as [->|Hne].
  - by rewrite lookup_insert_eq.
  - rewrite lookup_insert_ne, Z.add_0_r by done. symmetry. apply wrap_small, Hw.
Qed.

Lemma rep_added_width s src x R r : rep_added s src x R -> in_width 128 (default 0 (R !! r)).
Proof. intros ->. by apply wrap_in_width. Qed.

(** The tables after a head has moved to [h]. *)
Definition head_moved (a : Z) (i : account_info) (c : Z) (with_info : bool) s : store :=
  Store (frontiers s) (<[a := i]> (accounts s)) (tables s) (pending s)
    (if with_info then <[ai_head i := BlockInfo a (ai_balance i)]> (blocks_info s) else blocks_info s)
    (representation s) (<[0 := c]> (checksums s)) (meta s).

Lemma checksum_update_spec s c h :
  checksums s !! 0 = Some c ->
  checksum_update h s = Some (set_checksums (<[0 := Z.lxor c h]> (checksums s)) s).
Proof. intros Hc. unfold checksum_update, checksum_get, checksum_put.
  change (checksum_key 0 0) with 0. cbn. by rewrite Hc. Qed.

Lemma change_latest_existing l a h rep bal count is_state info c :
  account_get (l_store l) a = Some info -> checksums (l_store l) !! 0 = Some c -> h <> 0 ->
  change_latest a h rep bal count is_state l =
  Some (upd (head_moved a
               (AccountInfo h rep (ai_open_block info) bal (seconds_since_epoch (l_clock l)) count)
               (Z.lxor (Z.lxor c (ai_head info)) h)
               ((count mod block_info_max =? 0) && negb is_state)) (tick l)).
Proof.
  intros Ha Hc Hh. unfold change_latest. rewrite Ha. unfold try.
  rewrite (checksum_update_spec _ _ _ Hc). cbn [mbind option_bind].
  rewrite (proj2 (Z.eqb_neq _ _) Hh). cbn [negb].
  destruct (_ && _); cbn; rewrite (checksum_update_spec _ (Z.lxor c (ai_head info)))
    by apply lookup_insert_eq; cbn; unfold upd, head_moved, account_put, block_info_put, set_checksums,
    set_accounts, set_blocks_info, set_store; cbn; by rewrite insert_insert_eq.
Qed.

Lemma change_latest_new l a h rep bal count is_state b c :
  account_get (l_store l) a = None -> checksums (l_store l) !! 0 = Some c -> h <> 0 ->
  block_get (l_store l) h = Some b -> previous b = 0 ->
  change_latest a h rep bal count is_state l =
  Some (upd (head_moved a
               (AccountInfo h rep h bal (seconds_since_epoch (l_clock l)) count)
               (Z.lxor c h)
               ((count mod block_info_max =? 0) && negb is_state)) (tick l)).
Proof.
  intros Ha Hc Hh Hb Hp. unfold change_latest. rewrite Ha, Hb. cbn [mbind option_bind].
  rewrite Hp. cbn [mbind option_bind assert Z.eqb]. rewrite (proj2 (Z.eqb_neq _ _) Hh). cbn [negb].
  destruct (_ && _); unfold try; cbn; rewrite (checksum_update_spec _ c) by done; done.
Qed.

(** ** Facts on a consistent ledger *)

Section facts.
Context K D G s (HI : ledger_inv K D G s).
Local Abbreviation C := (contents (blocks s)).

Lemma head_facts a i : accounts s !! a = Some i ->
  exists pb p, blocks s !! ai_head i = Some (pb, 0) /\ G !! ai_head i = Some p /\ head_ok a i p
    /\ a <> 0 /\ ai_head i <> 0 /\ in_width 128 (ai_balance i)
    /\ is_Some (C !! ai_rep_block i) /\ ai_rep_block i <> 0.
Proof.
  intros (pb & p & Hs & Hp & Hok)%(li_head HI). exists pb, p.
  destruct (chain_facts (li_chain HI) _ _ Hp) as (Hw & Ha & _ & rb & Hrb & _).
  destruct (chain_hash (li_chain HI) _ _ _ Hs) as [_ [? _]].
  pose proof Hok as (<- & Hb & Hr & _). rewrite Hb, Hr.
  pose proof Hrb as [rs Hrs]%contents_Some.
  destruct (chain_hash (li_chain HI) _ _ _ Hrs) as [_ [? _]]. rewrite Hrb. by eauto 10.
Qed.

Lemma frontier_facts h a : frontiers s !! h = Some a ->
  exists i, accounts s !! a = Some i /\ ai_head i = h /\ legacy C h.
Proof. apply (li_frontiers HI). Qed.

Lemma frontier_get_facts h : frontier_get s h <> 0 ->
  frontiers s !! h = Some (frontier_get s h) /\
  exists i, accounts s !! frontier_get s h = Some i /\ ai_head i = h /\ legacy C h.
Proof.
  unfold frontier_get. destruct (frontiers s !! h) as [a|] eqn:E; [|done]. cbn.
  eauto using frontier_facts.
Qed.

Lemma pending_facts a x p : pending s !! PendingKey a x = Some p ->
  send_of C G x = Some (a, pi_amount p) /\ is_Some (accounts s !! pi_source p)
  /\ exists q, G !! x = Some q.
Proof.
  intros (Hs & q & Hq & <-)%(li_pending HI). split; [done|].
  split; [by eapply li_owner|by eauto].
Qed.

Lemma frontier_stored h a : frontiers s !! h = Some a -> is_Some (blocks s !! h) /\ h <> 0.
Proof.
  intros (i & Hi & <- & _)%frontier_facts.
  destruct (head_facts _ _ Hi) as (pb & p & -> & _ & _ & _ & ? & _). done.
Qed.

(** The frontier moves from [prev] to a new block. *)
Lemma frontier_moved b prev a h a' : previous b = prev -> blocks s !! hash b = None ->
  <[hash b := a]> (delete prev (frontiers s)) !! h = Some a' <->
  h = hash b /\ a' = a /\ true = true
  \/ h <> hash b /\ h <> previous b /\ frontiers s !! h = Some a'.
Proof.
  intros -> Hnew. rewrite lookup_insert_Some, lookup_delete_Some. naive_solver.
Qed.
End facts.

Lemma count_next n : wrap 64 (wrap 64 (Z.of_nat n) + 1) = wrap 64 (Z.of_nat (S n)).
Proof. rewrite wrap_add_l. f_equal. lia. Qed.

Lemma count_info n : wrap 64 n mod block_info_max = n mod block_info_max.
Proof.
  apply Z.mod_mod_divide. by exists (2 ^ 59).
Qed.

(** A new block takes its place in the tables. *)
Lemma block_put_new s b :
  tables_ok s -> appendable (blocks s) b ->
  match b with Open _ => True | State sb => True | _ => previous b <> 0 end ->
  exists t, block_put (hash b) b 0 s = Some t /\ tables_ok t /\ blocks t = append b (blocks s).
Proof.
  intros Hok Happ Hp. apply block_put_blocks; [done| |].
  - by rewrite (app_new Happ).
  - destruct (app_previous Happ) as [H0|[pb Hpb]], b; cbn in *; try done; eauto;
      rewrite Hpb; eauto.
Qed.

Lemma info_ok_step G s b m : info_ok s b -> block_ok (contents (blocks s)) G (hash b) b m ->
  forall i, blocks_info s !! hash b = Some i ->
    bi_account i = ci_account m /\ bi_balance i = ci_balance m /\ is_legacy b = false.
Proof.
  intros Hinfo Hok i Hi. pose proof (Hinfo i Hi) as Hb. destruct b; try done.
  cbn in Hok. destruct Hok as (-> & _ & -> & _). naive_solver.
Qed.

(** The balance visitor on the store that has the new block. *)
Lemma balance_after_put K D G s b m t h p :
  ledger_inv K D G s -> valid_step G s b m -> tables_ok t -> blocks t = append b (blocks s) ->
  G !! h = Some p -> balance (set_tables t s) h = Some (ci_balance p).
Proof.
  intros HI HV Ht Htb Hp. apply (balance_facts _ (<[hash b := m]> G)); cbn.
  - done.
  - rewrite Htb. by eapply step_chain.
  - intros k i km Hk [[<- <-]|[_ Hm]]%lookup_insert_Some; [|by eapply li_info].
    by destruct (vs_info HV _ Hk) as (_ & ? & _).
  - eapply lookup_weaken, facts_grow; done.
Qed.

(** ** A block of an account that exists *)

Section existing.
Context K D G s (b : block) (a : Z) (i : account_info) (p : chain_info).
Context (HI : ledger_inv K D G s) (Hi : accounts s !! a = Some i).
Context (Hp : G !! ai_head i = Some p) (Hprev : previous b = ai_head i).
Context (Hnew : blocks s !! hash b = None) (Hh : hash_ok (hash b)) (Hinfo : info_ok s b) (Hadm : admitted b).
Local Abbreviation C := (contents (blocks s)).

Lemma existing_head : head_ok a i p.
Proof. destruct (li_head HI _ _ Hi) as (? & ? & _ & Hp' & ?). by simplify_eq. Qed.

Lemma existing_appendable : appendable (blocks s) b.
Proof.
  split; [done..|]. right. rewrite Hprev.
  destruct (li_head HI _ _ Hi) as (pb & ? & ? & _). eauto.
Qed.

Lemma existing_follows bal rep n : (ci_rank p < n)%nat ->
  follows G (previous b) p (ChainInfo a bal (S (ci_height p)) rep n).
Proof.
  intros Hn. destruct (head_facts _ _ _ _ HI _ _ Hi) as (? & ? & _ & _ & _ & _ & ? & _).
  destruct existing_head as (<- & _). rewrite Hprev. done.
Qed.

Lemma existing_valid m : ci_account m = a ->
  (forall k km, G !! k = Some km -> (ci_rank km < ci_rank m)%nat) -> block_ok C G (hash b) b m ->
  in_width 128 (ci_balance m) ->
  (forall x, source_of (<[hash b := b]> C) G (hash b) = Some x -> is_Some (pending s !! PendingKey a x)) ->
  valid_step G s b m.
Proof.
  intros Ha Hrk Hok Hw Hsrc. destruct (head_facts _ _ _ _ HI _ _ Hi) as (? & ? & _ & _ & _ & ? & ? & _).
  split; rewrite ?Ha; try done; [by apply existing_appendable|by rewrite Hi| |].
  - destruct b; try done.
  - rewrite <- Ha. by eapply info_ok_step.
Qed.

Lemma rep_of_kept k : is_Some (C !! k) -> rep_of (<[hash b := b]> C) k = rep_of C k.
Proof.
  intros [kb Hk]. unfold rep_of. rewrite lookup_insert_ne; [done|]. intros E. rewrite <- E in Hk.
  apply contents_Some in Hk as [? ?]. congruence.
Qed.

Lemma weight_delta_same m r : ci_account m = a -> ci_rep m = ai_rep_block i ->
  weight_delta s b m r
  = if rep_of C (ai_rep_block i) =? r then ci_balance m - ai_balance i else 0.
Proof.
  intros Ha Hr. unfold weight_delta. rewrite Ha, Hr, Hi.
  destruct (head_facts _ _ _ _ HI _ _ Hi) as (_ & _ & _ & _ & _ & _ & _ & _ & Hrb & _).
  rewrite (rep_of_kept _ Hrb). case_match; lia.
Qed.

Lemma existing_applied bal rep n F t P R tm mt :
  let m := ChainInfo a bal (S (ci_height p)) rep n in
  tables_ok t -> blocks t = append b (blocks s) ->
  (forall h a', F !! h = Some a' <->
    h = hash b /\ a' = a /\ is_legacy b = true
    \/ h <> hash b /\ h <> previous b /\ frontiers s !! h = Some a') ->
  P = pending_after G s b m ->
  (forall r, default 0 (R !! r) = wrap 128 (representation_get s r + weight_delta s b m r)) ->
  applied G s b m
    (Store F
       (<[a := AccountInfo (hash b) rep (ai_open_block i) bal tm (wrap 64 (ai_block_count i + 1))]>
          (accounts s)) t P
       (if (wrap 64 (ai_block_count i + 1) mod block_info_max =? 0) && is_legacy b
        then <[hash b := BlockInfo a bal]> (blocks_info s) else blocks_info s) R
       (<[0 := Z.lxor (Z.lxor (Z.lxor K (map_lxor (fun _ i => ai_head i) (accounts s))) (ai_head i)) (hash b)]>
          (checksums s)) mt).
Proof.
  intros m Ht Hb HF HP HR. destruct existing_head as (_ & _ & _ & Hc).
  rewrite Hc, count_next, count_info. split; try done; cbn.
  - exists tm. by rewrite Hi.
  - rewrite lookup_insert_eq, (li_checksum HI). unfold old_head. cbn. by rewrite Hi.
Qed.
End existing.

(** ** The first block of an account *)

Section opening.
Context K D G s (b : block) (a : Z).
Context (HI : ledger_inv K D G s) (Hi : accounts s !! a = None) (Ha : a <> 0) (Hprev : previous b = 0).
Context (Hnew : blocks s !! hash b = None) (Hh : hash_ok (hash b)) (Hinfo : info_ok s b) (Hadm : admitted b).
Local Abbreviation C := (contents (blocks s)).

Lemma opening_appendable : appendable (blocks s) b.
Proof. split; auto. Qed.

Lemma opening_valid m : ci_account m = a ->
  (forall k km, G !! k = Some km -> (ci_rank km < ci_rank m)%nat) -> block_ok C G (hash b) b m ->
  in_width 128 (ci_balance m) ->
  match b with Open b => open_source b <> genesis_account | _ => True end ->
  (forall x, source_of (<[hash b := b]> C) G (hash b) = Some x -> is_Some (pending s !! PendingKey a x)) ->
  valid_step G s b m.
Proof.
  intros Hm Hrk Hok Hw Hg Hsrc. split; rewrite ?Hm; try done; [apply opening_appendable|by rewrite Hi|].
  rewrite <- Hm. by eapply info_ok_step.
Qed.

Lemma opening_block_get t : tables_ok t -> blocks t = append b (blocks s) ->
  block_get t (hash b) = Some b.
Proof.
  intros Ht Htb. rewrite block_get_blocks, Htb, append_lookup by (done || apply opening_appendable).
  by rewrite decide_True.
Qed.

Lemma opening_frontiers h a' :
  <[hash b := a]> (frontiers s) !! h = Some a' <->
  h = hash b /\ a' = a /\ true = true \/ h <> hash b /\ h <> previous b /\ frontiers s !! h = Some a'.
Proof.
  rewrite lookup_insert_Some, Hprev. pose proof (frontier_stored _ _ _ _ HI) as Hf. naive_solver.
Qed.

Lemma opening_applied bal rep n F t P R tm mt :
  let m := ChainInfo a bal 1 rep n in
  tables_ok t -> blocks t = append b (blocks s) ->
  (forall h a', F !! h = Some a' <->
    h = hash b /\ a' = a /\ is_legacy b = true
    \/ h <> hash b /\ h <> previous b /\ frontiers s !! h = Some a') ->
  P = pending_after G s b m ->
  (forall r, default 0 (R !! r) = wrap 128 (representation_get s r + weight_delta s b m r)) ->
  applied G s b m
    (Store F (<[a := AccountInfo (hash b) rep (hash b) bal tm (wrap 64 (0 + 1))]> (accounts s)) t P
       (if (wrap 64 (0 + 1) mod block_info_max =? 0) && is_legacy b
        then <[hash b := BlockInfo a bal]> (blocks_info s) else blocks_info s) R
       (<[0 := Z.lxor (Z.lxor K (map_lxor (fun _ i => ai_head i) (accounts s))) (hash b)]> (checksums s)) mt).
Proof.
  intros m Ht Hb HF HP HR. split; try done; cbn.
  - exists tm. by rewrite Hi.
  - rewrite lookup_insert_eq, (li_checksum HI). unfold old_head. cbn [ci_account m].
    by rewrite Hi; cbn; rewrite Z.lxor_0_r.
Qed.
End opening.

End process.

(** Run the next [representation_add], [pending_del] or [frontier_del]. *)
Ltac add_weight R HR :=
  lazymatch goal with
  | |- context [try (representation_add ?x ?y) ?l] =>
    let E := fresh in
    destruct (representation_add_spec (l_store l) x y) as (R & E & HR);
    [..|rewrite (try_Some _ _ _ E); clear E; cbn [mbind option_bind]]
  end.
Ltac remove Hk :=
  erewrite try_Some by (unfold pending_del, frontier_del; cbn; by rewrite Hk); cbn [mbind option_bind].

(** ** Each type of block *)

Section process_blocks.
Context `{E0 : Env} `{T0 : Traffic}.
Implicit Types (K : Z) (D : Z -> Z) (G : gmap Z chain_info) (s : store) (l : ledger).

Ltac turn_away := eexists _, _; split; [reflexivity|left; by split].

Ltac put_block b t Ht Htb :=
  lazymatch goal with
  | |- context [try (on_tables (block_put _ b 0)) ?l] =>
    let E := fresh in
    destruct (block_put_new (l_store l) b) as (t & E & Ht & Htb);
    [..|erewrite try_Some by (by apply on_tables_Some); clear E; cbn [mbind option_bind]]
  end.
Ltac move_head HI Hh :=
  erewrite change_latest_existing; [|done|apply (li_checksum HI)|apply Hh];
  cbn [mbind option_bind].

Lemma process_send_ok K D G l b :
  ledger_inv K D G (l_store l) -> hash_ok (hash (Send b)) -> in_width 128 (send_balance b) ->
  info_ok (l_store l) (Send b) -> admitted (Send b) ->
  exists l' r, process_send b l = Some (l', r) /\ outcome G (Send b) l l' r.
Proof.
  intros HI Hh Hw Hinfo Hadm. unfold process_send. pose proof (li_tables HI) as HT.
  rewrite block_exists_blocks, block_get_blocks by done.
  destruct (blocks (l_store l) !! hash (Send b)) as [|] eqn:Hnew; [turn_away|].
  destruct (blocks (l_store l) !! send_previous b) as [[pb ps]|] eqn:Hpb; [cbn [fmap option_fmap option_map fst]|turn_away].
  destruct (valid_predecessor _ _); [cbn [negb]|turn_away].
  destruct (Z.eqb_spec (frontier_get (l_store l) (send_previous b)) 0) as [|Hfr]; [turn_away|].
  destruct (validate_message _ _ _); [turn_away|].
  destruct (frontier_get_facts _ _ _ _ HI _ Hfr) as (HF & i & Hi & Hhd & Hleg).
  set (a := frontier_get _ _) in *. unfold account_get. rewrite Hi. cbn [mbind option_bind].
  rewrite Hhd, Z.eqb_refl. cbn [assert mbind option_bind].
  destruct (Z.leb_spec (send_balance b) (ai_balance i)) as [Hle|]; [cbn [negb]|turn_away].
  destruct (head_facts _ _ _ _ HI _ _ Hi) as (_ & p & _ & Hp & Hok & Ha0 & Hne & Hbw & Hrep & _).
  add_weight R HR; [done|by eapply weights_width|done|].
  put_block (Send b) t Ht Htb; [done|by eapply (existing_appendable K D G (l_store l))|by cbn; congruence|].
  move_head HI Hh. remove HF. eexists _, _. split; [done|right]. split; [done|].
  destruct (rank_bound G) as [n Hn]. destruct Hok as (Hacc & Hbal & Hrb & Hcnt).
  exists (ChainInfo a (send_balance b) (S (ci_height p)) (ai_rep_block i) n). split.
  - eapply existing_valid; try done; [|by unfold source_of; rewrite lookup_insert_eq].
    exists p. split; [eapply (existing_follows _ _ _ _ (Send b)); eauto|]. cbn. rewrite <- Hhd in *.
    split_and!; try done. lia.
  - eapply (existing_applied K D G (l_store l) (Send b)); try done; cbn.
    + intros. by apply (frontier_moved _ (Send b)).
    + unfold pending_after, send_of. rewrite lookup_insert_eq, <- Hhd, Hp. cbn. repeat f_equal.
      rewrite <- Hbal. apply wrap_small. unfold in_width in *. lia.
    + intros r. rewrite HR, (weight_delta_same K D G) with (a := a) (i := i) by done. cbn.
      case_match; wrap_eq.
Qed.

Lemma process_receive_ok K D G l b :
  ledger_inv K D G (l_store l) -> hash_ok (hash (Receive b)) -> info_ok (l_store l) (Receive b) -> admitted (Receive b) ->
  exists l' r, process_receive b l = Some (l', r) /\ outcome G (Receive b) l l' r.
Proof.
  intros HI Hh Hinfo Hadm. unfold process_receive. pose proof (li_tables HI) as HT.
  rewrite !block_exists_blocks, block_get_blocks by done.
  destruct (blocks (l_store l) !! hash (Receive b)) as [|] eqn:Hnew; [turn_away|].
  destruct (blocks (l_store l) !! receive_previous b) as [[pb ps]|] eqn:Hpb;
    [cbn [fmap option_fmap option_map fst]|turn_away].
  destruct (valid_predecessor _ _); [cbn [negb]|turn_away].
  destruct (blocks (l_store l) !! receive_source b) as [v|]; [cbn [negb]|turn_away].
  destruct (Z.eqb_spec (frontier_get (l_store l) (receive_previous b)) 0) as [|Hfr]; [turn_away|].
  destruct (validate_message _ _ _); [turn_away|].
  destruct (frontier_get_facts _ _ _ _ HI _ Hfr) as (HF & i & Hi & Hhd & Hleg).
  set (a := frontier_get _ _) in *. unfold account_get. rewrite Hi. cbn [default from_option id].
  rewrite Hhd, Z.eqb_refl. cbn [negb]. unfold pending_get.
  destruct (pending (l_store l) !! PendingKey a (receive_source b)) as [pd|] eqn:Hpd; [|turn_away].
  destruct (pending_facts _ _ _ _ HI _ _ _ Hpd) as (Hsend & [si ->] & q & Hq). cbn [mbind option_bind].
  destruct (head_facts _ _ _ _ HI _ _ Hi) as (_ & p & _ & Hp & Hok & Ha0 & Hne & Hbw & Hrep & _).
  remove Hpd. put_block (Receive b) t Ht Htb;
    [done|by eapply (existing_appendable K D G (l_store l))|by cbn; congruence|].
  move_head HI Hh. add_weight R HR; cbn.
  { done. }
  { exact (weights_width _ _ _ _ HI). }
  { rewrite Htb, append_contents. apply lookup_insert_is_Some'. auto. }
  remove HF. eexists _, _. split; [done|right]. split; [done|].
  destruct (rank_bound G) as [n Hn]. destruct Hok as (Hacc & Hbal & Hrb & Hcnt).
  pose proof (receive_fits _ _ _ _ HI _ _ _ _ Hi Hpd) as Hw. rewrite (wrap_small _ _ Hw).
  exists (ChainInfo a (ai_balance i + pi_amount pd) (S (ci_height p)) (ai_rep_block i) n). split.
  - eapply existing_valid; try done.
    + exists p, (pi_amount pd). split; [eapply (existing_follows _ _ _ _ (Receive b)); eauto|].
      cbn. rewrite <- Hhd in *. split_and!; try done; [|lia]. split; [done|]. eauto.
    + unfold source_of. rewrite lookup_insert_eq. intros x [= <-]. eauto.
  - eapply (existing_applied K D G (l_store l) (Receive b)); try done; cbn.
    + intros. by apply (frontier_moved _ (Receive b)).
    + unfold pending_after, send_of, source_of. by rewrite lookup_insert_eq.
    + intros r. rewrite HR, (weight_delta_same K D G) with (a := a) (i := i) by done. cbn.
      rewrite Htb, append_contents, rep_of_kept by done. unfold representation_get; cbn. case_match; wrap_eq.
Qed.

Lemma process_change_ok K D G l b :
  ledger_inv K D G (l_store l) -> hash_ok (hash (Change b)) -> info_ok (l_store l) (Change b) -> admitted (Change b) ->
  exists l' r, process_change b l = Some (l', r) /\ outcome G (Change b) l l' r.
Proof.
  intros HI Hh Hinfo Hadm. unfold process_change. pose proof (li_tables HI) as HT.
  rewrite !block_exists_blocks, block_get_blocks by done.
  destruct (blocks (l_store l) !! hash (Change b)) as [|] eqn:Hnew; [turn_away|].
  destruct (blocks (l_store l) !! change_previous b) as [[pb ps]|] eqn:Hpb;
    [cbn [fmap option_fmap option_map fst]|turn_away].
  destruct (valid_predecessor _ _); [cbn [negb]|turn_away].
  destruct (Z.eqb_spec (frontier_get (l_store l) (change_previous b)) 0) as [|Hfr]; [turn_away|].
  destruct (frontier_get_facts _ _ _ _ HI _ Hfr) as (HF & i & Hi & Hhd & Hleg).
  set (a := frontier_get _ _) in *. unfold account_get. rewrite Hi. cbn [mbind option_bind].
  rewrite Hhd, Z.eqb_refl. cbn [assert mbind option_bind].
  destruct (validate_message _ _ _); [turn_away|].
  destruct (head_facts _ _ _ _ HI _ _ Hi) as (_ & p & _ & Hp & Hok & Ha0 & Hne & Hbw & Hrep & _).
  destruct (rank_bound G) as [n Hn]. destruct Hok as (Hacc & Hbal & Hrb & Hcnt).
  assert (valid_step G (l_store l) (Change b)
    (ChainInfo a (ai_balance i) (S (ci_height p)) (hash (Change b)) n)) as HV.
  { eapply existing_valid; try done; [|by unfold source_of; rewrite lookup_insert_eq].
    exists p. split; [eapply (existing_follows _ _ _ _ (Change b)); eauto|]. cbn. rewrite <- Hhd in *.
    by split_and!. }
  put_block (Change b) t Ht Htb; [done|apply HV|by cbn; congruence|]. rewrite Hhd in Hp.
  cbn [l_store set_store]. rewrite (balance_after_put _ _ _ _ _ _ _ _ _ HI HV Ht Htb Hp).
  cbn [mbind option_bind]. rewrite <- Hbal.
  add_weight R1 HR1; cbn.
  { done. }
  { exact (weights_width _ _ _ _ HI). }
  { by rewrite Htb, append_contents, lookup_insert_eq. }
  add_weight R2 HR2; cbn.
  { done. }
  { intros r. eapply rep_added_width, HR1. }
  { rewrite Htb, append_contents. apply lookup_insert_is_Some'. auto. }
  move_head HI Hh. remove HF. eexists _, _. split; [done|right]. split; [done|]. eexists. split; [exact HV|].
  eapply (existing_applied K D G (l_store l) (Change b)); try done; cbn; [by rewrite Hhd| | |].
  - intros. by apply (frontier_moved _ (Change b)).
  - unfold pending_after, send_of, source_of. by rewrite lookup_insert_eq.
  - intros r. rewrite HR2. unfold representation_get at 1. cbn. rewrite HR1. cbn.
    unfold weight_delta. cbn. rewrite Hi, Htb, append_contents, (rep_of_kept _ _ Hnew (ai_rep_block i)) by done.
    unfold representation_get. cbn. repeat case_match; wrap_eq.
Qed.

Lemma process_open_ok K D G l b :
  ledger_inv K D G (l_store l) -> hash_ok (hash (Open b)) -> info_ok (l_store l) (Open b) -> admitted (Open b) ->
  exists l' r, process_open b l = Some (l', r) /\ outcome G (Open b) l l' r.
Proof.
  intros HI Hh Hinfo Hadm. unfold process_open. pose proof (li_tables HI) as HT.
  rewrite !block_exists_blocks.
  destruct (blocks (l_store l) !! hash (Open b)) as [|] eqn:Hnew; [turn_away|].
  destruct (blocks (l_store l) !! open_source b) as [[sb ss]|] eqn:Hsb; [cbn [negb]|turn_away].
  destruct (validate_message _ _ _); [turn_away|].
  unfold account_get. destruct (accounts (l_store l) !! open_account b) as [|] eqn:Hi; [turn_away|].
  unfold pending_get.
  destruct (pending (l_store l) !! PendingKey _ _) as [pd|] eqn:Hpd; [|turn_away].
  destruct (Z.eqb_spec (open_account b) burn_account) as [|Ha0]; [turn_away|].
  destruct (pending_facts _ _ _ _ HI _ _ _ Hpd) as (Hsend & [si ->] & q & Hq). cbn [mbind option_bind].
  remove Hpd. put_block (Open b) t Ht Htb; [done|by apply opening_appendable|done|].
  erewrite change_latest_new;
    [|done|apply (li_checksum HI)|apply Hh|by eapply (opening_block_get (l_store l) (Open b))|done].
  cbn [mbind option_bind]. add_weight R HR; cbn.
  { done. }
  { exact (weights_width _ _ _ _ HI). }
  { by rewrite Htb, append_contents, lookup_insert_eq. }
  eexists _, _. split; [done|right]. split; [done|]. destruct (rank_bound G) as [n Hn].
  assert (open_source b <> genesis_account) as Hg.
  { destruct (chain_hash (li_chain HI) _ _ _ Hsb) as (_ & _ & _ & ?). done. }
  exists (ChainInfo (open_account b) (pi_amount pd) 1 (hash (Open b)) n). split.
  - eapply opening_valid; try done; cbn.
    + split_and!; try done. right. split; [done|]. split; [done|]. eauto.
    + by eapply amount_width.
    + unfold source_of. rewrite lookup_insert_eq, (proj2 (Z.eqb_neq _ _) Hg). intros x [= <-]. eauto.
  - eapply (opening_applied K D G (l_store l) (Open b)); try done; cbn.
    + by apply (opening_frontiers K D G _ (Open b)).
    + unfold pending_after, send_of, source_of.
      by rewrite lookup_insert_eq, (proj2 (Z.eqb_neq _ _) Hg).
    + intros r. rewrite HR. cbn. unfold weight_delta. cbn. rewrite Hi, Htb, append_contents.
      unfold representation_get; cbn. case_match; wrap_eq.
Qed.

(** ** State blocks *)

Section state.
Context K D G l (b : state_block).
Context (HI : ledger_inv K D G (l_store l)) (Hh : hash_ok (hash (State b))).
Context (Hw : in_width 128 (state_balance b)) (Hinfo : info_ok (l_store l) (State b)) (Hadm : admitted (State b)).
Context (Hnew : blocks (l_store l) !! hash (State b) = None) (Ha : state_account b <> 0).
Local Abbreviation s := (l_store l).
Local Abbreviation C := (contents (blocks (l_store l))).
Local Abbreviation h := (hash (State b)).
Local Abbreviation a := (state_account b).

(** What [state_link_check] accepts. *)
Lemma link_check_progress is_send am : state_link_check s b is_send am = progress ->
  is_send = true
  \/ is_send = false /\ state_link b <> 0
     /\ (exists pd, pending s !! PendingKey a (state_link b) = Some pd /\ am = pi_amount pd)
  \/ is_send = false /\ state_link b = 0 /\ am = 0.
Proof.
  unfold state_link_check, pending_get. destruct is_send; [by left|].
  destruct (Z.eqb_spec (state_link b) 0); cbn.
  - destruct (Z.eqb_spec am 0); [by auto|done].
  - destruct (block_exists _ _); [cbn|done].
    destruct (pending s !! PendingKey _ _) as [pd|]; [|done].
    destruct (Z.eqb_spec am (pi_amount pd)); [|done]. right; left. by eauto.
Qed.

Lemma link_receives am n : pending s !! PendingKey a (state_link b) = Some am ->
  (forall k m, G !! k = Some m -> (ci_rank m < n)%nat) ->
  forall m, ci_account m = a -> ci_rank m = n -> receives C G (state_link b) (pi_amount am) m.
Proof.
  intros Hpd Hn m Hm Hr. destruct (pending_facts _ _ _ _ HI _ _ _ Hpd) as (Hs & _ & q & Hq).
  unfold receives. rewrite Hm, Hr. eauto.
Qed.

(** The weights after the block. *)
Lemma state_weights_spec i l1 :
  tables_ok (l_store l1) -> blocks (l_store l1) = append (State b) (blocks s) ->
  representation (l_store l1) = representation s ->
  (accounts s !! a = Some i \/ accounts s !! a = None /\ i = account_info_default) ->
  forall m, ci_account m = a -> ci_rep m = h -> ci_balance m = state_balance b ->
  exists R, state_weights b i l1 = Some (upd (set_representation R) l1)
    /\ forall r, default 0 (R !! r) = wrap 128 (representation_get s r + weight_delta s (State b) m r).
Proof.
  intros Ht Htb Hrep Hi m Hm Hmr Hmb. unfold state_weights.
  assert (forall r, representation_get (l_store l1) r = representation_get s r) as Hg.
  { intros r. unfold representation_get. by rewrite Hrep. }
  assert (forall r, in_width 128 (representation_get (l_store l1) r)) as Hwd.
  { intros r. rewrite Hg. by eapply weights_width. }
  unfold weight_delta. rewrite Hm, Hmr, Hmb.
  destruct Hi as [Hi|[Hi ->]]; rewrite Hi.
  - destruct (head_facts _ _ _ _ HI _ _ Hi) as (_ & _ & _ & _ & _ & _ & _ & _ & Hrb & Hr0).
    rewrite (proj2 (Z.eqb_neq _ _) Hr0). cbn [negb].
    add_weight R1 HR1; [done|done|rewrite Htb, append_contents; apply lookup_insert_is_Some'; auto|].
    add_weight R2 HR2; cbn.
    { done. }
    { intros r. eapply rep_added_width, HR1. }
    { by rewrite Htb, append_contents, lookup_insert_eq. }
    eexists. split; [done|]. intros r. rewrite HR2. unfold representation_get at 1. cbn.
    rewrite HR1, Htb, append_contents, (rep_of_kept _ _ Hnew (ai_rep_block i)), Hg by done.
    repeat case_match; wrap_eq.
  - cbn [ai_rep_block account_info_default Z.eqb negb mbind option_bind].
    add_weight R1 HR1; [done|done|by rewrite Htb, append_contents, lookup_insert_eq|].
    eexists. split; [done|]. intros r. rewrite HR1, Htb, append_contents, Hg.
    case_match; wrap_eq.
Qed.

Lemma state_pending_spec is_send am m l1 :
  pending (l_store l1) = pending s -> ci_account m = a ->
  match send_of (<[h := State b]> C) G h, source_of (<[h := State b]> C) G h with
  | Some (d, x), _ => is_send = true /\ d = state_link b /\ x = am
  | None, Some x => is_send = false /\ x = state_link b /\ state_link b <> 0
                    /\ is_Some (pending s !! PendingKey a x)
  | None, None => is_send = false /\ state_link b = 0
  end ->
  exists l2, state_pending b is_send am l1 = Some l2 /\ l_clock l2 = l_clock l1
    /\ l_store l2 = set_pending (pending_after G s (State b) m) (l_store l1).
Proof.
  intros Hpend Hm Hcase. unfold state_pending, pending_after. rewrite Hm.
  destruct (send_of _ _ _) as [[d x]|]; [|destruct (source_of _ _ _) as [y|]].
  - destruct Hcase as (-> & -> & ->). eexists. split; [done|]. split; [done|]. cbn. unfold pending_put. by rewrite Hpend.
  - destruct Hcase as (-> & -> & Hl & [pd Hpd]). rewrite (proj2 (Z.eqb_neq _ _) Hl). cbn [negb].
    erewrite try_Some by (unfold pending_del; by rewrite Hpend, Hpd). cbn [mbind option_bind].
    eexists. split; [done|]. split; [done|]. done.
  - destruct Hcase as [-> ->]. eexists. split; [done|]. split; [done|]. rewrite <- Hpend.
    by destruct (l_store l1).
Qed.

(** Frontiers: the predecessor's entry goes, none is added. *)
Lemma state_frontier_spec i l1 :
  frontiers (l_store l1) = frontiers s -> previous (State b) = ai_head i ->
  exists F, state_frontier i l1 = Some (upd (set_frontiers F) l1)
    /\ forall k a', F !! k = Some a' <->
         k = h /\ a' = a /\ is_legacy (State b) = true
         \/ k <> h /\ k <> previous (State b) /\ frontiers s !! k = Some a'.
Proof.
  intros HF Hp. unfold state_frontier, frontier_get. rewrite HF, Hp.
  assert (forall k a', frontiers s !! k = Some a' -> k <> h /\ a' <> 0) as Hf.
  { intros k a' Hk. split.
    - intros ->. apply (frontier_stored _ _ _ _ HI) in Hk as [[? ?] _]. congruence.
    - apply (frontier_facts _ _ _ _ HI) in Hk as (j & Hj & _).
      by destruct (head_facts _ _ _ _ HI _ _ Hj) as (_ & _ & _ & _ & _ & ? & _). }
  unfold is_legacy. cbn [block_type_of legacy_predecessor].
  destruct (frontiers s !! ai_head i) as [fa|] eqn:Hfa; cbn [default from_option id].
  - destruct (Hf _ _ Hfa) as [_ Hne]. rewrite (proj2 (Z.eqb_neq _ _) Hne). cbn [negb].
    erewrite try_Some by (unfold frontier_del; by rewrite HF, Hfa).
    eexists. split; [done|]. intros k a'. rewrite lookup_delete_Some. naive_solver.
  - exists (frontiers s). split; [rewrite <- HF; by destruct l1 as [[] ? ? ? ? ?]|].
    intros k a'. split; [|naive_solver]. intros Hk. right. destruct (Hf _ _ Hk). split_and!; congruence.
Qed.

(** The block's place among the sends and receives. *)
Lemma state_apply_ok i is_send am m :
  (accounts s !! a = Some i \/ accounts s !! a = None /\ i = account_info_default) ->
  valid_step G s (State b) m -> previous (State b) = ai_head i ->
  ci_account m = a -> ci_rep m = h -> ci_balance m = state_balance b ->
  wrap 64 (ai_block_count i + 1) = wrap 64 (Z.of_nat (ci_height m)) ->
  match send_of (<[h := State b]> C) G h, source_of (<[h := State b]> C) G h with
  | Some (d, x), _ => is_send = true /\ d = state_link b /\ x = am
  | None, Some x => is_send = false /\ x = state_link b /\ state_link b <> 0
                    /\ is_Some (pending s !! PendingKey a x)
  | None, None => is_send = false /\ state_link b = 0
  end ->
  forall st, exists l', state_apply b is_send am i (set_stats st l) = Some l'
    /\ applied G s (State b) m (l_store l').
Proof.
  intros Hi HV Hp Hma Hmr Hmb Hcnt Hcase st. unfold state_apply. pose proof (li_tables HI) as HT.
  put_block (State b) t Ht Htb; [done|apply HV|done|].
  match goal with |- context [state_weights b i ?l1] =>
    destruct (state_weights_spec i l1) with (m := m) as (R & -> & HR); try done end.
  cbn [mbind option_bind].
  match goal with |- context [state_pending _ _ _ ?l1] =>
    destruct (state_pending_spec is_send am m l1) as (l2 & -> & Hck & Hs2); try done end.
  cbn [mbind option_bind].
  assert (exists tm l3, change_latest a h h (state_balance b) (wrap 64 (ai_block_count i + 1)) true l2
    = Some l3 /\ l_store l3 = head_moved a (AccountInfo h h
        match accounts s !! a with Some i => ai_open_block i | None => h end
        (state_balance b) tm (wrap 64 (ai_block_count i + 1)))
        (Z.lxor (Z.lxor (Z.lxor K (map_lxor (fun _ i => ai_head i) (accounts s))) (old_head s m)) h) false
        (l_store l2)) as (tm & l3 & -> & Hs3).
  { unfold old_head. rewrite Hma. destruct Hi as [Hi|[Hi ->]]; rewrite Hi.
    - erewrite change_latest_existing; rewrite ?Hs2; [|done|apply (li_checksum HI)|apply Hh].
      rewrite andb_false_r. eexists _, _. split; [done|]. cbn. by rewrite ?Hs2.
    - erewrite change_latest_new; rewrite ?Hs2;
        [|done|apply (li_checksum HI)|apply Hh|by eapply (opening_block_get s (State b))|done].
      rewrite andb_false_r, Z.lxor_0_r. eexists _, _. split; [done|]. cbn. by rewrite ?Hs2. }
  cbn [mbind option_bind].
  destruct (state_frontier_spec i l3) as (F & -> & HF); [by rewrite Hs3, Hs2|done|].
  eexists. split; [done|]. split; unfold representation_get; cbn; rewrite ?Hs3, ?Hs2; cbn; try done.
  - exists tm. by rewrite Hma, Hmr, Hmb, Hcnt.
  - by rewrite Hma.
  - by rewrite andb_false_r.
  - by rewrite lookup_insert_eq, (li_checksum HI).
Qed.

(** How the processor's reading of the block relates to the chain facts. *)
Definition link_case (is_send : bool) (am : Z) : Prop :=
  match send_of (<[h := State b]> C) G h, source_of (<[h := State b]> C) G h with
  | Some (d, x), _ => is_send = true /\ d = state_link b /\ x = am
  | None, Some x => is_send = false /\ x = state_link b /\ state_link b <> 0
                    /\ is_Some (pending s !! PendingKey a x)
  | None, None => is_send = false /\ state_link b = 0
  end.

Lemma link_case_source is_send am : link_case is_send am ->
  forall x, source_of (<[h := State b]> C) G h = Some x -> is_Some (pending s !! PendingKey a x).
Proof.
  unfold link_case. destruct (send_of _ _ _) as [[]|] eqn:Hs.
  - by rewrite (send_not_source _ _ _ _ Hs).
  - intros Hc x Hx. rewrite Hx in Hc. naive_solver.
Qed.

Lemma state_existing_case i p n is_send am :
  accounts s !! a = Some i -> G !! ai_head i = Some p -> state_previous b = ai_head i ->
  is_send = (state_balance b <? ai_balance i) ->
  am = (if is_send then wrap 128 (ai_balance i - state_balance b)
        else wrap 128 (state_balance b - ai_balance i)) ->
  state_link_check s b is_send am = progress ->
  (forall k m, G !! k = Some m -> (ci_rank m < n)%nat) ->
  link_case is_send am
  /\ block_ok C G h (State b) (ChainInfo a (state_balance b) (S (ci_height p)) h n).
Proof.
  intros Hi Hp Hprev Hsend Ham Hck Hn.
  destruct (head_facts _ _ _ _ HI _ _ Hi) as (_ & p' & _ & Hp' & Hok & _ & Hne & Hbw & _). simplify_eq.
  destruct Hok as (_ & Hbal & _ & _). apply link_check_progress in Hck.
  assert (follows G (state_previous b) p (ChainInfo a (state_balance b) (S (ci_height p)) h n)) as Hf.
  { eapply (existing_follows K D G s (State b)); eauto. }
  assert (state_previous b <> 0) as H0 by congruence. rewrite <- Hprev in Hp.
  unfold link_case, send_of, source_of. rewrite lookup_insert_eq, (proj2 (Z.eqb_neq _ _) H0), Hp.
  cbn [mbind option_bind block_ok]. rewrite <- Hbal. unfold in_width in *.
  destruct (Z.ltb_spec (state_balance b) (ai_balance i)).
  - split; [split_and!; try done; rewrite wrap_small; unfold in_width; lia|].
    split_and!; try done. right. exists p. split; [done|]. left. lia.
  - rewrite wrap_small in Hck by (unfold in_width; lia).
    destruct Hck as [?|[(_ & Hl & pd & Hpd & Ham)|(_ & -> & Ham)]]; [done| |].
    + rewrite (proj2 (Z.eqb_neq _ _) Hl). split; [by eauto|].
      split_and!; try done. right. exists p. split; [done|]. right. left. split; [done|].
      split; [lia|]. rewrite <- Hbal, Ham. by eapply link_receives.
    + split; [done|]. split_and!; try done. right. exists p. split; [done|]. right; right. split; [done|]. lia.
Qed.

Lemma state_opening_case n :
  accounts s !! a = None -> state_previous b = 0 -> state_link b <> 0 ->
  state_link_check s b false (state_balance b) = progress ->
  (forall k m, G !! k = Some m -> (ci_rank m < n)%nat) ->
  link_case false (state_balance b)
  /\ block_ok C G h (State b) (ChainInfo a (state_balance b) 1 h n).
Proof.
  intros Hi Hprev Hl [?|[(_ & _ & pd & Hpd & Ham)|(_ & ? & _)]]%link_check_progress Hn; [done| |done].
  unfold link_case, send_of, source_of.
  rewrite lookup_insert_eq, (proj2 (Z.eqb_neq _ _) Hl), (proj2 (Z.eqb_eq _ _) Hprev).
  split; [by eauto|]. split_and!; try done. left. split_and!; try done.
  cbn [ci_balance]. rewrite Ham. by eapply link_receives.
Qed.
End state.

Lemma process_state_ok K D G l b :
  ledger_inv K D G (l_store l) -> hash_ok (hash (State b)) -> in_width 128 (state_balance b) ->
  info_ok (l_store l) (State b) -> admitted (State b) ->
  exists l' r, process_state b l = Some (l', r) /\ outcome G (State b) l l' r.
Proof.
  intros HI Hh Hw Hinfo Hadm. unfold process_state. pose proof (li_tables HI) as HT.
  rewrite !block_exists_blocks.
  destruct (blocks (l_store l) !! hash (State b)) as [|] eqn:Hnew; [turn_away|].
  destruct (validate_message _ _ _); [turn_away|].
  destruct (Z.eqb_spec (state_account b) 0) as [|Ha0]; [turn_away|].
  unfold state_position, account_get. destruct (rank_bound G) as [n Hn].
  destruct (accounts (l_store l) !! state_account b) as [i|] eqn:Hi.
  - destruct (Z.eqb_spec (state_previous b) 0); [turn_away|].
    destruct (block_exists _ (state_previous b)); cbn [negb]; [|turn_away].
    destruct (Z.eqb_spec (state_previous b) (ai_head i)) as [Hp|]; [|turn_away].
    rewrite (decide_True (P := progress = progress)) by done.
    destruct (decide (state_link_check _ _ _ _ = progress)) as [Hck|Hck]; [|turn_away].
    destruct (head_facts _ _ _ _ HI _ _ Hi) as (_ & p & _ & Hp' & (_ & _ & _ & Hcnt) & _).
    edestruct (state_existing_case K D G l b HI Hw i p n) as [Hc Hbok]; try done.
    assert (valid_step G (l_store l) (State b)
      (ChainInfo (state_account b) (state_balance b) (S (ci_height p)) (hash (State b)) n)) as HV.
    { eapply (existing_valid K D G _ (State b)); try done. by eapply link_case_source. }
    edestruct (state_apply_ok K D G l b HI Hh Hnew Ha0 i) with (st := l_stats l) as (l' & Hl' & Happ);
      try done; [by left|by cbn; rewrite Hcnt, count_next|].
    replace (set_stats (l_stats l) l) with l in Hl' by (by destruct l). rewrite Hl'.
    eexists _, _. split; [done|]. right. by eauto.
  - cbn [previous]. destruct (Z.eqb_spec (state_previous b) 0); cbn [negb]; [|turn_away].
    destruct (Z.eqb_spec (state_link b) 0); cbn [negb]; [turn_away|].
    rewrite (decide_True (P := progress = progress)) by done.
    destruct (decide (state_link_check _ _ _ _ = progress)) as [Hck|Hck]; [|turn_away].
    edestruct (state_opening_case K D G l b HI n) as [Hc Hbok]; try done.
    assert (valid_step G (l_store l) (State b)
      (ChainInfo (state_account b) (state_balance b) 1 (hash (State b)) n)) as HV.
    { eapply (opening_valid G _ (State b)); try done. by eapply link_case_source. }
    unfold inc. edestruct (state_apply_ok K D G l b HI Hh Hnew Ha0 account_info_default) as (l' & Hl' & Happ);
      try done; [by right|].
    rewrite Hl'. eexists _, _. split; [done|]. right. by eauto.
Qed.

(** ** Any block *)

Context `{!TrafficLaws}.

Lemma process_old l b : block_exists (l_store l) (hash b) = true ->
  process b l = Some (l, reject old).
Proof.
  intros Hb. destruct b; cbn; unfold process_send, process_receive, process_open, process_change,
    process_state; by rewrite Hb.
Qed.

(** The digest of a block that is not stored has no block information, or that of
    the same state block. *)
Lemma admitted_info_ok K D G s b :
  ledger_inv K D G s -> admitted b -> blocks s !! hash b = None -> info_ok s b.
Proof.
  intros HI Hb Hnew i Hi. assert (G !! hash b = None) as Hg.
  { apply eq_None_not_Some. rewrite (chain_dom (li_chain HI)), Hnew. apply is_Some_None. }
  destruct (li_info_gone HI _ _ Hi Hg) as (sb & Hsb & Hh & -> & ->).
  pose proof (admitted_inj _ _ Hsb Hb Hh) as Heq.
  apply hash_input_hashables in Heq; [|by apply admitted_wf..].
  destruct b as [| | | |b]; cbn in Heq; try naive_solver. destruct Heq as [E|[]].
  unfold state_account, state_balance. by rewrite E.
Qed.

(** No assertion fails; the block is turned away or it is valid and is added. *)
Lemma process_ok K D G l b :
  ledger_inv K D G (l_store l) -> admitted b ->
  exists l' r, process b l = Some (l', r) /\ outcome G b l l' r.
Proof.
  intros HI Hb. destruct (blocks (l_store l) !! hash b) as [v|] eqn:Hv.
  { exists l, (reject old). split; [|by left]. apply process_old. by rewrite block_exists_blocks, Hv. }
  pose proof (admitted_info_ok _ _ _ _ _ HI Hb Hv) as Hinfo. pose proof (admitted_hash _ Hb) as Hh.
  pose proof (admitted_wf _ Hb) as Hw. destruct b; cbn [process] in *.
  - eapply process_send_ok; try done. apply Hw.
  - by eapply process_receive_ok.
  - by eapply process_open_ok.
  - by eapply process_change_ok.
  - eapply process_state_ok; try done. apply Hw.
Qed.

Lemma outcome_inv K D G l b l' r : ledger_inv K D G (l_store l) -> outcome G b l l' r ->
  exists G', G ⊆ G' /\ ledger_inv K D G' (l_store l').
Proof.
  intros HI [[_ ->]|(_ & m & HV & HA)]; [by exists G|].
  exists (<[hash b := m]> G). split; [by eapply facts_grow|by eapply apply_inv].
Qed.
End process_blocks.
