(* ===== verification/Accept.v ===== *)
(** * Accept: which blocks [ledger::process] accepts

    The rules of the ledger stated on accounts and pending amounts: a block is accepted
    exactly when it continues (or opens) a chain, is signed by the account and moves an
    amount the account has or can receive. The processor decides them with the
    frontier table and in an order of its own. *)

From stdpp Require Import base list option tactics gmap.
From Stdlib Require Import ZArith Lia.
From S2P Require Import Prelude Blocks Common Stats Store Tables Visitors Ledger Chain Balance.
From S2P Require Import LedgerInv Queries Process.
#[local] Open Scope Z_scope.

Section accept.
Context `{E0 : Env} `{T0 : Traffic}.

(** The chain of account [a] ends with the legacy block [h]. *)
Definition legacy_head (s : store) (a : Z) (i : account_info) (h : Z) : Prop :=
  account_get s a = Some i /\ ai_head i = h
  /\ exists b, block_get s h = Some b /\ block_type_of b <> bt_state.

(** The signature of [b] is that of account [a]. *)
Definition signed_by (a : Z) (b : block) : Prop :=
  validate_message a (hash b) (block_signature b) = false.

(** What the link of a state block is used for, when the balance was [old]. *)
Definition link_fits (s : store) (b : state_block) (old : Z) : Prop :=
  state_balance b < old
  \/ old <= state_balance b /\ state_link b <> 0
     /\ (exists p, pending_get s (PendingKey (state_account b) (state_link b)) = Some p
           /\ pi_amount p = state_balance b - old)
  \/ state_link b = 0 /\ state_balance b = old.

Definition rules (s : store) (b : block) : Prop :=
  match b with
  | Send sb => exists a i, legacy_head s a i (send_previous sb) /\ signed_by a b
      /\ send_balance sb <= ai_balance i
  | Receive rb => exists a i, legacy_head s a i (receive_previous rb) /\ signed_by a b
      /\ is_Some (pending_get s (PendingKey a (receive_source rb)))
  | Open ob => open_account ob <> burn_account /\ account_get s (open_account ob) = None
      /\ signed_by (open_account ob) b
      /\ is_Some (pending_get s (PendingKey (open_account ob) (open_source ob)))
  | Change cb => exists a i, legacy_head s a i (change_previous cb) /\ signed_by a b
  | State sb => state_account sb <> 0 /\ signed_by (state_account sb) b
      /\ match account_get s (state_account sb) with
         | Some i => state_previous sb = ai_head i /\ link_fits s sb (ai_balance i)
         | None => state_previous sb = 0 /\ state_link sb <> 0 /\ link_fits s sb 0
         end
  end.

(** The ledger's rules for the next block. *)
Definition acceptable (s : store) (b : block) : Prop :=
  block_exists s (hash b) = false /\ rules s b.

Section codes.
Context K D G l (HI : ledger_inv K D G (l_store l)).
Local Abbreviation s := (l_store l).

Lemma legacy_type b : legacy_predecessor (block_type_of b) = true <-> block_type_of b <> bt_state.
Proof. by destruct b. Qed.

Lemma frontier_legacy_head h a : frontiers s !! h = Some a <-> exists i, legacy_head s a i h.
Proof.
  rewrite (li_frontiers HI). unfold legacy_head, account_get, legacy.
  setoid_rewrite (block_get_of _ _ _ _ HI). setoid_rewrite legacy_type. done.
Qed.

(** The frontier decides whose chain a legacy block continues. *)
Lemma frontier_get_head h a i : legacy_head s a i h ->
  frontier_get s h = a /\ a <> 0 /\ account_get s a = Some i /\ ai_head i = h
  /\ exists pb, block_get s h = Some pb /\ legacy_predecessor (block_type_of pb) = true.
Proof.
  intros Hh. assert (frontiers s !! h = Some a) as Hf by (apply frontier_legacy_head; eauto).
  unfold frontier_get. rewrite Hf. destruct Hh as (Ha & Hhd & pb & Hpb & Ht).
  destruct (head_facts _ _ _ _ HI _ _ Ha) as (_ & _ & _ & _ & _ & Ha0 & _).
  split_and!; try done. exists pb. by rewrite legacy_type.
Qed.

Lemma frontier_get_not h : frontier_get s h = 0 -> forall a i, ~ legacy_head s a i h.
Proof. intros Hf a i Hh. by destruct (frontier_get_head _ _ _ Hh) as (<- & ? & _). Qed.

(** A guard failed: the code is not [progress], and the rules do not hold. *)
Ltac refused Hrun :=
  injection Hrun as <- <-; split; [done|]; intros [Hfresh Hrules]; cbn [rules] in Hrules; exfalso.

(** The updates after the last guard set the code to [progress]. *)
Ltac updates Hrun :=
  repeat (let l1 := fresh "l" in apply bind_Some in Hrun as (l1 & ? & Hrun)); injection Hrun as <- <-.

Lemma process_send_code b l' r :
  process_send b l = Some (l', r) -> pr_code r = progress <-> acceptable s (Send b).
Proof.
  unfold process_send, acceptable. intros Hrun.
  destruct (block_exists s (hash (Send b))); [refused Hrun; done|].
  destruct (block_get s (send_previous b)) as [pb|] eqn:Hpb.
  2: { refused Hrun. destruct Hrules as (a & i & Hh & _).
       destruct (frontier_get_head _ _ _ Hh) as (_ & _ & _ & _ & pb & ? & _). congruence. }
  destruct (valid_predecessor _ _) eqn:Hv; cbn [negb] in Hrun.
  2: { refused Hrun. destruct Hrules as (a & i & Hh & _).
       destruct (frontier_get_head _ _ _ Hh) as (_ & _ & _ & _ & pb' & ? & ?). cbn in Hv. congruence. }
  destruct (Z.eqb_spec (frontier_get s (send_previous b)) 0) as [Hf|Hf].
  { refused Hrun. destruct Hrules as (a & i & Hh & _). by eapply frontier_get_not. }
  destruct (validate_message _ _ _) eqn:Hsig.
  { refused Hrun. destruct Hrules as (a & i & Hh & Hs & _).
    destruct (frontier_get_head _ _ _ Hh) as (<- & _). unfold signed_by in Hs. cbn in Hs. congruence. }
  apply bind_Some in Hrun as (i & Hi & Hrun). apply bind_Some in Hrun as ([] & Hhd & Hrun).
  destruct (Z.eqb_spec (ai_head i) (send_previous b)) as [Hhd'|]; [|done].
  destruct (Z.leb_spec (send_balance b) (ai_balance i)) as [Hle|Hlt]; cbn [negb] in Hrun.
  - updates Hrun. split; [|done]. intros _. split; [done|]. exists (frontier_get s (send_previous b)), i.
    split; [|done]. split; [done|]. split; [done|]. exists pb. split; [done|]. by apply legacy_type.
  - refused Hrun. destruct Hrules as (a & j & Hh & _ & Hle).
    destruct (frontier_get_head _ _ _ Hh) as (<- & _ & Hj & _). rewrite Hi in Hj. simplify_eq. lia.
Qed.

Lemma process_change_code b l' r :
  process_change b l = Some (l', r) -> pr_code r = progress <-> acceptable s (Change b).
Proof.
  unfold process_change, acceptable. intros Hrun.
  destruct (block_exists s (hash (Change b))); [refused Hrun; done|].
  destruct (block_get s (change_previous b)) as [pb|] eqn:Hpb.
  2: { refused Hrun. destruct Hrules as (a & i & Hh & _).
       destruct (frontier_get_head _ _ _ Hh) as (_ & _ & _ & _ & pb & ? & _). congruence. }
  destruct (valid_predecessor _ _) eqn:Hv; cbn [negb] in Hrun.
  2: { refused Hrun. destruct Hrules as (a & i & Hh & _).
       destruct (frontier_get_head _ _ _ Hh) as (_ & _ & _ & _ & pb' & ? & ?). cbn in Hv. congruence. }
  destruct (Z.eqb_spec (frontier_get s (change_previous b)) 0) as [Hf|Hf].
  { refused Hrun. destruct Hrules as (a & i & Hh & _). by eapply frontier_get_not. }
  apply bind_Some in Hrun as (i & Hi & Hrun). apply bind_Some in Hrun as ([] & Hhd & Hrun).
  destruct (Z.eqb_spec (ai_head i) (change_previous b)) as [Hhd'|]; [|done].
  destruct (validate_message _ _ _) eqn:Hsig.
  - refused Hrun. destruct Hrules as (a & j & Hh & Hs).
    destruct (frontier_get_head _ _ _ Hh) as (<- & _). unfold signed_by in Hs. cbn in Hs. congruence.
  - updates Hrun. split; [|done]. intros _. split; [done|]. exists (frontier_get s (change_previous b)), i.
    split; [|done]. split; [done|]. split; [done|]. exists pb. split; [done|]. by apply legacy_type.
Qed.

Lemma process_receive_code b l' r :
  process_receive b l = Some (l', r) -> pr_code r = progress <-> acceptable s (Receive b).
Proof.
  unfold process_receive, acceptable. intros Hrun.
  destruct (block_exists s (hash (Receive b))); [refused Hrun; done|].
  destruct (block_get s (receive_previous b)) as [pb|] eqn:Hpb.
  2: { refused Hrun. destruct Hrules as (a & i & Hh & _).
       destruct (frontier_get_head _ _ _ Hh) as (_ & _ & _ & _ & pb & ? & _). congruence. }
  destruct (valid_predecessor _ _) eqn:Hv; cbn [negb] in Hrun.
  2: { refused Hrun. destruct Hrules as (a & i & Hh & _).
       destruct (frontier_get_head _ _ _ Hh) as (_ & _ & _ & _ & pb' & ? & ?). cbn in Hv. congruence. }
  destruct (block_exists s (receive_source b)) eqn:Hx; cbn [negb] in Hrun.
  2: { refused Hrun. destruct Hrules as (a & i & _ & _ & [p Hp]).
       destruct (pending_facts _ _ _ _ HI _ _ _ Hp) as (_ & _ & q & Hq).
       destruct (facts_stored _ _ _ _ HI _ _ Hq) as (xb & xs & Hs & _).
       by rewrite block_exists_blocks, Hs in Hx. }
  destruct (Z.eqb_spec (frontier_get s (receive_previous b)) 0) as [Hf|Hf].
  { injection Hrun as <- <-. split; [by case_match|]. intros [_ (a & i & Hh & _)].
    by destruct (frontier_get_not _ Hf a i). }
  destruct (validate_message _ _ _) eqn:Hsig.
  { refused Hrun. destruct Hrules as (a & j & Hh & Hs & _).
    destruct (frontier_get_head _ _ _ Hh) as (<- & _). unfold signed_by in Hs. cbn in Hs. congruence. }
  destruct (frontier_get_facts _ _ _ _ HI _ Hf) as (_ & i & Hi & Hhd & Hl).
  unfold account_get in Hrun. rewrite Hi in Hrun. cbn [default from_option id] in Hrun.
  rewrite Hhd, Z.eqb_refl in Hrun. cbn [negb] in Hrun.
  destruct (pending_get s _) as [p|] eqn:Hp.
  - updates Hrun. split; [|done]. intros _. split; [done|]. exists (frontier_get s (receive_previous b)), i.
    split; [|by eauto]. split; [done|]. split; [done|]. exists pb. split; [done|]. by apply legacy_type.
  - refused Hrun. destruct Hrules as (a & j & Hh & _ & [p' Hp']).
    destruct (frontier_get_head _ _ _ Hh) as (<- & _). congruence.
Qed.

Lemma process_open_code b l' r :
  process_open b l = Some (l', r) -> pr_code r = progress <-> acceptable s (Open b).
Proof.
  unfold process_open, acceptable. intros Hrun.
  destruct (block_exists s (hash (Open b))); [refused Hrun; done|].
  destruct (block_exists s (open_source b)) eqn:Hx; cbn [negb] in Hrun.
  2: { refused Hrun. destruct Hrules as (_ & _ & _ & [p Hp]).
       destruct (pending_facts _ _ _ _ HI _ _ _ Hp) as (_ & _ & q & Hq).
       destruct (facts_stored _ _ _ _ HI _ _ Hq) as (xb & xs & Hs & _).
       by rewrite block_exists_blocks, Hs in Hx. }
  destruct (validate_message _ _ _) eqn:Hsig.
  { refused Hrun. destruct Hrules as (_ & _ & Hs & _). unfold signed_by in Hs. cbn in Hs. congruence. }
  destruct (account_get s (open_account b)) as [i|] eqn:Hi.
  { refused Hrun. destruct Hrules as (_ & ? & _). congruence. }
  destruct (pending_get s _) as [p|] eqn:Hp.
  2: { refused Hrun. destruct Hrules as (_ & _ & _ & [? ?]). congruence. }
  destruct (Z.eqb_spec (open_account b) burn_account) as [Hb|Hb].
  { refused Hrun. by destruct Hrules. }
  updates Hrun. split; [|done]. intros _. split; [done|]. split_and!; by eauto.
Qed.

(** *** State blocks *)

Lemma link_check_fits (b : state_block) old : in_width 128 old -> in_width 128 (state_balance b) ->
  let is_send := state_balance b <? old in
  state_link_check s b is_send
    (if is_send then wrap 128 (old - state_balance b) else wrap 128 (state_balance b - old)) = progress
  <-> link_fits s b old.
Proof.
  unfold in_width. intros Ho Hb. cbn zeta. unfold state_link_check, link_fits.
  destruct (Z.ltb_spec (state_balance b) old); [split; [by left|done]|].
  rewrite wrap_small by (unfold in_width; lia).
  destruct (Z.eqb_spec (state_link b) 0) as [Hl|Hl]; cbn [negb].
  - destruct (Z.eqb_spec (state_balance b - old) 0).
    + split; [|done]. intros _. right; right. split; [done|lia].
    + split; [done|]. intros [?|[(_ & ? & _)|(_ & ?)]]; [lia|done|lia].
  - destruct (pending_get s _) as [p|] eqn:Hp.
    + assert (block_exists s (state_link b) = true) as ->.
      { destruct (pending_facts _ _ _ _ HI _ _ _ Hp) as (_ & _ & q & Hq).
        destruct (facts_stored _ _ _ _ HI _ _ Hq) as (xb & xs & Hs & _). by rewrite block_exists_blocks, Hs. }
      cbn [negb]. destruct (Z.eqb_spec (state_balance b - old) (pi_amount p)).
      * split; [|done]. intros _. right; left. split_and!; [lia|done|]. exists p. split; [done|lia].
      * split; [done|]. intros [?|[(_ & _ & p' & ? & ?)|(? & _)]]; [lia|simplify_eq; lia|done].
    + split; [by destruct (block_exists _ _)|].
      intros [?|[(_ & _ & p' & ? & _)|(? & _)]]; [lia| |]; congruence.
Qed.

Lemma process_state_code (b : state_block) l' r : in_width 128 (state_balance b) ->
  process_state b l = Some (l', r) -> pr_code r = progress <-> acceptable s (State b).
Proof.
  intros Hw. unfold process_state, acceptable. intros Hrun.
  destruct (block_exists s (hash (State b))); [refused Hrun; done|].
  destruct (validate_message _ _ _) eqn:Hsig.
  { refused Hrun. destruct Hrules as (_ & Hs & _). unfold signed_by in Hs. cbn in Hs. congruence. }
  destruct (Z.eqb_spec (state_account b) 0) as [|Ha].
  { refused Hrun. by destruct Hrules. }
  unfold state_position in Hrun. destruct (account_get s (state_account b)) as [i|] eqn:Hi.
  - destruct (head_facts _ _ _ _ HI _ _ Hi) as (hb & _ & Hhb & _ & _ & _ & Hh0 & Hiw & _).
    pose proof (link_check_fits b (ai_balance i) Hiw Hw) as Hfit. cbn zeta in Hfit.
    assert (state_previous b <> ai_head i -> ~ rules s (State b)) as Hno.
    { intros Hne (_ & _ & Hr). rewrite Hi in Hr. naive_solver. }
    destruct (Z.eqb_spec (state_previous b) 0) as [Hp0|Hp0].
    { refused Hrun. apply Hno; [congruence|done]. }
    destruct (block_exists s (state_previous b)) eqn:Hpe; cbn [negb] in Hrun.
    2: { refused Hrun. apply Hno; [|done]. intros E. by rewrite block_exists_blocks, E, Hhb in Hpe. }
    destruct (Z.eqb_spec (state_previous b) (ai_head i)) as [Hp|Hp].
    2: { refused Hrun. by apply Hno. }
    rewrite (decide_True (P := progress = progress)) in Hrun by done.
    destruct (decide (state_link_check _ _ _ _ = progress)) as [Hck|Hck].
    + apply bind_Some in Hrun as (l1 & _ & Hrun). injection Hrun as <- <-. split; [|done]. intros _.
      split; [done|]. cbn [rules]. rewrite Hi, <- Hfit. done.
    + injection Hrun as <- <-. cbn [pr_code]. split; [done|]. intros [_ (_ & _ & Hr)].
      rewrite Hi in Hr. by destruct Hck, Hr as [_ ?%Hfit].
  - pose proof (link_check_fits b 0 ltac:(done) Hw) as Hfit. cbn zeta in Hfit.
    rewrite (proj2 (Z.ltb_ge _ _)), Z.sub_0_r, wrap_small in Hfit by (done || apply Hw).
    cbn [previous] in Hrun. destruct (Z.eqb_spec (state_previous b) 0) as [Hp|Hp]; cbn [negb] in Hrun.
    2: { refused Hrun. destruct Hrules as (_ & _ & Hr). rewrite Hi in Hr. by destruct Hr. }
    destruct (Z.eqb_spec (state_link b) 0) as [Hl|Hl]; cbn [negb] in Hrun.
    { refused Hrun. destruct Hrules as (_ & _ & Hr). rewrite Hi in Hr. by destruct Hr as (_ & ? & _). }
    rewrite (decide_True (P := progress = progress)) in Hrun by done.
    destruct (decide (state_link_check _ _ _ _ = progress)) as [Hck|Hck].
    + apply bind_Some in Hrun as (l1 & _ & Hrun). injection Hrun as <- <-. split; [|done]. intros _.
      split; [done|]. cbn [rules]. rewrite Hi, <- Hfit. done.
    + injection Hrun as <- <-. cbn [pr_code]. split; [done|]. intros [_ (_ & _ & Hr)].
      rewrite Hi in Hr. by destruct Hck, Hr as (_ & _ & ?%Hfit).
Qed.

(** The processor's verdict. *)
Lemma process_code b l' r : wf_block b ->
  process b l = Some (l', r) -> pr_code r = progress <-> acceptable s b.
Proof.
  destruct b; cbn [process]; intros Hw Hrun.
  - by eapply process_send_code.
  - by eapply process_receive_code.
  - by eapply process_open_code.
  - by eapply process_change_code.
  - eapply process_state_code; [apply Hw|done].
Qed.
End codes.
End accept.
