(* ===== verification/Unwind.v ===== *)
(** * Unwind: removing the last block of an account

    The converse of [LedgerInv.apply_inv]: a block without successor that is not a
    received send can be taken away, and with the matching table updates the
    invariant holds for the facts of the remaining blocks. *)

From stdpp Require Import base list option tactics gmap.
From Stdlib Require Import ZArith Lia.
From S2P Require Import Prelude Blocks Common Stats Store Tables Visitors Ledger Chain Balance.
From S2P Require Import LedgerInv Queries.
#[local] Open Scope Z_scope.

Section unwind.
Context `{E0 : Env} `{T0 : Traffic}.
Implicit Types (K : Z) (D : Z -> Z) (G : gmap Z chain_info) (s : store).

(** The tables without [b]. *)
Definition detach (b : block) (M : gmap Z stored) : gmap Z stored :=
  alter (fun v => (v.1, 0)) (previous b) (delete (hash b) M).

Lemma detach_lookup b M k :
  detach b M !! k =
  if decide (k = hash b) then None
  else if decide (k = previous b) then (fun v => (v.1, 0)) <$> M !! k else M !! k.
Proof.
  unfold detach. rewrite lookup_alter, !lookup_delete. repeat case_decide; subst; congruence || done.
Qed.

Lemma detach_contents b M : contents (detach b M) = delete (hash b) (contents M).
Proof.
  apply map_eq. intros k. rewrite contents_lookup, detach_lookup, lookup_delete, contents_lookup.
  repeat case_decide; try (congruence || done). by destruct (M !! k).
Qed.

(** [b] is the last block of its chain, is not the genesis block, and what it sends
    is pending. *)
Record removable G s (b : block) (m : chain_info) (i : account_info) : Prop := {
  rm_block : blocks s !! hash b = Some (b, 0);
  rm_facts : G !! hash b = Some m;
  rm_info : accounts s !! ci_account m = Some i;
  rm_not_genesis : match b with Open b => open_source b <> genesis_account | _ => True end;
  rm_sent d x : send_of (contents (blocks s)) G (hash b) = Some (d, x) ->
    is_Some (pending s !! PendingKey d (hash b))
}.

#[global] Arguments rm_block {_ _ _ _ _} _.
#[global] Arguments rm_facts {_ _ _ _ _} _.
#[global] Arguments rm_info {_ _ _ _ _} _.
#[global] Arguments rm_not_genesis {_ _ _ _ _} _.
#[global] Arguments rm_sent {_ _ _ _ _} _ _ _ _.

(** What the removal adds to the weight of [r]. *)
Definition undo_delta G s (b : block) (m : chain_info) (r : Z) : Z :=
  match G !! previous b with
  | Some p => if rep_of (contents (blocks s)) (ci_rep p) =? r then ci_balance p else 0
  | None => 0
  end - (if rep_of (contents (blocks s)) (ci_rep m) =? r then ci_balance m else 0).

Record unapplied G s (b : block) (m : chain_info) (i : account_info) s' : Prop := {
  un_tables : tables_ok s';
  un_blocks : blocks s' = detach b (blocks s);
  un_accounts : match G !! previous b with
    | Some p => exists t, accounts s' = <[ci_account m := AccountInfo (previous b) (ci_rep p)
        (ai_open_block i) (ci_balance p) t (wrap 64 (Z.of_nat (ci_height p)))]> (accounts s)
    | None => accounts s' = delete (ci_account m) (accounts s)
    end;
  un_frontiers h a : frontiers s' !! h = Some a <->
    h = previous b /\ a = ci_account m /\ legacy (contents (blocks s)) h
    \/ h <> hash b /\ h <> previous b /\ frontiers s !! h = Some a;
  un_pending :
    match send_of (contents (blocks s)) G (hash b), source_of (contents (blocks s)) G (hash b) with
    | Some (d, _), _ => pending s' = delete (PendingKey d (hash b)) (pending s)
    | None, Some x => exists q y, G !! x = Some q
        /\ send_of (contents (blocks s)) G x = Some (ci_account m, y)
        /\ pending s' = <[PendingKey (ci_account m) x := PendingInfo (ci_account q) y]> (pending s)
    | None, None => pending s' = pending s
    end;
  un_info k v : blocks_info s' !! k = Some v -> blocks_info s !! k = Some v
    \/ exists p, G !! previous b = Some p /\ k = previous b /\ v = BlockInfo (ci_account m) (ci_balance p)
         /\ Z.of_nat (ci_height p) mod block_info_max = 0;
  un_info_legacy : is_legacy b = true -> blocks_info s' !! hash b = None;
  un_info_kept k : k <> hash b -> is_Some (blocks_info s !! k) -> is_Some (blocks_info s' !! k);
  un_checksum : checksums s' !! 0 =
    (fun c => Z.lxor (Z.lxor c (hash b)) (previous b)) <$> checksums s !! 0
}.

#[global] Arguments un_tables {_ _ _ _ _ _} _.
#[global] Arguments un_blocks {_ _ _ _ _ _} _.
#[global] Arguments un_accounts {_ _ _ _ _ _} _.
#[global] Arguments un_frontiers {_ _ _ _ _ _} _ _ _.
#[global] Arguments un_pending {_ _ _ _ _ _} _.
#[global] Arguments un_info {_ _ _ _ _ _} _ _ _ _.
#[global] Arguments un_info_legacy {_ _ _ _ _ _} _ _.
#[global] Arguments un_info_kept {_ _ _ _ _ _} _ _ _ _.
#[global] Arguments un_checksum {_ _ _ _ _ _} _.

Section remove.
Context K D G s (b : block) (m : chain_info) (i : account_info).
Context (HI : ledger_inv K D G s) (HR : removable G s b m i).
Local Abbreviation h := (hash b).
Local Abbreviation C := (contents (blocks s)).
Local Abbreviation C' := (delete (hash b) (contents (blocks s))).
Local Abbreviation G' := (delete (hash b) G).

Lemma removed_content : C !! h = Some b.
Proof. by rewrite contents_lookup, (rm_block HR). Qed.

Lemma removed_head : ai_head i = h.
Proof.
  destruct (li_tip HI _ _ _ (rm_block HR) (rm_facts HR)) as (j & Hj & <-).
  rewrite (rm_info HR) in Hj. by simplify_eq.
Qed.

Lemma not_previous k kb ks : blocks s !! k = Some (kb, ks) -> previous kb <> h.
Proof. eapply (tip_not_previous _ _ _ _ HI), HR. Qed.

Lemma not_source k : source_of C G k <> Some h.
Proof.
  intros Hk. destruct (source_of_receives _ _ _ _ (li_chain HI) Hk) as (km & y & _ & [Hs _]).
  destruct (rm_sent HR _ _ Hs) as [p Hp]. by apply (li_unreceived HI _ _ k Hp).
Qed.

Lemma kept_facts k km : k <> h -> G !! k = Some km -> G' !! k = Some km.
Proof. intros. by rewrite lookup_delete_ne. Qed.

Lemma send_of_kept k : k <> h -> send_of C' G' k = send_of C G k.
Proof.
  intros Hk. unfold send_of. rewrite lookup_delete_ne by done.
  destruct (C !! k) as [kb|] eqn:E; [|done]. apply contents_Some in E as [ks Hs].
  pose proof (not_previous _ _ _ Hs) as Hp.
  destruct kb; cbn in Hp; by rewrite ?lookup_delete_ne by done.
Qed.

Lemma source_of_kept k : k <> h -> source_of C' G' k = source_of C G k.
Proof.
  intros Hk. unfold source_of. rewrite lookup_delete_ne by done.
  destruct (C !! k) as [kb|] eqn:E; [|done]. apply contents_Some in E as [ks Hs].
  pose proof (not_previous _ _ _ Hs) as Hp.
  destruct kb; cbn in Hp; by rewrite ?lookup_delete_ne by done.
Qed.

Lemma send_of_gone : send_of C' G' h = None.
Proof. unfold send_of. by rewrite lookup_delete_eq. Qed.

Lemma source_of_gone : source_of C' G' h = None.
Proof. unfold source_of. by rewrite lookup_delete_eq. Qed.

(** No other block has the removed one as its representative block. *)
Lemma rep_kept k km : k <> h -> G !! k = Some km -> ci_rep km <> h.
Proof.
  remember (ci_rank km) as n eqn:Hn. revert k km Hn.
  induction n as [n IH] using lt_wf_ind. intros k km Hn Hk Hm Hr.
  destruct (facts_stored _ _ _ _ HI _ _ Hm) as (kb & ks & Hs & Hok & _).
  pose proof (not_previous _ _ _ Hs) as Hp.
  assert (forall p, follows G (previous kb) p km -> ci_rep km = ci_rep p -> False) as Hback.
  { intros p (_ & Hpm & _ & _ & Hlt) Hpr. eapply (IH (ci_rank p)); [lia|done| |done|congruence]. done. }
  destruct kb; cbn in Hok, Hback; naive_solver.
Qed.

Lemma receives_kept x y km k kb ks : blocks s !! k = Some (kb, ks) ->
  source_of C G k = Some x -> receives C G x y km -> receives C' G' x y km.
Proof.
  intros Hk Hsrc [Hs (q & Hq & Hr)]. assert (x <> h) as Hx.
  { intros ->. by apply (not_source k). }
  split; [by rewrite send_of_kept|]. exists q. split; [by apply kept_facts|done].
Qed.

Lemma follows_kept k kb ks p km : blocks s !! k = Some (kb, ks) ->
  follows G (previous kb) p km -> follows G' (previous kb) p km.
Proof.
  intros Hk (? & Hp & ?). split; [done|]. split; [|done].
  apply kept_facts; [by eapply not_previous|done].
Qed.

Lemma legacy_kept k : k <> h -> legacy C k -> legacy C' k.
Proof. intros Hk (kb & Hb & ?). exists kb. by rewrite lookup_delete_ne. Qed.

Lemma block_ok_kept k kb ks km : k <> h -> blocks s !! k = Some (kb, ks) -> G !! k = Some km ->
  block_ok C' G' k kb km.
Proof.
  intros Hk Hs Hm. pose proof (chain_block (li_chain HI) _ _ _ _ Hs Hm) as Hok.
  assert (C !! k = Some kb) as Hc by (apply contents_Some; eauto).
  pose proof (fun p => follows_kept k kb ks p km Hs) as Hf.
  pose proof (fun x y => receives_kept x y km k kb ks Hs) as Hr.
  unfold source_of in Hr. rewrite Hc in Hr.
  pose proof (not_previous _ _ _ Hs) as Hp. pose proof legacy_kept as Hl.
  destruct kb as [kb|kb|kb|kb|kb]; cbn in Hok, Hf, Hr, Hp |- *; [naive_solver..| |naive_solver|].
  - destruct Hok as (? & ? & ? & [?|[Hg Hv]]); (split_and!; [done..|]); [by left|right].
    split; [done|]. apply Hr; [|done]. by rewrite (proj2 (Z.eqb_neq _ _) Hg).
  - destruct Hok as (? & ? & ? & [(Hz & ? & Hlk & Hv)|(p & Hfp & Hcase)]); (split_and!; [done..|]).
    + left. split_and!; try done. apply Hr; [|done].
      by rewrite (proj2 (Z.eqb_neq _ _) Hlk), (proj2 (Z.eqb_eq _ _) Hz).
    + right. exists p. split; [by apply Hf|].
      destruct Hcase as [?|[(Hlk & Hle & Hv)|?]]; [by left| |by right; right]. right; left.
      split_and!; try done. apply Hr; [|done]. destruct Hfp as (Hz & -> & _).
      rewrite (proj2 (Z.eqb_neq _ _) Hlk), (proj2 (Z.eqb_neq _ _) Hz). cbn.
      by rewrite (proj2 (Z.ltb_ge _ _) Hle).
Qed.

Lemma detach_Some k kb ks : detach b (blocks s) !! k = Some (kb, ks) ->
  k <> h /\ (k = previous b /\ blocks s !! k = Some (kb, h) /\ ks = 0
             \/ k <> previous b /\ blocks s !! k = Some (kb, ks)).
Proof.
  rewrite detach_lookup. repeat case_decide; [done| |by eauto]. intros Hk.
  split; [done|]. left. split; [done|]. subst k.
  destruct (blocks s !! previous b) as [v|] eqn:Hv; [|done]. cbn in Hk. simplify_eq.
  destruct (decide (previous b = 0)) as [E|E].
  { destruct v as [vb vs]. destruct (chain_hash (li_chain HI) _ _ _ Hv) as [_ [? _]]. done. }
  destruct (chain_back (li_chain HI) _ _ _ (rm_block HR) E) as [pb Hpb].
  rewrite Hpb in Hv. by simplify_eq.
Qed.

Lemma detach_old k kb ks : k <> h -> blocks s !! k = Some (kb, ks) ->
  exists ks', detach b (blocks s) !! k = Some (kb, ks') /\ (k <> previous b -> ks' = ks).
Proof.
  intros Hk Hs. rewrite detach_lookup, decide_False by done. rewrite Hs. cbn.
  case_decide; eexists; (split; [done|]); done.
Qed.

Lemma detached_stored k kb ks : detach b (blocks s) !! k = Some (kb, ks) ->
  k <> h /\ exists ks', blocks s !! k = Some (kb, ks').
Proof. intros Hk%detach_Some. naive_solver. Qed.

Lemma shrink_back k kb ks : detach b (blocks s) !! k = Some (kb, ks) -> previous kb <> 0 ->
  exists pb, detach b (blocks s) !! previous kb = Some (pb, k).
Proof.
  intros [Hk [ks' Hs]]%detached_stored Hp.
  destruct (chain_back (li_chain HI) _ _ _ Hs Hp) as [pb Hpb].
  destruct (detach_old _ _ _ (not_previous _ _ _ Hs) Hpb) as (ks2 & Hd & He). exists pb.
  rewrite Hd, He; [done|]. intros E. rewrite E in Hp, Hpb.
  destruct (chain_back (li_chain HI) _ _ _ (rm_block HR) Hp) as [pb' Hpb']. congruence.
Qed.

Lemma shrink_forth k kb ks : detach b (blocks s) !! k = Some (kb, ks) -> ks <> 0 ->
  exists sb ss, detach b (blocks s) !! ks = Some (sb, ss) /\ previous sb = k.
Proof.
  intros [Hk [(_ & _ & ->)|[Hne Hs]]]%detach_Some H0; [done|].
  destruct (chain_forth (li_chain HI) _ _ _ Hs H0) as (sb & ss & Hsb & Hp).
  assert (ks <> h) as Hkh.
  { intros ->. rewrite (rm_block HR) in Hsb. congruence. }
  destruct (detach_old _ _ _ Hkh Hsb) as (ss' & ? & _). eauto.
Qed.

Lemma shrink_chain : chain_inv (detach b (blocks s)) G'.
Proof.
  split.
  - intros k. rewrite lookup_delete, detach_lookup.
    repeat case_decide; subst; try (by split; intros []; congruence); try done;
      rewrite ?fmap_is_Some; try apply (chain_dom (li_chain HI)).
  - intros k kb ks [Hk [ks' Hs]]%detached_stored. by eapply chain_hash, Hs; apply HI.
  - intros k km [Hk Hm]%lookup_delete_Some. rewrite detach_contents.
    destruct (chain_facts (li_chain HI) _ _ Hm) as (? & ? & ? & rb & Hrb & ?). split_and!; [done..|].
    exists rb. rewrite lookup_delete_ne; [done|]. intros E. by eapply (rep_kept k km).
  - intros k kb ks km [Hk [ks' Hs]]%detached_stored [_ Hm]%lookup_delete_Some.
    rewrite detach_contents. by eapply block_ok_kept.
  - apply shrink_back.
  - apply shrink_forth.
  - rewrite detach_contents. intros k1 k2 x H1 H2.
    assert (forall k, source_of C' G' k = Some x -> source_of C G k = Some x) as Hst.
    { intros k Hk. destruct (decide (k = h)) as [->|]; [by rewrite source_of_gone in Hk|].
      by rewrite source_of_kept in Hk. }
    eapply (chain_once (li_chain HI)); by apply Hst.
Qed.

Lemma removed_prev :
  match G !! previous b with
  | Some p => follows G (previous b) p m /\ exists pb, blocks s !! previous b = Some (pb, h)
  | None => previous b = 0
  end.
Proof.
  pose proof (chain_block (li_chain HI) _ _ _ _ (rm_block HR) (rm_facts HR)) as Hok.
  destruct (decide (previous b = 0)) as [E|E]; [by rewrite E, (facts_zero _ _ _ _ HI)|].
  assert (exists p, follows G (previous b) p m) as (p & Hf).
  { destruct b; cbn in Hok, E |- *; naive_solver. }
  pose proof Hf as (_ & -> & _). split; [done|]. by apply (chain_back (li_chain HI) _ _ _ (rm_block HR)).
Qed.

Lemma removed_only k km : previous b = 0 -> G !! k = Some km -> ci_account km = ci_account m -> k = h.
Proof. intros. by eapply (only_block _ _ _ _ HI h b m); [apply HR..| | |]. Qed.

Lemma other_account a j : accounts s !! a = Some j -> a <> ci_account m ->
  ai_head j <> h /\ ai_head j <> previous b /\ ai_open_block j <> h.
Proof.
  intros Hj Ha. destruct (li_head HI _ _ Hj) as (jb & jm & Hs & Hm & Hja & _).
  destruct (li_opened HI _ _ Hj) as (ob & os & om & _ & Hom & Hoa & _).
  pose proof (rm_facts HR) as Hf. split_and!; intros E.
  - rewrite E in Hm. congruence.
  - pose proof removed_prev as Hp. rewrite <- E, Hm in Hp. destruct Hp as ((_ & _ & ? & _) & _). congruence.
  - rewrite E in Hom. congruence.
Qed.

Context (s' : store) (HU : unapplied G s b m i s').

Lemma undo_contents : contents (blocks s') = C'.
Proof. by rewrite (un_blocks HU), detach_contents. Qed.

(** The accounts after the removal. *)
Lemma undo_accounts a :
  accounts s' !! a =
  if decide (a = ci_account m) then accounts s' !! ci_account m else accounts s !! a.
Proof.
  pose proof (un_accounts HU) as Ha. case_decide; subst; [done|].
  destruct (G !! previous b); [destruct Ha as [t ->]|rewrite Ha].
  - by rewrite lookup_insert_ne.
  - by rewrite lookup_delete_ne.
Qed.

Lemma undo_account :
  match G !! previous b with
  | Some p => exists j, accounts s' !! ci_account m = Some j /\ ai_head j = previous b
      /\ ai_open_block j = ai_open_block i /\ head_ok (ci_account m) j p
  | None => accounts s' !! ci_account m = None
  end.
Proof.
  pose proof (un_accounts HU) as Ha. pose proof removed_prev as Hp.
  destruct (G !! previous b) as [p|]; [destruct Ha as [t ->]|rewrite Ha].
  - rewrite lookup_insert_eq. eexists. split; [done|]. do 2 (split; [done|]). unfold head_ok.
    by destruct Hp as [(_ & _ & -> & _) _].
  - apply lookup_delete_eq.
Qed.

Lemma undo_head a j : accounts s' !! a = Some j ->
  exists b' m', blocks s' !! ai_head j = Some (b', 0) /\ G' !! ai_head j = Some m' /\ head_ok a j m'.
Proof.
  rewrite undo_accounts, (un_blocks HU). case_decide as Ha; intros Hj.
  - subst a. pose proof undo_account as Hacc. pose proof removed_prev as Hp.
    destruct (G !! previous b) as [p|] eqn:Ep; [|congruence].
    destruct Hacc as (j' & Hj' & Hhd & _ & Hok). rewrite Hj in Hj'. injection Hj' as <-.
    destruct Hp as [_ [pb Hpb]]. pose proof (not_previous _ _ _ (rm_block HR)) as Hne.
    exists pb, p. rewrite Hhd, detach_lookup, decide_False, decide_True, Hpb by done.
    rewrite lookup_delete_ne by done. done.
  - destruct (other_account _ _ Hj Ha) as (H1 & H2 & _).
    destruct (li_head HI _ _ Hj) as (jb & jm & Hs & Hm & Hok). exists jb, jm.
    rewrite detach_lookup, !decide_False by done. by rewrite lookup_delete_ne.
Qed.

Lemma undo_owner k km : G' !! k = Some km -> is_Some (accounts s' !! ci_account km).
Proof.
  intros [Hk Hm]%lookup_delete_Some. rewrite undo_accounts. case_decide as Ha; [|by eapply li_owner].
  pose proof undo_account as Hacc. pose proof removed_prev as Hp.
  destruct (G !! previous b); [destruct Hacc as (? & -> & _); done|].
  by destruct Hk; symmetry; eapply removed_only.
Qed.

Lemma undo_tip k kb km : blocks s' !! k = Some (kb, 0) -> G' !! k = Some km ->
  exists j, accounts s' !! ci_account km = Some j /\ ai_head j = k.
Proof.
  rewrite (un_blocks HU), undo_accounts. intros Hs [Hne Hm]%lookup_delete_Some.
  pose proof undo_account as Hacc. pose proof removed_prev as Hp.
  apply detach_Some in Hs as [Hk [(-> & _ & _)|[Hkp Hs]]].
  - rewrite Hm in Hacc, Hp. destruct Hp as [(_ & _ & Ha & _) _].
    rewrite decide_True by done. destruct Hacc as (j & ? & ? & _). eauto.
  - destruct (li_tip HI _ _ _ Hs Hm) as (j & Hj & Hh). case_decide as Ha; [|by eauto].
    rewrite Ha, (rm_info HR) in Hj. injection Hj as <-. by rewrite removed_head in Hh.
Qed.

Lemma undo_open k kb ks km j : blocks s' !! k = Some (kb, ks) -> G' !! k = Some km ->
  previous kb = 0 -> accounts s' !! ci_account km = Some j -> ai_open_block j = k.
Proof.
  rewrite (un_blocks HU), undo_accounts. intros [Hk [ks' Hs]]%detached_stored [_ Hm]%lookup_delete_Some Hp.
  case_decide as Ha; [|by eapply (li_open HI)]. intros Hj. pose proof undo_account as Hacc.
  destruct (G !! previous b) as [p|]; [|congruence].
  destruct Hacc as (j' & Hj' & _ & Ho & _). rewrite Hj in Hj'. injection Hj' as <-. rewrite Ho.
  eapply (li_open HI); [done..|]. rewrite Ha. apply HR.
Qed.

Lemma undo_opened a j : accounts s' !! a = Some j ->
  exists ob os om, blocks s' !! ai_open_block j = Some (ob, os)
    /\ G' !! ai_open_block j = Some om /\ ci_account om = a /\ previous ob = 0.
Proof.
  assert (forall a j0, accounts s !! a = Some j0 -> ai_open_block j0 <> h ->
    exists ob os om, detach b (blocks s) !! ai_open_block j0 = Some (ob, os)
      /\ G' !! ai_open_block j0 = Some om /\ ci_account om = a /\ previous ob = 0) as Hold.
  { intros a0 j0 (ob & os & om & Hs & Hm & ?)%(li_opened HI) Hne.
    destruct (detach_old _ _ _ Hne Hs) as (os' & ? & _). exists ob, os', om.
    by rewrite lookup_delete_ne. }
  rewrite undo_accounts, (un_blocks HU). case_decide as Ha; intros Hj.
  - subst a. pose proof undo_account as Hacc. pose proof removed_prev as Hp.
    destruct (G !! previous b) as [p|]; [|congruence].
    destruct Hacc as (j' & Hj' & _ & Ho & _). rewrite Hj in Hj'. injection Hj' as <-. rewrite Ho.
    apply Hold; [apply HR|]. intros E.
    destruct (li_opened HI _ _ (rm_info HR)) as (ob & os & om & Hs & _ & _ & H0).
    rewrite E, (rm_block HR) in Hs. destruct Hp as [[? _] _]. congruence.
  - apply Hold; [done|]. by destruct (other_account _ _ Hj Ha) as (_ & _ & ?).
Qed.

Lemma undo_frontiers k a : frontiers s' !! k = Some a <->
  exists j, accounts s' !! a = Some j /\ ai_head j = k /\ legacy (contents (blocks s')) k.
Proof.
  rewrite (un_frontiers HU), undo_contents, undo_accounts, (li_frontiers HI).
  pose proof undo_account as Hacc. pose proof removed_prev as Hp.
  pose proof (not_previous _ _ _ (rm_block HR)) as Hne. split.
  - intros [(-> & -> & Hl)|(Hk & Hkp & j & Hj & Hh & Hl)].
    + rewrite decide_True by done. destruct (G !! previous b) as [p|].
      * destruct Hacc as (j & ? & ? & _). exists j. split_and!; [done..|]. by apply legacy_kept.
      * destruct Hl as (lb & [ls Hlb]%contents_Some & _).
        destruct (chain_hash (li_chain HI) _ _ _ Hlb) as [_ [? _]]. done.
    + exists j. rewrite decide_False; [|intros ->; rewrite (rm_info HR) in Hj; injection Hj as <-;
        by rewrite removed_head in Hh]. split_and!; [done..|]. by apply legacy_kept.
  - intros (j & Hj & Hh & Hl). assert (legacy C k) as Hlk.
    { destruct Hl as (lb & [_ Hlb]%lookup_delete_Some & ?). by exists lb. }
    case_decide as Ha.
    + left. subst a. destruct (G !! previous b) as [p|]; [|congruence].
      destruct Hacc as (j' & Hj' & Hhd & _). rewrite Hj in Hj'. injection Hj' as <-. by subst.
    + right. destruct (other_account _ _ Hj Ha) as (H1 & H2 & _). subst k.
      split_and!; [done..|]. eauto.
Qed.

(** *** Pending amounts *)

Lemma undo_pending_Some k p : pending s' !! k = Some p ->
  pk_hash k <> h
  /\ send_of C G (pk_hash k) = Some (pk_account k, pi_amount p)
  /\ (exists q, G !! pk_hash k = Some q /\ ci_account q = pi_source p)
  /\ (pending s !! k = Some p \/ source_of C G h = Some (pk_hash k)).
Proof.
  assert (pending s !! k = Some p ->
    send_of C G (pk_hash k) = Some (pk_account k, pi_amount p)
    /\ (exists q, G !! pk_hash k = Some q /\ ci_account q = pi_source p)) as Hold by apply (li_pending HI).
  pose proof (un_pending HU) as Hp.
  destruct (send_of C G h) as [[d x]|] eqn:Es.
  - rewrite Hp. intros [Hne Hk]%lookup_delete_Some. destruct (Hold Hk) as [Hs Hq].
    split_and!; [|done..|by left]. intros E. rewrite E in Hs. destruct k; cbn in *. congruence.
  - destruct (source_of C G h) as [x|] eqn:Ex.
    + destruct Hp as (q & y & Hq & Hs & ->). intros [[<- <-]|[Hne Hk]]%lookup_insert_Some.
      * cbn. split_and!; [|done|by eauto|by right]. intros ->. congruence.
      * destruct (Hold Hk) as [Hsk Hqk]. split_and!; [|done..|by left]. congruence.
    + rewrite Hp. intros Hk. destruct (Hold Hk) as [Hsk Hqk]. split_and!; [|done..|by left]. congruence.
Qed.

Lemma undo_pending k p : pending s' !! k = Some p ->
  send_of (contents (blocks s')) G' (pk_hash k) = Some (pk_account k, pi_amount p)
  /\ exists q, G' !! pk_hash k = Some q /\ ci_account q = pi_source p.
Proof.
  intros (Hk & Hs & (q & Hq & ?) & _)%undo_pending_Some. rewrite undo_contents, send_of_kept by done.
  split; [done|]. exists q. by rewrite lookup_delete_ne.
Qed.

Lemma undo_unreceived k p r : pending s' !! k = Some p ->
  source_of (contents (blocks s')) G' r <> Some (pk_hash k).
Proof.
  rewrite undo_contents. intros (Hk & _ & _ & Hp)%undo_pending_Some Hr.
  destruct (decide (r = h)) as [->|Hne]; [by rewrite source_of_gone in Hr|].
  rewrite source_of_kept in Hr by done. destruct Hp as [Hp|Hp].
  - by apply (li_unreceived HI _ _ r Hp).
  - by apply Hne, (chain_once (li_chain HI) _ _ (pk_hash k)).
Qed.

Lemma undo_settled k d x : send_of (contents (blocks s')) G' k = Some (d, x) ->
  is_Some (pending s' !! PendingKey d k)
  \/ exists r, source_of (contents (blocks s')) G' r = Some k.
Proof.
  rewrite undo_contents. destruct (decide (k = h)) as [->|Hk]; [by rewrite send_of_gone|].
  rewrite send_of_kept by done. intros Hs. pose proof (un_pending HU) as Hp.
  destruct (li_settled HI _ _ _ Hs) as [Hd|[r Hr]].
  - left. destruct (send_of C G h) as [[d' x']|].
    + rewrite Hp, lookup_delete_ne; [done|]. congruence.
    + destruct (source_of C G h) as [y|]; [|by rewrite Hp].
      destruct Hp as (q & z & _ & _ & ->). apply lookup_insert_is_Some'. auto.
  - destruct (decide (r = h)) as [->|Hrh]; [|right; exists r; by rewrite source_of_kept].
    left. destruct (send_of C G h) as [[d' x']|] eqn:Es.
    { by rewrite (send_not_source _ _ _ _ Es) in Hr. }
    rewrite Hr in Hp. destruct Hp as (q & z & _ & Hs' & ->). rewrite Hs in Hs'. simplify_eq.
    by rewrite lookup_insert_eq.
Qed.

(** *** Sums *)

Lemma undo_map_sum (f g : Z -> account_info -> Z) :
  (forall a j, accounts s !! a = Some j -> a <> ci_account m -> f a j = g a j) ->
  map_sum f (accounts s') = map_sum g (accounts s) - g (ci_account m) i
    + match accounts s' !! ci_account m with Some j => f (ci_account m) j | None => 0 end.
Proof.
  intros Hfg. pose proof (un_accounts HU) as Ha.
  rewrite <- (map_sum_delete g _ _ _ (rm_info HR)).
  assert (map_sum f (delete (ci_account m) (accounts s)) = map_sum g (delete (ci_account m) (accounts s)))
    as <-.
  { apply map_sum_ext. intros a j [Hne Hj]%lookup_delete_Some. by apply Hfg. }
  destruct (G !! previous b); [destruct Ha as [t ->]|rewrite Ha].
  - rewrite lookup_insert_eq, <- insert_delete_eq, map_sum_insert by apply lookup_delete_eq. lia.
  - rewrite lookup_delete_eq. lia.
Qed.

Lemma removed_balance : ai_balance i = ci_balance m.
Proof.
  destruct (li_head HI _ _ (rm_info HR)) as (ib & im & _ & Him & Hok). rewrite removed_head in Him.
  rewrite (rm_facts HR) in Him. injection Him as <-. by destruct Hok as (_ & -> & _).
Qed.

Lemma removed_rep : ai_rep_block i = ci_rep m.
Proof.
  destruct (li_head HI _ _ (rm_info HR)) as (ib & im & _ & Him & Hok). rewrite removed_head in Him.
  rewrite (rm_facts HR) in Him. injection Him as <-. by destruct Hok as (_ & _ & -> & _).
Qed.

Lemma undo_supply : supply s' = genesis_amount.
Proof.
  rewrite <- (li_supply HI). unfold supply.
  rewrite (undo_map_sum _ (fun _ j => ai_balance j)) by done. rewrite removed_balance.
  assert (match accounts s' !! ci_account m with Some j => ai_balance j | None => 0 end
          = balance_before G b) as ->.
  { pose proof undo_account as Ha. unfold balance_before.
    destruct (G !! previous b); [|by rewrite Ha]. destruct Ha as (j & -> & _ & _ & _ & -> & _). done. }
  pose proof (block_ok_balance C C G _ _ _ (chain_block (li_chain HI) _ _ _ _ (rm_block HR) (rm_facts HR))
    removed_content (facts_zero _ _ _ _ HI) (rm_not_genesis HR)) as Hb.
  pose proof (un_pending HU) as Hp. destruct (send_of C G h) as [[d x]|] eqn:Es.
  - destruct (rm_sent HR _ _ Es) as [p Hk]. rewrite Hp, (map_sum_delete _ _ _ _ Hk).
    destruct (li_pending HI _ _ Hk) as [Hs _]. cbn in Hs. rewrite Es in Hs. simplify_eq. lia.
  - destruct (source_of C G h) as [x|] eqn:Ex; [|rewrite Hp; lia].
    destruct Hp as (q & y & _ & Hs & ->). destruct Hb as (y' & [Hs' _] & ->).
    rewrite Hs in Hs'. simplify_eq. rewrite map_sum_insert; [cbn; lia|].
    destruct (pending s !! PendingKey (ci_account m) x) as [p|] eqn:Hk; [|done].
    by destruct (li_unreceived HI _ _ h Hk).
Qed.

Lemma undo_weight_of r : weight_of s' r = weight_of s r + undo_delta G s b m r.
Proof.
  unfold weight_of. rewrite undo_contents.
  assert (forall k km, k <> h -> G !! k = Some km -> rep_of C' (ci_rep km) = rep_of C (ci_rep km)) as Hrep.
  { intros k km Hk Hm. unfold rep_of. rewrite lookup_delete_ne; [done|]. intros E. by eapply (rep_kept k km). }
  rewrite (undo_map_sum _ (fun _ j => if rep_of C (ai_rep_block j) =? r then ai_balance j else 0)).
  - rewrite removed_balance, removed_rep. pose proof undo_account as Ha. unfold undo_delta.
    destruct (G !! previous b) as [p|] eqn:Ep; [|rewrite Ha; lia].
    destruct Ha as (j & -> & _ & _ & _ & -> & -> & _).
    rewrite (Hrep _ _ (not_previous _ _ _ (rm_block HR)) Ep). lia.
  - intros a j Hj Ha. destruct (li_head HI _ _ Hj) as (jb & jm & _ & Hm & _ & _ & -> & _).
    destruct (other_account _ _ Hj Ha) as (Hne & _). by rewrite (Hrep _ _ Hne Hm).
Qed.

(** *** Block information and the checksum *)

Lemma undo_info k v km : blocks_info s' !! k = Some v -> G' !! k = Some km ->
  bi_account v = ci_account km /\ bi_balance v = ci_balance km.
Proof.
  intros Hv [_ Hm]%lookup_delete_Some.
  destruct (un_info HU _ _ Hv) as [Hv'|(p & Hp & -> & -> & _)]; [by eapply (li_info HI)|].
  rewrite Hp in Hm. simplify_eq. cbn. pose proof removed_prev as Hpr. rewrite Hp in Hpr.
  by destruct Hpr as [(_ & _ & -> & _) _].
Qed.

Lemma undo_info_kept k kb ks km : blocks s' !! k = Some (kb, ks) -> is_legacy kb = true ->
  G' !! k = Some km -> Z.of_nat (ci_height km) mod block_info_max = 0 -> is_Some (blocks_info s' !! k).
Proof.
  rewrite (un_blocks HU). intros [Hk [ks' Hs]]%detached_stored Hl [_ Hm]%lookup_delete_Some Hh.
  apply (un_info_kept HU); [done|]. by eapply (li_info_kept HI).
Qed.

Lemma undo_info_height k v kb ks km : blocks_info s' !! k = Some v -> blocks s' !! k = Some (kb, ks) ->
  is_legacy kb = true -> G' !! k = Some km -> Z.of_nat (ci_height km) mod block_info_max = 0.
Proof.
  rewrite (un_blocks HU). intros Hv [Hk [ks' Hs]]%detached_stored Hl [_ Hm]%lookup_delete_Some.
  destruct (un_info HU _ _ Hv) as [Hv'|(p & Hp & -> & -> & Hh)]; [by eapply (li_info_height HI)|].
  by simplify_eq.
Qed.

Lemma undo_info_gone k v : blocks_info s' !! k = Some v -> G' !! k = None ->
  exists sb, admitted (State sb) /\ hash (State sb) = k
    /\ bi_account v = state_account sb /\ bi_balance v = state_balance sb.
Proof.
  intros Hv Hm. destruct (decide (k = h)) as [->|Hne].
  - destruct (is_legacy b) eqn:Hl; [by rewrite (un_info_legacy HU Hl) in Hv|].
    destruct (un_info HU _ _ Hv) as [Hv'|(p & _ & E & _)];
      [|by destruct (not_previous _ _ _ (rm_block HR))].
    destruct (li_info HI _ _ _ Hv' (rm_facts HR)) as [-> ->].
    pose proof (chain_block (li_chain HI) _ _ _ _ (rm_block HR) (rm_facts HR)) as Hok.
    pose proof (li_admitted HI _ _ _ (rm_block HR)) as Hadm.
    destruct b as [| | | |sb]; try done. destruct Hok as (-> & _ & -> & _). by exists sb.
  - rewrite lookup_delete_ne in Hm by done.
    destruct (un_info HU _ _ Hv) as [Hv'|(p & Hp & -> & _)]; [by apply (li_info_gone HI)|congruence].
Qed.

Lemma undo_admitted k kb ks : blocks s' !! k = Some (kb, ks) -> admitted kb.
Proof. rewrite (un_blocks HU). intros [_ [ks' Hs]]%detached_stored. by eapply (li_admitted HI). Qed.

Lemma undo_info_one : blocks_info s' !! 1 = None.
Proof.
  destruct (blocks_info s' !! 1) as [v|] eqn:Hv; [|done].
  destruct (un_info HU _ _ Hv) as [Hv'|(p & Hp & E & _)]; [by rewrite (li_info_one HI) in Hv'|].
  rewrite <- E in Hp. destruct (facts_stored _ _ _ _ HI _ _ Hp) as (ob & os & Hs & _).
  by destruct (chain_hash (li_chain HI) _ _ _ Hs) as [_ (_ & ? & _)].
Qed.

Lemma undo_checksum :
  checksums s' !! 0 = Some (Z.lxor K (map_lxor (fun _ j => ai_head j) (accounts s'))).
Proof.
  rewrite (un_checksum HU), (li_checksum HI). cbn [fmap option_fmap option_map]. f_equal.
  pose proof (un_accounts HU) as Ha. pose proof removed_prev as Hp.
  destruct (G !! previous b); [destruct Ha as [t ->]|rewrite Ha, Hp].
  - rewrite (map_lxor_update _ _ _ _ _ (rm_info HR)), removed_head, !Z.lxor_assoc. done.
  - rewrite (map_lxor_delete _ _ _ _ (rm_info HR)), removed_head, Z.lxor_0_r, Z.lxor_assoc. done.
Qed.

(** Removing the last block, with its updates, keeps the invariant. *)
Lemma remove_inv D' :
  (forall r, representation_get s' r = wrap 128 (weight_of s r + undo_delta G s b m r + D' r)) ->
  ledger_inv K D' G' s'.
Proof.
  intros HW.
  assert (forall r, representation_get s' r = wrap 128 (weight_of s' r + D' r)) as undo_weights.
  { intros r. by rewrite undo_weight_of. }
  split; eauto using undo_head, undo_owner, undo_tip, undo_open, undo_opened, undo_pending,
    undo_unreceived, undo_settled, undo_supply, undo_weights, undo_info, undo_info_kept,
    undo_info_height, undo_info_gone, undo_admitted, undo_info_one, undo_checksum.
  - apply HU.
  - rewrite (un_blocks HU). apply shrink_chain.
  - apply undo_frontiers.
Qed.
End remove.
End unwind.
