(* ===== verification/RollbackInv.v ===== *)
(** * RollbackInv: [ledger::rollback] on a consistent ledger

    Rolling back terminates, fails no assertion, keeps the invariant and removes the
    requested block; only blocks that come after it go with it. *)

From stdpp Require Import base list option tactics gmap.
From Stdlib Require Import ZArith Lia.
From S2P Require Import Prelude Blocks Common Stats Store Tables Visitors Ledger Rollback Chain.
From S2P Require Import Balance LedgerInv Queries Process Unwind.
#[local] Open Scope Z_scope.

Section rollback_inv.
Context `{E0 : Env} `{T0 : Traffic}.
Implicit Types (K : Z) (D : Z -> Z) (G : gmap Z chain_info) (s : store) (l : ledger).

Lemma count_prev n : wrap 64 (wrap 64 (Z.of_nat (S n)) - 1) = wrap 64 (Z.of_nat n).
Proof. rewrite wrap_sub_l. f_equal. lia. Qed.

(** ** The tables without the last block *)

Section tables.
Context K D G s (b : block) (m : chain_info) (i : account_info).
Context (HI : ledger_inv K D G s) (HR : removable G s b m i).

Lemma previous_of_kept k kb ks : blocks s !! k = Some (kb, ks) ->
  previous_known kb (delete (hash b) (blocks s))
  /\ (previous kb <> 0 -> previous kb <> k
      /\ exists pb, delete (hash b) (blocks s) !! previous kb = Some (pb, k)).
Proof.
  intros Hk. pose proof (not_previous _ _ _ _ _ _ _ HI HR _ _ _ Hk) as Hne.
  assert (previous kb <> 0 -> exists pb, delete (hash b) (blocks s) !! previous kb = Some (pb, k)) as Hp.
  { intros H0. rewrite lookup_delete_ne by done. by eapply (chain_back (li_chain HI)). }
  destruct (stored_facts _ _ _ _ HI _ _ _ Hk) as (km & Hm & Hok). split.
  - destruct (decide (previous kb = 0)) as [E|E].
    + destruct kb; cbn in Hok, E |- *; try (done || by left);
        destruct Hok as (? & ? & ?); unfold follows in *; naive_solver.
    + destruct (Hp E) as [pb Hpb]. destruct kb; cbn in Hpb |- *; eauto; by rewrite Hpb; eauto.
  - intros E. split; [|by apply Hp]. intros Ek.
    destruct (block_ok_follows _ _ _ _ _ Hok E) as (p & _ & Hpm & _ & _ & Hr).
    rewrite Ek, Hm in Hpm. simplify_eq. lia.
Qed.

Lemma delete_then_clear : previous b <> 0 ->
  exists t1 t2, block_del (hash b) s = Some t1 /\ tables_ok t1
    /\ block_successor_clear (previous b) t1 = Some t2 /\ tables_ok t2
    /\ blocks t2 = detach b (blocks s).
Proof.
  intros H0. destruct (block_del_blocks s _ _ (li_tables HI) (rm_block HR)) as (t1 & Ht1 & Hok1 & Hb1).
  destruct (chain_back (li_chain HI) _ _ _ (rm_block HR) H0) as [pb Hpb].
  destruct (chain_hash (li_chain HI) _ _ _ Hpb) as [Hh _].
  pose proof (not_previous _ _ _ _ _ _ _ HI HR _ _ _ (rm_block HR)) as Hne.
  destruct (previous_of_kept _ _ _ Hpb) as [Hk Hl].
  destruct (block_successor_clear_blocks (previous b) pb (hash b) t1) as (t2 & Ht2 & Hok2 & Hb2);
    try done; rewrite ?Hb1; try done.
  { by rewrite lookup_delete_ne. }
  exists t1, t2. split_and!; try done. rewrite Hb2, Hb1. apply map_eq. intros k.
  rewrite detach_lookup, lookup_insert, !lookup_delete. repeat case_decide; subst; try (congruence || done).
  by rewrite Hpb.
Qed.

Lemma clear_then_delete : previous b <> 0 ->
  exists t1 t2, block_successor_clear (previous b) s = Some t1 /\ tables_ok t1
    /\ block_del (hash b) t1 = Some t2 /\ tables_ok t2 /\ blocks t2 = detach b (blocks s).
Proof.
  intros H0. destruct (chain_back (li_chain HI) _ _ _ (rm_block HR) H0) as [pb Hpb].
  destruct (chain_hash (li_chain HI) _ _ _ Hpb) as [Hh _].
  pose proof (not_previous _ _ _ _ _ _ _ HI HR _ _ _ (rm_block HR)) as Hne.
  destruct (previous_of_kept _ _ _ Hpb) as [Hk Hl].
  destruct (block_successor_clear_blocks (previous b) pb (hash b) s) as (t1 & Ht1 & Hok1 & Hb1); try done.
  { apply HI. }
  { eapply previous_known_mono, Hk. intros k Hs. by apply lookup_delete_is_Some in Hs as [_ ?]. }
  { intros Hp. destruct (Hl Hp) as (? & ppb & [_ ?]%lookup_delete_Some). eauto. }
  destruct (block_del_blocks t1 (hash b) (b, 0) Hok1) as (t2 & Ht2 & Hok2 & Hb2).
  { rewrite Hb1, lookup_insert_ne by done. apply HR. }
  exists t1, t2. split_and!; try done. rewrite Hb2, Hb1. apply map_eq. intros k.
  rewrite detach_lookup, lookup_delete, lookup_insert. repeat case_decide; subst; try (congruence || done).
  by rewrite Hpb.
Qed.

Lemma delete_first : previous b = 0 ->
  exists t, block_del (hash b) s = Some t /\ tables_ok t /\ blocks t = detach b (blocks s).
Proof.
  intros H0. destruct (block_del_blocks s _ _ (li_tables HI) (rm_block HR)) as (t & Ht & Hok & Hb).
  exists t. split_and!; try done. rewrite Hb. apply map_eq. intros k.
  rewrite detach_lookup, lookup_delete, H0. repeat case_decide; subst; try (congruence || done).
  assert (blocks s !! 0 = None) as ->; [|done].
  destruct (blocks s !! 0) as [[zb zs]|] eqn:Hz; [|done].
  by destruct (chain_hash (li_chain HI) _ _ _ Hz) as [_ [? _]].
Qed.
End tables.

(** ** One block *)

(** The tables and the weights after [b] is undone. *)
Definition undone D G s (b : block) (m : chain_info) (i : account_info) s' : Prop :=
  unapplied G s b m i s'
  /\ forall r, representation_get s' r = wrap 128 (weight_of s r + undo_delta G s b m r + D r).

(** The block information after a head has moved back from [h] to [prev]. *)
Definition info_moved s (a prev bal : Z) (i : account_info) : gmap Z block_info :=
  if wrap 64 (ai_block_count i - 1) mod block_info_max =? 0
  then <[prev := BlockInfo a bal]> (blocks_info s) else blocks_info s.

Definition info_dropped s (a h prev bal : Z) (i : account_info) : gmap Z block_info :=
  if ai_block_count i mod block_info_max =? 0 then delete h (info_moved s a prev bal i)
  else info_moved s a prev bal i.

Section one.
Context K D G s (b : block) (m : chain_info) (i : account_info) (p : chain_info).
Context (HI : ledger_inv K D G s) (HR : removable G s b m i) (Hp : G !! previous b = Some p).
Local Abbreviation C := (contents (blocks s)).
Local Abbreviation h := (hash b).

Lemma one_prev : follows G (previous b) p m /\ exists pb, blocks s !! previous b = Some (pb, h).
Proof. pose proof (removed_prev _ _ _ _ _ _ _ HI HR) as Hr. by rewrite Hp in Hr. Qed.

Lemma one_count : ai_block_count i = wrap 64 (Z.of_nat (ci_height m)).
Proof.
  destruct (li_head HI _ _ (rm_info HR)) as (ib & im & _ & Him & _ & _ & _ & ->).
  rewrite (removed_head _ _ _ _ _ _ _ HI HR), (rm_facts HR) in Him. by injection Him as <-.
Qed.

Lemma one_count_prev : wrap 64 (ai_block_count i - 1) = wrap 64 (Z.of_nat (ci_height p)).
Proof. rewrite one_count. destruct one_prev as [(_ & _ & _ & -> & _) _]. apply count_prev. Qed.

Lemma info_moved_Some k v : info_moved s (ci_account m) (previous b) (ci_balance p) i !! k = Some v ->
  blocks_info s !! k = Some v
  \/ exists p, G !! previous b = Some p /\ k = previous b /\ v = BlockInfo (ci_account m) (ci_balance p)
       /\ Z.of_nat (ci_height p) mod block_info_max = 0.
Proof.
  unfold info_moved. rewrite one_count_prev, count_info. case_match eqn:E; [|by left].
  apply Z.eqb_eq in E. intros [[<- <-]|[_ ?]]%lookup_insert_Some; [right; by eauto|by left].
Qed.

(** No entry is left for a legacy block. *)
Lemma info_dropped_legacy : is_legacy b = true ->
  info_dropped s (ci_account m) h (previous b) (ci_balance p) i !! h = None.
Proof.
  intros Hl. unfold info_dropped. rewrite one_count, count_info.
  destruct (Z.eqb_spec (Z.of_nat (ci_height m) mod block_info_max) 0) as [E|E]; [apply lookup_delete_eq|].
  destruct (info_moved _ _ _ _ _ !! h) as [v|] eqn:Hv; [|done].
  apply info_moved_Some in Hv as [Hv|(q & _ & Hq & _)].
  - by destruct E; eapply (li_info_height HI); [|apply HR| |apply HR].
  - by destruct (not_previous _ _ _ _ _ _ _ HI HR _ _ _ (rm_block HR)).
Qed.

Lemma info_moved_kept k : is_Some (blocks_info s !! k) ->
  is_Some (info_moved s (ci_account m) (previous b) (ci_balance p) i !! k).
Proof. intros Hk. unfold info_moved. case_match; [|done]. apply lookup_insert_is_Some'. auto. Qed.

Lemma unapplied_existing F t P BI R tm mt c :
  checksums s !! 0 = Some c ->
  tables_ok t -> blocks t = detach b (blocks s) ->
  (forall k a, F !! k = Some a <-> k = previous b /\ a = ci_account m /\ legacy C k
     \/ k <> h /\ k <> previous b /\ frontiers s !! k = Some a) ->
  match send_of C G h, source_of C G h with
  | Some (d, _), _ => P = delete (PendingKey d h) (pending s)
  | None, Some x => exists q y, G !! x = Some q /\ send_of C G x = Some (ci_account m, y)
      /\ P = <[PendingKey (ci_account m) x := PendingInfo (ci_account q) y]> (pending s)
  | None, None => P = pending s
  end ->
  (is_legacy b = false /\ BI = info_moved s (ci_account m) (previous b) (ci_balance p) i
   \/ BI = info_dropped s (ci_account m) h (previous b) (ci_balance p) i) ->
  unapplied G s b m i
    (Store F (<[ci_account m := AccountInfo (previous b) (ci_rep p) (ai_open_block i) (ci_balance p) tm
                  (wrap 64 (ai_block_count i - 1))]> (accounts s))
       t P BI R (<[0 := Z.lxor (Z.lxor c (ai_head i)) (previous b)]> (checksums s)) mt).
Proof.
  intros Hc Ht Htb HF HP HBI. rewrite (removed_head _ _ _ _ _ _ _ HI HR), one_count_prev.
  split; cbn; try done.
  - rewrite Hp. by exists tm.
  - intros k v Hk. apply info_moved_Some. destruct HBI as [[_ ->] | ->]; [done|].
    unfold info_dropped in Hk. case_match; [|done]. by apply lookup_delete_Some in Hk as [_ ?].
  - intros Hl. destruct HBI as [[? _] | ->]; [congruence|by apply info_dropped_legacy].
  - intros k Hk Hs. apply info_moved_kept in Hs. destruct HBI as [[_ ->] | ->]; [done|].
    unfold info_dropped. destruct (ai_block_count i mod _ =? 0); [|done]. by rewrite lookup_delete_ne.
  - by rewrite lookup_insert_eq, Hc.
Qed.

(** The block information a legacy block leaves is there. *)
Lemma drop_info_spec l :
  is_legacy b = true -> blocks_info (l_store l) = info_moved s (ci_account m) (previous b) (ci_balance p) i ->
  drop_info h i l
  = Some (upd (set_blocks_info (info_dropped s (ci_account m) h (previous b) (ci_balance p) i)) l).
Proof.
  intros Hl HBI. unfold drop_info, info_dropped.
  destruct (Z.eqb_spec (ai_block_count i mod block_info_max) 0) as [E|E].
  - rewrite one_count, count_info in E.
    destruct (li_info_kept HI _ _ _ _ (rm_block HR) Hl (rm_facts HR) E) as [v Hv].
    destruct (info_moved_kept h) as [w Hw]; [by eauto|].
    unfold block_info_del. erewrite try_Some by (by rewrite HBI, Hw). done.
  - rewrite <- HBI. by destruct l as [[] ? ? ? ? ?].
Qed.

Lemma legacy_frontier : is_legacy b = true -> frontiers s !! h = Some (ci_account m).
Proof.
  intros Hl. apply (li_frontiers HI). exists i.
  split_and!; [apply HR|by eapply removed_head|]. exists b. by rewrite (removed_content _ _ _ _ _ HR).
Qed.

Lemma frontier_back k a : legacy C (previous b) ->
  <[previous b := ci_account m]> (delete h (frontiers s)) !! k = Some a <->
  k = previous b /\ a = ci_account m /\ legacy C k
  \/ k <> h /\ k <> previous b /\ frontiers s !! k = Some a.
Proof. intros Hl. rewrite lookup_insert_Some, lookup_delete_Some. naive_solver. Qed.
End one.

(** The tables after an account is gone. *)
Definition head_gone (a c : Z) s : store :=
  Store (frontiers s) (delete a (accounts s)) (tables s) (pending s) (blocks_info s)
    (representation s) (<[0 := c]> (checksums s)) (meta s).

Lemma change_latest_gone l a rep bal count is_state info c :
  account_get (l_store l) a = Some info -> checksums (l_store l) !! 0 = Some c ->
  change_latest a 0 rep bal count is_state l
  = Some (upd (head_gone a (Z.lxor c (ai_head info))) l).
Proof.
  intros Ha Hc. unfold change_latest. rewrite Ha. unfold try.
  rewrite (checksum_update_spec _ _ _ Hc). unfold account_get in Ha. unfold account_del.
  cbn. by rewrite Ha.
Qed.

Lemma unapplied_first K D G s b m i F t P R mt c :
  ledger_inv K D G s -> removable G s b m i -> previous b = 0 ->
  checksums s !! 0 = Some c -> tables_ok t -> blocks t = detach b (blocks s) ->
  F = delete (hash b) (frontiers s) ->
  match source_of (contents (blocks s)) G (hash b) with
  | Some x => exists q y, G !! x = Some q /\ send_of (contents (blocks s)) G x = Some (ci_account m, y)
      /\ P = <[PendingKey (ci_account m) x := PendingInfo (ci_account q) y]> (pending s)
  | None => P = pending s
  end ->
  unapplied G s b m i
    (Store F (delete (ci_account m) (accounts s)) t P (blocks_info s) R
       (<[0 := Z.lxor c (ai_head i)]> (checksums s)) mt).
Proof.
  intros HI HR H0 Hc Ht Htb -> HP. pose proof (facts_zero _ _ _ _ HI) as Hz.
  rewrite (removed_head _ _ _ _ _ _ _ HI HR). split; cbn; rewrite ?H0; try done.
  - by rewrite Hz.
  - intros k a. rewrite lookup_delete_Some. split.
    + intros [Hk Hf]. right. split_and!; [done| |done].
      by destruct (frontier_stored _ _ _ _ HI _ _ Hf).
    + intros [(-> & _ & lb & [ls Hl]%contents_Some & _)|?]; [|naive_solver].
      by destruct (chain_hash (li_chain HI) _ _ _ Hl) as [_ [? _]].
  - enough (send_of (contents (blocks s)) G (hash b) = None) as -> by done.
    unfold send_of. rewrite (removed_content _ _ _ _ _ HR). destruct b; cbn in H0; try done.
    + by rewrite H0, Hz.
    + by rewrite H0.
  - auto.
  - intros Hl. destruct (blocks_info s !! hash b) as [v|] eqn:Hv; [|done].
    pose proof (li_info_height HI _ _ _ _ _ Hv (rm_block HR) Hl (rm_facts HR)) as Hm.
    pose proof (chain_block (li_chain HI) _ _ _ _ (rm_block HR) (rm_facts HR)) as Hok.
    assert (ci_height m = 1%nat) as E; [|by rewrite E in Hm].
    destruct b; cbn in Hok, H0, Hl; try done; unfold follows in Hok; naive_solver.
  - rewrite lookup_insert_eq, Hc. cbn. by rewrite Z.lxor_0_r.
Qed.

(** The visitors read the block tables and the block information only. *)
Lemma balance_same K D G s h m :
  ledger_inv K D G s -> G !! h = Some m -> forall s1, tables s1 = tables s -> blocks_info s1 = blocks_info s ->
  balance s1 h = Some (ci_balance m).
Proof.
  intros HI Hm s1 Ht Hi. apply (balance_facts s1 G); [by rewrite Ht; apply HI..| |done]. rewrite Hi.
  intros k j km Hj Hk. by eapply (li_info HI).
Qed.

Lemma representative_same K D G s h m :
  ledger_inv K D G s -> G !! h = Some m -> forall s1, tables s1 = tables s ->
  ledger_representative s1 h = Some (ci_rep m).
Proof. intros HI Hm s1 Ht. apply (representative_facts s1 G); rewrite ?Ht; [apply HI..|done]. Qed.

Ltac on_blocks E :=
  erewrite try_Some by (apply on_tables_Some; exact E); cbn [mbind option_bind].
Ltac move_head HI :=
  erewrite change_latest_existing; [|done|apply (li_checksum HI)|done]; cbn [mbind option_bind].

Section visits.
Context K D G l (m : chain_info) (i : account_info).
Context (HI : ledger_inv K D G (l_store l)).
Local Abbreviation s := (l_store l).
Local Abbreviation C := (contents (blocks (l_store l))).

Lemma rep_stored h hm : G !! h = Some hm -> is_Some (C !! ci_rep hm).
Proof. intros Hm. destruct (chain_facts (li_chain HI) _ _ Hm) as (_ & _ & _ & rb & -> & _). done. Qed.

Lemma undo_receive b : removable G s (Receive b) m i ->
  exists l', rollback_receive b l = Some l' /\ undone D G s (Receive b) m i (l_store l').
Proof.
  intros HR. pose proof (chain_block (li_chain HI) _ _ _ _ (rm_block HR) (rm_facts HR)) as Hok.
  cbn in Hok. destruct Hok as (p & y & Hf & Hleg & Hrep & [Hsend (q & Hq & _)] & Hbal).
  pose proof Hf as (Hne & Hp & _). pose proof (rm_facts HR) as Hm. pose proof (rm_info HR) as Hi.
  unfold rollback_receive.
  rewrite (representative_of _ _ _ _ HI _ _ Hp), (amount_of _ _ _ _ HI _ _ _ Hsend),
    (account_of _ _ _ _ HI _ _ Hm), (account_of _ _ _ _ HI _ _ Hq).
  cbn [mbind option_bind]. unfold account_get. rewrite Hi.
  cbn [mbind option_bind]. rewrite (representative_of _ _ _ _ HI _ _ Hm). cbn [mbind option_bind].
  add_weight R HRw; [apply HI|exact (weights_width _ _ _ _ HI)|by eapply rep_stored|].
  rewrite (balance_same _ _ _ _ _ _ HI Hp) by done. cbn [mbind option_bind].
  move_head HI. destruct (delete_then_clear _ _ _ _ _ _ _ HI HR) as (t1 & t2 & Ht1 & _ & Ht2 & Htok & Htb);
    [done|]. on_blocks Ht1. remove (legacy_frontier _ _ _ _ _ _ _ HI HR ltac:(done)).
  on_blocks Ht2.
  rewrite (drop_info_spec K D G s (Receive b) m i p HI HR);
    [|done|by cbn; unfold info_moved; rewrite andb_true_r]. cbn [mbind option_bind].
  eexists. split; [done|]. split.
  - eapply (unapplied_existing K D G s (Receive b) m i p HI HR Hp); try done; cbn.
    + apply (li_checksum HI).
    + intros. by apply (frontier_back _ (Receive b)).
    + unfold send_of at 1, source_of. rewrite (removed_content _ _ _ _ _ HR). eauto 10.
    + by right.
  - intros r. etransitivity; [apply HRw|]. rewrite (li_weights HI). unfold undo_delta. cbn.
    rewrite Hp, Hrep, Hbal. case_match; wrap_eq.
Qed.

Lemma undo_send_ok b pnd : removable G s (Send b) m i ->
  pending s !! PendingKey (send_destination b) (hash (Send b)) = Some pnd ->
  exists l', undo_send b pnd l = Some l' /\ undone D G s (Send b) m i (l_store l').
Proof.
  intros HR Hpnd. pose proof (chain_block (li_chain HI) _ _ _ _ (rm_block HR) (rm_facts HR)) as Hok.
  cbn in Hok. destruct Hok as (p & Hf & Hleg & Hrep & Hbal & Hle).
  pose proof Hf as (Hne & Hp & _). pose proof (rm_facts HR) as Hm. pose proof (rm_info HR) as Hi.
  destruct (li_pending HI _ _ Hpnd) as (Hsend & m' & Hm' & Hsrc). cbn in Hsend, Hm'.
  rewrite Hm in Hm'. injection Hm' as <-. unfold undo_send, account_get. rewrite <- Hsrc, Hi.
  cbn [mbind option_bind]. remove Hpnd.
  rewrite (representative_same _ _ _ _ _ _ HI Hm) by done. cbn [mbind option_bind].
  add_weight R HRw; [apply HI|exact (weights_width _ _ _ _ HI)|by eapply rep_stored|].
  rewrite (balance_same _ _ _ _ _ _ HI Hp) by done. cbn [mbind option_bind].
  rewrite (removed_rep _ _ _ _ _ _ _ HI HR), Hrep.
  move_head HI. destruct (delete_then_clear _ _ _ _ _ _ _ HI HR) as (t1 & t2 & Ht1 & _ & Ht2 & Htok & Htb);
    [done|]. on_blocks Ht1. remove (legacy_frontier _ _ _ _ _ _ _ HI HR ltac:(done)).
  on_blocks Ht2.
  rewrite (drop_info_spec K D G s (Send b) m i p HI HR);
    [|done|by cbn; unfold info_moved; rewrite andb_true_r]. cbn [mbind option_bind].
  assert (send_of C G (hash (Send b)) = Some (send_destination b, ci_balance p - ci_balance m)) as Hs.
  { unfold send_of. rewrite (removed_content _ _ _ _ _ HR), Hp, Hbal. done. }
  eexists. split; [done|]. split.
  - eapply (unapplied_existing K D G s (Send b) m i p HI HR Hp); try done; cbn.
    + apply (li_checksum HI).
    + intros. by apply (frontier_back _ (Send b)).
    + by rewrite Hs.
    + by right.
  - intros r. etransitivity; [apply HRw|]. unfold representation_get. cbn. fold (representation_get s r).
    rewrite (li_weights HI). unfold undo_delta. cbn. rewrite Hp, Hrep. rewrite Hsend in Hs. simplify_eq.
    case_match; wrap_eq.
Qed.

Lemma undo_change b : removable G s (Change b) m i ->
  exists l', rollback_change b l = Some l' /\ undone D G s (Change b) m i (l_store l').
Proof.
  intros HR. pose proof (chain_block (li_chain HI) _ _ _ _ (rm_block HR) (rm_facts HR)) as Hok.
  cbn in Hok. destruct Hok as (p & Hf & Hleg & Hrep & Hbal).
  pose proof Hf as (Hne & Hp & Ha & _). pose proof (rm_facts HR) as Hm. pose proof (rm_info HR) as Hi.
  unfold rollback_change. rewrite (representative_of _ _ _ _ HI _ _ Hp), (account_of _ _ _ _ HI _ _ Hp), <- Ha.
  cbn [mbind option_bind]. unfold account_get. rewrite Hi. cbn [mbind option_bind].
  rewrite (balance_of _ _ _ _ HI _ _ Hp). cbn [mbind option_bind].
  add_weight R1 HR1; [apply HI|exact (weights_width _ _ _ _ HI)|by eapply rep_stored|].
  add_weight R2 HR2; [apply HI| | |].
  { intros r. eapply rep_added_width, HR1. }
  { cbn. by rewrite (removed_content _ _ _ _ _ HR). }
  destruct (delete_then_clear _ _ _ _ _ _ _ HI HR) as (t1 & t2 & Ht1 & _ & Ht2 & Htok & Htb);
    [done|]. on_blocks Ht1. rewrite (removed_balance _ _ _ _ _ _ _ HI HR), Hbal. move_head HI.
  remove (legacy_frontier _ _ _ _ _ _ _ HI HR ltac:(done)). on_blocks Ht2.
  rewrite (drop_info_spec K D G s (Change b) m i p HI HR);
    [|done|by cbn; unfold info_moved; rewrite andb_true_r]. cbn [mbind option_bind].
  eexists. split; [done|]. split.
  - eapply (unapplied_existing K D G s (Change b) m i p HI HR Hp); try done; cbn.
    + apply (li_checksum HI).
    + intros. by apply (frontier_back _ (Change b)).
    + unfold send_of, source_of. by rewrite (removed_content _ _ _ _ _ HR).
    + by right.
  - intros r. etransitivity; [apply HR2|]. unfold representation_get. cbn. rewrite HR1.
    rewrite (li_weights HI). unfold undo_delta. cbn. rewrite Hp, Hrep, Hbal.
    repeat case_match; wrap_eq.
Qed.

Lemma undo_open_ok b : removable G s (Open b) m i ->
  exists l', rollback_open b l = Some l' /\ undone D G s (Open b) m i (l_store l').
Proof.
  intros HR. pose proof (chain_block (li_chain HI) _ _ _ _ (rm_block HR) (rm_facts HR)) as Hok.
  cbn in Hok. destruct Hok as (_ & _ & Hrep & [[Hg _]|[Hg [Hsend (q & Hq & _)]]]).
  { by destruct (rm_not_genesis HR). }
  pose proof (rm_facts HR) as Hm. pose proof (rm_info HR) as Hi. unfold rollback_open.
  rewrite (amount_of _ _ _ _ HI _ _ _ Hsend), (account_of _ _ _ _ HI _ _ Hm),
    (account_of _ _ _ _ HI _ _ Hq). cbn [mbind option_bind].
  rewrite (representative_of _ _ _ _ HI _ _ Hm). cbn [mbind option_bind].
  add_weight R HRw; [apply HI|exact (weights_width _ _ _ _ HI)|by eapply rep_stored|].
  erewrite change_latest_gone by (done || apply (li_checksum HI)). cbn [mbind option_bind].
  destruct (delete_first _ _ _ _ _ _ _ HI HR eq_refl) as (t & Ht & Htok & Htb). on_blocks Ht.
  remove (legacy_frontier _ _ _ _ _ _ _ HI HR ltac:(done)).
  eexists. split; [done|]. split.
  - eapply (unapplied_first K D G s (Open b)); try done; [apply (li_checksum HI)|].
    unfold source_of. rewrite (removed_content _ _ _ _ _ HR), (proj2 (Z.eqb_neq _ _) Hg). eauto 10.
  - intros r. etransitivity; [apply HRw|]. rewrite (li_weights HI). unfold undo_delta. cbn.
    rewrite (facts_zero _ _ _ _ HI). case_match; wrap_eq.
Qed.

(** *** State blocks *)

Definition prev_rep (b : block) : Z := match G !! previous b with Some p => ci_rep p | None => 0 end.

Lemma inv_set_representation D' R :
  (forall r, default 0 (R !! r) = wrap 128 (weight_of s r + D' r)) ->
  ledger_inv K D' G (set_representation R s).
Proof. intros HW. destruct HI. by split. Qed.

Lemma undo_state_weights b :
  blocks s !! hash (State b) = Some (State b, 0) -> G !! hash (State b) = Some m ->
  exists R, rollback_state_weights b (prev_rep (State b)) (balance_before G (State b)) l
    = Some (upd (set_representation R) l)
    /\ forall r, default 0 (R !! r)
         = wrap 128 (weight_of s r + (undo_delta G s (State b) m r + D r)).
Proof.
  intros Hb Hm. destruct (chain_block (li_chain HI) _ _ _ _ Hb Hm) as (_ & Hrep & Hbal & _).
  assert (C !! hash (State b) = Some (State b)) as Hc by (by rewrite contents_lookup, Hb).
  unfold rollback_state_weights, prev_rep, balance_before, undo_delta.
  add_weight R1 HR1; [apply HI|exact (weights_width _ _ _ _ HI)|by rewrite Hc|].
  rewrite Hrep, Hbal. destruct (G !! previous (State b)) as [p|] eqn:Hp.
  - destruct (rep_stored _ _ Hp) as [rb Hrb]. pose proof Hrb as [rs Hrs]%contents_Some.
    destruct (chain_hash (li_chain HI) _ _ _ Hrs) as [_ [H0 _]].
    rewrite (proj2 (Z.eqb_neq _ _) H0). cbn [negb].
    add_weight R2 HR2; [apply HI| |cbn; by rewrite Hrb|].
    { intros r. eapply rep_added_width, HR1. }
    eexists. split; [done|]. intros r. rewrite HR2. unfold representation_get. cbn. rewrite HR1.
    rewrite (li_weights HI). repeat case_match; wrap_eq.
  - eexists. split; [done|]. intros r. rewrite HR1, (li_weights HI). case_match; wrap_eq.
Qed.

Lemma state_frontier_back b p k a : removable G s (State b) m i -> G !! state_previous b = Some p ->
  forall pb, C !! state_previous b = Some pb ->
  (if block_type_code (block_type_of pb) <? block_type_code bt_state
   then <[state_previous b := ci_account m]> (frontiers s) else frontiers s) !! k = Some a <->
  k = state_previous b /\ a = ci_account m /\ legacy C k
  \/ k <> hash (State b) /\ k <> state_previous b /\ frontiers s !! k = Some a.
Proof.
  intros HR Hp pb Hpb. destruct (one_prev _ _ _ _ _ _ _ _ HI HR Hp) as [_ [pb' Hpb']].
  pose proof (removed_content _ _ _ _ _ HR) as Hc.
  assert (frontiers s !! hash (State b) = None /\ frontiers s !! state_previous b = None) as [H1 H2].
  { split; apply eq_None_not_Some; intros [fa (j & Hj & Hh & Hl)%(frontier_facts _ _ _ _ HI)].
    - destruct Hl as (lb & Hlb & Hl). rewrite Hc in Hlb. by simplify_eq.
    - destruct (li_head HI _ _ Hj) as (jb & jm & Hs & _). rewrite Hh in Hs. cbn in Hpb'.
      destruct (chain_hash (li_chain HI) _ _ _ (rm_block HR)) as [_ [? _]]. congruence. }
  assert (legacy C (state_previous b) <->
          (block_type_code (block_type_of pb) <? block_type_code bt_state) = true) as Hl.
  { unfold legacy. rewrite Hpb. split; [intros (? & [= <-] & ?)|intros ?; exists pb; split; [done|]];
      by destruct pb. }
  destruct (block_type_code _ <? _).
  - rewrite lookup_insert_Some. naive_solver.
  - naive_solver.
Qed.

(** The head moves back and the block goes; [l3] has the pending table updated. *)
Lemma undo_state_head b l3 P : removable G s (State b) m i ->
  l_store l3 = set_pending P s ->
  match send_of C G (hash (State b)), source_of C G (hash (State b)) with
  | Some (d, _), _ => P = delete (PendingKey d (hash (State b))) (pending s)
  | None, Some x => exists q y, G !! x = Some q /\ send_of C G x = Some (ci_account m, y)
      /\ P = <[PendingKey (ci_account m) x := PendingInfo (ci_account q) y]> (pending s)
  | None, None => P = pending s
  end ->
  exists l', rollback_state_head b (prev_rep (State b)) (balance_before G (State b)) l3 = Some l'
    /\ unapplied G s (State b) m i (l_store l') /\ representation (l_store l') = representation s.
Proof.
  intros HR Hl3 HP. pose proof (chain_block (li_chain HI) _ _ _ _ (rm_block HR) (rm_facts HR)) as Hok.
  destruct Hok as (Ha & _). pose proof (rm_info HR) as Hi.
  unfold rollback_state_head, prev_rep, balance_before, account_get. rewrite Hl3, <- Ha. cbn [accounts set_pending].
  rewrite Hi. cbn [mbind option_bind previous]. pose proof (removed_prev _ _ _ _ _ _ _ HI HR) as Hprev.
  cbn [previous] in Hprev. destruct (G !! state_previous b) as [p|] eqn:Hp.
  - destruct Hprev as [(Hne & _) [pb Hpb]].
    erewrite change_latest_existing; rewrite ?Hl3; [|done|apply (li_checksum HI)|done]. cbn [mbind option_bind].
    unfold rollback_state_previous. cbn [l_store upd set_store tick]. rewrite Hl3.
    assert (C !! state_previous b = Some pb) as Hpc by (by rewrite contents_lookup, Hpb).
    unfold head_moved at 1. cbn [tables set_pending]. rewrite (block_get_of _ _ _ _ HI), Hpc.
    destruct (clear_then_delete _ _ _ _ _ _ _ HI HR) as (t1 & t2 & Ht1 & _ & Ht2 & Htok & Htb); [done|].
    erewrite (try_Some (on_tables (block_successor_clear _)))
      by (apply on_tables_Some; cbn; rewrite Hl3; exact Ht1).
    cbn [mbind option_bind]. rewrite <- Ha.
    pose proof (fun k a => state_frontier_back b p k a HR Hp pb Hpc) as HF.
    destruct (block_type_code _ <? _); (erewrite try_Some by (apply on_tables_Some; exact Ht2));
      (eexists; split; [done|]; split; [|cbn; by rewrite Hl3]); cbn; rewrite Hl3; cbn;
      rewrite andb_true_r;
      (eapply (unapplied_existing K D G s (State b) m i p HI HR Hp); try done; [apply (li_checksum HI)|by left]).
  - rewrite Hprev.
    erewrite change_latest_gone; rewrite ?Hl3; [|done|apply (li_checksum HI)]. cbn [mbind option_bind].
    unfold rollback_state_previous. cbn [l_store upd set_store]. rewrite Hl3, Hprev.
    unfold head_gone at 1. cbn [tables set_pending]. rewrite (block_get_of _ _ _ _ HI).
    rewrite (zero_not_stored s G (li_chain HI)). cbn [mbind option_bind].
    destruct (delete_first _ _ _ _ _ _ _ HI HR Hprev) as (t & Ht & Htok & Htb).
    erewrite try_Some by (apply on_tables_Some; cbn; rewrite Hl3; exact Ht).
    eexists. split; [done|]. split; [|cbn; by rewrite Hl3]. cbn. rewrite Hl3. cbn.
    eapply (unapplied_first K D G s (State b)); try done; [apply (li_checksum HI)| |].
    + symmetry. apply delete_id. apply eq_None_not_Some.
      intros [fa (j & Hj & Hh & lb & Hlb & Hl)%(frontier_facts _ _ _ _ HI)].
      rewrite (removed_content _ _ _ _ _ HR) in Hlb. by simplify_eq.
    + destruct (send_of C G (hash (State b))) as [[d x]|] eqn:Es; [|done].
      unfold send_of in Es. rewrite (removed_content _ _ _ _ _ HR), Hprev in Es. done.
Qed.
End visits.

(** ** Blocks that go together *)

Definition genesis_open (b : block) : Prop :=
  match b with Open b => open_source b = genesis_account | _ => False end.

Definition not_genesis s (y : Z) : Prop :=
  forall b, contents (blocks s) !! y = Some b -> ~ genesis_open b.

(** Only blocks that depend on [y], ranked [r] or above, are gone. *)
Record shrunk (y : Z) (r : nat) G s G' s' : Prop := {
  sh_facts : G' ⊆ G;
  sh_contents : contents (blocks s') ⊆ contents (blocks s);
  sh_kept k km : G !! k = Some km -> (ci_rank km < r)%nat -> G' !! k = Some km;
  sh_gone k km : G !! k = Some km -> G' !! k = None -> depends (contents (blocks s)) k y
}.
#[global] Arguments sh_facts {_ _ _ _ _ _} _.
#[global] Arguments sh_contents {_ _ _ _ _ _} _.
#[global] Arguments sh_kept {_ _ _ _ _ _} _ _ _ _ _.
#[global] Arguments sh_gone {_ _ _ _ _ _} _ _ _ _ _.

Lemma shrunk_refl y r G s : shrunk y r G s G s.
Proof. split; try done. congruence. Qed.

Lemma shrunk_trans y r1 r2 G s G1 s1 G2 s2 :
  shrunk y r1 G s G1 s1 -> shrunk y r2 G1 s1 G2 s2 -> shrunk y (Nat.min r1 r2) G s G2 s2.
Proof.
  intros [F1 C1 K1 D1] [F2 C2 K2 D2]. split; [by etransitivity..| |].
  - intros k km Hk Hr. apply K2; [apply K1; [done|lia]|lia].
  - intros k km Hk Hg. destruct (G1 !! k) as [km1|] eqn:E; [|by eapply D1].
    eapply depends_mono, D2; eauto.
Qed.

Lemma shrunk_weaken y y' r r' G s G' s' : (r' <= r)%nat -> depends (contents (blocks s)) y y' ->
  shrunk y r G s G' s' -> shrunk y' r' G s G' s'.
Proof.
  intros Hr Hd [F1 C1 K1 D1]. split; [done..| |].
  - intros k km Hk Hl. apply K1; [done|lia].
  - intros k km Hk Hg. eapply depends_trans; eauto.
Qed.

Lemma not_genesis_shrunk y0 r G s G' s' y : shrunk y0 r G s G' s' -> not_genesis s y -> not_genesis s' y.
Proof. intros Hs Hn b Hb. apply Hn. by eapply lookup_weaken, sh_contents. Qed.

(** A last block stays a last block. *)
Lemma tip_kept K D K' D' y r G s G' s' x b m :
  ledger_inv K D G s -> ledger_inv K' D' G' s' -> shrunk y r G s G' s' ->
  blocks s !! x = Some (b, 0) -> G' !! x = Some m -> blocks s' !! x = Some (b, 0).
Proof.
  intros HI HI' Hs Hb Hm. destruct (facts_stored _ _ _ _ HI' _ _ Hm) as (b' & succ & Hb' & _ & _).
  assert (contents (blocks s) !! x = Some b') as Hc.
  { eapply lookup_weaken, sh_contents; [|done]. by rewrite contents_lookup, Hb'. }
  rewrite contents_lookup, Hb in Hc. injection Hc as <-.
  destruct (decide (succ = 0)) as [->|Hne]; [done|].
  destruct (chain_forth (li_chain HI') _ _ _ Hb' Hne) as (sb & ss & Hsb & Hp).
  assert (contents (blocks s) !! succ = Some sb) as [ss' Hss]%contents_Some.
  { eapply lookup_weaken, sh_contents; [|done]. by rewrite contents_lookup, Hsb. }
  by destruct (tip_not_previous _ _ _ _ HI _ _ _ _ _ Hb Hss).
Qed.

Lemma send_of_shrunk K D y r G s G' s' x m :
  ledger_inv K D G' s' -> shrunk y r G s G' s' -> G' !! x = Some m ->
  send_of (contents (blocks s)) G x = send_of (contents (blocks s')) G' x.
Proof.
  intros HI Hs Hm. destruct (facts_stored _ _ _ _ HI _ _ Hm) as (b & succ & Hb & _ & _).
  eapply send_of_stable; [apply HI|by rewrite contents_lookup, Hb|by eapply sh_contents|by eapply sh_facts].
Qed.

(** The head of the account that received the pending send [x]. *)
Lemma destination_head K D G s x m d y :
  ledger_inv K D G s -> G !! x = Some m -> send_of (contents (blocks s)) G x = Some (d, y) ->
  pending s !! PendingKey d x = None ->
  exists i hm, accounts s !! d = Some i /\ G !! ai_head i = Some hm /\ (ci_rank m < ci_rank hm)%nat
    /\ not_genesis s (ai_head i) /\ depends (contents (blocks s)) (ai_head i) x.
Proof.
  intros HI Hm Hs Hp. destruct (li_settled HI _ _ _ Hs) as [Hd|[k Hk]].
  { rewrite Hp in Hd. by destruct (is_Some_None Hd). }
  destruct (source_of_receives _ _ _ _ (li_chain HI) Hk) as (km & y' & Hkm & [Hs' (q & Hq & Hr)]).
  rewrite Hs in Hs'. simplify_eq.
  destruct (head_above _ _ _ _ HI _ _ Hkm) as (i & hm & Hi & Hhm & Hc & Hdep). exists i, hm.
  split_and!; [done..|destruct Hc as [<-|]; simplify_eq; lia| |].
  2: { eapply depends_trans; [done|]. destruct (source_of_lookup _ _ _ _ Hk) as [kb Hkb].
       eapply depends_step; [done|by eapply source_of_refers|apply depends_refl]. }
  intros b Hb Hg. destruct (li_head HI _ _ Hi) as (hb & hm' & Hsb & Hhm' & Ha & _).
  rewrite Hhm in Hhm'. injection Hhm' as <-.
  assert (hb = b) as -> by (rewrite contents_lookup, Hsb in Hb; by injection Hb).
  destruct b as [| |ob| |]; try done. cbn in Hg.
  assert (k = ai_head i) as -> by (by eapply (only_block _ _ _ _ HI)).
  unfold source_of in Hk. by rewrite Hb, (proj2 (Z.eqb_eq _ _) Hg) in Hk.
Qed.

(** What a nested call does for the block [x] that is being undone. *)
Definition rb_ok K (rb : Z -> ledger -> option ledger) (G0 : gmap Z chain_info) (x : Z)
    (m : chain_info) : Prop :=
  forall D G l y ym, ledger_inv K D G (l_store l) -> G ⊆ G0 -> G !! x = Some m -> G !! y = Some ym ->
    (ci_rank m < ci_rank ym)%nat -> not_genesis (l_store l) y ->
    exists l' G', rb y l = Some l' /\ ledger_inv K D G' (l_store l')
      /\ shrunk y (ci_rank ym) G (l_store l) G' (l_store l') /\ G' !! y = None.

Lemma until_pending_ok K rb G0 x m d y : rb_ok K rb G0 x m ->
  forall n D G l, ledger_inv K D G (l_store l) -> G ⊆ G0 -> G !! x = Some m ->
    send_of (contents (blocks (l_store l))) G x = Some (d, y) -> (size G < n)%nat ->
    exists p l' G', until_pending rb n (PendingKey d x) d l = Some (p, l')
      /\ pending (l_store l') !! PendingKey d x = Some p
      /\ ledger_inv K D G' (l_store l')
      /\ shrunk x (S (ci_rank m)) G (l_store l) G' (l_store l').
Proof.
  intros Hrb. induction n as [|n IH]; intros D G l HI HG Hm Hs Hn; [lia|].
  cbn [until_pending]. unfold pending_get.
  destruct (pending (l_store l) !! PendingKey d x) as [p|] eqn:Hp.
  { exists p, l, G. split_and!; done || apply shrunk_refl. }
  destruct (destination_head _ _ _ _ _ _ _ _ HI Hm Hs Hp) as (i & hm & Hi & Hhm & Hr & Hng & Hdep).
  unfold latest, account_get. rewrite Hi.
  destruct (Hrb D G l _ _ HI HG Hm Hhm Hr Hng) as (l1 & G1 & -> & HI1 & Hs1 & Hgone).
  cbn [mbind option_bind]. pose proof (sh_kept Hs1 _ _ Hm Hr) as Hm1.
  destruct (IH D G1 l1 HI1) as (p & l2 & G2 & -> & Hp2 & HI2 & Hs2); try done.
  - etransitivity; [apply (sh_facts Hs1)|done].
  - by rewrite <- (send_of_shrunk _ _ _ _ _ _ _ _ _ _ HI1 Hs1 Hm1).
  - assert (size G1 < size G)%nat; [|lia]. by eapply (rk_subset (ai_head i) hm); [apply Hs1|..].
  - exists p, l2, G2. split_and!; try done.
    eapply shrunk_weaken, shrunk_trans; [|apply depends_refl|by eapply (shrunk_weaken (ai_head i))|done]. lia.
Qed.

Lemma blocks_size K D G s : ledger_inv K D G s -> (size G <= blocks_total s)%nat.
Proof.
  intros HI. etransitivity; [|apply blocks_total_size]. apply Nat.eq_le_incl.
  rewrite <- !size_dom. f_equal. apply set_eq. intros k. rewrite !elem_of_dom.
  apply (chain_dom (li_chain HI)).
Qed.

Lemma balance_before_nonneg K D G s : ledger_inv K D G s -> forall b, 0 <= balance_before G b.
Proof.
  intros HI b. unfold balance_before. destruct (G !! previous b) as [p|] eqn:Hp; [|lia].
  destruct (chain_facts (li_chain HI) _ _ Hp) as ([] & _). lia.
Qed.

(** ** Undoing the last block of an account *)

Section visit.
Context K D G l (x : Z) (b : block) (m : chain_info).
Context (HI : ledger_inv K D G (l_store l)) (Hb : blocks (l_store l) !! x = Some (b, 0)).
Context (Hm : G !! x = Some m) (Hng : not_genesis (l_store l) x).

Lemma visit_hash : hash b = x.
Proof. by destruct (chain_hash (li_chain HI) _ _ _ Hb). Qed.

Lemma visit_not_genesis : match b with Open b => open_source b <> genesis_account | _ => True end.
Proof.
  assert (~ genesis_open b) as Hn by (apply Hng; by rewrite contents_lookup, Hb). by destruct b.
Qed.

(** The block can go, in a ledger where only later blocks are gone. *)
Lemma visit_removable D' G' l' :
  ledger_inv K D' G' (l_store l') ->
  shrunk x (S (ci_rank m)) G (l_store l) G' (l_store l') ->
  (forall d y, send_of (contents (blocks (l_store l))) G x = Some (d, y) ->
     is_Some (pending (l_store l') !! PendingKey d x)) ->
  exists i, removable G' (l_store l') b m i.
Proof.
  intros HI' Hs Hp. pose proof (sh_kept Hs _ _ Hm (Nat.lt_succ_diag_r _)) as Hm'.
  destruct (li_owner HI' _ _ Hm') as [i Hi]. exists i. pose proof visit_hash as Hh.
  split; rewrite ?Hh; [exact (tip_kept _ _ _ _ _ _ _ _ _ _ _ _ _ HI HI' Hs Hb Hm')|done|done|apply visit_not_genesis|].
  by rewrite <- (send_of_shrunk _ _ _ _ _ _ _ _ _ _ HI' Hs Hm').
Qed.

Definition visited (l' : ledger) : Prop :=
  exists G', ledger_inv K D G' (l_store l')
    /\ shrunk x (ci_rank m) G (l_store l) G' (l_store l') /\ G' !! x = None.

(** The facts after the block is gone. *)
Lemma visited_undone D' G' s' i l'' :
  ledger_inv K D' G' s' -> shrunk x (S (ci_rank m)) G (l_store l) G' s' ->
  removable G' s' b m i -> undone D G' s' b m i (l_store l'') -> visited l''.
Proof.
  intros HI' Hs HR [HU HW]. exists (delete x G'). pose proof visit_hash as Hh. rewrite <- Hh at 1. split_and!.
  - by eapply remove_inv.
  - split.
    + etransitivity; [apply delete_subseteq|apply (sh_facts Hs)].
    + rewrite (undo_contents _ _ _ _ _ _ HU). etransitivity; [apply delete_subseteq|apply (sh_contents Hs)].
    + intros k km Hk Hr. rewrite lookup_delete_ne; [apply (sh_kept Hs); [done|lia]|].
      intros <-. rewrite Hm in Hk. simplify_eq. lia.
    + intros k km Hk Hg. destruct (decide (k = x)) as [->|Hne]; [apply depends_refl|].
      rewrite lookup_delete_ne in Hg by done. by eapply (sh_gone Hs).
  - apply lookup_delete_eq.
Qed.

Lemma rep_of_shrunk D' y r G' s' k km :
  ledger_inv K D' G' s' -> shrunk y r G (l_store l) G' s' -> G' !! k = Some km ->
  rep_of (contents (blocks s')) (ci_rep km) = rep_of (contents (blocks (l_store l))) (ci_rep km).
Proof.
  intros HI' Hs Hk. destruct (chain_facts (li_chain HI') _ _ Hk) as (_ & _ & _ & rb' & Hr & _).
  unfold rep_of. by rewrite Hr, (lookup_weaken _ _ _ _ Hr (sh_contents Hs)).
Qed.

Lemma previous_shrunk G' s' :
  shrunk x (S (ci_rank m)) G (l_store l) G' s' -> G' !! previous b = G !! previous b.
Proof.
  intros Hs. destruct (G !! previous b) as [p|] eqn:Hp.
  - pose proof (chain_block (li_chain HI) _ _ _ _ Hb Hm) as Hok.
    destruct (block_ok_follows G _ _ _ _ Hok) as (p' & _ & Hp' & _ & _ & Hr).
    { intros E. by rewrite E, (facts_zero _ _ _ _ HI) in Hp. }
    simplify_eq. apply (sh_kept Hs); [done|lia].
  - destruct (G' !! previous b) as [p|] eqn:Hp'; [|done].
    by rewrite (lookup_weaken _ _ _ _ Hp' (sh_facts Hs)) in Hp.
Qed.

Lemma undo_delta_shrunk D' G' s' r :
  ledger_inv K D' G' s' -> shrunk x (S (ci_rank m)) G (l_store l) G' s' ->
  undo_delta G' s' b m r = undo_delta G (l_store l) b m r.
Proof.
  intros HI' Hs. pose proof (sh_kept Hs _ _ Hm (Nat.lt_succ_diag_r _)) as Hm'. unfold undo_delta.
  rewrite (rep_of_shrunk _ _ _ _ _ _ _ HI' Hs Hm'), <- (previous_shrunk _ _ Hs). f_equal.
  destruct (G' !! previous b) as [p|] eqn:Hp; [|done]. by rewrite (rep_of_shrunk _ _ _ _ _ _ _ HI' Hs Hp).
Qed.

(** What the block sends is pending again. *)
Lemma visit_until rb d y : rb_ok K rb G x m ->
  send_of (contents (blocks (l_store l))) G x = Some (d, y) ->
  exists p l' G', until_pending rb (S (blocks_total (l_store l))) (PendingKey d x) d l = Some (p, l')
    /\ pending (l_store l') !! PendingKey d x = Some p
    /\ ledger_inv K D G' (l_store l')
    /\ shrunk x (S (ci_rank m)) G (l_store l) G' (l_store l').
Proof.
  intros Hrb Hs. eapply until_pending_ok; try done. pose proof (blocks_size _ _ _ _ HI). lia.
Qed.
End visit.

(** A block that sends nothing. *)
Lemma visit_no_send K D G l x b m rb :
  ledger_inv K D G (l_store l) -> blocks (l_store l) !! x = Some (b, 0) -> G !! x = Some m ->
  not_genesis (l_store l) x -> send_of (contents (blocks (l_store l))) G x = None ->
  (forall i, removable G (l_store l) b m i ->
     exists l', rollback_visit rb b l = Some l' /\ undone D G (l_store l) b m i (l_store l')) ->
  exists l', rollback_visit rb b l = Some l' /\ visited K D G l x m l'.
Proof.
  intros HI Hb Hm Hng Hs Hv.
  destruct (visit_removable K D G l x b m HI Hb Hm Hng D G l HI) as [i HR]; [apply shrunk_refl| |].
  { intros d y. by rewrite Hs. }
  destruct (Hv i HR) as (l' & Hl' & HU). exists l'. split; [done|].
  eapply visited_undone; done || apply shrunk_refl.
Qed.

Lemma visit_send K D G l x b m rb :
  ledger_inv K D G (l_store l) -> blocks (l_store l) !! x = Some (Send b, 0) -> G !! x = Some m ->
  not_genesis (l_store l) x -> rb_ok K rb G x m ->
  exists l', rollback_send rb b l = Some l' /\ visited K D G l x m l'.
Proof.
  intros HI Hb Hm Hng Hrb. pose proof (visit_hash _ _ _ _ _ _ HI Hb) as Hh.
  destruct (chain_block (li_chain HI) _ _ _ _ Hb Hm) as (p & (_ & Hp & _) & _).
  assert (send_of (contents (blocks (l_store l))) G x
          = Some (send_destination b, ci_balance p - send_balance b)) as Hs.
  { unfold send_of. by rewrite contents_lookup, Hb; cbn; rewrite Hp. }
  destruct (visit_until _ _ _ _ _ _ HI Hm _ _ _ Hrb Hs) as (pnd & l1 & G1 & Hu & Hpnd & HI1 & Hs1).
  unfold rollback_send. rewrite Hh, Hu. cbn [mbind option_bind].
  destruct (visit_removable K D G l x _ m HI Hb Hm Hng D G1 l1 HI1 Hs1) as [i HR].
  { intros d y Hd. rewrite Hs in Hd. simplify_eq. eauto. }
  destruct (undo_send_ok K D G1 l1 m i HI1 b pnd HR) as (l' & Hl' & HU); [by rewrite Hh|].
  exists l'. split; [done|]. by eapply visited_undone.
Qed.

(** What the link of a state block is. *)
Lemma state_send_of B G x b d y : B !! x = Some (State b) ->
  send_of B G x = Some (d, y) -> d = state_link b /\ 0 < y.
Proof.
  intros Hc. unfold send_of. rewrite Hc. case_match; [done|].
  intros (p & _ & Hs)%bind_Some. destruct (Z.ltb_spec (state_balance b) (ci_balance p)); [|done].
  simplify_eq. split; [done|lia].
Qed.

Lemma state_source_of B G x b y : B !! x = Some (State b) ->
  source_of B G x = Some y -> y = state_link b /\ state_link b <> 0.
Proof.
  intros Hc. unfold source_of. rewrite Hc. destruct (Z.eqb_spec (state_link b) 0); [done|].
  case_match; [naive_solver|]. intros (p & _ & Hs)%bind_Some. case_match; naive_solver.
Qed.

Lemma state_no_link B B' G x b m : B' !! x = Some (State b) -> block_ok B G x (State b) m ->
  send_of B' G x = None -> source_of B' G x = None -> state_link b = 0.
Proof.
  intros Hc Hok. unfold send_of, source_of. rewrite Hc.
  destruct (Z.eqb_spec (state_link b) 0); [done|]. destruct (Z.eqb_spec (state_previous b) 0); [done|].
  destruct Hok as (_ & _ & _ & [[? _]|(p & (_ & -> & _) & _)]); [done|]. cbn. by case_match.
Qed.

(** The pending table of a state block that goes, and the blocks that go first. *)
Lemma visit_state_pending K D G l x b m rb :
  ledger_inv K D G (l_store l) -> blocks (l_store l) !! x = Some (State b, 0) -> G !! x = Some m ->
  not_genesis (l_store l) x -> rb_ok K rb G x m ->
  exists l2 l3 G2 P i, rollback_state_pending rb b (balance_before G (State b)) l = Some l3
    /\ ledger_inv K D G2 (l_store l2) /\ shrunk x (S (ci_rank m)) G (l_store l) G2 (l_store l2)
    /\ removable G2 (l_store l2) (State b) m i
    /\ l_store l3 = set_pending P (l_store l2)
    /\ match send_of (contents (blocks (l_store l2))) G2 x,
             source_of (contents (blocks (l_store l2))) G2 x with
       | Some (d, _), _ => P = delete (PendingKey d x) (pending (l_store l2))
       | None, Some y => exists q z, G2 !! y = Some q
           /\ send_of (contents (blocks (l_store l2))) G2 y = Some (ci_account m, z)
           /\ P = <[PendingKey (ci_account m) y := PendingInfo (ci_account q) z]> (pending (l_store l2))
       | None, None => P = pending (l_store l2)
       end.
Proof.
  intros HI Hb Hm Hng Hrb. pose proof (visit_hash _ _ _ _ _ _ HI Hb) as Hh.
  pose proof (chain_block (li_chain HI) _ _ _ _ Hb Hm) as Hok.
  assert (contents (blocks (l_store l)) !! x = Some (State b)) as Hc by (by rewrite contents_lookup, Hb).
  pose proof (block_ok_balance _ _ _ _ _ _ Hok Hc (facts_zero _ _ _ _ HI) I) as Hbal.
  destruct Hok as (Ha & _ & Hmb & _). unfold rollback_state_pending. rewrite Hh.
  destruct (send_of (contents (blocks (l_store l))) G x) as [[d y]|] eqn:Hs.
  - destruct (state_send_of _ _ _ _ _ _ Hc Hs) as [-> Hy].
    destruct (visit_until _ _ _ _ _ _ HI Hm _ _ _ Hrb Hs) as (pnd & l1 & G1 & Hu & Hpnd & HI1 & Hs1).
    rewrite (proj2 (Z.ltb_lt _ _)) by lia. rewrite Hu. cbn [mbind option_bind].
    erewrite try_Some by (unfold pending_del; by rewrite Hpnd). cbn [mbind option_bind].
    destruct (visit_removable K D G l x _ m HI Hb Hm Hng D G1 l1 HI1 Hs1) as [i HR].
    { intros d y' Hd. rewrite Hs in Hd. simplify_eq. eauto. }
    pose proof (sh_kept Hs1 _ _ Hm (Nat.lt_succ_diag_r _)) as Hm1.
    eexists l1, _, G1, _, i. split_and!; try done.
    by rewrite <- (send_of_shrunk _ _ _ _ _ _ _ _ _ _ HI1 Hs1 Hm1), Hs.
  - destruct (visit_removable K D G l x _ m HI Hb Hm Hng D G l HI) as [i HR]; [apply shrunk_refl| |].
    { intros d y. by rewrite Hs. }
    destruct (source_of (contents (blocks (l_store l))) G x) as [y|] eqn:Hy.
    + destruct (state_source_of _ _ _ _ _ Hc Hy) as [-> Hl].
      destruct Hbal as (z & [Hz (q & Hq & Hqr)] & Hbal).
      pose proof (sent_nonneg _ _ _ _ HI _ _ _ Hz) as Hz0.
      rewrite (proj2 (Z.ltb_ge _ _)) by lia. rewrite (proj2 (Z.eqb_neq _ _) Hl). cbn [negb].
      rewrite (account_of _ _ _ _ HI _ _ Hq). cbn [mbind option_bind].
      eexists l, _, G, _, i. split_and!; try done; [apply shrunk_refl|]. rewrite Hs, Hy.
      exists q, z. split_and!; try done. rewrite Ha. repeat f_equal.
      destruct (chain_facts (li_chain HI) _ _ Hm) as ([_ Hw] & _).
      pose proof (balance_before_nonneg _ _ _ _ HI (State b)).
      rewrite wrap_small; [lia|]. unfold in_width. lia.
    + rewrite (proj2 (Z.ltb_ge _ _)) by lia.
      rewrite (state_no_link _ _ _ _ _ _ Hc (chain_block (li_chain HI) _ _ _ _ Hb Hm) Hs Hy). cbn [Z.eqb negb].
      exists l, l, G, (pending (l_store l)), i. rewrite Hs, Hy.
      split_and!; done || apply shrunk_refl || by destruct (l_store l).
Qed.

Lemma visit_state K D G l x b m rb :
  ledger_inv K D G (l_store l) -> blocks (l_store l) !! x = Some (State b, 0) -> G !! x = Some m ->
  not_genesis (l_store l) x -> rb_ok K rb G x m ->
  exists l', rollback_state rb b l = Some l' /\ visited K D G l x m l'.
Proof.
  intros HI Hb Hm Hng Hrb. pose proof (visit_hash _ _ _ _ _ _ HI Hb) as Hh.
  assert (blocks (l_store l) !! hash (State b) = Some (State b, 0)) as Hb' by (by rewrite Hh).
  pose proof (chain_block (li_chain HI) _ _ _ _ Hb Hm) as Hok.
  assert ((if negb (state_previous b =? 0) then ledger_representative (l_store l) (state_previous b) else Some 0)
          = Some (prev_rep G (State b))
          /\ balance (l_store l) (state_previous b) = Some (balance_before G (State b))) as [Hrep Hbal].
  { unfold prev_rep, balance_before. cbn [previous].
    destruct (Z.eqb_spec (state_previous b) 0) as [E|E]; cbn [negb].
    - rewrite E, (facts_zero _ _ _ _ HI). split; [done|]. apply balance_of_zero.
    - destruct (block_ok_follows G _ _ _ _ Hok E) as (p & _ & Hp & _). cbn [previous] in Hp. rewrite Hp.
      split; [by apply (representative_of _ _ _ _ HI)|by apply (balance_of _ _ _ _ HI)]. }
  unfold rollback_state. rewrite Hrep. cbn [mbind option_bind]. rewrite Hbal. cbn [mbind option_bind].
  destruct (undo_state_weights K D G l m HI b Hb') as (R & -> & HR); [by rewrite Hh|]. cbn [mbind option_bind].
  pose proof (inv_set_representation K D G l HI _ R HR) as HI1.
  destruct (visit_state_pending K _ G (upd (set_representation R) l) x b m rb HI1 Hb Hm Hng Hrb)
    as (l2 & l3 & G2 & P & i & -> & HI2 & Hs2 & HR2 & Hl3 & HP).
  cbn [mbind option_bind].
  assert (shrunk x (S (ci_rank m)) G (l_store l) G2 (l_store l2)) as Hs by (destruct Hs2; by split).
  pose proof (previous_shrunk _ _ _ _ _ _ _ HI Hb Hm _ _ Hs) as Hprev.
  destruct (undo_state_head K _ G2 l2 m i HI2 b l3 P HR2 Hl3) as (l' & Hl' & HU & Hrp); [by rewrite Hh|].
  unfold prev_rep, balance_before in Hl' |- *. rewrite Hprev in Hl'. exists l'. split; [done|].
  eapply (visited_undone K _ G l x); try done.
  split; [done|]. intros r. unfold representation_get. rewrite Hrp. fold (representation_get (l_store l2) r).
  rewrite (li_weights HI2), <- (undo_delta_shrunk _ _ _ l _ _ _ HI Hb Hm _ _ _ r HI2 Hs). f_equal. lia.
Qed.

(** The last block of an account is undone. *)
Lemma rollback_visit_ok K D G l x b m rb :
  ledger_inv K D G (l_store l) -> blocks (l_store l) !! x = Some (b, 0) -> G !! x = Some m ->
  not_genesis (l_store l) x -> rb_ok K rb G x m ->
  exists l', rollback_visit rb b l = Some l' /\ visited K D G l x m l'.
Proof.
  intros HI Hb Hm Hng Hrb.
  assert (contents (blocks (l_store l)) !! x = Some b) as Hc by (by rewrite contents_lookup, Hb).
  destruct b as [b|b|b|b|b]; [by apply visit_send| | | |by apply visit_state];
    (apply visit_no_send; try done; [by unfold send_of; rewrite Hc|]); intros i HR; cbn [rollback_visit].
  - by eapply undo_receive.
  - by eapply undo_open_ok.
  - by eapply undo_change.
Qed.

(** ** Blocks of an account until a given one is gone *)

(** How many blocks are not ranked below [m]. *)
Definition above G (m : chain_info) : nat :=
  size (filter (fun kv : Z * chain_info => (ci_rank m <= ci_rank kv.2)%nat) G).

Lemma above_mono G G' m m' : G' ⊆ G -> (ci_rank m <= ci_rank m')%nat -> (above G' m' <= above G m)%nat.
Proof.
  intros HG Hr. apply map_subseteq_size, map_subseteq_spec. intros k v [Hk Hv]%map_lookup_filter_Some.
  apply map_lookup_filter_Some. cbn in *. split; [by eapply lookup_weaken|lia].
Qed.

Lemma above_lt G x m m' : G !! x = Some m -> (ci_rank m < ci_rank m')%nat -> (above G m' < above G m)%nat.
Proof.
  intros Hx Hr. apply (rk_subset x m).
  - apply map_subseteq_spec. intros k v [Hk Hv]%map_lookup_filter_Some.
    apply map_lookup_filter_Some. cbn in *. split; [done|lia].
  - by apply map_lookup_filter_Some.
  - apply map_lookup_filter_None. right. intros v Hv. simplify_eq. cbn. lia.
Qed.

(** The head of the account of [y], when [y] is there. *)
Lemma rollback_head K D G s y ym : ledger_inv K D G s -> G !! y = Some ym -> not_genesis s y ->
  exists i x b m, accounts s !! ci_account ym = Some i /\ ai_head i = x /\ blocks s !! x = Some (b, 0)
    /\ G !! x = Some m /\ (ci_rank ym <= ci_rank m)%nat /\ not_genesis s x
    /\ depends (contents (blocks s)) x y.
Proof.
  intros HI Hy Hng. destruct (head_above _ _ _ _ HI _ _ Hy) as (i & m & Hi & Hm & Hc & Hdep).
  destruct (li_head HI _ _ Hi) as (b & m' & Hb & Hm' & Ha & _). rewrite Hm in Hm'. injection Hm' as <-.
  exists i, (ai_head i), b, m. split_and!; try done.
  - destruct Hc as [<-|]; [|lia]. by simplify_eq.
  - intros b' Hb' Hg. rewrite contents_lookup, Hb in Hb'. injection Hb' as <-.
    destruct b as [| |ob| |]; try done. eapply (Hng (Open ob)); [|done].
    rewrite (only_block _ _ _ _ HI _ _ _ _ _ Hb Hm eq_refl Hy) by congruence.
    by rewrite contents_lookup, Hb.
Qed.

Definition nested_ok K (rb : Z -> ledger -> option ledger) (f : nat) : Prop :=
  forall D G l y ym, ledger_inv K D G (l_store l) -> G !! y = Some ym -> not_genesis (l_store l) y ->
    (above G ym <= f)%nat ->
    exists l' G', rb y l = Some l' /\ ledger_inv K D G' (l_store l')
      /\ shrunk y (ci_rank ym) G (l_store l) G' (l_store l') /\ G' !! y = None.

Lemma nested_rb_ok K rb f G x m : nested_ok K rb f -> (above G m <= S f)%nat -> rb_ok K rb G x m.
Proof.
  intros Hrb Hf D G' l' z zm HI' HG' Hx Hz Hr Hn. apply (Hrb D G' l' z zm); try done.
  pose proof (above_lt _ _ _ _ Hx Hr). pose proof (above_mono _ _ m m HG' ltac:(lia)). lia.
Qed.

Lemma rollback_loop_ok K rb f y ym : nested_ok K rb f ->
  forall n D G l, ledger_inv K D G (l_store l) -> not_genesis (l_store l) y ->
    (G !! y = Some ym \/ G !! y = None) -> (above G ym <= S f)%nat -> (size G < n)%nat ->
    exists l' G', rollback_loop rb n y (ci_account ym) l = Some l' /\ ledger_inv K D G' (l_store l')
      /\ shrunk y (ci_rank ym) G (l_store l) G' (l_store l') /\ G' !! y = None.
Proof.
  intros Hrb. induction n as [|n IH]; intros D G l HI Hng Hy Hf Hn; [lia|].
  cbn [rollback_loop]. rewrite block_exists_blocks. destruct Hy as [Hy|Hy].
  - destruct (facts_stored _ _ _ _ HI _ _ Hy) as (yb & ys & -> & _).
    destruct (rollback_head _ _ _ _ _ _ HI Hy Hng) as (i & x & b & m & Hi & Hx & Hb & Hm & Hr & Hngx & Hdep).
    unfold account_get. rewrite Hi. cbn [mbind option_bind].
    rewrite (block_get_of _ _ _ _ HI), contents_lookup, Hx, Hb.
    cbn [fmap option_fmap option_map fst mbind option_bind].
    destruct (rollback_visit_ok K D G l x b m rb HI Hb Hm Hngx) as (l1 & -> & G1 & HI1 & Hs1 & Hgone).
    { eapply nested_rb_ok; [done|]. pose proof (above_mono G G ym m ltac:(done) Hr). lia. }
    cbn [mbind option_bind].
    destruct (IH D G1 l1) as (l2 & G2 & -> & HI2 & Hs2 & Hgone2); try done.
    + by eapply not_genesis_shrunk.
    + destruct (G1 !! y) as [ym'|] eqn:E; [|by right]. left.
      rewrite (lookup_weaken _ _ _ _ E (sh_facts Hs1)) in Hy. congruence.
    + pose proof (above_mono G G1 ym ym (sh_facts Hs1) ltac:(lia)). lia.
    + assert (size G1 < size G)%nat; [|lia]. by eapply (rk_subset x m); [apply Hs1|..].
    + exists l2, G2. split_and!; try done.
      eapply shrunk_weaken, shrunk_trans; [|apply depends_refl|by eapply (shrunk_weaken x)|done]. lia.
  - assert (blocks (l_store l) !! y = None) as ->.
    { apply eq_None_not_Some. rewrite <- (chain_dom (li_chain HI)), Hy. apply is_Some_None. }
    exists l, G. split_and!; done || apply shrunk_refl.
Qed.

Lemma rollback_nested_ok K f : nested_ok K (rollback_nested f) f.
Proof.
  induction f as [|f IH]; intros D G l y ym HI Hy Hng Hf.
  - pose proof (above_lt G y ym (ChainInfo 0 0 0 0 (S (ci_rank ym))) Hy ltac:(cbn; lia)). lia.
  - cbn [rollback_nested]. rewrite block_exists_blocks.
    destruct (facts_stored _ _ _ _ HI _ _ Hy) as (yb & ys & -> & _). cbn [assert mbind option_bind].
    rewrite (account_of _ _ _ _ HI _ _ Hy). cbn [mbind option_bind].
    eapply rollback_loop_ok; try done; [by left|]. pose proof (blocks_size _ _ _ _ HI). lia.
Qed.

(** [rollback] returns, keeps the invariant and removes the block. *)
Lemma rollback_ok K D G l y ym :
  ledger_inv K D G (l_store l) -> G !! y = Some ym -> not_genesis (l_store l) y ->
  exists l' G', rollback y l = Some l' /\ ledger_inv K D G' (l_store l')
    /\ shrunk y (ci_rank ym) G (l_store l) G' (l_store l') /\ G' !! y = None.
Proof.
  intros HI Hy Hng. eapply rollback_nested_ok; try done.
  assert (above G ym <= size G)%nat by (by apply map_subseteq_size, map_filter_subseteq).
  pose proof (blocks_size _ _ _ _ HI). lia.
Qed.
End rollback_inv.
