(* ===== verification/Determined.v ===== *)
(** * Determined: the stored blocks determine the ledger

    Two consistent ledgers with the same blocks have the same facts about them, and so
    the same accounts, frontiers, pending amounts, weights and checksum, whatever the
    order in which the blocks came and whatever was rolled back in between. *)

From stdpp Require Import base list option tactics gmap.
From Stdlib Require Import ZArith Lia.
From S2P Require Import Prelude Blocks Common Stats Store Tables Visitors Ledger Chain Balance.
From S2P Require Import LedgerInv Queries.
#[local] Open Scope Z_scope.

(** The facts that do not depend on the order of arrival. *)
Definition same_facts (m1 m2 : chain_info) : Prop :=
  ci_account m1 = ci_account m2 /\ ci_balance m1 = ci_balance m2 /\ ci_height m1 = ci_height m2
  /\ ci_rep m1 = ci_rep m2.

(** An account up to the time of its last change. *)
Definition timeless (i : account_info) : account_info :=
  AccountInfo (ai_head i) (ai_rep_block i) (ai_open_block i) (ai_balance i) 0 (ai_block_count i).

(** The ledgers agree on everything but times, block information and entries of
    weight zero. *)
Record same_ledger (s1 s2 : store) : Prop := {
  same_blocks : blocks s1 = blocks s2;
  same_accounts : timeless <$> accounts s1 = timeless <$> accounts s2;
  same_frontiers : frontiers s1 = frontiers s2;
  same_pending : pending s1 = pending s2;
  same_weights r : representation_get s1 r = representation_get s2 r;
  same_checksum : checksums s1 !! 0 = checksums s2 !! 0
}.

#[global] Instance same_ledger_equiv : Equivalence same_ledger.
Proof.
  split.
  - by split.
  - intros s1 s2 []. by split.
  - intros s1 s2 s3 [] []. split; congruence.
Qed.

Section determined.
Context `{E0 : Env} `{T0 : Traffic}.
Context (K : Z) (D : Z -> Z) (G1 G2 : gmap Z chain_info) (s1 s2 : store).
Context (HI1 : ledger_inv K D G1 s1) (HI2 : ledger_inv K D G2 s2).
Context (HC : contents (blocks s1) = contents (blocks s2)).
Local Abbreviation C := (contents (blocks s2)).

(** ** The facts *)

Lemma stored_both h m1 : G1 !! h = Some m1 ->
  exists m2 b, G2 !! h = Some m2 /\ C !! h = Some b /\ block_ok C G1 h b m1 /\ block_ok C G2 h b m2.
Proof.
  intros Hm. destruct (facts_stored _ _ _ _ HI1 _ _ Hm) as (b & succ & Hb & Hok & _).
  assert (C !! h = Some b) as Hc by (rewrite <- HC, contents_lookup, Hb; done).
  pose proof Hc as [succ2 Hb2]%contents_Some.
  destruct (stored_facts _ _ _ _ HI2 _ _ _ Hb2) as (m2 & Hm2 & Hok2).
  exists m2, b. rewrite HC in Hok. done.
Qed.

Definition agree_below (n : nat) : Prop :=
  forall h m1 m2, G1 !! h = Some m1 -> G2 !! h = Some m2 -> (ci_rank m1 < n)%nat -> same_facts m1 m2.

Lemma follows_agree n prev p1 p2 m1 m2 : agree_below n -> (ci_rank m1 <= n)%nat ->
  follows G1 prev p1 m1 -> follows G2 prev p2 m2 -> same_facts p1 p2.
Proof. intros Hn Hr (_ & H1 & _ & _ & Hl) (_ & H2 & _). eapply Hn; [done..|lia]. Qed.

(** A send of lower rank sends the same. *)
Lemma send_of_agree n x m1 r1 r2 : agree_below n -> G1 !! x = Some m1 -> (ci_rank m1 < n)%nat ->
  send_of C G1 x = Some r1 -> send_of C G2 x = Some r2 -> r1 = r2.
Proof.
  intros Hn Hm Hr. destruct (stored_both _ _ Hm) as (m2 & b & Hm2 & Hb & Hok1 & Hok2).
  unfold send_of. rewrite Hb. destruct b as [b| | | |b]; try done; cbn in Hok1, Hok2.
  - destruct Hok1 as (p1 & Hf1 & _), Hok2 as (p2 & Hf2 & _).
    destruct (follows_agree n _ _ _ _ _ Hn (Nat.lt_le_incl _ _ Hr) Hf1 Hf2) as (_ & E & _).
    destruct Hf1 as (_ & -> & _), Hf2 as (_ & -> & _). cbn. rewrite E. congruence.
  - destruct (Z.eqb_spec (state_previous b) 0); [done|].
    destruct Hok1 as (_ & _ & _ & [[? _]|(p1 & Hf1 & _)]); [done|].
    destruct Hok2 as (_ & _ & _ & [[? _]|(p2 & Hf2 & _)]); [done|].
    destruct (follows_agree n _ _ _ _ _ Hn (Nat.lt_le_incl _ _ Hr) Hf1 Hf2) as (_ & E & _).
    destruct Hf1 as (_ & -> & _), Hf2 as (_ & -> & _). cbn. rewrite E. case_match; congruence.
Qed.

Lemma receives_agree n x y1 y2 m1 m2 : agree_below n -> (ci_rank m1 <= n)%nat ->
  receives C G1 x y1 m1 -> receives C G2 x y2 m2 ->
  ci_account m1 = ci_account m2 /\ y1 = y2.
Proof.
  intros Hn Hr [Hs1 (q & Hq & Hlt)] [Hs2 _].
  pose proof (send_of_agree n _ _ _ _ Hn Hq (Nat.lt_le_trans _ _ _ Hlt Hr) Hs1 Hs2). by simplify_eq.
Qed.

Lemma block_ok_agree n h b m1 m2 : agree_below n -> (ci_rank m1 <= n)%nat ->
  block_ok C G1 h b m1 -> block_ok C G2 h b m2 -> same_facts m1 m2.
Proof.
  intros Hn Hr. pose proof (fun prev p1 p2 => follows_agree n prev p1 p2 m1 m2 Hn Hr) as Hf.
  pose proof (fun x y1 y2 => receives_agree n x y1 y2 m1 m2 Hn Hr) as Hv.
  unfold same_facts. destruct b as [b|b|b|b|b]; cbn.
  - intros (p1 & F1 & ?) (p2 & F2 & ?). destruct (Hf _ _ _ F1 F2) as (? & ? & ? & ?).
    destruct F1 as (_ & _ & ? & ? & _), F2 as (_ & _ & ? & ? & _). intuition congruence.
  - intros (p1 & y1 & F1 & _ & ? & R1 & ?) (p2 & y2 & F2 & _ & ? & R2 & ?).
    destruct (Hf _ _ _ F1 F2) as (? & ? & ? & ?), (Hv _ _ _ R1 R2) as [? ->].
    destruct F1 as (_ & _ & ? & ? & _), F2 as (_ & _ & ? & ? & _). intuition congruence.
  - intros (? & ? & ? & B1) (? & ? & ? & B2).
    assert (ci_balance m1 = ci_balance m2); [|intuition congruence].
    destruct B1 as [(? & _ & ?)|[? R1]], B2 as [(? & _ & ?)|[? R2]]; try congruence.
    by destruct (Hv _ _ _ R1 R2) as [_ ?].
  - intros (p1 & F1 & ?) (p2 & F2 & ?). destruct (Hf _ _ _ F1 F2) as (? & ? & ? & ?).
    destruct F1 as (_ & _ & ? & ? & _), F2 as (_ & _ & ? & ? & _). intuition congruence.
  - intros (? & ? & ? & B1) (? & ? & ? & B2).
    assert (ci_height m1 = ci_height m2); [|intuition congruence].
    destruct B1 as [(? & ? & _)|(p1 & F1 & _)], B2 as [(? & ? & _)|(p2 & F2 & _)];
      try (unfold follows in *; destruct_and?; congruence).
    destruct (Hf _ _ _ F1 F2) as (_ & _ & ? & _). unfold follows in *. destruct_and?. congruence.
Qed.

Lemma facts_agree h m1 m2 : G1 !! h = Some m1 -> G2 !! h = Some m2 -> same_facts m1 m2.
Proof.
  intros H1 H2. assert (forall n, agree_below n) as Hall; [|eapply (Hall (S (ci_rank m1))); [done..|lia]].
  induction n as [|n IH]; intros k k1 k2 Hk1 Hk2 Hr; [lia|].
  destruct (stored_both _ _ Hk1) as (k2' & b & Hk2' & _ & Hok1 & Hok2). simplify_eq.
  eapply block_ok_agree; [done| |done..]. lia.
Qed.

Lemma facts_dom h : is_Some (G1 !! h) <-> is_Some (G2 !! h).
Proof.
  rewrite (chain_dom (li_chain HI1)), (chain_dom (li_chain HI2)).
  rewrite <- (fmap_is_Some fst (blocks s1 !! h)), <- (fmap_is_Some fst (blocks s2 !! h)).
  by rewrite <- !contents_lookup, HC.
Qed.

(** The balance of a block, seen from its successor. *)
Lemma bind_agree {A} h (k : Z -> option A) :
  (p ← G1 !! h; k (ci_balance p)) = (p ← G2 !! h; k (ci_balance p)).
Proof.
  destruct (G1 !! h) as [m1|] eqn:H1, (G2 !! h) as [m2|] eqn:H2; cbn; try done.
  - by destruct (facts_agree _ _ _ H1 H2) as (_ & -> & _).
  - destruct (facts_dom h) as [Hd _]. rewrite H1, H2 in Hd. by destruct Hd.
  - destruct (facts_dom h) as [_ Hd]. rewrite H1, H2 in Hd. by destruct Hd.
Qed.

Lemma send_of_same x : send_of C G1 x = send_of C G2 x.
Proof.
  unfold send_of. destruct (C !! x) as [[b| | | |b]|]; try done.
  - apply (bind_agree _ (fun y => Some (send_destination b, y - send_balance b))).
  - case_match; [done|]. apply (bind_agree _ (fun y => if state_balance b <? y
      then Some (state_link b, y - state_balance b) else None)).
Qed.

Lemma source_of_same x : source_of C G1 x = source_of C G2 x.
Proof.
  unfold source_of. destruct (C !! x) as [[| | | |b]|]; try done. repeat case_match; try done.
  apply (bind_agree _ (fun y => if state_balance b <? y then None else Some (state_link b))).
Qed.

(** ** One direction of each table *)

Lemma blocks_sub h v : blocks s1 !! h = Some v -> blocks s2 !! h = Some v.
Proof.
  destruct v as [b succ]. intros Hb.
  assert (C !! h = Some b) as [succ2 Hb2]%contents_Some by (rewrite <- HC, contents_lookup, Hb; done).
  enough (succ2 = succ) as -> by done.
  destruct (decide (succ = 0)) as [->|Hne].
  - destruct (decide (succ2 = 0)) as [|Hne2]; [done|].
    destruct (chain_forth (li_chain HI2) _ _ _ Hb2 Hne2) as (sb & ss & Hsb & Hp).
    assert (contents (blocks s1) !! succ2 = Some sb) as [ss1 Hsb1]%contents_Some
      by (rewrite HC, contents_lookup, Hsb; done).
    by destruct (tip_not_previous _ _ _ _ HI1 _ _ _ _ _ Hb Hsb1).
  - destruct (chain_forth (li_chain HI1) _ _ _ Hb Hne) as (sb & ss & Hsb & Hp).
    assert (C !! succ = Some sb) as [ss2 Hsb2]%contents_Some
      by (rewrite <- HC, contents_lookup, Hsb; done).
    destruct (chain_hash (li_chain HI1) _ _ _ Hb) as [_ [H0 _]].
    destruct (chain_back (li_chain HI2) _ _ _ Hsb2) as [pb Hpb]; [congruence|].
    rewrite Hp, Hb2 in Hpb. congruence.
Qed.

Lemma accounts_sub a i1 : accounts s1 !! a = Some i1 ->
  exists i2, accounts s2 !! a = Some i2 /\ timeless i1 = timeless i2.
Proof.
  intros Hi1. destruct (li_head HI1 _ _ Hi1) as (b & m1 & Hb & Hm1 & Ha & Hbal & Hrep & Hcnt).
  destruct (stored_both _ _ Hm1) as (m2 & _ & Hm2 & _).
  destruct (facts_agree _ _ _ Hm1 Hm2) as (Fa & Fb & Fh & Fr).
  destruct (li_tip HI2 _ _ _ (blocks_sub _ _ Hb) Hm2) as (i2 & Hi2 & Hhd).
  rewrite <- Fa, Ha in Hi2. exists i2. split; [done|].
  destruct (li_head HI2 _ _ Hi2) as (b2 & m2' & _ & Hm2' & _ & Hbal2 & Hrep2 & Hcnt2).
  rewrite Hhd, Hm2 in Hm2'. injection Hm2' as <-.
  destruct (li_opened HI1 _ _ Hi1) as (ob & os & om & Hob & Hom & Hoa & Hop).
  destruct (stored_both _ _ Hom) as (om2 & _ & Hom2 & _).
  destruct (facts_agree _ _ _ Hom Hom2) as (Foa & _).
  pose proof (li_open HI2 _ _ _ _ i2 (blocks_sub _ _ Hob) Hom2 Hop) as Ho2.
  unfold timeless. rewrite Ho2, Hhd by congruence. f_equal; congruence.
Qed.

Lemma frontiers_sub h a : frontiers s1 !! h = Some a -> frontiers s2 !! h = Some a.
Proof.
  rewrite (li_frontiers HI1), (li_frontiers HI2), HC. intros (i & Hi & Hh & Hl).
  destruct (accounts_sub _ _ Hi) as (i2 & Hi2 & E). exists i2. split_and!; try done.
  by injection E as <- _.
Qed.

Lemma pending_sub k p : pending s1 !! k = Some p -> pending s2 !! k = Some p.
Proof.
  intros Hk. destruct (li_pending HI1 _ _ Hk) as (Hs & q & Hq & Hsrc).
  rewrite HC, send_of_same in Hs. destruct (li_settled HI2 _ _ _ Hs) as [[p2 Hp2]|[r Hr]].
  - replace (PendingKey (pk_account k) (pk_hash k)) with k in Hp2 by (by destruct k). rewrite Hp2. f_equal.
    destruct (li_pending HI2 _ _ Hp2) as (Hs2 & q2 & Hq2 & Hsrc2).
    destruct (facts_agree _ _ _ Hq Hq2) as (Fa & _). destruct p, p2; cbn in *. congruence.
  - rewrite <- source_of_same, <- HC in Hr. by destruct (li_unreceived HI1 _ _ r Hk).
Qed.
End determined.

Section same.
Context `{E0 : Env} `{T0 : Traffic}.

Lemma map_sub_eq {A B} `{Countable A} (m1 m2 : gmap A B) :
  (forall k v, m1 !! k = Some v -> m2 !! k = Some v) ->
  (forall k v, m2 !! k = Some v -> m1 !! k = Some v) -> m1 = m2.
Proof. intros H1 H2. apply (anti_symm (⊆)); by apply map_subseteq_spec. Qed.

(** The same blocks, the same ledger. *)
Lemma determined K D G1 G2 s1 s2 :
  ledger_inv K D G1 s1 -> ledger_inv K D G2 s2 ->
  contents (blocks s1) = contents (blocks s2) -> same_ledger s1 s2.
Proof.
  intros H1 H2 HC.
  assert (timeless <$> accounts s1 = timeless <$> accounts s2) as HA.
  { apply map_sub_eq; intros a v; rewrite !lookup_fmap, !fmap_Some.
    - intros (i & Hi & ->). destruct (accounts_sub _ _ _ _ _ _ H1 H2 HC _ _ Hi) as (i2 & ? & ?). eauto.
    - intros (i & Hi & ->). destruct (accounts_sub _ _ _ _ _ _ H2 H1 (eq_sym HC) _ _ Hi) as (i2 & ? & ?). eauto. }
  split; try done.
  - apply map_sub_eq; [by eapply (blocks_sub K D G1 G2)|by eapply (blocks_sub K D G2 G1)].
  - apply map_sub_eq; [by eapply (frontiers_sub K D G1 G2)|by eapply (frontiers_sub K D G2 G1)].
  - apply map_sub_eq; [by eapply (pending_sub K D G1 G2)|by eapply (pending_sub K D G2 G1)].
  - intros r. rewrite (li_weights H1), (li_weights H2). do 2 f_equal. unfold weight_of. rewrite HC.
    pose proof (fun s => map_acc_fmap Z.add 0
      (fun (_ : Z) i => if rep_of (contents (blocks s2)) (ai_rep_block i) =? r then ai_balance i else 0)
      timeless (accounts s)) as Hm. cbn in Hm. unfold map_sum. by rewrite <- !Hm, HA.
  - rewrite (li_checksum H1), (li_checksum H2). do 2 f_equal. unfold map_lxor.
    pose proof (fun s => map_acc_fmap Z.lxor 0 (fun (_ : Z) i => ai_head i) timeless (accounts s)) as Hm.
    cbn in Hm. by rewrite <- !Hm, HA.
Qed.
End same.
