(* ===== verification/Genesis.v ===== *)
(** * Genesis: [rai::genesis] of [rai/common.cpp]

    The genesis block, the tables [genesis::initialize] writes, and the runs of a
    ledger from there: blocks processed and rolled back in any order. *)

From stdpp Require Import base list option tactics gmap.
From Stdlib Require Import ZArith Lia.
From S2P Require Import Prelude Blocks Common Stats Store Tables Visitors Ledger Rollback Chain.
From S2P Require Import Balance LedgerInv Queries Process Unwind RollbackInv.
#[local] Open Scope Z_scope.

Section genesis.
Context `{E0 : Env} `{T0 : Traffic}.

(** [genesis_block]: the open block of the genesis account, with the account as its
    source and representative. *)
Definition genesis_block : block :=
  Open (OpenBlock (OpenHashables genesis_account genesis_account genesis_account)
          genesis_signature genesis_work).

(** [genesis::initialize]; [clock] counts the readings of the clock. *)
Definition genesis_initialize (clock : nat) (s : store) : option store :=
  let h := hash genesis_block in
  _ ← assert (bool_decide (accounts s = ∅));
  s ← on_tables (block_put h genesis_block 0) s;
  let s := account_put genesis_account
             (AccountInfo h h h (2 ^ 128 - 1) (seconds_since_epoch clock) 1) s in
  let s := representation_put genesis_account (2 ^ 128 - 1) s in
  s ← checksum_put 0 0 h s;
  Some (frontier_put h genesis_account s).

(** The facts about the genesis block. *)
Definition genesis_facts : gmap Z chain_info :=
  {[ hash genesis_block := ChainInfo genesis_account genesis_amount 1 (hash genesis_block) 0 ]}.

(** No block has been stored. *)
Definition ledger_empty (s : store) : Prop :=
  frontiers s = ∅ /\ accounts s = ∅ /\ tables s = BlockTables ∅ ∅ ∅ ∅ ∅ /\ pending s = ∅
  /\ blocks_info s = ∅ /\ representation s = ∅.

(** The tables after [genesis_initialize]. *)
Definition genesis_store (clock : nat) (s : store) : store :=
  let h := hash genesis_block in
  Store {[h := genesis_account]}
    {[genesis_account := AccountInfo h h h genesis_amount (seconds_since_epoch clock) 1]}
    (BlockTables ∅ ∅ {[h := (genesis_block, 0)]} ∅ ∅) ∅ ∅ {[genesis_account := genesis_amount]}
    (<[0 := h]> (checksums s)) (meta s).

Lemma genesis_initialize_empty clock s :
  ledger_empty s -> genesis_initialize clock s = Some (genesis_store clock s).
Proof.
  destruct s. intros (HF & HA & HT & HP & HB & HR). cbn in *. subst. done.
Qed.

Lemma genesis_blocks clock s :
  blocks (genesis_store clock s) = {[hash genesis_block := (genesis_block, 0)]}.
Proof.
  unfold blocks, genesis_store. cbn. by rewrite !(left_id_L ∅ _), !(right_id_L ∅ _).
Qed.

Lemma genesis_tables_ok clock s : tables_ok (genesis_store clock s).
Proof.
  intros ty tb h v Ht Hv. rewrite genesis_blocks.
  destruct ty; cbn in Ht; try done; injection Ht as <-; try (by rewrite lookup_empty in Hv).
  split; [|done]. by apply lookup_singleton_Some in Hv as [_ <-].
Qed.

Section initialized.
Context (clock : nat) (s : store).
Context (Hh : hash_ok (hash genesis_block)) (Ha : genesis_account <> 0) (Hadm : admitted genesis_block).
Local Abbreviation g := (hash genesis_block).

Lemma genesis_chain : chain_inv {[g := (genesis_block, 0)]} genesis_facts.
Proof.
  assert (contents {[g := (genesis_block, 0)]} = {[g := genesis_block]}) as HC by apply map_fmap_singleton.
  unfold genesis_facts. split; rewrite ?HC.
  - intros h. destruct (decide (h = g)) as [->|Hne].
    + rewrite !lookup_singleton_eq. split; eauto.
    + by rewrite !lookup_singleton_ne.
  - intros h b succ [<- [= <- <-]]%lookup_singleton_Some. done.
  - intros h m [<- <-]%lookup_singleton_Some. cbn. split_and!; [done|done|lia|].
    exists genesis_block. by rewrite lookup_singleton_eq.
  - intros h b succ m [<- [= <- <-]]%lookup_singleton_Some [_ <-]%lookup_singleton_Some.
    cbn. split_and!; try done. by left.
  - intros h b succ [<- [= <- <-]]%lookup_singleton_Some. done.
  - intros h b succ [<- [= <- <-]]%lookup_singleton_Some. done.
  - intros h1 h2 x Hs. unfold source_of in Hs.
    destruct (_ !! h1) as [b|] eqn:Hb; [|done]. apply lookup_singleton_Some in Hb as [_ <-].
    cbn in Hs. by rewrite Z.eqb_refl in Hs.
Qed.

Lemma genesis_no_send h : send_of {[g := genesis_block]} genesis_facts h = None.
Proof.
  unfold send_of. destruct (_ !! h) as [b|] eqn:Hb; [|done]. by apply lookup_singleton_Some in Hb as [_ <-].
Qed.

Lemma genesis_weights r :
  representation_get (genesis_store clock s) r = wrap 128 (weight_of (genesis_store clock s) r + 0).
Proof.
  unfold weight_of. rewrite genesis_blocks. unfold representation_get, contents. cbn.
  rewrite map_fmap_singleton. unfold map_sum, map_acc. rewrite map_fold_singleton. cbn.
  unfold rep_of. rewrite lookup_singleton_eq. cbn. destruct (Z.eqb_spec genesis_account r) as [->|Hne].
  - by rewrite lookup_singleton_eq.
  - by rewrite lookup_singleton_ne.
Qed.

Lemma genesis_frontiers h a : frontiers (genesis_store clock s) !! h = Some a <->
  exists i, accounts (genesis_store clock s) !! a = Some i /\ ai_head i = h
    /\ legacy {[g := genesis_block]} h.
Proof.
  cbn. setoid_rewrite lookup_singleton_Some. split.
  - intros [<- <-]. eexists. split; [done|]. split; [done|]. exists genesis_block.
    by rewrite lookup_singleton_eq.
  - by intros (i & [<- <-] & <- & _).
Qed.

(** The invariant of the new ledger. *)
Lemma genesis_inv : ledger_inv 0 (fun _ => 0) genesis_facts (genesis_store clock s).
Proof.
  pose proof genesis_no_send as Hns.
  assert (contents {[g := (genesis_block, 0)]} = {[g := genesis_block]}) as HC by apply map_fmap_singleton.
  unfold genesis_facts in *. split; rewrite ?genesis_blocks, ?HC; try (cbn; by setoid_rewrite lookup_empty); try done.
  - apply genesis_tables_ok.
  - apply genesis_chain.
  - cbn [accounts genesis_store]. intros a i [<- <-]%lookup_singleton_Some. cbn. eexists _, _.
    rewrite !lookup_singleton_eq. done.
  - intros h m [<- <-]%lookup_singleton_Some. cbn. by rewrite lookup_singleton_eq.
  - intros h b m [<- _]%lookup_singleton_Some [_ <-]%lookup_singleton_Some. cbn.
    rewrite lookup_singleton_eq. eauto.
  - intros h b succ m i [<- _]%lookup_singleton_Some [_ <-]%lookup_singleton_Some _.
    cbn [accounts genesis_store ci_account]. by intros [_ <-]%lookup_singleton_Some.
  - cbn [accounts genesis_store]. intros a i [<- <-]%lookup_singleton_Some. cbn. eexists _, _, _.
    rewrite !lookup_singleton_eq. done.
  - apply genesis_frontiers.
  - intros h d x. by rewrite Hns.
  - unfold supply, map_sum, map_acc. cbn. by rewrite map_fold_singleton, map_fold_empty.
  - apply genesis_weights.
  - intros h b succ m _ _ [_ <-]%lookup_singleton_Some. done.
  - by intros h b succ [_ [= <- _]]%lookup_singleton_Some.
  - cbn. rewrite lookup_insert_eq. unfold map_lxor, map_acc. by rewrite map_fold_singleton, Z.lxor_0_r.
Qed.
End initialized.
End genesis.
