(* ===== verification/Runs.v ===== *)
(** * Runs: what holds of every ledger

    A ledger starts with the genesis block; blocks are processed and rolled back in any
    order. The theorems say what holds at every point of every such run. *)

From stdpp Require Import base list option tactics gmap.
From Stdlib Require Import ZArith Lia.
From S2P Require Import Prelude Blocks Common Stats Store Tables Visitors Ledger Rollback Chain.
From S2P Require Import Balance LedgerInv Queries Process Accept Unwind RollbackInv Determined.
From S2P Require Import Genesis.
#[local] Open Scope Z_scope.

Section runs.
Context `{E0 : Env} `{T0 : Traffic}.

Inductive reachable : ledger -> Prop :=
| reachable_genesis clock s l :
    ledger_empty s -> genesis_initialize clock s = Some (l_store l) -> reachable l
| reachable_process l b l' r :
    reachable l -> admitted b -> process b l = Some (l', r) -> reachable l'
| reachable_rollback l h l' :
    reachable l -> block_exists (l_store l) h = true -> h <> hash genesis_block ->
    rollback h l = Some l' -> reachable l'
| reachable_aside l l' :
    (** statistics, clock and bootstrap weights change on their own *)
    reachable l -> l_store l' = l_store l -> reachable l'.

(** The invariant of a run. *)
Definition consistent (G : gmap Z chain_info) (s : store) : Prop :=
  ledger_inv 0 (fun _ => 0) G s
  /\ (forall h b, contents (blocks s) !! h = Some b -> genesis_open b -> h = hash genesis_block).

(** ** The laws of the network *)

Context `{!TrafficLaws}.
Context (genesis_nonzero : genesis_account <> 0) (genesis_admitted : admitted genesis_block).

Lemma consistent_genesis clock s l :
  ledger_empty s -> genesis_initialize clock s = Some (l_store l) -> consistent genesis_facts (l_store l).
Proof.
  intros Hs Hl. rewrite (genesis_initialize_empty _ _ Hs) in Hl. injection Hl as <-. split.
  - apply genesis_inv; [by apply admitted_hash|done..].
  - intros h b. rewrite genesis_blocks. unfold contents. rewrite map_fmap_singleton.
    by intros [<- _]%lookup_singleton_Some.
Qed.

Lemma consistent_process G l b :
  consistent G (l_store l) -> admitted b ->
  exists l' r, process b l = Some (l', r) /\ outcome G b l l' r
    /\ exists G', G ⊆ G' /\ consistent G' (l_store l').
Proof.
  intros [HI Hg] Hb. destruct (process_ok _ _ _ _ _ HI Hb) as (l' & r & Hp & Ho).
  exists l', r. split_and!; [done..|]. destruct (outcome_inv _ _ _ _ _ _ _ HI Ho) as (G' & HG & HI').
  exists G'. split; [done|]. split; [done|]. destruct Ho as [[_ ->]|(_ & m & HV & HA)]; [done|].
  intros h b'. rewrite (step_contents _ _ _ _ _ HA). intros [[<- <-]|[_ Hc]]%lookup_insert_Some; [|by apply Hg].
  intros Ho. pose proof (vs_not_genesis HV). by destruct b.
Qed.

Lemma consistent_rollback G l h :
  consistent G (l_store l) -> block_exists (l_store l) h = true -> h <> hash genesis_block ->
  exists l' G' m, rollback h l = Some l' /\ consistent G' (l_store l') /\ G !! h = Some m
    /\ shrunk h (ci_rank m) G (l_store l) G' (l_store l') /\ G' !! h = None.
Proof.
  intros [HI Hg] Hh Hne. rewrite block_exists_blocks in Hh.
  destruct (blocks (l_store l) !! h) as [[b succ]|] eqn:Hb; [|done].
  destruct (stored_facts _ _ _ _ HI _ _ _ Hb) as (m & Hm & _).
  destruct (rollback_ok _ _ _ _ _ _ HI Hm) as (l' & G' & Hr & HI' & Hs & Hgone).
  { intros b' Hb' Ho. by apply Hne, (Hg h b'). }
  exists l', G', m. split; [done|]. split; [|done]. split; [done|].
  intros k b' Hk. apply Hg. by eapply lookup_weaken, sh_contents.
Qed.

Lemma reachable_consistent l : reachable l -> exists G, consistent G (l_store l).
Proof.
  induction 1 as [clock s l Hs Hl|l b l' r _ [G HC] Hb Hp|l h l' _ [G HC] Hh Hne Hr|l l' _ [G HC] E].
  - eexists. by eapply consistent_genesis.
  - destruct (consistent_process _ _ _ HC Hb) as (l1 & r1 & Hp1 & _ & G' & _ & HC').
    rewrite Hp in Hp1. injection Hp1 as <- <-. eauto.
  - destruct (consistent_rollback _ _ _ HC Hh Hne) as (l1 & G' & m & Hr1 & HC' & _).
    rewrite Hr in Hr1. injection Hr1 as <-. eauto.
  - exists G. by rewrite E.
Qed.

(** ** Processing and rolling back *)

(** C1. In every state of every run, processing a block comes to an end without a
    failed assertion. The block is accepted exactly when the rules of the ledger allow
    it; it is then stored, and a block that is not accepted leaves the store as it was. *)
Theorem process_total l b :
  reachable l -> admitted b ->
  exists l' r, process b l = Some (l', r)
    /\ (pr_code r = progress <-> acceptable (l_store l) b)
    /\ (pr_code r = progress -> block_get (l_store l') (hash b) = Some b)
    /\ (pr_code r <> progress -> l_store l' = l_store l).
Proof.
  intros [G HC]%reachable_consistent Hb.
  destruct (consistent_process _ _ _ HC Hb) as (l' & r & Hp & Ho & _ & _ & _). exists l', r.
  split_and!; [done|by eapply process_code; [apply HC|apply admitted_wf|]| |];
    destruct Ho as [[Hr ->]|(Hr & m & HV & HA)]; try done.
  intros _. rewrite block_get_blocks, (ap_blocks HA), append_lookup, decide_True; [done|done|apply HV|apply HA].
Qed.

(** C2. In every state of every run, rolling back a stored block other than the genesis
    block comes to an end without a failed assertion. The block is gone, the blocks
    that remain are unchanged, and only blocks that depend on it are gone with it. *)
Theorem rollback_total l h :
  reachable l -> block_exists (l_store l) h = true -> h <> hash genesis_block ->
  exists l', rollback h l = Some l' /\ block_exists (l_store l') h = false
    /\ (forall k b, block_get (l_store l') k = Some b -> block_get (l_store l) k = Some b)
    /\ (forall k, block_exists (l_store l) k = true -> block_exists (l_store l') k = false ->
          depends (contents (blocks (l_store l))) k h).
Proof.
  intros [G HC]%reachable_consistent Hh Hne.
  destruct (consistent_rollback _ _ _ HC Hh Hne) as (l' & G' & m & Hr & HC' & Hm & Hs & Hgone).
  assert (forall k, block_exists (l_store l') k = false <-> G' !! k = None) as Hd.
  { intros k. rewrite block_exists_blocks. pose proof (chain_dom (li_chain (proj1 HC')) k) as [H1 H2].
    destruct (blocks (l_store l') !! k), (G' !! k); try done.
    - by destruct H2.
    - by destruct H1. }
  exists l'. split_and!; [done|by apply Hd| |].
  - intros k b. rewrite (block_get_of _ _ _ _ (proj1 HC)), (block_get_of _ _ _ _ (proj1 HC')).
    intros Hk. by eapply lookup_weaken, sh_contents.
  - intros k Hk Hg%Hd. rewrite block_exists_blocks in Hk.
    destruct (blocks (l_store l) !! k) as [[kb ks]|] eqn:Hkb; [|done].
    destruct (stored_facts _ _ _ _ (proj1 HC) _ _ _ Hkb) as (km & Hkm & _). by eapply (sh_gone Hs).
Qed.

(** ** Types *)

(** C28. The records of the store are well typed. A block is stored under its hash, with its
    fields in range; balances, amounts and weights fit into 128 bits and block counts
    into 64; and the hashes and accounts that records name are those of stored blocks
    and accounts. *)
Theorem stored_types l :
  reachable l ->
  (forall h b, block_get (l_store l) h = Some b -> hash b = h /\ wf_block b)
  /\ (forall a i, account_get (l_store l) a = Some i ->
        in_width 128 (ai_balance i) /\ in_width 64 (ai_block_count i)
        /\ block_exists (l_store l) (ai_head i) = true /\ block_exists (l_store l) (ai_open_block i) = true
        /\ block_exists (l_store l) (ai_rep_block i) = true)
  /\ (forall k p, pending_get (l_store l) k = Some p ->
        in_width 128 (pi_amount p) /\ block_exists (l_store l) (pk_hash k) = true
        /\ account_exists (l_store l) (pi_source p) = true)
  /\ (forall r, in_width 128 (representation_get (l_store l) r)).
Proof.
  intros [G [HI _]]%reachable_consistent. split_and!.
  - intros h b. rewrite (block_get_of _ _ _ _ HI), contents_lookup.
    destruct (blocks (l_store l) !! h) as [[b' succ]|] eqn:Hb; [|done]. intros [= ->].
    split; [by eapply (chain_hash (li_chain HI))|]. eapply admitted_wf, (li_admitted HI), Hb.
  - intros a i Hi. destruct (li_head HI _ _ Hi) as (b & m & Hb & Hm & _ & -> & -> & ->).
    destruct (li_opened HI _ _ Hi) as (ob & os & om & Hob & _). destruct (chain_facts (li_chain HI) _ _ Hm) as (Hw & _ & _ & Hr).
    rewrite !block_exists_blocks, Hb, Hob. split_and!; [done|by apply wrap_in_width|done..|].
    destruct Hr as (rb & [rs Hrb]%contents_Some & _). by rewrite Hrb.
  - intros k p Hp. destruct (li_pending HI _ _ Hp) as (Hs & m & Hm & Ha). split_and!; [by eapply amount_width|..].
    + destruct (send_of_lookup _ _ _ _ Hs) as [b [succ Hb]%contents_Some]. by rewrite block_exists_blocks, Hb.
    + destruct (li_owner HI _ _ Hm) as [i Hi]. unfold account_exists. by rewrite <- Ha, Hi.
  - intros r. by eapply weights_width.
Qed.

(** ** Money *)

(** C3. The balances of the accounts and the pending amounts always add up to the
    genesis amount. *)
Theorem supply_conserved l : reachable l -> supply (l_store l) = genesis_amount.
Proof. intros [G [HI _]]%reachable_consistent. apply (li_supply HI). Qed.

Lemma weight_exact G s r : ledger_inv 0 (fun _ => 0) G s -> representation_get s r = weight_of s r.
Proof.
  intros HI. rewrite (li_weights HI), Z.add_0_r. apply wrap_small.
  pose proof (weight_of_range _ _ _ _ HI r) as Hr. unfold genesis_amount in Hr. unfold in_width. lia.
Qed.

(** C4. The voting weight kept for a representative is the sum of the balances of the
    accounts whose representative it is: the 128-bit additions and subtractions never
    lose anything. *)
Theorem weights_exact l r : reachable l -> representation_get (l_store l) r = weight_of (l_store l) r.
Proof. intros [G [HI _]]%reachable_consistent. by eapply weight_exact. Qed.

(** C5. The ledger is a function of the set of stored blocks: two runs that end with the
    same blocks agree on chains, accounts, frontiers, pending amounts, weights and
    checksum, in whatever order the blocks came and whatever was rolled back. *)
Theorem ledgers_converge l1 l2 :
  reachable l1 -> reachable l2 ->
  (forall h, block_get (l_store l1) h = block_get (l_store l2) h) ->
  same_ledger (l_store l1) (l_store l2).
Proof.
  intros [G1 [HI1 _]]%reachable_consistent [G2 [HI2 _]]%reachable_consistent Hb.
  eapply determined; [done..|]. apply map_eq. intros h.
  by rewrite <- (block_get_of _ _ _ _ HI1), <- (block_get_of _ _ _ _ HI2).
Qed.

Lemma contents_dom K D G s k : ledger_inv K D G s -> contents (blocks s) !! k = None <-> G !! k = None.
Proof.
  intros HI. rewrite contents_lookup, fmap_None, !eq_None_not_Some. by rewrite (chain_dom (li_chain HI)).
Qed.

(** Taking back the last block leaves the blocks there were. *)
Lemma undo_last G G'' b m l l' l'' :
  ledger_inv 0 (fun _ => 0) G (l_store l) -> valid_step G (l_store l) b m ->
  applied G (l_store l) b m (l_store l') ->
  ledger_inv 0 (fun _ => 0) G'' (l_store l'') ->
  shrunk (hash b) (ci_rank m) (<[hash b := m]> G) (l_store l') G'' (l_store l'') -> G'' !! hash b = None ->
  contents (blocks (l_store l)) = contents (blocks (l_store l'')).
Proof.
  intros HI HV HA HI'' Hs Hgone. pose proof (sh_contents Hs) as Hc. rewrite (step_contents _ _ _ _ _ HA) in Hc.
  apply map_eq. intros k. destruct (decide (k = hash b)) as [->|Hne].
  { rewrite (proj2 (contents_dom _ _ _ _ _ HI'') Hgone). by eapply new_contents. }
  destruct (contents (blocks (l_store l'')) !! k) as [kb|] eqn:Hk.
  - pose proof (lookup_weaken _ _ _ _ Hk Hc) as Hk'. by rewrite lookup_insert_ne in Hk'.
  - apply (contents_dom _ _ _ _ _ HI'') in Hk. apply (contents_dom _ _ _ _ _ HI).
    destruct (G !! k) as [km|] eqn:Hkm; [|done]. assert (G'' !! k = Some km); [|congruence].
    apply (sh_kept Hs); [by rewrite lookup_insert_ne|by eapply (vs_rank HV)].
Qed.

Lemma not_genesis_hash G s b m : valid_step G s b m -> hash b <> hash genesis_block.
Proof.
  intros HV E. pose proof (admitted_inj _ _ (vs_admitted HV) genesis_admitted E) as Hi.
  apply hash_input_hashables in Hi; [|by apply admitted_wf; try apply HV..].
  pose proof (vs_not_genesis HV) as Hg. destruct b; cbn in Hi; destruct Hi as [Hi|Hi]; try done.
  destruct Hg. unfold open_source. by rewrite Hi.
Qed.

(** C6. Rolling back a block that was just accepted takes the ledger back to what it was
    before, up to the times of change and the block information. *)
Theorem process_rollback l b l' r :
  reachable l -> admitted b -> process b l = Some (l', r) -> pr_code r = progress ->
  exists l'', rollback (hash b) l' = Some l'' /\ same_ledger (l_store l) (l_store l'').
Proof.
  intros [G [HI Hg]]%reachable_consistent Hb Hp Hr.
  destruct (process_ok _ _ _ _ _ HI Hb) as (l1 & r1 & Hp1 & Ho). rewrite Hp in Hp1. injection Hp1 as <- <-.
  destruct Ho as [[? _]|(_ & m & HV & HA)]; [done|].
  pose proof (apply_inv _ _ _ _ _ _ HI HV _ HA) as HI'.
  destruct (rollback_ok _ _ _ _ (hash b) m HI') as (l'' & G'' & Hrb & HI'' & Hs & Hgone).
  { apply lookup_insert_eq. }
  { intros b'. rewrite (step_contents _ _ _ _ _ HA), lookup_insert_eq. intros [= <-] Ho.
    pose proof (vs_not_genesis HV). by destruct b. }
  exists l''. split; [done|]. eapply determined; [done..|]. by eapply undo_last.
Qed.

(** ** Chains *)

(** C29. The record of an account describes the end of its chain: the balance and the
    representative block that the walks over the chain compute, the account the head
    belongs to, a head without successor, and the block that opened the account. *)
Theorem account_info_correct l a i :
  reachable l -> account_get (l_store l) a = Some i ->
  balance (l_store l) (ai_head i) = Some (ai_balance i)
  /\ ledger_representative (l_store l) (ai_head i) = Some (ai_rep_block i)
  /\ account (l_store l) (ai_head i) = Some a
  /\ block_successor (l_store l) (ai_head i) = 0
  /\ account (l_store l) (ai_open_block i) = Some a
  /\ previous <$> block_get (l_store l) (ai_open_block i) = Some 0.
Proof.
  intros [G [HI _]]%reachable_consistent Hi.
  destruct (li_head HI _ _ Hi) as (b & m & Hb & Hm & Ha & -> & -> & _).
  destruct (li_opened HI _ _ Hi) as (ob & os & om & Hob & Hom & Hoa & Hop).
  rewrite (balance_of _ _ _ _ HI _ _ Hm), (representative_of _ _ _ _ HI _ _ Hm), (account_of _ _ _ _ HI _ _ Hm),
    (account_of _ _ _ _ HI _ _ Hom), block_successor_blocks, Hb by apply HI.
  rewrite (block_get_of _ _ _ _ HI), contents_lookup, Hob. cbn. by rewrite Ha, Hoa, Hop.
Qed.

(** Every stored block has an account with an open chain. A first block opened it; any
    other block follows a block of the same account that points to it. *)
Theorem block_account l h b :
  reachable l -> block_get (l_store l) h = Some b ->
  exists a i, account (l_store l) h = Some a /\ account_get (l_store l) a = Some i
    /\ (previous b = 0 -> ai_open_block i = h)
    /\ (previous b <> 0 -> account (l_store l) (previous b) = Some a
                           /\ block_successor (l_store l) (previous b) = h).
Proof.
  intros [G [HI _]]%reachable_consistent Hb. rewrite (block_get_of _ _ _ _ HI) in Hb.
  pose proof Hb as [succ Hs]%contents_Some. destruct (stored_facts _ _ _ _ HI _ _ _ Hs) as (m & Hm & Hok).
  destruct (li_owner HI _ _ Hm) as [i Hi]. exists (ci_account m), i.
  split_and!; [by eapply account_of|done|by intros; eapply (li_open HI)|]. intros Hp.
  destruct (block_ok_follows _ _ _ _ _ Hok Hp) as (p & _ & Hpm & -> & _).
  destruct (chain_back (li_chain HI) _ _ _ Hs Hp) as [pb Hpb].
  split; [by eapply account_of|]. by rewrite block_successor_blocks, Hpb by apply HI.
Qed.

(** ** Transfers *)

(** A send is received at most once. *)
Theorem received_once l h1 b1 h2 b2 x :
  reachable l -> block_get (l_store l) h1 = Some b1 -> block_get (l_store l) h2 = Some b2 ->
  block_source (l_store l) b1 = Some x -> block_source (l_store l) b2 = Some x ->
  block_exists (l_store l) x = true -> h1 = h2.
Proof.
  intros [G [HI _]]%reachable_consistent H1 H2 S1 S2 Hx. rewrite (block_get_of _ _ _ _ HI) in H1, H2.
  assert (is_Some (contents (blocks (l_store l)) !! x)) as HX.
  { rewrite block_exists_blocks in Hx. rewrite contents_lookup. destruct (blocks (l_store l) !! x); [eauto|done]. }
  eapply (chain_once (li_chain HI)); by eapply block_source_source.
Qed.

(** C27. What a block receives is the amount its source sends, from a send to the block's
    account. *)
Theorem received_amount l h b x :
  reachable l -> block_get (l_store l) h = Some b -> block_source (l_store l) b = Some x ->
  block_exists (l_store l) x = true ->
  exists xb y before after, block_get (l_store l) x = Some xb /\ sends (l_store l) xb
    /\ block_destination (l_store l) xb = account (l_store l) h
    /\ amount (l_store l) x = Some y /\ balance (l_store l) (previous b) = Some before
    /\ balance (l_store l) h = Some after /\ after = before + y.
Proof.
  intros [G [HI _]]%reachable_consistent Hb Hsrc Hx. rewrite (block_get_of _ _ _ _ HI) in Hb.
  assert (exists xb, contents (blocks (l_store l)) !! x = Some xb) as [xb Hxb].
  { rewrite block_exists_blocks in Hx. rewrite contents_lookup. destruct (blocks (l_store l) !! x); [eauto|done]. }
  pose proof (block_source_source _ _ _ _ HI _ _ _ Hb Hsrc ltac:(eauto)) as Hs.
  pose proof Hb as [succ Hst]%contents_Some. destruct (stored_facts _ _ _ _ HI _ _ _ Hst) as (m & Hm & Hok).
  pose proof (block_ok_balance _ _ _ _ _ _ Hok Hb (facts_zero _ _ _ _ HI)) as Hbal.
  destruct (send_of (contents (blocks (l_store l))) G h) as [r|] eqn:E.
  { by rewrite (send_not_source _ _ _ _ E) in Hs. }
  rewrite Hs in Hbal. destruct Hbal as (y & [Hy _] & Hy').
  { destruct b as [| |ob| |]; try done. unfold source_of in Hs. rewrite Hb in Hs.
    by destruct (Z.eqb_spec (open_source ob) genesis_account). }
  exists xb, y, (balance_before G b), (ci_balance m). rewrite (block_get_of _ _ _ _ HI).
  split_and!; [done| | |by eapply amount_of| |by eapply balance_of|done].
  - apply (sends_of _ _ _ _ HI _ _ Hxb). eauto.
  - rewrite (block_destination_of _ _ _ _ HI _ _ _ _ Hxb Hy). symmetry. by eapply account_of.
  - unfold balance_before. destruct (G !! previous b) as [p|] eqn:Hp; [by eapply balance_of|].
    destruct (decide (previous b = 0)) as [->|Hne]; [apply balance_zero|].
    destruct (block_ok_follows _ _ _ _ _ Hok Hne) as (p & _ & ? & _). congruence.
Qed.

(** The stored block [h] is received by some block. *)
Definition received (s : store) (h : Z) : Prop :=
  exists r rb, block_get s r = Some rb /\ block_source s rb = Some h.

(** C30. An amount is pending exactly when a stored block sends it and no block has
    received it; the entry records the sending account and the amount. *)
Theorem pending_unreceived l h b d :
  reachable l -> block_get (l_store l) h = Some b ->
  (exists p, pending_get (l_store l) (PendingKey d h) = Some p
     /\ amount (l_store l) h = Some (pi_amount p) /\ account (l_store l) h = Some (pi_source p))
  <-> sends (l_store l) b /\ block_destination (l_store l) b = Some d /\ ~ received (l_store l) h.
Proof.
  intros [G [HI _]]%reachable_consistent Hb. rewrite (block_get_of _ _ _ _ HI) in Hb.
  rewrite (sends_of _ _ _ _ HI _ _ Hb). unfold pending_get, received. split.
  - intros (p & Hp & _). destruct (li_pending HI _ _ Hp) as (Hs & _). cbn in Hs.
    split_and!; [by eauto|by eapply block_destination_of|]. intros (r & rb & Hr & Hsrc).
    rewrite (block_get_of _ _ _ _ HI) in Hr. apply (li_unreceived HI _ _ r Hp).
    by eapply block_source_source; eauto.
  - intros ([[d' y] Hs] & Hd & Hn). rewrite (block_destination_of _ _ _ _ HI _ _ _ _ Hb Hs) in Hd.
    injection Hd as ->. destruct (li_settled HI _ _ _ Hs) as [[p Hp]|[r Hr]].
    + exists p. destruct (li_pending HI _ _ Hp) as (Hs' & q & Hq & <-). cbn in Hs', Hq.
      split_and!; [done|by eapply amount_of|by eapply account_of].
    + destruct Hn. destruct (source_of_lookup _ _ _ _ Hr) as [rb Hrb]. exists r, rb.
      rewrite (block_get_of _ _ _ _ HI). split; [done|]. by eapply source_block_source.
Qed.

(** The checksum is the exclusive or of the heads of all accounts. *)
Theorem checksum_heads l :
  reachable l -> checksum (l_store l) = Some (map_lxor (fun _ i => ai_head i) (accounts (l_store l))).
Proof.
  intros [G [HI _]]%reachable_consistent. unfold checksum, checksum_get.
  change (checksum_key 0 0) with 0. cbn. by rewrite (li_checksum HI), Z.lxor_0_l.
Qed.
End runs.
