(* ===== verification/Votes.v ===== *)
(** * Votes: the votes on a root, their tally and the winner

    [rai::votes] (common.cpp) and [ledger::tally], [ledger::winner] (ledger.cpp). The
    iteration order of an [unordered_map] is not specified: it is a parameter, any
    enumeration of the entries. *)

From stdpp Require Import base list option tactics gmap sorting.
From Stdlib Require Import ZArith Lia.
From S2P Require Import Prelude Blocks Common Stats Store Tables Visitors Ledger Rollback Chain.
From S2P Require Import LedgerInv Genesis Runs.
#[local] Open Scope Z_scope.

(** ** Data *)

Record votes := Votes {
  votes_id : Z;
  rep_votes : gmap Z block
}.

Inductive tally_result :=
| tally_vote
| tally_changed
| tally_confirm.

(** The order in which the entries of hash maps are visited. *)
Class HashOrder := {
  map_order {A : Type} : gmap Z A -> list (Z * A);
  totals_order : list (block * Z) -> list (block * Z)
}.
Class HashOrderLaws `{HashOrder} : Prop := {
  map_order_perm {A : Type} (m : gmap Z A) : map_order m ≡ₚ map_to_list m;
  totals_order_perm t : totals_order t ≡ₚ t
}.

(** ** Operations *)

(** [votes::votes]: the block itself votes under an account that is no account. *)
Definition votes_init (not_an_account : Z) (b : block) : votes :=
  Votes (root b) {[not_an_account := b]}.

(** [votes::vote]. *)
Definition votes_vote (v : vote) (vs : votes) : tally_result * votes :=
  match rep_votes vs !! vote_account v with
  | None => (tally_vote, Votes (votes_id vs) (<[vote_account v := vote_block v]> (rep_votes vs)))
  | Some b =>
    if negb (blocks_equal b (vote_block v))
    then (tally_changed, Votes (votes_id vs) (<[vote_account v := vote_block v]> (rep_votes vs)))
    else (tally_confirm, vs)
  end.

(** [votes::uncontested]. *)
Definition uncontested `{HashOrder} (vs : votes) : bool :=
  match map_order (rep_votes vs) with
  | [] => true
  | (_, b) :: _ as order => forallb (fun e => blocks_equal (snd e) b) order
  end.

(** The first loop of [ledger::tally]: the total of each block. *)
Fixpoint totals_add (b : block) (w : Z) (t : list (block * Z)) : list (block * Z) :=
  match t with
  | [] => [(b, wrap 128 (0 + w))]
  | (b', x) :: t =>
    if blocks_equal b' b then (b', wrap 128 (x + w)) :: t else (b', x) :: totals_add b w t
  end.

Fixpoint tally_totals (order : list (Z * block)) (t : list (block * Z)) (l : ledger)
    : list (block * Z) * ledger :=
  match order with
  | [] => (t, l)
  | (a, b) :: order => let '(w, l) := weight l a in tally_totals order (totals_add b w t) l
  end.

(** [result[w] = b] in a map from totals to blocks, greatest first. *)
Fixpoint tally_insert (w : Z) (b : block) (m : list (Z * block)) : list (Z * block) :=
  match m with
  | [] => [(w, b)]
  | (w', b') :: m =>
    if w' <? w then (w, b) :: (w', b') :: m
    else if w' =? w then (w, b) :: m
    else (w', b') :: tally_insert w b m
  end.

Definition tally_result_map (t : list (block * Z)) : list (Z * block) :=
  fold_left (fun m e => tally_insert (snd e) (fst e) m) t [].

(** [ledger::tally]. *)
Definition tally `{HashOrder} (l : ledger) (vs : votes) : list (Z * block) * ledger :=
  let '(t, l) := tally_totals (map_order (rep_votes vs)) [] l in
  (tally_result_map (totals_order t), l).

(** [ledger::winner]: [None] is a read past the end of the tally. *)
Definition winner `{HashOrder} (l : ledger) (vs : votes) : option (Z * block) * ledger :=
  let '(m, l) := tally l vs in (head m, l).

(** ** What the tally should be *)

(** The weights [ledger::weight] gives to the voters of [b]. *)
Definition total (l : ledger) (vs : votes) (b : block) : Z :=
  map_sum (fun a b' => if decide (b' = b) then fst (weight l a) else 0) (rep_votes vs).

Definition voted (vs : votes) (b : block) : Prop := exists a, rep_votes vs !! a = Some b.

(** ** Lemmas *)

Lemma blocks_equal_decide a b : blocks_equal a b = bool_decide (a = b).
Proof.
  pose proof (blocks_equal_iff a b) as Hi. destruct (bool_decide_reflect (a = b)); [by apply Hi|].
  destruct (blocks_equal a b); naive_solver.
Qed.

(** A call of [weight] does not change what later calls return. *)
Lemma weight_stable l a a' : fst (weight (snd (weight l a)) a') = fst (weight l a').
Proof.
  unfold weight. destruct (l_check_bootstrap_weights l) eqn:Hc; [|cbn; by rewrite Hc].
  destruct (block_counts_sum _ <? _) eqn:Hn; [|done].
  destruct (l_bootstrap_weights l !! a) eqn:Hw; cbn; by rewrite Hc, Hn.
Qed.

(** The total kept for a block. *)
Fixpoint total_in (b : block) (t : list (block * Z)) : Z :=
  match t with
  | [] => 0
  | (c, x) :: t => if decide (c = b) then x else total_in b t
  end.

Lemma totals_add_keys b w t b' : b' ∈ (totals_add b w t).*1 <-> b' = b \/ b' ∈ t.*1.
Proof.
  induction t as [|[c x] t IH]; cbn.
  - rewrite list_elem_of_singleton. set_solver.
  - rewrite blocks_equal_decide. case_bool_decide; subst; cbn; set_solver.
Qed.

Lemma totals_add_nodup b w t : NoDup t.*1 -> NoDup (totals_add b w t).*1.
Proof.
  induction t as [|[c x] t IH]; cbn; intros H.
  - apply NoDup_singleton.
  - rewrite blocks_equal_decide. apply NoDup_cons in H as [Hc H]. case_bool_decide; cbn.
    + by apply NoDup_cons.
    + apply NoDup_cons. split; [|by apply IH]. rewrite totals_add_keys. set_solver.
Qed.

Lemma totals_add_total b w t b' :
  total_in b' (totals_add b w t) = if decide (b' = b) then wrap 128 (total_in b t + w) else total_in b' t.
Proof.
  induction t as [|[c x] t IH]; cbn.
  - repeat case_decide; by subst.
  - rewrite blocks_equal_decide. case_bool_decide as Hc; [subst c|]; cbn.
    + repeat case_decide; by subst.
    + rewrite IH. repeat case_decide; subst; done.
Qed.

(** What [tally_totals] adds to the total of a block. *)
Fixpoint order_total (l : ledger) (order : list (Z * block)) (b : block) : Z :=
  match order with
  | [] => 0
  | (a, c) :: order => (if decide (c = b) then fst (weight l a) else 0) + order_total l order b
  end.

Lemma order_total_stable l a order b : order_total (snd (weight l a)) order b = order_total l order b.
Proof.
  induction order as [|[a' b'] order IH]; [done|]. cbn. by rewrite weight_stable, IH.
Qed.

Lemma order_total_perm l order order' b : order ≡ₚ order' -> order_total l order b = order_total l order' b.
Proof. induction 1 as [|[]| [] []|]; cbn; lia. Qed.

(** The state of the loop: distinct blocks, the ones seen, with their totals modulo 2^128. *)
Lemma tally_totals_ok order t l :
  NoDup t.*1 -> (forall b, total_in b t = wrap 128 (total_in b t)) ->
  let t' := fst (tally_totals order t l) in
  NoDup t'.*1
  /\ (forall b, b ∈ t'.*1 <-> b ∈ t.*1 \/ b ∈ order.*2)
  /\ (forall b, total_in b t' = wrap 128 (total_in b t + order_total l order b)).
Proof.
  revert t l. induction order as [|[a c] order IH]; intros t l Hn Hw; cbn.
  { split_and!; [done|set_solver|]. intros b. by rewrite Z.add_0_r. }
  rewrite (surjective_pairing (weight l a)). set (t1 := totals_add c (fst (weight l a)) t).
  destruct (IH t1 (snd (weight l a))) as (H1 & H2 & H3).
  { by apply totals_add_nodup. }
  { intros b. unfold t1. rewrite totals_add_total. case_decide; [by rewrite wrap_wrap|done]. }
  split_and!; [done| |].
  - intros b. rewrite H2. unfold t1. rewrite totals_add_keys. set_solver.
  - intros b. rewrite H3, order_total_stable. unfold t1. rewrite totals_add_total.
    repeat case_decide; subst; try done. rewrite wrap_add_l. f_equal. cbn. lia.
Qed.

Lemma total_in_elem b x t : NoDup t.*1 -> (b, x) ∈ t -> total_in b t = x.
Proof.
  induction t as [|[c y] t IH]; cbn; intros Hn Hx; [by apply not_elem_of_nil in Hx|].
  apply NoDup_cons in Hn as [Hc Hn]. apply elem_of_cons in Hx as [[= -> ->]|Hx]; [by rewrite decide_True|].
  rewrite decide_False; [by apply IH|]. intros ->. apply Hc. by apply list_elem_of_fmap_2' with (x := (b, x)).
Qed.

(** ** The map of totals *)

(** Strictly decreasing totals. *)
Definition descending (m : list (Z * block)) : Prop := StronglySorted (fun x y => fst y < fst x) m.

Lemma tally_insert_keys w b m w' : w' ∈ (tally_insert w b m).*1 <-> w' = w \/ w' ∈ m.*1.
Proof.
  induction m as [|[x c] m IH]; cbn; [rewrite list_elem_of_singleton; set_solver|].
  destruct (Z.ltb_spec x w), (Z.eqb_spec x w); cbn; subst; set_solver.
Qed.

Lemma tally_insert_descending w b m : descending m -> descending (tally_insert w b m).
Proof.
  unfold descending. induction m as [|[x c] m IH]; cbn; intros Hm; [by repeat constructor|].
  apply StronglySorted_inv in Hm as [Hm Hx]. rewrite Forall_forall in Hx.
  destruct (Z.ltb_spec x w); [|destruct (Z.eqb_spec x w)].
  - constructor; [by constructor; [|apply Forall_forall]|]. constructor; [done|].
    apply Forall_forall. intros y Hy. specialize (Hx y Hy). cbn in *. lia.
  - subst x. constructor; [done|]. by apply Forall_forall.
  - constructor; [by apply IH|]. apply Forall_forall. intros [y cy] Hy.
    assert (y = w \/ y ∈ m.*1) as [->|([z cz] & -> & Hz)%list_elem_of_fmap].
    { apply tally_insert_keys with (b := b). by apply list_elem_of_fmap_2' with (x := (y, cy)). }
    + cbn. lia.
    + by apply (Hx _ Hz).
Qed.

(** Every entry of the map is an entry of the totals, and every total is a key. *)
Lemma tally_insert_elem w b m e : e ∈ tally_insert w b m -> e = (w, b) \/ e ∈ m.
Proof.
  induction m as [|[x c] m IH]; cbn; [rewrite list_elem_of_singleton; auto|].
  destruct (Z.ltb_spec x w), (Z.eqb_spec x w); rewrite ?elem_of_cons; set_solver.
Qed.

Lemma tally_map_ok t m :
  descending m ->
  let m' := fold_left (fun m e => tally_insert (snd e) (fst e) m) t m in
  descending m'
  /\ (forall w, w ∈ m'.*1 <-> w ∈ m.*1 \/ w ∈ t.*2)
  /\ (forall w b, (w, b) ∈ m' -> (w, b) ∈ m \/ (b, w) ∈ t).
Proof.
  revert m. induction t as [|[b w] t IH]; intros m Hm; cbn; [set_solver|].
  destruct (IH (tally_insert w b m)) as (H1 & H2 & H3); [by apply tally_insert_descending|].
  split_and!; [done| |].
  - intros w'. rewrite H2, tally_insert_keys. set_solver.
  - intros w' b' [H|H]%H3; [|set_solver]. apply tally_insert_elem in H. set_solver.
Qed.

Lemma descending_head w b m w' : descending ((w, b) :: m) -> w' ∈ ((w, b) :: m).*1 -> w' <= w.
Proof.
  intros [_ H]%StronglySorted_inv [->|Hw]%elem_of_cons; [done|].
  apply list_elem_of_fmap in Hw as ([x c] & -> & Hx). rewrite Forall_forall in H. specialize (H _ Hx). cbn in *. lia.
Qed.

(** ** The tally of a set of votes *)

Section tally.
Context `{E0 : Env} `{O0 : HashOrder} `{L0 : !HashOrderLaws}.

Lemma order_total_total l vs b : order_total l (map_order (rep_votes vs)) b = total l vs b.
Proof.
  rewrite (order_total_perm _ _ _ _ (map_order_perm (rep_votes vs))). unfold total.
  induction (rep_votes vs) as [|a c m Ha IH] using map_ind; [done|].
  rewrite (order_total_perm _ _ _ _ (map_to_list_insert _ _ _ Ha)), map_sum_insert by done. cbn. by rewrite IH.
Qed.

Lemma map_order_voted vs b : b ∈ (map_order (rep_votes vs)).*2 <-> voted vs b.
Proof.
  rewrite (map_order_perm (rep_votes vs)). unfold voted. rewrite list_elem_of_fmap. split.
  - intros ([a c] & -> & H%elem_of_map_to_list). eauto.
  - intros [a H]. exists (a, b). by rewrite elem_of_map_to_list.
Qed.

(** The entries of the tally: the totals that occur, greatest first, each with one of
    the blocks that have it. *)
Lemma tally_ok l vs :
  let m := fst (tally l vs) in
  descending m
  /\ (forall w b, (w, b) ∈ m -> voted vs b /\ w = wrap 128 (total l vs b))
  /\ (forall b, voted vs b -> wrap 128 (total l vs b) ∈ m.*1).
Proof.
  unfold tally. destruct (tally_totals_ok (map_order (rep_votes vs)) [] l) as (H1 & H2 & H3);
    [constructor|done|]. destruct (tally_totals _ [] l) as [t l']. cbn in *.
  destruct (tally_map_ok (totals_order t) []) as (M1 & M2 & M3); [constructor|].
  assert (forall b, b ∈ t.*1 -> (b, wrap 128 (total l vs b)) ∈ t) as Ht.
  { intros b ([c x] & -> & Hx)%list_elem_of_fmap. cbn in *. rewrite <- order_total_total, <- (Z.add_0_l (order_total _ _ _)), <- H3.
    by rewrite (total_in_elem c x). }
  split_and!; [done| |].
  - intros w b [Hm|Hm]%M3; [by apply not_elem_of_nil in Hm|]. rewrite totals_order_perm in Hm.
    assert (b ∈ t.*1) as Hb by by apply list_elem_of_fmap_2' with (x := (b, w)).
    split; [apply map_order_voted; set_solver|].
    by rewrite <- (total_in_elem _ _ _ H1 Hm), <- (total_in_elem _ _ _ H1 (Ht _ Hb)).
  - intros b Hb%map_order_voted. apply M2. right. rewrite totals_order_perm.
    apply list_elem_of_fmap_2' with (x := (b, wrap 128 (total l vs b))); [|done]. apply Ht. set_solver.
Qed.

Lemma winner_ok l vs b :
  voted vs b ->
  exists w b0, fst (winner l vs) = Some (w, b0) /\ voted vs b0 /\ w = wrap 128 (total l vs b0)
    /\ forall b', voted vs b' -> wrap 128 (total l vs b') <= w.
Proof.
  intros Hb. unfold winner. destruct (tally_ok l vs) as (H1 & H2 & H3). destruct (tally l vs) as [m l']. cbn in *.
  destruct m as [|[w b0] m]; [by apply H3, not_elem_of_nil in Hb|]. exists w, b0.
  destruct (H2 w b0) as [Hv Hw]; [by left|]. split_and!; [done..|]. intros b' Hb'%H3. by eapply descending_head.
Qed.

(** The winner is a block that got a vote, with the total of the weights of its voters
    in 128-bit arithmetic, and no block has a greater total. *)
Theorem winner_greatest l vs b :
  voted vs b ->
  exists w b0, fst (winner l vs) = Some (w, b0) /\ voted vs b0 /\ w = wrap 128 (total l vs b0)
    /\ forall b', voted vs b' -> wrap 128 (total l vs b') <= w.
Proof. apply winner_ok. Qed.
End tally.

(** ** Totals in a consistent ledger *)

(** The bootstrap weights are no longer in use. *)
Definition bootstrapped (l : ledger) : Prop :=
  l_check_bootstrap_weights l = false
  \/ l_bootstrap_weight_max_blocks l <= block_counts_sum (block_count (l_store l)).

Lemma bootstrapped_weight l a : bootstrapped l -> fst (weight l a) = representation_get (l_store l) a.
Proof.
  unfold weight. intros [->|Hb]; [done|]. destruct (l_check_bootstrap_weights l); [|done].
  destruct (Z.ltb_spec (block_counts_sum (block_count (l_store l))) (l_bootstrap_weight_max_blocks l)); [lia|done].
Qed.

Section exact.
Context `{E0 : Env} `{T0 : Traffic} `{L0 : !TrafficLaws}.
Context (genesis_nonzero : genesis_account <> 0) (genesis_admitted : admitted genesis_block).

(** All voters together have at most the supply. *)
Lemma voters_weight {A} K D G s (m : gmap Z A) :
  ledger_inv K D G s -> map_sum (fun a _ => weight_of s a) m <= genesis_amount.
Proof.
  intros HI. pose proof (li_supply HI) as Hs. unfold supply in Hs.
  pose proof (map_sum_nonneg _ _ (pending_nonneg _ _ _ _ HI)) as Hp.
  enough (map_sum (fun a _ => weight_of s a) m
    = map_sum (fun _ i => if decide (is_Some (m !! rep_of (contents (blocks s)) (ai_rep_block i)))
                          then ai_balance i else 0) (accounts s)) as ->.
  { transitivity (map_sum (fun _ i => ai_balance i) (accounts s)); [|lia]. apply map_sum_le. intros a i Hi.
    case_decide; [lia|by eapply account_balance_nonneg]. }
  induction m as [|a x m Ha IH] using map_ind.
  { rewrite map_sum_empty. symmetry. apply map_sum_zero. intros k i _. by rewrite lookup_empty, decide_False by (by intros []). }
  rewrite map_sum_insert, IH by done. unfold weight_of. rewrite <- map_sum_add. apply map_sum_ext. intros k i _.
  destruct (Z.eqb_spec (rep_of (contents (blocks s)) (ai_rep_block i)) a) as [->|Hne].
  - rewrite Ha, decide_False, lookup_insert_eq, decide_True by (eauto || by intros []). lia.
  - by rewrite lookup_insert_ne by done.
Qed.

(** The total of a block, of representatives that vote for it. *)
Lemma total_exact l vs b : reachable l -> bootstrapped l ->
  total l vs b = map_sum (fun a b' => if decide (b' = b) then weight_of (l_store l) a else 0) (rep_votes vs).
Proof.
  intros [G [HI _]]%reachable_consistent Hb; [|done..]. apply map_sum_ext. intros a b' _. case_decide; [|done].
  rewrite bootstrapped_weight, (weight_exact _ _ _ HI) by done. done.
Qed.

Lemma total_range l vs b : reachable l -> bootstrapped l -> 0 <= total l vs b <= genesis_amount.
Proof.
  intros Hl Hb. rewrite total_exact by done. apply reachable_consistent in Hl as [G [HI _]]; [|done..]. split.
  - apply map_sum_nonneg. intros a b0 _. case_decide; [by eapply weight_of_range|done].
  - etrans; [|by apply (voters_weight _ _ _ _ (rep_votes vs) HI)]. apply map_sum_le. intros a b0 _.
    case_decide; [done|by eapply weight_of_range].
Qed.

Lemma totals_bound l vs b b' : reachable l -> bootstrapped l -> b <> b' ->
  total l vs b + total l vs b' <= genesis_amount.
Proof.
  intros Hl Hb Hne. rewrite !total_exact by done. apply reachable_consistent in Hl as [G [HI _]]; [|done..].
  rewrite <- map_sum_add. etrans; [|by apply (voters_weight _ _ _ _ (rep_votes vs) HI)].
  apply map_sum_le. intros a b0 _. pose proof (weight_of_range _ _ _ _ HI a) as Hr.
  repeat case_decide; subst; try done; lia.
Qed.

(** The total of a block with its exact value: the balances delegated to its voters. *)
Definition support (s : store) (vs : votes) (b : block) : Z :=
  map_sum (fun a b' => if decide (b' = b) then weight_of s a else 0) (rep_votes vs).

(** What all voters together have. *)
Definition cast (l : ledger) (vs : votes) : Z := map_sum (fun a _ => fst (weight l a)) (rep_votes vs).

(** More than half of the weight of the voters wins. *)
Lemma half_of_cast `{O0 : HashOrder} `{!HashOrderLaws} l vs b :
  voted vs b -> (forall a, 0 <= fst (weight l a)) -> cast l vs < 2 ^ 128 -> cast l vs < 2 * total l vs b ->
  fst (winner l vs) = Some (total l vs b, b).
Proof.
  intros Hv Hpos Hw Hm. destruct (winner_ok l vs b Hv) as (w & b0 & -> & Hv0 & -> & Hmax). specialize (Hmax b Hv).
  assert (forall c, 0 <= total l vs c <= cast l vs) as Hr.
  { intros c. split; [apply map_sum_nonneg|apply map_sum_le]; intros a b' _; pose proof (Hpos a); case_decide; lia. }
  assert (forall c, wrap 128 (total l vs c) = total l vs c) as Hs.
  { intros c. apply wrap_small. pose proof (Hr c). unfold in_width. lia. }
  rewrite !Hs in *. destruct (decide (b0 = b)) as [->|Hne]; [done|].
  assert (total l vs b0 + total l vs b <= cast l vs); [|lia].
  unfold total. rewrite <- map_sum_add. apply map_sum_le. intros a b' _. pose proof (Hpos a). repeat case_decide; subst; try done; lia.
Qed.

(** C17. A block whose voters have more than half of the weight of all voters wins the tally,
    with exactly that weight, as long as the weights, bootstrap weights included, are not
    negative and add up within 128 bits. Once the bootstrap weights are no longer used this
    is so without conditions for a block whose voters hold more than half of the supply,
    and its weight is the sum of the balances delegated to them. *)
Theorem majority_wins `{O0 : HashOrder} `{!HashOrderLaws} l vs b :
  reachable l -> voted vs b ->
  ((forall a, 0 <= fst (weight l a)) -> cast l vs < 2 ^ 128 -> cast l vs < 2 * total l vs b ->
   fst (winner l vs) = Some (total l vs b, b))
  /\ (bootstrapped l -> genesis_amount < 2 * support (l_store l) vs b ->
      fst (winner l vs) = Some (support (l_store l) vs b, b)).
Proof.
  intros Hl Hv. split; [by apply half_of_cast|]. intros Hb. unfold support. rewrite <- total_exact by done. intros Hm.
  destruct (reachable_consistent genesis_nonzero genesis_admitted _ Hl) as [G [HI _]].
  assert (forall a, fst (weight l a) = weight_of (l_store l) a) as Hw.
  { intros a. by rewrite bootstrapped_weight, (weight_exact _ _ _ HI). }
  assert (cast l vs <= genesis_amount) as Hc.
  { etrans; [|by apply (voters_weight _ _ _ _ (rep_votes vs) HI)]. apply map_sum_le. intros a b' _. by rewrite Hw. }
  apply half_of_cast; [done| |unfold genesis_amount in Hc; lia|lia].
  intros a. rewrite Hw. by eapply weight_of_range.
Qed.
End exact.
