(* ===== verification/Elections.v ===== *)
(** * Elections: from votes to confirmed blocks

    [rai::election] and [rai::active_transactions] (node/node.cpp). An election is held
    for a root; what it asks of the rest of the node (a block forced into the ledger, a
    confirmed block, a vote passed on) is returned as a list of effects. *)

From stdpp Require Import base list option tactics gmap sorting.
From Stdlib Require Import ZArith Lia.
From S2P Require Import Prelude Blocks Common Stats Store Tables Visitors Ledger Chain LedgerInv.
From S2P Require Import Genesis Runs Votes.
#[local] Open Scope Z_scope.

(** ** Data *)

Record election_status := ElectionStatus {
  es_winner : block;
  es_tally : Z
}.

Record vote_info := VoteInfo {
  vi_time : Z;
  vi_sequence : Z;
  vi_hash : Z
}.

Record election := Election {
  el_votes : votes;
  el_last_votes : gmap Z vote_info;
  el_status : election_status;
  el_confirmed : bool
}.

Record conflict_info := ConflictInfo {
  cf_election : election;
  cf_announcements : Z;
  cf_confirm_req_options : block * option block
}.

Inductive effect :=
| force (b : block)
| process_confirmed (b : block)
| republish_vote (v : vote)
| broadcast_winner (b : block)
| broadcast_confirm_req (b : block) (reps : list Z).

Record active_transactions := ActiveTransactions {
  roots : gmap Z conflict_info;
  confirmed : list election_status
}.

(** The configuration, and whether this is the test network. *)
Class NodeConfig := {
  online_weight_minimum : Z;
  online_weight_quorum : Z;
  test_network : bool;
  not_an_account : Z
}.

Definition announcement_min : Z := 4.
Definition election_history_size : Z := 2048.

Section elections.
Context `{E0 : Env} `{C0 : NodeConfig} `{O0 : HashOrder}.

(** ** [rai::election] *)

(** [vote_info::operator<]. *)
Definition vote_info_lt (i : vote_info) (v : vote) : bool :=
  (vi_sequence i <? vote_sequence v)
  || ((vi_sequence i =? vote_sequence v) && (vi_hash i <? hash (vote_block v))).

(** [election::election]. *)
Definition election_init (b : block) : election :=
  Election (votes_init not_an_account b) ∅ (ElectionStatus b 0) false.

(** [node::delta], with [stake] what [online_reps::online_stake] returns. *)
Definition delta (stake : Z) : Z := wrap 128 (stake / 100 * online_weight_quorum).

(** [election::have_quorum]: [None] reads an empty tally. *)
Definition have_quorum (stake : Z) (t : list (Z * block)) : option bool :=
  match t with
  | [] => None
  | (first, _) :: t =>
    let second := match t with [] => 0 | (w, _) :: _ => w end in
    Some (wrap 128 (second + delta stake) <? first)
  end.

(** [election::confirm_once]. *)
Definition confirm_once (e : election) : election * list effect :=
  if el_confirmed e then (e, [])
  else (Election (el_votes e) (el_last_votes e) (el_status e) true, [process_confirmed (es_winner (el_status e))]).

(** The sum of the tally. *)
Definition tally_sum (t : list (Z * block)) : Z := fold_left (fun sum e => wrap 128 (sum + fst e)) t 0.

Definition set_status (w : election_status) (e : election) : election :=
  Election (el_votes e) (el_last_votes e) w (el_confirmed e).

(** The greatest block becomes the winner when enough weight has voted. *)
Definition switch_winner (t : list (Z * block)) (b : block) (e : election) : election * list effect :=
  if (online_weight_minimum <=? tally_sum t) && negb (blocks_equal b (es_winner (el_status e)))
  then (set_status (ElectionStatus b (es_tally (el_status e))) e, [force b])
  else (e, []).

(** [election::confirm_if_quorum]. *)
Definition confirm_if_quorum (stake : Z) (e : election) (l : ledger)
    : option (election * ledger * list effect) :=
  let '(t, l) := tally l (el_votes e) in
  '(w, b) ← head t;
  let '(e, forced) := switch_winner t b (set_status (ElectionStatus (es_winner (el_status e)) w) e) in
  q ← have_quorum stake t;
  let '(e, confirmation) := if q : bool then confirm_once e else (e, []) in
  Some (e, l, forced ++ confirmation).

(** The cooldown of a representative, in seconds. *)
Definition cooldown (stake w : Z) : Z :=
  if w <? stake / 100 then 15 else if w <? stake / 20 then 5 else 1.

(** [election::vote] at times [t1] and [t2] of the clock (in seconds); [true] is a replay. *)
Definition election_vote (stake t1 t2 : Z) (v : vote) (e : election) (l : ledger)
    : option (bool * election * ledger * list effect) :=
  _ ← assert (negb (vote_validate v));
  let '(w, l) := weight l (vote_account v) in
  if test_network || (stake / 1000 <? w) then
    let '(should_process, replay) :=
      match el_last_votes e !! vote_account v with
      | None => (true, false)
      | Some last =>
        if vote_info_lt last v then (vi_time last <=? t1 - cooldown stake w, false) else (false, true)
      end in
    if should_process : bool then
      let e := Election (snd (votes_vote v (el_votes e)))
                 (<[vote_account v := VoteInfo t2 (vote_sequence v) (hash (vote_block v))]> (el_last_votes e))
                 (el_status e) (el_confirmed e) in
      '(e, l, fx) ← confirm_if_quorum stake e l;
      Some (replay, e, l, republish_vote v :: fx)
    else Some (replay, e, l, [])
  else Some (false, e, l, []).

(** ** [rai::active_transactions] *)

Definition set_roots (r : gmap Z conflict_info) (a : active_transactions) : active_transactions :=
  ActiveTransactions r (confirmed a).

(** [start]: [true] when there is an election for the root already. *)
Definition start (options : block * option block) (a : active_transactions) : bool * active_transactions :=
  let r := root (fst options) in
  match roots a !! r with
  | Some _ => (true, a)
  | None => (false, set_roots (<[r := ConflictInfo (election_init (fst options)) 0 options]> (roots a)) a)
  end.

(** [active_transactions::vote]. *)
Definition active_vote (stake t1 t2 : Z) (v : vote) (a : active_transactions) (l : ledger)
    : option (bool * active_transactions * ledger * list effect) :=
  let r := root (vote_block v) in
  match roots a !! r with
  | None => Some (false, a, l, [])
  | Some cf =>
    '(replay, e, l, fx) ← election_vote stake t1 t2 v (cf_election cf) l;
    Some (replay,
          set_roots (<[r := ConflictInfo e (cf_announcements cf) (cf_confirm_req_options cf)]> (roots a)) a, l, fx)
  end.

Definition active (b : block) (a : active_transactions) : bool := bool_decide (is_Some (roots a !! root b)).

Definition list_blocks (a : active_transactions) : list block :=
  (fun e => es_winner (el_status (cf_election (snd e)))) <$> map_order (roots a).

(** [active_transactions::erase]. *)
Definition active_erase (b : block) (a : active_transactions) : active_transactions :=
  set_roots (delete (root b) (roots a)) a.

Definition active_stop (a : active_transactions) : active_transactions := set_roots ∅ a.

(** The representatives that have not voted: one that has is replaced by the last of the
    list, which gets shorter. *)
Fixpoint not_voted (fuel : nat) (voted_ : gmap Z block) (reps : list Z) : list Z :=
  match fuel, reps with
  | S fuel, r :: reps =>
    match voted_ !! r with
    | Some _ =>
      match last reps with
      | Some b => not_voted fuel voted_ (b :: removelast reps)
      | None => []
      end
    | None => r :: not_voted fuel voted_ reps
    end
  | _, _ => []
  end.

(** The election is over: its root is gone, or it was confirmed some time ago. *)
Definition finished (s : store) (cf : conflict_info) : bool :=
  negb (root_exists s (votes_id (el_votes (cf_election cf))))
  || (el_confirmed (cf_election cf) && (announcement_min - 1 <=? cf_announcements cf)).

(** One turn of the loop of [announce_votes] over the roots: the history, whether the
    election goes, and the effects. *)
Definition announce_one (s : store) (reps : list Z) (cf : conflict_info) (history : list election_status)
    : list election_status * bool * list effect :=
  let e := cf_election cf in
  if finished s cf then
    let history :=
      if el_confirmed e then
        let history := history ++ [el_status e] in
        if election_history_size <? Z.of_nat (length history) then tail history else history
      else history in
    (history, true, [])
  else
    let requests :=
      if cf_announcements cf mod announcement_min =? 2 then
        match not_voted (length reps) (rep_votes (el_votes e)) reps with
        | [] => []
        | missing =>
          let '(b1, b2) := cf_confirm_req_options cf in
          broadcast_confirm_req b1 missing
          :: match b2 with Some b2 => [broadcast_confirm_req b2 missing] | None => [] end
        end
      else [] in
    (history, false, broadcast_winner (es_winner (el_status e)) :: requests).

Fixpoint announce_loop (s : store) (reps : list Z) (order : list (Z * conflict_info))
    (history : list election_status) : list election_status * list Z * list effect :=
  match order with
  | [] => (history, [], [])
  | (r, cf) :: order =>
    let '(history, gone, fx) := announce_one s reps cf history in
    let '(history, inactive, fx') := announce_loop s reps order history in
    (history, if gone : bool then votes_id (el_votes (cf_election cf)) :: inactive else inactive, fx ++ fx')
  end.

(** The second loop erases the elections that are over; [None] is the failed assertion on
    a root that is not there. *)
Fixpoint erase_roots (inactive : list Z) (t : gmap Z conflict_info) : option (gmap Z conflict_info) :=
  match inactive with
  | [] => Some t
  | r :: inactive => _ ← assert (bool_decide (is_Some (t !! r))); erase_roots inactive (delete r t)
  end.

Definition announced (cf : conflict_info) : conflict_info :=
  ConflictInfo (cf_election cf) (wrap 32 (cf_announcements cf + 1)) (cf_confirm_req_options cf).

(** [announce_votes]. *)
Definition announce_votes (s : store) (reps : list Z) (a : active_transactions)
    : option (active_transactions * list effect) :=
  let '(history, inactive, fx) := announce_loop s reps (map_order (roots a)) (confirmed a) in
  rest ← erase_roots inactive (announced <$> roots a);
  Some (ActiveTransactions rest history, fx).

(** The blocks confirmed by a list of effects. *)
Definition confirmations (fx : list effect) : list block :=
  omap (fun f => match f with process_confirmed b => Some b | _ => None end) fx.

(** ** Invariant *)

(** An election is about one root: its winner and every block voted for have it. *)
Definition election_ok (r : Z) (e : election) : Prop :=
  votes_id (el_votes e) = r /\ root (es_winner (el_status e)) = r
  /\ (forall b, voted (el_votes e) b -> root b = r)
  /\ (exists b, voted (el_votes e) b).

Definition active_ok (a : active_transactions) : Prop :=
  forall r cf, roots a !! r = Some cf -> election_ok r (cf_election cf).

Lemma votes_vote_voted v vs b :
  voted (snd (votes_vote v vs)) b -> b = vote_block v \/ voted vs b.
Proof.
  unfold votes_vote, voted. destruct (rep_votes vs !! vote_account v) as [c|]; [destruct (negb _)|]; cbn; [|auto|];
    intros [a [[_ <-]|[_ H]]%lookup_insert_Some]; eauto.
Qed.

Lemma votes_vote_counts v vs : rep_votes (snd (votes_vote v vs)) !! vote_account v = Some (vote_block v).
Proof.
  unfold votes_vote. destruct (rep_votes vs !! vote_account v) as [c|] eqn:Hc; [|cbn; by rewrite lookup_insert_eq].
  rewrite blocks_equal_decide. case_bool_decide; cbn; [by subst c|by rewrite lookup_insert_eq].
Qed.

Lemma votes_vote_id v vs : votes_id (snd (votes_vote v vs)) = votes_id vs.
Proof. unfold votes_vote. by destruct (rep_votes vs !! vote_account v) as [c|]; [destruct (negb _)|]. Qed.

Lemma votes_init_ok b : election_ok (root b) (election_init b).
Proof.
  unfold election_ok, election_init, voted. cbn. split_and!; [done..| |].
  - by intros b' [a [_ <-]%lookup_singleton_Some].
  - exists b, not_an_account. apply lookup_singleton_eq.
Qed.

Context `{L0 : !HashOrderLaws}.

Lemma switch_winner_ok t b e e' fx :
  switch_winner t b e = (e', fx) ->
  el_votes e' = el_votes e /\ el_last_votes e' = el_last_votes e /\ el_confirmed e' = el_confirmed e
  /\ confirmations fx = []
  /\ (es_winner (el_status e') = es_winner (el_status e)
      \/ (es_winner (el_status e') = b /\ online_weight_minimum <= tally_sum t /\ fx = [force b]))
  /\ (online_weight_minimum <= tally_sum t -> es_winner (el_status e') = b).
Proof.
  unfold switch_winner. rewrite blocks_equal_decide.
  destruct (Z.leb_spec online_weight_minimum (tally_sum t)); cbn [andb];
    [case_bool_decide; cbn [negb]|]; intros [= <- <-]; split_and!; auto; lia.
Qed.

Lemma confirm_once_ok e e' fx :
  confirm_once e = (e', fx) ->
  el_votes e' = el_votes e /\ el_last_votes e' = el_last_votes e /\ el_status e' = el_status e
  /\ el_confirmed e' = true
  /\ fx = if el_confirmed e then [] else [process_confirmed (es_winner (el_status e))].
Proof. unfold confirm_once. by destruct (el_confirmed e) eqn:Hc; intros [= <- <-]. Qed.

(** What [confirm_if_quorum] does: the tally, the new winner and the confirmation. *)
Record tallied (stake : Z) (e e' : election) (t : list (Z * block)) (fx : list effect) : Prop := {
  ta_votes : el_votes e' = el_votes e;
  ta_last : el_last_votes e' = el_last_votes e;
  ta_winner : es_winner (el_status e') = es_winner (el_status e)
    \/ (exists w, head t = Some (w, es_winner (el_status e')))
       /\ voted (el_votes e) (es_winner (el_status e')) /\ online_weight_minimum <= tally_sum t;
  ta_top : online_weight_minimum <= tally_sum t -> exists w, head t = Some (w, es_winner (el_status e'));
  ta_confirmed : el_confirmed e' = el_confirmed e || bool_decide (have_quorum stake t = Some true);
  ta_effects : confirmations fx
    = if bool_decide (have_quorum stake t = Some true) && negb (el_confirmed e)
      then [es_winner (el_status e')] else []
}.

Lemma confirm_if_quorum_ok stake e l b0 :
  voted (el_votes e) b0 ->
  exists e' fx, confirm_if_quorum stake e l = Some (e', snd (tally l (el_votes e)), fx)
    /\ tallied stake e e' (fst (tally l (el_votes e))) fx.
Proof.
  intros Hv. destruct (tally_ok l (el_votes e)) as (_ & H2 & H3). unfold confirm_if_quorum.
  destruct (tally l (el_votes e)) as [t l']. cbn [fst snd] in *.
  destruct t as [|[w b] t]; [by apply H3, not_elem_of_nil in Hv|]. cbn [head mbind option_bind].
  destruct (switch_winner _ b _) as [e1 fx1] eqn:Hs. apply switch_winner_ok in Hs as (S1 & S2 & S3 & S4 & S5 & S6).
  cbn [set_status el_votes el_last_votes el_confirmed el_status es_winner] in *.
  destruct (have_quorum stake ((w, b) :: t)) as [q|] eqn:Hq; [|done]. cbn [mbind option_bind].
  destruct (H2 w b) as [Hb _]; [by left|].
  assert (es_winner (el_status e1) = es_winner (el_status e)
    \/ (exists w', head ((w, b) :: t) = Some (w', es_winner (el_status e1)))
       /\ voted (el_votes e) (es_winner (el_status e1)) /\ online_weight_minimum <= tally_sum ((w, b) :: t)) as Hw.
  { destruct S5 as [?|(-> & ? & _)]; [auto|right]. split_and!; [by exists w|done..]. }
  destruct q.
  - destruct (confirm_once e1) as [e2 fx2] eqn:Hc. apply confirm_once_ok in Hc as (C1 & C2 & C3 & C4 & ->).
    eexists _, _. split; [done|]. rewrite S3. split; rewrite ?C1, ?C2, ?C3, ?C4; try done.
    + intros Hm. exists w. by rewrite S6.
    + by rewrite bool_decide_true, orb_true_r by done.
    + unfold confirmations in *. rewrite omap_app, S4, Hq, bool_decide_true by done. by destruct (el_confirmed e).
  - eexists _, _. split; [done|]. split; try done.
    + intros Hm. exists w. by rewrite S6.
    + by rewrite bool_decide_false, orb_false_r, S3 by congruence.
    + unfold confirmations in *. by rewrite omap_app, S4, bool_decide_false by congruence.
Qed.

(** A vote that is counted. *)
Definition with_vote (t2 : Z) (v : vote) (e : election) : election :=
  Election (snd (votes_vote v (el_votes e)))
    (<[vote_account v := VoteInfo t2 (vote_sequence v) (hash (vote_block v))]> (el_last_votes e))
    (el_status e) (el_confirmed e).

(** The vote is newer than the last one counted for the account. *)
Definition newer (v : vote) (e : election) : Prop :=
  forall i, el_last_votes e !! vote_account v = Some i -> vote_info_lt i v = true.

Lemma weight_store l a : l_store (snd (weight l a)) = l_store l.
Proof.
  unfold weight. destruct (l_check_bootstrap_weights l); [|done].
  destruct (block_counts_sum _ <? _); [|done]. by destruct (l_bootstrap_weights l !! a).
Qed.

Lemma tally_store l vs : l_store (snd (tally l vs)) = l_store l.
Proof.
  unfold tally. assert (forall order t l, l_store (snd (tally_totals order t l)) = l_store l) as H.
  { induction order as [|[a b] order IH]; intros t l0; [done|]. cbn. pose proof (weight_store l0 a) as Hw.
    destruct (weight l0 a) as [w l1]. cbn in Hw. by rewrite IH. }
  specialize (H (map_order (rep_votes vs)) [] l). by destruct (tally_totals _ _ _).
Qed.

(** [election::vote] either counts a newer vote, and then takes the tally, or leaves the
    election as it is. *)
Lemma election_vote_ok stake t1 t2 v e l :
  vote_validate v = false ->
  exists replay e' l' fx, election_vote stake t1 t2 v e l = Some (replay, e', l', fx)
    /\ (replay = true -> ~ newer v e) /\ l_store l' = l_store l
    /\ ((e' = e /\ fx = [])
        \/ exists fx', newer v e /\ fx = republish_vote v :: fx'
             /\ tallied stake (with_vote t2 v e) e'
                  (fst (tally (snd (weight l (vote_account v))) (el_votes (with_vote t2 v e)))) fx').
Proof.
  intros Hv. unfold election_vote. rewrite Hv. cbn [assert negb mbind option_bind].
  pose proof (weight_store l (vote_account v)) as Hst. destruct (weight l (vote_account v)) as [w l1]. cbn [snd] in *.
  destruct (test_network || _); [|eexists _, _, _, _; split; [done|]; split_and!; [done..|]; by left].
  assert (voted (el_votes (with_vote t2 v e)) (vote_block v)) as Hvoted.
  { exists (vote_account v). apply votes_vote_counts. }
  destruct (confirm_if_quorum_ok stake (with_vote t2 v e) l1 (vote_block v) Hvoted) as (e' & fx & Hc & Ht).
  destruct (el_last_votes e !! vote_account v) as [i|] eqn:Hi; [destruct (vote_info_lt i v) eqn:Hlt|].
  - destruct (vi_time i <=? t1 - cooldown stake w).
    + unfold with_vote in Hc at 1. rewrite Hc. cbn [mbind option_bind]. eexists _, _, _, _. split; [done|].
      split_and!; [done|by rewrite tally_store|]. right. exists fx. split_and!; [|done..]. intros i' Hi'. congruence.
    + eexists _, _, _, _; split; [done|]; split_and!; [done..|]; by left.
  - eexists _, _, _, _; split; [done|]. split_and!; [|done|by left]. intros _ Hn. specialize (Hn i Hi). congruence.
  - unfold with_vote in Hc at 1. rewrite Hc. cbn [mbind option_bind]. eexists _, _, _, _. split; [done|].
    split_and!; [done|by rewrite tally_store|]. right. exists fx. split_and!; [|done..]. intros i' Hi'. congruence.
Qed.

Lemma with_vote_ok r t2 v e : election_ok r e -> root (vote_block v) = r -> election_ok r (with_vote t2 v e).
Proof.
  intros (H1 & H2 & H3 & H4) Hr. unfold election_ok, with_vote. cbn. rewrite votes_vote_id. split_and!; [done..| |].
  - intros b [->|Hb]%votes_vote_voted; [done|auto].
  - exists (vote_block v), (vote_account v). apply votes_vote_counts.
Qed.

Lemma tallied_ok r stake e e' t fx : election_ok r e -> tallied stake e e' t fx -> election_ok r e'.
Proof.
  intros (H1 & H2 & H3 & H4) [T1 T2 T3 T6 T4 T5]. unfold election_ok. rewrite T1. split_and!; [done| |done..].
  destruct T3 as [->|(_ & Hv & _)]; auto.
Qed.

Lemma election_vote_keeps r stake t1 t2 v e l :
  vote_validate v = false -> election_ok r e -> root (vote_block v) = r ->
  exists replay e' l' fx, election_vote stake t1 t2 v e l = Some (replay, e', l', fx) /\ election_ok r e'
    /\ l_store l' = l_store l.
Proof.
  intros Hv He Hr. destruct (election_vote_ok stake t1 t2 v e l Hv) as (replay & e' & l' & fx & Hev & _ & Hs & Hc).
  exists replay, e', l', fx. split; [done|]. split; [|done]. destruct Hc as [[-> _]|(fx' & _ & _ & Ht)]; [done|].
  by eapply tallied_ok; [apply with_vote_ok|].
Qed.

Lemma active_vote_ok stake t1 t2 v a l :
  active_ok a -> vote_validate v = false ->
  exists replay a' l' fx, active_vote stake t1 t2 v a l = Some (replay, a', l', fx) /\ active_ok a'
    /\ (forall r, r <> root (vote_block v) -> roots a' !! r = roots a !! r) /\ confirmed a' = confirmed a
    /\ l_store l' = l_store l.
Proof.
  intros Ha Hv. unfold active_vote. destruct (roots a !! root (vote_block v)) as [cf|] eqn:Hcf.
  - destruct (election_vote_keeps _ stake t1 t2 v _ l Hv (Ha _ _ Hcf) eq_refl) as (replay & e' & l' & fx & -> & He' & Hs).
    cbn. eexists _, _, _, _. split; [done|]. split_and!; [|by intros r Hr; cbn; rewrite lookup_insert_ne|done|done].
    intros r cf'. cbn. intros [[<- <-]|[_ Hcf']]%lookup_insert_Some; [done|by apply Ha].
  - eexists _, _, _, _. split; [done|]. by split_and!.
Qed.

(** A valid vote never makes the active elections fail; it changes only the election
    of its root, and every election remains about one root. *)
Theorem active_vote_total stake t1 t2 v a l :
  active_ok a -> vote_validate v = false ->
  exists replay a' l' fx, active_vote stake t1 t2 v a l = Some (replay, a', l', fx) /\ active_ok a'
    /\ (forall r, r <> root (vote_block v) -> roots a' !! r = roots a !! r) /\ confirmed a' = confirmed a
    /\ l_store l' = l_store l.
Proof. apply active_vote_ok. Qed.

(** ** Runs of an election *)

(** A list of votes, each with the stake and the times of its call. *)
Fixpoint election_run (vs : list (Z * Z * Z * vote)) (e : election) (l : ledger)
    : option (election * ledger * list effect) :=
  match vs with
  | [] => Some (e, l, [])
  | (stake, t1, t2, v) :: vs =>
    '(_, e, l, fx) ← election_vote stake t1 t2 v e l;
    '(e, l, fx') ← election_run vs e l;
    Some (e, l, fx ++ fx')
  end.

Lemma run_confirmations vs e l e' l' fx :
  election_run vs e l = Some (e', l', fx) ->
  (length (confirmations fx) + (if el_confirmed e then 1 else 0) = if el_confirmed e' then 1 else 0)%nat.
Proof.
  revert e l fx. induction vs as [|[[[stake t1] t2] v] vs IH]; intros e l fx; cbn.
  { by intros [= <- <- <-]. }
  destruct (vote_validate v) eqn:Hv; [unfold election_vote; by rewrite Hv|].
  destruct (election_vote_ok stake t1 t2 v e l Hv) as (replay & e1 & l1 & fx1 & -> & _ & _ & H1). cbn.
  destruct (election_run vs e1 l1) as [[[e2 l2] fx2]|] eqn:H2; [|done]. cbn. intros [= <- <- <-].
  specialize (IH _ _ _ H2). unfold confirmations in *. rewrite omap_app, length_app.
  destruct H1 as [[-> ->]|(fx1' & _ & -> & [T1 T2 T3 T6 T4 T5])]; [done|]. unfold confirmations in T5. cbn in *.
  rewrite T5. rewrite T4 in IH. cbn in IH. destruct (bool_decide _), (el_confirmed e); cbn in *; lia.
Qed.

(** An election confirms a block at most once, and is confirmed from then on. *)
Theorem confirmed_once vs b l e' l' fx :
  election_run vs (election_init b) l = Some (e', l', fx) ->
  (length (confirmations fx) <= 1)%nat /\ (el_confirmed e' = true <-> confirmations fx <> []).
Proof.
  intros H%run_confirmations. cbn in H. destruct (confirmations fx), (el_confirmed e'); cbn in H; try lia; (split; [cbn; lia|done]).
Qed.

(** The last vote counted for an account, as a pair of sequence number and hash. *)
Definition last_before (i j : vote_info) : Prop :=
  vi_sequence i < vi_sequence j \/ (vi_sequence i = vi_sequence j /\ vi_hash i <= vi_hash j).

(** Votes are counted in order: a vote that is not newer than the last one counted for
    its account changes nothing and passes nothing on, and the last vote of an account
    only moves forward. *)
Theorem votes_in_order stake t1 t2 v e l replay e' l' fx :
  election_vote stake t1 t2 v e l = Some (replay, e', l', fx) ->
  (~ newer v e -> e' = e /\ fx = [])
  /\ (forall a i, el_last_votes e !! a = Some i -> exists j, el_last_votes e' !! a = Some j /\ last_before i j).
Proof.
  destruct (vote_validate v) eqn:Hv; [unfold election_vote; by rewrite Hv|].
  destruct (election_vote_ok stake t1 t2 v e l Hv) as (? & ? & ? & ? & -> & _ & _ & H1). intros [= -> -> -> ->].
  assert (forall i, last_before i i) as Hrefl by (intros i; right; lia).
  destruct H1 as [[-> ->]|(fx' & Hn & -> & [T1 T2 T3 T6 T4 T5])]; [split; eauto|]. split; [done|].
  intros a i Hi. rewrite T2. cbn. destruct (decide (vote_account v = a)) as [<-|Hne].
  - rewrite lookup_insert_eq. eexists. split; [done|]. specialize (Hn i Hi). unfold vote_info_lt in Hn.
    apply orb_true_iff in Hn as [?%Z.ltb_lt|[?%Z.eqb_eq ?%Z.ltb_lt]%andb_true_iff]; [by left|right]. cbn. lia.
  - rewrite lookup_insert_ne by done. eauto.
Qed.

(** C18. A block is confirmed only when the greatest total exceeds the next one by more
    than [delta]. It is the block with the greatest total provided that the voting weight
    reaches [online_weight_minimum]. *)
Theorem confirmation_needs_quorum stake t1 t2 v e l replay e' l' fx c :
  election_vote stake t1 t2 v e l = Some (replay, e', l', fx) -> c ∈ confirmations fx ->
  exists w b t, fst (tally (snd (weight l (vote_account v))) (el_votes e')) = (w, b) :: t
    /\ wrap 128 (match t with [] => 0 | (w2, _) :: _ => w2 end + delta stake) < w
    /\ (online_weight_minimum <= tally_sum ((w, b) :: t) -> c = b).
Proof.
  destruct (vote_validate v) eqn:Hv; [unfold election_vote; by rewrite Hv|].
  destruct (election_vote_ok stake t1 t2 v e l Hv) as (? & ? & ? & ? & -> & _ & _ & H1). intros [= -> -> -> ->] Hc.
  destruct H1 as [[-> ->]|(fx' & Hn & -> & [T1 T2 T3 T6 T4 T5])]; [by apply not_elem_of_nil in Hc|].
  unfold confirmations in *. cbn in Hc. rewrite T5 in Hc. rewrite T1.
  destruct (fst (tally _ _)) as [|[w b] t]; [by apply not_elem_of_nil in Hc|]. exists w, b, t. split; [done|].
  case_bool_decide as Hq; [|by apply not_elem_of_nil in Hc]. injection Hq as Hq%Z.ltb_lt. split; [done|].
  cbn [andb] in Hc. intros Hm. destruct (negb _); [|by apply not_elem_of_nil in Hc].
  apply list_elem_of_singleton in Hc as ->.
  by destruct (T6 Hm) as [w' [= _ ->]].
Qed.

(** ** Announcements *)

Lemma removelast_last_perm (l : list Z) b : last l = Some b -> l ≡ₚ b :: removelast l.
Proof.
  intros [l' ->]%last_Some. rewrite removelast_last. by rewrite Permutation_app_comm.
Qed.

(** The representatives asked again are those that have not voted, in some order. *)
Theorem not_voted_filter m reps :
  not_voted (length reps) m reps ≡ₚ filter (fun r => m !! r = None) reps.
Proof.
  enough (forall fuel reps, (length reps <= fuel)%nat ->
    not_voted fuel m reps ≡ₚ filter (fun r => m !! r = None) reps) as Hall by by apply Hall.
  clear reps. induction fuel as [|fuel IH]; intros [|r reps]; cbn [not_voted length]; try done; [lia|].
  intros Hl. rewrite filter_cons. destruct (m !! r) as [b|] eqn:Hr.
  - rewrite decide_False by done. destruct (last reps) as [b'|] eqn:Hlast.
    + pose proof (removelast_last_perm _ _ Hlast) as Hp. rewrite IH, <- Hp; [done|].
      rewrite Hp in Hl. cbn in *. lia.
    + by apply last_None in Hlast as ->.
  - rewrite decide_True by done. by rewrite IH by lia.
Qed.

Lemma announce_loop_ok s reps order history :
  (Z.of_nat (length history) <= election_history_size) ->
  let '(history', inactive, fx) := announce_loop s reps order history in
  inactive = (fun e => votes_id (el_votes (cf_election (snd e)))) <$> filter (fun e => finished s (snd e) = true) order
  /\ Z.of_nat (length history') <= election_history_size.
Proof.
  revert history. induction order as [|[r cf] order IH]; intros history Hh; cbn [announce_loop]; [done|].
  destruct (announce_one s reps cf history) as [[h1 gone] fx1] eqn:H1.
  assert (gone = finished s cf /\ Z.of_nat (length h1) <= election_history_size) as [-> Hh1].
  { unfold announce_one in H1. destruct (finished s cf); injection H1 as <- <- _; [|done]. split; [done|].
    destruct (el_confirmed _); [|done]. destruct (Z.ltb_spec election_history_size
      (Z.of_nat (length (history ++ [el_status (cf_election cf)])))); [|done].
    rewrite length_app in *. cbn in *. destruct history; cbn in *; [done|]. rewrite length_app. cbn. lia. }
  specialize (IH h1 Hh1). destruct (announce_loop s reps order h1) as [[h2 inactive] fx2]. destruct IH as [-> Hh2].
  split; [|done]. rewrite filter_cons. cbn [snd]. by destruct (finished s cf).
Qed.

Lemma erase_roots_ok inactive t :
  NoDup inactive -> (forall r, r ∈ inactive -> is_Some (t !! r)) ->
  exists t', erase_roots inactive t = Some t'
    /\ forall r, t' !! r = if decide (r ∈ inactive) then None else t !! r.
Proof.
  revert t. induction inactive as [|r inactive IH]; intros t Hn Hin; cbn.
  { exists t. split; [done|]. intros r. by rewrite decide_False by apply not_elem_of_nil. }
  apply NoDup_cons in Hn as [Hr Hn]. rewrite bool_decide_true by (apply Hin; by left). cbn.
  destruct (IH (delete r t)) as (t' & -> & Ht'); [done| |].
  { intros r' Hr'. rewrite lookup_delete_ne by (by intros ->). apply Hin. by right. }
  exists t'. split; [done|]. intros k. rewrite Ht'. destruct (decide (k = r)) as [->|Hne].
  - rewrite lookup_delete_eq, (decide_True (P := r ∈ r :: inactive)) by by left. by case_decide.
  - rewrite lookup_delete_ne by done. destruct (decide (k ∈ inactive)).
    + by rewrite decide_True by by right.
    + rewrite decide_False; [done|]. by intros [|]%elem_of_cons.
Qed.

(** [announce_votes] never fails its assertion. It erases exactly the elections that
    are over, counts an announcement for the others, and keeps a bounded history. *)
Theorem announce_votes_spec s reps a :
  active_ok a -> Z.of_nat (length (confirmed a)) <= election_history_size ->
  exists a' fx, announce_votes s reps a = Some (a', fx) /\ active_ok a'
    /\ (forall r, roots a' !! r
          = cf ← roots a !! r; if finished s cf then None else Some (announced cf))
    /\ Z.of_nat (length (confirmed a')) <= election_history_size.
Proof.
  intros Ha Hh. unfold announce_votes. pose proof (announce_loop_ok s reps (map_order (roots a)) _ Hh) as Hl.
  destruct (announce_loop s reps (map_order (roots a)) (confirmed a)) as [[history inactive] fx]. destruct Hl as [-> Hh'].
  set (order := map_order (roots a)). pose proof (map_order_perm (roots a)) as Hp. fold order in Hp.
  set (inactive := (fun e => votes_id (el_votes (cf_election (snd e)))) <$> filter (fun e => finished s (snd e) = true) order).
  assert (inactive = (filter (fun e => finished s (snd e) = true) order).*1) as Hi.
  { apply list_fmap_ext. intros i [r cf] [Hf Hin]%list_elem_of_lookup_2%list_elem_of_filter.
    rewrite Hp in Hin. apply elem_of_map_to_list in Hin. by destruct (Ha _ _ Hin). }
  assert (forall r, r ∈ inactive <-> exists cf, roots a !! r = Some cf /\ finished s cf = true) as Hin.
  { intros r. rewrite Hi, list_elem_of_fmap. setoid_rewrite list_elem_of_filter. setoid_rewrite Hp. split.
    - intros ([r' cf] & -> & Hf & Hin%elem_of_map_to_list). eauto.
    - intros (cf & Hcf & Hf). exists (r, cf). by rewrite elem_of_map_to_list. }
  destruct (erase_roots_ok inactive (announced <$> roots a)) as (t' & -> & Ht').
  { rewrite Hi. eapply sublist_NoDup; [|apply fmap_sublist, sublist_filter]. rewrite Hp. apply NoDup_fst_map_to_list. }
  { intros r (cf & Hcf & _)%Hin. rewrite lookup_fmap, Hcf. eauto. }
  assert (forall r, t' !! r = cf ← roots a !! r; if finished s cf then None else Some (announced cf)) as Hroots.
  { intros r. rewrite Ht', lookup_fmap. destruct (roots a !! r) as [cf|] eqn:Hcf; [|by case_decide]. cbn.
    destruct (finished s cf) eqn:Hf.
    - rewrite decide_True; [done|]. apply Hin. eauto.
    - rewrite decide_False; [done|]. intros (cf' & Hcf' & Hf')%Hin. congruence. }
  cbn. eexists _, _. split; [done|]. split_and!; [|done..]. intros r cf' Hcf'. cbn in Hcf'. rewrite Hroots in Hcf'.
  apply bind_Some in Hcf' as (cf & Hcf & E). destruct (finished s cf); [done|]. injection E as <-. by apply (Ha r cf).
Qed.
End elections.

(** ** Quorum in a consistent ledger *)

Section quorum.
Context `{E0 : Env} `{C0 : NodeConfig} `{O0 : HashOrder} `{L0 : !HashOrderLaws} `{T0 : Traffic} `{TL : !TrafficLaws}.
Context (genesis_nonzero : genesis_account <> 0) (genesis_admitted : admitted genesis_block).

(** The entries of a tally, with the exact totals. *)
Lemma tally_support l vs :
  reachable l -> bootstrapped l ->
  let m := fst (tally l vs) in
  descending m
  /\ (forall w b, (w, b) ∈ m -> voted vs b /\ w = support (l_store l) vs b)
  /\ (forall b, voted vs b -> support (l_store l) vs b ∈ m.*1).
Proof.
  intros Hl Hb. destruct (tally_ok l vs) as (H1 & H2 & H3).
  assert (forall b, wrap 128 (total l vs b) = support (l_store l) vs b) as Hw.
  { intros b. pose proof (total_range genesis_nonzero genesis_admitted l vs b Hl Hb) as Hr.
    rewrite wrap_small; [by apply total_exact|]. unfold genesis_amount in Hr. unfold in_width. lia. }
  setoid_rewrite Hw in H2. setoid_rewrite Hw in H3. done.
Qed.

Lemma support_range l vs b : reachable l -> bootstrapped l -> 0 <= support (l_store l) vs b <= genesis_amount.
Proof. intros Hl Hb. unfold support. rewrite <- total_exact by done. by apply total_range. Qed.

(** With at most half of the stake as quorum, the threshold does not wrap around. *)
Lemma threshold_exact l vs stake w b w2 b2 m :
  reachable l -> bootstrapped l -> 0 <= stake < 2 ^ 128 -> 0 <= online_weight_quorum <= 50 ->
  fst (tally l vs) = (w, b) :: (w2, b2) :: m ->
  w2 < w /\ wrap 128 (w2 + delta stake) = w2 + stake / 100 * online_weight_quorum.
Proof.
  intros Hl Hb Hs Hq Ht. destruct (tally_support l vs Hl Hb) as (H1 & H2 & _). rewrite Ht in *.
  destruct (H2 w b) as [_ Hw]; [by left|]. destruct (H2 w2 b2) as [_ Hw2]; [by right; left|].
  apply StronglySorted_inv in H1 as [_ Hf]. rewrite Forall_cons in Hf. destruct Hf as [Hlt _]. cbn in Hlt.
  assert (b <> b2) as Hne by (intros ->; lia).
  pose proof (totals_bound genesis_nonzero genesis_admitted l vs b b2 Hl Hb Hne) as Hsum.
  pose proof (support_range l vs b2 Hl Hb) as Hr. unfold support in *. rewrite !total_exact in Hsum by done.
  rewrite <- Hw, <- Hw2 in *. unfold genesis_amount in *.
  assert (0 <= stake / 100 * online_weight_quorum <= 2 ^ 127 - 1) as Hd.
  { pose proof (Z.div_pos stake 100). pose proof (Z.mul_div_le stake 100). nia. }
  split; [done|]. unfold delta. rewrite wrap_add_r. apply wrap_small. unfold in_width. lia.
Qed.

(** Once the ledger is bootstrapped, and with a quorum of at most half of the online
    stake, there is a quorum exactly when some block has more support than the quorum,
    and more than any block with another support by that margin. *)
Theorem quorum_exact l vs stake :
  reachable l -> bootstrapped l -> 0 <= stake < 2 ^ 128 -> 0 <= online_weight_quorum <= 50 ->
  have_quorum stake (fst (tally l vs)) = Some true <->
  exists b, voted vs b /\ stake / 100 * online_weight_quorum < support (l_store l) vs b
    /\ forall b', voted vs b' -> support (l_store l) vs b' <> support (l_store l) vs b ->
         support (l_store l) vs b' + stake / 100 * online_weight_quorum < support (l_store l) vs b.
Proof.
  intros Hl Hb Hs Hq. destruct (tally_support l vs Hl Hb) as (H1 & H2 & H3).
  pose proof (threshold_exact l vs stake) as Hth.
  assert (0 <= stake / 100 * online_weight_quorum <= 2 ^ 127) as Hd.
  { pose proof (Z.div_pos stake 100). pose proof (Z.mul_div_le stake 100). nia. }
  destruct (fst (tally l vs)) as [|[w b] m] eqn:Ht.
  { split; [done|]. intros (b & Hv & _). by apply H3, not_elem_of_nil in Hv. }
  destruct (H2 w b) as [Hv Hw]; [by left|]. cbn [have_quorum].
  assert (forall b', voted vs b' -> support (l_store l) vs b' <= w) as Hmax by (intros b' Hb'%H3; by eapply descending_head).
  destruct m as [|[w2 b2] m].
  - rewrite Z.add_0_l. unfold delta. rewrite wrap_wrap, wrap_small by (unfold in_width; lia). split.
    + intros [= ?%Z.ltb_lt]. exists b. split_and!; [done|lia|]. intros b' Hb'%H3 Hne.
      apply list_elem_of_singleton in Hb'. cbn in Hb'. lia.
    + intros (b' & Hb' & Hlt & _). f_equal. apply Z.ltb_lt. specialize (Hmax _ Hb'). lia.
  - destruct (Hth w b w2 b2 m) as [Hlt ->]; [done..|]. split.
    + intros [= ?%Z.ltb_lt]. pose proof (support_range l vs b2 Hl Hb). destruct (H2 w2 b2) as [_ Hw2]; [by right; left|].
      exists b. split_and!; [done|lia|]. intros b' Hb'%H3 Hne. apply elem_of_cons in Hb' as [E|Hb']; [cbn in E; lia|].
      apply StronglySorted_inv in H1 as [H1 _]. pose proof (descending_head _ _ _ _ H1 Hb'). lia.
    + intros (b' & Hb' & Hlt' & Hall). f_equal. apply Z.ltb_lt. specialize (Hmax _ Hb').
      destruct (H2 w2 b2) as [Hv2 Hw2]; [by right; left|].
      destruct (Z.eq_dec (support (l_store l) vs b') w) as [E|E].
      * rewrite <- E, Hw2. apply Hall; [done|lia].
      * specialize (Hall b Hv). lia.
Qed.
End quorum.
