(* ===== verification/OnlineReps.v ===== *)
(** * OnlineReps: the representatives heard of lately and their stake

    [rai::online_reps] and [gap_cache::bootstrap_threshold] (node/node.cpp). The container of
    representatives is kept in the order of the times they were last heard; an account
    occurs once. The total stake is adjusted at every vote instead of being summed up. *)

From stdpp Require Import base list option tactics gmap sorting.
From Stdlib Require Import ZArith Lia.
From S2P Require Import Prelude Blocks Common Stats Store Tables Visitors Ledger Chain LedgerInv.
From S2P Require Import Genesis Runs Votes Elections.
#[local] Open Scope Z_scope.

(** ** Data *)

Record rep_last_heard_info := RepInfo {
  last_heard : Z;
  representative_ : Z
}.

Record online_reps := OnlineReps {
  or_reps : list rep_last_heard_info;
  online_stake_total : Z
}.

(** [node::cutoff], in seconds. *)
Definition cutoff : Z := 60 * 5.

(** [online_reps::online_reps]. *)
Definition online_init : online_reps := OnlineReps [] 0.

(** ** Operations *)

(** Insertion in the order of time, after equal times. *)
Fixpoint heard_insert (i : rep_last_heard_info) (r : list rep_last_heard_info) : list rep_last_heard_info :=
  match r with
  | [] => [i]
  | j :: r => if last_heard i <? last_heard j then i :: j :: r else j :: heard_insert i r
  end.

(** The loop over the representatives that have not been heard of for some time. *)
Fixpoint online_expire (now : Z) (r : list rep_last_heard_info) (stake : Z) (l : ledger)
    : list rep_last_heard_info * Z * ledger :=
  match r with
  | [] => ([], stake, l)
  | i :: r' =>
    if last_heard i + cutoff <? now then
      let '(w, l) := weight l (representative_ i) in
      let reduced := wrap 128 (stake - w) in
      online_expire now r' (if stake <? reduced then 0 else reduced) l
    else (r, stake, l)
  end.

(** [online_reps::vote]. *)
Definition online_vote (now : Z) (v : vote) (o : online_reps) (l : ledger) : online_reps * ledger :=
  let rep := vote_account v in
  let '(r, stake, l) := online_expire now (or_reps o) (online_stake_total o) l in
  if existsb (fun i => representative_ i =? rep) r then
    (OnlineReps (heard_insert (RepInfo now rep) (filter (fun i => representative_ i <> rep) r)) stake, l)
  else
    let '(w, l) := weight l rep in
    let increased := wrap 128 (stake + w) in
    (OnlineReps (heard_insert (RepInfo now rep) r) (if increased <? stake then 2 ^ 128 - 1 else increased), l).

(** The loop of [recalculate_stake]. *)
Fixpoint stake_sum (r : list rep_last_heard_info) (stake : Z) (l : ledger) : Z * ledger :=
  match r with
  | [] => (stake, l)
  | i :: r => let '(w, l) := weight l (representative_ i) in stake_sum r (wrap 128 (stake + w)) l
  end.

Definition recalculate_stake (o : online_reps) (l : ledger) : online_reps * ledger :=
  let '(stake, l) := stake_sum (or_reps o) 0 l in (OnlineReps (or_reps o) stake, l).

(** [online_stake] and [list]. *)
Definition online_stake `{NodeConfig} (o : online_reps) : Z := Z.max (online_stake_total o) online_weight_minimum.
Definition online_list (o : online_reps) : list Z := representative_ <$> or_reps o.

(** [gap_cache::bootstrap_threshold]. *)
Definition bootstrap_threshold (bootstrap_fraction_numerator stake : Z) : Z :=
  wrap 128 (stake / 256 * bootstrap_fraction_numerator).

(** ** Specification *)

(** The weights of the representatives of a list. *)
Definition weights (l : ledger) (r : list rep_last_heard_info) : Z :=
  foldr (fun i sum => fst (weight l (representative_ i)) + sum) 0 r.

(** Each account once, in the order of time, nobody heard of in the future, and the total is
    the sum of the weights. *)
Record online_ok (now : Z) (l : ledger) (o : online_reps) : Prop := {
  oo_distinct : NoDup (representative_ <$> or_reps o);
  oo_sorted : StronglySorted (fun i j => last_heard i <= last_heard j) (or_reps o);
  oo_past : Forall (fun i => last_heard i <= now) (or_reps o);
  oo_stake : online_stake_total o = weights l (or_reps o)
}.

(** ** Lemmas *)

Lemma heard_insert_last i r : Forall (fun j => last_heard j <= last_heard i) r -> heard_insert i r = r ++ [i].
Proof.
  induction 1 as [|j r Hj Hr IH]; [done|]. cbn. destruct (Z.ltb_spec (last_heard i) (last_heard j)); [lia|]. by rewrite IH.
Qed.

Lemma weights_app l r r' : weights l (r ++ r') = weights l r + weights l r'.
Proof. induction r as [|i r IH]; [done|]. cbn. fold (weights l (r ++ r')) (weights l r). lia. Qed.

Lemma weights_perm l r r' : r ≡ₚ r' -> weights l r = weights l r'.
Proof. unfold weights. induction 1; cbn; lia. Qed.

Lemma weights_stable l a r : weights (snd (weight l a)) r = weights l r.
Proof. unfold weights. induction r as [|i r IH]; [done|]. cbn. by rewrite weight_stable, IH. Qed.

(** In an ordered list the expired entries are the first ones. *)
Lemma expired_prefix now r i :
  (last_heard i + cutoff <? now) = false ->
  Forall (fun j => last_heard i <= last_heard j) r ->
  filter (fun i => (last_heard i + cutoff <? now) = false) r = r.
Proof.
  intros Hi Hr. induction Hr as [|j r Hj Hr IH]; [done|]. rewrite filter_cons.
  apply Z.ltb_ge in Hi. rewrite decide_True by (apply Z.ltb_ge; lia). by rewrite IH.
Qed.

Lemma StronglySorted_filter {A} (R : A -> A -> Prop) (P : A -> Prop) `{!forall x, Decision (P x)} l :
  StronglySorted R l -> StronglySorted R (filter P l).
Proof.
  induction 1 as [|x l Hl IH Hx]; [constructor|]. rewrite filter_cons. case_decide; [|done].
  constructor; [done|]. apply Forall_forall. intros y [_ Hy]%list_elem_of_filter. rewrite Forall_forall in Hx. auto.
Qed.

(** The entry of one account among distinct ones. *)
Lemma filter_other rep (r : list rep_last_heard_info) : rep ∉ (representative_ <$> r) -> filter (fun i => representative_ i <> rep) r = r.
Proof.
  induction r as [|i r IH]; [done|]. rewrite fmap_cons, not_elem_of_cons, filter_cons. intros [Hi Hr].
  rewrite decide_True by done. by rewrite IH.
Qed.

Lemma weights_split l rep r :
  NoDup (representative_ <$> r) -> rep ∈ (representative_ <$> r) ->
  weights l r = weights l (filter (fun i => representative_ i <> rep) r) + fst (weight l rep).
Proof.
  induction r as [|i r IH]; [by intros _ ?%not_elem_of_nil|]. rewrite fmap_cons, NoDup_cons, elem_of_cons, filter_cons.
  intros [Hi Hn] [->|Hr].
  - rewrite decide_False by (intros E; by apply E). rewrite filter_other by done. cbn. fold (weights l r). lia.
  - rewrite decide_True by (by intros <-). cbn. fold (weights l r) (weights l (filter (fun i => representative_ i <> rep) r)).
    rewrite IH by done. lia.
Qed.

Section bounded.
(** What [weight] returns to a voter, and all voters together. *)
Context (l : ledger).
Context (weight_nonneg : forall a, 0 <= fst (weight l a)).
Context (weights_bound : forall r, NoDup (representative_ <$> r) -> weights l r < 2 ^ 128).

Lemma weights_nonneg r : 0 <= weights l r.
Proof. induction r as [|i r IH]; [done|]. cbn. specialize (weight_nonneg (representative_ i)). fold (weights l r). lia. Qed.

(** A ledger that gives the same weights. *)
Definition same_weights (l' : ledger) : Prop := forall a, fst (weight l' a) = fst (weight l a).

Lemma same_weights_next l' a : same_weights l' -> same_weights (snd (weight l' a)).
Proof. intros H b. by rewrite weight_stable. Qed.

Lemma online_expire_ok now r stake l' :
  NoDup (representative_ <$> r) -> StronglySorted (fun i j => last_heard i <= last_heard j) r ->
  same_weights l' -> stake = weights l r ->
  exists l'', online_expire now r stake l'
    = (filter (fun i => (last_heard i + cutoff <? now) = false) r,
       weights l (filter (fun i => (last_heard i + cutoff <? now) = false) r), l'') /\ same_weights l''.
Proof.
  revert stake l'. induction r as [|i r IH]; intros stake l' Hn Hs Hw ->; [by exists l'|].
  rewrite fmap_cons in Hn. pose proof (weights_bound (i :: r) Hn) as Hb.
  apply NoDup_cons in Hn as [Hi Hn]. apply StronglySorted_inv in Hs as [Hs Hf]. cbn [online_expire].
  rewrite filter_cons. destruct (last_heard i + cutoff <? now) eqn:Hc.
  - rewrite decide_False by done. pose proof (Hw (representative_ i)) as Hwi. pose proof (same_weights_next _ (representative_ i) Hw) as Hn'.
    destruct (weight l' (representative_ i)) as [w l1]. cbn [fst snd] in *. subst w.
    cbn in Hb |- *. fold (weights l r) in Hb |- *. pose proof (weights_nonneg r). pose proof (weight_nonneg (representative_ i)).
    replace (fst (weight l (representative_ i)) + weights l r - fst (weight l (representative_ i))) with (weights l r) by lia.
    rewrite wrap_small by (unfold in_width; lia).
    destruct (Z.ltb_spec (fst (weight l (representative_ i)) + weights l r) (weights l r)); [lia|]. by apply IH.
  - rewrite decide_True by done. exists l'. split; [|done].
    rewrite (expired_prefix now r i Hc Hf). done.
Qed.

Lemma stake_sum_ok r stake l' :
  same_weights l' -> 0 <= stake -> stake + weights l r < 2 ^ 128 ->
  fst (stake_sum r stake l') = stake + weights l r.
Proof.
  revert stake l'. induction r as [|i r IH]; intros stake l' Hw H0 Hb; cbn; [lia|].
  pose proof (Hw (representative_ i)) as Hwi. pose proof (same_weights_next _ (representative_ i) Hw) as Hn'.
  destruct (weight l' (representative_ i)) as [w l1]. cbn [fst snd] in *. subst w. cbn in Hb. fold (weights l r) in Hb |- *.
  pose proof (weights_nonneg r). pose proof (weight_nonneg (representative_ i)).
  rewrite wrap_small by (unfold in_width; lia). rewrite IH; [lia|done|lia|lia].
Qed.
End bounded.

(** ** In a consistent ledger *)

Section exact.
Context `{E0 : Env} `{T0 : Traffic} `{L0 : !TrafficLaws}.
Context (genesis_nonzero : genesis_account <> 0) (genesis_admitted : admitted genesis_block).

Lemma weights_supply l r : reachable l -> bootstrapped l -> NoDup (representative_ <$> r) ->
  weights l r <= genesis_amount.
Proof.
  intros [G [HI _]]%reachable_consistent Hb Hn; [|done..].
  rewrite <- (voters_weight _ _ _ _ (list_to_map ((fun i => (representative_ i, tt)) <$> r)) HI). apply Z.eq_le_incl.
  induction r as [|i r IH]; [done|]. rewrite !fmap_cons in *. apply NoDup_cons in Hn as [Hi Hn]. cbn [list_to_map foldr].
  rewrite map_sum_insert.
  - cbn [weights foldr]. fold (weights l r). rewrite IH by done.
    by rewrite bootstrapped_weight, (weight_exact _ _ _ HI).
  - apply not_elem_of_list_to_map_1. by rewrite <- list_fmap_compose.
Qed.

Lemma weight_pos l a : reachable l -> bootstrapped l -> 0 <= fst (weight l a).
Proof.
  intros [G [HI _]]%reachable_consistent Hb; [|done..]. rewrite bootstrapped_weight, (weight_exact _ _ _ HI) by done.
  by eapply weight_of_range.
Qed.

(** The entries after a vote: those heard of lately, with the voter moved to the end. *)
Definition heard_after (now : Z) (rep : Z) (r : list rep_last_heard_info) : list rep_last_heard_info :=
  filter (fun i => representative_ i <> rep /\ (last_heard i + cutoff <? now) = false) r ++ [RepInfo now rep].

Lemma heard_after_ok now t rep r :
  NoDup (representative_ <$> r) -> StronglySorted (fun i j => last_heard i <= last_heard j) r ->
  Forall (fun i => last_heard i <= t) r -> t <= now ->
  NoDup (representative_ <$> heard_after now rep r)
  /\ StronglySorted (fun i j => last_heard i <= last_heard j) (heard_after now rep r)
  /\ Forall (fun i => last_heard i <= now) (heard_after now rep r).
Proof.
  intros Hn Hs Hp Ht. unfold heard_after. set (r' := filter _ r).
  assert (Forall (fun i => last_heard i <= now) r') as Hp'.
  { apply Forall_forall. intros i [_ Hi]%list_elem_of_filter. rewrite Forall_forall in Hp. specialize (Hp _ Hi). cbn in *. lia. }
  split_and!.
  - rewrite fmap_app, Permutation_app_comm. cbn. apply NoDup_cons. split.
    + intros (i & -> & [[Hne _] _]%list_elem_of_filter)%list_elem_of_fmap. done.
    + eapply sublist_NoDup; [done|apply fmap_sublist, sublist_filter].
  - apply StronglySorted_app_2; [| |by repeat constructor].
    + intros i j Hi ->%list_elem_of_singleton. rewrite Forall_forall in Hp'. by apply Hp'.
    + by apply StronglySorted_filter.
  - apply Forall_app. split; [done|]. by apply Forall_singleton.
Qed.

(** The stake adjusted at every vote is exact: after a vote the list holds the
    representatives heard of within the cutoff, each once, with the voter last, and the
    total is the sum of their weights. *)
Theorem online_vote_exact t now v o l :
  reachable l -> bootstrapped l -> online_ok t l o -> t <= now ->
  or_reps (fst (online_vote now v o l)) = heard_after now (vote_account v) (or_reps o)
  /\ online_ok now l (fst (online_vote now v o l)).
Proof.
  intros Hl Hb [O1 O2 O3 O4] Ht.
  assert (forall r, NoDup (representative_ <$> r) -> weights l r < 2 ^ 128) as Hbound.
  { intros r Hn. pose proof (weights_supply l r Hl Hb Hn) as Hs. unfold genesis_amount in Hs. lia. }
  assert (forall a, 0 <= fst (weight l a)) as Hpos by (intros; by apply weight_pos).
  destruct (heard_after_ok now t (vote_account v) _ O1 O2 O3 Ht) as (N1 & N2 & N3).
  destruct (online_expire_ok l Hpos Hbound now _ _ l O1 O2 (fun _ => eq_refl) O4) as (l1 & He & Hw).
  unfold online_vote. rewrite He. clear He. unfold heard_after in *.
  rewrite <- (list_filter_filter (fun i => representative_ i <> vote_account v)) in *.
  set (r := filter (fun i => (last_heard i + cutoff <? now) = false) (or_reps o)) in *.
  set (r' := filter (fun i => representative_ i <> vote_account v) r) in *.
  assert (NoDup (representative_ <$> r)) as Hr by (eapply sublist_NoDup; [exact O1|apply fmap_sublist, sublist_filter]).
  assert (heard_insert (RepInfo now (vote_account v)) r' = r' ++ [RepInfo now (vote_account v)]) as Hins
    by (apply heard_insert_last; by apply Forall_app in N3 as [N3 _]).
  destruct (existsb _ r) eqn:Hex.
  - assert (vote_account v ∈ (representative_ <$> r)) as Hin.
    { apply existsb_exists in Hex as (i & Hi & <-%Z.eqb_eq). apply list_elem_of_fmap_2, list_elem_of_In, Hi. }
    cbn [fst]. rewrite Hins. split; [done|]. split; cbn [or_reps online_stake_total]; [done..|].
    rewrite weights_app. cbn. by rewrite (weights_split l (vote_account v) r), Z.add_0_r.
  - assert (vote_account v ∉ (representative_ <$> r)) as Hin.
    { intros (i & Ei & Hi)%list_elem_of_fmap. apply not_true_iff_false in Hex. apply Hex, existsb_exists.
      exists i. rewrite <- list_elem_of_In, Z.eqb_eq. done. }
    unfold r' in *. rewrite filter_other in * by done.
    pose proof (Hw (vote_account v)) as Hwv. destruct (weight l1 (vote_account v)) as [w l2]. cbn [fst] in Hwv. subst w.
    cbn [fst or_reps online_stake_total]. rewrite Hins. split; [done|]. split; cbn [or_reps online_stake_total]; [done..|].
    pose proof (Hbound _ N1) as Hb1. rewrite weights_app in *. cbn in Hb1 |- *. rewrite Z.add_0_r in *.
    pose proof (weights_nonneg l Hpos r). pose proof (Hpos (vote_account v)).
    rewrite wrap_small by (unfold in_width; lia). destruct (Z.ltb_spec (weights l r + fst (weight l (vote_account v))) (weights l r)); lia.
Qed.

(** [recalculate_stake] makes the total exact again after the weights have changed. *)
Lemma recalculate_exact now l0 o l :
  reachable l -> bootstrapped l -> online_ok now l0 o -> online_ok now l (fst (recalculate_stake o l)).
Proof.
  intros Hl Hb [O1 O2 O3 _]. pose proof (stake_sum_ok l (fun a => weight_pos l a Hl Hb) (or_reps o) 0 l) as Hs.
  pose proof (weights_supply l _ Hl Hb O1) as Hw. unfold genesis_amount in Hw. unfold recalculate_stake.
  destruct (stake_sum (or_reps o) 0 l) as [stake l']. cbn in *. split; cbn; [done..|]. apply Hs; [done|lia|lia].
Qed.
End exact.
