(* ===== verification/Caches.v ===== *)
(** * Caches: votes and unchecked blocks, in memory and in the database

    [block_store::vote_*], [unchecked_*] and [flush] (blockstore.cpp). Both tables have
    a cache in memory, [vote_cache] and [unchecked_cache], that [flush] writes out. The
    database holds bytes; the [unchecked] table keeps several values of a key, sorted. *)

From stdpp Require Import base list option tactics gmap.
From Stdlib Require Import ZArith Lia.
From S2P Require Import Prelude Blocks Common.
#[local] Open Scope Z_scope.

(** ** Data *)

Record caches := Caches {
  vote_table : gmap Z stream;
  vote_cache : gmap Z vote;
  unchecked_table : gmap Z (list stream);
  unchecked_cache : list (Z * block)
}.

Definition caches_empty : caches := Caches ∅ ∅ ∅ [].

(** The order of the values of a key: by bytes, then by length. *)
Fixpoint stream_compare (a b : stream) : comparison :=
  match a, b with
  | [], [] => Eq
  | [], _ => Lt
  | _, [] => Gt
  | x :: a, y :: b =>
    match Z_of_byte x ?= Z_of_byte y with Eq => stream_compare a b | c => c end
  end.

(** [mdb_put] in a table with sorted duplicates: a value is kept once. *)
Fixpoint dup_insert (v : stream) (l : list stream) : list stream :=
  match l with
  | [] => [v]
  | w :: l =>
    match stream_compare v w with
    | Lt => v :: w :: l
    | Eq => w :: l
    | Gt => w :: dup_insert v l
    end
  end.

(** The values of a key. *)
Definition dups (t : gmap Z (list stream)) (h : Z) : list stream := default [] (t !! h).

Definition dup_put (h : Z) (v : stream) (t : gmap Z (list stream)) : gmap Z (list stream) :=
  <[h := dup_insert v (dups t h)]> t.

(** [mdb_del] of one value; an absent value is no error here. *)
Definition dup_del (h : Z) (v : stream) (t : gmap Z (list stream)) : gmap Z (list stream) :=
  match filter (fun w => w <> v) (dups t h) with
  | [] => delete h t
  | l => <[h := l]> t
  end.

(** ** Unchecked blocks *)

(** The entries of a key in the multimap. *)
Definition cached (c : caches) (h : Z) : list block := (filter (fun e => fst e = h) (unchecked_cache c)).*2.

(** [unchecked_get]; a value that cannot be read gives a null pointer. *)
Definition unchecked_get (c : caches) (h : Z) : list (option block) :=
  (Some <$> cached c h) ++ ((fun v => fst <$> deserialize_block v) <$> dups (unchecked_table c) h).

Section unchecked.
Context `{E0 : Env}.

(** Whether a block with hash [bh] is there; [None] follows a null pointer. *)
Fixpoint hash_found (bh : Z) (l : list (option block)) : option bool :=
  match l with
  | [] => Some false
  | None :: _ => None
  | Some b :: l => if hash b =? bh then Some true else hash_found bh l
  end.

(** [unchecked_put]. *)
Definition unchecked_put (h : Z) (b : block) (c : caches) : option caches :=
  exists_ ← hash_found (hash b) (unchecked_get c h);
  Some (if exists_ : bool then c
        else Caches (vote_table c) (vote_cache c) (unchecked_table c) (unchecked_cache c ++ [(h, b)])).
End unchecked.

(** [unchecked_del]. *)
Definition unchecked_del (h : Z) (b : block) (c : caches) : caches :=
  Caches (vote_table c) (vote_cache c) (dup_del h (serialize_block b) (unchecked_table c))
    (filter (fun e => ~ (fst e = h /\ blocks_equal (snd e) b = true)) (unchecked_cache c)).

(** [unchecked_clear] drops the table, and leaves the cache. *)
Definition unchecked_clear (c : caches) : caches :=
  Caches (vote_table c) (vote_cache c) ∅ (unchecked_cache c).

(** [unchecked_count]: the entries of the table. *)
Definition unchecked_count (c : caches) : Z :=
  map_sum (fun _ l => Z.of_nat (length l)) (unchecked_table c).

(** ** Votes *)

(** [vote::vote (MDB_val)]: [None] is a failed assertion. *)
Definition vote_of_value (v : stream) : option vote := fst <$> vote_read v.

(** [vote_get]: the inner [None] is a null pointer. *)
Definition vote_get (c : caches) (a : Z) : option (option vote) :=
  match vote_table c !! a with
  | None => Some None
  | Some v => r ← vote_of_value v; Some (Some r)
  end.

(** [vote_current]. *)
Definition vote_current (c : caches) (a : Z) : option (option vote) :=
  match vote_cache c !! a with
  | Some v => Some (Some v)
  | None => vote_get c a
  end.

Definition set_vote (a : Z) (v : vote) (c : caches) : caches :=
  Caches (vote_table c) (<[a := v]> (vote_cache c)) (unchecked_table c) (unchecked_cache c).

(** [vote_generate]. *)
Definition vote_generate `{Env} (a key : Z) (b : block) (c : caches) : option (vote * caches) :=
  current ← vote_current c a;
  let sequence := wrap 64 (match current with Some v => vote_sequence v | None => 0 end + 1) in
  let v := vote_make a key sequence b in
  Some (v, set_vote a v c).

(** [vote_max]. *)
Definition vote_max (v : vote) (c : caches) : option (vote * caches) :=
  current ← vote_current c (vote_account v);
  let result := match current with
                | Some w => if vote_sequence v <? vote_sequence w then w else v
                | None => v
                end in
  Some (result, set_vote (vote_account v) result c).

(** [flush]: both caches are written to the database, in whatever order their entries
    are visited. *)
Definition flush_unchecked (entries : list (Z * block)) (t : gmap Z (list stream)) : gmap Z (list stream) :=
  fold_left (fun t e => dup_put (fst e) (serialize_block (snd e)) t) entries t.

Definition flush (c : caches) : caches :=
  Caches ((vote_serialize <$> vote_cache c) ∪ vote_table c) ∅
    (flush_unchecked (unchecked_cache c) (unchecked_table c)) [].

(** ** Well-formed tables *)

(** Every value is the printed form of a block or vote with fields in range. *)
Record caches_ok (c : caches) : Prop := {
  co_unchecked h v : v ∈ dups (unchecked_table c) h -> exists b, v = serialize_block b /\ wf_block b;
  co_cached h b : (h, b) ∈ unchecked_cache c -> wf_block b;
  co_votes a v : vote_table c !! a = Some v -> exists w, v = vote_serialize w /\ vote_wf w;
  co_vote_cache a w : vote_cache c !! a = Some w -> vote_wf w
}.

(** The blocks kept for [h]. *)
Definition waiting (c : caches) (h : Z) (b : block) : Prop := Some b ∈ unchecked_get c h.

(** ** Lemmas *)

Lemma stream_compare_eq a b : stream_compare a b = Eq <-> a = b.
Proof.
  revert b. induction a as [|x a IH]; intros [|y b]; cbn; try done.
  destruct (Z.compare_spec (Z_of_byte x) (Z_of_byte y)) as [E|E|E].
  - rewrite IH. apply (f_equal byte_of_Z) in E. rewrite !byte_of_Z_of_byte in E. subst y.
    split; [by intros ->|congruence].
  - split; [done|]. intros [= -> ->]. lia.
  - split; [done|]. intros [= -> ->]. lia.
Qed.

Lemma dup_insert_elem v l w : w ∈ dup_insert v l <-> w = v \/ w ∈ l.
Proof.
  induction l as [|x l IH]; cbn; [rewrite list_elem_of_singleton; set_solver|].
  pose proof (stream_compare_eq v x) as Hc. destruct (stream_compare v x).
  - assert (v = x) as -> by naive_solver. set_solver.
  - set_solver.
  - set_solver.
Qed.

Lemma dups_put h v t k w : w ∈ dups (dup_put h v t) k <-> (k = h /\ w = v) \/ w ∈ dups t k.
Proof.
  unfold dup_put. unfold dups at 1. destruct (decide (h = k)) as [->|Hne].
  - rewrite lookup_insert_eq. cbn. rewrite dup_insert_elem. naive_solver.
  - rewrite lookup_insert_ne by done. unfold dups. naive_solver.
Qed.

Lemma dups_del h v t k w : w ∈ dups (dup_del h v t) k <-> w ∈ dups t k /\ ~ (k = h /\ w = v).
Proof.
  unfold dup_del. destruct (filter _ (dups t h)) as [|x l] eqn:Hf.
  - unfold dups at 1. destruct (decide (h = k)) as [->|Hne].
    + rewrite lookup_delete_eq. cbn. split; [by intros ?%not_elem_of_nil|]. intros [Hw Hn].
      assert (w ∈ filter (fun w => w <> v) (dups t k)) as He by (apply list_elem_of_filter; naive_solver).
      rewrite Hf in He. by apply not_elem_of_nil in He.
    + rewrite lookup_delete_ne by done. unfold dups. naive_solver.
  - rewrite <- Hf. unfold dups at 1. destruct (decide (h = k)) as [->|Hne].
    + rewrite lookup_insert_eq. cbn. rewrite list_elem_of_filter. naive_solver.
    + rewrite lookup_insert_ne by done. unfold dups. naive_solver.
Qed.

Lemma flush_unchecked_dups entries t h v :
  v ∈ dups (flush_unchecked entries t) h
  <-> v ∈ dups t h \/ exists b, (h, b) ∈ entries /\ v = serialize_block b.
Proof.
  revert t. induction entries as [|[k b] entries IH]; intros t.
  - cbn. set_solver.
  - change (flush_unchecked ((k, b) :: entries) t) with (flush_unchecked entries (dup_put k (serialize_block b) t)).
    rewrite IH, dups_put. set_solver.
Qed.

Lemma serialize_block_inj a b : wf_block a -> wf_block b -> serialize_block a = serialize_block b -> a = b.
Proof.
  intros Ha Hb E. pose proof (deserialize_block_put a [] Ha) as H1. rewrite E, deserialize_block_put in H1 by done.
  congruence.
Qed.

Lemma deserialize_value b : wf_block b -> fst <$> deserialize_block (serialize_block b) = Some b.
Proof. intros Hb. rewrite <- (app_nil_r (serialize_block b)), deserialize_block_put by done. done. Qed.

Lemma vote_of_serialized v : vote_wf v -> vote_of_value (vote_serialize v) = Some v.
Proof.
  intros Hv. unfold vote_of_value. by rewrite <- (app_nil_r (vote_serialize v)), vote_read_put.
Qed.

Lemma waiting_iff c h b :
  caches_ok c ->
  waiting c h b <-> (h, b) ∈ unchecked_cache c \/ (serialize_block b ∈ dups (unchecked_table c) h /\ wf_block b).
Proof.
  intros Hc. unfold waiting, unchecked_get. rewrite elem_of_app, !list_elem_of_fmap. f_equiv.
  - unfold cached. setoid_rewrite list_elem_of_fmap. setoid_rewrite list_elem_of_filter. split.
    + intros (b' & [= <-] & [k b0] & -> & Hk & He). cbn in *. by subst k.
    + intros He. exists b. split; [done|]. by exists (h, b).
  - split.
    + intros (v & E & Hv). destruct (co_unchecked _ Hc _ _ Hv) as (b' & -> & Hb').
      rewrite deserialize_value in E by done. injection E as ->. done.
    + intros [Hv Hb]. exists (serialize_block b). by rewrite deserialize_value.
Qed.

Lemma waiting_wf c h b : caches_ok c -> waiting c h b -> wf_block b.
Proof. intros Hc. rewrite waiting_iff by done. intros [He|[_ Hb]]; [by eapply co_cached|done]. Qed.

(** No value of the table gives a null pointer. *)
Lemma unchecked_get_Some c h x : caches_ok c -> x ∈ unchecked_get c h -> is_Some x.
Proof.
  intros Hc. unfold unchecked_get. rewrite elem_of_app, !list_elem_of_fmap. intros [(b & -> & _)|(v & -> & Hv)]; [eauto|].
  destruct (co_unchecked _ Hc _ _ Hv) as (b & -> & Hb). rewrite deserialize_value by done. eauto.
Qed.

Section laws.
Context `{E0 : Env}.

Lemma hash_found_ok bh l :
  (forall x, x ∈ l -> is_Some x) ->
  exists r, hash_found bh l = Some r /\ (r = true <-> exists b, Some b ∈ l /\ hash b = bh).
Proof.
  induction l as [|x l IH]; cbn; intros Hl.
  { exists false. split; [done|]. split; [done|]. intros (b & Hb & _). by apply not_elem_of_nil in Hb. }
  destruct (Hl x) as [b ->]; [by left|]. destruct (Z.eqb_spec (hash b) bh) as [Hb|Hb].
  { exists true. split; [done|]. split; [|done]. intros _. exists b. split; [by left|done]. }
  destruct IH as (r & -> & Hr); [by intros; apply Hl; right|]. exists r. split; [done|]. rewrite Hr.
  split; intros (b' & Hb' & E); exists b'; (split; [|done]); [by right|].
  apply elem_of_cons in Hb' as [[= ->]|]; done.
Qed.

Lemma unchecked_put_ok h b c :
  caches_ok c -> wf_block b ->
  exists c', unchecked_put h b c = Some c' /\ caches_ok c'
    /\ (exists b', waiting c' h b' /\ hash b' = hash b)
    /\ forall k b', waiting c' k b' <->
         waiting c k b'
         \/ (k = h /\ b' = b /\ forall b'', waiting c h b'' -> hash b'' <> hash b).
Proof.
  intros Hc Hb. unfold unchecked_put.
  destruct (hash_found_ok (hash b) (unchecked_get c h)) as (r & -> & Hr); [by intros x; apply unchecked_get_Some|].
  cbn. destruct r; (eexists; split; [done|]).
  - destruct (proj1 Hr eq_refl) as (b0 & Hb0 & E). split_and!; [done|by exists b0|]. intros k b'.
    split; [auto|]. intros [|(_ & _ & Hn)]; [done|]. by destruct (Hn b0).
  - assert (caches_ok (Caches (vote_table c) (vote_cache c) (unchecked_table c) (unchecked_cache c ++ [(h, b)]))) as Hc'.
    { split; try apply Hc. cbn. intros k b' [He|He%list_elem_of_singleton]%elem_of_app; [by eapply co_cached|].
      by injection He as -> ->. }
    assert (forall b'', waiting c h b'' -> hash b'' <> hash b) as Hn.
    { intros b'' Hw E. assert (false = true); [|done]. apply Hr. eauto. }
    split_and!; [done|exists b; split; [|done]|].
    + apply waiting_iff; [done|]. left. cbn. set_solver.
    + intros k b'. rewrite !waiting_iff by done. cbn. set_solver.
Qed.

(** [unchecked_put] never fails. Afterwards a block with the hash of [b] waits for [h];
    [b] itself is added exactly when there was none, and nothing else changes. *)
Theorem unchecked_put_spec h b c :
  caches_ok c -> wf_block b ->
  exists c', unchecked_put h b c = Some c' /\ caches_ok c'
    /\ (exists b', waiting c' h b' /\ hash b' = hash b)
    /\ forall k b', waiting c' k b' <->
         waiting c k b'
         \/ (k = h /\ b' = b /\ forall b'', waiting c h b'' -> hash b'' <> hash b).
Proof. apply unchecked_put_ok. Qed.

Lemma unchecked_del_ok h b c : caches_ok c -> caches_ok (unchecked_del h b c).
Proof.
  intros Hc. split; try apply Hc; cbn.
  - intros k v [Hv _]%dups_del. by eapply co_unchecked.
  - intros k b' [_ He]%list_elem_of_filter. by eapply co_cached.
Qed.

Lemma unchecked_del_waiting h b c :
  caches_ok c -> wf_block b ->
  caches_ok (unchecked_del h b c)
  /\ forall k b', waiting (unchecked_del h b c) k b' <-> waiting c k b' /\ ~ (k = h /\ b' = b).
Proof.
  intros Hc Hb. pose proof (unchecked_del_ok h b c Hc) as Hc'. split; [done|]. intros k b'.
  rewrite !waiting_iff by done. cbn. rewrite dups_del, list_elem_of_filter. cbn. rewrite blocks_equal_iff. split.
  - intros [[Hn He]|[[Hv Hn] Hw]]; [naive_solver|]. split; [auto|]. intros [-> ->]. naive_solver.
  - intros [[He|[Hv Hw]] Hn]; [left; naive_solver|right]. split; [|done]. split; [done|]. intros [-> E].
    apply Hn. split; [done|]. by apply serialize_block_inj.
Qed.

(** [unchecked_del] takes away the block, in the cache and in the database, and
    nothing else. *)
Theorem unchecked_del_spec h b c :
  caches_ok c -> wf_block b ->
  caches_ok (unchecked_del h b c)
  /\ forall k b', waiting (unchecked_del h b c) k b' <-> waiting c k b' /\ ~ (k = h /\ b' = b).
Proof. apply unchecked_del_waiting. Qed.

Lemma flush_ok c : caches_ok c -> caches_ok (flush c).
Proof.
  intros Hc. split; cbn.
  - intros h v [Hv|(b & He & ->)]%flush_unchecked_dups; [by eapply co_unchecked|]. exists b.
    split; [done|]. by eapply co_cached.
  - by intros h b ?%not_elem_of_nil.
  - intros a v [Hv|[_ Hv]]%lookup_union_Some_raw; [|by eapply co_votes].
    apply lookup_fmap_Some in Hv as (w & <- & Hw). exists w. split; [done|]. by eapply co_vote_cache.
  - by intros a w ?%lookup_empty_Some.
Qed.

Lemma flush_vote c a : caches_ok c -> vote_current (flush c) a = vote_current c a.
Proof.
  intros Hc. unfold vote_current, vote_get, flush. cbn. rewrite lookup_empty.
  destruct (vote_cache c !! a) as [w|] eqn:Hw.
  - rewrite (lookup_union_Some_l _ _ a (vote_serialize w)) by by rewrite lookup_fmap, Hw.
    by rewrite vote_of_serialized by by eapply co_vote_cache.
  - by rewrite lookup_union_r by by rewrite lookup_fmap, Hw.
Qed.

(** [flush] loses nothing: the same blocks wait and the same votes are current, read
    back from the database; the caches are empty. *)
Theorem flush_spec c :
  caches_ok c ->
  caches_ok (flush c) /\ unchecked_cache (flush c) = [] /\ vote_cache (flush c) = ∅
  /\ (forall h b, waiting (flush c) h b <-> waiting c h b)
  /\ (forall a, vote_current (flush c) a = vote_current c a).
Proof.
  intros Hc. pose proof (flush_ok c Hc) as Hf. split_and!; [done..| |intros a; by apply flush_vote].
  intros h b. rewrite !waiting_iff by done. cbn. rewrite flush_unchecked_dups. split.
  - intros [?%not_elem_of_nil|[[Hv|(b' & He & E)] Hb]]; [done|auto|]. left.
    assert (b = b') as ->; [|done]. apply serialize_block_inj; [done|by eapply (co_cached _ Hc)|done].
  - intros [He|[Hv Hb]]; right; [|auto]. split; [eauto|by eapply (co_cached _ Hc)].
Qed.

(** ** Votes *)

Lemma vote_current_ok c a : caches_ok c ->
  exists r, vote_current c a = Some r /\ (forall v, r = Some v -> vote_wf v).
Proof.
  intros Hc. unfold vote_current, vote_get. destruct (vote_cache c !! a) as [w|] eqn:Hw.
  { eexists. split; [done|]. intros v [= <-]. by eapply co_vote_cache. }
  destruct (vote_table c !! a) as [v|] eqn:Hv; [|by eexists].
  destruct (co_votes _ Hc _ _ Hv) as (w & -> & Hwf). rewrite vote_of_serialized by done.
  eexists. split; [done|]. by intros ? [= <-].
Qed.

Lemma set_vote_ok a v c : caches_ok c -> vote_wf v -> caches_ok (set_vote a v c).
Proof.
  intros Hc Hv. split; try apply Hc. cbn. intros a' w [[_ <-]|[_ Hw]]%lookup_insert_Some; [done|]. by eapply co_vote_cache.
Qed.

Lemma set_vote_current a v c a' :
  vote_current (set_vote a v c) a' = if decide (a' = a) then Some (Some v) else vote_current c a'.
Proof.
  unfold vote_current. cbn. case_decide; [subst; by rewrite lookup_insert_eq|]. by rewrite lookup_insert_ne.
Qed.

(** The sequence number of the current vote of an account. *)
Definition sequence_of (c : caches) (a : Z) : Z :=
  match vote_current c a with Some (Some v) => vote_sequence v | _ => 0 end.

Lemma vote_max_ok v c :
  caches_ok c -> vote_wf v ->
  exists r c', vote_max v c = Some (r, c') /\ caches_ok c'
    /\ vote_sequence r = Z.max (vote_sequence v) (sequence_of c (vote_account v))
    /\ (r = v \/ vote_current c (vote_account v) = Some (Some r))
    /\ forall a, vote_current c' a = if decide (a = vote_account v) then Some (Some r) else vote_current c a.
Proof.
  intros Hc Hv. destruct (vote_current_ok c (vote_account v) Hc) as (r & Hr & Hwf).
  unfold vote_max, sequence_of. rewrite Hr. cbn. eexists _, _. split; [done|].
  pose proof Hv as (_ & _ & H3 & _). unfold in_width in H3.
  destruct r as [w|]; [destruct (Z.ltb_spec (vote_sequence v) (vote_sequence w))|].
  all: split_and!; [apply set_vote_ok; [done|first [by apply Hwf|done]]|lia|auto|intros a; apply set_vote_current].
Qed.

(** [vote_max] never fails. It returns the given vote, or the current one when that
    has a greater sequence number, and makes it the current vote of the account. *)
Theorem vote_max_spec v c :
  caches_ok c -> vote_wf v ->
  exists r c', vote_max v c = Some (r, c') /\ caches_ok c'
    /\ vote_sequence r = Z.max (vote_sequence v) (sequence_of c (vote_account v))
    /\ (r = v \/ vote_current c (vote_account v) = Some (Some r))
    /\ forall a, vote_current c' a = if decide (a = vote_account v) then Some (Some r) else vote_current c a.
Proof. apply vote_max_ok. Qed.

(** A generated vote is for the given block, has the next sequence number and becomes
    the current vote of the account. *)
Theorem vote_generate_spec a key b c :
  caches_ok c -> sequence_of c a < 2 ^ 64 - 1 ->
  exists v c', vote_generate a key b c = Some (v, c') /\ vote_account v = a /\ vote_block v = b
    /\ vote_sequence v = sequence_of c a + 1
    /\ forall a', vote_current c' a' = if decide (a' = a) then Some (Some v) else vote_current c a'.
Proof.
  intros Hc Hs. destruct (vote_current_ok c a Hc) as (r & Hr & Hwf). unfold vote_generate.
  assert (0 <= sequence_of c a) as Hn.
  { unfold sequence_of. rewrite Hr. destruct r as [w|]; [|done]. destruct (Hwf w) as (_ & _ & Hw & _); [done|]. apply Hw. }
  unfold sequence_of in *. rewrite Hr in *. cbn. eexists _, _. split; [done|].
  split_and!; [done..| |intros a'; apply set_vote_current]. cbn. apply wrap_small. unfold in_width.
  destruct r; lia.
Qed.
End laws.
