(* ===== verification/Work.v ===== *)
(** * Work: proof of work and the pool of threads that finds it

    [work_value], [work_validate] and [rai::work_pool] (lib/work.cpp). The threads of the
    pool share a list of requests and a ticket; a step of the pool is a step of one
    thread between two accesses to the shared state, or a call from outside. *)

From stdpp Require Import base list option tactics gmap.
From Stdlib Require Import ZArith Lia.
From S2P Require Import Prelude Blocks Common.
#[local] Open Scope Z_scope.

(** ** Validation *)

Class WorkConfig := work_test_network : bool.

Definition publish_test_threshold : Z := 0xff00000000000000.
Definition publish_full_threshold : Z := 0xffffffc000000000.

Section work.
Context `{E0 : Env} `{W0 : WorkConfig}.

Definition publish_threshold : Z := if work_test_network then publish_test_threshold else publish_full_threshold.

Definition work_value (root_a work : Z) : Z :=
  of_le_bytes (blake2b 8 (le_bytes 8 work ++ be_bytes 32 root_a)).

(** [true] is an error. *)
Definition work_validate (root_a work : Z) : bool := work_value root_a work <? publish_threshold.
Definition work_validate_block (b : block) : bool := work_validate (root b) (block_work b).

(** ** The pool *)

(** A request: the root and the callback. *)
Record request := Request {
  rq_root : Z;
  rq_callback : nat
}.

(** A thread waits at the top of its loop, searches for a request taken at some ticket, or
    has left the search. *)
Inductive worker :=
| waiting_worker
| searching (rq : request) (ticket_l output work : Z)
| leaving (rq : request) (ticket_l output work : Z).

(** The ticket counts without bound here; the code has it modulo 2^32. The answers given to
    callbacks are recorded. *)
Record pool := Pool {
  p_ticket : Z;
  p_done : bool;
  p_pending : list request;
  p_workers : gmap nat worker;
  p_answers : list (request * option Z)
}.

Definition same_ticket (a b : Z) : bool := wrap 32 a =? wrap 32 b.

Definition set_worker (i : nat) (w : worker) (p : pool) : pool :=
  Pool (p_ticket p) (p_done p) (p_pending p) (<[i := w]> (p_workers p)) (p_answers p).

(** The top of [loop]: take the first request. *)
Definition pool_take (i : nat) (p : pool) : option pool :=
  match p_workers p !! i, p_pending p with
  | Some waiting_worker, rq :: _ => Some (set_worker i (searching rq (p_ticket p) 0 0) p)
  | _, _ => None
  end.

(** One attempt of the inner loop, with the next random number. *)
Definition pool_try (i : nat) (work : Z) (p : pool) : option pool :=
  match p_workers p !! i with
  | Some (searching rq t output _) =>
    if output <? publish_threshold
    then Some (set_worker i (searching rq t (work_value (rq_root rq) work) work) p) else None
  | _ => None
  end.

(** The search ends when the ticket has moved or the work is good. *)
Definition pool_leave (i : nat) (p : pool) : option pool :=
  match p_workers p !! i with
  | Some (searching rq t output work) =>
    if negb (same_ticket (p_ticket p) t && (output <? publish_threshold))
    then Some (set_worker i (leaving rq t output work) p) else None
  | _ => None
  end.

(** Under the lock: the thread whose ticket is current answers the request. The result of
    the two assertions comes with the new state. *)
Definition pool_finish (i : nat) (p : pool) : option (bool * pool) :=
  match p_workers p !! i with
  | Some (leaving rq t output work) =>
    if same_ticket (p_ticket p) t then
      Some ((publish_threshold <=? output) && (work_value (rq_root rq) work =? output),
            Pool (p_ticket p + 1) (p_done p) (tail (p_pending p)) (<[i := waiting_worker]> (p_workers p))
              (p_answers p ++ [(rq, Some work)]))
    else Some (true, set_worker i waiting_worker p)
  | _ => None
  end.

(** [work_pool::cancel]. *)
Definition pool_cancel (root_a : Z) (p : pool) : pool :=
  let moved := match p_pending p with rq :: _ => rq_root rq =? root_a | [] => false end in
  Pool (if moved then p_ticket p + 1 else p_ticket p) (p_done p)
    (filter (fun rq => rq_root rq <> root_a) (p_pending p)) (p_workers p)
    (p_answers p ++ ((fun rq => (rq, None)) <$> filter (fun rq => rq_root rq = root_a) (p_pending p))).

(** [work_pool::generate], with what the OpenCL device returned, if there is one. *)
Definition pool_generate (rq : request) (opencl : option Z) (p : pool) : pool :=
  match opencl with
  | None => Pool (p_ticket p) (p_done p) (p_pending p ++ [rq]) (p_workers p) (p_answers p)
  | Some w => Pool (p_ticket p) (p_done p) (p_pending p) (p_workers p) (p_answers p ++ [(rq, Some w)])
  end.

Definition pool_stop (p : pool) : pool :=
  Pool (p_ticket p) true (p_pending p) (p_workers p) (p_answers p).

(** [work_pool::work_pool] with [n] threads. *)
Definition pool_init (n : nat) : pool :=
  Pool 0 false [] (list_to_map ((fun i => (i, waiting_worker)) <$> seq 0 n)) [].

(** The requests made so far have distinct callbacks; the OpenCL device is not used. *)
Inductive pool_step : pool -> pool -> Prop :=
| step_take i p p' : pool_take i p = Some p' -> pool_step p p'
| step_try i w p p' : in_width 64 w -> pool_try i w p = Some p' -> pool_step p p'
| step_leave i p p' : pool_leave i p = Some p' -> pool_step p p'
| step_finish i p ok p' : pool_finish i p = Some (ok, p') -> pool_step p p'
| step_cancel r p : pool_step p (pool_cancel r p)
| step_generate rq p :
    rq ∉ p_pending p -> rq ∉ (p_answers p).*1 -> rq_root rq <> 0 -> pool_step p (pool_generate rq None p)
| step_stop p : pool_step p (pool_stop p).

(** ** Invariant *)

(** What is known of a thread that has taken a request: while its ticket is current, the
    request is still the first one; good work is work for its root. *)
Definition worker_ok (p : pool) (w : worker) : Prop :=
  match w with
  | waiting_worker => True
  | searching rq t output work =>
    0 <= t <= p_ticket p /\ (t = p_ticket p -> head (p_pending p) = Some rq)
    /\ (publish_threshold <= output -> work_value (rq_root rq) work = output)
  | leaving rq t output work =>
    0 <= t <= p_ticket p
    /\ (t = p_ticket p -> head (p_pending p) = Some rq /\ publish_threshold <= output)
    /\ (publish_threshold <= output -> work_value (rq_root rq) work = output)
  end.

Record pool_ok (p : pool) : Prop := {
  po_ticket : 0 <= p_ticket p;
  po_workers i w : p_workers p !! i = Some w -> worker_ok p w;
  po_distinct : NoDup (p_pending p ++ (p_answers p).*1);
  po_answers rq w : (rq, Some w) ∈ p_answers p -> work_validate (rq_root rq) w = false
}.

Lemma publish_threshold_pos : 0 < publish_threshold.
Proof. unfold publish_threshold. by destruct work_test_network. Qed.

Lemma same_ticket_small a b : 0 <= a < 2 ^ 32 -> 0 <= b < 2 ^ 32 -> same_ticket a b = true <-> a = b.
Proof. intros Ha Hb. unfold same_ticket. rewrite !wrap_small by done. apply Z.eqb_eq. Qed.

Lemma pool_init_ok n : pool_ok (pool_init n).
Proof.
  split; cbn; [done| |constructor|by intros ? ? ?%not_elem_of_nil].
  intros i w Hw%elem_of_list_to_map_2. apply list_elem_of_fmap in Hw as (j & [= _ ->] & _). done.
Qed.

(** A change of one thread. *)
Lemma set_worker_ok i w p : pool_ok p -> worker_ok p w -> pool_ok (set_worker i w p).
Proof.
  intros Hp Hw. split; try apply Hp. cbn. intros j w' [[_ <-]|[_ Hj]]%lookup_insert_Some; [by destruct w|].
  pose proof (po_workers _ Hp _ _ Hj) as Hok. by destruct w'.
Qed.

(** Moving the ticket, or the end of the list of requests. *)
Lemma worker_ok_moved p p' w :
  worker_ok p w -> p_ticket p < p_ticket p' -> worker_ok p' w.
Proof. intros Hw Ht. destruct w; cbn in *; [done|..]; split_and!; try lia; apply Hw. Qed.

Lemma worker_ok_front p p' w :
  worker_ok p w -> p_ticket p' = p_ticket p -> (forall rq, head (p_pending p) = Some rq -> head (p_pending p') = Some rq) ->
  worker_ok p' w.
Proof. intros Hw Ht Hh. destruct w; cbn in *; rewrite ?Ht; naive_solver. Qed.

Lemma take_ok i p p' : pool_ok p -> pool_take i p = Some p' -> pool_ok p'.
Proof.
  unfold pool_take. intros Hp. destruct (p_workers p !! i) as [[| |]|]; try done.
  destruct (p_pending p) as [|rq rest] eqn:E; [done|]. intros [= <-]. apply set_worker_ok; [done|].
  cbn. rewrite E. pose proof (po_ticket _ Hp). pose proof publish_threshold_pos. split_and!; try done; lia.
Qed.

Lemma try_ok i w p p' : pool_ok p -> pool_try i w p = Some p' -> pool_ok p'.
Proof.
  unfold pool_try. intros Hp. destruct (p_workers p !! i) as [[|rq t output work|]|] eqn:E; try done.
  destruct (output <? publish_threshold); [|done]. intros [= <-]. apply set_worker_ok; [done|].
  pose proof (po_workers _ Hp _ _ E) as (H1 & H2 & _). done.
Qed.

Lemma leave_ok i p p' : pool_ok p -> pool_leave i p = Some p' -> pool_ok p'.
Proof.
  unfold pool_leave. intros Hp. destruct (p_workers p !! i) as [[|rq t output work|]|] eqn:E; try done.
  pose proof (po_workers _ Hp _ _ E) as (H1 & H2 & H3). destruct (negb _) eqn:Hc; [|done]. intros [= <-].
  apply set_worker_ok; [done|]. split_and!; [lia..| |done]. intros Ht. split; [auto|].
  apply negb_true_iff, andb_false_iff in Hc as [Hc|?%Z.ltb_ge]; [|done].
  unfold same_ticket in Hc. by rewrite Ht, Z.eqb_refl in Hc.
Qed.

Lemma finish_ok i p ok p' :
  pool_ok p -> p_ticket p < 2 ^ 32 -> pool_finish i p = Some (ok, p') -> ok = true /\ pool_ok p'.
Proof.
  unfold pool_finish. intros Hp Hb. destruct (p_workers p !! i) as [[| |rq t output work]|] eqn:E; try done.
  pose proof (po_workers _ Hp _ _ E) as (H1 & H2 & H3). destruct (same_ticket (p_ticket p) t) eqn:Ht.
  - apply same_ticket_small in Ht; [|lia..]. destruct H2 as [Hh Ho]; [done|]. specialize (H3 Ho). intros [= <- <-].
    split; [apply andb_true_iff; split; [by apply Z.leb_le|by apply Z.eqb_eq]|]. pose proof Hp as [P1 P2 P3 P4].
    destruct (p_pending p) as [|rq' rest] eqn:Hpend; [done|]. injection Hh as ->. split; cbn.
    + lia.
    + intros j w [[_ <-]|[_ Hj]]%lookup_insert_Some; [done|]. apply (worker_ok_moved p); [by eapply P2|cbn; lia].
    + rewrite fmap_app. change ([(rq, Some work)].*1) with [rq]. rewrite app_assoc, <- Permutation_cons_append. done.
    + intros rq0 w [Hin|Hin]%elem_of_app; [by apply P4|]. apply list_elem_of_singleton in Hin as [= -> ->].
      apply Z.ltb_ge. lia.
  - intros [= <- <-]. split; [done|]. by apply set_worker_ok.
Qed.

Lemma cancel_ok r p : pool_ok p -> pool_ok (pool_cancel r p).
Proof.
  intros [P1 P2 P3 P4]. unfold pool_cancel. split; cbn [p_ticket p_pending p_workers p_answers].
  - destruct (p_pending p) as [|rq rest]; [|destruct (_ =? _)]; lia.
  - intros i w Hw%P2. destruct (p_pending p) as [|rq rest] eqn:E.
    { eapply worker_ok_front; [done..|]. cbn. by rewrite E. }
    destruct (Z.eqb_spec (rq_root rq) r) as [Hr|Hr].
    + eapply worker_ok_moved; [done|cbn; lia].
    + eapply worker_ok_front; [done..|]. cbn [p_pending]. rewrite E, filter_cons, decide_True by done. done.
  - rewrite fmap_app, <- list_fmap_compose. cbn.
    rewrite list_fmap_id, (Permutation_app_comm (p_answers p).*1), app_assoc. eapply NoDup_Permutation_proper, P3.
    f_equiv. clear. induction (p_pending p) as [|rq rest IH]; [done|]. rewrite !filter_cons.
    destruct (decide (rq_root rq = r)) as [Hr|Hr].
    + rewrite decide_False by (intros ?; done). rewrite <- Permutation_middle. by f_equiv.
    + rewrite decide_True by done. cbn. by f_equiv.
  - intros rq w [Hin|Hin]%elem_of_app; [by apply P4|]. by apply list_elem_of_fmap in Hin as (rq' & [= ] & _).
Qed.

Lemma generate_ok rq p :
  pool_ok p -> rq ∉ p_pending p -> rq ∉ (p_answers p).*1 -> pool_ok (pool_generate rq None p).
Proof.
  intros [P1 P2 P3 P4] H1 H2. split; cbn; [done| | |done].
  - intros i w Hw%P2. eapply worker_ok_front; [done..|]. cbn. by destruct (p_pending p).
  - rewrite <- app_assoc. cbn. rewrite <- Permutation_middle. apply NoDup_cons. split; [|done].
    by rewrite elem_of_app; intros [|].
Qed.

Lemma step_ticket p p' : pool_step p p' -> p_ticket p <= p_ticket p'.
Proof.
  destruct 1 as [i p p' H|i w p p' _ H|i p p' H|i p ok p' H|r p|rq p|p]; try done.
  - unfold pool_take in H. destruct (p_workers p !! i) as [[]|], (p_pending p); simplify_eq; done.
  - unfold pool_try in H. destruct (p_workers p !! i) as [[]|]; try done. destruct (_ <? _); simplify_eq; done.
  - unfold pool_leave in H. destruct (p_workers p !! i) as [[]|]; try done. destruct (negb _); simplify_eq; done.
  - unfold pool_finish in H. destruct (p_workers p !! i) as [[]|]; try done. destruct (same_ticket _ _); simplify_eq; cbn; lia.
  - unfold pool_cancel. cbn. destruct (p_pending p) as [|? ?]; [|destruct (_ =? _)]; lia.
Qed.

Lemma pool_steps_ok n p : rtc pool_step (pool_init n) p -> p_ticket p < 2 ^ 32 -> pool_ok p.
Proof.
  intros H. revert p H. apply (rtc_ind_r (fun p => p_ticket p < 2 ^ 32 -> pool_ok p)); [intros; apply pool_init_ok|].
  intros p p' _ Hs IH Hb. pose proof (step_ticket _ _ Hs). assert (pool_ok p) as Hp by (apply IH; lia).
  destruct Hs; eauto using take_ok, try_ok, leave_ok, cancel_ok, generate_ok.
  - eapply finish_ok; [done| |done]. lia.
  - by destruct Hp.
Qed.

(** C33. Whatever the interleaving of the threads of the pool and of requests and
    cancellations, while fewer than 2^32 tickets have been used: the assertions of the
    loop hold, a request is answered at most once, and an answer is valid work for the
    root of its own request. *)
Theorem pool_answers n p :
  rtc pool_step (pool_init n) p -> p_ticket p < 2 ^ 32 ->
  (forall i ok p', pool_finish i p = Some (ok, p') -> ok = true)
  /\ NoDup (p_pending p ++ (p_answers p).*1)
  /\ forall rq w, (rq, Some w) ∈ p_answers p -> work_validate (rq_root rq) w = false.
Proof.
  intros Hs Hb. pose proof (pool_steps_ok n p Hs Hb) as Hp. split_and!; [|apply Hp|apply Hp].
  intros i ok p' Hf. by eapply finish_ok.
Qed.
End work.
