(* ===== verification/Messages.v ===== *)
(** * Messages: headers, bodies and the parser of datagrams

    [rai::message_header], the message classes and [rai::message_parser]
    (node/common.cpp, node/common.hpp). A message that is handed to the visitor is the
    result of the parser. *)

From stdpp Require Import base list option tactics gmap.
From Stdlib Require Import ZArith Lia.
From S2P Require Import Prelude Blocks Common Work.
#[local] Open Scope Z_scope.

(** ** Data *)

(** [enum class message_type : uint8_t]. *)
Inductive message_type :=
| mt_invalid
| mt_not_a_type
| mt_keepalive
| mt_publish
| mt_confirm_req
| mt_confirm_ack
| mt_bulk_pull
| mt_bulk_push
| mt_frontier_req
| mt_bulk_pull_blocks.

Definition message_type_code (t : message_type) : Z :=
  match t with
  | mt_invalid => 0
  | mt_not_a_type => 1
  | mt_keepalive => 2
  | mt_publish => 3
  | mt_confirm_req => 4
  | mt_confirm_ack => 5
  | mt_bulk_pull => 6
  | mt_bulk_push => 7
  | mt_frontier_req => 8
  | mt_bulk_pull_blocks => 9
  end.

(** The type is the byte that was read; [mh_extensions] is the number of the bit set. *)
Record message_header := MessageHeader {
  mh_version_max : Z;
  mh_version_using : Z;
  mh_version_min : Z;
  mh_type : Z;
  mh_extensions : Z
}.

(** An IPv6 address and a port. *)
Record endpoint := Endpoint {
  ep_address : Z;
  ep_port : Z
}.

#[global] Instance message_header_eq_dec : EqDecision message_header.
Proof. solve_decision. Defined.
#[global] Instance endpoint_eq_dec : EqDecision endpoint.
Proof. solve_decision. Defined.

Inductive message :=
| keepalive (h : message_header) (peers : list endpoint)
| publish (h : message_header) (b : block)
| confirm_req (h : message_header) (b : block)
| confirm_ack (h : message_header) (v : vote)
| frontier_req (h : message_header) (start age count : Z)
| bulk_pull (h : message_header) (start end_ : Z)
| bulk_pull_blocks (h : message_header) (min_hash max_hash mode max_count : Z)
| bulk_push (h : message_header).

Inductive parse_status :=
| success
| insufficient_work
| invalid_header
| invalid_message_type
| invalid_keepalive_message
| invalid_publish_message
| invalid_confirm_req_message
| invalid_confirm_ack_message.

(** [rai::rai_networks] (config.hpp); the network is chosen when the program is built. *)
Inductive rai_networks :=
| rai_test_network
| rai_beta_network
| rai_live_network.

Class Network := rai_network : rai_networks.

(** The two characters that tell the networks apart: RA, RB and RC. *)
Definition magic_number `{Network} : Z :=
  0x52 + 256 * match rai_network with
               | rai_test_network => 0x41
               | rai_beta_network => 0x42
               | rai_live_network => 0x43
               end.

Definition protocol_version : Z := 0x0b.
Definition protocol_version_min : Z := 0x07.
Definition ipv4_only_position : Z := 1.
Definition bootstrap_server_position : Z := 2.
Definition block_type_mask : Z := 0x0f00.

(** ** Headers *)

(** [message_header::message_header]. *)
Definition header_init (t : message_type) : message_header :=
  MessageHeader protocol_version protocol_version protocol_version_min (message_type_code t) 0.

Definition set_extensions (e : Z) (h : message_header) : message_header :=
  MessageHeader (mh_version_max h) (mh_version_using h) (mh_version_min h) (mh_type h) e.

Definition header_block_type (h : message_header) : block_type :=
  block_type_of_code (Z.shiftr (Z.land (mh_extensions h) block_type_mask) 8).

Definition block_type_set (t : block_type) (h : message_header) : message_header :=
  set_extensions (Z.lor (Z.land (mh_extensions h) (Z.lxor block_type_mask 0xffff))
                        (wrap 16 (Z.shiftl (block_type_code t) 8))) h.

Definition ipv4_only (h : message_header) : bool := Z.testbit (mh_extensions h) ipv4_only_position.
Definition ipv4_only_set (value : bool) (h : message_header) : message_header :=
  set_extensions (if value then Z.setbit (mh_extensions h) ipv4_only_position
                  else Z.clearbit (mh_extensions h) ipv4_only_position) h.

Section messages.
Context `{N0 : Network}.

Definition header_serialize (h : message_header) : stream :=
  le_bytes 2 magic_number ++ le_bytes 1 (mh_version_max h) ++ le_bytes 1 (mh_version_using h)
  ++ le_bytes 1 (mh_version_min h) ++ le_bytes 1 (mh_type h) ++ le_bytes 2 (mh_extensions h).

Definition header_deserialize (s : stream) : option (message_header * stream) :=
  '(m, s) ← read_le 2 s;
  if negb (m =? magic_number) then None else
  '(vmax, s) ← read_le 1 s;
  '(vusing, s) ← read_le 1 s;
  '(vmin, s) ← read_le 1 s;
  '(t, s) ← read_le 1 s;
  '(e, s) ← read_le 2 s;
  Some (MessageHeader vmax vusing vmin t e, s).

(** ** Bodies *)

Definition endpoint_write (e : endpoint) : stream := be_bytes 16 (ep_address e) ++ le_bytes 2 (ep_port e).
Definition endpoint_read (s : stream) : option (endpoint * stream) :=
  '(a, s) ← read_be 16 s;
  '(p, s) ← read_le 2 s;
  Some (Endpoint a p, s).

(** [keepalive::deserialize]: eight peers. *)
Fixpoint peers_read (n : nat) (s : stream) : option (list endpoint * stream) :=
  match n with
  | O => Some ([], s)
  | S n => '(e, s) ← endpoint_read s; '(es, s) ← peers_read n s; Some (e :: es, s)
  end.

(** The messages a node makes itself. *)
Definition keepalive_init : message := keepalive (header_init mt_keepalive) (replicate 8 (Endpoint 0 0)).
Definition publish_make (b : block) : message := publish (block_type_set (block_type_of b) (header_init mt_publish)) b.
Definition confirm_req_make (b : block) : message :=
  confirm_req (block_type_set (block_type_of b) (header_init mt_confirm_req)) b.
Definition confirm_ack_make (v : vote) : message :=
  confirm_ack (block_type_set (block_type_of (vote_block v)) (header_init mt_confirm_ack)) v.

(** [serialize] of each class. *)
Definition keepalive_serialize (h : message_header) (peers : list endpoint) : stream :=
  header_serialize h ++ concat (endpoint_write <$> peers).
Definition publish_serialize (h : message_header) (b : block) : stream := header_serialize h ++ serialize b.
Definition confirm_req_serialize (h : message_header) (b : block) : stream := header_serialize h ++ serialize b.
Definition confirm_ack_serialize (h : message_header) (v : vote) : option stream :=
  _ ← assert (negb (bool_decide (header_block_type h = bt_invalid \/ header_block_type h = bt_not_a_block)));
  Some (header_serialize h ++ vote_serialize_typed v).
Definition frontier_req_serialize (h : message_header) (start age count : Z) : stream :=
  header_serialize h ++ be_bytes 32 start ++ le_bytes 4 age ++ le_bytes 4 count.
Definition bulk_pull_serialize (h : message_header) (start end_ : Z) : stream :=
  header_serialize h ++ be_bytes 32 start ++ be_bytes 32 end_.
Definition bulk_pull_blocks_serialize (h : message_header) (min_hash max_hash mode max_count : Z) : stream :=
  header_serialize h ++ be_bytes 32 min_hash ++ be_bytes 32 max_hash ++ le_bytes 1 mode ++ le_bytes 4 max_count.
Definition bulk_push_serialize (h : message_header) : stream := header_serialize h.

(** [message::serialize]; [None] is the failed assertion of [confirm_ack::serialize]. *)
Definition message_serialize (m : message) : option stream :=
  match m with
  | keepalive h peers => Some (keepalive_serialize h peers)
  | publish h b => Some (publish_serialize h b)
  | confirm_req h b => Some (confirm_req_serialize h b)
  | confirm_ack h v => confirm_ack_serialize h v
  | frontier_req h start age count => Some (frontier_req_serialize h start age count)
  | bulk_pull h start end_ => Some (bulk_pull_serialize h start end_)
  | bulk_pull_blocks h min_hash max_hash mode max_count => Some (bulk_pull_blocks_serialize h min_hash max_hash mode max_count)
  | bulk_push h => Some (bulk_push_serialize h)
  end.

(** [deserialize] of each class, after the header. *)
Definition keepalive_deserialize (h : message_header) (s : stream) : option (message * stream) :=
  '(peers, s) ← peers_read 8 s; Some (keepalive h peers, s).
Definition publish_deserialize (h : message_header) (s : stream) : option (message * stream) :=
  '(b, s) ← deserialize_block_typed (header_block_type h) s; Some (publish h b, s).
Definition confirm_req_deserialize (h : message_header) (s : stream) : option (message * stream) :=
  '(b, s) ← deserialize_block_typed (header_block_type h) s; Some (confirm_req h b, s).
(** The constructor of [confirm_ack] reads the vote. *)
Definition confirm_ack_read (h : message_header) (s : stream) : option (message * stream) :=
  '(v, s) ← vote_read_typed (header_block_type h) s; Some (confirm_ack h v, s).
Definition confirm_ack_deserialize (h : message_header) (s : stream) : option (message * stream) :=
  '(v, s) ← vote_deserialize s; Some (confirm_ack h v, s).
Definition frontier_req_deserialize (h : message_header) (s : stream) : option (message * stream) :=
  '(start, s) ← read_be 32 s;
  '(age, s) ← read_le 4 s;
  '(count, s) ← read_le 4 s;
  Some (frontier_req h start age count, s).
Definition bulk_pull_deserialize (h : message_header) (s : stream) : option (message * stream) :=
  '(start, s) ← read_be 32 s;
  '(end_, s) ← read_be 32 s;
  Some (bulk_pull h start end_, s).
Definition bulk_pull_blocks_deserialize (h : message_header) (s : stream) : option (message * stream) :=
  '(min_hash, s) ← read_be 32 s;
  '(max_hash, s) ← read_be 32 s;
  '(mode, s) ← read_le 1 s;
  '(max_count, s) ← read_le 4 s;
  Some (bulk_pull_blocks h min_hash max_hash mode max_count, s).
Definition bulk_push_deserialize (h : message_header) (s : stream) : option (message * stream) :=
  Some (bulk_push h, s).
End messages.

(** ** The parser *)

Section parser.
Context `{E0 : Env} `{W0 : WorkConfig} `{N0 : Network}.

(** [at_end]: reading one more byte fails. *)
Definition at_end (s : stream) : bool := match read_le 1 s with None => true | Some _ => false end.

Definition deserialize_keepalive (h : message_header) (s : stream) : parse_status * option message :=
  match keepalive_deserialize h s with
  | Some (m, s) => if at_end s then (success, Some m) else (invalid_keepalive_message, None)
  | None => (invalid_keepalive_message, None)
  end.

Definition deserialize_publish (h : message_header) (s : stream) : parse_status * option message :=
  match deserialize_block_typed (header_block_type h) s with
  | Some (b, s) =>
    if at_end s then
      if negb (work_validate_block b) then (success, Some (publish h b)) else (insufficient_work, None)
    else (invalid_publish_message, None)
  | None => (invalid_publish_message, None)
  end.

Definition deserialize_confirm_req (h : message_header) (s : stream) : parse_status * option message :=
  match deserialize_block_typed (header_block_type h) s with
  | Some (b, s) =>
    if at_end s then
      if negb (work_validate_block b) then (success, Some (confirm_req h b)) else (insufficient_work, None)
    else (invalid_confirm_req_message, None)
  | None => (invalid_confirm_req_message, None)
  end.

Definition deserialize_confirm_ack (h : message_header) (s : stream) : parse_status * option message :=
  match vote_read_typed (header_block_type h) s with
  | Some (v, s) =>
    if at_end s then
      if negb (work_validate_block (vote_block v)) then (success, Some (confirm_ack h v)) else (insufficient_work, None)
    else (invalid_confirm_ack_message, None)
  | None => (invalid_confirm_ack_message, None)
  end.

(** [deserialize_buffer]: the status, and the message handed to the visitor. *)
Definition deserialize_buffer (s : stream) : parse_status * option message :=
  match header_deserialize s with
  | None => (invalid_header, None)
  | Some (h, s) =>
    if mh_type h =? message_type_code mt_keepalive then deserialize_keepalive h s
    else if mh_type h =? message_type_code mt_publish then deserialize_publish h s
    else if mh_type h =? message_type_code mt_confirm_req then deserialize_confirm_req h s
    else if mh_type h =? message_type_code mt_confirm_ack then deserialize_confirm_ack h s
    else (invalid_message_type, None)
  end.
End parser.

(** ** Round trips *)

Section laws.
Context `{E0 : Env} `{W0 : WorkConfig} `{N0 : Network}.

Definition header_wf (h : message_header) : Prop :=
  in_width 8 (mh_version_max h) /\ in_width 8 (mh_version_using h) /\ in_width 8 (mh_version_min h)
  /\ in_width 8 (mh_type h) /\ in_width 16 (mh_extensions h).

Definition endpoint_wf (e : endpoint) : Prop := in_width 128 (ep_address e) /\ in_width 16 (ep_port e).

(** A header of the class of the message, with the type of the block in it, and fields in
    range. *)
Definition message_wf (m : message) : Prop :=
  match m with
  | keepalive h peers =>
    header_wf h /\ mh_type h = message_type_code mt_keepalive /\ length peers = 8%nat /\ Forall endpoint_wf peers
  | publish h b =>
    header_wf h /\ mh_type h = message_type_code mt_publish /\ wf_block b /\ header_block_type h = block_type_of b
  | confirm_req h b =>
    header_wf h /\ mh_type h = message_type_code mt_confirm_req /\ wf_block b /\ header_block_type h = block_type_of b
  | confirm_ack h v =>
    header_wf h /\ mh_type h = message_type_code mt_confirm_ack /\ vote_wf v
    /\ header_block_type h = block_type_of (vote_block v)
  | frontier_req h start age count =>
    header_wf h /\ mh_type h = message_type_code mt_frontier_req
    /\ in_width 256 start /\ in_width 32 age /\ in_width 32 count
  | bulk_pull h start end_ =>
    header_wf h /\ mh_type h = message_type_code mt_bulk_pull /\ in_width 256 start /\ in_width 256 end_
  | bulk_pull_blocks h min_hash max_hash mode max_count =>
    header_wf h /\ mh_type h = message_type_code mt_bulk_pull_blocks
    /\ in_width 256 min_hash /\ in_width 256 max_hash /\ in_width 8 mode /\ in_width 32 max_count
  | bulk_push h => header_wf h /\ mh_type h = message_type_code mt_bulk_push
  end.

Lemma magic_width : in_width 16 magic_number.
Proof. unfold magic_number. by destruct rai_network. Qed.

Lemma header_read h s : header_wf h -> header_deserialize (header_serialize h ++ s) = Some (h, s).
Proof.
  intros (H1 & H2 & H3 & H4 & H5). unfold header_deserialize, header_serialize.
  repeat rewrite <- app_assoc. rewrite read_le_bytes by apply magic_width. cbn [mbind option_bind]. rewrite Z.eqb_refl.
  cbn [negb]. read_run. by destruct h.
Qed.

Lemma header_read_inv s h s' : header_deserialize s = Some (h, s') -> s = header_serialize h ++ s' /\ header_wf h.
Proof.
  unfold header_deserialize. intros ([m t] & [-> Hm]%read_le_Some & H)%bind_Some.
  destruct (Z.eqb_spec m magic_number) as [->|]; [|done]. cbn [negb] in H. read_inv.
  unfold header_serialize, header_wf. cbn. rewrite <- !app_assoc. done.
Qed.

Lemma at_end_nil s : at_end s = true <-> s = [].
Proof. unfold at_end, read_le, read_bytes. destruct s; [done|]. by rewrite decide_True by (cbn; lia). Qed.

Lemma peers_read_write peers s : Forall endpoint_wf peers ->
  peers_read (length peers) (concat (endpoint_write <$> peers) ++ s) = Some (peers, s).
Proof.
  induction 1 as [|e peers [H1 H2] _ IH]; [done|]. rewrite fmap_cons. cbn [length peers_read concat].
  unfold endpoint_read, endpoint_write at 1. rewrite <- !app_assoc. read_run. rewrite IH. by destruct e.
Qed.

Lemma peers_read_inv n s peers s' : peers_read n s = Some (peers, s') ->
  s = concat (endpoint_write <$> peers) ++ s' /\ length peers = n /\ Forall endpoint_wf peers.
Proof.
  revert s peers. induction n as [|n IH]; intros s peers; cbn [peers_read]; [by intros [= <- <-]|].
  intros ([e t] & He & ([es t'] & Hes & [= <- <-])%bind_Some)%bind_Some. apply IH in Hes as (-> & <- & Hwf).
  unfold endpoint_read in He. read_inv. rewrite fmap_cons. cbn. rewrite <- !app_assoc.
  split_and!; [done..|]. constructor; [by split|done].
Qed.

Lemma vote_read_typed_put v s : vote_wf v ->
  vote_read_typed (block_type_of (vote_block v)) (vote_serialize_typed v ++ s) = Some (v, s).
Proof.
  intros (H1 & H2 & H3 & H4). unfold vote_read_typed, vote_serialize_typed. read_run.
  rewrite deserialize_serialize_typed by done. by destruct v.
Qed.

Lemma vote_read_typed_inv t v s s' : vote_read_typed t s = Some (v, s') ->
  s = vote_serialize_typed v ++ s' /\ block_type_of (vote_block v) = t /\ vote_wf v.
Proof.
  unfold vote_read_typed. intros H.
  apply bind_Some in H as ([a t1] & [-> Ha]%read_be_Some & H).
  apply bind_Some in H as ([sig t2] & [-> Hs]%read_be_Some & H).
  apply bind_Some in H as ([seq t3] & [-> Hq]%read_le_Some & H).
  apply bind_Some in H as ([b t4] & (-> & Ht & Hb)%deserialize_typed_serialize & [= <- <-]).
  unfold vote_serialize_typed, vote_wf. cbn. rewrite <- !app_assoc. done.
Qed.

(** What the parser should make of a message: datagrams carry four kinds, and blocks in
    them need valid work. *)
Definition parser_answer (m : message) : parse_status * option message :=
  match m with
  | keepalive _ _ => (success, Some m)
  | publish _ b | confirm_req _ b => if work_validate_block b then (insufficient_work, None) else (success, Some m)
  | confirm_ack _ v => if work_validate_block (vote_block v) then (insufficient_work, None) else (success, Some m)
  | _ => (invalid_message_type, None)
  end.

(** A block of a type is a block. *)
Lemma block_type_valid b : block_type_of b <> bt_invalid /\ block_type_of b <> bt_not_a_block.
Proof. by destruct b. Qed.

(** C34. A well-formed message is serialized without a failed assertion, and the parser
    answers the datagram with the message, or with the reason for refusing it. *)
Theorem parse_serialize m :
  message_wf m -> exists s, message_serialize m = Some s /\ deserialize_buffer s = parser_answer m.
Proof.
  unfold deserialize_buffer.
  destruct m as [h peers|h b|h b|h v|h start age count|h start end_|h min_hash max_hash mode max_count|h]; cbn [message_wf message_serialize];
    unfold keepalive_serialize, publish_serialize, confirm_req_serialize, confirm_ack_serialize, frontier_req_serialize,
      bulk_pull_serialize, bulk_pull_blocks_serialize, bulk_push_serialize.
  - intros (Hh & Ht & Hl & Hp). eexists. split; [done|]. rewrite header_read, Ht by done. cbn.
    unfold deserialize_keepalive, keepalive_deserialize. rewrite <- (app_nil_r (concat _)), <- Hl, peers_read_write by done. done.
  - intros (Hh & Ht & Hb & Hty). eexists. split; [done|]. rewrite header_read, Ht by done. cbn. unfold deserialize_publish.
    rewrite <- (app_nil_r (serialize b)), Hty, deserialize_serialize_typed by done. cbn. by destruct (work_validate_block b).
  - intros (Hh & Ht & Hb & Hty). eexists. split; [done|]. rewrite header_read, Ht by done. cbn. unfold deserialize_confirm_req.
    rewrite <- (app_nil_r (serialize b)), Hty, deserialize_serialize_typed by done. cbn. by destruct (work_validate_block b).
  - intros (Hh & Ht & Hv & Hty). rewrite bool_decide_false.
    2: { rewrite Hty. destruct (block_type_valid (vote_block v)). by intros [|]. }
    eexists. split; [done|]. rewrite header_read, Ht by done. cbn. unfold deserialize_confirm_ack.
    rewrite <- (app_nil_r (vote_serialize_typed v)), Hty, vote_read_typed_put by done. cbn. by destruct (work_validate_block _).
  - intros (Hh & Ht & _). eexists. split; [done|]. by rewrite header_read, Ht.
  - intros (Hh & Ht & _). eexists. split; [done|]. by rewrite header_read, Ht.
  - intros (Hh & Ht & _). eexists. split; [done|]. by rewrite header_read, Ht.
  - intros (Hh & Ht). eexists. split; [done|]. rewrite <- (app_nil_r (header_serialize h)). by rewrite header_read, Ht.
Qed.

(** C35. What the parser hands to the visitor is well formed, has valid work, and the
    datagram is exactly its serialized form; without success nothing is handed on. *)
Theorem parse_sound s st r :
  deserialize_buffer s = (st, r) ->
  match r with
  | Some m => st = success /\ message_wf m /\ message_serialize m = Some s /\ parser_answer m = (success, Some m)
  | None => st <> success
  end.
Proof.
  unfold deserialize_buffer. destruct (header_deserialize s) as [[h t]|] eqn:Hh; [|by intros [= <- <-]].
  apply header_read_inv in Hh as [-> Hwf].
  destruct (Z.eqb_spec (mh_type h) (message_type_code mt_keepalive)) as [Ht|_].
  { unfold deserialize_keepalive, keepalive_deserialize. destruct (peers_read 8 t) as [[peers t']|] eqn:Hp; [|by intros [= <- <-]].
    cbn. destruct (at_end t') eqn:He; intros [= <- <-]; [|done]. apply at_end_nil in He as ->.
    apply peers_read_inv in Hp as (-> & Hl & Hps). by rewrite app_nil_r. }
  destruct (Z.eqb_spec (mh_type h) (message_type_code mt_publish)) as [Ht|_].
  { unfold deserialize_publish. destruct (deserialize_block_typed _ t) as [[b t']|] eqn:Hb; [|by intros [= <- <-]].
    destruct (at_end t') eqn:He; [|by intros [= <- <-]]. apply at_end_nil in He as ->.
    apply deserialize_typed_serialize in Hb as (-> & Hty & Hb). rewrite app_nil_r.
    destruct (work_validate_block b) eqn:Hw; intros [= <- <-]; [done|]. cbn. by rewrite Hw. }
  destruct (Z.eqb_spec (mh_type h) (message_type_code mt_confirm_req)) as [Ht|_].
  { unfold deserialize_confirm_req. destruct (deserialize_block_typed _ t) as [[b t']|] eqn:Hb; [|by intros [= <- <-]].
    destruct (at_end t') eqn:He; [|by intros [= <- <-]]. apply at_end_nil in He as ->.
    apply deserialize_typed_serialize in Hb as (-> & Hty & Hb). rewrite app_nil_r.
    destruct (work_validate_block b) eqn:Hw; intros [= <- <-]; [done|]. cbn. by rewrite Hw. }
  destruct (Z.eqb_spec (mh_type h) (message_type_code mt_confirm_ack)) as [Ht|_]; [|by intros [= <- <-]].
  unfold deserialize_confirm_ack. destruct (vote_read_typed _ t) as [[v t']|] eqn:Hv; [|by intros [= <- <-]].
  destruct (at_end t') eqn:He; [|by intros [= <- <-]]. apply at_end_nil in He as ->.
  apply vote_read_typed_inv in Hv as (-> & Hty & Hv). rewrite app_nil_r.
  destruct (work_validate_block (vote_block v)) eqn:Hw; intros [= <- <-]; [done|]. cbn. unfold confirm_ack_serialize. rewrite Hw, bool_decide_false; [done|].
  rewrite <- Hty. destruct (block_type_valid (vote_block v)). by intros [|].
Qed.

(** The messages a node makes itself are well formed. *)
Lemma made_header t m : header_wf (block_type_set t (header_init m)) /\ header_block_type (block_type_set t (header_init m)) = t.
Proof. by destruct t, m. Qed.

Lemma made_wf :
  message_wf keepalive_init
  /\ (forall b, wf_block b -> message_wf (publish_make b) /\ message_wf (confirm_req_make b))
  /\ (forall v, vote_wf v -> message_wf (confirm_ack_make v)).
Proof.
  split_and!.
  - by repeat constructor.
  - intros b Hb. split; cbn [message_wf publish_make confirm_req_make]; split_and!; try done; apply made_header.
  - intros v Hv. cbn [message_wf confirm_ack_make]. split_and!; try done; apply made_header.
Qed.

(** [vote::deserialize] asks for a block of no type, and so does [confirm_ack::deserialize]. *)
Lemma confirm_ack_deserialize_fails h s : confirm_ack_deserialize h s = None.
Proof.
  unfold confirm_ack_deserialize, vote_deserialize. destruct (read_be 32 s) as [[a t]|]; [|done]. cbn [mbind option_bind].
  destruct (read_be 64 t) as [[sig t']|]; [|done]. cbn [mbind option_bind]. by destruct (read_le 8 t') as [[q t'']|].
Qed.
End laws.
