(* ===== verification/Peers.v ===== *)
(** * Peers: the table of peers of a node

    [rai::peer_container] of node/node.cpp: which addresses can be peers, who contacted the
    node and when, whom to send keepalives, random peers for a broadcast, representatives
    among the peers, and the choice of a peer to bootstrap from. Endpoints are those of
    [Messages], IPv6 addresses of global scope. The container is indexed by several keys:
    the field [pc_peers] has the order of the random access index, which is the order of
    insertion, and a function that visits an ordered index takes the visited sequence as
    an argument ([view]), since the order of equal keys depends on the history. *)

From stdpp Require Import base list option tactics gmap sorting.
From Stdlib Require Import ZArith Lia.
From S2P Require Import Prelude Messages.
#[local] Open Scope Z_scope.

(** ** Data *)

#[global] Instance endpoint_countable : Countable endpoint.
Proof.
  apply (inj_countable' (fun e => (ep_address e, ep_port e)) (fun p => Endpoint (fst p) (snd p))). by intros [].
Defined.

(** Time points are in seconds; [time_point ()] is 0. *)
Record peer_information := PeerInformation {
  pe_endpoint : endpoint;
  last_contact : Z;
  last_attempt : Z;
  last_bootstrap_attempt : Z;
  last_rep_request : Z;
  last_rep_response : Z;
  rep_weight : Z;
  probable_rep_account : Z;
  network_version : Z
}.

(** [pc_attempts] has the time of the first keepalive to an endpoint. *)
Record peer_container := PeerContainer {
  pc_self : endpoint;
  pc_peers : list peer_information;
  pc_attempts : gmap endpoint Z
}.

(** The sender of a datagram. *)
Inductive udp_endpoint :=
| udp_v4 (address port : Z)
| udp_v6 (e : endpoint).

Definition peer_container_init (self : endpoint) : peer_container := PeerContainer self [] ∅.

Definition set_peers (l : list peer_information) (c : peer_container) : peer_container :=
  PeerContainer (pc_self c) l (pc_attempts c).

(** [peer_information::peer_information] of a new peer; the account is not initialised. *)
Definition new_peer (e : endpoint) (version now uninitialised : Z) : peer_information :=
  PeerInformation e now now 0 0 0 0 uninitialised version.

(** [peers.modify] of the peer with an endpoint. *)
Definition modify (e : endpoint) (f : peer_information -> peer_information) (c : peer_container) : peer_container :=
  set_peers ((fun p => if decide (pe_endpoint p = e) then f p else p) <$> pc_peers c) c.

Definition with_contact (t : Z) (p : peer_information) : peer_information :=
  PeerInformation (pe_endpoint p) t (last_attempt p) (last_bootstrap_attempt p) (last_rep_request p)
    (last_rep_response p) (rep_weight p) (probable_rep_account p) (network_version p).
Definition with_attempt (t : Z) (p : peer_information) : peer_information :=
  PeerInformation (pe_endpoint p) (last_contact p) t (last_bootstrap_attempt p) (last_rep_request p)
    (last_rep_response p) (rep_weight p) (probable_rep_account p) (network_version p).
Definition with_bootstrap_attempt (t : Z) (p : peer_information) : peer_information :=
  PeerInformation (pe_endpoint p) (last_contact p) (last_attempt p) t (last_rep_request p)
    (last_rep_response p) (rep_weight p) (probable_rep_account p) (network_version p).
Definition with_rep_request (t : Z) (p : peer_information) : peer_information :=
  PeerInformation (pe_endpoint p) (last_contact p) (last_attempt p) (last_bootstrap_attempt p) t
    (last_rep_response p) (rep_weight p) (probable_rep_account p) (network_version p).
Definition with_rep_response (t : Z) (p : peer_information) : peer_information :=
  PeerInformation (pe_endpoint p) (last_contact p) (last_attempt p) (last_bootstrap_attempt p) (last_rep_request p)
    t (rep_weight p) (probable_rep_account p) (network_version p).
Definition with_weight (w a : Z) (p : peer_information) : peer_information :=
  PeerInformation (pe_endpoint p) (last_contact p) (last_attempt p) (last_bootstrap_attempt p) (last_rep_request p)
    (last_rep_response p) w a (network_version p).

(** ** Addresses *)

Definition mapped_from_v4_bytes (address : Z) : Z := 0xffff00000000 + address.

Definition in_range (lo hi a : Z) : bool := (lo <=? a) && (a <=? hi).
Definition in_v4_range (lo hi a : Z) : bool := in_range (mapped_from_v4_bytes lo) (mapped_from_v4_bytes hi) a.

Section peers.
Context `{N0 : Network}.

Definition reserved_address (e : endpoint) : bool :=
  let bytes := ep_address e in
  if in_v4_range 0x00000000 0x00ffffff bytes then true
  else if in_v4_range 0xc0000200 0xc00002ff bytes then true
  else if in_v4_range 0xc6336400 0xc63364ff bytes then true
  else if in_v4_range 0xcb007100 0xcb0071ff bytes then true
  else if in_v4_range 0xe0000000 0xefffffff bytes then true
  else if in_v4_range 0xf0000000 0xffffffff bytes then true
  else if in_range (0x0100 * 2 ^ 112) (0x0100 * 2 ^ 112 + 0xffffffffffffffff) bytes then true
  else if in_range (0x20010db8 * 2 ^ 96) (0x20010db8 * 2 ^ 96 + (2 ^ 96 - 1)) bytes then true
  else if in_range (0xff00 * 2 ^ 112) (0xff00 * 2 ^ 112 + (2 ^ 112 - 1)) bytes then true
  else match rai_network with
  | rai_live_network =>
    if bytes =? 1 then true
    else if in_v4_range 0x7f000000 0x7fffffff bytes then true
    else if in_v4_range 0x0a000000 0x0affffff bytes then true
    else if in_v4_range 0xac100000 0xac1fffff bytes then true
    else if in_v4_range 0xc0a80000 0xc0a8ffff bytes then true
    else if in_v4_range 0x64400000 0x647fffff bytes then true
    else in_range (0xfc00 * 2 ^ 112) (0xfd00 * 2 ^ 112 + (2 ^ 112 - 1)) bytes
  | _ => false
  end.

Definition not_a_peer (c : peer_container) (e : endpoint) : bool :=
  if ep_address e =? 0 then true
  else if reserved_address e then true
  else bool_decide (e = pc_self c).

(** ** Contacts *)

Definition find_peer (e : endpoint) (c : peer_container) : option peer_information :=
  List.find (fun p => bool_decide (pe_endpoint p = e)) (pc_peers c).

Definition known_peer (e : endpoint) (c : peer_container) : bool := bool_decide (is_Some (find_peer e c)).

(** The first result is that of the code; the second says that [peer_observer] is called. *)
Definition insert_peer (e : endpoint) (version now uninitialised : Z) (c : peer_container) : bool * bool * peer_container :=
  if not_a_peer c e then (true, false, c)
  else if protocol_version_min <=? version then
    match find_peer e c with
    | Some _ => (true, false, modify e (with_contact now) c)
    | None => (false, true, set_peers (pc_peers c ++ [new_peer e version now uninitialised]) c)
    end
  else (false, false, c).

Definition to_v6 (e : udp_endpoint) : endpoint :=
  match e with
  | udp_v4 address port => Endpoint (mapped_from_v4_bytes address) port
  | udp_v6 e => e
  end.

Definition contacted (e : udp_endpoint) (version now uninitialised : Z) (c : peer_container) : bool * peer_container :=
  let '(_, observed, c) := insert_peer (to_v6 e) version now uninitialised c in (observed, c).

(** [true] is an error: no keepalive should be sent. *)
Definition reachout (e : endpoint) (now : Z) (c : peer_container) : bool * peer_container :=
  if not_a_peer c e then (true, c)
  else
    let existing := pc_attempts c !! e in
    (known_peer e c || bool_decide (is_Some existing),
     match existing with
     | Some _ => c
     | None => PeerContainer (pc_self c) (pc_peers c) (<[e := now]> (pc_attempts c))
     end).

(** [network::merge_peers]: the endpoints that a keepalive is sent to. *)
Fixpoint merge_peers (es : list endpoint) (now : Z) (c : peer_container) : list endpoint * peer_container :=
  match es with
  | [] => ([], c)
  | e :: es =>
    let '(error, c) := reachout e now c in
    let '(sent, c) := merge_peers es now c in
    (if error then sent else e :: sent, c)
  end.

(** The visitor of a keepalive message. *)
Definition receive_keepalive (sender : udp_endpoint) (version : Z) (es : list endpoint) (now uninitialised : Z) (c : peer_container)
    : bool * list endpoint * peer_container :=
  let '(observed, c) := contacted sender version now uninitialised c in
  let '(sent, c) := merge_peers es now c in
  (observed, sent, c).

(** ** Queries *)

Definition size_sqrt (c : peer_container) : nat := Nat.sqrt_up (length (pc_peers c)).

(** Random samples; [draw] has the numbers that the random pool gives. *)
Fixpoint random_samples (count : nat) (draw : nat -> nat) (i n : nat) (c : peer_container) (r : gset endpoint) : option (gset endpoint) :=
  match n with
  | O => Some r
  | S n =>
    if (size r <? count)%nat then
      p ← pc_peers c !! draw i;
      random_samples count draw (S i) n c ({[pe_endpoint p]} ∪ r)
    else Some r
  end.

(** The rest of the set, from the index by [last_contact]. *)
Fixpoint fill_remainder (count : nat) (view : list peer_information) (r : gset endpoint) : gset endpoint :=
  match view with
  | [] => r
  | p :: view => if (size r <? count)%nat then fill_remainder count view ({[pe_endpoint p]} ∪ r) else r
  end.

Definition random_set (count : nat) (draw : nat -> nat) (view : list peer_information) (c : peer_container) : option (gset endpoint) :=
  r ← (match pc_peers c with [] => Some ∅ | _ => random_samples count draw 0 (count * 2) c ∅ end);
  Some (fill_remainder count view r).

(** [order] is the sequence in which the set is visited. *)
Definition random_fill (order : list endpoint) : option (list endpoint) :=
  _ ← assert (length order <=? 8)%nat;
  Some (order ++ replicate (8 - length order) (Endpoint 0 0)).

(** The ordered index by weight, greatest first. *)
Definition representatives (count : nat) (view : list peer_information) : list peer_information :=
  take count (filter (fun p => rep_weight p <> 0) view).

(** In the index by [last_contact] the elements from [lower_bound] on are those that are not
    below the cutoff. [true] says that the disconnect observer is called. *)
Definition purge_list (cutoff now : Z) (view : list peer_information) (c : peer_container) : list peer_information * bool * peer_container :=
  let result := filter (fun p => cutoff <= last_contact p) view in
  (result, bool_decide (result = []),
   PeerContainer (pc_self c)
     (with_attempt now <$> filter (fun p => cutoff <= last_contact p) (pc_peers c))
     (filter (fun '(_, t) => cutoff <= t) (pc_attempts c))).

(** The loop of [node::ongoing_keepalive]: the peers that a keepalive is sent to. *)
Definition period : Z := 60.
Fixpoint keepalive_targets (now : Z) (l : list peer_information) : list endpoint :=
  match l with
  | [] => []
  | p :: l => if period <? now - last_attempt p then pe_endpoint p :: keepalive_targets now l else []
  end.

(** The index by [last_rep_request]. *)
Definition rep_crawl (view : list peer_information) : list endpoint := pe_endpoint <$> take 10 view.

Definition rep_response (e : endpoint) (account weight now : Z) (c : peer_container) : bool * peer_container :=
  match find_peer e c with
  | None => (false, c)
  | Some p =>
    (rep_weight p <? weight,
     modify e (fun p => let p := with_rep_response now p in
                        if rep_weight p <? weight then with_weight weight account p else p) c)
  end.

Definition rep_request (e : endpoint) (now : Z) (c : peer_container) : peer_container :=
  match find_peer e c with
  | None => c
  | Some _ => modify e (with_rep_request now) c
  end.

(** The index by [last_bootstrap_attempt]. *)
Definition bootstrap_peer (now : Z) (view : list peer_information) (c : peer_container) : endpoint * peer_container :=
  match List.find (fun p => 5 <=? network_version p) view with
  | None => (Endpoint 0 0, c)
  | Some p => (pe_endpoint p, modify (pe_endpoint p) (with_bootstrap_attempt now) c)
  end.

(** ** Order of an index *)

Definition view_by (key : peer_information -> Z) (c : peer_container) (view : list peer_information) : Prop :=
  view ≡ₚ pc_peers c /\ Sorted (fun p q => key p <= key q) view.

(** ** Invariant *)

Definition endpoints (c : peer_container) : list endpoint := pe_endpoint <$> pc_peers c.

Record peers_ok (c : peer_container) : Prop := {
  ok_unique : NoDup (endpoints c);
  ok_peers p : p ∈ pc_peers c -> not_a_peer c (pe_endpoint p) = false /\ protocol_version_min <= network_version p;
  ok_attempts e : is_Some (pc_attempts c !! e) -> not_a_peer c e = false
}.

Inductive peer_step : peer_container -> peer_container -> Prop :=
| step_contacted e version now u c : peer_step c (snd (contacted e version now u c))
| step_insert e version now u c : peer_step c (snd (insert_peer e version now u c))
| step_keepalive sender version es now u c : peer_step c (snd (receive_keepalive sender version es now u c))
| step_purge cutoff now view c : peer_step c (snd (purge_list cutoff now view c))
| step_rep_response e account weight now c : peer_step c (snd (rep_response e account weight now c))
| step_rep_request e now c : peer_step c (rep_request e now c)
| step_bootstrap now view c : peer_step c (snd (bootstrap_peer now view c)).

Lemma find_peer_Some e c p : find_peer e c = Some p -> p ∈ pc_peers c /\ pe_endpoint p = e.
Proof. intros [Hin He]%find_some. split; [by apply list_elem_of_In|by apply bool_decide_eq_true in He]. Qed.

Lemma find_peer_None e c : find_peer e c = None -> e ∉ endpoints c.
Proof.
  intros Hf (p & -> & Hp)%list_elem_of_fmap. apply list_elem_of_In in Hp.
  pose proof (find_none _ _ Hf _ Hp) as H. by apply bool_decide_eq_false in H.
Qed.

Lemma known_peer_spec e c : known_peer e c = true <-> e ∈ endpoints c.
Proof.
  unfold known_peer. rewrite bool_decide_eq_true. split.
  - intros [p Hp]. apply find_peer_Some in Hp as [Hp <-]. by apply list_elem_of_fmap_2.
  - intros He. destruct (find_peer e c) eqn:Hf; [done|]. by apply find_peer_None in Hf.
Qed.

(** A change of a peer that keeps its endpoint and version. *)
Lemma modify_endpoints e f c : (forall p, pe_endpoint (f p) = pe_endpoint p) -> endpoints (modify e f c) = endpoints c.
Proof.
  intros Hf. unfold endpoints, modify. cbn [pc_peers set_peers]. rewrite <- list_fmap_compose. apply list_fmap_ext.
  intros i p _. cbn. by destruct (decide _).
Qed.

Lemma modify_ok e f c : (forall p, pe_endpoint (f p) = pe_endpoint p) -> (forall p, network_version (f p) = network_version p) ->
  peers_ok c -> peers_ok (modify e f c).
Proof.
  intros He Hv [HN HP HA]. split; [by rewrite modify_endpoints| |done].
  intros q (p & -> & Hp)%list_elem_of_fmap. specialize (HP p Hp). destruct (decide _); [|done]. by rewrite He, Hv.
Qed.

Lemma insert_peer_ok e version now u c : peers_ok c -> peers_ok (snd (insert_peer e version now u c)).
Proof.
  intros H. unfold insert_peer. destruct (not_a_peer c e) eqn:Hn; [done|].
  destruct (Z.leb_spec protocol_version_min version) as [Hv|Hv]; [|done].
  destruct (find_peer e c) eqn:Hf; [by apply modify_ok|]. apply find_peer_None in Hf. destruct H as [HN HP HA]. split; cbn.
  - unfold endpoints. cbn. rewrite fmap_app. apply NoDup_app. split; [done|]. split; [|apply NoDup_singleton].
    intros x Hx ->%list_elem_of_singleton. done.
  - intros p [Hp| ->%list_elem_of_singleton]%elem_of_app; [by apply HP|done].
  - done.
Qed.

Lemma reachout_spec e now c :
  let '(error, c') := reachout e now c in
  pc_self c' = pc_self c /\ pc_peers c' = pc_peers c
  /\ (error = false <-> not_a_peer c e = false /\ (e ∉ endpoints c) /\ pc_attempts c !! e = None)
  /\ (forall x, is_Some (pc_attempts c' !! x) <-> is_Some (pc_attempts c !! x) \/ (x = e /\ not_a_peer c e = false)).
Proof.
  unfold reachout. destruct (not_a_peer c e) eqn:Hn.
  { split; [done|]. split; [done|]. split; [naive_solver|]. intros x. naive_solver. }
  assert ((known_peer e c = false) <-> (e ∉ endpoints c)) as Hk by (rewrite <- known_peer_spec; by destruct (known_peer e c)).
  destruct (pc_attempts c !! e) as [t|] eqn:Ha; cbn [pc_self pc_peers pc_attempts]; (split; [done|]); (split; [done|]).
  - rewrite bool_decide_true by done. rewrite orb_true_r. split; [split; [done|naive_solver]|]. intros x. split; [by left|].
    intros [?|[-> _]]; [done|]. by rewrite Ha.
  - rewrite bool_decide_false by (intros [? [=]]). rewrite orb_false_r, Hk. split; [naive_solver|]. intros x.
    destruct (decide (x = e)) as [->|Hne]; [rewrite lookup_insert_eq; naive_solver|rewrite lookup_insert_ne by done; naive_solver].
Qed.

Lemma not_a_peer_self c c' e : pc_self c' = pc_self c -> not_a_peer c' e = not_a_peer c e.
Proof. intros H. unfold not_a_peer. by rewrite H. Qed.

(** What [merge_peers] sends to, and what it leaves. *)
Lemma merge_peers_spec es now c :
  let '(sent, c') := merge_peers es now c in
  pc_self c' = pc_self c /\ pc_peers c' = pc_peers c /\ NoDup sent
  /\ (forall e, e ∈ sent <-> e ∈ es /\ not_a_peer c e = false /\ (e ∉ endpoints c) /\ pc_attempts c !! e = None)
  /\ (forall e, is_Some (pc_attempts c' !! e) <-> is_Some (pc_attempts c !! e) \/ (e ∈ es /\ not_a_peer c e = false)).
Proof.
  revert c. induction es as [|e es IH]; intros c; cbn [merge_peers].
  { split_and!; try done; [apply NoDup_nil_2|intros x; set_solver..]. }
  pose proof (reachout_spec e now c) as Hr. destruct (reachout e now c) as [error c1]. destruct Hr as (Hs1 & Hp1 & He & Ha1).
  specialize (IH c1). destruct (merge_peers es now c1) as [sent c2]. destruct IH as (Hs2 & Hp2 & Hnd & Hsent & Ha2).
  assert (endpoints c1 = endpoints c) as Hep by (unfold endpoints; by rewrite Hp1).
  assert (forall x, not_a_peer c1 x = not_a_peer c x) as Hna by (intros; by apply not_a_peer_self).
  assert (forall x, pc_attempts c1 !! x = None <-> pc_attempts c !! x = None /\ ~ (x = e /\ not_a_peer c e = false)) as Hno.
  { intros x. rewrite !eq_None_not_Some, Ha1. naive_solver. }
  split; [congruence|]. split; [congruence|].
  assert (e ∉ sent \/ error = true) as Hnew.
  { destruct error; [by right|left]. destruct (proj1 He eq_refl) as (H1 & _). intros (_ & _ & _ & Hx)%Hsent. apply Hno in Hx. naive_solver. }
  split_and!.
  - destruct error; [done|]. constructor; [|done]. by destruct Hnew.
  - intros x. destruct (decide (x = e)) as [->|Hne].
    + destruct error; rewrite ?elem_of_cons, Hsent, Hna, Hep, Hno; naive_solver.
    + destruct error; rewrite ?elem_of_cons, Hsent, Hna, Hep, Hno; set_solver.
  - intros x. rewrite Ha2, Ha1, Hna, elem_of_cons. naive_solver.
Qed.

Lemma merge_peers_ok es now c : peers_ok c -> peers_ok (snd (merge_peers es now c)).
Proof.
  intros [HN HP HA]. pose proof (merge_peers_spec es now c) as H. destruct (merge_peers es now c) as [sent c'].
  destruct H as (Hs & Hp & _ & _ & Ha). cbn. assert (forall x, not_a_peer c' x = not_a_peer c x) as Hna by (intros; by apply not_a_peer_self).
  split; unfold endpoints; rewrite ?Hp; [done|setoid_rewrite Hna; done|]. intros e. rewrite Ha, Hna. intros [?|[_ ?]]; [by apply HA|done].
Qed.

Lemma contacted_ok e version now u c : peers_ok c -> peers_ok (snd (contacted e version now u c)).
Proof.
  intros H. unfold contacted. pose proof (insert_peer_ok (to_v6 e) version now u c H). by destruct (insert_peer _ _ _ _ _) as [[? ?] ?].
Qed.

Lemma purge_ok cutoff now view c : peers_ok c -> peers_ok (snd (purge_list cutoff now view c)).
Proof.
  intros [HN HP HA]. split; cbn.
  - unfold endpoints. cbn. rewrite <- list_fmap_compose. eapply sublist_NoDup; [exact HN|]. apply (fmap_sublist pe_endpoint), sublist_filter.
  - intros q (p & -> & [_ Hp]%list_elem_of_filter)%list_elem_of_fmap. by apply (HP p).
  - intros e [t [Ht _]%map_lookup_filter_Some]. by apply HA.
Qed.

Lemma peer_step_ok c c' : peer_step c c' -> peers_ok c -> peers_ok c'.
Proof.
  intros Hs H. destruct Hs.
  - by apply contacted_ok.
  - by apply insert_peer_ok.
  - unfold receive_keepalive. pose proof (contacted_ok sender version now u c H) as H1. destruct (contacted _ _ _ _ _) as [o c1].
    pose proof (merge_peers_ok es now c1 H1) as H2. by destruct (merge_peers _ _ _) as [s c2].
  - by apply purge_ok.
  - unfold rep_response. destruct (find_peer _ _); [|done]. apply modify_ok; [| |done]; intros q; cbn; by case_match.
  - unfold rep_request. destruct (find_peer _ _); [|done]. by apply modify_ok.
  - unfold bootstrap_peer. destruct (List.find _ _); [|done]. by apply modify_ok.
Qed.

(** C31. In every container that the operations reach, no endpoint occurs twice, and neither the
    peers nor the recorded attempts have the own, an unspecified or a reserved address;
    peers speak a version that is supported. *)
Theorem peers_reachable_ok self c : rtc peer_step (peer_container_init self) c -> peers_ok c.
Proof.
  intros Hr. assert (peers_ok (peer_container_init self)) as H0.
  { split; cbn; [apply NoDup_nil_2|by intros p ?%elem_of_nil|intros e [t Ht]; by rewrite lookup_empty in Ht]. }
  revert H0. induction Hr as [|c1 c2 c3 Hs _ IH]; [done|]. intros H. apply IH. by eapply peer_step_ok.
Qed.

(** Merging the peers of a keepalive message sends one keepalive to each endpoint that can
    be a peer, is not one yet and was not tried before, and none when the same endpoints
    come again before a purge. *)
Theorem merge_peers_once es now now' c :
  let '(sent, c') := merge_peers es now c in
  NoDup sent
  /\ (forall e, e ∈ sent <-> e ∈ es /\ not_a_peer c e = false /\ (e ∉ endpoints c) /\ pc_attempts c !! e = None)
  /\ fst (merge_peers es now' c') = [].
Proof.
  pose proof (merge_peers_spec es now c) as H. destruct (merge_peers es now c) as [sent c'].
  destruct H as (Hs & Hp & Hnd & Hsent & Ha). split; [done|]. split; [done|].
  pose proof (merge_peers_spec es now' c') as H. destruct (merge_peers es now' c') as [sent' c''].
  destruct H as (_ & _ & _ & Hsent' & _). cbn. destruct sent' as [|e sent']; [done|]. exfalso.
  destruct (proj1 (Hsent' e) ltac:(left)) as (He & Hn & _ & Hno). rewrite (not_a_peer_self c c') in Hn by done.
  assert (is_Some (pc_attempts c' !! e)) as [t Ht] by (apply Ha; by right). congruence.
Qed.
End peers.
