(* ===== verification/PeerChoice.v ===== *)
(** * PeerChoice: which peers are chosen

    What the random sets, the list of representatives, the choice of a bootstrap peer and
    the purge of [Peers] return, and examples of what the code does not do. *)

From stdpp Require Import base list option tactics gmap sorting.
From Stdlib Require Import ZArith Lia.
From S2P Require Import Prelude Messages Peers.
#[local] Open Scope Z_scope.

Section choice.
Context `{N0 : Network}.

(** ** Random sets *)

Lemma size_add (x : endpoint) (r : gset endpoint) : (size r <= size ({[x]} ∪ r) <= S (size r))%nat.
Proof.
  destruct (decide (x ∈ r)) as [Hx|Hx].
  - rewrite subseteq_union_1_L by set_solver. lia.
  - rewrite size_union, size_singleton by set_solver. lia.
Qed.

Lemma samples_spec count draw c n i r : (forall j, draw j < length (pc_peers c))%nat ->
  (size r <= count)%nat -> (forall x, x ∈ r -> x ∈ endpoints c) ->
  exists r', random_samples count draw i n c r = Some r' /\ (size r' <= count)%nat /\ forall x, x ∈ r' -> x ∈ endpoints c.
Proof.
  intros Hd. revert i r. induction n as [|n IH]; intros i r Hs Hr; cbn [random_samples]; [by exists r|].
  destruct (Nat.ltb_spec (size r) count) as [Hlt|_]; [|by exists r].
  destruct (lookup_lt_is_Some_2 (pc_peers c) (draw i) (Hd i)) as [p Hp]. rewrite Hp. cbn [mbind option_bind].
  apply IH; [pose proof (size_add (pe_endpoint p) r); lia|]. intros x [->%elem_of_singleton|Hx]%elem_of_union; [|by apply Hr].
  apply list_elem_of_fmap_2. by apply list_elem_of_lookup_2 in Hp.
Qed.

Lemma fill_spec count view r : (size r <= count)%nat ->
  let r' := fill_remainder count view r in
  (size r' <= count)%nat /\ (forall x, x ∈ r' -> x ∈ r \/ x ∈ pe_endpoint <$> view) /\ r ⊆ r'
  /\ (size r' = count \/ forall x, x ∈ pe_endpoint <$> view -> x ∈ r').
Proof.
  revert r. induction view as [|p view IH]; intros r Hs; cbn [fill_remainder].
  { split; [done|]. split; [by left|]. split; [done|]. right. by intros x ?%elem_of_nil. }
  destruct (Nat.ltb_spec (size r) count) as [Hlt|Hge].
  - destruct (IH ({[pe_endpoint p]} ∪ r)) as (H1 & H2 & H3 & H4); [pose proof (size_add (pe_endpoint p) r); lia|].
    split; [done|]. split; [|split; [set_solver|]].
    + intros x Hx. rewrite fmap_cons, elem_of_cons. apply H2 in Hx. set_solver.
    + destruct H4 as [?|H4]; [by left|right]. intros x. rewrite fmap_cons, elem_of_cons. intros [->|?]; [set_solver|by apply H4].
  - split; [done|]. split; [by left|]. split; [done|]. left. lia.
Qed.

(** [random_set] never reads past the peers and gives as many distinct peers as are asked
    for, or all of them when there are fewer; the numbers of the random pool do not
    matter. *)
Theorem random_set_spec count draw view c : peers_ok c -> view ≡ₚ pc_peers c ->
  (pc_peers c <> [] -> forall j, draw j < length (pc_peers c))%nat ->
  exists r, random_set count draw view c = Some r /\ size r = Nat.min count (length (pc_peers c))
    /\ forall x, x ∈ r -> x ∈ endpoints c.
Proof.
  intros Hok Hv Hd. unfold random_set.
  assert (exists r, (match pc_peers c with [] => Some ∅ | _ => random_samples count draw 0 (count * 2) c ∅ end) = Some r
    /\ (size r <= count)%nat /\ forall x, x ∈ r -> x ∈ endpoints c) as (r & -> & Hs & Hr).
  { destruct (pc_peers c) as [|p l] eqn:Hl; [exists ∅; rewrite size_empty; split; [done|]; split; [lia|set_solver]|].
    apply samples_spec; [rewrite Hl; by apply Hd|rewrite size_empty; lia|set_solver]. }
  cbn [mbind option_bind]. destruct (fill_spec count view r Hs) as (H1 & H2 & _ & H4). eexists. split; [done|].
  set (r' := fill_remainder count view r) in *.
  assert (forall x, x ∈ r' -> x ∈ endpoints c) as Hin.
  { intros x [?|Hx]%H2; [by apply Hr|]. unfold endpoints. by rewrite <- Hv. }
  split; [|done]. pose proof (size_list_to_set (C := gset endpoint) _ (ok_unique c Hok)) as Hlen. unfold endpoints in Hlen at 2.
  rewrite length_fmap in Hlen. assert (size r' <= length (pc_peers c))%nat as Hle.
  { rewrite <- Hlen. apply subseteq_size. intros x Hx. by apply elem_of_list_to_set, Hin. }
  destruct H4 as [?|H4]; [lia|]. assert (length (pc_peers c) <= size r')%nat; [|lia].
  rewrite <- Hlen. apply subseteq_size. intros x Hx%elem_of_list_to_set. apply H4. unfold endpoints in Hx. by rewrite Hv.
Qed.

(** ** Representatives *)

Lemma filter_sorted {A} (R : A -> A -> Prop) (P : A -> Prop) `{forall x, Decision (P x)} (l : list A) :
  StronglySorted R l -> StronglySorted R (filter P l).
Proof.
  induction 1 as [|x l Hl IH Hx]; [constructor|]. rewrite filter_cons. destruct (decide (P x)); [|done]. constructor; [done|].
  apply Forall_forall. intros y [_ Hy]%list_elem_of_filter. by eapply Forall_forall in Hx.
Qed.

(** [representatives] gives the peers with the greatest known weights: as many as asked for
    unless all peers with a weight are listed, and no peer left out has more weight than
    one that is listed. *)
Theorem representatives_spec count view c : view_by (fun p => - rep_weight p) c view ->
  let r := representatives count view in
  length r = Nat.min count (length (filter (fun p => rep_weight p <> 0) (pc_peers c)))
  /\ (forall p, p ∈ r -> p ∈ pc_peers c /\ rep_weight p <> 0)
  /\ (forall p q, p ∈ r -> q ∈ drop count (filter (fun p => rep_weight p <> 0) view) -> rep_weight q <= rep_weight p).
Proof.
  intros [Hv Hs]. unfold representatives. cbv zeta. split; [by rewrite length_take, (Permutation_length (filter_Permutation _ _ _ Hv))|].
  pose proof (sublist_take (filter (fun p => rep_weight p <> 0) view) count) as Hv'. split.
  - intros p Hp. destruct (proj1 (list_elem_of_filter _ _ _) (elem_of_sublist _ _ _ Hp Hv')) as [? Hp']. by rewrite <- Hv.
  - intros p q Hp Hq. apply Sorted_StronglySorted in Hs; [|intros x y z ? ?; cbn in *; lia].
    assert (StronglySorted (fun p q => - rep_weight p <= - rep_weight q) (filter (fun p => rep_weight p <> 0) view)) as Hf.
    { apply filter_sorted. done. }
    rewrite <- (take_drop count) in Hf. pose proof (StronglySorted_app_1_elem_of _ _ _ p q Hf Hp Hq) as Hx. cbn in Hx. lia.
Qed.

(** ** Bootstrap peers *)

Definition eligible (p : peer_information) : Prop := 5 <= network_version p.

#[global] Instance eligible_dec p : Decision (eligible p).
Proof. unfold eligible. apply _. Defined.

(** Successive calls of [bootstrap_peer] at growing times, with nothing between them. *)
Inductive bootstraps : Z -> peer_container -> list endpoint -> peer_container -> Prop :=
| bootstraps_nil t c : bootstraps t c [] c
| bootstraps_cons t t' c view e c' es c'' :
    t < t' -> view_by last_bootstrap_attempt c view -> bootstrap_peer t' view c = (e, c') ->
    bootstraps t' c' es c'' -> bootstraps t c (e :: es) c''.

(** The eligible peers that were not asked after the time [t0]. *)
Definition not_asked (t0 : Z) (c : peer_container) : list peer_information :=
  filter (fun p => 5 <= network_version p /\ last_bootstrap_attempt p <= t0) (pc_peers c).

Lemma find_least view p : Sorted (fun p q => last_bootstrap_attempt p <= last_bootstrap_attempt q) view ->
  p ∈ view -> eligible p ->
  exists q, List.find (fun p => 5 <=? network_version p) view = Some q /\ q ∈ view /\ eligible q
    /\ last_bootstrap_attempt q <= last_bootstrap_attempt p.
Proof.
  intros Hs%Sorted_StronglySorted Hp He; [|intros x y z ? ?; cbn in *; lia].
  induction Hs as [|x l Hl IH Hx]; [by apply elem_of_nil in Hp|]. cbn.
  destruct (Z.leb_spec 5 (network_version x)) as [Hv|Hv].
  - exists x. split; [done|]. split; [left|]. split; [done|]. apply elem_of_cons in Hp as [->|Hp]; [done|]. by eapply Forall_forall in Hx.
  - apply elem_of_cons in Hp as [->|Hp]; [unfold eligible in He; lia|]. destruct (IH Hp) as (q & -> & Hq & ?). exists q. split; [done|].
    split; [by right|done].
Qed.

Lemma not_asked_modify t0 t' e c : t0 < t' ->
  pe_endpoint <$> not_asked t0 (modify e (with_bootstrap_attempt t') c) = filter (fun x => x <> e) (pe_endpoint <$> not_asked t0 c).
Proof.
  intros Ht. unfold not_asked, modify. cbn [pc_peers set_peers]. induction (pc_peers c) as [|p l IH]; [done|].
  rewrite fmap_cons, !filter_cons. destruct (decide (pe_endpoint p = e)) as [He|He].
  - rewrite (decide_False (P := 5 <= network_version (with_bootstrap_attempt t' p) /\ _)) by (cbn; lia). rewrite IH.
    destruct (decide _); [|done]. rewrite fmap_cons, filter_cons, decide_False by (intros H; by apply H). done.
  - destruct (decide _); [|done]. rewrite !fmap_cons, filter_cons, decide_True by done. by rewrite IH.
Qed.

Lemma filter_ext_in {A} (P Q : A -> Prop) `{forall x, Decision (P x)} `{forall x, Decision (Q x)} (l : list A) :
  (forall x, x ∈ l -> P x <-> Q x) -> filter P l = filter Q l.
Proof.
  induction l as [|x l IH]; intros Hl; [done|]. rewrite !filter_cons, IH by (intros y Hy; apply Hl; by right).
  destruct (Hl x ltac:(left)) as [H1 H2]. destruct (decide (P x)), (decide (Q x)); tauto.
Qed.

Lemma length_remove (e : endpoint) l : NoDup l -> e ∈ l -> S (length (filter (fun x => x <> e) l)) = length l.
Proof.
  induction 1 as [|x l Hx Hl IH]; [by intros ?%elem_of_nil|]. rewrite elem_of_cons, filter_cons. intros [->|He].
  - rewrite decide_False by (intros H; by apply H). cbn. f_equal. f_equal. clear IH. induction Hl as [|y l Hy Hl IH]; [done|].
    rewrite filter_cons, decide_True by set_solver. by rewrite IH by set_solver.
  - rewrite decide_True by (intros ->; done). cbn. by rewrite IH.
Qed.

Lemma bootstraps_fresh t0 t c es c' : NoDup (endpoints c) -> t0 <= t -> bootstraps t c es c' ->
  (length es <= length (not_asked t0 c))%nat -> NoDup es /\ forall e, e ∈ es -> e ∈ pe_endpoint <$> not_asked t0 c.
Proof.
  intros HN Ht Hb. revert HN Ht. induction Hb as [|t t' c view e c1 es c2 Htt [Hv Hs] Hp _ IH]; intros HN Ht Hlen.
  { split; [apply NoDup_nil_2|by intros e ?%elem_of_nil]. }
  assert (exists p, p ∈ not_asked t0 c) as [p Hin].
  { destruct (not_asked t0 c) as [|p l]; [cbn in Hlen; lia|]. exists p. left. }
  apply list_elem_of_filter in Hin as [[Hel Hle] Hin]. rewrite <- Hv in Hin.
  destruct (find_least view p Hs Hin Hel) as (q & Hf & Hq & Heq & Hqle). unfold bootstrap_peer in Hp. rewrite Hf in Hp.
  injection Hp as <- <-. assert (pe_endpoint q ∈ pe_endpoint <$> not_asked t0 c) as Hqin.
  { apply list_elem_of_fmap_2, list_elem_of_filter. rewrite <- Hv. unfold eligible in *. split; [lia|done]. }
  assert (NoDup (pe_endpoint <$> not_asked t0 c)) as HNa.
  { eapply sublist_NoDup; [exact HN|]. apply fmap_sublist, sublist_filter. }
  pose proof (not_asked_modify t0 t' (pe_endpoint q) c ltac:(lia)) as Hm.
  destruct IH as [IHn IHe].
  - by rewrite modify_endpoints.
  - lia.
  - pose proof (length_remove _ _ HNa Hqin) as Hr. rewrite <- Hm, !length_fmap in Hr. cbn in Hlen. lia.
  - setoid_rewrite Hm in IHe. split.
    + constructor; [|done]. intros [H _]%IHe%list_elem_of_filter. done.
    + intros x [->|[_ ?]%IHe%list_elem_of_filter]%elem_of_cons; done.
Qed.

(** C32. Bootstrap peers are taken in turn: when no peer was asked after the time [t], as many
    calls as there are peers with a sufficient version ask each of them once. *)
Theorem bootstrap_round_robin t c es c' : peers_ok c -> (forall p, p ∈ pc_peers c -> last_bootstrap_attempt p <= t) ->
  bootstraps t c es c' -> length es = length (filter eligible (pc_peers c)) -> es ≡ₚ pe_endpoint <$> filter eligible (pc_peers c).
Proof.
  intros Hok Hbefore Hb Hlen. assert (not_asked t c = filter eligible (pc_peers c)) as Hna.
  { apply filter_ext_in. intros p Hp. unfold eligible. specialize (Hbefore p Hp). tauto. }
  destruct (bootstraps_fresh t t c es c' (ok_unique c Hok) ltac:(lia) Hb) as [Hnd Hin]; [by rewrite Hna, Hlen|].
  rewrite Hna in Hin. apply submseteq_length_Permutation.
  - apply NoDup_submseteq; done.
  - rewrite length_fmap. lia.
Qed.
End choice.

(** * The theorems on peers at concrete tables *)

Module PeerWitnesses.
#[export] Instance network : Network := rai_live_network.

Definition host (n : Z) : endpoint := Endpoint (mapped_from_v4_bytes (0x08080800 + n)) 7075.

(** Three peers make contact, the second one with an old version. *)
Definition peers_0 : peer_container := peer_container_init (host 0).
Definition peers_1 : peer_container := snd (contacted (udp_v4 0x08080801 7075) 11 10 0 peers_0).
Definition peers_2 : peer_container := snd (contacted (udp_v6 (host 2)) 7 20 0 peers_1).
Definition peers_3 : peer_container := snd (contacted (udp_v6 (host 3)) 11 30 0 peers_2).

Lemma peers_3_reached : rtc peer_step peers_0 peers_3.
Proof. do 3 (eapply rtc_l; [constructor|]). apply rtc_refl. Qed.

Lemma peers_reachable_ok_witness : peers_ok peers_3.
Proof. apply (peers_reachable_ok (host 0) peers_3). exact peers_3_reached. Defined.

Lemma peers_3_ok : peers_ok peers_3.
Proof.
  split.
  - apply (bool_decide_unpack _). by vm_compute.
  - intros p Hp. assert (Forall (fun p => not_a_peer peers_3 (pe_endpoint p) = false /\ protocol_version_min <= network_version p) (pc_peers peers_3)) as H.
    { apply (bool_decide_unpack _). by vm_compute. }
    by eapply Forall_forall in H.
  - intros e [t Ht]. by vm_compute in Ht.
Qed.

Lemma random_set_spec_witness :
  exists r, random_set 2 (fun _ => 2%nat) (pc_peers peers_3) peers_3 = Some r /\ size r = 2%nat /\ forall x, x ∈ r -> x ∈ endpoints peers_3.
Proof.
  apply (random_set_spec 2 (fun _ => 2%nat) (pc_peers peers_3) peers_3); [exact peers_3_ok|reflexivity|].
  intros _ j. vm_compute. lia.
Defined.

(** With little luck the rest of a random set is the peer that was heard of longest ago. *)
Example remainder_is_oldest :
  (fun r => (bool_decide (host 1 ∈ r), bool_decide (host 2 ∈ r), bool_decide (host 3 ∈ r)))
    <$> random_set 2 (fun _ => 2%nat) (pc_peers peers_3) peers_3 = Some (true, false, true).
Proof. vm_compute. reflexivity. Qed.

Lemma representatives_spec_witness :
  length (representatives 1 (pc_peers (snd (rep_response (host 1) 77 1000 40 peers_3)))) = 1%nat.
Proof.
  refine (proj1 (representatives_spec 1 _ (snd (rep_response (host 1) 77 1000 40 peers_3)) _)).
  split; [reflexivity|]. vm_compute. repeat constructor; discriminate.
Defined.

(** An order of the index by [last_bootstrap_attempt]. *)
Definition attempt_le (p q : peer_information) : Prop := last_bootstrap_attempt p <= last_bootstrap_attempt q.
#[export] Instance attempt_le_dec : RelDecision attempt_le.
Proof. intros p q. unfold attempt_le. apply _. Defined.
Definition sorted_view (c : peer_container) : list peer_information := merge_sort attempt_le (pc_peers c).

#[export] Instance attempt_le_total : Total attempt_le.
Proof. intros p q. unfold attempt_le. lia. Qed.

Lemma sorted_view_ok c : view_by last_bootstrap_attempt c (sorted_view c).
Proof.
  split; [apply merge_sort_Permutation|]. apply (Sorted_merge_sort attempt_le).
Qed.

Fixpoint bootstrap_run (times : list Z) (c : peer_container) : list endpoint * peer_container :=
  match times with
  | [] => ([], c)
  | t :: times =>
    let '(e, c) := bootstrap_peer t (sorted_view c) c in
    let '(es, c) := bootstrap_run times c in (e :: es, c)
  end.

Lemma bootstrap_run_ok t times c : Sorted Z.lt (t :: times) ->
  bootstraps t c (fst (bootstrap_run times c)) (snd (bootstrap_run times c)).
Proof.
  revert t c. induction times as [|t' times IH]; intros t c Hs; cbn [bootstrap_run]; [constructor|].
  apply Sorted_inv in Hs as [Hs Ht]. apply HdRel_inv in Ht.
  destruct (bootstrap_peer t' (sorted_view c) c) as [e c1] eqn:Hb. specialize (IH t' c1 Hs).
  destruct (bootstrap_run times c1) as [es c2]. by eapply bootstraps_cons; [|apply sorted_view_ok|..].
Qed.

(** Three calls ask the three peers. *)
Lemma bootstrap_round_robin_witness : fst (bootstrap_run [50; 60; 70] peers_3) ≡ₚ [host 1; host 2; host 3].
Proof.
  apply (bootstrap_round_robin 40 peers_3 _ (snd (bootstrap_run [50; 60; 70] peers_3))).
  - exact peers_3_ok.
  - intros p Hp. assert (Forall (fun p => last_bootstrap_attempt p <= 40) (pc_peers peers_3)) as H by (apply (bool_decide_unpack _); by vm_compute).
    by eapply Forall_forall in H.
  - apply bootstrap_run_ok. repeat constructor.
  - by vm_compute.
Defined.

(** ** Limits *)

(** Addresses of a multicast group and of a private network that are taken for peers. *)
Example multicast_not_reserved : reserved_address (Endpoint (0xff02 * 2 ^ 112 + 1) 7075) = false.
Proof. reflexivity. Qed.
Example unique_local_not_reserved : reserved_address (Endpoint (0xfd12 * 2 ^ 112 + 1) 7075) = false.
Proof. reflexivity. Qed.

(** A peer that was tried 100 seconds ago gets no keepalive when the index by [last_contact]
    has a new peer before it, and the purge notes an attempt all the same. *)
Definition peer_new : peer_information := PeerInformation (host 1) 1150 1150 0 0 0 0 0 11.
Definition peer_old : peer_information := PeerInformation (host 2) 1190 1100 0 0 0 0 0 11.
Example keepalive_skipped :
  let '(l, _, c) := purge_list 900 1200 [peer_new; peer_old] (PeerContainer (host 0) [peer_new; peer_old] ∅) in
  keepalive_targets 1200 l = [] /\ keepalive_targets 1200 [peer_old] = [host 2]
  /\ (last_attempt <$> pc_peers c) = [1200; 1200].
Proof. by vm_compute. Qed.
End PeerWitnesses.
