(* ===== verification/Bootstrap.v ===== *)
(** * Bootstrap: catching up with a peer

    The conversation of node/bootstrap.cpp. The server sends its frontiers, the chain of an
    account, or a range of blocks; the client compares the frontiers with its accounts,
    queues pulls and pushes, and reads the blocks that it asked for. Both sides are
    functions between the bytes of a connection and the state; a stream that ends early is
    a connection that breaks. Slow peers are judged by clocks, whose verdicts are
    arguments. *)

From stdpp Require Import base list option tactics gmap sorting.
From Stdlib Require Import ZArith Lia.
From S2P Require Import Prelude Blocks Common Stats Store Tables Visitors Ledger Work Messages.
#[local] Open Scope Z_scope.

(** ** Data *)

Record pull_info := PullInfo {
  pl_account : Z;
  pl_head : Z;
  pl_end : Z;
  pl_attempts : Z
}.

Record frontier_server := FrontierServer {
  fs_current : Z;
  fs_info : account_info
}.

(** [fc_pulls] and [fc_targets] are the fields [pulls] and [bulk_push_targets] of the attempt
    that the client belongs to. *)
Record frontier_client := FrontierClient {
  fc_current : Z;
  fc_info : account_info;
  fc_cost : Z;
  fc_pulls : list pull_info;
  fc_targets : list (Z * Z)
}.

(** The value of the promise: [frontier_failed] is [true]. *)
Inductive frontier_outcome :=
| frontier_done
| frontier_failed.

Record pull_server := PullServer {
  ps_current : Z;
  ps_end : Z
}.

(** What a client of a pull has when it is destroyed: the hash it expects next, the blocks
    it gave to the block processor, and whether the connection went back to the pool. *)
Record pull_result := PullResult {
  pr_expected : Z;
  pr_blocks : list block;
  pr_pooled : bool
}.

Inductive requeue :=
| requeue_front (p : pull_info)
| requeue_frontier_peer (p : pull_info)
| requeue_dropped.

Definition bulk_push_cost_limit : Z := 200.
Definition bootstrap_frontier_retry_limit : Z := 16.

(** [latest_begin]. *)
Definition latest_begin (s : store) (a : Z) : option (Z * account_info) :=
  k ← lower_bound (accounts s) a;
  i ← accounts s !! k;
  Some (k, i).

(** ** Frontiers, the server *)

Definition frontier_write (f : Z * Z) : stream := be_bytes 32 (fst f) ++ be_bytes 32 (snd f).
Definition frontier_read (s : stream) : option (Z * Z * stream) :=
  '(a, s) ← read_be 32 s;
  '(h, s) ← read_be 32 s;
  Some (a, h, s).

Definition frontier_next (s : store) (st : frontier_server) : frontier_server :=
  match latest_begin s (wrap 256 (fs_current st + 1)) with
  | Some (k, i) => FrontierServer k i
  | None => FrontierServer 0 (fs_info st)
  end.

(** Skipping accounts that were not modified within [age] seconds. *)
Fixpoint skip_old (fuel : nat) (now age : Z) (s : store) (st : frontier_server) : option frontier_server :=
  match fuel with
  | O => None
  | S fuel =>
    if negb (fs_current st =? 0) && (age <=? wrap 64 (now - ai_modified (fs_info st)))
    then skip_old fuel now age s (frontier_next s st)
    else Some st
  end.

Definition frontier_server_init (start age now : Z) (s : store) : option frontier_server :=
  let st := frontier_next s (FrontierServer (wrap 256 (start - 1)) (AccountInfo 0 0 0 0 0 0)) in
  if age =? 2 ^ 32 - 1 then Some st else skip_old (S (size (accounts s))) now age s st.

(** [send_next] until [send_finished]. *)
Fixpoint frontier_send (fuel : nat) (s : store) (st : frontier_server) : option (list (Z * Z)) :=
  match fuel with
  | O => None
  | S fuel =>
    if fs_current st =? 0 then Some [(0, 0)]
    else l ← frontier_send fuel s (frontier_next s st); Some ((fs_current st, ai_head (fs_info st)) :: l)
  end.

(** All that the server writes for a [frontier_req]. *)
Definition frontier_req_response (start age now : Z) (s : store) : option stream :=
  st ← frontier_server_init start age now s;
  l ← frontier_send (S (size (accounts s))) s st;
  Some (concat (frontier_write <$> l)).

(** ** Frontiers, the client *)

Definition client_next (s : store) (c : frontier_client) : frontier_client :=
  match latest_begin s (wrap 256 (fc_current c + 1)) with
  | Some (k, i) => FrontierClient k i (fc_cost c) (fc_pulls c) (fc_targets c)
  | None => FrontierClient 0 (fc_info c) (fc_cost c) (fc_pulls c) (fc_targets c)
  end.

Definition frontier_client_init (s : store) : frontier_client :=
  client_next s (FrontierClient 0 (AccountInfo 0 0 0 0 0 0) 0 [] []).

Definition unsynced (head end_ : Z) (c : frontier_client) : frontier_client :=
  if fc_cost c <? bulk_push_cost_limit then
    FrontierClient (fc_current c) (fc_info c) (wrap 64 (fc_cost c + (if end_ =? 0 then 2 else 1))) (fc_pulls c)
      (fc_targets c ++ [(head, end_)])
  else c.

Definition add_pull (p : pull_info) (c : frontier_client) : frontier_client :=
  FrontierClient (fc_current c) (fc_info c) (fc_cost c) (fc_pulls c ++ [p]) (fc_targets c).

Definition add_cost (n : Z) (c : frontier_client) : frontier_client :=
  FrontierClient (fc_current c) (fc_info c) (wrap 64 (fc_cost c + n)) (fc_pulls c) (fc_targets c).

(** The accounts before [account], or all that are left, which the peer does not have. *)
Fixpoint pass_accounts (fuel : nat) (s : store) (account : option Z) (c : frontier_client) : option frontier_client :=
  match fuel with
  | O => None
  | S fuel =>
    if negb (fc_current c =? 0) && (match account with Some a => fc_current c <? a | None => true end)
    then pass_accounts fuel s account (client_next s (unsynced (ai_head (fc_info c)) 0 c))
    else Some c
  end.

(** [received_frontier]; the result says whether it was the last one. *)
Definition received_frontier (s : store) (account latest : Z) (c : frontier_client) : option (bool * frontier_client) :=
  let fuel := S (size (accounts s)) in
  if account =? 0 then c ← pass_accounts fuel s None c; Some (true, c)
  else
    c ← pass_accounts fuel s (Some account) c;
    if fc_current c =? 0 then Some (false, add_pull (PullInfo account latest 0 0) c)
    else if account =? fc_current c then
      let head := ai_head (fc_info c) in
      let c :=
        if latest =? head then c
        else if block_exists s latest then unsynced head latest c
        else add_cost 5 (add_pull (PullInfo account latest head 0) c) in
      Some (false, client_next s c)
    else
      _ ← assert (account <? fc_current c);
      Some (false, add_pull (PullInfo account latest 0 0) c).

(** The frontiers that arrive; [slow n] says that the [n]-th comes too late. A failed request
    clears the pulls. *)
Fixpoint frontier_receive (fuel : nat) (slow : nat -> bool) (n : nat) (s : store) (i : stream) (c : frontier_client)
    : option (frontier_outcome * frontier_client) :=
  let failed := Some (frontier_failed, FrontierClient (fc_current c) (fc_info c) (fc_cost c) [] (fc_targets c)) in
  match fuel with
  | O => None
  | S fuel =>
    match frontier_read i with
    | None => failed
    | Some (account, latest, i) =>
      if slow n then failed
      else
        '(last, c) ← received_frontier s account latest c;
        if (last : bool) then Some (frontier_done, c) else frontier_receive fuel slow (S n) s i c
    end
  end.

Definition request_frontier (slow : nat -> bool) (s : store) (i : stream) : option (frontier_outcome * frontier_client) :=
  frontier_receive (S (length i)) slow 0 s i (frontier_client_init s).

(** ** Pulls, the server *)

Section pulls.
Context `{E0 : Env} `{W0 : WorkConfig}.

Definition set_current_end (start end_ : Z) (s : store) : option pull_server :=
  let end_ := if block_exists s end_ then end_ else 0 in
  match account_get s start with
  | None => Some (PullServer end_ end_)
  | Some info =>
    if end_ =? 0 then Some (PullServer (ai_head info) end_)
    else
      a ← account s end_;
      Some (PullServer (if a =? start then ai_head info else end_) end_)
  end.

Definition pull_get_next (s : store) (p : pull_server) : option block * pull_server :=
  if ps_current p =? ps_end p then (None, p)
  else
    match block_get s (ps_current p) with
    | Some b => (Some b, PullServer (if previous b =? 0 then ps_end p else previous b) (ps_end p))
    | None => (None, PullServer (ps_end p) (ps_end p))
    end.

Fixpoint pull_send (fuel : nat) (s : store) (p : pull_server) : option (list block) :=
  match fuel with
  | O => None
  | S fuel =>
    match pull_get_next s p with
    | (None, _) => Some []
    | (Some b, p) => l ← pull_send fuel s p; Some (b :: l)
    end
  end.

(** The byte that ends a sequence of blocks. *)
Definition no_block : stream := le_bytes 1 (block_type_code bt_not_a_block).

(** All that the server writes for a [bulk_pull]. *)
Definition bulk_pull_response (start end_ : Z) (s : store) : option stream :=
  p ← set_current_end start end_ s;
  l ← pull_send (S (S (blocks_total s))) s p;
  Some (concat (serialize_block <$> l) ++ no_block).

(** ** Pulls, the client *)

Inductive incoming :=
| incoming_block (b : block) (i : stream)
| incoming_end
| incoming_error.

(** [receive_block], [received_type] and the first half of [received_block]: a type, the bytes
    that the type needs, and a block with enough work. The server of pushes reads alike. *)
Definition block_receive (i : stream) : incoming :=
  match read_le 1 i with
  | None => incoming_error
  | Some (code, i) =>
    match block_type_of_code code with
    | bt_not_a_block => incoming_end
    | bt_invalid => incoming_error
    | type =>
      match read_bytes (Z.to_nat (block_size type)) i with
      | None => incoming_error
      | Some (bytes, i) =>
        match deserialize_block_typed type bytes with
        | Some (b, _) => if work_validate_block b then incoming_error else incoming_block b i
        | None => incoming_error
        end
      end
    end
  end.

(** [received_block] and the blocks after it. The flags [pending_stop] and [hard_stop n], after
    [n] blocks, stop a slow connection. *)
Fixpoint pull_receive (fuel : nat) (pending_stop : bool) (hard_stop : nat -> bool) (end_ expected : Z) (n : nat) (i : stream)
    : option pull_result :=
  match fuel with
  | O => None
  | S fuel =>
    match block_receive i with
    | incoming_error => Some (PullResult expected [] false)
    | incoming_end => Some (PullResult expected [] (negb pending_stop && (expected =? end_)))
    | incoming_block b i =>
      let expected := if hash b =? expected then previous b else expected in
      r ← (if hard_stop n then Some (PullResult expected [] false)
           else pull_receive fuel pending_stop hard_stop end_ expected (S n) i);
      Some (PullResult (pr_expected r) (b :: pr_blocks r) (pr_pooled r))
    end
  end.

Definition bulk_pull_client (pending_stop : bool) (hard_stop : nat -> bool) (p : pull_info) (i : stream) : option pull_result :=
  pull_receive (S (length i)) pending_stop hard_stop (pl_end p) (pl_head p) 0 i.

(** The destructor: the pull that is queued again. *)
Definition pull_again (p : pull_info) (r : pull_result) : option pull_info :=
  if pr_expected r =? pl_end p then None
  else Some (PullInfo (pl_account p) (pr_expected r) (pl_end p) (pl_attempts p)).

(** [requeue_pull]; the pull goes to the peer of the frontiers if that connection is alive. *)
Definition requeue_pull (alive : bool) (p : pull_info) : requeue :=
  let again n := PullInfo (pl_account p) (pl_head p) (pl_end p) n in
  let n := wrap 32 (pl_attempts p + 1) in
  if n <? bootstrap_frontier_retry_limit then requeue_front (again n)
  else if n =? bootstrap_frontier_retry_limit then
    if alive then requeue_frontier_peer (again (wrap 32 (n + 1))) else requeue_dropped
  else requeue_dropped.

(** ** Pushes *)

(** [bulk_push_client::push]: the blocks from each target down to its end; targets are taken
    from the back. *)
Fixpoint push_send (fuel : nat) (s : store) (targets : list (Z * Z)) (current : Z * Z) : option (list block) :=
  match fuel with
  | O => None
  | S fuel =>
    let next :=
      if (fst current =? 0) || (fst current =? snd current)
      then t ← last targets; Some (t, removelast targets)
      else Some (current, targets) in
    match next with
    | None => Some []
    | Some ((first, second), targets) =>
      match block_get s first with
      | None => push_send fuel s targets (0, second)
      | Some b => l ← push_send fuel s targets (previous b, second); Some (b :: l)
      end
    end
  end.

(** [bulk_push_server]: the blocks that are processed, and whether the sequence was ended. *)
Fixpoint push_receive (fuel : nat) (i : stream) : option (list block * bool) :=
  match fuel with
  | O => None
  | S fuel =>
    match block_receive i with
    | incoming_error => Some ([], false)
    | incoming_end => Some ([], true)
    | incoming_block b i => '(l, ended) ← push_receive fuel i; Some (b :: l, ended)
    end
  end.
End pulls.

(** ** The attempt *)

(** One exchange of the shuffle in [bootstrap_attempt::run], and the loop from the last pull
    to the second; [draw i] is the number of the random pool between 0 and [i]. *)
Definition swap {A} (i k : nat) (l : list A) : option (list A) :=
  x ← l !! i;
  y ← l !! k;
  Some (<[k := x]> (<[i := y]> l)).

Fixpoint shuffle {A} (draw : nat -> nat) (i : nat) (l : list A) : option (list A) :=
  match i with
  | O => Some l
  | S i' => l ← swap i (draw i) l; shuffle draw i' l
  end.

(** * The requests of a bootstrap connection

    The other end of node/bootstrap.cpp: ranges of blocks and their checksum
    ([bulk_pull_blocks_server]), the queue of requests of a connection ([bootstrap_server])
    and the requests that the clients write. Requests are answered in the order of their
    arrival, so what a connection writes is a function of what it reads. *)

(** ** Ranges of blocks *)

Definition mode_list_blocks : Z := 0.
Definition mode_checksum_blocks : Z := 1.

(** [rs_stream] is the key under the cursor in the table of block information; [None] is its
    end. *)
Record range_server := RangeServer {
  rs_stream : option Z;
  rs_max_hash : Z;
  rs_sent_count : Z
}.

Definition set_params (min_hash max_hash : Z) (s : store) : range_server :=
  RangeServer (lower_bound (blocks_info s) min_hash) (if max_hash <? min_hash then min_hash else max_hash) 0.

Definition range_get_next (max_count : Z) (s : store) (r : range_server) : option block * range_server :=
  let out_of_bounds := negb (max_count =? 0) && (max_count <=? rs_sent_count r) in
  let sent := if max_count =? 0 then rs_sent_count r else wrap 32 (rs_sent_count r + 1) in
  let stay := RangeServer (rs_stream r) (rs_max_hash r) sent in
  if out_of_bounds then (None, stay)
  else
    match rs_stream r with
    | None => (None, stay)
    | Some current =>
      if current <? rs_max_hash r
      then (block_get s current, RangeServer (lower_bound (blocks_info s) (current + 1)) (rs_max_hash r) sent)
      else (None, stay)
    end.

Fixpoint range_send (fuel : nat) (max_count : Z) (s : store) (r : range_server) : option (list block) :=
  match fuel with
  | O => None
  | S fuel =>
    match range_get_next max_count s r with
    | (None, _) => Some []
    | (Some b, r) => l ← range_send fuel max_count s r; Some (b :: l)
    end
  end.

Section server.
Context `{E0 : Env} `{W0 : WorkConfig} `{N0 : Network}.

Definition blocks_checksum (l : list block) : Z := foldl (fun c b => Z.lxor c (hash b)) 0 l.

(** All that the server writes for a [bulk_pull_blocks]. *)
Definition bulk_pull_blocks_response (min_hash max_hash mode max_count : Z) (s : store) : option stream :=
  l ← range_send (S (size (blocks_info s))) max_count s (set_params min_hash max_hash s);
  Some ((if mode =? mode_list_blocks then concat (serialize_block <$> l)
         else if mode =? mode_checksum_blocks then no_block ++ be_bytes 32 (blocks_checksum l)
         else [])
        ++ no_block).

(** ** The connection *)

(** [request_response_visitor] without the pushes, which read from the connection. *)
Definition run_request (now : Z) (s : store) (m : message) : option stream :=
  match m with
  | frontier_req _ start age _ => frontier_req_response start age now s
  | bulk_pull _ start end_ => bulk_pull_response start end_ s
  | bulk_pull_blocks _ min_hash max_hash mode max_count => bulk_pull_blocks_response min_hash max_hash mode max_count s
  | _ => None
  end.

Inductive incoming_request :=
| received_request (m : message) (i : stream)
| received_push (i : stream)
| received_nothing.

(** [receive_header_action] and the actions that read the body of a request. *)
Definition receive_request (i : stream) : incoming_request :=
  let body r := match r with Some (m, i) => received_request m i | None => received_nothing end in
  match header_deserialize i with
  | None => received_nothing
  | Some (h, i) =>
    if mh_type h =? message_type_code mt_bulk_pull then body (bulk_pull_deserialize h i)
    else if mh_type h =? message_type_code mt_bulk_pull_blocks then body (bulk_pull_blocks_deserialize h i)
    else if mh_type h =? message_type_code mt_frontier_req then body (frontier_req_deserialize h i)
    else if mh_type h =? message_type_code mt_bulk_push then received_push i
    else received_nothing
  end.

(** What the connection writes, and the blocks that are pushed to it. Nothing is read after
    a push. *)
Fixpoint bootstrap_serve (fuel : nat) (now : Z) (s : store) (i : stream) : option (stream * list block) :=
  match fuel with
  | O => None
  | S fuel =>
    match receive_request i with
    | received_nothing => Some ([], [])
    | received_push i => '(l, _) ← push_receive (S (length i)) i; Some ([], l)
    | received_request m i =>
      out ← run_request now s m;
      '(rest, pushed) ← bootstrap_serve fuel now s i;
      Some (out ++ rest, pushed)
    end
  end.

Definition bootstrap_connection (now : Z) (s : store) (i : stream) : option (stream * list block) :=
  bootstrap_serve (S (length i)) now s i.

(** ** What the clients write *)

Definition frontier_req_run : stream :=
  frontier_req_serialize (header_init mt_frontier_req) 0 (2 ^ 32 - 1) (2 ^ 32 - 1).
Definition bulk_pull_request (p : pull_info) : stream :=
  bulk_pull_serialize (header_init mt_bulk_pull) (pl_account p) (pl_end p).
(** [start], [push] and [send_finished]: the blocks that [push_send] gives. *)
Definition bulk_push_start (l : list block) : stream :=
  bulk_push_serialize (header_init mt_bulk_push) ++ concat (serialize_block <$> l) ++ no_block.
Definition bulk_push_blocks (s : store) (targets : list (Z * Z)) : option (list block) :=
  push_send (S (length targets) * S (S (blocks_total s))) s targets (0, 0).
End server.
