(* ===== verification/BootstrapSync.v ===== *)
(** * BootstrapSync: what a comparison of frontiers finds

    The server of frontiers sends the accounts of its ledger from the first one asked for,
    in order, each with its head. The client walks through its own accounts beside them;
    what it queues is what a pass over the accounts of both ledgers, one by one, gives. *)

From stdpp Require Import base list option tactics gmap sorting.
From Stdlib Require Import ZArith Lia.
From S2P Require Import Prelude Blocks Common Stats Store Tables Visitors Ledger Work Messages Bootstrap.
#[local] Open Scope Z_scope.

(** ** Walks

    The accounts from [p] on, and where a walk over them stands. *)
Definition cursor (s : store) (ks : list Z) (current : Z) (info : account_info) : Prop :=
  match ks with
  | [] => current = 0
  | k :: _ => current = k /\ accounts s !! k = Some info
  end.

Lemma latest_begin_from s p :
  latest_begin s p = match from (accounts s) p with [] => None | k :: _ => i ← accounts s !! k; Some (k, i) end.
Proof. unfold latest_begin, lower_bound. fold (from (accounts s) p). by destruct (from _ _). Qed.

(** The accounts of a ledger that can be walked over: their keys are neither zero, which ends
    a walk, nor the last key, after which it starts again. *)
Definition accounts_ok (s : store) : Prop :=
  map_Forall (fun a i => 0 < a < 2 ^ 256 - 1 /\ in_width 256 (ai_head i)) (accounts s).

(** ** The server *)

(** The accounts [ks] with their heads. *)
Definition heads (s : store) (ks : list Z) : list (Z * Z) :=
  omap (fun k => i ← accounts s !! k; Some (k, ai_head i)) ks.

(** [ks] without the first accounts that are older than [age]. *)
Fixpoint drop_old (now age : Z) (s : store) (ks : list Z) : list Z :=
  match ks with
  | [] => []
  | k :: ks' =>
    match accounts s !! k with
    | Some i => if age <=? wrap 64 (now - ai_modified i) then drop_old now age s ks' else ks
    | None => ks
    end
  end.

(** What a [frontier_req] is answered with. *)
Definition frontiers_sent (start age now : Z) (s : store) : list (Z * Z) :=
  let ks := from (accounts s) start in
  heads s (if age =? 2 ^ 32 - 1 then ks else drop_old now age s ks) ++ [(0, 0)].

Section walks.
Context (s : store) (Hok : accounts_ok s).

Lemma from_ok p k : k ∈ from (accounts s) p -> 0 < k < 2 ^ 256 - 1.
Proof. intros [[i Hi] _]%from_elem. by destruct (Hok _ _ Hi). Qed.

(** One step of a walk. *)
Lemma walk_next p k ks i :
  from (accounts s) p = k :: ks -> accounts s !! k = Some i -> 
  match latest_begin s (wrap 256 (k + 1)) with Some (k', i') => cursor s ks k' i' | None => ks = [] end.
Proof.
  intros Hks Hi. destruct (Hok _ _ Hi) as [Hk _]. rewrite wrap_small by (unfold in_width; lia).
  rewrite latest_begin_from, <- (from_tail _ _ _ _ Hks). pose proof (from_tail _ _ _ _ Hks) as E. destruct ks as [|k' ks]; [done|].
  destruct (proj1 (from_elem (accounts s) (k + 1) k')) as [[i' Hi'] _]; [rewrite <- E; by left|]. rewrite Hi'. done.
Qed.

Lemma frontier_next_cursor p k ks st :
  from (accounts s) p = k :: ks -> cursor s (k :: ks) (fs_current st) (fs_info st) ->
  cursor s ks (fs_current (frontier_next s st)) (fs_info (frontier_next s st)).
Proof.
  intros Hks [Hc Hi]. unfold frontier_next. rewrite Hc. pose proof (walk_next _ _ _ _ Hks Hi) as Hn.
  destruct (latest_begin s _) as [[k' i']|]; [done|by subst].
Qed.

Lemma frontier_send_from fuel : forall p st,
  cursor s (from (accounts s) p) (fs_current st) (fs_info st) -> (length (from (accounts s) p) < fuel)%nat ->
  frontier_send fuel s st = Some (heads s (from (accounts s) p) ++ [(0, 0)]).
Proof.
  induction fuel as [|fuel IH]; intros p st Hc Hf; [lia|]. cbn [frontier_send].
  destruct (from (accounts s) p) as [|k ks] eqn:E; [by rewrite Hc|].
  pose proof (frontier_next_cursor _ _ _ _ E Hc) as Hn. destruct Hc as [Hc Hi].
  destruct (Hok _ _ Hi) as [Hk _]. rewrite Hc, (proj2 (Z.eqb_neq k 0)) by lia.
  rewrite (from_tail _ _ _ _ E) in Hn. rewrite (IH _ _ Hn) by (rewrite <- (from_tail _ _ _ _ E); cbn in Hf; lia).
  cbn [mbind option_bind]. rewrite <- (from_tail _ _ _ _ E). unfold heads. cbn [omap list_omap]. by rewrite Hi.
Qed.

Lemma drop_old_from now age p : exists q, drop_old now age s (from (accounts s) p) = from (accounts s) q.
Proof.
  remember (from (accounts s) p) as ks eqn:E. revert p E. induction ks as [|k ks IH]; intros p E; [by exists p|].
  cbn [drop_old]. destruct (accounts s !! k); [|by exists p]. case_match; [|by exists p].
  apply (IH (k + 1)). by eapply from_tail.
Qed.

Lemma skip_old_from now age fuel : forall p st,
  cursor s (from (accounts s) p) (fs_current st) (fs_info st) -> (length (from (accounts s) p) < fuel)%nat ->
  exists st', skip_old fuel now age s st = Some st'
    /\ cursor s (drop_old now age s (from (accounts s) p)) (fs_current st') (fs_info st').
Proof.
  induction fuel as [|fuel IH]; intros p st Hc Hf; [lia|]. cbn [skip_old].
  destruct (from (accounts s) p) as [|k ks] eqn:E; [exists st; by rewrite Hc|].
  pose proof (frontier_next_cursor _ _ _ _ E Hc) as Hn. pose proof Hc as [Hcur Hi]. cbn [drop_old].
  destruct (Hok _ _ Hi) as [Hk _]. rewrite Hcur, (proj2 (Z.eqb_neq k 0)), Hi by lia. cbn [negb andb].
  case_match; [|by exists st]. rewrite (from_tail _ _ _ _ E) in Hn |- *. apply IH; [done|].
  rewrite <- (from_tail _ _ _ _ E). cbn in Hf. lia.
Qed.

Lemma frontier_init_from start st :
  in_width 256 start -> st = frontier_next s (FrontierServer (wrap 256 (start - 1)) (AccountInfo 0 0 0 0 0 0)) ->
  cursor s (from (accounts s) start) (fs_current st) (fs_info st).
Proof.
  intros Hs ->. unfold frontier_next. cbn [fs_current fs_info]. rewrite wrap_add_l.
  replace (start - 1 + 1) with start by lia. rewrite wrap_small, latest_begin_from by done.
  destruct (from (accounts s) start) as [|k ks] eqn:E; [done|].
  destruct (proj1 (from_elem (accounts s) start k)) as [[i Hi] _]; [rewrite E; by left|]. by rewrite Hi.
Qed.

(** A [frontier_req] is answered, with the frontiers from the first account asked for; only
    the first ones are left out for their age. *)
Lemma frontier_response start age now :
  in_width 256 start -> frontier_req_response start age now s = Some (concat (frontier_write <$> frontiers_sent start age now s)).
Proof.
  intros Hs. unfold frontier_req_response, frontier_server_init, frontiers_sent.
  pose proof (frontier_init_from start _ Hs eq_refl) as Hc. set (st := frontier_next _ _) in *. cbv zeta.
  pose proof (from_length (accounts s) start) as Hl.
  destruct (age =? 2 ^ 32 - 1); cbn [mbind option_bind].
  - rewrite (frontier_send_from _ _ _ Hc) by lia. done.
  - destruct (skip_old_from now age (S (size (accounts s))) _ _ Hc) as (st' & -> & Hc'); [lia|].
    cbn [mbind option_bind]. destruct (drop_old_from now age start) as [q E]. rewrite E in Hc' |- *.
    pose proof (from_length (accounts s) q). by rewrite (frontier_send_from _ _ _ Hc') by lia.
Qed.
End walks.

(** ** The client *)

(** What is left to do for the account [k]: the pull of what the peer has, the push of what
    the peer lacks, and the cost of either. *)
Definition sync_account (s : store) (peer : gmap Z Z) (c : frontier_client) (k : Z) : frontier_client :=
  match accounts s !! k, peer !! k with
  | Some i, None => unsynced (ai_head i) 0 c
  | None, Some h => add_pull (PullInfo k h 0 0) c
  | Some i, Some h =>
    if h =? ai_head i then c
    else if block_exists s h then unsynced (ai_head i) h c
    else add_cost 5 (add_pull (PullInfo k h (ai_head i) 0) c)
  | None, None => c
  end.

(** What a client has queued, wherever it stands. *)
Definition queued (c : frontier_client) : Z * list pull_info * list (Z * Z) := (fc_cost c, fc_pulls c, fc_targets c).

Definition known {A} (m : gmap Z A) (ks : list Z) : list Z := filter (fun k => is_Some (m !! k)) ks.
Definition peer_heads (peer : gmap Z Z) (ks : list Z) : list (Z * Z) := omap (fun k => h ← peer !! k; Some (k, h)) ks.

Lemma queued_sync s peer c1 c2 k :
  queued c1 = queued c2 -> queued (sync_account s peer c1 k) = queued (sync_account s peer c2 k).
Proof.
  destruct c1, c2. unfold queued, sync_account, unsynced, add_cost, add_pull. cbn. intros [= -> -> ->].
  repeat case_match; done.
Qed.

Lemma queued_fold s peer ks : forall c1 c2,
  queued c1 = queued c2 -> queued (foldl (sync_account s peer) c1 ks) = queued (foldl (sync_account s peer) c2 ks).
Proof. induction ks as [|k ks IH]; [done|]. intros c1 c2 E. by apply IH, queued_sync. Qed.

Section client.
Context (s : store) (Hok : accounts_ok s) (peer : gmap Z Z).

Lemma queued_next c : queued (client_next s c) = queued c.
Proof. unfold client_next. by destruct (latest_begin s _) as [[]|]. Qed.

Lemma client_next_cursor p k ks c c' :
  from (accounts s) p = k :: ks -> cursor s (k :: ks) (fc_current c) (fc_info c) -> fc_current c' = fc_current c ->
  cursor s ks (fc_current (client_next s c')) (fc_info (client_next s c')).
Proof.
  intros Hks [Hc Hi] E. unfold client_next. rewrite E, Hc. pose proof (walk_next s Hok _ _ _ _ Hks Hi) as Hn.
  destruct (latest_begin s _) as [[k' i']|]; [done|by subst].
Qed.

Lemma unsynced_current h e c : fc_current (unsynced h e c) = fc_current c.
Proof. unfold unsynced. by case_match. Qed.

(** Passing accounts does not depend on the bound once it exceeds their number. *)
Lemma pass_accounts_fuel a f1 : forall f2 p c,
  cursor s (from (accounts s) p) (fc_current c) (fc_info c) ->
  (length (from (accounts s) p) < f1)%nat -> (length (from (accounts s) p) < f2)%nat ->
  pass_accounts f1 s a c = pass_accounts f2 s a c.
Proof.
  induction f1 as [|f1 IH]; intros [|f2] p c Hc H1 H2; [lia..|]. cbn [pass_accounts].
  destruct (from (accounts s) p) as [|k ks] eqn:E; [by rewrite Hc|].
  case_match; [|done]. apply (IH _ (k + 1)).
  - rewrite <- (from_tail _ _ _ _ E). by eapply client_next_cursor; [done..|apply unsynced_current].
  - rewrite <- (from_tail _ _ _ _ E). cbn in H1. lia.
  - rewrite <- (from_tail _ _ _ _ E). cbn in H2. lia.
Qed.

(** An account that comes before the next frontier is passed. *)
Lemma pass_first p k ks c a :
  from (accounts s) p = k :: ks -> cursor s (k :: ks) (fc_current c) (fc_info c) ->
  match a with Some a => k < a | None => True end ->
  pass_accounts (S (size (accounts s))) s a c
  = pass_accounts (S (size (accounts s))) s a (client_next s (unsynced (ai_head (fc_info c)) 0 c)).
Proof.
  intros E Hc Ha. pose proof (client_next_cursor _ _ _ _ _ E Hc (unsynced_current (ai_head (fc_info c)) 0 c)) as Hn.
  pose proof (from_length (accounts s) p) as Hl. rewrite E in Hl. cbn [length] in Hl.
  destruct Hc as [Hk Hi]. destruct (Hok _ _ Hi) as [Hk0 _]. set (R := pass_accounts _ s a (client_next _ _)). cbn [pass_accounts].
  rewrite Hk, (proj2 (Z.eqb_neq k 0)) by lia.
  assert (match a with Some a => k <? a | None => true end = true) as -> by (destruct a; [lia|done]). cbn [negb andb].
  subst R. rewrite (from_tail _ _ _ _ E) in Hn, Hl. apply (pass_accounts_fuel _ _ _ _ _ Hn); lia.
Qed.

(** Nothing is passed at or after the account of the frontier. *)
Lemma pass_none p c a :
  cursor s (from (accounts s) p) (fc_current c) (fc_info c) ->
  (forall k, k ∈ from (accounts s) p -> a <= k) -> pass_accounts (S (size (accounts s))) s (Some a) c = Some c.
Proof.
  intros Hc Ha. cbn [pass_accounts]. destruct (from (accounts s) p) as [|k ks]; [by rewrite Hc|].
  destruct Hc as [-> _]. specialize (Ha k ltac:(by left)). by rewrite (proj2 (Z.ltb_ge k a) Ha), andb_false_r.
Qed.

Lemma read_frontier a h i : in_width 256 a -> in_width 256 h -> frontier_read (frontier_write (a, h) ++ i) = Some (a, h, i).
Proof.
  intros Ha Hh. unfold frontier_read, frontier_write. cbn [fst snd]. rewrite <- app_assoc.
  rewrite read_be_bytes by done. cbn [mbind option_bind]. by rewrite read_be_bytes by done.
Qed.

(** [received_frontier] in each position of the walk. *)
Lemma received_pass p k ks c a l :
  from (accounts s) p = k :: ks -> cursor s (k :: ks) (fc_current c) (fc_info c) -> a = 0 \/ k < a ->
  received_frontier s a l c = received_frontier s a l (client_next s (unsynced (ai_head (fc_info c)) 0 c)).
Proof.
  intros E Hc Ha. unfold received_frontier. cbv zeta. destruct (Z.eqb_spec a 0) as [_|H0].
  - by rewrite (pass_first _ _ _ _ None E Hc).
  - by rewrite (pass_first _ _ _ _ (Some a) E Hc) by (destruct Ha; done).
Qed.

Lemma received_new p c a l :
  cursor s (from (accounts s) p) (fc_current c) (fc_info c) -> a <> 0 ->
  (forall k, k ∈ from (accounts s) p -> a < k) ->
  received_frontier s a l c = Some (false, add_pull (PullInfo a l 0 0) c).
Proof.
  intros Hc H0 Ha. unfold received_frontier. cbv zeta. rewrite (proj2 (Z.eqb_neq _ _) H0).
  rewrite (pass_none p) by (done || (intros k Hk; specialize (Ha _ Hk); lia)). cbn [mbind option_bind].
  destruct (from (accounts s) p) as [|k ks]; [by rewrite Hc|]. destruct Hc as [-> _].
  specialize (Ha k ltac:(by left)). rewrite (proj2 (Z.eqb_neq a k)) by lia. case_match; [done|].
  by rewrite (proj2 (Z.ltb_lt _ _) Ha).
Qed.

Lemma received_same p k ks c h :
  from (accounts s) p = k :: ks -> cursor s (k :: ks) (fc_current c) (fc_info c) -> peer !! k = Some h ->
  received_frontier s k h c = Some (false, client_next s (sync_account s peer c k)).
Proof.
  intros E Hc Hh. pose proof Hc as [Hk Hi]. destruct (Hok _ _ Hi) as [Hk0 _].
  unfold received_frontier, sync_account. rewrite Hi, Hh. cbv zeta. rewrite (proj2 (Z.eqb_neq k 0)) by lia.
  rewrite (pass_none p).
  - cbn [mbind option_bind]. by rewrite Hk, (proj2 (Z.eqb_neq k 0)), Z.eqb_refl by lia.
  - by rewrite E.
  - pose proof (from_sorted (accounts s) p) as Hs. rewrite E in Hs |- *. apply StronglySorted_inv in Hs as [_ Hs].
    rewrite Forall_forall in Hs. intros x [->|Hx]%elem_of_cons; [lia|]. specialize (Hs _ Hx). lia.
Qed.

Lemma sync_current c k : fc_current (sync_account s peer c k) = fc_current c.
Proof. unfold sync_account. repeat case_match; rewrite ?unsynced_current; done. Qed.

(** The frontiers after those of [ks] come after them. *)
Lemma next_frontier k ks : Forall (Z.lt k) ks ->
  match peer_heads peer ks ++ [(0, 0)] with (a, _) :: _ => a = 0 \/ k < a | [] => False end.
Proof.
  intros H1. induction H1 as [|x ks Hx H1 IH]; [by left|]. unfold peer_heads. cbn [omap list_omap].
  destruct (peer !! x) as [h|]; [by right|]. apply IH.
Qed.

Context (slow : nat -> bool) (Hslow : forall n, slow n = false).
Context (Hpeer : map_Forall (fun k h => 0 < k < 2 ^ 256 - 1 /\ in_width 256 h) peer).

Lemma receive_step fuel n a h i c :
  in_width 256 a -> in_width 256 h ->
  frontier_receive (S fuel) slow n s (frontier_write (a, h) ++ i) c =
  '(last, c) ← received_frontier s a h c;
  if (last : bool) then Some (frontier_done, c) else frontier_receive fuel slow (S n) s i c.
Proof. intros Ha Hh. cbn [frontier_receive]. by rewrite read_frontier, Hslow. Qed.

Lemma peer_heads_width ks a h fs : peer_heads peer ks ++ [(0, 0)] = (a, h) :: fs -> in_width 256 a /\ in_width 256 h.
Proof.
  intros E. assert ((a, h) ∈ peer_heads peer ks ++ [(0, 0)]) as H by (rewrite E; by left).
  apply elem_of_app in H as [H|H%list_elem_of_singleton].
  - apply list_elem_of_omap in H as (k & _ & (h' & Hk & [= -> ->])%bind_Some). destruct (Hpeer _ _ Hk). unfold in_width in *. lia.
  - simplify_eq. unfold in_width. lia.
Qed.

(** Frontiers that are received alike in two places are received alike. *)
Lemma receive_alike fuel n ks i c1 c2 :
  (forall a h fs, peer_heads peer ks ++ [(0, 0)] = (a, h) :: fs -> received_frontier s a h c1 = received_frontier s a h c2) ->
  frontier_receive (S fuel) slow n s (concat (frontier_write <$> peer_heads peer ks ++ [(0, 0)]) ++ i) c1
  = frontier_receive (S fuel) slow n s (concat (frontier_write <$> peer_heads peer ks ++ [(0, 0)]) ++ i) c2.
Proof.
  intros H. destruct (peer_heads peer ks ++ [(0, 0)]) as [|[a h] fs] eqn:E; [by destruct (peer_heads peer ks)|].
  destruct (peer_heads_width _ _ _ _ E). rewrite fmap_cons. cbn [concat]. rewrite <- app_assoc, !receive_step by done.
  by rewrite (H _ _ _ eq_refl).
Qed.

Lemma receive_all ks : forall fuel p c n i,
  StronglySorted Z.lt ks -> known (accounts s) ks = from (accounts s) p ->
  cursor s (from (accounts s) p) (fc_current c) (fc_info c) -> (length (peer_heads peer ks) < fuel)%nat ->
  exists c', frontier_receive fuel slow n s (concat (frontier_write <$> peer_heads peer ks ++ [(0, 0)]) ++ i) c
             = Some (frontier_done, c')
    /\ queued c' = queued (foldl (sync_account s peer) c ks).
Proof.
  induction ks as [|k ks IH]; intros [|fuel] p c n i Hs Ek Hc Hf; try (cbn in Hf; lia).
  { change (concat _ ++ i) with ((frontier_write (0, 0) ++ []) ++ i). rewrite app_nil_r, receive_step by (unfold in_width; lia).
    unfold received_frontier. rewrite Z.eqb_refl. rewrite <- Ek in Hc. cbn in Hc. cbn [pass_accounts]. rewrite Hc. eauto. }
  apply StronglySorted_inv in Hs as [Hs Hk]. unfold known in Ek. rewrite filter_cons in Ek.
  cbn [foldl]. unfold peer_heads in Hf |- *. cbn [omap list_omap] in Hf |- *. fold (peer_heads peer ks) in Hf |- *.
  case_decide as Hown.
  - destruct Hown as [oi Hoi]. symmetry in Ek. pose proof (from_tail _ _ _ _ Ek) as Et. rewrite Ek in Hc.
    pose proof (client_next_cursor _ _ _ _ _ Ek Hc (sync_current c k)) as Hn. rewrite Et in Hn.
    destruct (peer !! k) as [h|] eqn:Hh; cbn [mbind option_bind] in Hf |- *; cbn [length] in Hf.
    + destruct (Hpeer _ _ Hh) as [Hk0 Hhw]. rewrite <- app_comm_cons, fmap_cons. cbn [concat].
      rewrite <- app_assoc, receive_step by (done || (unfold in_width in *; lia)).
      rewrite (received_same _ _ _ _ _ Ek Hc Hh). cbn [mbind option_bind].
      destruct (IH fuel (k + 1) (client_next s (sync_account s peer c k)) (S n) i) as (c' & -> & Hq); [done..|lia|].
      exists c'. split; [done|]. rewrite Hq. apply queued_fold, queued_next.
    + destruct (IH (S fuel) (k + 1) (client_next s (sync_account s peer c k)) n i) as (c' & Hr & Hq); [done..|lia|].
      exists c'. split; [|rewrite Hq; apply queued_fold, queued_next]. rewrite <- Hr. apply receive_alike.
      intros a h fs E. pose proof (next_frontier k ks Hk) as Ha. rewrite E in Ha.
      rewrite (received_pass _ _ _ _ _ _ Ek Hc Ha). unfold sync_account. rewrite Hh, Hoi. destruct Hc as [_ Hci].
      rewrite Hoi in Hci. by injection Hci as ->.
  - assert (accounts s !! k = None) as Hno by (by apply eq_None_not_Some).
    destruct (peer !! k) as [h|] eqn:Hh; cbn [mbind option_bind] in Hf |- *; cbn [length] in Hf.
    + destruct (Hpeer _ _ Hh) as [Hk0 Hhw]. rewrite <- app_comm_cons, fmap_cons. cbn [concat].
      rewrite <- app_assoc, receive_step by (done || (unfold in_width in *; lia)).
      rewrite (received_new _ _ _ _ Hc) by (lia || (intros x; rewrite <- Ek; intros [_ Hx]%list_elem_of_filter;
        rewrite Forall_forall in Hk; by apply Hk)). cbn [mbind option_bind]. unfold sync_account at 2. rewrite Hno, Hh.
      apply (IH _ p); [done..|lia].
    + unfold sync_account at 2. rewrite Hno, Hh. apply (IH _ p); [done..|lia].
Qed.
End client.

(** ** What is queued *)

(** The pull and the push that the account [k] needs. *)
Definition wanted (s : store) (peer : gmap Z Z) (k : Z) : option pull_info :=
  h ← peer !! k;
  match accounts s !! k with
  | None => Some (PullInfo k h 0 0)
  | Some i => if (h =? ai_head i) || block_exists s h then None else Some (PullInfo k h (ai_head i) 0)
  end.
Definition offered (s : store) (peer : gmap Z Z) (k : Z) : option (Z * Z) :=
  i ← accounts s !! k;
  match peer !! k with
  | None => Some (ai_head i, 0)
  | Some h => if negb (h =? ai_head i) && block_exists s h then Some (ai_head i, h) else None
  end.

(** The accounts of both sides. *)
Definition both_accounts (s : store) (peer : gmap Z Z) : list Z :=
  ordered (gset_to_gmap tt (dom (accounts s) ∪ dom peer)).

Section queues.
Context (s : store) (peer : gmap Z Z).

Lemma sync_pulls c k : fc_pulls (sync_account s peer c k) = fc_pulls c ++ option_list (wanted s peer k).
Proof.
  unfold sync_account, wanted, unsynced, add_cost, add_pull. destruct (accounts s !! k) as [i|], (peer !! k) as [h|];
    cbn [mbind option_bind]; repeat case_match; cbn [fc_pulls option_list orb negb andb] in *; rewrite ?app_nil_r; done.
Qed.

Lemma fold_pulls ks : forall c, fc_pulls (foldl (sync_account s peer) c ks) = fc_pulls c ++ omap (wanted s peer) ks.
Proof.
  induction ks as [|k ks IH]; intros c; [by rewrite app_nil_r|]. cbn [foldl omap list_omap]. rewrite IH, sync_pulls, <- app_assoc.
  by destruct (wanted s peer k).
Qed.

(** One account: a target while the cost is below the limit, and a cost of at most five. *)
Lemma sync_targets c k :
  0 <= fc_cost c < 2 ^ 64 - 5 ->
  let c' := sync_account s peer c k in
  fc_cost c <= fc_cost c' <= fc_cost c + 5
  /\ (offered s peer k = None /\ fc_targets c' = fc_targets c
      \/ exists t, offered s peer k = Some t
        /\ (fc_cost c < bulk_push_cost_limit /\ fc_cost c < fc_cost c' /\ fc_targets c' = fc_targets c ++ [t]
            \/ bulk_push_cost_limit <= fc_cost c /\ fc_targets c' = fc_targets c)).
Proof.
  intros Hc. cbv zeta. unfold sync_account, offered, unsynced, add_cost, add_pull.
  destruct (accounts s !! k) as [i|], (peer !! k) as [h|]; cbn [mbind option_bind]; repeat case_match;
    cbn [fc_cost fc_targets negb andb] in *; rewrite ?wrap_small by (unfold in_width; lia); try done;
    (split; [lia|]); try (by left); right; eexists; (split; [done|]);
    first [left; split_and!; [lia|lia|done]|right; split; [lia|done]].
Qed.

Lemma fold_targets ks : forall c,
  0 <= fc_cost c -> fc_cost c + 5 * Z.of_nat (length ks) < 2 ^ 64 - 5 ->
  let c' := foldl (sync_account s peer) c ks in
  fc_cost c <= fc_cost c' /\ exists l, fc_targets c' = fc_targets c ++ l /\ l `prefix_of` omap (offered s peer) ks
    /\ (fc_cost c' < bulk_push_cost_limit -> l = omap (offered s peer) ks)
    /\ Z.of_nat (length l) <= Z.max 0 (bulk_push_cost_limit - fc_cost c).
Proof.
  induction ks as [|k ks IH]; intros c H0 Hc; cbv zeta.
  { cbn [foldl omap list_omap]. split; [lia|]. exists []. rewrite app_nil_r. split_and!; [done..|cbn; lia]. }
  cbn [length] in Hc. destruct (sync_targets c k) as [Hk Ht]; [lia|]. cbn [foldl omap list_omap].
  destruct (IH (sync_account s peer c k)) as (Hm & l & El & Hp & Hl & Hn); [lia..|]. split; [lia|].
  destruct Ht as [[-> Ht]|(t & -> & [(Hb & Hlt & Ht)|[Hb Ht]])]; rewrite El, Ht.
  - exists l. split_and!; [done..|lia].
  - exists (t :: l). rewrite <- app_assoc. split_and!; [done|by apply prefix_cons|intros; f_equal; auto|cbn; lia].
  - assert (l = []) as -> by (destruct l; [done|cbn in Hn; lia]). exists []. rewrite app_nil_r.
    split_and!; [done|apply prefix_nil|lia|cbn; lia].
Qed.

Lemma both_elem k : k ∈ both_accounts s peer <-> is_Some (accounts s !! k) \/ is_Some (peer !! k).
Proof.
  unfold both_accounts. rewrite ordered_elem, lookup_gset_to_gmap. destruct (decide (k ∈ dom (accounts s) ∪ dom peer)) as [H|H].
  - rewrite option_guard_True by done. cbn. split; [|by eauto]. intros _. by rewrite elem_of_union, !elem_of_dom in H.
  - rewrite option_guard_False by done. rewrite elem_of_union, !elem_of_dom in H. cbn. split; [by intros []|done].
Qed.

Lemma known_both {A} (m : gmap Z A) :
  (forall k, is_Some (m !! k) -> k ∈ both_accounts s peer) -> known m (both_accounts s peer) = ordered m.
Proof.
  intros H. apply strict_unique; [apply strict_filter, ordered_strict|apply ordered_strict|].
  intros k. unfold known. rewrite list_elem_of_filter, ordered_elem. split; [by intros [Hk _]|].
  intros Hk. split; [done|by apply H].
Qed.

Lemma both_length : (length (both_accounts s peer) <= size (accounts s) + size peer)%nat.
Proof.
  unfold both_accounts, ordered. rewrite merge_sort_Permutation, dom_gset_to_gmap. change (size (dom (accounts s) ∪ dom peer) <= size (accounts s) + size peer)%nat.
  rewrite size_union_alt, <- !size_dom. 
  pose proof (subseteq_size (dom peer ∖ dom (accounts s)) (dom peer) (subseteq_difference_l _ _ _ (reflexivity _))). lia.
Qed.

(** Accounts that [f] does not concern can be left out. *)
Lemma omap_known {A B} (m : gmap Z A) (f : Z -> option B) ks :
  (forall k, m !! k = None -> f k = None) -> omap f ks = omap f (known m ks).
Proof.
  intros Hf. induction ks as [|k ks IH]; [done|]. unfold known. rewrite filter_cons. case_decide as Hk.
  - cbn [omap list_omap]. by rewrite IH.
  - cbn [omap list_omap]. by rewrite Hf, IH by (by apply eq_None_not_Some).
Qed.
End queues.

(** ** Both sides *)

Section compare.
Context (sc ss : store) (Hsc : accounts_ok sc) (Hss : accounts_ok ss).
Context (slow : nat -> bool) (Hslow : forall n, slow n = false).
Local Abbreviation peer := (ai_head <$> accounts ss).
Local Abbreviation ks := (both_accounts sc peer).

Lemma peer_ok : map_Forall (fun k h => 0 < k < 2 ^ 256 - 1 /\ in_width 256 h) peer.
Proof. intros k h. rewrite lookup_fmap_Some. intros (i & <- & Hi). by apply Hss. Qed.

Lemma ordered_from s p : accounts_ok s -> p <= 1 -> from (accounts s) p = ordered (accounts s).
Proof. intros Hok Hp. apply from_ordered. intros k [i Hi]. destruct (Hok _ _ Hi). lia. Qed.

Lemma known_own : known (accounts sc) (both_accounts sc peer) = ordered (accounts sc).
Proof. apply known_both. intros k Hk. apply both_elem. by left. Qed.

Lemma known_peer : known peer (both_accounts sc peer) = ordered (accounts ss).
Proof.
  rewrite known_both by (intros k Hk; apply both_elem; by right). unfold ordered. by rewrite dom_fmap_L.
Qed.

Lemma heads_sent now : frontiers_sent 0 (2 ^ 32 - 1) now ss = peer_heads peer (both_accounts sc peer) ++ [(0, 0)].
Proof.
  unfold frontiers_sent. rewrite Z.eqb_refl, ordered_from by (done || lia). f_equal. unfold peer_heads.
  rewrite (omap_known peer) by (by intros k ->). rewrite known_peer. unfold heads.
  apply list_omap_ext, Forall2_same_length_lookup_2; [done|]. intros i x y Hx Hy. simplify_eq.
  rewrite lookup_fmap. by destruct (accounts ss !! x).
Qed.

Lemma frontiers_length l : length (concat (frontier_write <$> l)) = (64 * length l)%nat.
Proof.
  induction l as [|f l IH]; [done|]. rewrite fmap_cons. cbn [concat]. rewrite length_app, IH.
  unfold frontier_write. rewrite length_app, !be_bytes_length. cbn [length]. lia.
Qed.

(** A client at the start has nothing queued and stands at its first account. *)
Lemma init_queued : queued (frontier_client_init sc) = (0, [], []).
Proof. apply (queued_next sc). Qed.

Lemma init_cursor :
  cursor sc (from (accounts sc) 1) (fc_current (frontier_client_init sc)) (fc_info (frontier_client_init sc)).
Proof.
  unfold frontier_client_init, client_next. cbn [fc_current fc_info]. rewrite wrap_small by (unfold in_width; lia).
  change (0 + 1) with 1. rewrite latest_begin_from. destruct (from (accounts sc) 1) as [|k l] eqn:E; [done|].
  destruct (proj1 (from_elem (accounts sc) 1 k)) as [[j Hj] _]; [rewrite E; by left|]. by rewrite Hj.
Qed.

(** The client reads the frontiers of the server to the end. It has then queued the pulls of
    all accounts for which the server has a head unknown to it, in the order of the
    accounts, and pushes for what the server lacks, as far as the limit of their cost
    allows. *)
Lemma compared now i :
  Z.of_nat (size (accounts sc) + size (accounts ss)) < 2 ^ 60 ->
  exists c, request_frontier slow sc (concat (frontier_write <$> frontiers_sent 0 (2 ^ 32 - 1) now ss) ++ i) = Some (frontier_done, c)
    /\ fc_pulls c = omap (wanted sc peer) (ordered (accounts ss))
    /\ fc_targets c `prefix_of` omap (offered sc peer) (ordered (accounts sc))
    /\ (fc_cost c < bulk_push_cost_limit -> fc_targets c = omap (offered sc peer) (ordered (accounts sc)))
    /\ Z.of_nat (length (fc_targets c)) <= bulk_push_cost_limit.
Proof.
  intros Hsize. rewrite heads_sent.
  pose proof (both_length sc peer) as Hlen. rewrite map_size_fmap in Hlen.
  destruct (receive_all sc Hsc peer slow Hslow peer_ok ks
              (S (length (concat (frontier_write <$> peer_heads peer ks ++ [(0, 0)]) ++ i))) 1
              (frontier_client_init sc) 0 i) as (c & Hc & Hq).
  - apply ordered_strict.
  - by rewrite known_own, ordered_from.
  - apply init_cursor.
  - rewrite length_app, frontiers_length, length_app. cbn [length]. lia.
  - exists c. split; [done|]. pose proof (fold_pulls sc peer ks (frontier_client_init sc)) as Hp.
    pose proof init_queued as H0. unfold queued in Hq, H0. injection H0 as E1 E2 E3. injection Hq as Eq1 Eq2 Eq3.
    destruct (fold_targets sc peer ks (frontier_client_init sc)) as (_ & l & Ht & Hpre & Hall & Hn); [lia..|].
    rewrite E1 in Hn. rewrite Eq2, Hp, Eq3, Ht, Eq1, E2, E3. cbn [app].
    rewrite (omap_known (accounts sc) (offered sc peer)), known_own in Hpre, Hall by (intros k Hk; unfold offered; by rewrite Hk).
    rewrite (omap_known peer (wanted sc peer)), known_peer by (intros k Hk; unfold wanted; by rewrite Hk).
    split_and!; [done..|]. unfold bulk_push_cost_limit in *. lia.
Qed.
End compare.
