(* ===== verification/BootstrapPulls.v ===== *)
(** * BootstrapPulls: the blocks of a pull and of a push

    On a consistent ledger the server of pulls sends the blocks of an account from its head
    down to the end that was asked for, and the client that reads them expects nothing more.
    Requests on one connection are answered in their order; a push hands over the blocks
    that the client sends. *)

From stdpp Require Import base list option tactics gmap sorting.
From Stdlib Require Import ZArith Lia.
From S2P Require Import Prelude Blocks Common Stats Store Tables Visitors Ledger Work Messages Chain Balance LedgerInv Queries.
From S2P Require Import Tables Queries Bootstrap BootstrapSync.
#[local] Open Scope Z_scope.

(** ** The server of pulls *)

Section pull_server.
Context `{E0 : Env} `{T0 : Traffic} (K : Z) (D : Z -> Z) (G : gmap Z chain_info) (s : store).
Context (HI : ledger_inv K D G s).

Lemma pull_send_segment fuel : forall l h e,
  segment s h l e -> (length l < fuel)%nat -> pull_send fuel s (PullServer h e) = Some l.
Proof.
  induction fuel as [|fuel IH]; intros l h e Hs Hf; [lia|]. cbn [pull_send]. unfold pull_get_next. cbn [ps_current ps_end].
  destruct l as [|b l]; [cbn in Hs; by rewrite Hs, Z.eqb_refl|].
  pose proof (segment_fresh _ _ _ _ HI _ _ _ Hs) as [Hne _]%Forall_cons. destruct Hs as [Hb Hs].
  destruct (get_facts _ _ _ _ HI _ _ Hb) as (Hh & _). rewrite Hh in Hne.
  rewrite (proj2 (Z.eqb_neq _ _) Hne), Hb. cbn [length] in Hf.
  destruct (Z.eqb_spec (previous b) 0) as [E|E].
  - rewrite E in Hs. destruct (segment_zero _ _ _ _ HI _ _ Hs) as [-> ->]. rewrite (IH [] 0 0); [done|done|cbn; lia].
  - rewrite (IH l) by (done || lia). done.
Qed.

Lemma block_exists_facts h : block_exists s h = true <-> is_Some (G !! h).
Proof.
  rewrite block_exists_blocks, (chain_dom (li_chain HI)). destruct (blocks s !! h); split; eauto; [done|by intros []].
Qed.

(** The blocks that are sent: down to [end_] if it is a block of the account, all if no such
    block is known, none if it belongs to another account. *)
Definition pulled (a end_ : Z) (l : list block) : Prop :=
  exists i, accounts s !! a = Some i /\
  ((G !! end_ = None /\ segment s (ai_head i) l 0)
   \/ exists m, G !! end_ = Some m
      /\ (ci_account m = a /\ segment s (ai_head i) l end_ \/ ci_account m <> a /\ l = [])).

Lemma bulk_pull_sends a i end_ :
  accounts s !! a = Some i ->
  exists l, bulk_pull_response a end_ s = Some (concat (serialize_block <$> l) ++ no_block) /\ pulled a end_ l.
Proof.
  intros Hi. destruct (li_head HI _ _ Hi) as (hb & hm & Hhb & Hhm & Ha & _).
  pose proof (rk_total s G (li_chain HI) _ _ Hhm) as Hrk.
  assert (forall l e, segment s (ai_head i) l e ->
    pull_send (S (S (blocks_total s))) s (PullServer (ai_head i) e) = Some l) as Hsend.
  { intros l e Hl. destruct (segment_rank _ _ _ _ HI _ _ _ _ Hl Hhm) as [Hle _]. apply pull_send_segment; [done|lia]. }
  unfold bulk_pull_response, set_current_end. destruct (G !! end_) as [m|] eqn:Hm.
  - rewrite (proj2 (block_exists_facts end_)) by eauto. unfold account_get. rewrite Hi.
    destruct (facts_stored _ _ _ _ HI _ _ Hm) as (_ & _ & _ & _ & H0). rewrite (proj2 (Z.eqb_neq _ _) H0).
    rewrite (account_of _ _ _ _ HI _ _ Hm). cbn [mbind option_bind]. destruct (Z.eqb_spec (ci_account m) a) as [E|E].
    + destruct (segment_head _ _ _ _ HI end_ m i Hm) as [l Hl]; [by rewrite E|]. rewrite (Hsend _ _ Hl). exists l.
      split; [done|]. exists i. eauto 10.
    + exists []. split; [|exists i; eauto 10]. cbn [pull_send]. unfold pull_get_next. cbn [ps_current ps_end]. by rewrite Z.eqb_refl.
  - destruct (block_exists s end_) eqn:Hx.
    { apply block_exists_facts in Hx as [? Hx]. by rewrite Hm in Hx. }
    unfold account_get. rewrite Hi, Z.eqb_refl. cbn [mbind option_bind].
    destruct (segment_open _ _ _ _ HI _ _ Hhm) as [l Hl]. rewrite (Hsend _ _ Hl). exists l. split; [done|].
    exists i. eauto.
Qed.
End pull_server.

(** ** Reading blocks *)

Section reading.
Context `{E0 : Env} `{W0 : WorkConfig} `{N0 : Network}.

(** A block that a client or a server takes from a connection. *)
Definition readable (b : block) : Prop := wf_block b /\ work_validate_block b = false.

Lemma block_receive_read b i : readable b -> block_receive (serialize_block b ++ i) = incoming_block b i.
Proof.
  intros [Hwf Hw]. unfold block_receive, serialize_block. rewrite <- app_assoc, read_le_type.
  assert (block_type_of_code (block_type_code (block_type_of b)) = block_type_of b) as -> by (by destruct b).
  pose proof (deserialize_serialize_typed b [] Hwf) as Hd. rewrite app_nil_r in Hd.
  pose proof (serialize_length b) as Hl. 
  assert (read_bytes (Z.to_nat (block_size (block_type_of b))) (serialize b ++ i) = Some (serialize b, i)) as Hr.
  { rewrite <- Hl, Nat2Z.id. apply read_bytes_app. }
  destruct b; cbn [block_type_of] in *; by rewrite Hr, Hd, Hw.
Qed.

Lemma block_receive_end i : block_receive (no_block ++ i) = incoming_end.
Proof. done. Qed.

Lemma pull_receive_segment (s : store) pending_stop hard_stop end_ i : (forall n, hard_stop n = false) ->
  forall l fuel h e n, (forall k b, block_get s k = Some b -> hash b = k) ->
  segment s h l e -> Forall readable l -> (length l < fuel)%nat ->
  pull_receive fuel pending_stop hard_stop end_ h n (concat (serialize_block <$> l) ++ no_block ++ i)
  = Some (PullResult e l (negb pending_stop && (e =? end_))).
Proof.
  intros Hstop. induction l as [|b l IH]; intros [|fuel] h e n Hh Hs Hr Hf; try (cbn in Hf; lia).
  { cbn in Hs. subst. cbn [pull_receive]. change (concat _ ++ no_block ++ i) with (no_block ++ i). by rewrite block_receive_end. }
  apply Forall_cons in Hr as [Hb Hr]. destruct Hs as [Hg Hs]. rewrite fmap_cons. cbn [concat pull_receive].
  rewrite <- app_assoc, block_receive_read by done. rewrite (Hh _ _ Hg), Z.eqb_refl, Hstop.
  by rewrite (IH fuel (previous b) e) by (done || cbn in Hf; lia).
Qed.

Lemma push_receive_blocks i l : forall fuel, Forall readable l -> (length l < fuel)%nat ->
  push_receive fuel (concat (serialize_block <$> l) ++ no_block ++ i) = Some (l, true).
Proof.
  induction l as [|b l IH]; intros [|fuel] Hr Hf; try (cbn in Hf; lia); [done|].
  apply Forall_cons in Hr as [Hb Hr]. rewrite fmap_cons. cbn [concat push_receive].
  rewrite <- app_assoc, block_receive_read by done. by rewrite IH by (done || cbn in Hf; lia).
Qed.

Lemma blocks_length (l : list block) i : (length l <= length (concat (serialize_block <$> l) ++ i))%nat.
Proof.
  induction l as [|b l IH]; [cbn; lia|]. rewrite fmap_cons. cbn [concat length]. unfold serialize_block at 1.
  rewrite <- app_assoc, length_app, length_app, le_bytes_length. lia.
Qed.
End reading.

(** ** Pushes *)

Section pushes.
Context `{E0 : Env} `{T0 : Traffic} (K : Z) (D : Z -> Z) (G : gmap Z chain_info) (s : store).
Context (HI : ledger_inv K D G s).

(** The blocks of a target. *)
Definition target_blocks (t : Z * Z) (l : list block) : Prop := segment s (fst t) l (snd t) /\ l <> [].

(** A target that is done gives way to the next one. *)
Lemma push_next fuel ts e : push_send fuel s ts (e, e) = push_send fuel s ts (0, 0).
Proof. destruct fuel; [done|]. cbn [push_send fst snd]. by rewrite Z.eqb_refl, orb_true_r. Qed.

Lemma push_current l : forall fuel ts h e, segment s h l e ->
  push_send (length l + fuel) s ts (h, e) = r ← push_send fuel s ts (0, 0); Some (l ++ r).
Proof.
  induction l as [|b l IH]; intros fuel ts h e Hs.
  { cbn in Hs. subst. cbn [length Nat.add app]. rewrite push_next. by destruct (push_send _ _ _ _). }
  pose proof (segment_fresh _ _ _ _ HI _ _ _ Hs) as [Hne _]%Forall_cons. destruct Hs as [Hb Hs].
  destruct (get_facts _ _ _ _ HI _ _ Hb) as (Hh & H0 & _). rewrite Hh in Hne. cbn [length Nat.add push_send fst snd].
  rewrite (proj2 (Z.eqb_neq _ _) H0), (proj2 (Z.eqb_neq _ _) Hne). cbn [orb]. rewrite Hb, IH by done.
  by destruct (push_send fuel s ts (0, 0)).
Qed.

(** The targets are pushed from the last to the first, each from its head down. *)
Lemma push_all ts ls : Forall2 target_blocks ts ls -> forall fuel, (length (concat ls) < fuel)%nat ->
  push_send fuel s ts (0, 0) = Some (concat (reverse ls)).
Proof.
  revert ls. induction ts as [|t ts IH] using rev_ind; intros ls Hts [|fuel] Hf; try lia.
  { apply Forall2_nil_inv_l in Hts as ->. done. }
  apply Forall2_app_inv_l in Hts as (ls' & l1 & Hts & (l & l0 & [Ht Hne] & Hnil & ->)%Forall2_cons_inv_l & ->).
  apply Forall2_nil_inv_l in Hnil as ->. rewrite concat_app, length_app in Hf. cbn [concat] in Hf. rewrite app_nil_r in Hf.
  rewrite reverse_app. cbn [push_send fst]. rewrite Z.eqb_refl. cbn [orb]. rewrite last_snoc, removelast_last. cbn [mbind option_bind].
  destruct t as [h e], l as [|b l]; [done|]. destruct Ht as [Hb Hs]. cbn [fst snd] in *. rewrite Hb. cbn [length] in Hf.
  replace fuel with (length l + (fuel - length l))%nat by lia. rewrite (push_current l) by done.
  rewrite (IH _ Hts) by lia. done.
Qed.

Lemma target_exists h e m : G !! h = Some m -> h <> e ->
  e = 0 \/ (exists me i, G !! e = Some me /\ ci_account me = ci_account m /\ accounts s !! ci_account m = Some i /\ ai_head i = h) ->
  exists l, target_blocks (h, e) l /\ (length l <= blocks_total s)%nat.
Proof.
  intros Hm Hne He.
  assert (exists l, segment s h l e) as [l Hl].
  { destruct He as [->|(me & i & Hme & Ha & Hi & <-)]; [by eapply segment_open|]. eapply segment_head; [done..|by rewrite Ha]. }
  exists l. split.
  - split; [done|]. intros ->. by cbn in Hl.
  - destruct (segment_rank _ _ _ _ HI _ _ _ _ Hl Hm) as [? _]. pose proof (rk_total s G (li_chain HI) _ _ Hm). lia.
Qed.

Lemma targets_length ts ls : Forall2 (fun t l => target_blocks t l /\ (length l <= blocks_total s)%nat) ts ls ->
  (length (concat ls) <= length ts * blocks_total s)%nat.
Proof. induction 1 as [|t l ts ls [_ Hl] _ IH]; [done|]. cbn [concat length]. rewrite length_app. lia. Qed.
End pushes.

(** ** The connection *)

Section connections.
Context `{E0 : Env} `{W0 : WorkConfig} `{N0 : Network}.

(** The requests that are answered without reading on. *)
Definition is_request (m : message) : Prop :=
  message_wf m /\ match m with frontier_req _ _ _ _ | bulk_pull _ _ _ | bulk_pull_blocks _ _ _ _ _ => True | _ => False end.

Lemma receive_request_read m bs i :
  is_request m -> message_serialize m = Some bs -> receive_request (bs ++ i) = received_request m i /\ (0 < length bs)%nat.
Proof.
  assert (forall h, (0 < length (header_serialize h))%nat) as Hl.
  { intros h. unfold header_serialize. rewrite length_app, le_bytes_length. lia. }
  destruct m as [| | | |h start age count|h start end_|h min_hash max_hash mode max_count|]; intros [Hwf Hr]; try done;
    cbn [message_serialize]; intros [= <-]; cbn [message_wf] in Hwf; destruct_and! Hwf;
    unfold receive_request, frontier_req_serialize, bulk_pull_serialize, bulk_pull_blocks_serialize; rewrite <- !app_assoc;
    (split; [|rewrite length_app; specialize (Hl h); lia]);
    rewrite header_read by done; match goal with H : mh_type _ = _ |- _ => rewrite H end; cbn [Z.eqb Pos.eqb message_type_code];
    unfold frontier_req_deserialize, bulk_pull_deserialize, bulk_pull_blocks_deserialize; read_run; done.
Qed.

Lemma receive_push i h : header_wf h -> mh_type h = message_type_code mt_bulk_push ->
  receive_request (bulk_push_serialize h ++ i) = received_push i.
Proof. intros Hh Ht. unfold receive_request, bulk_push_serialize. by rewrite header_read, Ht by done. Qed.

(** Requests that are written one after the other are answered in their order, and a push
    after them is read. *)
Lemma serve_requests now s ms l fuel : forall bss outs,
  Forall is_request ms -> message_serialize <$> ms = Some <$> bss -> run_request now s <$> ms = Some <$> outs ->
  Forall readable l -> (length ms < fuel)%nat ->
  bootstrap_serve fuel now s (concat bss ++ bulk_push_start l) = Some (concat outs, l).
Proof.
  revert ms. induction fuel as [|fuel IH]; intros [|m ms] [|bs bss] [|out outs] Hm Hs Ho Hl Hf; try done; try lia;
    cbn [bootstrap_serve].
  - unfold bulk_push_start. cbn [concat app]. rewrite receive_push by done.
    rewrite <- (app_nil_r no_block), push_receive_blocks; [done|done|].
    pose proof (blocks_length l (no_block ++ [])). lia.
  - rewrite fmap_cons in Hs, Ho. injection Hs as Hs1 Hs. injection Ho as Ho1 Ho. apply Forall_cons in Hm as [Hm1 Hm].
    cbn [concat]. rewrite <- app_assoc. destruct (receive_request_read m bs (concat bss ++ bulk_push_start l) Hm1 Hs1) as [-> _].
    rewrite Ho1. cbn [mbind option_bind]. cbn [length] in Hf. by rewrite (IH _ _ _ Hm Hs Ho Hl) by lia.
Qed.

(** One request alone. *)
Lemma serve_one now s m bs out :
  is_request m -> message_serialize m = Some bs -> run_request now s m = Some out -> bootstrap_connection now s bs = Some (out, []).
Proof.
  intros Hm Hs Ho. unfold bootstrap_connection. destruct (receive_request_read m bs [] Hm Hs) as [Hr Hl]. rewrite app_nil_r in Hr.
  destruct (length bs) as [|n] eqn:E; [lia|]. cbn [bootstrap_serve]. rewrite Hr, Ho. cbn [mbind option_bind]. change (receive_request []) with received_nothing. cbn [mbind option_bind].
  by rewrite app_nil_r.
Qed.
End connections.

(** ** Ranges *)

(** The blocks under [ks], up to the first that is not stored. *)
Fixpoint stored_at (s : store) (ks : list Z) : list block :=
  match ks with
  | [] => []
  | k :: ks => match block_get s k with Some b => b :: stored_at s ks | None => [] end
  end.

(** The first keys of [ks] below [max_hash]; a count of zero is no limit. *)
Definition range_keys (max_hash max_count : Z) (ks : list Z) : list Z :=
  let ks := filter (fun k => k < max_hash) ks in
  if max_count =? 0 then ks else take (Z.to_nat max_count) ks.

Section ranges.
Context (s : store) (max_hash max_count : Z) (Hcount : in_width 32 max_count).
Local Abbreviation keys := (from (blocks_info s)).
Definition range_left (sent : Z) (ks : list Z) : list Z :=
  let ks := filter (fun k => k < max_hash) ks in
  if max_count =? 0 then ks else take (Z.to_nat (max_count - sent)) ks.

Lemma lower_bound_from p : lower_bound (blocks_info s) p = head (keys p).
Proof. done. Qed.

(** Keys are sorted: nothing below the limit follows the first key that is not. *)
Lemma range_left_end sent p k ks : keys p = k :: ks -> max_hash <= k -> range_left sent (keys p) = [].
Proof.
  intros E Hk. unfold range_left. rewrite E. pose proof (from_sorted (blocks_info s) p) as Hs. rewrite E in Hs.
  apply StronglySorted_inv in Hs as [_ Hs]. rewrite filter_cons_False by lia.
  assert (filter (fun k => k < max_hash) ks = []) as ->.
  { clear E. induction Hs as [|x ks Hx Hs IH]; [done|]. by rewrite filter_cons_False, IH by lia. }
  rewrite (take_nil (A:=Z)). by case_match.
Qed.

Lemma range_send_from fuel : forall p sent,
  0 <= sent -> max_count = 0 \/ sent <= max_count -> (length (keys p) < fuel)%nat ->
  range_send fuel max_count s (RangeServer (head (keys p)) max_hash sent) = Some (stored_at s (range_left sent (keys p))).
Proof.
  unfold in_width in Hcount.
  induction fuel as [|fuel IH]; intros p sent H0 Hs Hf; [lia|]. cbn [range_send]. unfold range_get_next.
  cbn [rs_stream rs_max_hash rs_sent_count]. destruct (Z.leb_spec max_count sent) as [Hle|Hlt], (Z.eqb_spec max_count 0) as [Ez|Ez]; cbn [negb andb];
    try (unfold range_left at 1; rewrite (proj2 (Z.eqb_neq _ _) Ez); replace (max_count - sent) with 0 by lia; done); try lia.
  - destruct (keys p) as [|k ks] eqn:E; [by unfold range_left; rewrite (proj2 (Z.eqb_eq _ _) Ez)|]. cbn [head].
    destruct (Z.ltb_spec k max_hash) as [Hk|Hk]; [|by rewrite <- E, (range_left_end _ _ _ _ E) by lia].
    unfold range_left. rewrite (proj2 (Z.eqb_eq _ _) Ez), filter_cons_True by done. cbn [stored_at].
    destruct (block_get s k) as [b|]; [|done]. rewrite lower_bound_from, IH; [| lia | by left |]; rewrite <- (from_tail _ _ _ _ E).
    + unfold range_left. by rewrite (proj2 (Z.eqb_eq _ _) Ez).
    + cbn in Hf. lia.
  - destruct (keys p) as [|k ks] eqn:E; [by unfold range_left; rewrite (proj2 (Z.eqb_neq _ _) Ez), (take_nil (A:=Z))|]. cbn [head].
    destruct (Z.ltb_spec k max_hash) as [Hk|Hk]; [|by rewrite <- E, (range_left_end _ _ _ _ E) by lia].
    unfold range_left. rewrite (proj2 (Z.eqb_neq _ _) Ez), filter_cons_True by done.
    replace (Z.to_nat (max_count - sent)) with (S (Z.to_nat (max_count - (sent + 1)))) by lia. cbn [take stored_at].
    rewrite wrap_small by (unfold in_width; lia).
    destruct (block_get s k) as [b|]; [|done]. rewrite lower_bound_from, IH; [| lia | lia |]; rewrite <- (from_tail _ _ _ _ E).
    + unfold range_left. by rewrite (proj2 (Z.eqb_neq _ _) Ez).
    + cbn in Hf. lia.
Qed.
End ranges.

(** A [bulk_pull_blocks] finds the blocks of the range that have block information, in the
    order of their hashes, as many as were asked for, and ends at the first of them that is
    no longer stored. *)
Theorem range_sent s min_hash max_hash max_count :
  in_width 32 max_count ->
  range_send (S (size (blocks_info s))) max_count s (set_params min_hash max_hash s)
  = Some (stored_at s (range_keys (Z.max min_hash max_hash) max_count (from (blocks_info s) min_hash))).
Proof.
  intros Hc. unfold set_params. pose proof (from_length (blocks_info s) min_hash).
  replace (if max_hash <? min_hash then min_hash else max_hash) with (Z.max min_hash max_hash) by (destruct (Z.ltb_spec max_hash min_hash); lia).
  rewrite lower_bound_from, (range_send_from _ _ _ Hc); [|lia|unfold in_width in Hc; lia|lia].
  unfold range_left, range_keys. by rewrite Z.sub_0_r.
Qed.
