(* ===== verification/BootstrapRun.v ===== *)
(** * BootstrapRun: nothing is missed

    A client with one ledger bootstraps from a server with another; both ledgers were made
    by runs over the same traffic. The pulls that the comparison of frontiers queues hand
    over every block of the server that the client lacks; the pushes hand over to the
    server what the client found it to lack. *)

From stdpp Require Import base list option tactics gmap sorting.
From Stdlib Require Import ZArith Lia.
From S2P Require Import Prelude Blocks Common Stats Store Tables Visitors Ledger Rollback Work Messages Chain Balance LedgerInv Queries Genesis Runs.
From S2P Require Import Tables Queries Bootstrap BootstrapSync BootstrapPulls.
#[local] Open Scope Z_scope.

(** ** Two ledgers *)

Section agree.
Context `{E0 : Env} `{T0 : Traffic} `{!TrafficLaws}.
Context (K1 K2 : Z) (D1 D2 : Z -> Z) (G1 G2 : gmap Z chain_info) (s1 s2 : store).
Context (HI1 : ledger_inv K1 D1 G1 s1) (HI2 : ledger_inv K2 D2 G2 s2).

Lemma same_hash b1 b2 : admitted b1 -> admitted b2 -> hash b1 = hash b2 -> same_hashables b1 b2 \/ receive_change_twins b1 b2.
Proof. intros H1 H2 E. apply hash_input_hashables; [by apply admitted_wf..|by apply admitted_inj]. Qed.

Lemma same_previous b1 b2 : admitted b1 -> admitted b2 -> hash b1 = hash b2 -> previous b1 = previous b2.
Proof.
  intros H1 H2 E. destruct (same_hash _ _ H1 H2 E) as [Hs|Hs]; destruct b1, b2; cbn in Hs |- *; try done;
    first [by rewrite Hs|by destruct Hs].
Qed.

(** A block that both ledgers have belongs to the same account in both. *)
Lemma account_agrees h m1 m2 : G1 !! h = Some m1 -> G2 !! h = Some m2 -> ci_account m1 = ci_account m2.
Proof.
  remember (ci_rank m1) as n eqn:Hn. revert h m1 m2 Hn. induction n as [n IH] using lt_wf_ind. intros h m1 m2 Hn Hm1 Hm2.
  destruct (facts_get _ _ _ _ HI1 _ _ Hm1) as [b1 Hb1], (facts_get _ _ _ _ HI2 _ _ Hm2) as [b2 Hb2].
  destruct (get_facts _ _ _ _ HI1 _ _ Hb1) as (Hh1 & _ & Ha1 & m1' & Hm1' & Hp1), (get_facts _ _ _ _ HI2 _ _ Hb2) as (Hh2 & _ & Ha2 & m2' & Hm2' & Hp2).
  simplify_eq. assert (hash b1 = hash b2) as Hh by congruence. pose proof (same_previous _ _ Ha1 Ha2 Hh) as Hpp.
  destruct (facts_stored _ _ _ _ HI1 _ _ Hm1) as (c1 & ? & Hs1 & Hok1 & _), (facts_stored _ _ _ _ HI2 _ _ Hm2) as (c2 & ? & Hs2 & Hok2 & _).
  rewrite (block_get_of _ _ _ _ HI1), contents_lookup, Hs1 in Hb1. rewrite (block_get_of _ _ _ _ HI2), contents_lookup, Hs2 in Hb2.
  cbn in Hb1, Hb2. simplify_eq.
  destruct Hp1 as [Hp1|(p1 & H0 & Hq1 & -> & _ & Hr1)].
  - destruct (same_hash _ _ Ha1 Ha2 Hh) as [Hs|Hs]; destruct b1, b2; cbn in Hs, Hp1, Hok1, Hok2; try done;
      repeat match goal with
      | H : exists p, _ |- _ => destruct H as [? H]
      | H : _ /\ _ |- _ => destruct H as [? H]
      | H : follows _ _ _ _ |- _ => destruct H as (? & _)
      end; try congruence.
  - destruct Hp2 as [Hp2|(p2 & _ & Hq2 & -> & _ & Hr2)]; [congruence|]. rewrite <- Hpp in Hq2. by eapply (IH (ci_rank p1)).
Qed.

(** What is below a block that the first ledger has, it has too. *)
Lemma below_known l : forall e h, segment s2 e l h -> h <> 0 -> block_exists s1 e = true -> block_exists s1 h = true.
Proof.
  induction l as [|b2 l IH]; intros e h Hs H0 He; [by cbn in Hs; subst|]. destruct Hs as [Hb Hs]. apply (IH _ _ Hs H0).
  apply (block_exists_facts _ _ _ _ HI1) in He as [m1 Hm1]. destruct (facts_get _ _ _ _ HI1 _ _ Hm1) as [b1 Hb1].
  destruct (get_facts _ _ _ _ HI1 _ _ Hb1) as (Hh1 & _ & Ha1 & m1' & _ & Hp1), (get_facts _ _ _ _ HI2 _ _ Hb) as (Hh2 & _ & Ha2 & _).
  rewrite (same_previous b2 b1) in Hs |- * by (done || congruence). apply (block_exists_facts _ _ _ _ HI1).
  destruct Hp1 as [Hp1|(p & _ & Hp & _)]; [|by eauto]. rewrite Hp1 in Hs.
  by destruct (segment_zero _ _ _ _ HI2 _ _ Hs).
Qed.
End agree.

Section bootstrap.
Context `{E0 : Env} `{T0 : Traffic} `{!TrafficLaws} `{W0 : WorkConfig} `{N0 : Network}.
Context (genesis_nonzero : genesis_account <> 0) (genesis_admitted : admitted genesis_block).

(** The frontiers of a ledger. *)
Definition heads_of (s : store) : gmap Z Z := ai_head <$> accounts s.

Lemma frontier_exchanged now sc ss slow :
  accounts_ok sc -> accounts_ok ss -> Z.of_nat (size (accounts sc) + size (accounts ss)) < 2 ^ 60 ->
  (forall n, slow n = false) ->
  exists out c, bootstrap_connection now ss frontier_req_run = Some (out, [])
    /\ request_frontier slow sc out = Some (frontier_done, c)
    /\ fc_pulls c = omap (wanted sc (heads_of ss)) (ordered (accounts ss))
    /\ fc_targets c `prefix_of` omap (offered sc (heads_of ss)) (ordered (accounts sc))
    /\ (fc_cost c < bulk_push_cost_limit -> fc_targets c = omap (offered sc (heads_of ss)) (ordered (accounts sc)))
    /\ Z.of_nat (length (fc_targets c)) <= bulk_push_cost_limit.
Proof.
  intros Hc Hs Hsize Hslow. destruct (compared sc ss Hc Hs slow Hslow now [] Hsize) as (c & Hr & Hrest). rewrite app_nil_r in Hr.
  eexists _, c. split; [|by split]. apply (serve_one now ss (frontier_req (header_init mt_frontier_req) 0 (2 ^ 32 - 1) (2 ^ 32 - 1))).
  - split; [|done]. split_and!; by vm_compute.
  - done.
  - cbn [run_request]. apply frontier_response; [done|]. unfold in_width. lia.
Qed.

(** The blocks of a ledger that a connection can carry. *)
Definition all_readable (s : store) : Prop := forall h b, block_get s h = Some b -> readable b.

Lemma segment_readable s l : all_readable s -> forall h e, segment s h l e -> Forall readable l.
Proof. intros Hr. induction l as [|b l IH]; intros h e Hs; [constructor|]. destruct Hs as [Hb Hs]. constructor; [by eapply Hr|by eapply IH]. Qed.

(** What a pull of [p] leaves behind, with an attentive client. *)
Definition pull_exchange (now : Z) (ss : store) (p : pull_info) (r : pull_result) : Prop :=
  exists out, bootstrap_connection now ss (bulk_pull_request p) = Some (out, [])
    /\ bulk_pull_client false (fun _ => false) p out = Some r.

Lemma pulled_exchange K D G ss now p i :
  ledger_inv K D G ss -> all_readable ss -> accounts_ok ss -> in_width 256 (pl_end p) ->
  accounts ss !! pl_account p = Some i -> ai_head i = pl_head p ->
  (forall m, G !! pl_end p = Some m -> ci_account m = pl_account p) ->
  let e := if block_exists ss (pl_end p) then pl_end p else 0 in
  exists r, pull_exchange now ss p r /\ segment ss (pl_head p) (pr_blocks r) e /\ pr_expected r = e /\ pr_pooled r = (e =? pl_end p).
Proof.
  intros HI Hread Hok Hend Hi Hh Hm. cbv zeta. destruct (bulk_pull_sends _ _ _ _ HI _ _ (pl_end p) Hi) as (l & Hout & j & Hj & Hl).
  assert (segment ss (pl_head p) l (if block_exists ss (pl_end p) then pl_end p else 0)) as Hseg.
  { simplify_eq. rewrite <- Hh. destruct Hl as [[Hn Hl]|(m & Hme & [[_ Hl]|[Hne _]])].
    - destruct (block_exists ss _) eqn:E; [|done]. apply (block_exists_facts _ _ _ _ HI) in E as [? E]. by rewrite Hn in E.
    - by rewrite (proj2 (block_exists_facts _ _ _ _ HI _)) by eauto.
    - by destruct Hne; apply Hm. }
  eexists (PullResult _ l _). split; [|by split_and!]. exists (concat (serialize_block <$> l) ++ no_block). split.
  - destruct (Hok _ _ Hi) as [Hk _]. apply (serve_one now ss (bulk_pull (header_init mt_bulk_pull) (pl_account p) (pl_end p))); [|done|done].
    split; [|done]. cbn [message_wf]. split_and!; [by vm_compute|done|unfold in_width; lia|done].
  - unfold bulk_pull_client. rewrite <- (app_nil_r no_block). pose proof (blocks_length l (no_block ++ [])).
    apply (pull_receive_segment ss); [done| |done|by eapply segment_readable|lia].
    intros k b Hb. by destruct (get_facts _ _ _ _ HI _ _ Hb).
Qed.

Section ledgers.
Context (now : Z) (Gc Gs : gmap Z chain_info) (sc ss : store).
Context (HC : ledger_inv 0 (fun _ => 0) Gc sc) (HS : ledger_inv 0 (fun _ => 0) Gs ss).
Context (Hokc : accounts_ok sc) (Hoks : accounts_ok ss) (Hread : all_readable ss).

Lemma own_head a j : accounts sc !! a = Some j ->
  block_exists sc (ai_head j) = true /\ forall m, Gs !! ai_head j = Some m -> ci_account m = a.
Proof.
  intros Hj. destruct (li_head HC _ _ Hj) as (b & mc & Hb & Hmc & Ha & _). split.
  - apply (block_exists_facts _ _ _ _ HC). eauto.
  - intros m Hm. rewrite <- Ha. symmetry. by apply (account_agrees _ _ _ _ _ _ _ _ HC HS (ai_head j)).
Qed.

(** A pull that the comparison queues ends where it should: at the client's own head if the
    server has it, at the first block of the account otherwise. *)
Lemma wanted_exchange a p : wanted sc (heads_of ss) a = Some p ->
  exists i r e, accounts ss !! a = Some i /\ pull_exchange now ss p r
    /\ segment ss (ai_head i) (pr_blocks r) e /\ (e = 0 \/ block_exists sc e = true).
Proof.
  unfold wanted, heads_of. rewrite lookup_fmap. intros (h & Hh & Hp)%bind_Some.
  apply fmap_Some in Hh as (i & Hi & ->). exists i.
  destruct (accounts sc !! a) as [j|] eqn:Hj.
  - destruct (own_head _ _ Hj) as [Hx Ha]. destruct (Hokc _ _ Hj) as [_ Hw]. destruct (_ || _); [done|]. injection Hp as <-.
    destruct (pulled_exchange _ _ _ ss now (PullInfo a (ai_head i) (ai_head j) 0) i HS Hread Hoks) as (r & Hr & Hseg & _); [done..|].
    cbn [pl_head pl_end] in Hseg. eexists r, _. split_and!; [done..|]. destruct (block_exists ss _); [by right|by left].
  - injection Hp as <-.
    destruct (pulled_exchange _ _ _ ss now (PullInfo a (ai_head i) 0 0) i HS Hread Hoks) as (r & Hr & Hseg & _); [done..| |].
    { cbn. intros m Hm. destruct (facts_stored _ _ _ _ HS _ _ Hm) as (_ & _ & _ & _ & H0). done. }
    cbn [pl_head pl_end] in Hseg. exists r, 0. split_and!; [done..| |by left]. by destruct (block_exists ss 0).
Qed.

(** An account whose head the client lacks is pulled. *)
Lemma unknown_wanted a i : accounts ss !! a = Some i -> block_exists sc (ai_head i) = false ->
  exists p, wanted sc (heads_of ss) a = Some p.
Proof.
  intros Hi Hx. unfold wanted, heads_of. rewrite lookup_fmap, Hi. cbn [fmap option_fmap option_map mbind option_bind].
  destruct (accounts sc !! a) as [j|] eqn:Hj; [|eauto]. destruct (own_head _ _ Hj) as [Hxj _].
  destruct (Z.eqb_spec (ai_head i) (ai_head j)) as [E|_]; [congruence|]. rewrite Hx. cbn. eauto.
Qed.

Lemma handed_over h b : block_get ss h = Some b ->
  block_exists sc h = true \/ exists a p r, accounts ss !! a <> None /\ wanted sc (heads_of ss) a = Some p /\ pull_exchange now ss p r /\ b ∈ pr_blocks r.
Proof.
  intros Hb. destruct (get_facts _ _ _ _ HS _ _ Hb) as (_ & H0 & _ & m & Hm & _). destruct (li_owner HS _ _ Hm) as [i Hi].
  destruct (segment_head _ _ _ _ HS _ _ _ Hm Hi) as [l' Hl'].
  destruct (block_exists sc (ai_head i)) eqn:Hx; [left; by eapply (below_known _ _ _ _ _ _ _ _ HC HS)|].
  destruct (unknown_wanted _ _ Hi Hx) as [p Hp]. destruct (wanted_exchange _ _ Hp) as (i' & r & e & Hi' & Hr & Hseg & He). simplify_eq.
  destruct (segment_meet _ _ _ _ _ _ Hseg Hl') as [(b' & Hin & Hb')|[l'' Hl'']].
  - right. exists (ci_account m), p, r. split_and!; [by rewrite Hi|done..|]. by simplify_eq.
  - left. destruct He as [->|He]; [by destruct (segment_zero _ _ _ _ HS _ _ Hl'')|].
    by eapply (below_known _ _ _ _ _ _ _ _ HC HS).
Qed.

(** What the client offers are blocks of its own. *)
Lemma offered_target a t : offered sc (heads_of ss) a = Some t ->
  exists l, target_blocks sc t l /\ (length l <= blocks_total sc)%nat.
Proof.
  unfold offered, heads_of. rewrite lookup_fmap. intros (i & Hi & Ht)%bind_Some.
  destruct (li_head HC _ _ Hi) as (b & m & _ & Hm & Ha & _).
  destruct (facts_stored _ _ _ _ HC _ _ Hm) as (_ & _ & _ & _ & H0). destruct (accounts ss !! a) as [j|] eqn:Hj; cbn in Ht.
  - destruct (Z.eqb_spec (ai_head j) (ai_head i)) as [|Hne]; [done|]. destruct (block_exists sc (ai_head j)) eqn:Hx; [|done].
    cbn in Ht. injection Ht as <-. apply (target_exists _ _ _ _ HC _ _ m); [done|congruence|]. right.
    apply (block_exists_facts _ _ _ _ HC) in Hx as [me Hme]. destruct (li_head HS _ _ Hj) as (bs & ms & _ & Hms & Has & _).
    exists me, i. split_and!; [done| |by rewrite Ha|done]. rewrite Ha, <- Has. by apply (account_agrees _ _ _ _ _ _ _ _ HC HS (ai_head j)).
  - injection Ht as <-. apply (target_exists _ _ _ _ HC _ _ m); [done|congruence|by left].
Qed.

Lemma offered_blocks ts : (forall t, t ∈ ts -> exists a, offered sc (heads_of ss) a = Some t) ->
  exists ls, Forall2 (fun t l => target_blocks sc t l /\ (length l <= blocks_total sc)%nat) ts ls.
Proof.
  induction ts as [|t ts IH]; intros Ho; [by exists []|]. destruct (Ho t) as [a Ha]; [by left|].
  destruct (offered_target _ _ Ha) as [l Hl]. destruct IH as [ls Hls]; [intros u Hu; apply Ho; by right|]. exists (l :: ls). by constructor.
Qed.

(** A block of the client is known to the server, offered to it, or of an account of which
    the server has blocks that the client lacks. *)
Lemma offered_or h b a i : block_get sc h = Some b -> account sc h = Some a -> accounts sc !! a = Some i ->
  block_exists ss h = true \/ (exists t, offered sc (heads_of ss) a = Some t /\ forall l, target_blocks sc t l -> b ∈ l)
  \/ exists p, wanted sc (heads_of ss) a = Some p.
Proof.
  intros Hb Ha Hi. destruct (get_facts _ _ _ _ HC _ _ Hb) as (_ & H0 & _ & m & Hm & _).
  rewrite (account_of _ _ _ _ HC _ _ Hm) in Ha. injection Ha as <-. destruct (segment_head _ _ _ _ HC _ _ _ Hm Hi) as [l' Hl'].
  destruct (li_head HC _ _ Hi) as (_ & hm & _ & Hhm & _). unfold wanted, offered, heads_of. rewrite lookup_fmap, Hi.
  destruct (accounts ss !! ci_account m) as [j|] eqn:Hj; cbn [fmap option_fmap option_map mbind option_bind].
  - destruct (li_head HS _ _ Hj) as (_ & jm & _ & Hjm & _).
    assert (block_exists ss (ai_head j) = true) as Hxj by (apply (block_exists_facts _ _ _ _ HS); eauto).
    destruct (Z.eqb_spec (ai_head j) (ai_head i)) as [E|Hne].
    + left. eapply (below_known _ _ _ _ _ _ _ _ HS HC); [done..|]. by rewrite <- E.
    + destruct (block_exists sc (ai_head j)) eqn:Hx; cbn [orb negb andb]; [|right; right; eauto].
      destruct (decide (block_exists ss h = true)) as [|Hn]; [by left|right; left]. eexists. split; [done|]. intros l [Hl _].
      destruct (segment_meet _ _ _ _ _ _ Hl Hl') as [(b' & Hin & Hb')|[l'' Hl'']]; [by simplify_eq|].
      destruct Hn. by eapply (below_known _ _ _ _ _ _ _ _ HS HC).
  - right. left. eexists. split; [done|]. intros l [Hl _]. cbn [fst snd] in Hl.
    destruct (segment_meet _ _ _ _ _ _ Hl Hl') as [(b' & Hin & Hb')|[l'' Hl'']]; [by simplify_eq|].
    by destruct (segment_zero _ _ _ _ HC _ _ Hl'').
Qed.
End ledgers.

(** C12. A client with one ledger asks a server with another for its frontiers and reads them;
    both ledgers come from runs over the same traffic. Each pull that it queues is then
    answered to its end, and every block that the server has, the client has or receives
    from one of these pulls. *)
Theorem bootstrap_misses_nothing now lc ls slow :
  reachable lc -> reachable ls -> accounts_ok (l_store lc) -> accounts_ok (l_store ls) ->
  Z.of_nat (size (accounts (l_store lc)) + size (accounts (l_store ls))) < 2 ^ 60 -> (forall n, slow n = false) ->
  all_readable (l_store ls) ->
  exists out c, bootstrap_connection now (l_store ls) frontier_req_run = Some (out, [])
    /\ request_frontier slow (l_store lc) out = Some (frontier_done, c)
    /\ (forall p, p ∈ fc_pulls c -> exists r, pull_exchange now (l_store ls) p r)
    /\ forall h b, block_get (l_store ls) h = Some b ->
         block_exists (l_store lc) h = true
         \/ exists p r, p ∈ fc_pulls c /\ pull_exchange now (l_store ls) p r /\ b ∈ pr_blocks r.
Proof.
  intros [Gc [HC _]]%reachable_consistent [Gs [HS _]]%reachable_consistent Hc Hs Hsize Hslow Hread; [|done..].
  destruct (frontier_exchanged now _ _ slow Hc Hs Hsize Hslow) as (out & c & Hout & Hreq & Hpulls & _).
  exists out, c. split_and!; [done..| |].
  - intros p. rewrite Hpulls, list_elem_of_omap. intros (a & _ & Ha).
    destruct (wanted_exchange now _ _ _ _ HC HS Hc Hs Hread _ _ Ha) as (i & r & e & _ & Hr & _). eauto.
  - intros h b Hb. destruct (handed_over now _ _ _ _ HC HS Hc Hs Hread _ _ Hb) as [?|(a & p & r & Ha & Hw & Hr & Hin)]; [by left|right].
    exists p, r. split_and!; [|done..]. rewrite Hpulls, list_elem_of_omap. exists a. split; [|done]. apply ordered_elem.
    by apply not_eq_None_Some.
Qed.

(** C14. In the same situation, what the client offers to the server is sent in one push, which
    the server reads to its end. If the offers did not reach the limit of their cost, every
    block of the client is known to the server, pushed to it, or of an account for which the
    client has queued a pull. *)
Theorem bootstrap_pushes now lc ls slow :
  reachable lc -> reachable ls -> accounts_ok (l_store lc) -> accounts_ok (l_store ls) ->
  Z.of_nat (size (accounts (l_store lc)) + size (accounts (l_store ls))) < 2 ^ 60 -> (forall n, slow n = false) ->
  all_readable (l_store lc) ->
  exists out c l, bootstrap_connection now (l_store ls) frontier_req_run = Some (out, [])
    /\ request_frontier slow (l_store lc) out = Some (frontier_done, c)
    /\ bulk_push_blocks (l_store lc) (fc_targets c) = Some l
    /\ bootstrap_connection now (l_store ls) (bulk_push_start l) = Some ([], l)
    /\ (fc_cost c < bulk_push_cost_limit -> forall h b a, block_get (l_store lc) h = Some b -> account (l_store lc) h = Some a ->
          block_exists (l_store ls) h = true \/ b ∈ l \/ exists p, p ∈ fc_pulls c /\ pl_account p = a).
Proof.
  intros [Gc [HC _]]%reachable_consistent [Gs [HS _]]%reachable_consistent Hc Hs Hsize Hslow Hread; [|done..].
  destruct (frontier_exchanged now _ _ slow Hc Hs Hsize Hslow) as (out & c & Hout & Hreq & Hpulls & Hpre & Hall & _).
  destruct (offered_blocks _ _ _ _ HC HS (fc_targets c)) as [tl Htl].
  { intros t Ht. apply (elem_of_prefix _ _ _ Ht), list_elem_of_omap in Hpre as (a & _ & Ha). eauto. }
  pose proof (targets_length _ _ _ Htl) as Hlen. 
  assert (Forall2 (target_blocks (l_store lc)) (fc_targets c) tl) as Htb by (eapply Forall2_impl; [exact Htl|]; by intros ?? []).
  exists out, c, (concat (reverse tl)). split_and!; [done..| | |].
  - unfold bulk_push_blocks. apply (push_all _ _ _ _ HC _ _ Htb). lia.
  - apply (serve_requests now _ [] _ _ [] []); [constructor|done|done| |cbn; lia]. apply Forall_concat, Forall_forall.
    intros l. rewrite elem_of_reverse. intros Hl. apply list_elem_of_lookup in Hl as [n Hn].
    destruct (Forall2_lookup_r _ _ _ _ _ Htb Hn) as (t & _ & [Ht _]). by eapply segment_readable.
  - intros Hcost h b a Hb Ha. destruct (get_facts _ _ _ _ HC _ _ Hb) as (_ & _ & _ & m & Hm & _).
    destruct (li_owner HC _ _ Hm) as [i Hi]. pose proof (account_of _ _ _ _ HC _ _ Hm) as Ha'. rewrite Ha in Ha'. injection Ha' as ->.
    destruct (offered_or _ _ _ _ HC HS _ _ _ _ Hb Ha Hi) as [?|[(t & Ht & Hin)|[p Hp]]]; [by left|right; left|right; right].
    + assert (t ∈ fc_targets c) as [n Hn]%list_elem_of_lookup.
      { rewrite (Hall Hcost), list_elem_of_omap. exists (ci_account m). split; [|done]. apply ordered_elem. eauto. }
      destruct (Forall2_lookup_l _ _ _ _ _ Htb Hn) as (l & Hl & Htgt). apply list_elem_of_In, in_concat. exists l.
      rewrite <- !list_elem_of_In, elem_of_reverse. split; [by eapply list_elem_of_lookup_2|by apply Hin].
    + exists p. pose proof Hp as Hp'. unfold wanted in Hp'. apply bind_Some in Hp' as (h' & Hh' & Hp').
      split; [|by repeat case_match; simplify_eq]. rewrite Hpulls, list_elem_of_omap. exists (ci_account m). split; [|done].
      apply ordered_elem. unfold heads_of in Hh'. rewrite lookup_fmap in Hh'. apply fmap_Some in Hh' as (j & Hj & _). eauto.
Qed.

(** C13. The frontiers of a server are read to their end by any client. It has then queued, in
    the order of the accounts, the pulls of exactly those accounts whose head at the server
    is unknown to it, and a first part of the pushes of what the server lacks: all of them if
    their cost stayed below the limit, and never more than the limit. *)
Theorem frontiers_compared now sc ss slow :
  accounts_ok sc -> accounts_ok ss -> Z.of_nat (size (accounts sc) + size (accounts ss)) < 2 ^ 60 ->
  (forall n, slow n = false) ->
  exists out c, bootstrap_connection now ss frontier_req_run = Some (out, [])
    /\ request_frontier slow sc out = Some (frontier_done, c)
    /\ fc_pulls c = omap (wanted sc (heads_of ss)) (ordered (accounts ss))
    /\ fc_targets c `prefix_of` omap (offered sc (heads_of ss)) (ordered (accounts sc))
    /\ (fc_cost c < bulk_push_cost_limit -> fc_targets c = omap (offered sc (heads_of ss)) (ordered (accounts sc)))
    /\ Z.of_nat (length (fc_targets c)) <= bulk_push_cost_limit.
Proof. apply frontier_exchanged. Qed.

(** C15. A pull of an account from its head is answered with the blocks down to its end and is
    then done: the connection is used again, the pull is not. If the server does not know
    the end, the pull brings the whole account, and is queued again. *)
Theorem pull_finishes now ls p i :
  reachable ls -> all_readable (l_store ls) -> accounts_ok (l_store ls) -> in_width 256 (pl_end p) ->
  accounts (l_store ls) !! pl_account p = Some i -> ai_head i = pl_head p ->
  (block_exists (l_store ls) (pl_end p) = true -> account (l_store ls) (pl_end p) = Some (pl_account p)) ->
  exists r, pull_exchange now (l_store ls) p r
    /\ (pl_end p = 0 \/ block_exists (l_store ls) (pl_end p) = true ->
          segment (l_store ls) (pl_head p) (pr_blocks r) (pl_end p) /\ pr_pooled r = true /\ pull_again p r = None)
    /\ (pl_end p <> 0 -> block_exists (l_store ls) (pl_end p) = false ->
          segment (l_store ls) (pl_head p) (pr_blocks r) 0 /\ pr_pooled r = false
          /\ pull_again p r = Some (PullInfo (pl_account p) 0 (pl_end p) (pl_attempts p))).
Proof.
  intros [G [HI _]]%reachable_consistent Hread Hok Hend Hi Hh Ha; [|done..].
  destruct (pulled_exchange _ _ _ (l_store ls) now p i HI Hread Hok Hend Hi Hh) as (r & Hr & Hseg & Hx & Hp).
  { intros m Hm. rewrite (account_of _ _ _ _ HI _ _ Hm) in Ha. apply (inj Some), Ha, (block_exists_facts _ _ _ _ HI). eauto. }
  exists r. split; [done|]. unfold pull_again. rewrite Hx, Hp. split.
  - intros He. assert ((if block_exists (l_store ls) (pl_end p) then pl_end p else 0) = pl_end p) as E.
    { destruct He as [-> | ->]; [by destruct (block_exists _ 0)|done]. }
    rewrite E, Z.eqb_refl in *. done.
  - intros H0 He. rewrite He in *. rewrite (proj2 (Z.eqb_neq 0 _)) by done. done.
Qed.

(** Requests that are written to a connection one after the other are answered in their
    order, however long the answers are, and the blocks of a push after them are read. *)
Theorem requests_in_order now s ms bss outs l :
  Forall is_request ms -> message_serialize <$> ms = Some <$> bss -> run_request now s <$> ms = Some <$> outs ->
  Forall readable l -> bootstrap_connection now s (concat bss ++ bulk_push_start l) = Some (concat outs, l).
Proof.
  intros Hm Hs Ho Hl. apply (serve_requests now s ms); [done..|]. apply Nat.lt_succ_r. rewrite length_app.
  enough (length ms <= length (concat bss))%nat by lia. clear Ho Hl. revert bss Hs.
  induction Hm as [|m ms Hm _ IH]; intros [|bs bss] Hs; try done. rewrite fmap_cons in Hs. injection Hs as Hs1 Hs.
  destruct (receive_request_read m bs [] Hm Hs1) as [_ ?]. specialize (IH _ Hs). cbn [concat length]. rewrite length_app. lia.
Qed.
End bootstrap.

(** ** The queue of pulls *)

Lemma swap_perm {A} (l : list A) i k : (i < length l)%nat -> (k < length l)%nat -> exists l', swap i k l = Some l' /\ l' ≡ₚ l.
Proof.
  intros Hi Hk. unfold swap. destruct (lookup_lt_is_Some_2 _ _ Hi) as [x Hx], (lookup_lt_is_Some_2 _ _ Hk) as [y Hy].
  rewrite Hx, Hy. eexists. split; [done|]. by apply Permutation_insert_swap.
Qed.

(** The shuffle of [run] ends, and neither loses nor repeats a pull. *)
Theorem shuffle_permutes {A} draw (l : list A) :
  (forall i, draw i <= i)%nat -> exists l', shuffle draw (length l - 1) l = Some l' /\ l' ≡ₚ l.
Proof.
  intros Hd. remember (length l - 1)%nat as n eqn:En. assert (n < length l \/ n = 0)%nat as Hn by lia. clear En. revert l Hn.
  induction n as [|n IH]; intros l Hn; [by exists l|]. cbn [shuffle].
  destruct (swap_perm l (S n) (draw (S n))) as (l1 & -> & H1); [lia|specialize (Hd (S n)); lia|]. cbn [mbind option_bind].
  destruct (IH l1) as (l2 & H2 & Hp); [rewrite H1; lia|]. exists l2. split; [done|]. by rewrite Hp.
Qed.

(** [requeue_pull] again and again, with the peer of the frontiers alive. *)
Fixpoint requeued (n : nat) (p : pull_info) : option pull_info :=
  match n with
  | O => Some p
  | S n =>
    match requeue_pull true p with
    | requeue_front p | requeue_frontier_peer p => requeued n p
    | requeue_dropped => None
    end
  end.

(** A pull that keeps failing is tried sixteen times more, the last time with the peer that
    sent the frontiers, and is then given up. *)
Theorem pull_given_up a h e n : requeued n (PullInfo a h e 0) = None <-> (16 < n)%nat.
Proof.
  assert (requeued 17 (PullInfo a h e 0) = None) as Hg by (vm_compute; reflexivity).
  assert (forall n m p, requeued n p = None -> requeued (n + m) p = None) as Hm.
  { clear. induction n as [|n IH]; intros m p; [done|]. cbn [requeued Nat.add]. destruct (requeue_pull true p); auto. }
  split.
  - intros Hn. destruct (decide (16 < n)%nat) as [|Hle]; [done|]. exfalso.
    pose proof (Hm n (16 - n)%nat _ Hn) as H16. replace (n + (16 - n))%nat with 16%nat in H16 by lia. vm_compute in H16. discriminate.
  - intros Hn. replace n with (17 + (n - 17))%nat by lia. by apply Hm.
Qed.
