(* ===== verification/Upgrades.v ===== *)
(** * Upgrades: opening a database of an earlier version

    [block_store::do_upgrades] (blockstore.cpp) and the records of earlier versions
    (versioning.cpp). A database has a version number; each upgrade brings the tables from
    one version to the next. The table of accounts holds records of three forms, that of
    pending sends of two: reading a record in the wrong form fails the assertion on its
    size, since all forms differ in size. *)

From stdpp Require Import base list option tactics gmap sorting.
From Stdlib Require Import ZArith Lia.
From S2P Require Import Prelude Blocks Common Store Tables Visitors Ledger Genesis Caches.
#[local] Open Scope Z_scope.

(** ** Records *)

Record account_info_v1 := AccountInfoV1 {
  v1_head : Z;
  v1_rep_block : Z;
  v1_balance : Z;
  v1_modified : Z
}.

Record pending_info_v3 := PendingInfoV3 {
  p3_source : Z;
  p3_amount : Z;
  p3_destination : Z
}.

Record account_info_v5 := AccountInfoV5 {
  v5_head : Z;
  v5_rep_block : Z;
  v5_open_block : Z;
  v5_balance : Z;
  v5_modified : Z
}.

Definition account_info_v1_serialize (i : account_info_v1) : stream :=
  be_bytes 32 (v1_head i) ++ be_bytes 32 (v1_rep_block i) ++ be_bytes 16 (v1_balance i) ++ le_bytes 8 (v1_modified i).
Definition account_info_v1_deserialize (s : stream) : option (account_info_v1 * stream) :=
  '(head, s) ← read_be 32 s;
  '(rep_block, s) ← read_be 32 s;
  '(balance, s) ← read_be 16 s;
  '(modified, s) ← read_le 8 s;
  Some (AccountInfoV1 head rep_block balance modified, s).

Definition pending_info_v3_serialize (i : pending_info_v3) : stream :=
  be_bytes 32 (p3_source i) ++ be_bytes 16 (p3_amount i) ++ be_bytes 32 (p3_destination i).
Definition pending_info_v3_deserialize (s : stream) : option (pending_info_v3 * stream) :=
  '(source, s) ← read_be 32 s;
  '(amount, s) ← read_be 16 s;
  '(destination, s) ← read_be 32 s;
  Some (PendingInfoV3 source amount destination, s).

Definition account_info_v5_serialize (i : account_info_v5) : stream :=
  be_bytes 32 (v5_head i) ++ be_bytes 32 (v5_rep_block i) ++ be_bytes 32 (v5_open_block i)
  ++ be_bytes 16 (v5_balance i) ++ le_bytes 8 (v5_modified i).
Definition account_info_v5_deserialize (s : stream) : option (account_info_v5 * stream) :=
  '(head, s) ← read_be 32 s;
  '(rep_block, s) ← read_be 32 s;
  '(open_block, s) ← read_be 32 s;
  '(balance, s) ← read_be 16 s;
  '(modified, s) ← read_le 8 s;
  Some (AccountInfoV5 head rep_block open_block balance modified, s).

(** ** The database *)

Inductive account_value :=
| account_v1 (i : account_info_v1)
| account_v5 (i : account_info_v5)
| account_v6 (i : account_info).

Definition as_v1 (v : account_value) : option account_info_v1 := match v with account_v1 i => Some i | _ => None end.
Definition as_v5 (v : account_value) : option account_info_v5 := match v with account_v5 i => Some i | _ => None end.
Definition as_v6 (v : account_value) : option account_info := match v with account_v6 i => Some i | _ => None end.

Inductive pending_table :=
| pending_v3 (t : gmap Z pending_info_v3)
| pending_v4 (t : gmap pending_key pending_info).

(** [db_store] has the tables whose form never changed; its tables of accounts and of pending
    sends are not used, [db_accounts] and [db_pending] stand for them. *)
Record database := Database {
  db_accounts : gmap Z account_value;
  db_pending : pending_table;
  db_store : store;
  db_unchecked : gmap Z (list stream);
  db_vote : gmap Z stream;
  db_sequence : gmap Z (list stream);
  db_unsynced : gmap Z (list stream)
}.

Definition set_db_accounts (t : gmap Z account_value) (d : database) : database :=
  Database t (db_pending d) (db_store d) (db_unchecked d) (db_vote d) (db_sequence d) (db_unsynced d).
Definition set_db_pending (t : pending_table) (d : database) : database :=
  Database (db_accounts d) t (db_store d) (db_unchecked d) (db_vote d) (db_sequence d) (db_unsynced d).
Definition set_db_store (s : store) (d : database) : database :=
  Database (db_accounts d) (db_pending d) s (db_unchecked d) (db_vote d) (db_sequence d) (db_unsynced d).
Definition set_db_unchecked (t : gmap Z (list stream)) (d : database) : database :=
  Database (db_accounts d) (db_pending d) (db_store d) t (db_vote d) (db_sequence d) (db_unsynced d).
Definition set_db_vote (t : gmap Z stream) (d : database) : database :=
  Database (db_accounts d) (db_pending d) (db_store d) (db_unchecked d) t (db_sequence d) (db_unsynced d).
Definition set_db_sequence (t : gmap Z (list stream)) (d : database) : database :=
  Database (db_accounts d) (db_pending d) (db_store d) (db_unchecked d) (db_vote d) t (db_unsynced d).
Definition set_db_unsynced (t : gmap Z (list stream)) (d : database) : database :=
  Database (db_accounts d) (db_pending d) (db_store d) (db_unchecked d) (db_vote d) (db_sequence d) t.

Definition db_version_put (v : Z) (d : database) : database := set_db_store (version_put v (db_store d)) d.

(** A loop over the keys of a table that may fail. *)
Fixpoint each {A} (f : Z -> A -> option A) (ks : list Z) (x : A) : option A :=
  match ks with
  | [] => Some x
  | k :: ks => x ← f k x; each f ks x
  end.

Section upgrades.
Context `{E0 : Env}.

(** ** Version 2: the first block of each account *)

Fixpoint first_block (fuel : nat) (s : store) (b : block) : option block :=
  match fuel with
  | O => None
  | S fuel => if previous b =? 0 then Some b else b ← block_get s (previous b); first_block fuel s b
  end.

Definition account_v1_to_v5 (s : store) (i : account_info_v1) : option account_info_v5 :=
  b ← block_get s (v1_head i);
  b ← first_block (S (blocks_total s)) s b;
  Some (AccountInfoV5 (v1_head i) (v1_rep_block i) (hash b) (v1_balance i) (v1_modified i)).

Fixpoint upgrade_accounts_v2 (fuel : nat) (account : Z) (d : database) : option database :=
  match fuel with
  | O => None
  | S fuel =>
    if account =? 0 then Some d
    else
      match lower_bound (db_accounts d) account with
      | None => Some d
      | Some a =>
        v ← db_accounts d !! a;
        i ← as_v1 v;
        i ← account_v1_to_v5 (db_store d) i;
        upgrade_accounts_v2 fuel (wrap 256 (a + 1)) (set_db_accounts (<[a := account_v5 i]> (db_accounts d)) d)
      end
  end.

Definition upgrade_v1_to_v2 (d : database) : option database :=
  upgrade_accounts_v2 (S (size (db_accounts d))) 1 (db_version_put 2 d).

(** ** Version 3: representatives and weights anew *)

Definition upgrade_representative (a : Z) (d : database) : option database :=
  v ← db_accounts d !! a;
  i ← as_v5 v;
  r ← representative_compute (visitor_fuel (db_store d)) (db_store d) (v5_head i);
  _ ← assert (negb (r =? 0));
  let i := AccountInfoV5 (v5_head i) r (v5_open_block i) (v5_balance i) (v5_modified i) in
  s ← representation_add r (v5_balance i) (db_store d);
  Some (set_db_store s (set_db_accounts (<[a := account_v5 i]> (db_accounts d)) d)).

Definition upgrade_v2_to_v3 (d : database) : option database :=
  let d := db_version_put 3 d in
  each upgrade_representative (ordered (db_accounts d)) (set_db_store (set_representation ∅ (db_store d)) d).

(** ** Version 4: pending sends by destination *)

Definition upgrade_pending (t : gmap Z pending_info_v3) (h : Z) (p : gmap pending_key pending_info)
    : option (gmap pending_key pending_info) :=
  i ← t !! h;
  Some (<[PendingKey (p3_destination i) h := PendingInfo (p3_source i) (p3_amount i)]> p).

Definition upgrade_v3_to_v4 (d : database) : option database :=
  let d := db_version_put 4 d in
  match db_pending d with
  | pending_v3 t => p ← each (upgrade_pending t) (ordered t) ∅; Some (set_db_pending (pending_v4 p) d)
  | pending_v4 t => if decide (t = ∅) then Some d else None
  end.

(** ** Version 5: successors *)

Fixpoint add_successors (fuel : nat) (s : store) (b : option block) (successor : Z) : option store :=
  match fuel with
  | O => None
  | S fuel =>
    match b with
    | None => Some s
    | Some b =>
      let h := hash b in
      s ← (if (block_successor s h =? 0) && negb (successor =? 0) then on_tables (block_put h b successor) s else Some s);
      add_successors fuel s (block_get s (previous b)) h
    end
  end.

Definition upgrade_successors (a : Z) (d : database) : option database :=
  v ← db_accounts d !! a;
  i ← as_v5 v;
  let s := db_store d in
  s ← add_successors (S (S (blocks_total s))) s (block_get s (v5_head i)) 0;
  Some (set_db_store s d).

Definition upgrade_v4_to_v5 (d : database) : option database :=
  let d := db_version_put 5 d in
  each upgrade_successors (ordered (db_accounts d)) d.

(** ** Version 6: block counts *)

Fixpoint count_blocks (fuel : nat) (s : store) (h count : Z) : option Z :=
  match fuel with
  | O => None
  | S fuel => if h =? 0 then Some count else b ← block_get s h; count_blocks fuel s (previous b) (wrap 64 (count + 1))
  end.

Definition upgrade_count (d : database) (a : Z) (t : gmap Z account_value) : option (gmap Z account_value) :=
  v ← db_accounts d !! a;
  i ← as_v5 v;
  n ← count_blocks (S (S (blocks_total (db_store d)))) (db_store d) (v5_head i) 0;
  Some (<[a := account_v6 (AccountInfo (v5_head i) (v5_rep_block i) (v5_open_block i) (v5_balance i) (v5_modified i) n)]> t).

Definition upgrade_v5_to_v6 (d : database) : option database :=
  let d := db_version_put 6 d in
  t ← each (upgrade_count d) (ordered (db_accounts d)) (db_accounts d);
  Some (set_db_accounts t d).

(** ** Versions 7 to 9: unchecked blocks are dropped, sequence numbers become votes *)

Definition upgrade_v6_to_v7 (d : database) : option database := Some (set_db_unchecked ∅ (db_version_put 7 d)).
Definition upgrade_v7_to_v8 (d : database) : option database := Some (set_db_unchecked ∅ (db_version_put 8 d)).

(** The dummy vote is signed with a fresh key, [junk]. *)
Definition upgrade_vote (junk a : Z) (value : stream) (t : gmap Z stream) : option (gmap Z stream) :=
  '(sequence, _) ← read_le 8 value;
  Some (<[a := vote_serialize (vote_make a junk sequence genesis_block)]> t).

Fixpoint upgrade_votes (junk a : Z) (values : list stream) (t : gmap Z stream) : option (gmap Z stream) :=
  match values with
  | [] => Some t
  | value :: values => t ← upgrade_vote junk a value t; upgrade_votes junk a values t
  end.

Definition upgrade_v8_to_v9 (junk : Z) (d : database) : option database :=
  let d := db_version_put 9 d in
  t ← each (fun a => upgrade_votes junk a (dups (db_sequence d) a)) (ordered (db_sequence d)) (db_vote d);
  Some (set_db_sequence ∅ (set_db_vote t d)).

(** ** Version 10: block information *)

Fixpoint add_block_info (fuel : nat) (s : store) (a h count : Z) : option store :=
  match fuel with
  | O => None
  | S fuel =>
    if h =? 0 then Some s
    else
      s ← (if count mod block_info_max =? 0 then b ← balance s h; Some (block_info_put h (BlockInfo a b) s) else Some s);
      add_block_info fuel s a (block_successor s h) (wrap 64 (count + 1))
  end.

Definition upgrade_block_info (a : Z) (d : database) : option database :=
  v ← db_accounts d !! a;
  i ← as_v6 v;
  if block_info_max <=? ai_block_count i then
    s ← add_block_info (S (S (blocks_total (db_store d)))) (db_store d) a (ai_open_block i) 1;
    Some (set_db_store s d)
  else Some d.

Definition upgrade_v9_to_v10 (d : database) : option database :=
  let d := db_version_put 10 d in
  each upgrade_block_info (ordered (db_accounts d)) d.

(** ** Version 11: the number is not written *)

Definition upgrade_v10_to_v11 (d : database) : option database := Some (set_db_unsynced ∅ d).

(** ** All upgrades *)

(** The cases of the switch fall through: all upgrades from the version found. *)
Definition do_upgrades (junk : Z) (d : database) : option database :=
  let v := version_get (db_store d) in
  let from n f d := if v <=? n then f d else Some d in
  _ ← assert ((1 <=? v) && (v <=? 11));
  d ← from 1 upgrade_v1_to_v2 d;
  d ← from 2 upgrade_v2_to_v3 d;
  d ← from 3 upgrade_v3_to_v4 d;
  d ← from 4 upgrade_v4_to_v5 d;
  d ← from 5 upgrade_v5_to_v6 d;
  d ← from 6 upgrade_v6_to_v7 d;
  d ← from 7 upgrade_v7_to_v8 d;
  d ← from 8 (upgrade_v8_to_v9 junk) d;
  d ← from 9 upgrade_v9_to_v10 d;
  from 10 upgrade_v10_to_v11 d.

(** The tables as the program uses them. *)
Definition database_store (d : database) : option store :=
  match db_pending d with
  | pending_v3 _ => None
  | pending_v4 p =>
    if decide (map_Forall (fun _ v => is_Some (as_v6 v)) (db_accounts d))
    then Some (set_pending p (set_accounts (omap as_v6 (db_accounts d)) (db_store d)))
    else None
  end.

(** The constructor of [block_store]. *)
Definition block_store_init (junk : Z) (d : database) : option database :=
  d ← do_upgrades junk d;
  s ← checksum_put 0 0 0 (db_store d);
  Some (set_db_store s d).
End upgrades.
