(* ===== verification/UpgradesSpec.v ===== *)
(** * UpgradesSpec: an old database becomes the ledger of its blocks

    A database of the first version that has the blocks, balances and pending sends of a
    ledger is upgraded to that ledger: opening blocks, representatives, weights, the keys of
    pending sends, successors, block counts and block information are computed from the
    blocks. *)

From stdpp Require Import base list option tactics gmap sorting.
From Stdlib Require Import ZArith Lia.
From S2P Require Import Prelude Blocks Common Store Tables Visitors Ledger Genesis Caches Chain Balance LedgerInv Queries Upgrades.
#[local] Open Scope Z_scope.

(** ** Records *)

Definition account_info_v1_wf (i : account_info_v1) : Prop :=
  in_width 256 (v1_head i) /\ in_width 256 (v1_rep_block i) /\ in_width 128 (v1_balance i) /\ in_width 64 (v1_modified i).
Definition pending_info_v3_wf (i : pending_info_v3) : Prop :=
  in_width 256 (p3_source i) /\ in_width 128 (p3_amount i) /\ in_width 256 (p3_destination i).
Definition account_info_v5_wf (i : account_info_v5) : Prop :=
  in_width 256 (v5_head i) /\ in_width 256 (v5_rep_block i) /\ in_width 256 (v5_open_block i)
  /\ in_width 128 (v5_balance i) /\ in_width 64 (v5_modified i).

#[export] Instance account_info_v1_codec : Codec account_info_v1 := {
  codec_wf := account_info_v1_wf;
  codec_put := account_info_v1_serialize;
  codec_get := account_info_v1_deserialize
}.
#[export] Instance pending_info_v3_codec : Codec pending_info_v3 := {
  codec_wf := pending_info_v3_wf;
  codec_put := pending_info_v3_serialize;
  codec_get := pending_info_v3_deserialize
}.
#[export] Instance account_info_v5_codec : Codec account_info_v5 := {
  codec_wf := account_info_v5_wf;
  codec_put := account_info_v5_serialize;
  codec_get := account_info_v5_deserialize
}.
#[export] Hint Unfold account_info_v1_wf account_info_v1_serialize account_info_v1_deserialize
  pending_info_v3_wf pending_info_v3_serialize pending_info_v3_deserialize
  account_info_v5_wf account_info_v5_serialize account_info_v5_deserialize : record_read.

#[export] Instance account_info_v1_laws : CodecLaws account_info_v1.
Proof. fixed_record_laws. Qed.
#[export] Instance pending_info_v3_laws : CodecLaws pending_info_v3.
Proof. fixed_record_laws. Qed.
#[export] Instance account_info_v5_laws : CodecLaws account_info_v5.
Proof. fixed_record_laws. Qed.

(** The forms of the records differ in their sizes. *)
Theorem record_sizes i1 i5 i6 p3 p4 :
  length (account_info_v1_serialize i1) = 88%nat /\ length (account_info_v5_serialize i5) = 120%nat
  /\ length (account_info_serialize i6) = 128%nat
  /\ length (pending_info_v3_serialize p3) = 80%nat /\ length (pending_info_serialize p4) = 48%nat.
Proof.
  unfold account_info_v1_serialize, account_info_v5_serialize, account_info_serialize, pending_info_v3_serialize, pending_info_serialize.
  rewrite !length_app, !be_bytes_length, !le_bytes_length. done.
Qed.

(** ** Loops over tables *)

Lemma each_inv {A} (f : Z -> A -> option A) (P : list Z -> A -> Prop) ks : forall x,
  (forall k ks x, P (k :: ks) x -> exists x', f k x = Some x' /\ P ks x') -> P ks x ->
  exists x', each f ks x = Some x' /\ P [] x'.
Proof.
  induction ks as [|k ks IH]; intros x Hf Hx; [by exists x|]. cbn [each].
  destruct (Hf _ _ _ Hx) as (x' & -> & Hx'). by apply IH.
Qed.

(** ** The ledger behind a database *)

Section upgrade.
Context `{E0 : Env} `{T0 : Traffic} `{!TrafficLaws}.
Context (K : Z) (D : Z -> Z) (G : gmap Z chain_info) (s : store) (HI : ledger_inv K D G s).
Local Abbreviation C := (contents (blocks s)).
Local Abbreviation A := (accounts s).

(** [t] has the same blocks; their successors may be missing. *)
Definition alike (t : store) : Prop := tables_ok t /\ contents (blocks t) = C.

Lemma get_alike t h : alike t -> block_get t h = block_get s h.
Proof. intros [Ht E]. by rewrite !block_get_blocks, <- !contents_lookup, E by (done || apply HI). Qed.

Lemma rk_size h m : G !! h = Some m -> (rk G m < size G)%nat.
Proof.
  intros Hm. apply (rk_subset h m); [apply map_filter_subseteq|done|].
  apply map_lookup_filter_None. right. intros v Hv. simplify_eq. cbn. lia.
Qed.

Lemma size_alike t : alike t -> (size G <= blocks_total t)%nat.
Proof.
  intros [_ E]. etrans; [|apply blocks_total_size]. apply Nat.eq_le_incl. symmetry.
  rewrite <- (map_size_fmap fst (blocks t)). change (size (contents (blocks t)) = size G). rewrite E. unfold contents. rewrite map_size_fmap.
  rewrite <- !size_dom. f_equal. apply set_eq. intros k. rewrite !elem_of_dom. symmetry. apply (chain_dom (li_chain HI)).
Qed.

Lemma rk_alike t h m : alike t -> G !! h = Some m -> (rk G m < blocks_total t)%nat.
Proof. intros Ht Hm. pose proof (size_alike _ Ht). pose proof (rk_size _ _ Hm). lia. Qed.

(** Accounts are keys of 256 bits other than zero. *)
Lemma account_width h m : G !! h = Some m -> 0 < ci_account m < 2 ^ 256.
Proof.
  remember (ci_rank m) as n eqn:Hn. revert h m Hn. induction n as [n IH] using lt_wf_ind. intros h m Hn Hm.
  destruct (facts_stored _ _ _ _ HI _ _ Hm) as (b & succ & Hb & Hok & _). destruct (chain_facts (li_chain HI) _ _ Hm) as (_ & H0 & _).
  pose proof (admitted_wf _ (li_admitted HI _ _ _ Hb)) as Hwf.
  assert (forall prev p, follows G prev p m -> 0 < ci_account m < 2 ^ 256) as Hf.
  { intros prev p (_ & Hp & -> & _ & Hr). eapply (IH (ci_rank p)); [lia|done..]. }
  assert (in_width 256 (ci_account m) -> 0 < ci_account m < 2 ^ 256) as Hw by (unfold in_width; lia).
  destruct b as [b|b|b|b|b]; cbn in Hok.
  - destruct Hok as (p & Hp & _). eauto.
  - destruct Hok as (p & x & Hp & _). eauto.
  - destruct Hok as (E & _). apply Hw. rewrite E. cbn in Hwf. by destruct_and! Hwf.
  - destruct Hok as (p & Hp & _). eauto.
  - destruct Hok as (E & _). apply Hw. rewrite E. cbn in Hwf. by destruct_and! Hwf.
Qed.

Lemma account_key a i : A !! a = Some i -> 0 < a < 2 ^ 256.
Proof. intros Hi. destruct (li_head HI _ _ Hi) as (b & m & _ & Hm & <- & _). by eapply account_width. Qed.

(** ** Version 2 *)

Lemma first_block_of t fuel : alike t -> forall h b m,
  block_get s h = Some b -> G !! h = Some m -> (rk G m < fuel)%nat ->
  exists o, first_block fuel t b = Some o /\ previous o = 0 /\ block_get s (hash o) = Some o
    /\ exists om, G !! hash o = Some om /\ ci_account om = ci_account m.
Proof.
  intros Ht. induction fuel as [|fuel IH]; intros h b m Hb Hm Hf; [lia|]. cbn [first_block].
  destruct (get_facts _ _ _ _ HI _ _ Hb) as (Hh & _ & _ & m' & Hm' & Hp). simplify_eq.
  destruct (Z.eqb_spec (previous b) 0) as [E|E]; [exists b; split_and!; eauto|].
  destruct Hp as [?|(p & _ & Hp & Ha & _ & Hr)]; [done|]. destruct (facts_get _ _ _ _ HI _ _ Hp) as [pb Hpb].
  rewrite (get_alike t) by done. rewrite Hpb. cbn [mbind option_bind]. pose proof (rk_lt G _ _ _ Hp Hr).
  rewrite Ha. apply (IH (previous b)); [done..|lia].
Qed.

Lemma account_opened t a i r : alike t -> A !! a = Some i ->
  account_v1_to_v5 t (AccountInfoV1 (ai_head i) r (ai_balance i) (ai_modified i))
  = Some (AccountInfoV5 (ai_head i) r (ai_open_block i) (ai_balance i) (ai_modified i)).
Proof.
  intros Ht Hi. destruct (li_head HI _ _ Hi) as (b & m & Hb & Hm & Ha & _).
  destruct (facts_get _ _ _ _ HI _ _ Hm) as [b' Hb']. unfold account_v1_to_v5. cbn [v1_head v1_rep_block v1_balance v1_modified].
  rewrite (get_alike t) by done. rewrite Hb'. cbn [mbind option_bind].
  destruct (first_block_of t (S (blocks_total t)) Ht _ _ _ Hb' Hm) as (o & -> & Hp & Ho & om & Hom & Hoa).
  { pose proof (rk_alike t _ _ Ht Hm). lia. }
  cbn [mbind option_bind]. do 2 f_equal. rewrite (block_get_of _ _ _ _ HI) in Ho. apply contents_Some in Ho as [succ Ho].
  symmetry. apply (li_open HI _ _ _ _ _ Ho Hom Hp). by rewrite Hoa, Ha.
Qed.

(** The records of an account in the three forms; [R] has the representatives of the first
    version, which nothing depends on. *)
Context (R : Z -> Z).
Definition value_v1 (a : Z) (i : account_info) : account_value := account_v1 (AccountInfoV1 (ai_head i) (R a) (ai_balance i) (ai_modified i)).
Definition value_v5 (r : Z) (i : account_info) : account_value :=
  account_v5 (AccountInfoV5 (ai_head i) r (ai_open_block i) (ai_balance i) (ai_modified i)).
Definition accounts_are (f : Z -> account_info -> account_value) (d : database) : Prop :=
  forall a, db_accounts d !! a = f a <$> A !! a.

Lemma accounts_keys f d : accounts_are f d -> forall a, is_Some (db_accounts d !! a) <-> is_Some (A !! a).
Proof. intros Hd a. by rewrite Hd, fmap_is_Some. Qed.

Lemma accounts_ordered f d : accounts_are f d -> ordered (db_accounts d) = ordered A.
Proof. intros Hd. by apply ordered_dom, (accounts_keys f). Qed.

(** Writing the record of one account. *)
Lemma accounts_put f g d a i v : accounts_are f d -> A !! a = Some i -> g a i = v -> (forall b j, b <> a -> A !! b = Some j -> g b j = f b j) ->
  accounts_are g (set_db_accounts (<[a := v]> (db_accounts d)) d).
Proof.
  intros Hf Hi Hv Hg b. cbn. destruct (decide (a = b)) as [<-|Hne]; [by rewrite lookup_insert_eq, Hi, <- Hv|].
  rewrite lookup_insert_ne, Hf by done. destruct (A !! b) as [j|] eqn:Hj; [|done]. cbn. by rewrite Hg by congruence.
Qed.

(** The accounts below [p] have been upgraded. *)
Definition below_v5 (p a : Z) : account_info -> account_value := if a <? p then value_v5 (R a) else value_v1 a.

Lemma below_all p d : (forall a i, A !! a = Some i -> a < p) -> accounts_are (below_v5 p) d -> accounts_are (fun a => value_v5 (R a)) d.
Proof.
  intros Hp Hd a. rewrite Hd. destruct (A !! a) as [i|] eqn:E; [|done]. cbn. unfold below_v5.
  by rewrite (proj2 (Z.ltb_lt a p)) by (by eapply Hp).
Qed.

Lemma upgrade_accounts_v2_from fuel : forall p d,
  alike (db_store d) -> 0 < p <= 2 ^ 256 -> accounts_are (below_v5 p) d -> (length (from A p) < fuel)%nat ->
  exists d', upgrade_accounts_v2 fuel (wrap 256 p) d = Some d' /\ (exists t, d' = set_db_accounts t d)
    /\ accounts_are (fun a => value_v5 (R a)) d'.
Proof.
  induction fuel as [|fuel IH]; intros p d Ht Hp Ha Hf; [lia|]. cbn [upgrade_accounts_v2].
  assert (exists t, d = set_db_accounts t d) as Hsame by (exists (db_accounts d); by destruct d).
  destruct (decide (p = 2 ^ 256)) as [->|Hne].
  { unfold wrap. rewrite Z_mod_same_full. exists d. split_and!; [done..|]. eapply below_all; [|done]. intros a i Hi. apply account_key in Hi. lia. }
  rewrite wrap_small by (unfold in_width; lia). rewrite (proj2 (Z.eqb_neq p 0)) by lia.
  assert (lower_bound (db_accounts d) p = head (from A p)) as ->.
  { change (lower_bound (db_accounts d) p) with (head (from (db_accounts d) p)). f_equal. by apply from_dom, (accounts_keys _ _ Ha). }
  destruct (from A p) as [|a ks] eqn:E; cbn [head].
  { exists d. split_and!; [done..|]. eapply below_all; [|done]. intros a i Hi. apply Z.lt_nge. intros Hge.
    assert (a ∈ from A p) as Hin by (apply from_elem; eauto). rewrite E in Hin. by apply not_elem_of_nil in Hin. }
  destruct (proj1 (from_elem A p a)) as [[i Hi] Hpa]; [rewrite E; by left|]. pose proof (account_key _ _ Hi) as Hk.
  rewrite Ha, Hi. unfold below_v5 at 1. rewrite (proj2 (Z.ltb_ge a p)) by lia. cbn [fmap option_fmap option_map mbind option_bind value_v1 as_v1].
  rewrite (account_opened _ a i) by done. cbn [mbind option_bind].
  destruct (IH (a + 1) (set_db_accounts (<[a := value_v5 (R a) i]> (db_accounts d)) d)) as (d' & Hd' & (t & Et) & Hv).
  - done.
  - lia.
  - apply (accounts_put (below_v5 p) _ _ _ i); [done..| |].
    + unfold below_v5. by rewrite (proj2 (Z.ltb_lt a (a + 1))) by lia.
    + intros b j Hb Hj. unfold below_v5. destruct (Z.ltb_spec b p), (Z.ltb_spec b (a + 1)); try done; [lia|].
      assert (b ∈ from A p) as Hin by (apply from_elem; eauto). rewrite E in Hin. pose proof (from_sorted A p) as Hs. rewrite E in Hs.
      apply StronglySorted_inv in Hs as [_ Hs]. rewrite Forall_forall in Hs. apply elem_of_cons in Hin as [?|Hin]; [done|]. specialize (Hs _ Hin). lia.
  - rewrite <- (from_tail _ _ _ _ E). cbn in Hf. lia.
  - exists d'. split_and!; [done|by exists t|done].
Qed.

(** ** Version 3 *)

Lemma representative_alike t h m : alike t -> G !! h = Some m -> representative_compute (visitor_fuel t) t h = Some (ci_rep m).
Proof.
  intros Ht Hm. unfold representative_compute. pose proof (rk_alike t _ _ Ht Hm).
  assert (forall fuel v, representative_loop fuel t v = representative_loop fuel s v) as ->.
  { induction fuel as [|fuel IH]; intros v; [done|]. cbn [representative_loop]. rewrite get_alike by done.
    case_match; [done|]. destruct (block_get s _); [apply IH|done]. }
  destruct (representative_at s G (li_tables HI) (li_chain HI) (S (rk G m)) h m (visitor_fuel t)) as [cur ->]; [done|lia| |done].
  unfold visitor_fuel. lia.
Qed.

(** What an account adds to the weight of [r]. *)
Definition weight_share (r _ : Z) (i : account_info) : Z := if rep_of C (ai_rep_block i) =? r then ai_balance i else 0.

(** The accounts of [ks] are left; the others have their representatives and their weight. *)
Definition weighed (d0 : database) (ks : list Z) (d : database) : Prop :=
  (exists x t, d = set_db_store (set_representation x (db_store d0)) (set_db_accounts t d0))
  /\ NoDup ks /\ (forall k, k ∈ ks -> is_Some (A !! k))
  /\ accounts_are (fun a i => value_v5 (if decide (a ∈ ks) then R a else ai_rep_block i) i) d
  /\ forall r, in_width 128 (representation_get (db_store d) r)
       /\ wrap 128 (representation_get (db_store d) r + list_sum (weight_share r) A ks) = wrap 128 (weight_of s r).

Lemma rep_block_stored a i : A !! a = Some i ->
  ai_rep_block i <> 0 /\ exists b, block_get s (ai_rep_block i) = Some b /\ rep_of C (ai_rep_block i) = representative b.
Proof.
  intros Hi. destruct (li_head HI _ _ Hi) as (_ & m & _ & Hm & _ & _ & Hr & _).
  destruct (chain_facts (li_chain HI) _ _ Hm) as (_ & _ & _ & (b & Hb & _)). rewrite <- Hr in Hb.
  assert (block_get s (ai_rep_block i) = Some b) as Hg by (by rewrite (block_get_of _ _ _ _ HI)).
  split; [by destruct (get_facts _ _ _ _ HI _ _ Hg) as (_ & ? & _)|]. exists b. split; [done|]. unfold rep_of. by rewrite Hb.
Qed.

Lemma weigh_step d0 k ks d : alike (db_store d0) -> weighed d0 (k :: ks) d ->
  exists d', upgrade_representative k d = Some d' /\ weighed d0 ks d'.
Proof.
  intros Ht ((x & t & Ed) & [Hk Hn]%NoDup_cons & Hin & Ha & Hw). destruct (Hin k) as [i Hi]; [by left|].
  destruct (li_head HI _ _ Hi) as (_ & m & _ & Hm & _ & _ & Hr & _). destruct (rep_block_stored _ _ Hi) as (H0 & b & Hb & Hrep).
  assert (alike (db_store d)) as Hd by (by rewrite Ed).
  unfold upgrade_representative. rewrite Ha, Hi. cbn [fmap option_fmap option_map mbind option_bind value_v5 as_v5 v5_head v5_balance v5_open_block v5_modified].
  rewrite (representative_alike _ _ m) by done. cbn [mbind option_bind]. rewrite <- Hr, (proj2 (Z.eqb_neq _ _) H0). cbn [negb assert mbind option_bind].
  unfold representation_add. rewrite (get_alike _ _ Hd), Hb. cbn [mbind option_bind]. eexists. split; [done|].
  split; [|split; [done|split; [|split]]].
  - rewrite Ed. eexists _, _. done.
  - intros y Hy. apply Hin. by right.
  - refine (accounts_put (fun a i => value_v5 (if decide (a ∈ k :: ks) then R a else ai_rep_block i) i) _ d k i _ Ha Hi _ _).
    + cbn. by rewrite decide_False.
    + intros y j Hy _. f_equal. destruct (decide (y ∈ ks)) as [Hyk|Hyk]; [by rewrite decide_True by (by right)|].
      rewrite decide_False; [done|]. by intros [?|?]%elem_of_cons.
  - intros r. destruct (Hw r) as [Hrw Hrs]. cbn [list_sum foldr] in Hrs. rewrite Hi in Hrs. fold (list_sum (weight_share r) A ks) in Hrs.
    unfold weight_share at 1 in Hrs. rewrite Hrep in Hrs. cbn [db_store set_db_store set_db_accounts].
    unfold representation_get, representation_put in *. cbn [representation set_representation] in *.
    destruct (Z.eqb_spec (representative b) r) as [->|Hne].
    + rewrite lookup_insert_eq. cbn [default from_option id]. split; [apply wrap_in_width; lia|]. rewrite wrap_add_l, <- Hrs. f_equal. lia.
    + rewrite lookup_insert_ne by done. split; [done|]. by rewrite <- Hrs.
Qed.

Lemma upgrade_v2_to_v3_spec d : alike (db_store d) -> accounts_are (fun a => value_v5 (R a)) d ->
  exists d' x t, upgrade_v2_to_v3 d = Some d' /\ d' = set_db_store (set_representation x (version_put 3 (db_store d))) (set_db_accounts t d)
    /\ accounts_are (fun _ i => value_v5 (ai_rep_block i) i) d' /\ forall r, representation_get (db_store d') r = wrap 128 (weight_of s r).
Proof.
  intros Ht Ha. unfold upgrade_v2_to_v3. set (d0 := db_version_put 3 d).
  destruct (each_inv upgrade_representative (weighed d0) (ordered (db_accounts d0)) (set_db_store (set_representation ∅ (db_store d0)) d0))
    as (d' & Hd' & ((x & t & Ed) & _ & _ & Ha' & Hw)).
  - intros k ks d1. by apply weigh_step.
  - split; [by eexists _, (db_accounts d0)|]. rewrite (accounts_ordered _ _ Ha : ordered (db_accounts d0) = _).
    split; [apply ordered_nodup|]. split; [intros k; by rewrite ordered_elem|]. split.
    + intros a. cbn. rewrite Ha. destruct (A !! a) eqn:E; [|done]. cbn. rewrite decide_True; [done|]. apply ordered_elem. eauto.
    + intros r. unfold representation_get. cbn. rewrite lookup_empty. cbn. split; [unfold in_width; lia|]. by rewrite ordered_sum.
  - exists d', x, t. split; [done|]. split; [by rewrite Ed|]. split.
    + intros a. rewrite Ha'. destruct (A !! a); [|done]. cbn. by rewrite decide_False by apply not_elem_of_nil.
    + intros r. destruct (Hw r) as [Hrw Hrs]. cbn in Hrs. by rewrite Z.add_0_r, wrap_small in Hrs by done.
Qed.

(** ** Version 4 *)

(** The sends [t] has are those of the ledger. *)
Definition pendings_are (t : gmap Z pending_info_v3) : Prop :=
  forall k p, pending s !! k = Some p <-> t !! pk_hash k = Some (PendingInfoV3 (pi_source p) (pi_amount p) (pk_account k)).

Lemma upgrade_v3_to_v4_spec d t : db_pending d = pending_v3 t -> pendings_are t ->
  upgrade_v3_to_v4 d = Some (set_db_pending (pending_v4 (pending s)) (db_version_put 4 d)).
Proof.
  intros Hd Ht. unfold pendings_are in Ht. unfold upgrade_v3_to_v4. change (db_pending (db_version_put 4 d)) with (db_pending d). rewrite Hd.
  destruct (each_inv (upgrade_pending t) (fun ks x => NoDup ks /\ (forall h, h ∈ ks -> is_Some (t !! h))
    /\ forall k p, x !! k = Some p <-> pending s !! k = Some p /\ pk_hash k ∉ ks) (ordered t) ∅) as (x & -> & _ & _ & Hx).
  - intros h ks x ([Hh Hn]%NoDup_cons & Hin & Hx). destruct (Hin h) as [[src amt dst] Hi]; [by left|].
    unfold upgrade_pending. rewrite Hi. eexists. split; [done|]. split; [done|]. split; [intros y Hy; apply Hin; by right|].
    intros [a g] [ps pa]. cbn [pk_hash p3_source p3_amount p3_destination]. rewrite lookup_insert_Some, Hx, Ht, not_elem_of_cons. cbn. split.
    + intros [[E1 E2]|[_ (H1 & _ & H2)]]; [|done]. by simplify_eq.
    + intros [E Hk]. destruct (decide (g = h)) as [->|Hne]; [simplify_eq; by left|right]. split; [congruence|done].
  - split; [apply ordered_nodup|]. split; [intros h; by rewrite ordered_elem|]. intros k p. rewrite lookup_empty, Ht.
    split; [done|]. intros [E Hk]. destruct Hk. apply ordered_elem. eauto.
  - cbn. do 3 f_equal. apply map_eq. intros k. apply option_eq. intros p. rewrite Hx. split; [by intros [? _]|]. intros ?. split; [done|apply not_elem_of_nil].
Qed.

(** ** Version 5 *)

(** The blocks of [t] have their successors or none; those in [P] have theirs. *)
Definition linked (P : Z -> Prop) (t : block_tables) : Prop :=
  tables_ok t /\ (forall h, blocks t !! h = None <-> blocks s !! h = None)
  /\ forall h b succ, blocks s !! h = Some (b, succ) -> exists x, blocks t !! h = Some (b, x) /\ (x = succ \/ x = 0 /\ ~ P h).

Lemma linked_alike P (t : store) : linked P t -> alike t.
Proof.
  intros (Hok & Hn & Hb). split; [done|]. apply map_eq. intros h. rewrite !contents_lookup.
  destruct (blocks s !! h) as [[b succ]|] eqn:E; [|by rewrite (proj2 (Hn _) E)]. by destruct (Hb _ _ _ E) as (x & -> & _).
Qed.

Lemma linked_weaken (P Q : Z -> Prop) t : (forall h, is_Some (blocks s !! h) -> Q h -> P h) -> linked P t -> linked Q t.
Proof.
  intros HPQ (Hok & Hn & Hb). split; [done|]. split; [done|]. intros h b succ Hh. destruct (Hb _ _ _ Hh) as (x & Hx & Hc). exists x. split; [done|].
  destruct Hc as [?|[? Hp]]; [by left|right]. split; [done|]. intros Hq. apply Hp, HPQ; eauto.
Qed.

Lemma stored_previous h b succ : blocks s !! h = Some (b, succ) -> previous_known b (blocks s).
Proof.
  intros Hb. destruct (stored_facts _ _ _ _ HI _ _ _ Hb) as (m & Hm & Hok). destruct (decide (previous b = 0)) as [E|E].
  - destruct b; cbn in Hok, E |- *; try (done || by left); destruct Hok as (? & ? & ?); unfold follows in *; naive_solver.
  - destruct (chain_back (li_chain HI) _ _ _ Hb E) as [pb Hpb]. destruct b; cbn in Hpb |- *; eauto; by rewrite Hpb; eauto.
Qed.

(** Writing a block with its successor. *)
Lemma link_step P t h b succ : linked P t -> blocks s !! h = Some (b, succ) -> succ <> 0 ->
  exists t', block_put h b succ t = Some t' /\ linked (fun k => P k \/ k = h) t'.
Proof.
  intros (Hok & Hn & Hl) Hb H0. destruct (chain_hash (li_chain HI) _ _ _ Hb) as [<- _].
  assert (forall k, is_Some (blocks s !! k) -> is_Some (blocks t !! k)) as Hs.
  { intros k [v Hv]. destruct (blocks t !! k) eqn:E; [done|]. apply Hn in E. congruence. }
  destruct (Hl _ _ _ Hb) as (x & Hx & _).
  destruct (block_put_successor b succ t) as (t' & Ht' & Hok' & E); [done| | | |].
  - right. apply Hs. destruct (chain_forth (li_chain HI) _ _ _ Hb H0) as (sb & ss & -> & _). eauto.
  - by rewrite Hx.
  - eapply previous_known_mono; [apply Hs|]. by eapply stored_previous.
  - exists t'. split; [done|]. split; [done|]. rewrite E. split.
    + intros k. rewrite link_previous_lookup. transitivity (<[hash b := (b, succ)]> (blocks t) !! k = None); [case_decide; [apply fmap_None|done]|].
      rewrite lookup_insert_None, Hn. split; [by intros [? _]|]. intros Hk. split; [done|]. intros <-. congruence.
    + intros k kb ks Hk. rewrite link_previous_lookup. destruct (Hl _ _ _ Hk) as (y & Hy & Hc).
      destruct (decide (k = hash b)) as [->|Hne].
      * simplify_eq. exists succ. split; [|by left]. rewrite lookup_insert_eq. case_decide as Hd; [|done]. destruct Hd as [Hd Hp].
        destruct (stored_facts _ _ _ _ HI _ _ _ Hb) as (m & Hm & Hbok). destruct (block_ok_follows _ _ _ _ _ Hbok Hp) as (p & _ & Hpm & _ & _ & Hr).
        rewrite <- Hd, Hm in Hpm. simplify_eq. lia.
      * rewrite lookup_insert_ne by done. rewrite Hy. case_decide as Hd; [|exists y; split; [done|destruct Hc as [?|[? ?]]; [by left|right; tauto]]]. destruct Hd as [-> Hp].
        destruct (chain_back (li_chain HI) _ _ _ Hb Hp) as [pb Hpb]. simplify_eq. exists (hash b). split; [done|by left].
Qed.
Lemma linked_add P t h b succ : linked P t -> blocks s !! h = Some (b, succ) -> blocks t !! h = Some (b, succ) -> linked (fun k => P k \/ k = h) t.
Proof.
  intros (Hok & Hn & Hl) Hs Ht. split; [done|]. split; [done|]. intros k kb ks Hk. destruct (Hl _ _ _ Hk) as (x & Hx & Hc). exists x. split; [done|].
  destruct (decide (k = h)) as [->|Hne]; [left; congruence|]. destruct Hc as [?|[? ?]]; [by left|right; tauto].
Qed.

Lemma add_successors_spec l : forall fuel P (t : store) h succ,
  linked P t -> segment s h l 0 -> (forall b x, blocks s !! h = Some (b, x) -> x = succ) -> (length l < fuel)%nat ->
  exists t', add_successors fuel t (block_get t h) succ = Some (set_tables t' t) /\ linked (fun k => P k \/ exists b, b ∈ l /\ hash b = k) t'.
Proof.
  induction l as [|b l IH]; intros fuel P t h succ Hl Hs Hsucc Hf; (destruct fuel as [|fuel]; [cbn in Hf; lia|]); cbn [add_successors];
    rewrite (get_alike t) by (by eapply linked_alike).
  { cbn in Hs. subst. rewrite (get_zero _ _ _ _ HI). exists (tables t). split; [by destruct t|].
    eapply linked_weaken; [|done]. intros k _ [?|(b & Hb & _)]; [done|]. by apply not_elem_of_nil in Hb. }
  destruct Hs as [Hb Hs]. destruct (get_facts _ _ _ _ HI _ _ Hb) as (Hh & _). rewrite Hb, Hh.
  rewrite (block_get_of _ _ _ _ HI) in Hb. apply contents_Some in Hb as [x Hb]. pose proof (Hsucc _ _ Hb) as ->.
  assert (exists t1, (if (block_successor t h =? 0) && negb (succ =? 0) then on_tables (block_put h b succ) t else Some t) = Some (set_tables t1 t)
    /\ linked (fun k => P k \/ k = h) t1) as (t1 & -> & Hl1).
  { pose proof Hl as (Hok & _ & Hx). destruct (Hx _ _ _ Hb) as (x & Hx' & Hc). rewrite block_successor_blocks, Hx' by done. cbn [snd].
    destruct (Z.eqb_spec x 0) as [->|Hx0], (Z.eqb_spec succ 0) as [->|Hs0]; cbn [negb andb].
    2: { destruct (link_step P t h b succ) as (t1 & Ht1 & Hl1); [done..|]. unfold on_tables. rewrite Ht1. by exists t1. }
    all: exists (tables t); split; [by destruct t|]; eapply linked_add; [done..|]; destruct Hc as [?|[? _]]; congruence. }
  cbn [mbind option_bind]. destruct (IH fuel _ (set_tables t1 t) (previous b) h Hl1 Hs) as (t' & -> & Hl').
  - intros pb y Hpb. destruct (decide (previous b = 0)) as [E|E].
    + rewrite E in Hpb. by destruct (chain_hash (li_chain HI) _ _ _ Hpb) as [_ [? _]].
    + destruct (chain_back (li_chain HI) _ _ _ Hb E) as [pb' Hpb']. congruence.
  - cbn in Hf. lia.
  - exists t'. split; [done|]. eapply linked_weaken; [|done]. intros k _ [?|(c & [->|Hc]%elem_of_cons & Hk)]; [by do 2 left|left; right; congruence|right; eauto].
Qed.

(** The accounts of [ks] are left; the blocks of the others have their successors. *)
Definition chained (ks : list Z) (t : block_tables) : Prop := linked (fun h => exists m, G !! h = Some m /\ ci_account m ∉ ks) t.

Lemma chain_step f k ks t d : accounts_are (fun _ i => value_v5 (f i) i) d -> is_Some (A !! k) -> chained (k :: ks) t ->
  exists t', upgrade_successors k (set_db_store (set_tables t (db_store d)) d) = Some (set_db_store (set_tables t' (db_store d)) d) /\ chained ks t'.
Proof.
  intros Ha [i Hi] Ht. unfold upgrade_successors. cbn [db_accounts db_store set_db_store]. rewrite Ha, Hi. cbn [fmap option_fmap option_map mbind option_bind value_v5 as_v5 v5_head].
  destruct (li_head HI _ _ Hi) as (b & m & Hb & Hm & Hk & _). destruct (segment_open _ _ _ _ HI _ _ Hm) as [l Hl].
  set (t0 := set_tables t (db_store d)). assert (alike t0) as Hal by (by eapply linked_alike).
  destruct (add_successors_spec l (S (S (blocks_total t0))) _ t0 (ai_head i) 0 Ht Hl) as (t' & -> & Hl').
  - intros b' x Hb'. congruence.
  - pose proof (rk_alike _ _ _ Hal Hm). destruct (segment_rank _ _ _ _ HI _ _ _ _ Hl Hm) as [? _]. lia.
  - exists t'. split; [done|]. eapply linked_weaken; [|done]. intros h _ (hm & Hhm & Hn).
    destruct (decide (ci_account hm = k)) as [E|E]; [right|left; exists hm; split; [done|]; by intros [?|?]%elem_of_cons].
    rewrite <- E in Hi. destruct (segment_head _ _ _ _ HI _ _ _ Hhm Hi) as [l' Hl1].
    destruct (segment_meet _ _ _ _ _ _ Hl Hl1) as [(c & Hc & Hg)|[l2 Hz]].
    + exists c. split; [done|]. by destruct (get_facts _ _ _ _ HI _ _ Hg) as (? & _).
    + apply (segment_zero _ _ _ _ HI) in Hz as [_ ->]. by rewrite (no_facts_zero _ _ _ _ HI) in Hhm.
Qed.

Lemma linked_all t : linked (fun _ => True) t <-> tables_ok t /\ blocks t = blocks s.
Proof.
  split.
  - intros (Hok & Hn & Hl). split; [done|]. apply map_eq. intros h. destruct (blocks s !! h) as [[b succ]|] eqn:E; [|by apply Hn].
    destruct (Hl _ _ _ E) as (x & -> & [->|[_ []]]); done.
  - intros [Hok E]. split; [done|]. rewrite E. split; [done|]. intros h b succ Hb. exists succ. auto.
Qed.

Lemma chained_all t : chained [] t -> linked (fun _ => True) t.
Proof.
  apply linked_weaken. intros h [[b succ] Hb] _. destruct (stored_facts _ _ _ _ HI _ _ _ Hb) as (m & Hm & _).
  exists m. split; [done|apply not_elem_of_nil].
Qed.

Lemma upgrade_v4_to_v5_spec f d : accounts_are (fun _ i => value_v5 (f i) i) d -> linked (fun _ => False) (db_store d) ->
  exists t, upgrade_v4_to_v5 d = Some (set_db_store (set_tables t (version_put 5 (db_store d))) d) /\ linked (fun _ => True) t.
Proof.
  intros Ha Hl. unfold upgrade_v4_to_v5. set (d0 := db_version_put 5 d). rewrite (accounts_ordered _ _ Ha : ordered (db_accounts d0) = _).
  destruct (each_inv upgrade_successors (fun ks x => exists t, x = set_db_store (set_tables t (db_store d0)) d0 /\ chained ks t /\ forall k, k ∈ ks -> is_Some (A !! k))
    (ordered A) d0) as (d' & -> & t & -> & Ht & _).
  - intros k ks x (t & -> & Ht & Hin). destruct (chain_step f k ks t d0) as (t' & -> & Ht'); [done|apply Hin; by left|done|].
    eexists. split; [done|]. exists t'. split_and!; [done..|]. intros y Hy. apply Hin. by right.
  - exists (tables (db_store d0)). split; [by destruct d as [? ? [] ? ? ? ?]|]. split; [|intros k; by rewrite ordered_elem].
    eapply linked_weaken; [|done]. intros h _ (m & Hm & Hk). apply Hk, ordered_elem, (li_owner HI _ _ Hm).
  - exists t. split; [done|by apply chained_all].
Qed.
End upgrade.
