(* ===== verification/UpgradesRun.v ===== *)
(** * UpgradesRun: from the first version to the last

    Block counts, votes and block information, and the upgrades in a row: the constructor of
    [block_store] turns a database of the first version into the ledger of its blocks. *)

From stdpp Require Import base list option tactics gmap sorting.
From Stdlib Require Import ZArith Lia.
From S2P Require Import Prelude Blocks Common Store Tables Visitors Ledger Genesis Caches Chain Balance LedgerInv Queries Runs Upgrades UpgradesSpec.
#[local] Open Scope Z_scope.

Section run.
Context `{E0 : Env} `{T0 : Traffic} `{!TrafficLaws}.
Context (K : Z) (D : Z -> Z) (G : gmap Z chain_info) (s : store) (HI : ledger_inv K D G s).
Local Abbreviation A := (accounts s).

(** ** Version 6 *)

Lemma count_blocks_spec t l : alike s t -> forall fuel h n, segment s h l 0 -> in_width 64 n -> (length l < fuel)%nat ->
  count_blocks fuel t h n = Some (wrap 64 (n + Z.of_nat (length l))).
Proof.
  intros Ht. induction l as [|b l IH]; intros fuel h n Hs Hn Hf; (destruct fuel as [|fuel]; [cbn in Hf; lia|]); cbn [count_blocks].
  { cbn in Hs. subst. cbn. by rewrite Z.add_0_r, wrap_small. }
  destruct Hs as [Hb Hs]. destruct (get_facts _ _ _ _ HI _ _ Hb) as (_ & H0 & _). rewrite (proj2 (Z.eqb_neq _ _) H0).
  rewrite (get_alike _ _ _ _ HI t), Hb by done. cbn [mbind option_bind]. rewrite IH; [|done|by apply wrap_in_width|cbn in Hf; lia].
  rewrite wrap_add_l. do 2 f_equal. cbn [length]. lia.
Qed.

Lemma count_of t a i : alike s t -> A !! a = Some i -> count_blocks (S (S (blocks_total t))) t (ai_head i) 0 = Some (ai_block_count i).
Proof.
  intros Ht Hi. destruct (li_head HI _ _ Hi) as (b & m & _ & Hm & _ & _ & _ & ->). destruct (segment_open _ _ _ _ HI _ _ Hm) as [l Hl].
  rewrite (count_blocks_spec t l) by (done || (pose proof (rk_alike _ _ _ _ HI _ _ _ Ht Hm); destruct (segment_rank _ _ _ _ HI _ _ _ _ Hl Hm) as [? _]; lia)).
  rewrite (segment_height _ _ _ _ HI _ _ _ _ Hl Hm), (no_facts_zero _ _ _ _ HI). cbn. do 2 f_equal. lia.
Qed.

Lemma upgrade_v5_to_v6_spec d : alike s (db_store d) -> accounts_are s (fun _ i => value_v5 (ai_rep_block i) i) d ->
  exists t, upgrade_v5_to_v6 d = Some (set_db_accounts t (db_version_put 6 d)) /\ forall a, t !! a = account_v6 <$> A !! a.
Proof.
  intros Ht Ha. unfold upgrade_v5_to_v6. set (d0 := db_version_put 6 d). rewrite (accounts_ordered _ _ _ Ha : ordered (db_accounts d0) = _).
  set (f (ks : list Z) := fun (a : Z) i => if decide (a ∈ ks) then value_v5 (ai_rep_block i) i else account_v6 i).
  destruct (each_inv (upgrade_count d0) (fun ks t => NoDup ks /\ (forall k, k ∈ ks -> is_Some (A !! k)) /\ accounts_are s (f ks) (set_db_accounts t d0))
    (ordered A) (db_accounts d0)) as (t & -> & _ & _ & Hf).
  - intros k ks t ([Hk Hn]%NoDup_cons & Hin & Hf). destruct (Hin k) as [i Hi]; [by left|].
    unfold upgrade_count. rewrite (Ha k : db_accounts d0 !! k = _), Hi. cbn [fmap option_fmap option_map mbind option_bind value_v5 as_v5 v5_head].
    rewrite (count_of _ k) by done. eexists. split; [done|]. split; [done|]. split; [intros y Hy; apply Hin; by right|].
    refine (accounts_put s (f (k :: ks)) (f ks) (set_db_accounts t d0) k i _ Hf Hi _ _).
    + unfold f. rewrite decide_False by done. by destruct i.
    + intros b j Hb _. unfold f. destruct (decide (b ∈ ks)); [by rewrite decide_True by (by right)|].
      rewrite decide_False; [done|]. by intros [?|?]%elem_of_cons.
  - split; [apply ordered_nodup|]. split; [intros k; by rewrite ordered_elem|]. intros a. cbn. rewrite Ha. destruct (A !! a) eqn:E; [|done].
    unfold f. cbn. rewrite decide_True; [done|]. apply ordered_elem. eauto.
  - exists t. split; [done|]. intros a. rewrite (Hf a : t !! a = _). destruct (A !! a); [|done]. unfold f. cbn. by rewrite decide_False by apply not_elem_of_nil.
Qed.

(** ** Version 9 *)

(** The vote an account's sequence number becomes. *)
Definition dummy_vote (junk a : Z) (value : stream) : stream :=
  vote_serialize (vote_make a junk (from_option fst 0 (read_le 8 value)) genesis_block).

Lemma upgrade_votes_spec junk a values : forall t, Forall (fun v => is_Some (read_le 8 v)) values ->
  exists t', upgrade_votes junk a values t = Some t' /\ (forall b, b <> a -> t' !! b = t !! b)
    /\ t' !! a = from_option (fun v => Some (dummy_vote junk a v)) (t !! a) (last values).
Proof.
  induction values as [|v values IH]; intros t Hv; [by exists t|]. apply Forall_cons in Hv as [[[n r] Hn] Hv].
  cbn [upgrade_votes]. unfold upgrade_vote. rewrite Hn. cbn [mbind option_bind].
  edestruct IH as (t' & -> & Ho & Ha); [done|]. exists t'. split; [done|]. split.
  - intros b Hb. rewrite Ho by done. by rewrite lookup_insert_ne.
  - rewrite Ha, lookup_insert_eq. destruct values as [|w values]; [cbn; unfold dummy_vote; by rewrite Hn|].
    cbn [last]. destruct (last (w :: values)) eqn:E; [done|]. by apply last_None in E.
Qed.

Lemma upgrade_v8_to_v9_spec junk d : (forall a v, v ∈ dups (db_sequence d) a -> is_Some (read_le 8 v)) ->
  exists t, upgrade_v8_to_v9 junk d = Some (set_db_sequence ∅ (set_db_vote t (db_version_put 9 d)))
    /\ forall a, t !! a = from_option (fun v => Some (dummy_vote junk a v)) (db_vote d !! a) (last (dups (db_sequence d) a)).
Proof.
  intros Hv. unfold upgrade_v8_to_v9. set (d0 := db_version_put 9 d).
  set (g a := from_option (fun v => Some (dummy_vote junk a v)) (db_vote d !! a) (last (dups (db_sequence d) a))).
  destruct (each_inv (fun a => upgrade_votes junk a (dups (db_sequence d0) a))
    (fun ks t => NoDup ks /\ forall a, t !! a = if decide (a ∈ ks) then db_vote d !! a else g a) (ordered (db_sequence d0)) (db_vote d0)) as (t & -> & _ & Ht).
  - intros k ks t ([Hk Hn]%NoDup_cons & Ht). destruct (upgrade_votes_spec junk k (dups (db_sequence d0) k) t) as (t' & -> & Ho & Ha).
    { apply Forall_forall. intros v Hin. by eapply Hv. }
    exists t'. split; [done|]. split; [done|]. intros a. destruct (decide (a = k)) as [->|Hne].
    + rewrite Ha, Ht, decide_True by (by left). by rewrite decide_False.
    + rewrite Ho, Ht by done. destruct (decide (a ∈ ks)); [by rewrite decide_True by (by right)|].
      rewrite decide_False; [done|]. by intros [?|?]%elem_of_cons.
  - split; [apply ordered_nodup|]. intros a. case_decide as Hd; [done|]. unfold g, dups. destruct (db_sequence d !! a) eqn:E; [|done].
    destruct Hd. apply ordered_elem. eauto.
  - exists t. split; [done|]. intros a. rewrite Ht. by rewrite decide_False by apply not_elem_of_nil.
Qed.

(** ** Version 10 *)

(** Every entry is that of a block whose height is a multiple of [block_info_max]. *)
Definition infos_ok (I : gmap Z block_info) : Prop :=
  forall h i, I !! h = Some i -> exists m, G !! h = Some m /\ bi_account i = ci_account m /\ bi_balance i = ci_balance m
    /\ Z.of_nat (ci_height m) mod block_info_max = 0.

Lemma balance_upgraded (t : store) h m : tables_ok t -> blocks t = blocks s -> infos_ok (blocks_info t) -> G !! h = Some m -> balance t h = Some (ci_balance m).
Proof.
  intros Hok E Hinf. apply balance_facts; [done|rewrite E; apply HI|]. intros k i km Hi Hm. destruct (Hinf _ _ Hi) as (m' & Hm' & _ & ? & _). congruence.
Qed.

Lemma wrap_mod_info n : wrap 64 n mod block_info_max = n mod block_info_max.
Proof. unfold wrap, block_info_max. apply Z.mod_mod_divide. by exists (2 ^ 59). Qed.

Definition infos_grow (I I' : gmap Z block_info) : Prop := forall k, is_Some (I !! k) -> is_Some (I' !! k).

(** From the block [h] on to the head of its account. *)
Lemma add_block_info_spec n : forall fuel (t : store) h b succ m count,
  tables_ok t -> blocks t = blocks s -> infos_ok (blocks_info t) -> blocks s !! h = Some (b, succ) -> G !! h = Some m ->
  wrap 64 (Z.of_nat (ci_height m)) = count -> (size G - rk G m <= n)%nat -> (n < fuel)%nat ->
  exists I, add_block_info (S fuel) t (ci_account m) h count = Some (set_blocks_info I t) /\ infos_ok I /\ infos_grow (blocks_info t) I
    /\ forall k l km, segment s k l h -> G !! k = Some km -> Z.of_nat (ci_height km) mod block_info_max = 0 -> is_Some (I !! k).
Proof.
  induction n as [|n IH]; intros fuel t h b succ m count Hok E Hinf Hb Hm <- Hn Hf.
  { pose proof (rk_size G _ _ Hm). lia. }
  cbn [add_block_info]. destruct (chain_hash (li_chain HI) _ _ _ Hb) as [Hh [H0 _]].
  rewrite (proj2 (Z.eqb_neq _ _) H0), wrap_mod_info.
  assert (exists I, (if Z.of_nat (ci_height m) mod block_info_max =? 0 then bal ← balance t h; Some (block_info_put h (BlockInfo (ci_account m) bal) t) else Some t)
      = Some (set_blocks_info I t) /\ infos_ok I /\ infos_grow (blocks_info t) I
      /\ (Z.of_nat (ci_height m) mod block_info_max = 0 -> is_Some (I !! h))) as (I & -> & HokI & HgI & HhI).
  { destruct (Z.eqb_spec (Z.of_nat (ci_height m) mod block_info_max) 0) as [Ez|Ez]; [|exists (blocks_info t); split; [by destruct t|]; split; [done|]; split; [by intros k|by intros Hz]].
    rewrite (balance_upgraded _ _ _ Hok E Hinf Hm). eexists. split; [done|]. split; [|split].
    - intros k i. rewrite lookup_insert_Some. intros [[<- <-]|[_ Hk]]; [by exists m|by apply Hinf].
    - intros k Hk. rewrite lookup_insert_is_Some'. by right.
    - intros _. rewrite lookup_insert_eq. eauto. }
  cbn [mbind option_bind]. rewrite block_successor_blocks by done. cbn [tables set_blocks_info]. rewrite E, Hb. cbn [snd].
  assert (forall k l sb, segment s k (l ++ [sb]) h -> segment s k l (hash sb) /\ succ = hash sb) as Hup.
  { intros k l sb Hs. destruct (segment_last _ _ _ _ _ Hs) as (x & Hx & Hg & Hp). destruct (get_facts _ _ _ _ HI _ _ Hg) as (<- & _).
    split; [done|]. rewrite (block_get_of _ _ _ _ HI) in Hg. apply contents_Some in Hg as [ss Hss].
    destruct (chain_back (li_chain HI) _ _ _ Hss) as [pb Hpb]; [congruence|]. rewrite Hp in Hpb. congruence. }
  destruct fuel as [|fuel]; [lia|]. destruct (decide (succ = 0)) as [->|Hs].
  - exists I. split; [done|]. split; [done|]. split; [done|]. intros k l km Hkl Hkm Hz. destruct l as [|sb l _] using rev_ind; [cbn in Hkl; subst; simplify_eq; auto|].
    destruct (Hup _ _ _ Hkl) as [Hx Hz0]. destruct (segment_last _ _ _ _ _ Hkl) as (x & _ & Hg & _). destruct (get_facts _ _ _ _ HI _ _ Hg) as (? & ? & _). congruence.
  - destruct (successor_facts _ _ _ _ HI _ _ _ _ Hb Hm Hs) as (sb & ss & sm & Hsb & Hsm & _ & _ & _ & Ha & Hht & Hr). pose proof (rk_lt G _ _ _ Hm Hr).
    destruct (IH fuel (set_blocks_info I t) succ sb ss sm (wrap 64 (wrap 64 (Z.of_nat (ci_height m)) + 1))) as (I' & HI' & HokI' & HgI' & Hall); [done..| |lia|lia|].
    { rewrite wrap_add_l, Hht. f_equal. lia. }
    rewrite Ha in HI'. exists I'. split; [done|]. split; [done|]. split; [intros k Hk; by apply HgI', HgI|].
    intros k l km Hkl Hkm Hz. destruct l as [|lb l _] using rev_ind; [cbn in Hkl; subst; simplify_eq; by apply HgI', HhI|].
    destruct (Hup _ _ _ Hkl) as [Hx ->]. by eapply Hall.
Qed.

(** The accounts of [ks] are left. *)
Definition informed (ks : list Z) (I : gmap Z block_info) : Prop :=
  infos_ok I /\ forall h m, G !! h = Some m -> ci_account m ∉ ks -> Z.of_nat (ci_height m) mod block_info_max = 0 -> is_Some (I !! h).

Lemma informed_next k ks I I' : informed (k :: ks) I -> infos_ok I' -> infos_grow I I' ->
  (forall h m, G !! h = Some m -> ci_account m = k -> Z.of_nat (ci_height m) mod block_info_max = 0 -> is_Some (I' !! h)) -> informed ks I'.
Proof.
  intros [_ Hold] Hok Hg Hk. split; [done|]. intros h m Hm Hn Hz. destruct (decide (ci_account m = k)) as [E|E]; [by eapply Hk|].
  apply Hg. eapply Hold; [done| |done]. by intros [?|?]%elem_of_cons.
Qed.

(** The blocks of an account are no higher than its head. *)
Lemma height_le_head h m i : G !! h = Some m -> A !! ci_account m = Some i -> Z.of_nat (size G) < 2 ^ 64 -> Z.of_nat (ci_height m) <= ai_block_count i.
Proof.
  intros Hm Hi Hsz. destruct (segment_head _ _ _ _ HI _ _ _ Hm Hi) as [l Hl]. destruct (li_head HI _ _ Hi) as (b & hm & _ & Hhm & _ & _ & _ & ->).
  pose proof (segment_height _ _ _ _ HI _ _ _ _ Hl Hhm) as Hh. rewrite Hm in Hh. cbn in Hh.
  destruct (segment_open _ _ _ _ HI _ _ Hhm) as [l0 Hl0]. pose proof (segment_height _ _ _ _ HI _ _ _ _ Hl0 Hhm) as H0.
  rewrite (no_facts_zero _ _ _ _ HI) in H0.
  destruct (segment_rank _ _ _ _ HI _ _ _ _ Hl0 Hhm) as [Hr _]. pose proof (rk_size G _ _ Hhm). cbn in H0. rewrite wrap_small; [lia|]. unfold in_width. lia.
Qed.

Lemma inform_step k ks I d : Z.of_nat (size G) < 2 ^ 64 -> accounts_are s (fun _ => account_v6) d -> tables_ok (db_store d) -> blocks (db_store d) = blocks s ->
  is_Some (A !! k) -> informed (k :: ks) I ->
  exists I', upgrade_block_info k (set_db_store (set_blocks_info I (db_store d)) d) = Some (set_db_store (set_blocks_info I' (db_store d)) d) /\ informed ks I'.
Proof.
  intros Hsz Ha Hok E [i Hi] Hinf. unfold upgrade_block_info. cbn [db_accounts db_store set_db_store]. rewrite Ha, Hi. cbn [fmap option_fmap option_map mbind option_bind as_v6].
  destruct (Z.leb_spec block_info_max (ai_block_count i)) as [Hc|Hc].
  - destruct (li_opened HI _ _ Hi) as (b & succ & m & Hb & Hm & Hk & Hp). set (t := set_blocks_info I (db_store d)).
    assert (alike s t) as Hal by (split; [done|]; by change (contents (blocks (db_store d)) = contents (blocks s)); rewrite E).
    assert (ci_height m = 1%nat) as H1.
    { assert (block_get s (ai_open_block i) = Some b) as Hg by (by rewrite (block_get_of _ _ _ _ HI), contents_lookup, Hb).
      rewrite (segment_height _ _ _ _ HI [b] _ 0 _ ltac:(done) Hm).
      by rewrite (no_facts_zero _ _ _ _ HI). }
    destruct (add_block_info_spec (size G) (S (blocks_total t)) t (ai_open_block i) b succ m 1) as (I' & HI' & HokI & Hg & Hall); try done.
    { by destruct Hinf. } { by rewrite H1. } { lia. } { pose proof (size_alike _ _ _ _ HI _ Hal). lia. }
    rewrite Hk in HI'. rewrite HI'. exists I'. split; [done|]. eapply informed_next; [done..|]. intros h hm Hhm Hha Hz.
    rewrite <- Hha in Hi. destruct (segment_first _ _ _ _ HI _ _ _ Hhm Hi) as [l Hl]. by eapply Hall.
  - exists I. split; [done|]. eapply informed_next; [done|apply Hinf|by intros h|]. intros h m Hm Hk Hz. rewrite <- Hk in Hi.
    pose proof (height_le_head _ _ _ Hm Hi Hsz). destruct (chain_facts (li_chain HI) _ _ Hm) as (_ & _ & Hpos & _).
    rewrite Z.mod_small in Hz by lia. lia.
Qed.

Lemma upgrade_v9_to_v10_spec d : Z.of_nat (size G) < 2 ^ 64 -> accounts_are s (fun _ => account_v6) d -> tables_ok (db_store d) -> blocks (db_store d) = blocks s ->
  blocks_info (db_store d) = ∅ ->
  exists I, upgrade_v9_to_v10 d = Some (set_db_store (set_blocks_info I (version_put 10 (db_store d))) d) /\ informed [] I.
Proof.
  intros Hsz Ha Hok E HI0. unfold upgrade_v9_to_v10. set (d0 := db_version_put 10 d). rewrite (accounts_ordered _ _ _ Ha : ordered (db_accounts d0) = _).
  destruct (each_inv upgrade_block_info (fun ks x => exists I, x = set_db_store (set_blocks_info I (db_store d0)) d0 /\ informed ks I /\ forall k, k ∈ ks -> is_Some (A !! k))
    (ordered A) d0) as (d' & -> & I & -> & HinfI & _).
  - intros k ks x (I & -> & Hinf & Hin). destruct (inform_step k ks I d0) as (I' & -> & HI'); [done..|apply Hin; by left|done|].
    eexists. split; [done|]. exists I'. split_and!; [done..|]. intros y Hy. apply Hin. by right.
  - exists (blocks_info (db_store d0)). split; [by destruct d as [? ? [] ? ? ? ?]|]. split; [|intros k; by rewrite ordered_elem].
    change (blocks_info (db_store d0)) with (blocks_info (db_store d)). rewrite HI0. split; [intros h i; by rewrite lookup_empty|].
    intros h m Hm Hk _. destruct Hk. apply ordered_elem, (li_owner HI _ _ Hm).
  - by exists I.
Qed.

(** The same without the facts of the chain: the entries are those of the blocks with a
    multiple of [block_info_max] blocks from them to the beginning of their chain. *)
Definition infos_are (I : gmap Z block_info) : Prop :=
  (forall h i, I !! h = Some i -> account s h = Some (bi_account i) /\ balance s h = Some (bi_balance i)
     /\ exists l, l <> [] /\ segment s h l 0 /\ Z.of_nat (length l) mod block_info_max = 0)
  /\ forall h l, l <> [] -> segment s h l 0 -> Z.of_nat (length l) mod block_info_max = 0 -> is_Some (I !! h).

Lemma chain_height h l m : segment s h l 0 -> G !! h = Some m -> ci_height m = length l.
Proof. intros Hl Hm. rewrite (segment_height _ _ _ _ HI _ _ _ _ Hl Hm), (no_facts_zero _ _ _ _ HI). cbn. lia. Qed.

Lemma chain_known h l : l <> [] -> segment s h l 0 -> exists m, G !! h = Some m.
Proof. destruct l as [|b l]; [done|]. intros _ [Hb _]. destruct (get_facts _ _ _ _ HI _ _ Hb) as (_ & _ & _ & m & Hm & _). eauto. Qed.

Lemma infos_informed I : infos_are I <-> informed [] I.
Proof.
  split; intros [Hi Hk]; split.
  - intros h i Hh. destruct (Hi _ _ Hh) as (Ha & Hb & l & Hl & Hs & Hz). destruct (chain_known _ _ Hl Hs) as [m Hm]. exists m.
    rewrite (account_of _ _ _ _ HI _ _ Hm) in Ha. rewrite (balance_of _ _ _ _ HI _ _ Hm) in Hb. rewrite (chain_height _ _ _ Hs Hm). split_and!; congruence.
  - intros h m Hm _ Hz. destruct (segment_open _ _ _ _ HI _ _ Hm) as [l Hs]. pose proof (chain_height _ _ _ Hs Hm) as Hh.
    destruct (chain_facts (li_chain HI) _ _ Hm) as (_ & _ & Hpos & _). apply (Hk h l); [|done|congruence]. intros ->. cbn in Hh. lia.
  - intros h i Hh. destruct (Hi _ _ Hh) as (m & Hm & Ha & Hb & Hz). rewrite (account_of _ _ _ _ HI _ _ Hm), (balance_of _ _ _ _ HI _ _ Hm), Ha, Hb.
    split_and!; [done..|]. destruct (segment_open _ _ _ _ HI _ _ Hm) as [l Hs]. pose proof (chain_height _ _ _ Hs Hm) as Hh'.
    destruct (chain_facts (li_chain HI) _ _ Hm) as (_ & _ & Hpos & _). exists l. split_and!; [|done|congruence]. intros ->. cbn in Hh'. lia.
  - intros h l Hl Hs Hz. destruct (chain_known _ _ Hl Hs) as [m Hm]. apply (Hk _ _ Hm); [apply not_elem_of_nil|]. by rewrite (chain_height _ _ _ Hs Hm).
Qed.

(** ** All upgrades *)

Context (R : Z -> Z).

Definition record_at (v a : Z) (i : account_info) : account_value :=
  if v <=? 1 then value_v1 R a i
  else if v <=? 2 then value_v5 (R a) i
  else if v <=? 5 then value_v5 (ai_rep_block i) i
  else account_v6 i.

(** [d] holds the ledger in the form of version [v]. *)
Record ledger_at (v : Z) (d : database) : Prop := {
  la_version : version_get (db_store d) = v;
  la_accounts : accounts_are s (record_at v) d;
  la_weights : 3 <= v -> forall r, representation_get (db_store d) r = wrap 128 (weight_of s r);
  la_pending : match db_pending d with pending_v3 t => v <= 3 /\ pendings_are s t | pending_v4 t => 4 <= v /\ t = pending s end;
  la_blocks : linked s (fun _ => 5 <= v) (db_store d);
  la_sequence : v <= 8 -> forall a x, x ∈ dups (db_sequence d) a -> is_Some (read_le 8 x);
  la_infos : if v <=? 9 then blocks_info (db_store d) = ∅ else infos_are (blocks_info (db_store d));
  la_frontiers : frontiers (db_store d) = frontiers s
}.

Lemma ledger_at_blocks v d : 5 <= v -> ledger_at v d -> tables_ok (db_store d) /\ blocks (db_store d) = blocks s.
Proof. intros Hv Hd. apply linked_all. by eapply linked_weaken, Hd. Qed.

Lemma version_get_put v t : version_get (version_put v t) = v.
Proof. unfold version_get, version_put. cbn. by rewrite lookup_insert_eq. Qed.

(** What an upgrade leaves alone. *)
Lemma pending_keeps v v' p : (v <= 3 <-> v' <= 3) ->
  match p with pending_v3 t => v <= 3 /\ pendings_are s t | pending_v4 t => 4 <= v /\ t = pending s end ->
  match p with pending_v3 t => v' <= 3 /\ pendings_are s t | pending_v4 t => 4 <= v' /\ t = pending s end.
Proof. intros Hv. destruct p; intros [? ?]; split; try done; lia. Qed.

Ltac keep_fields Hw Hs := split; try (exact (version_get_put _ _)); try done; try (intros; lia); try (intros _; apply Hw; lia); try (intros _; apply Hs; lia);
  try (eapply pending_keeps; [|eassumption]; lia); try (eapply linked_weaken; [|eassumption]; intros; cbn in *; lia).

Lemma ledger_at_1 d : ledger_at 1 d -> exists d', upgrade_v1_to_v2 d = Some d' /\ ledger_at 2 d'.
Proof.
  intros [Hv Ha Hw Hp Hl Hs Hi Hf]. unfold upgrade_v1_to_v2. set (d0 := db_version_put 2 d).
  destruct (upgrade_accounts_v2_from _ _ _ _ HI R (S (size (db_accounts d))) 1 d0) as (d' & Hd' & (t & ->) & Ha').
  - by eapply linked_alike.
  - lia.
  - intros a. rewrite (Ha a : db_accounts d0 !! a = _). destruct (A !! a) as [i|] eqn:E; [|done]. apply (account_key _ _ _ _ HI) in E as ?.
    cbn. unfold below_v5. by rewrite (proj2 (Z.ltb_ge a 1)) by lia.
  - rewrite <- (from_dom (db_accounts d) A) by (by eapply accounts_keys). pose proof (from_length (db_accounts d) 1). lia.
  - exists (set_db_accounts t d0). split; [done|]. keep_fields Hw Hs.
Qed.

Lemma ledger_at_2 d : ledger_at 2 d -> exists d', upgrade_v2_to_v3 d = Some d' /\ ledger_at 3 d'.
Proof.
  intros [Hv Ha Hw Hp Hl Hs Hi Hf].
  destruct (upgrade_v2_to_v3_spec _ _ _ _ HI R d) as (d' & x & t & Hd' & -> & Ha' & Hw'); [by eapply linked_alike|done|].
  eexists. split; [done|]. keep_fields Hw Hs.
Qed.

Lemma ledger_at_3 d : ledger_at 3 d -> exists d', upgrade_v3_to_v4 d = Some d' /\ ledger_at 4 d'.
Proof.
  intros [Hv Ha Hw Hp Hl Hs Hi Hf]. destruct (db_pending d) as [t|t] eqn:E; [|lia]. destruct Hp as [_ Hp].
  rewrite (upgrade_v3_to_v4_spec _ _ _ E Hp). eexists. split; [done|]. keep_fields Hw Hs.
Qed.

Lemma ledger_at_4 d : ledger_at 4 d -> exists d', upgrade_v4_to_v5 d = Some d' /\ ledger_at 5 d'.
Proof.
  intros [Hv Ha Hw Hp Hl Hs Hi Hf].
  destruct (upgrade_v4_to_v5_spec _ _ _ _ HI R ai_rep_block d) as (t & -> & Ht); [done|eapply linked_weaken; [|done]; done|].
  eexists. split; [done|]. clear Hl. keep_fields Hw Hs.
Qed.

Lemma ledger_at_5 d : ledger_at 5 d -> exists d', upgrade_v5_to_v6 d = Some d' /\ ledger_at 6 d'.
Proof.
  intros [Hv Ha Hw Hp Hl Hs Hi Hf].
  destruct (upgrade_v5_to_v6_spec d) as (t & -> & Ht); [by eapply linked_alike|done|].
  eexists. split; [done|]. keep_fields Hw Hs.
Qed.

Lemma ledger_at_6 d : ledger_at 6 d -> exists d', upgrade_v6_to_v7 d = Some d' /\ ledger_at 7 d'.
Proof. intros [Hv Ha Hw Hp Hl Hs Hi Hf]. eexists. split; [done|]. keep_fields Hw Hs. Qed.

Lemma ledger_at_7 d : ledger_at 7 d -> exists d', upgrade_v7_to_v8 d = Some d' /\ ledger_at 8 d'.
Proof. intros [Hv Ha Hw Hp Hl Hs Hi Hf]. eexists. split; [done|]. keep_fields Hw Hs. Qed.

Lemma ledger_at_8 junk d : ledger_at 8 d -> exists d', upgrade_v8_to_v9 junk d = Some d' /\ ledger_at 9 d'.
Proof.
  intros [Hv Ha Hw Hp Hl Hs Hi Hf]. destruct (upgrade_v8_to_v9_spec junk d) as (t & -> & _); [intros a x; by apply Hs|].
  eexists. split; [done|]. keep_fields Hw Hs.
Qed.

Lemma ledger_at_9 d : Z.of_nat (size G) < 2 ^ 64 -> ledger_at 9 d -> exists d', upgrade_v9_to_v10 d = Some d' /\ ledger_at 10 d'.
Proof.
  intros Hsz Hd. destruct (ledger_at_blocks 9 d) as [Hok E]; [lia|done|]. destruct Hd as [Hv Ha Hw Hp Hl Hs Hi Hf].
  destruct (upgrade_v9_to_v10_spec d) as (I & -> & HinfI%infos_informed); [done..|].
  eexists. split; [done|]. keep_fields Hw Hs.
Qed.

(** One case of the switch: databases of a later version pass. *)
Lemma upgrade_from v n (f : database -> option database) d :
  (forall d, ledger_at n d -> exists d', f d = Some d' /\ ledger_at (n + 1) d') -> ledger_at (Z.max v n) d ->
  exists d', (if v <=? n then f d else Some d) = Some d' /\ ledger_at (Z.max v (n + 1)) d'.
Proof.
  intros Hf Hd. destruct (Z.leb_spec v n).
  - rewrite Z.max_r in Hd by done. rewrite Z.max_r by lia. by apply Hf.
  - exists d. split; [done|]. rewrite Z.max_l in Hd |- * by lia. done.
Qed.

Lemma do_upgrades_spec junk v d : Z.of_nat (size G) < 2 ^ 64 -> 1 <= v <= 11 -> ledger_at v d ->
  exists d', do_upgrades junk d = Some d' /\ ledger_at (Z.max v 10) d'.
Proof.
  intros Hsz Hv Hd. unfold do_upgrades. rewrite (la_version _ _ Hd).
  rewrite (proj2 (andb_true_iff _ _)) by (split; apply Z.leb_le; lia). cbn [assert mbind option_bind].
  assert (ledger_at (Z.max v 1) d) as H1 by (by rewrite Z.max_l by lia).
  destruct (upgrade_from v 1 _ _ ledger_at_1 H1) as (d2 & -> & H2). cbn [mbind option_bind].
  destruct (upgrade_from v 2 _ _ ledger_at_2 H2) as (d3 & -> & H3). cbn [mbind option_bind].
  destruct (upgrade_from v 3 _ _ ledger_at_3 H3) as (d4 & -> & H4). cbn [mbind option_bind].
  destruct (upgrade_from v 4 _ _ ledger_at_4 H4) as (d5 & -> & H5). cbn [mbind option_bind].
  destruct (upgrade_from v 5 _ _ ledger_at_5 H5) as (d6 & -> & H6). cbn [mbind option_bind].
  destruct (upgrade_from v 6 _ _ ledger_at_6 H6) as (d7 & -> & H7). cbn [mbind option_bind].
  destruct (upgrade_from v 7 _ _ ledger_at_7 H7) as (d8 & -> & H8). cbn [mbind option_bind].
  destruct (upgrade_from v 8 _ _ (ledger_at_8 junk) H8) as (d9 & -> & H9). cbn [mbind option_bind].
  destruct (upgrade_from v 9 _ _ (fun d => ledger_at_9 d Hsz) H9) as (d10 & -> & H10). cbn [mbind option_bind].
  destruct (v <=? 10); [|by exists d10]. exists (set_db_unsynced ∅ d10). split; [done|]. destruct H10. by split.
Qed.

Lemma ledger_same (t : store) : tables_ok t -> blocks t = blocks s -> accounts t = A -> pending t = pending s -> frontiers t = frontiers s ->
  (forall r, representation_get t r = wrap 128 (weight_of s r)) -> informed [] (blocks_info t) -> checksums t !! 0 = Some 0 ->
  ledger_inv (map_lxor (fun _ i => ai_head i) A) (fun _ => 0) G t.
Proof.
  intros Hok Hb Ha Hp Hf Hw [Hinf Hkept] Hc. split; rewrite ?Hb, ?Ha, ?Hp, ?Hf; try apply HI; try done.
  - unfold supply. rewrite Ha, Hp. apply (li_supply HI).
  - intros r. rewrite Hw, Z.add_0_r. unfold weight_of. by rewrite Ha, Hb.
  - intros h i m Hi Hm. destruct (Hinf _ _ Hi) as (m' & Hm' & ? & ? & _). by simplify_eq.
  - intros h b succ m _ _ Hm Hz. eapply Hkept; [done|apply not_elem_of_nil|done].
  - intros h i b succ m Hi _ _ Hm. destruct (Hinf _ _ Hi) as (m' & Hm' & _ & _ & ?). by simplify_eq.
  - intros h i Hi Hm. destruct (Hinf _ _ Hi) as (m' & Hm' & _). congruence.
  - destruct (blocks_info t !! 1) as [i|] eqn:E; [|done]. destruct (Hinf _ _ E) as (m & Hm & _).
    destruct (facts_stored _ _ _ _ HI _ _ Hm) as (b & succ & Hs & _). by destruct (chain_hash (li_chain HI) _ _ _ Hs) as (_ & _ & ? & _).
  - by rewrite Hc, Z.lxor_nilpotent.
Qed.

Lemma upgraded_ledger junk v d : Z.of_nat (size G) < 2 ^ 64 -> 1 <= v <= 11 -> ledger_at v d ->
  exists d' (t : store), block_store_init junk d = Some d' /\ database_store d' = Some t
    /\ blocks t = blocks s /\ accounts t = A /\ pending t = pending s /\ frontiers t = frontiers s
    /\ (forall r, representation_get t r = wrap 128 (weight_of s r)) /\ version_get t = Z.max v 10
    /\ ledger_inv (map_lxor (fun _ i => ai_head i) A) (fun _ => 0) G t.
Proof.
  intros Hsz Hv Hd. destruct (do_upgrades_spec junk v d Hsz Hv Hd) as (d1 & Hd1 & H1).
  destruct (ledger_at_blocks (Z.max v 10) d1) as [Hok Hb]; [lia|done|]. destruct H1 as [Hver Ha Hw Hp _ _ Hi Hf].
  rewrite (proj2 (Z.leb_gt (Z.max v 10) 9)) in Hi by lia. apply infos_informed in Hi. specialize (Hw ltac:(lia)).
  assert (forall a, db_accounts d1 !! a = account_v6 <$> A !! a) as Ha'.
  { intros a. rewrite Ha. destruct (A !! a); [|done]. cbn. unfold record_at.
    rewrite (proj2 (Z.leb_gt (Z.max v 10) 1)), (proj2 (Z.leb_gt (Z.max v 10) 2)), (proj2 (Z.leb_gt (Z.max v 10) 5)) by lia. done. }
  assert (omap as_v6 (db_accounts d1) = A) as Hacc.
  { apply map_eq. intros a. rewrite lookup_omap, Ha'. by destruct (A !! a). }
  unfold block_store_init. rewrite Hd1. cbn. eexists _, _. split; [done|].
  destruct (db_pending d1) as [p|p] eqn:Ep; [lia|]. destruct Hp as [_ ->].
  unfold database_store. cbn [db_pending set_db_store]. rewrite Ep. split.
  { rewrite decide_True; [done|]. intros a x. cbn. rewrite Ha'. destruct (A !! a); [|done]. intros [= <-]. by eexists. }
  cbn [db_accounts set_db_store db_store]. rewrite Hacc. split_and!; try done.
  apply ledger_same; try done. cbn. apply lookup_insert_eq.
Qed.
End run.

(** ** Reachable ledgers *)

Section reachable.
Context `{E0 : Env} `{T0 : Traffic} `{!TrafficLaws}.
Context (genesis_nonzero : genesis_account <> 0) (genesis_admitted : admitted genesis_block).

(** C16. Opening a database of any earlier version. Take a ledger that a run reaches, and a
    database that holds its blocks, balances and pending sends in the form of version [v]:
    opening blocks, representatives, weights, successors, block counts and block
    information are missing or not as that version has them. Then the upgrades fail no
    assertion and end, and the store has the blocks with their successors, the accounts, the
    pending sends, the frontiers and the weights of the ledger, and satisfies the invariant
    the operations of the ledger need. The number it ends with is 10 unless it was 11: the
    last step does not write it. *)
Theorem upgrades_restore l R junk v d :
  reachable l -> Z.of_nat (size (blocks (l_store l))) < 2 ^ 64 -> 1 <= v <= 11 -> ledger_at (l_store l) R v d ->
  exists d' (t : store), block_store_init junk d = Some d' /\ database_store d' = Some t
    /\ blocks t = blocks (l_store l) /\ accounts t = accounts (l_store l) /\ pending t = pending (l_store l)
    /\ frontiers t = frontiers (l_store l) /\ (forall r, representation_get t r = representation_get (l_store l) r)
    /\ version_get t = Z.max v 10 /\ exists K G, ledger_inv K (fun _ => 0) G t.
Proof.
  intros [G [HI _]]%(reachable_consistent genesis_nonzero genesis_admitted) Hsz Hv Hd.
  assert (size G = size (blocks (l_store l))) as HG by (rewrite <- !size_dom; f_equal; apply set_eq; intros k; rewrite !elem_of_dom; apply (chain_dom (li_chain HI))).
  destruct (upgraded_ledger _ _ _ _ HI R junk v d) as (d' & t & Hi & Ht & Hb & Ha & Hp & Hf & Hw & Hver & HI'); [by rewrite HG|done..|].
  exists d', t. split_and!; try done; [|by eexists _, _]. intros r. by rewrite Hw, (li_weights HI), Z.add_0_r.
Qed.
End reachable.
