(* ===== verification/Networks.v ===== *)
(** * Networks: the constants of the three networks

    The genesis data of the test, beta and live networks (common.cpp) and an environment
    whose digest is the modelled Blake2b. Signatures and the clock stay parameters. *)

From Stdlib Require Import ZArith Lia String.
From stdpp Require Import base list option tactics gmap.
From S2P Require Import Prelude Blake2b Blake2bSpec Blocks Common Numbers TextForms Genesis Work Messages.
#[local] Open Scope Z_scope.
#[local] Abbreviation length := Datatypes.length.

(** ** Data *)

(** The fields of the genesis data: the account, its text, work and signature. *)
Record genesis_data := GenesisData {
  gd_account : Z;
  gd_text : stream;
  gd_work : Z;
  gd_signature : Z
}.

Definition test_genesis_data : genesis_data := GenesisData
  0xB0311EA55708D6A53C75CDBF88300259C6D018522FE3D4D0A242E431F9E8B6D0
  (chars "xrb_3e3j5tkog48pnny9dmfzj1r16pg8t1e76dz5tmac6iq689wyjfpiij4txtdo")
  0x9680625b39d3363d
  0xECDA914373A2F0CA1296475BAEE40500A7F0A7AD72A5A80C81D7FAB7F6C802B2CC7DB50F5DD0FB25B2EF11761FA7344A158DD5A700B21BD47DE5BD0F63153A02.

Definition beta_genesis_data : genesis_data := GenesisData
  0x0311B25E0D1E1D7724BBA5BD523954F1DBCFC01CB8671D55ED2D32C7549FB252
  (chars "xrb_11rjpbh1t9ixgwkdqbfxcawobwgusz13sg595ocytdbkrxcbzekkcqkc3dn1")
  0x869e17b2bfa36639
  0x34DF447C7F185673128C3516A657DFEC7906F16C68FB5A8879432E2E4FB908C8ED0DD24BBECFAB3C7852898231544A421DC8CB636EF66C82E1245083EB08EA0F.

Definition live_genesis_data : genesis_data := GenesisData
  0xE89208DD038FBB269987689621D52292AE9C35941A7484756ECCED92A65093BA
  (chars "xrb_3t6k35gi95xu6tergt6p69ck76ogmitsa8mnijtpxm9fkcm736xtoncuohr3")
  0x62f05417dd3fb691
  0x9F0C933C8ADE004D808EA1985FA746A7E95BA2A38F867640F53EC8F180BDFE9E2C1268DEAD7C2664F356E37ABA362BC58E46DBA03E523A7B5A19E4B6EB12BB02.

(** The choice in [ledger_constants]. *)
Definition genesis_data_of (n : rai_networks) : genesis_data :=
  match n with
  | rai_test_network => test_genesis_data
  | rai_beta_network => beta_genesis_data
  | rai_live_network => live_genesis_data
  end.

Definition network_work_config (n : rai_networks) : WorkConfig :=
  match n with rai_test_network => true | _ => false end.

(** Blake2b as the callers use it: one digest over all the bytes they feed. *)
Definition blake2b_bytes (outlen : nat) (s : stream) : list byte := default [] (blake2b_digest outlen [s]).

Section networks.
Variables (sign_open sign : Z -> Z -> Z -> Z) (clock : nat -> Z).

Definition network_env (n : rai_networks) : Env := {|
  blake2b := blake2b_bytes;
  ed25519_sign_open := sign_open;
  ed25519_sign := sign;
  genesis_account := gd_account (genesis_data_of n);
  genesis_signature := gd_signature (genesis_data_of n);
  genesis_work := gd_work (genesis_data_of n);
  seconds_since_epoch := clock
|}.

(** The modelled Blake2b gives digests of the length that is asked for. *)
#[export] Instance network_digest_length n : @DigestLength (network_env n).
Proof.
  intros k s Hk. change (length (blake2b_bytes k s) = k). unfold blake2b_bytes.
  destruct (digest_ok k [s] Hk) as [-> Hl]. done.
Qed.

(** On each network the genesis account has the text the source gives for it, the text
    is read back as the account, the genesis block is well formed and its work is valid
    on that network. *)
Theorem genesis_data_consistent n :
  let E := network_env n in let g := genesis_data_of n in
  encode_account (gd_account g) = Some (gd_text g)
  /\ decode_account 0 (gd_text g) = Some (false, gd_account g)
  /\ wf_block genesis_block
  /\ @work_validate_block E (network_work_config n) genesis_block = false.
Proof.
  destruct n; (split_and!; [by vm_compute|by vm_compute|apply (bool_decide_unpack _); by vm_compute|by vm_compute]).
Qed.

(** The block that starts the live network. *)
Example live_genesis_hash :
  @hash (network_env rai_live_network) (@genesis_block (network_env rai_live_network))
  = 0x991CF190094C00F0B68E2E5F75F6BEE95A2E0BD93CEAA4A6734DB9F19B728948.
Proof. by vm_compute. Qed.
End networks.
