(* ===== verification/Node.v ===== *)
(** * Node: the block processor and the vote processor

    [rai::block_processor], [rai::vote_processor], [rai::block_arrival], [rai::gap_cache]
    and the parts of [rai::node] that feed them (node/node.cpp). One thread processes the
    blocks; what other threads do between two blocks are further steps. Times are passed
    to the operations that read the clock. *)

From stdpp Require Import base list option tactics gmap.
From Stdlib Require Import ZArith Lia.
From S2P Require Import Prelude Blocks Common Stats Store Tables Visitors Ledger Rollback Chain LedgerInv.
From S2P Require Import Queries Process Accept Genesis Runs Votes Elections Caches Work.
#[local] Open Scope Z_scope.

(** ** Data *)

Record gap_information := GapInformation {
  gi_arrival : Z;
  gi_hash : Z;
  gi_votes : votes
}.

Record block_arrival_info := BlockArrivalInfo {
  ba_arrival : Z;
  ba_hash : Z
}.

(** Both containers are kept in the order of arrival. *)
Record node := Node {
  nd_ledger : ledger;
  nd_caches : caches;
  nd_active : active_transactions;
  nd_blocks : list block;
  nd_forced : list block;
  nd_gap : list gap_information;
  nd_arrival : list block_arrival_info
}.

Inductive vote_code :=
| vote_code_invalid
| vote_code_replay
| vote_code_vote.

#[global] Instance vote_code_eq_dec : EqDecision vote_code.
Proof. solve_decision. Defined.

Definition set_ledger (l : ledger) (nd : node) : node :=
  Node l (nd_caches nd) (nd_active nd) (nd_blocks nd) (nd_forced nd) (nd_gap nd) (nd_arrival nd).
Definition set_caches (c : caches) (nd : node) : node :=
  Node (nd_ledger nd) c (nd_active nd) (nd_blocks nd) (nd_forced nd) (nd_gap nd) (nd_arrival nd).
Definition set_active (a : active_transactions) (nd : node) : node :=
  Node (nd_ledger nd) (nd_caches nd) a (nd_blocks nd) (nd_forced nd) (nd_gap nd) (nd_arrival nd).
Definition set_blocks (q : list block) (nd : node) : node :=
  Node (nd_ledger nd) (nd_caches nd) (nd_active nd) q (nd_forced nd) (nd_gap nd) (nd_arrival nd).
Definition set_forced (q : list block) (nd : node) : node :=
  Node (nd_ledger nd) (nd_caches nd) (nd_active nd) (nd_blocks nd) q (nd_gap nd) (nd_arrival nd).
Definition set_gap (g : list gap_information) (nd : node) : node :=
  Node (nd_ledger nd) (nd_caches nd) (nd_active nd) (nd_blocks nd) (nd_forced nd) g (nd_arrival nd).
Definition set_arrival (r : list block_arrival_info) (nd : node) : node :=
  Node (nd_ledger nd) (nd_caches nd) (nd_active nd) (nd_blocks nd) (nd_forced nd) (nd_gap nd) r.

(** ** Block arrival *)

Definition arrival_size_min : Z := 8 * 1024.
Definition arrival_time_min : Z := 300.

Fixpoint arrival_insert (i : block_arrival_info) (r : list block_arrival_info) : list block_arrival_info :=
  match r with
  | [] => [i]
  | j :: r => if ba_arrival i <? ba_arrival j then i :: j :: r else j :: arrival_insert i r
  end.

Definition arrived (h : Z) (r : list block_arrival_info) : bool := existsb (fun i => ba_hash i =? h) r.

(** [block_arrival::add]: [true] when the hash is there already. *)
Definition arrival_add (now h : Z) (r : list block_arrival_info) : bool * list block_arrival_info :=
  if arrived h r then (true, r) else (false, arrival_insert (BlockArrivalInfo now h) r).

(** [block_arrival::recent]. *)
Fixpoint arrival_expire (now : Z) (r : list block_arrival_info) : list block_arrival_info :=
  match r with
  | [] => []
  | i :: r' =>
    if (arrival_size_min <? Z.of_nat (length r)) && (ba_arrival i + arrival_time_min <? now)
    then arrival_expire now r' else r
  end.

Definition arrival_recent (now h : Z) (r : list block_arrival_info) : bool * list block_arrival_info :=
  let r := arrival_expire now r in (arrived h r, r).

Definition recent (now h : Z) (nd : node) : bool * node :=
  let '(x, r) := arrival_recent now h (nd_arrival nd) in (x, set_arrival r nd).

(** ** Gap cache *)

Definition gap_max : Z := 256.

Fixpoint gap_insert (i : gap_information) (g : list gap_information) : list gap_information :=
  match g with
  | [] => [i]
  | j :: g => if gi_arrival i <? gi_arrival j then i :: j :: g else j :: gap_insert i g
  end.

Definition gap_find (h : Z) (g : list gap_information) : option gap_information :=
  List.find (fun i => gi_hash i =? h) g.

Definition gap_erase (h : Z) (g : list gap_information) : list gap_information :=
  filter (fun i => gi_hash i <> h) g.

Section node.
Context `{E0 : Env} `{C0 : NodeConfig} `{O0 : HashOrder} `{W0 : WorkConfig}.

(** [gap_cache::add]. *)
Definition gap_add (now : Z) (b : block) (g : list gap_information) : list gap_information :=
  match gap_find (hash b) g with
  | Some i => gap_insert (GapInformation now (gi_hash i) (gi_votes i)) (gap_erase (hash b) g)
  | None =>
    let g := gap_insert (GapInformation now (hash b) (votes_init not_an_account b)) g in
    if gap_max <? Z.of_nat (length g) then tail g else g
  end.

(** [gap_cache::vote]: the votes, the ledger, and whether the block is to be fetched. *)
Definition gap_vote (threshold : Z) (v : vote) (g : list gap_information) (l : ledger)
    : option (list gap_information * ledger * bool) :=
  match gap_find (hash (vote_block v)) g with
  | None => Some (g, l, false)
  | Some i =>
    let vs := snd (votes_vote v (gi_votes i)) in
    let g := (fun j => if gi_hash j =? gi_hash i then GapInformation (gi_arrival j) (gi_hash j) vs else j) <$> g in
    let '(r, l) := winner l vs in
    '(w, _) ← r;
    Some (g, l, threshold <? w)
  end.

(** ** The block processor *)

(** [block_processor::add]: [None] is the failed assertion on invalid work. *)
Definition add (b : block) (nd : node) : option node :=
  if work_validate (root b) (block_work b) then None
  else Some (set_blocks (b :: nd_blocks nd) nd).

(** [block_processor::force]. *)
Definition force_block (b : block) (nd : node) : node := set_forced (b :: nd_forced nd) nd.

Definition have_blocks (nd : node) : bool :=
  match nd_blocks nd, nd_forced nd with [], [] => false | _, _ => true end.

(** The loop of [queue_unchecked]; [None] follows a null pointer. *)
Fixpoint queue_loop (h : Z) (l : list (option block)) (nd : node) : option node :=
  match l with
  | [] => Some nd
  | x :: l =>
    b ← x;
    nd ← add b (set_caches (unchecked_del h b (nd_caches nd)) nd);
    queue_loop h l nd
  end.

(** [queue_unchecked]. *)
Definition queue_unchecked (h : Z) (nd : node) : option node :=
  nd ← queue_loop h (unchecked_get (nd_caches nd) h) nd;
  Some (set_gap (gap_erase h (nd_gap nd)) nd).

(** [node::process_fork]. *)
Definition process_fork (b : block) (nd : node) : option (node * list effect) :=
  let s := l_store (nd_ledger nd) in
  if negb (block_exists s (hash b)) && root_exists s (root b) then
    ledger_block ← forked_block s b;
    let '(existed, a) := start (ledger_block, Some b) (nd_active nd) in
    Some (set_active a nd, if existed : bool then [] else [broadcast_confirm_req ledger_block []])
  else Some (nd, []).

(** The unchecked block waits for [h]. *)
Definition keep_unchecked (now h : Z) (b : block) (nd : node) : option node :=
  c ← unchecked_put h b (nd_caches nd);
  Some (set_gap (gap_add now b (nd_gap nd)) (set_caches c nd)).

(** [process_receive_one]. *)
Definition process_receive_one (now : Z) (b : block) (nd : node) : option (process_return * node * list effect) :=
  '(l, r) ← process b (nd_ledger nd);
  let nd := set_ledger l nd in
  match pr_code r with
  | progress =>
    let '(is_recent, nd) := recent now (hash b) nd in
    let nd := if is_recent : bool then set_active (snd (start (b, None) (nd_active nd))) nd else nd in
    nd ← queue_unchecked (hash b) nd;
    Some (r, nd, [])
  | gap_previous =>
    nd ← keep_unchecked now (previous b) b nd;
    Some (r, nd, [])
  | gap_source =>
    h ← block_source (l_store l) b;
    nd ← keep_unchecked now h b nd;
    Some (r, nd, [])
  | old =>
    nd ← queue_unchecked (hash b) nd;
    Some (r, nd, [])
  | fork =>
    let '(is_recent, nd) := recent now (hash b) nd in
    if is_recent : bool then Some (r, nd, [])
    else '(nd, fx) ← process_fork b nd; Some (r, nd, fx)
  | _ => Some (r, nd, [])
  end.

(** A forced block first replaces the block that follows its root. *)
Definition make_way (b : block) (nd : node) : option node :=
  successor ← ledger_successor (l_store (nd_ledger nd)) (root b);
  match successor with
  | Some sb =>
    if negb (hash sb =? hash b) then
      l ← rollback (hash sb) (nd_ledger nd);
      Some (set_ledger l nd)
    else Some nd
  | None => Some nd
  end.

(** One turn of the loop of [process_receive_many]; forced blocks come first. *)
Definition process_next (now : Z) (nd : node) : option (node * list effect) :=
  match nd_forced nd with
  | b :: forced =>
    nd ← make_way b (set_forced forced nd);
    '(_, nd, fx) ← process_receive_one now b nd;
    Some (nd, fx)
  | [] =>
    match nd_blocks nd with
    | b :: blocks =>
      '(_, nd, fx) ← process_receive_one now b (set_blocks blocks nd);
      Some (nd, fx)
    | [] => Some (nd, [])
    end
  end.

(** [process_receive_many]: at most [count] blocks, one time for each. *)
Fixpoint process_receive_many (times : list Z) (nd : node) : option (node * list effect) :=
  match times with
  | [] => Some (nd, [])
  | now :: times =>
    if have_blocks nd then
      '(nd, fx) ← process_next now nd;
      '(nd, fx') ← process_receive_many times nd;
      Some (nd, fx ++ fx')
    else Some (nd, [])
  end.

(** [node::process_active]. *)
Definition process_active (now : Z) (b : block) (nd : node) : option node :=
  let '(known, r) := arrival_add now (hash b) (nd_arrival nd) in
  let nd := set_arrival r nd in
  if known : bool then Some nd else add b nd.

(** ** The vote processor *)

(** [vote_processor::vote]: the code, whether the observers are told, and the vote sent
    back when the sender has lost track of its sequence number. *)
Definition vote_processor_vote (stake t1 t2 : Z) (v : vote) (nd : node)
    : option (vote_code * node * list effect * bool * option vote) :=
  if vote_validate v then Some (vote_code_invalid, nd, [], false, None) else
  '(max_vote, c) ← vote_max v (nd_caches nd);
  '(replay, a, l, fx) ← active_vote stake t1 t2 v (nd_active nd) (nd_ledger nd);
  let nd := set_ledger l (set_active a (set_caches c nd)) in
  let result := if negb replay || (vote_sequence v <? vote_sequence max_vote)
                then vote_code_vote else vote_code_replay in
  Some (result, nd, fx, bool_decide (result = vote_code_vote),
        if wrap 64 (vote_sequence v + 10000) <? vote_sequence max_vote then Some max_vote else None).
End node.
