(* ===== verification/NodeInv.v ===== *)
(** * NodeInv: what holds of the block processor and the vote processor *)

From stdpp Require Import base list option tactics gmap.
From Stdlib Require Import ZArith Lia.
From S2P Require Import Prelude Blocks Common Stats Store Tables Visitors Ledger Rollback Chain LedgerInv.
From S2P Require Import Queries Process Accept Genesis Runs Votes Elections Caches Work Node.
#[local] Open Scope Z_scope.

Section node_inv.
Context `{E0 : Env} `{C0 : NodeConfig} `{O0 : HashOrder} `{W0 : WorkConfig} `{T0 : Traffic}.
Context `{L0 : !HashOrderLaws} `{TL : !TrafficLaws}.
Context (genesis_nonzero : genesis_account <> 0) (genesis_admitted : admitted genesis_block).

(** ** Roots *)

Lemma root_previous b : previous b <> 0 -> root b = previous b.
Proof. destruct b; cbn; try done. intros H. by destruct (Z.eqb_spec (state_previous b) 0). Qed.

Lemma successor_stored K D G s x :
  ledger_inv K D G s -> block_successor s x <> 0 ->
  exists sb, block_get s (block_successor s x) = Some sb /\ hash sb = block_successor s x
    /\ previous sb = x /\ x <> 0.
Proof.
  intros HI. rewrite block_successor_blocks by apply HI.
  destruct (blocks s !! x) as [[b succ]|] eqn:Hx; [|done]. cbn. intros Hs.
  destruct (chain_forth (li_chain HI) _ _ _ Hx Hs) as (sb & ss & Hsb & Hp). exists sb.
  rewrite (block_get_of _ _ _ _ HI), contents_lookup, Hsb.
  destruct (chain_hash (li_chain HI) _ _ _ Hsb) as [Hh _]. destruct (chain_hash (li_chain HI) _ _ _ Hx) as [_ [Hx0 _]]. done.
Qed.

Lemma open_block_stored K D G s a i :
  ledger_inv K D G s -> account_get s a = Some i ->
  exists ob, block_get s (ai_open_block i) = Some ob /\ hash ob = ai_open_block i
    /\ previous ob = 0 /\ root ob = a /\ ai_open_block i <> 0.
Proof.
  intros HI Hi. destruct (li_opened HI _ _ Hi) as (ob & os & om & Hob & Hom & Ha & Hp). exists ob.
  rewrite (block_get_of _ _ _ _ HI), contents_lookup, Hob. destruct (chain_hash (li_chain HI) _ _ _ Hob) as [Hh [H0 _]].
  split_and!; [done..| |done]. pose proof (chain_block (li_chain HI) _ _ _ _ Hob Hom) as Hok.
  destruct ob as [b|b|b|b|b]; cbn in *.
  - destruct Hok as (p & (Hp0 & _) & _). by rewrite Hp in Hp0.
  - destruct Hok as (p & ? & (Hp0 & _) & _). by rewrite Hp in Hp0.
  - destruct Hok as (<- & _). done.
  - destruct Hok as (p & (Hp0 & _) & _). by rewrite Hp in Hp0.
  - destruct Hok as (<- & _). by rewrite Hp.
Qed.

Lemma genesis_root b : admitted b -> hash b = hash genesis_block -> root b = genesis_account.
Proof.
  intros Hb E. pose proof (admitted_inj _ _ Hb genesis_admitted E) as Hi.
  apply hash_input_hashables in Hi; [|by apply admitted_wf..].
  destruct b as [|b|b|b|]; cbn in Hi; destruct Hi as [Hi|Hi]; try done. cbn. by rewrite Hi.
Qed.

Lemma stored_admitted K D G s h b : ledger_inv K D G s -> block_get s h = Some b ->
  admitted b /\ hash b = h /\ block_exists s h = true.
Proof.
  intros HI. rewrite (block_get_of _ _ _ _ HI), contents_lookup, block_exists_blocks.
  destruct (blocks s !! h) as [[b' succ]|] eqn:Hh; [|done]. cbn. intros [= ->].
  split; [by eapply (li_admitted HI)|]. by destruct (chain_hash (li_chain HI) _ _ _ Hh).
Qed.

(** The block that follows a root, or opened the account. *)
Lemma ledger_successor_ok K D G s x :
  ledger_inv K D G s ->
  exists r, ledger_successor s x = Some r
    /\ forall sb, r = Some sb -> block_exists s (hash sb) = true /\ root sb = x /\ admitted sb.
Proof.
  intros HI. unfold ledger_successor, account_exists. destruct (account_get s x) as [i|] eqn:Hi.
  - unfold account_get in Hi. rewrite Hi. cbn. fold (account_get s x) in Hi.
    destruct (open_block_stored _ _ _ _ _ _ HI Hi) as (ob & Hob & Hh & Hp & Hr & H0).
    destruct (Z.eqb_spec (ai_open_block i) 0) as [|_]; [done|]. cbn. rewrite Hob. eexists. split; [done|].
    intros sb [= <-]. destruct (stored_admitted _ _ _ _ _ _ HI Hob) as (Ha & -> & He). done.
  - unfold account_get in Hi. rewrite Hi. cbn. destruct (Z.eqb_spec (block_successor s x) 0) as [H0|H0]; [by eexists|].
    destruct (successor_stored _ _ _ _ _ HI H0) as (sb & Hsb & Hh & Hp & Hx). cbn. rewrite Hsb.
    eexists. split; [done|]. intros sb' [= <-]. destruct (stored_admitted _ _ _ _ _ _ HI Hsb) as (Ha & -> & He).
    split_and!; [done| |done]. by rewrite root_previous by congruence.
Qed.

Lemma make_way_ok b nd :
  reachable (nd_ledger nd) -> root b <> genesis_account ->
  exists l, make_way b nd = Some (set_ledger l nd) /\ reachable l.
Proof.
  intros Hl Hr. destruct (reachable_consistent genesis_nonzero genesis_admitted _ Hl) as [G HC].
  unfold make_way. destruct (ledger_successor_ok _ _ _ _ (root b) (proj1 HC)) as (r & -> & Hsb). cbn [mbind option_bind].
  assert (exists l, Some nd = Some (set_ledger l nd) /\ reachable l) as Hsame.
  { exists (nd_ledger nd). split; [by destruct nd|done]. }
  destruct r as [sb|]; [|done]. destruct (Hsb sb eq_refl) as (He & Hrs & Ha).
  destruct (Z.eqb_spec (hash sb) (hash b)) as [|Hne]; [done|]. cbn [negb].
  assert (hash sb <> hash genesis_block) as Hg.
  { intros E. apply Hr. rewrite <- Hrs. by apply genesis_root. }
  destruct (consistent_rollback _ _ _ HC He Hg) as (l' & G' & m & Hrb & _). rewrite Hrb. cbn.
  exists l'. split; [done|]. by eapply reachable_rollback.
Qed.

(** ** Forks *)

(** The predecessor of the block is the last block of a chain. *)
Definition stray (s : store) (b : block) : Prop :=
  block_exists s (root b) = true /\ block_successor s (root b) = 0 /\ account_get s (root b) = None.

Lemma forked_block_ok K D G s b :
  ledger_inv K D G s -> block_exists s (hash b) = false -> root_exists s (root b) = true ->
  (stray s b /\ forked_block s b = None)
  \/ exists lb, forked_block s b = Some lb /\ root lb = root b /\ block_exists s (hash lb) = true
       /\ hash lb <> hash b.
Proof.
  intros HI Hn Hr. unfold forked_block. rewrite Hn. unfold root_exists in Hr. rewrite Hr. cbn.
  destruct (Z.eqb_spec (block_successor s (root b)) 0) as [H0|H0].
  - assert (block_get s 0 = None) as Hz.
    { rewrite (block_get_of _ _ _ _ HI), contents_lookup. destruct (blocks s !! 0) as [[b0 s0]|] eqn:Hb0; [|done].
      by destruct (chain_hash (li_chain HI) _ _ _ Hb0) as [_ [? _]]. }
    rewrite H0, Hz. destruct (account_get s (root b)) as [i|] eqn:Hi.
    + right. destruct (open_block_stored _ _ _ _ _ _ HI Hi) as (ob & Hob & Hh & Hp & Hro & _). cbn. rewrite Hob.
      destruct (stored_admitted _ _ _ _ _ _ HI Hob) as (_ & E & He). exists ob. rewrite E in *. split_and!; [done..|congruence].
    + left. unfold account_exists in Hr. unfold account_get in Hi. rewrite Hi in Hr. rewrite orb_false_r in Hr. by unfold stray.
  - right. destruct (successor_stored _ _ _ _ _ HI H0) as (sb & Hsb & Hh & Hp & Hx). rewrite Hsb. exists sb.
    destruct (stored_admitted _ _ _ _ _ _ HI Hsb) as (_ & E & He). rewrite E in *.
    split_and!; [done|by rewrite root_previous by congruence|done|congruence].
Qed.

(** The block [forked_block] finds for a fork is in the ledger, is another block and
    has the same root. The only case where it fails an assertion is a fork whose
    predecessor is the last block of a chain. *)
Theorem forked_block_spec l b :
  reachable l -> block_exists (l_store l) (hash b) = false -> root_exists (l_store l) (root b) = true ->
  (forked_block (l_store l) b = None <-> stray (l_store l) b)
  /\ forall lb, forked_block (l_store l) b = Some lb ->
       root lb = root b /\ block_exists (l_store l) (hash lb) = true /\ hash lb <> hash b.
Proof.
  intros Hl Hn Hr. destruct (reachable_consistent genesis_nonzero genesis_admitted _ Hl) as [G [HI _]].
  destruct (forked_block_ok _ _ _ _ b HI Hn Hr) as [[Hs Hf]|(lb & Hf & H1 & H2 & H3)]; rewrite Hf.
  - done.
  - split; [|by intros ? [= <-]]. split; [done|]. intros (S1 & S2 & S3). unfold forked_block in Hf.
    rewrite Hn, S1, S2, S3 in Hf. cbn in Hf. destruct (block_get (l_store l) 0) as [b0|] eqn:Hb0; [|done].
    destruct (stored_admitted _ _ _ _ _ _ HI Hb0) as (Ha & E & _). by destruct (admitted_hash _ Ha) as [? _].
Qed.

(** ** The invariant of the node *)

(** A block that may be queued: submitted, with valid work. *)
Definition queueable (b : block) : Prop := admitted b /\ work_validate (root b) (block_work b) = false.

Record node_ok (nd : node) : Prop := {
  no_ledger : reachable (nd_ledger nd);
  no_caches : caches_ok (nd_caches nd);
  no_active : active_ok (nd_active nd);
  no_blocks : Forall queueable (nd_blocks nd);
  no_forced : Forall (fun b => queueable b /\ root b <> genesis_account) (nd_forced nd);
  no_waiting h b : waiting (nd_caches nd) h b -> queueable b
}.

Lemma start_ok options a : active_ok a -> active_ok (snd (start options a)).
Proof.
  intros Ha. unfold start. destruct (roots a !! root (fst options)) eqn:Hr; [done|]. cbn.
  intros r cf. cbn. intros [[<- <-]|[_ Hcf]]%lookup_insert_Some; [apply votes_init_ok|by apply Ha].
Qed.

Lemma recent_ok now h nd : node_ok nd -> node_ok (snd (recent now h nd)).
Proof. intros [H1 H2 H3 H4 H5 H6]. by split. Qed.

Lemma elem_of_reverse_rev (b : block) bs : b ∈ rev bs <-> b ∈ bs.
Proof. rewrite rev_alt. change (rev_append bs []) with (reverse bs). apply elem_of_reverse. Qed.

(** The unchecked blocks of [h] move to the front of the queue. *)
Lemma queue_loop_ok h bs nd :
  Forall queueable bs -> caches_ok (nd_caches nd) ->
  exists c, queue_loop h (Some <$> bs) nd = Some (set_blocks (rev bs ++ nd_blocks nd) (set_caches c nd))
    /\ caches_ok c
    /\ forall k b, waiting c k b <-> waiting (nd_caches nd) k b /\ ~ (k = h /\ b ∈ bs).
Proof.
  revert nd. induction bs as [|b bs IH]; intros nd Hq Hc.
  { exists (nd_caches nd). split_and!; [by destruct nd|done|]. intros k b. set_solver. }
  apply Forall_cons in Hq as [[Ha Hw] Hq]. rewrite fmap_cons. cbn [queue_loop mbind option_bind]. unfold add at 1. rewrite Hw. cbn [mbind option_bind].
  destruct (unchecked_del_waiting h b (nd_caches nd) Hc (admitted_wf _ Ha)) as [Hc1 Hd].
  set (nd1 := set_caches (unchecked_del h b (nd_caches nd)) nd).
  destruct (IH (set_blocks (b :: nd_blocks nd1) nd1)) as (c & -> & Hc2 & Hwait); [done..|]. exists c. split_and!; [|done|].
  - cbn. by rewrite <- app_assoc.
  - intros k b'. rewrite Hwait. cbn. rewrite Hd. set_solver.
Qed.

Lemma unchecked_get_waiting c h : caches_ok c ->
  exists bs, unchecked_get c h = Some <$> bs /\ forall b, b ∈ bs <-> waiting c h b.
Proof.
  intros Hc. assert (forall x, x ∈ unchecked_get c h -> is_Some x) as Hs by (intros x; by apply unchecked_get_Some).
  assert (exists bs, unchecked_get c h = Some <$> bs) as [bs E].
  { induction (unchecked_get c h) as [|x l IH]; [by exists []|]. destruct (Hs x) as [b ->]; [by left|].
    destruct IH as [bs ->]; [by intros; apply Hs; right|]. by exists (b :: bs). }
  exists bs. split; [done|]. intros b. unfold waiting. rewrite E, list_elem_of_fmap. naive_solver.
Qed.

(** [queue_unchecked] queues the blocks that waited for [h], and nothing waits for it any more. *)
Lemma queue_unchecked_ok h nd :
  node_ok nd ->
  exists nd' bs, queue_unchecked h nd = Some nd' /\ node_ok nd' /\ nd_ledger nd' = nd_ledger nd
    /\ nd_blocks nd' = bs ++ nd_blocks nd
    /\ (forall b, b ∈ bs <-> waiting (nd_caches nd) h b)
    /\ (forall k b, waiting (nd_caches nd') k b <-> waiting (nd_caches nd) k b /\ k <> h).
Proof.
  intros [H1 H2 H3 H4 H5 H6]. unfold queue_unchecked.
  destruct (unchecked_get_waiting (nd_caches nd) h H2) as (bs & -> & Hbs).
  assert (Forall queueable bs) as Hq by (apply Forall_forall; intros b Hb%Hbs; by eapply H6).
  destruct (queue_loop_ok h bs nd Hq H2) as (c & -> & Hc & Hw). cbn [mbind option_bind]. eexists _, (rev bs).
  assert (forall k b, waiting c k b <-> waiting (nd_caches nd) k b /\ k <> h) as Hw'.
  { intros k b. rewrite Hw. destruct (decide (k = h)) as [->|]; [|naive_solver]. rewrite <- Hbs. naive_solver. }
  split; [done|]. split_and!; [|done|done|intros b; by rewrite <- Hbs, elem_of_reverse_rev|done].
  split; cbn; [done..| |done|].
  - apply Forall_app. split; [|done]. apply Forall_forall. intros b Hb. apply (proj1 (Forall_forall _ _) Hq).
    by apply elem_of_reverse_rev.
  - intros k b [Hwb _]%Hw'. by eapply H6.
Qed.

(** [keep_unchecked] makes a block with this hash wait for [h]. *)
Lemma keep_unchecked_ok now h b nd :
  node_ok nd -> queueable b ->
  exists nd', keep_unchecked now h b nd = Some nd' /\ node_ok nd' /\ nd_ledger nd' = nd_ledger nd
    /\ nd_blocks nd' = nd_blocks nd
    /\ (exists b', waiting (nd_caches nd') h b' /\ hash b' = hash b).
Proof.
  intros [H1 H2 H3 H4 H5 H6] Hb. unfold keep_unchecked.
  destruct (unchecked_put_ok h b (nd_caches nd) H2 (admitted_wf _ (proj1 Hb))) as (c & -> & Hc & He & Hw).
  eexists. split; [done|]. split_and!; [|done..]. split; cbn; [done..|].
  intros k b' [?|(_ & -> & _)]%Hw; [by eapply H6|done].
Qed.

(** A state block with a missing source has its predecessor. *)
Lemma gap_source_previous b l l' r :
  process (State b) l = Some (l', r) -> pr_code r = gap_source ->
  state_previous b = 0 \/ block_exists (l_store l) (state_previous b) = true.
Proof.
  cbn [process]. unfold process_state, state_position. destruct (block_exists _ (hash _)); [by intros [= <- <-]|].
  destruct (validate_message _ _ _); [by intros [= <- <-]|]. destruct (state_account b =? 0); [by intros [= <- <-]|].
  destruct (account_get _ _).
  - destruct (Z.eqb_spec (state_previous b) 0); [auto|]. destruct (block_exists _ (state_previous b)); [auto|].
    cbn. by intros [= <- <-].
  - cbn [previous]. destruct (Z.eqb_spec (state_previous b) 0); [auto|]. cbn. by intros [= <- <-].
Qed.

Lemma block_source_ok G l l' b r :
  ledger_inv 0 (fun _ => 0) G (l_store l) -> process b l = Some (l', r) -> pr_code r = gap_source ->
  exists x, block_source (l_store l) b = Some x.
Proof.
  intros HI Hp Hr. destruct b as [b|b|b|b|b]; cbn; eauto.
  unfold is_send. destruct (gap_source_previous _ _ _ _ Hp Hr) as [->|He].
  { cbn. eauto. }
  destruct (Z.eqb_spec (state_previous b) 0); cbn [negb mbind option_bind]; [eauto|].
  rewrite block_exists_blocks in He. destruct (blocks (l_store l) !! state_previous b) as [[pb ps]|] eqn:Hpb; [|done].
  destruct (stored_facts _ _ _ _ HI _ _ _ Hpb) as (m & Hm & _). rewrite (balance_of _ _ _ _ HI _ _ Hm). cbn. eauto.
Qed.

(** A state block that names the head of another account as its predecessor. *)
Definition foreign (s : store) (b : block) : Prop :=
  match b with
  | State sb => exists i a j, account_get s (state_account sb) = Some i /\ account_get s a = Some j
      /\ ai_head j = state_previous sb /\ a <> state_account sb
  | _ => False
  end.

Lemma foreign_dec s b : foreign s b \/ ~ foreign s b.
Proof.
  destruct b as [| | | |b]; cbn; [right; intros []..|].
  destruct (account_get s (state_account b)) as [i|]; [|right; by intros (? & ? & ? & ? & _)].
  destruct (decide (map_Exists (fun a j => ai_head j = state_previous b /\ a <> state_account b) (accounts s))) as [He|He].
  - left. apply map_Exists_lookup in He as (a & j & Hj & H1 & H2). eauto 10.
  - right. intros (i' & a & j & _ & Hj & H1 & H2). apply He, map_Exists_lookup. eauto.
Qed.

Lemma tip_head K D G s h b : ledger_inv K D G s -> block_get s h = Some b -> block_successor s h = 0 ->
  exists a i, account_get s a = Some i /\ ai_head i = h.
Proof.
  intros HI. rewrite (block_get_of _ _ _ _ HI), contents_lookup, block_successor_blocks by apply HI.
  destruct (blocks s !! h) as [[b' succ]|] eqn:Hh; [|done]. cbn. intros [= ->] ->.
  destruct (stored_facts _ _ _ _ HI _ _ _ Hh) as (m & Hm & _). destruct (li_tip HI _ _ _ Hh Hm) as (i & Hi & Hhd). eauto.
Qed.

(** A legacy block without frontier has a successor. *)
Lemma legacy_not_tip K D G l h pb : ledger_inv K D G (l_store l) ->
  block_get (l_store l) h = Some pb -> legacy_predecessor (block_type_of pb) = true ->
  frontier_get (l_store l) h = 0 -> block_successor (l_store l) h <> 0.
Proof.
  intros HI Hpb Hleg Hf H0. destruct (tip_head _ _ _ _ _ _ HI Hpb H0) as (a & i & Hi & Hhd).
  eapply (frontier_get_not _ _ _ _ HI _ Hf a i). split_and!; [done..|]. exists pb. by rewrite <- legacy_type.
Qed.

Lemma state_fork_foreign K D G l b l' r :
  ledger_inv K D G (l_store l) -> process_state b l = Some (l', r) -> pr_code r = fork ->
  stray (l_store l) (State b) -> foreign (l_store l) (State b).
Proof.
  intros HI Hp Hr (S1 & S2 & S3). unfold process_state, state_position in Hp. cbn [root] in *.
  destruct (block_exists _ (hash _)); [by injection Hp as <- <-|].
  destruct (validate_message _ _ _); [by injection Hp as <- <-|].
  destruct (state_account b =? 0); [by injection Hp as <- <-|].
  destruct (account_get (l_store l) (state_account b)) as [i|] eqn:Hi; cbn [foreign].
  - destruct (Z.eqb_spec (state_previous b) 0) as [H0|H0]; cbn [negb] in *; [by rewrite Hi in S3|].
    destruct (block_get (l_store l) (state_previous b)) as [pb|] eqn:Hpb.
    2: { rewrite block_get_blocks in Hpb by apply HI. rewrite block_exists_blocks in S1. by destruct (blocks _ !! _). }
    destruct (tip_head _ _ _ _ _ _ HI Hpb S2) as (a & j & Hj & Hhd). exists i, a, j. split_and!; [done..|].
    intros ->. rewrite Hi in Hj. injection Hj as <-. rewrite S1 in Hp. cbn [negb] in Hp. rewrite Hhd, Z.eqb_refl in Hp.
    cbn in Hp. destruct (decide _); [apply bind_Some in Hp as (? & _ & Hp); by injection Hp as <- <-|].
    injection Hp as <- <-. cbn in Hr. unfold state_link_check in Hr. repeat case_match; done.
  - cbn [previous] in Hp. destruct (negb (state_previous b =? 0)); [by injection Hp as <- <-|].
    destruct (negb (state_link b =? 0)) eqn:Hl; cbn in Hp; [|by injection Hp as <- <-].
    destruct (decide _); [apply bind_Some in Hp as (? & _ & Hp); by injection Hp as <- <-|].
    injection Hp as <- <-. cbn in Hr. unfold state_link_check in Hr. repeat case_match; done.
Qed.

(** The updates after the last guard. *)
Ltac accepted Hp := repeat (apply bind_Some in Hp as (? & _ & Hp)); by injection Hp as <- <-.

Lemma fork_foreign K D G l b l' r :
  ledger_inv K D G (l_store l) -> process b l = Some (l', r) -> pr_code r = fork ->
  stray (l_store l) b -> foreign (l_store l) b.
Proof.
  intros HI Hp Hr Hs. pose proof Hs as (S1 & S2 & S3).
  destruct b as [b|b|b|b|b]; cbn [process root] in *; [exfalso..|by eapply state_fork_foreign].
  - unfold process_send in Hp. destruct (block_exists _ (hash _)); [by injection Hp as <- <-|].
    destruct (block_get _ _) as [pb|] eqn:Hpb; [|by injection Hp as <- <-].
    destruct (valid_predecessor _ _) eqn:Hv; [|by injection Hp as <- <-]. cbn [negb] in Hp.
    destruct (Z.eqb_spec (frontier_get (l_store l) (send_previous b)) 0) as [Hf|]; [by eapply legacy_not_tip|].
    destruct (validate_message _ _ _); [by injection Hp as <- <-|]. apply bind_Some in Hp as (i & _ & Hp).
    apply bind_Some in Hp as ([] & _ & Hp). destruct (negb _); [by injection Hp as <- <-|]. accepted Hp.
  - unfold process_receive in Hp. destruct (block_exists _ (hash _)); [by injection Hp as <- <-|].
    destruct (block_get _ _) as [pb|] eqn:Hpb; [|by injection Hp as <- <-].
    destruct (valid_predecessor _ _) eqn:Hv; [|by injection Hp as <- <-]. cbn [negb] in Hp.
    destruct (negb (block_exists _ (receive_source b))); [by injection Hp as <- <-|].
    destruct (Z.eqb_spec (frontier_get (l_store l) (receive_previous b)) 0) as [Hf|]; [by eapply legacy_not_tip|].
    destruct (validate_message _ _ _); [by injection Hp as <- <-|]. destruct (negb _); [by injection Hp as <- <-|].
    destruct (pending_get _ _); [|by injection Hp as <- <-]. accepted Hp.
  - unfold process_open in Hp. rewrite S3 in Hp. destruct (block_exists _ (hash _)); [by injection Hp as <- <-|].
    destruct (negb _); [by injection Hp as <- <-|]. destruct (validate_message _ _ _); [by injection Hp as <- <-|].
    destruct (pending_get _ _); [|by injection Hp as <- <-]. destruct (_ =? burn_account); [by injection Hp as <- <-|].
    accepted Hp.
  - unfold process_change in Hp. destruct (block_exists _ (hash _)); [by injection Hp as <- <-|].
    destruct (block_get _ _) as [pb|] eqn:Hpb; [|by injection Hp as <- <-].
    destruct (valid_predecessor _ _) eqn:Hv; [|by injection Hp as <- <-]. cbn [negb] in Hp.
    destruct (Z.eqb_spec (frontier_get (l_store l) (change_previous b)) 0) as [Hf|]; [by eapply legacy_not_tip|].
    apply bind_Some in Hp as (i & _ & Hp). apply bind_Some in Hp as ([] & _ & Hp).
    destruct (validate_message _ _ _); [by injection Hp as <- <-|]. accepted Hp.
Qed.

(** [process_fork] fails only on a stray block. *)
Lemma process_fork_ok b nd :
  node_ok nd -> stray (l_store (nd_ledger nd)) b \/
  exists a fx, process_fork b nd = Some (set_active a nd, fx) /\ active_ok a.
Proof.
  intros [H1 H2 H3 H4 H5 H6]. unfold process_fork.
  assert (exists a (fx : list effect), Some (nd, []) = Some (set_active a nd, fx) /\ active_ok a) as Hsame.
  { exists (nd_active nd), []. split; [by destruct nd|done]. }
  destruct (block_exists _ (hash b)) eqn:Hn; [by right|]. destruct (root_exists _ (root b)) eqn:Hr; [|by right].
  destruct (reachable_consistent genesis_nonzero genesis_admitted _ H1) as [G [HI _]].
  destruct (forked_block_ok _ _ _ _ b HI Hn Hr) as [[Hs _]|(lb & -> & _)]; [by left|right]. cbn [negb andb mbind option_bind].
  pose proof (start_ok (lb, Some b) _ H3) as Ha. destruct (start (lb, Some b) (nd_active nd)) as [existed a]. eauto.
Qed.

(** What a processed block leaves behind: the ledger after [process]; the blocks that
    waited for it are queued; it waits itself when its predecessor is missing. *)
Record received_one (b : block) (nd : node) (r : process_return) (nd' : node) : Prop := {
  ro_ok : node_ok nd';
  ro_ledger : exists l', process b (nd_ledger nd) = Some (l', r) /\ nd_ledger nd' = l';
  ro_queued b' : pr_code r = progress \/ pr_code r = old -> waiting (nd_caches nd) (hash b) b' ->
    b' ∈ nd_blocks nd' /\ ~ waiting (nd_caches nd') (hash b) b';
  ro_kept : pr_code r = gap_previous ->
    exists b', waiting (nd_caches nd') (previous b) b' /\ hash b' = hash b
}.

Lemma queue_received b nd nd1 r l' :
  process b (nd_ledger nd) = Some (l', r) -> node_ok nd1 -> nd_ledger nd1 = l' -> nd_caches nd1 = nd_caches nd ->
  pr_code r <> gap_previous ->
  exists nd', queue_unchecked (hash b) nd1 = Some nd' /\ received_one b nd r nd'.
Proof.
  intros Hp Hok Hl Hc Hr. destruct (queue_unchecked_ok (hash b) nd1 Hok) as (nd' & bs & -> & Hok' & Hl' & Hb & Hbs & Hw).
  exists nd'. split; [done|]. split; [done|exists l'; split; [done|congruence]| |done].
  intros b' _ Hw'. rewrite Hb, elem_of_app, Hbs, Hw, Hc. split; [auto|]. by intros [_ ?].
Qed.

(** A block that is neither stored nor waiting for its predecessor. *)
Lemma dropped_received b nd nd1 r l' :
  process b (nd_ledger nd) = Some (l', r) -> node_ok nd1 -> nd_ledger nd1 = l' ->
  pr_code r <> progress -> pr_code r <> old -> pr_code r <> gap_previous -> received_one b nd r nd1.
Proof. intros Hp Hok Hl H1 H2 H3. split; [done|by exists l'|by intros ? [|]|done]. Qed.

Lemma process_receive_one_ok now b nd :
  node_ok nd -> queueable b -> ~ foreign (l_store (nd_ledger nd)) b ->
  exists r nd' fx, process_receive_one now b nd = Some (r, nd', fx) /\ received_one b nd r nd'.
Proof.
  intros Hok Hb Hns. pose proof Hok as [H1 H2 H3 H4 H5 H6].
  destruct (reachable_consistent genesis_nonzero genesis_admitted _ H1) as [G HC].
  destruct (consistent_process _ _ _ HC (proj1 Hb)) as (l' & r & Hp & Ho & _).
  unfold process_receive_one. rewrite Hp. cbn [mbind option_bind].
  assert (node_ok (set_ledger l' nd)) as Hok1.
  { split; cbn; try done. eapply reachable_process; [done|apply Hb|done]. }
  set (nd1 := set_ledger l' nd) in *.
  pose proof (recent_ok now (hash b) nd1 Hok1) as Hrec. destruct (recent now (hash b) nd1) as [is_recent nd2] eqn:E2.
  assert (nd2 = set_arrival (nd_arrival nd2) nd1) as En by (unfold recent in E2; by injection E2 as _ <-). cbn [snd] in Hrec.
  destruct (pr_code r) eqn:Hr.
  all: try (eexists _, _, _; split; [done|]; by apply (dropped_received _ _ _ _ l'); [| | |congruence..]).
  - set (nd3 := if is_recent then _ else _). assert (node_ok nd3) as Hok3.
    { unfold nd3. destruct is_recent; [|done]. destruct Hrec. split; try done. by apply start_ok. }
    destruct (queue_received b nd nd3 r l') as (nd' & -> & Hn); [done..| | |congruence|eexists _, _, _; by split];
      unfold nd3; rewrite En; by destruct is_recent.
  - destruct (queue_received b nd nd1 r l') as (nd' & -> & Hn); [done..|congruence|]. eexists _, _, _. by split.
  - destruct is_recent.
    { eexists _, _, _. split; [done|]. apply (dropped_received _ _ _ _ l'); [done|done|by rewrite En|congruence..]. }
    destruct (process_fork_ok b nd2 Hrec) as [Hs|(a & fx & -> & Ha)].
    { destruct Hns. rewrite En in Hs. destruct Ho as [[_ Ho]|[? _]]; [|congruence]. unfold nd1 in Hs. cbn in Hs. rewrite Ho in Hs.
      by eapply fork_foreign; [apply HC|..]. }
    eexists _, _, _. split; [done|]. apply (dropped_received _ _ _ _ l'); [done| |by rewrite En|congruence..].
    destruct Hrec. by split.
  - destruct (keep_unchecked_ok now (previous b) b nd1 Hok1 Hb) as (nd' & -> & Hok' & Hl' & _ & Hw).
    eexists _, _, _. split; [done|]. split; [done|by exists l'|intros ? [|]; congruence|done].
  - destruct (block_source_ok _ _ _ _ _ (proj1 HC) Hp Hr) as [x Hx]. destruct Ho as [[_ Ho]|[? _]]; [|congruence].
    rewrite Ho, Hx. cbn [mbind option_bind]. destruct (keep_unchecked_ok now x b nd1 Hok1 Hb) as (nd' & -> & Hok' & Hl' & _).
    eexists _, _, _. split; [done|]. apply (dropped_received _ _ _ _ l'); [done..|congruence|congruence|congruence].
Qed.

(** C8. Processing one queued block in a consistent node ends without a failed assertion,
    or the block is a state block that names the head of another account as its
    predecessor. When it ends, the ledger is the one [process] leaves; when the block is in
    the ledger, the blocks that waited for it are queued again; when its predecessor is
    missing, it waits for it. *)
Theorem process_receive_one_total now b nd :
  node_ok nd -> queueable b ->
  (exists r nd' fx, process_receive_one now b nd = Some (r, nd', fx) /\ received_one b nd r nd')
  \/ foreign (l_store (nd_ledger nd)) b.
Proof.
  intros Hok Hb. destruct (foreign_dec (l_store (nd_ledger nd)) b) as [Hf|Hf]; [by right|left].
  by apply process_receive_one_ok.
Qed.

(** The next block names the head of another account as its predecessor. *)
Definition next_foreign (nd : node) : Prop :=
  match nd_forced nd, nd_blocks nd with
  | b :: forced, _ => exists nd1, make_way b (set_forced forced nd) = Some nd1 /\ foreign (l_store (nd_ledger nd1)) b
  | [], b :: _ => foreign (l_store (nd_ledger nd)) b
  | [], [] => False
  end.

Lemma next_foreign_dec nd : next_foreign nd \/ ~ next_foreign nd.
Proof.
  unfold next_foreign. destruct (nd_forced nd) as [|b forced]; [destruct (nd_blocks nd) as [|b blocks]; [auto|]|].
  - apply foreign_dec.
  - destruct (make_way b _) as [nd1|]; [|right; by intros (? & ? & _)].
    destruct (foreign_dec (l_store (nd_ledger nd1)) b) as [|Hn]; [left; eauto|right]. by intros (? & [= <-] & ?).
Qed.

Lemma pop_block nd b blocks :
  node_ok nd -> nd_blocks nd = b :: blocks -> node_ok (set_blocks blocks nd) /\ queueable b.
Proof. intros [H1 H2 H3 H4 H5 H6] E. rewrite E in H4. apply Forall_cons in H4 as [Hb H4]. split; [by split|done]. Qed.

Lemma pop_forced nd b forced :
  node_ok nd -> nd_forced nd = b :: forced ->
  node_ok (set_forced forced nd) /\ queueable b /\ root b <> genesis_account.
Proof. intros [H1 H2 H3 H4 H5 H6] E. rewrite E in H5. apply Forall_cons in H5 as [Hb H5]. split; [by split|done]. Qed.

Lemma process_next_ok now nd :
  node_ok nd -> ~ next_foreign nd -> exists nd' fx, process_next now nd = Some (nd', fx) /\ node_ok nd'.
Proof.
  intros Hok Hnf. unfold process_next, next_foreign in *. destruct (nd_forced nd) as [|b forced] eqn:Hf.
  - destruct (nd_blocks nd) as [|b blocks] eqn:Hbl; [by eexists _, _|]. destruct (pop_block _ _ _ Hok Hbl) as [Hok1 Hb].
    destruct (process_receive_one_ok now b _ Hok1 Hb Hnf) as (r & nd' & fx & -> & Hr).
    cbn. eexists _, _. split; [done|]. apply Hr.
  - destruct (pop_forced _ _ _ Hok Hf) as (Hok1 & Hb & Hg).
    destruct (make_way_ok b (set_forced forced nd) (no_ledger _ Hok1) Hg) as (l & Hm & Hl). rewrite Hm in *.
    cbn [mbind option_bind].
    destruct (process_receive_one_ok now b (set_ledger l (set_forced forced nd))) as (r & nd' & fx & -> & Hr);
      [destruct Hok1; by split|done|intros Hfo; apply Hnf; eauto|].
    cbn. eexists _, _. split; [done|]. apply Hr.
Qed.

(** One block was processed. *)
Definition processed (nd nd' : node) : Prop := exists now fx, process_next now nd = Some (nd', fx).

(** The block processor keeps the node consistent: from a consistent node a batch ends
    with a consistent node, or at a block that names the head of another account as its
    predecessor. Forced blocks replace the blocks they compete with on the way. *)
Theorem process_receive_many_total times nd :
  node_ok nd ->
  (exists nd' fx, process_receive_many times nd = Some (nd', fx) /\ node_ok nd')
  \/ (exists nd1, rtc processed nd nd1 /\ node_ok nd1 /\ next_foreign nd1).
Proof.
  revert nd. induction times as [|now times IH]; intros nd Hok; cbn [process_receive_many]; [left; eauto|].
  destruct (have_blocks nd); [|left; eauto].
  destruct (next_foreign_dec nd) as [Hf|Hf].
  { right. exists nd. split_and!; [apply rtc_refl|done..]. }
  destruct (process_next_ok now nd Hok Hf) as (nd1 & fx & Hn & Hok1). rewrite Hn. cbn [mbind option_bind].
  destruct (IH nd1 Hok1) as [(nd' & fx' & -> & Hok')|(nd2 & Hr & H2)]; [left; cbn; eauto|right].
  exists nd2. split; [|done]. eapply rtc_l; [|done]. by exists now, fx.
Qed.

(** ** Forced blocks *)

Lemma exists_contents K D G s h : ledger_inv K D G s ->
  block_exists s h = false <-> contents (blocks s) !! h = None.
Proof. intros HI. rewrite block_exists_blocks, contents_lookup. by destruct (blocks s !! h). Qed.

(** [process] adds no block but the given one. *)
Lemma process_adds G l b l' r h :
  ledger_inv 0 (fun _ => 0) G (l_store l) -> admitted b -> process b l = Some (l', r) -> h <> hash b ->
  block_exists (l_store l) h = false -> block_exists (l_store l') h = false.
Proof.
  intros HI Hb Hp Hne Hh. destruct (process_ok _ _ _ _ _ HI Hb) as (l1 & r1 & Hp1 & Ho). rewrite Hp in Hp1.
  injection Hp1 as <- <-. destruct Ho as [[_ ->]|(_ & m & HV & HA)]; [done|].
  apply (exists_contents _ _ _ _ _ (apply_inv _ _ _ _ _ _ HI HV _ HA)). rewrite (step_contents _ _ _ _ _ HA).
  rewrite lookup_insert_ne by done. by apply (exists_contents _ _ _ _ _ HI).
Qed.

Lemma queue_loop_ledger h l nd nd' : queue_loop h l nd = Some nd' -> nd_ledger nd' = nd_ledger nd.
Proof.
  revert nd. induction l as [|x l IH]; intros nd; cbn [queue_loop]; [by intros [= <-]|].
  intros (b & -> & (nd1 & Ha & Hq)%bind_Some)%bind_Some. rewrite (IH _ Hq). unfold add in Ha.
  destruct (work_validate _ _); [done|]. by injection Ha as <-.
Qed.

Lemma queue_unchecked_ledger h nd nd' : queue_unchecked h nd = Some nd' -> nd_ledger nd' = nd_ledger nd.
Proof. intros (nd1 & Hq & [= <-])%bind_Some. by apply queue_loop_ledger in Hq. Qed.

Lemma process_fork_ledger b nd nd' fx : process_fork b nd = Some (nd', fx) -> nd_ledger nd' = nd_ledger nd.
Proof.
  unfold process_fork. destruct (negb _ && _); [|by intros [= <- <-]]. intros (lb & _ & H)%bind_Some.
  destruct (start _ _) as [existed a]. by injection H as <- <-.
Qed.

Lemma keep_unchecked_ledger now h b nd nd' : keep_unchecked now h b nd = Some nd' -> nd_ledger nd' = nd_ledger nd.
Proof. intros (c & _ & [= <-])%bind_Some. done. Qed.

Lemma receive_one_ledger now b nd r nd' fx :
  process_receive_one now b nd = Some (r, nd', fx) ->
  exists l', process b (nd_ledger nd) = Some (l', r) /\ nd_ledger nd' = l'.
Proof.
  unfold process_receive_one. intros ([l' r'] & Hp & H)%bind_Some. rewrite Hp.
  destruct (pr_code r').
  - destruct (recent now (hash b) _) as [is_recent nd2] eqn:E2. unfold recent in E2. injection E2 as _ <-.
    apply bind_Some in H as (nd3 & Hq%queue_unchecked_ledger & [= -> <- <-]). exists l'. split; [done|].
    rewrite Hq. by destruct is_recent.
  - injection H as -> <- <-. eauto.
  - apply bind_Some in H as (nd3 & Hq%queue_unchecked_ledger & [= -> <- <-]). eauto.
  - injection H as -> <- <-. eauto.
  - destruct (recent now (hash b) _) as [is_recent nd2] eqn:E2. unfold recent in E2. injection E2 as _ <-.
    destruct is_recent; [injection H as -> <- <-; eauto|].
    apply bind_Some in H as ([nd3 fx3] & Hq%process_fork_ledger & [= -> <- <-]). eauto.
  - injection H as -> <- <-. eauto.
  - apply bind_Some in H as (nd3 & Hq%keep_unchecked_ledger & [= -> <- <-]). eauto.
  - apply bind_Some in H as (h & _ & (nd3 & Hq%keep_unchecked_ledger & [= -> <- <-])%bind_Some). eauto.
  - injection H as -> <- <-. eauto.
  - injection H as -> <- <-. eauto.
  - injection H as -> <- <-. eauto.
Qed.

(** C19. Forcing a block takes the competing block, the one that follows the same root,
    out of the ledger. *)
Theorem force_replaces now nd b forced sb nd' fx :
  node_ok nd -> nd_forced nd = b :: forced ->
  ledger_successor (l_store (nd_ledger nd)) (root b) = Some (Some sb) -> hash sb <> hash b ->
  process_next now nd = Some (nd', fx) -> block_exists (l_store (nd_ledger nd')) (hash sb) = false.
Proof.
  intros Hok Hf Hs Hne Hp. destruct (pop_forced _ _ _ Hok Hf) as (_ & [Hb _] & Hg).
  destruct (reachable_consistent genesis_nonzero genesis_admitted _ (no_ledger _ Hok)) as [G HC].
  destruct (ledger_successor_ok _ _ _ _ (root b) (proj1 HC)) as (r & Hr & Hsb). rewrite Hs in Hr. injection Hr as <-.
  destruct (Hsb sb eq_refl) as (He & Hrs & Ha).
  assert (hash sb <> hash genesis_block) as Hgen by (intros E; apply Hg; rewrite <- Hrs; by apply genesis_root).
  destruct (consistent_rollback _ _ _ HC He Hgen) as (l' & G' & m & Hrb & HC' & _ & _ & Hgone).
  unfold process_next in Hp. rewrite Hf in Hp. unfold make_way in Hp. cbn [nd_ledger set_forced] in Hp.
  rewrite Hs in Hp. cbn [mbind option_bind] in Hp. destruct (Z.eqb_spec (hash sb) (hash b)) as [|_]; [done|].
  cbn [negb] in Hp. rewrite Hrb in Hp. cbn [mbind option_bind] in Hp.
  apply bind_Some in Hp as ([[r nd1] fx1] & Hone & [= <- <-]).
  destruct (receive_one_ledger _ _ _ _ _ _ Hone) as (l1 & Hp1 & ->).
  eapply (process_adds G' l' b l1 r); [apply HC'|exact Hb|exact Hp1|exact Hne|]. apply (exists_contents _ _ _ _ _ (proj1 HC')).
  by apply (contents_dom _ _ _ _ _ (proj1 HC')).
Qed.

(** ** Votes *)

Lemma vote_max_waiting v c r c' : vote_max v c = Some (r, c') -> forall h b, waiting c' h b <-> waiting c h b.
Proof.
  unfold vote_max. destruct (vote_current c (vote_account v)); cbn; [|done]. by intros [= <- <-].
Qed.

(** Processing a vote in a consistent node ends without a failed assertion and keeps
    the node consistent; an invalid vote changes nothing. *)
Theorem vote_processor_total stake t1 t2 v nd :
  node_ok nd -> vote_wf v ->
  exists code nd' fx told reply, vote_processor_vote stake t1 t2 v nd = Some (code, nd', fx, told, reply)
    /\ node_ok nd'
    /\ (vote_validate v = true -> code = vote_code_invalid /\ nd' = nd /\ fx = [] /\ reply = None).
Proof.
  intros [H1 H2 H3 H4 H5 H6] Hwf. unfold vote_processor_vote. destruct (vote_validate v) eqn:Hv.
  { eexists _, _, _, _, _. split; [done|]. split; [by split|done]. }
  destruct (vote_max_ok v (nd_caches nd) H2 Hwf) as (r & c & Hm & Hc & _). rewrite Hm. cbn [mbind option_bind].
  destruct (active_vote_ok stake t1 t2 v _ (nd_ledger nd) H3 Hv) as (replay & a & l & fx & -> & Ha & _ & _ & Hl).
  cbn [mbind option_bind]. eexists _, _, _, _, _. split; [done|]. split; [|done].
  split; cbn; [by eapply reachable_aside|done..|]. intros h b. rewrite (vote_max_waiting _ _ _ _ Hm). apply H6.
Qed.

(** A valid vote with a smaller sequence number than one already seen from the account
    is reported as [vote], whether or not the elections take it for a replay. *)
Theorem stale_vote_reported stake t1 t2 v nd :
  node_ok nd -> vote_wf v -> vote_validate v = false ->
  vote_sequence v < sequence_of (nd_caches nd) (vote_account v) ->
  exists nd' fx reply, vote_processor_vote stake t1 t2 v nd = Some (vote_code_vote, nd', fx, true, reply).
Proof.
  intros [H1 H2 H3 H4 H5 H6] Hwf Hv Hs. unfold vote_processor_vote. rewrite Hv.
  destruct (vote_max_ok v (nd_caches nd) H2 Hwf) as (r & c & -> & _ & Hseq & _). cbn [mbind option_bind].
  destruct (active_vote_ok stake t1 t2 v _ (nd_ledger nd) H3 Hv) as (replay & a & l & fx & -> & _). cbn [mbind option_bind].
  assert ((vote_sequence v <? vote_sequence r) = true) as -> by (apply Z.ltb_lt; lia). rewrite orb_true_r.
  rewrite bool_decide_true by done. eauto.
Qed.
End node_inv.
