(* ===== verification/Drain.v ===== *)
(** * Drain: the block processor empties its queue

    Processing removes a block from the node, or makes it wait for a missing block; a block
    that arrives sends the blocks that wait for it back to the queue. The blocks of the node
    are counted where they are, which bounds the number of turns of the loop of
    [process_receive_many] (node/node.cpp) until the queue is empty, and makes an executable
    model of [block_processor::flush] (node/node.cpp), which waits for that. *)

From stdpp Require Import base list option tactics gmap.
From Stdlib Require Import ZArith Lia.
From S2P Require Import Prelude Blocks Common Stats Store Tables Visitors Ledger Rollback Chain LedgerInv.
From S2P Require Import Queries Process Accept Genesis Runs Votes Elections Caches Work Node NodeInv.
#[local] Open Scope Z_scope.

(** ** Sizes *)

(** The blocks that wait for others, in memory and in the database. *)
Definition waiting_size (c : caches) : Z := Z.of_nat (length (unchecked_cache c)) + unchecked_count c.

(** The queued blocks. *)
Definition queue_size (nd : node) : Z := Z.of_nat (length (nd_forced nd)) + Z.of_nat (length (nd_blocks nd)).

Definition node_size (nd : node) : Z := queue_size nd + waiting_size (nd_caches nd).

(** A number of turns that empties the queue. *)
Definition turns (nd : node) : Z := node_size nd * (node_size nd + 1) + queue_size nd.

(** [block_processor::flush] waits until the queue is empty and no batch is being
    processed: the thread of the processor takes its turns, the [i]th at [clock i], until
    [have_blocks] is false, after at most [turns] of them. *)
Definition flush_times (clock : nat -> Z) (nd : node) : list Z := clock <$> seq 0 (Z.to_nat (turns nd)).

Definition processor_flush `{Env, NodeConfig, HashOrder, WorkConfig} (clock : nat -> Z) (nd : node) : option (node * list effect) :=
  process_receive_many (flush_times clock nd) nd.

(** ** Lemmas *)

Definition rest_table (h : Z) (c : caches) : gmap Z (list stream) := delete h (unchecked_table c).
Definition rest_cache (h : Z) (c : caches) : list (Z * block) := filter (fun e => fst e <> h) (unchecked_cache c).

Lemma unchecked_del_rest h b c :
  rest_table h (unchecked_del h b c) = rest_table h c /\ rest_cache h (unchecked_del h b c) = rest_cache h c.
Proof.
  split; unfold rest_table, rest_cache, unchecked_del; cbn.
  - unfold dup_del. destruct (filter _ (dups _ _)); [apply delete_delete_eq|apply delete_insert_eq].
  - rewrite list_filter_filter. apply list_filter_iff. intros [k b']. cbn. naive_solver.
Qed.

Lemma filter_split h (l : list (Z * block)) :
  (length l = length (filter (fun e => fst e = h) l) + length (filter (fun e => fst e <> h) l))%nat.
Proof.
  induction l as [|e l IH]; [done|]. rewrite !filter_cons. cbn [length]. rewrite IH.
  destruct (decide (fst e = h)) as [Hd|Hd]; destruct (decide (fst e <> h)); cbn [length]; try lia; naive_solver.
Qed.

(** The waiting blocks are those that wait for [h] and the rest. *)
Lemma waiting_size_split h c :
  waiting_size c = Z.of_nat (length (unchecked_get c h)) + Z.of_nat (length (rest_cache h c))
                   + map_sum (fun _ l => Z.of_nat (length l)) (rest_table h c).
Proof.
  unfold waiting_size, unchecked_get, rest_cache, rest_table, cached, unchecked_count, dups.
  rewrite length_app, !length_fmap, (filter_split h). destruct (unchecked_table c !! h) as [l|] eqn:Hh; cbn.
  - rewrite (map_sum_delete _ _ _ _ Hh). lia.
  - rewrite delete_id by done. lia.
Qed.

Lemma waiting_size_nonneg c : 0 <= waiting_size c.
Proof.
  assert (0 <= unchecked_count c) by (apply map_sum_nonneg; lia). unfold waiting_size. lia.
Qed.

Section drain.
Context `{E0 : Env} `{C0 : NodeConfig} `{O0 : HashOrder} `{W0 : WorkConfig} `{T0 : Traffic}.
Context `{L0 : !HashOrderLaws} `{TL : !TrafficLaws}.
Context (genesis_nonzero : genesis_account <> 0) (genesis_admitted : admitted genesis_block).

Lemma queue_loop_rest h l nd nd' :
  queue_loop h l nd = Some nd' ->
  rest_table h (nd_caches nd') = rest_table h (nd_caches nd)
  /\ rest_cache h (nd_caches nd') = rest_cache h (nd_caches nd)
  /\ nd_forced nd' = nd_forced nd
  /\ length (nd_blocks nd') = (length l + length (nd_blocks nd))%nat.
Proof.
  revert nd. induction l as [|x l IH]; intros nd; cbn [queue_loop]; [by intros [= ->]|].
  intros (b & _ & (nd1 & H1 & H)%bind_Some)%bind_Some. apply IH in H as (-> & -> & -> & ->).
  unfold add in H1. destruct (work_validate _ _); [done|]. injection H1 as <-.
  destruct (unchecked_del_rest h b (nd_caches nd)) as [R1 R2]. split_and!; [exact R1|exact R2|done|]. cbn. lia.
Qed.

(** [queue_unchecked] moves blocks from the waiting ones to the queue. *)
Lemma queue_unchecked_size h nd :
  node_ok nd -> exists nd', queue_unchecked h nd = Some nd' /\ node_ok nd' /\ node_size nd' = node_size nd.
Proof.
  intros Hok. destruct (queue_unchecked_ok genesis_nonzero genesis_admitted h nd Hok) as (nd' & bs & Hq & Hok' & _ & _ & _ & Hw).
  exists nd'. split_and!; [done..|]. unfold queue_unchecked in Hq. apply bind_Some in Hq as (nd1 & Hl & [= <-]).
  apply queue_loop_rest in Hl as (R1 & R2 & R3 & R4). unfold node_size, queue_size. cbn in Hw |- *.
  rewrite (waiting_size_split h (nd_caches nd1)), (waiting_size_split h (nd_caches nd)), R1, R2, R3, R4.
  assert (unchecked_get (nd_caches nd1) h = []) as ->; [|cbn; lia].
  destruct (unchecked_get (nd_caches nd1) h) as [|x l] eqn:Hx; [done|].
  destruct (unchecked_get_Some (nd_caches nd1) h x (no_caches _ Hok')) as [b ->]; [rewrite Hx; by left|].
  destruct (proj1 (Hw h b)) as [_ ?]; [|done]. unfold waiting. rewrite Hx. by left.
Qed.

Lemma keep_unchecked_size now h b nd nd' :
  keep_unchecked now h b nd = Some nd' ->
  queue_size nd' = queue_size nd /\ node_size nd' <= node_size nd + 1.
Proof.
  unfold keep_unchecked, unchecked_put. intros (c & (e & _ & [= <-])%bind_Some & [= <-])%bind_Some.
  unfold node_size, queue_size, waiting_size, unchecked_count. cbn. split; [done|].
  destruct e; cbn; [lia|]. rewrite length_app. cbn. lia.
Qed.

(** A processed block has left the node or waits. *)
Lemma process_receive_one_size now b nd r nd' fx :
  node_ok nd -> queueable b -> process_receive_one now b nd = Some (r, nd', fx) ->
  node_size nd' <= node_size nd \/ node_size nd' <= node_size nd + 1 /\ queue_size nd' = queue_size nd.
Proof.
  intros Hok Hb. unfold process_receive_one. intros ([l r'] & Hp & H)%bind_Some. revert H.
  assert (node_ok (set_ledger l nd)) as Hok1.
  { destruct Hok. split; cbn; try done. eapply reachable_process; [done|apply Hb|done]. }
  pose proof (recent_ok now (hash b) _ Hok1) as Hok2. set (nd1 := set_ledger l nd) in *.
  assert (node_size nd1 = node_size nd /\ queue_size nd1 = queue_size nd) as [E1 E2] by done.
  destruct (recent now (hash b) nd1) as [is_recent nd2] eqn:Er. cbn [snd] in Hok2.
  assert (node_size nd2 = node_size nd) as E3 by (unfold recent in Er; by injection Er as _ <-).
  rewrite <- E1, <- E2 in *. clear E1 E2.
  destruct (pr_code r').
  all: try (intros [= <- <- <-]; left; lia).
  - intros (nd3 & H3 & [= <- <- <-])%bind_Some. left. set (nd4 := if is_recent then _ else _) in H3.
    assert (node_ok nd4 /\ node_size nd4 = node_size nd2) as [Hok4 E4].
    { unfold nd4. destruct is_recent; [|done]. split; [|done]. destruct Hok2. split; try done. by apply start_ok. }
    destruct (queue_unchecked_size (hash b) nd4 Hok4) as (nd' & Hq & _ & E). rewrite Hq in H3. injection H3 as <-. lia.
  - intros (nd3 & H3 & [= <- <- <-])%bind_Some. left.
    destruct (queue_unchecked_size (hash b) nd1 Hok1) as (nd' & Hq & _ & E). rewrite Hq in H3. injection H3 as <-. lia.
  - destruct is_recent; [intros [= <- <- <-]; left; lia|].
    intros ([nd3 fx'] & H3 & [= <- <- <-])%bind_Some. left. unfold process_fork in H3.
    destruct (negb _ && _); [|injection H3 as <- _; lia]. apply bind_Some in H3 as (lb & _ & H3).
    destruct (start _ _). injection H3 as <- _. change (node_size nd2 <= node_size nd1). lia.
  - intros (nd3 & H3%keep_unchecked_size & [= <- <- <-])%bind_Some. right. lia.
  - intros (x & _ & (nd3 & H3%keep_unchecked_size & [= <- <- <-])%bind_Some)%bind_Some. right. lia.
Qed.

Lemma sizes nd : 0 <= queue_size nd <= node_size nd.
Proof. pose proof (waiting_size_nonneg (nd_caches nd)). unfold node_size, queue_size. lia. Qed.

(** Fewer turns are left when the node has lost a block, or a queued block has gone to wait. *)
Lemma turns_decrease nd nd' :
  node_size nd' < node_size nd \/ node_size nd' <= node_size nd /\ queue_size nd' < queue_size nd ->
  turns nd' < turns nd.
Proof. pose proof (sizes nd). pose proof (sizes nd'). unfold turns. nia. Qed.

Lemma make_way_size b nd nd' : make_way b nd = Some nd' -> node_size nd' = node_size nd /\ queue_size nd' = queue_size nd.
Proof.
  unfold make_way. intros (sb & _ & H)%bind_Some. destruct sb as [sb|]; [|by injection H as <-].
  destruct (negb _); [|by injection H as <-]. by apply bind_Some in H as (l & _ & [= <-]).
Qed.

(** Every turn makes progress. *)
Lemma process_next_turns now nd :
  node_ok nd -> ~ next_foreign nd -> have_blocks nd = true ->
  exists nd' fx, process_next now nd = Some (nd', fx) /\ node_ok nd' /\ turns nd' < turns nd.
Proof.
  intros Hok Hnf Hb. destruct (process_next_ok genesis_nonzero genesis_admitted now nd Hok Hnf) as (nd' & fx & Hn & Hok').
  exists nd', fx. split_and!; [done..|]. apply turns_decrease. unfold process_next, have_blocks in *.
  destruct (nd_forced nd) as [|b forced] eqn:Hf; [destruct (nd_blocks nd) as [|b blocks] eqn:Hbl; [done|]|].
  - destruct (pop_block _ _ _ Hok Hbl) as [Hok1 Hq]. apply bind_Some in Hn as ([[r nd1] fx1] & Hr & [= -> ->]).
    apply process_receive_one_size in Hr; [|done..]. unfold node_size, queue_size in *. cbn in Hr. rewrite Hf, Hbl in *. cbn [length] in *. lia.
  - destruct (pop_forced _ _ _ Hok Hf) as (Hok1 & Hq & Hg). apply bind_Some in Hn as (nd1 & Hm & ([[r nd2] fx1] & Hr & [= -> ->])%bind_Some).
    destruct (make_way_ok genesis_nonzero genesis_admitted b _ (no_ledger _ Hok1) Hg) as (l & Hm' & Hl). rewrite Hm in Hm'.
    injection Hm' as ->. apply process_receive_one_size in Hr; [|destruct Hok1; by split|done].
    unfold node_size, queue_size in *. cbn in Hr. rewrite Hf in *. cbn [length] in *. lia.
Qed.

(** As many turns as [turns] says empty the queue. *)
Lemma turns_drain times nd :
  node_ok nd -> turns nd <= Z.of_nat (length times) ->
  (exists nd' fx, process_receive_many times nd = Some (nd', fx) /\ node_ok nd' /\ have_blocks nd' = false)
  \/ (exists nd1, rtc processed nd nd1 /\ node_ok nd1 /\ next_foreign nd1).
Proof.
  revert nd. induction times as [|now times IH]; intros nd Hok Ht; cbn [process_receive_many].
  { left. exists nd, []. split_and!; [done..|]. pose proof (sizes nd). unfold turns, queue_size in *. cbn in Ht.
    assert (length (nd_forced nd) = O /\ length (nd_blocks nd) = O) as [H1%nil_length_inv H2%nil_length_inv] by nia.
    unfold have_blocks. by rewrite H1, H2. }
  destruct (have_blocks nd) eqn:Hb; [|left; eauto]. destruct (next_foreign_dec nd) as [Hf|Hf].
  { right. exists nd. split_and!; [apply rtc_refl|done..]. }
  destruct (process_next_turns now nd Hok Hf Hb) as (nd1 & fx & Hn & Hok1 & Hlt). rewrite Hn. cbn [mbind option_bind].
  destruct (IH nd1 Hok1) as [(nd' & fx' & -> & H')|(nd2 & Hr & H2)]; [cbn in Ht; lia|left; cbn; eauto|right].
  exists nd2. split; [|done]. eapply rtc_l; [|done]. by exists now, fx.
Qed.
(** C7. The queue drains: with as many turns as the sizes of the queue and of the waiting
    blocks allow for, the block processor ends with a consistent node and nothing queued,
    unless it meets a block that names the head of another account as its predecessor. *)
Theorem queue_drains times nd :
  node_ok nd -> turns nd <= Z.of_nat (length times) ->
  (exists nd' fx, process_receive_many times nd = Some (nd', fx) /\ node_ok nd' /\ have_blocks nd' = false)
  \/ (exists nd1, rtc processed nd nd1 /\ node_ok nd1 /\ next_foreign nd1).
Proof. apply turns_drain. Qed.

(** ** Waiting for the processor *)

(** The processor comes to a block that names the head of another account as its
    predecessor. *)
Definition meets_foreign (nd : node) : Prop := exists nd1, rtc processed nd nd1 /\ node_ok nd1 /\ next_foreign nd1.

(** [processor_flush] returns, with nothing queued, unless the processor meets such a block. *)
Lemma processor_flush_ok clock nd :
  node_ok nd -> ~ meets_foreign nd ->
  exists nd' fx, processor_flush clock nd = Some (nd', fx) /\ node_ok nd' /\ have_blocks nd' = false.
Proof.
  intros Hok Hn. destruct (turns_drain (flush_times clock nd) nd Hok) as [(nd' & fx & Hp & H')|Hf]; [|eauto|done].
  unfold flush_times. rewrite length_fmap, length_seq. lia.
Qed.
Lemma meets_next nd now nd' fx : process_next now nd = Some (nd', fx) -> ~ meets_foreign nd -> ~ meets_foreign nd'.
Proof. intros Hp Hn (nd1 & Hr & H1). apply Hn. exists nd1. split; [|done]. eapply rtc_l; [|done]. by exists now, fx. Qed.

(** The ledger keeps its blocks as long as none is forced. *)
Lemma process_keeps l b l' r :
  reachable l -> admitted b -> process b l = Some (l', r) ->
  (forall h, block_exists (l_store l) h = true -> block_exists (l_store l') h = true)
  /\ (pr_code r = progress -> block_exists (l_store l') (hash b) = true).
Proof.
  intros [G [HI _]]%(reachable_consistent genesis_nonzero genesis_admitted) Hb Hp.
  destruct (process_ok _ _ _ _ _ HI Hb) as (l1 & r1 & Hp1 & Ho). rewrite Hp in Hp1. injection Hp1 as <- <-.
  destruct Ho as [[Hr ->]|(_ & m & HV & HA)]; [done|]. pose proof (step_contents _ _ _ _ _ HA) as Hc.
  assert (forall h, contents (blocks (l_store l')) !! h <> None -> block_exists (l_store l') h = true) as He.
  { intros h. rewrite block_exists_blocks, contents_lookup. by destruct (blocks (l_store l') !! h). }
  split; [intros h Hh|intros _]; apply He; rewrite Hc; [|by rewrite lookup_insert_eq].
  destruct (decide (h = hash b)) as [->|Hne]; [by rewrite lookup_insert_eq|]. rewrite lookup_insert_ne by done.
  rewrite block_exists_blocks in Hh. rewrite contents_lookup. by destruct (blocks (l_store l) !! h).
Qed.

Lemma queue_unchecked_forced h nd nd' : queue_unchecked h nd = Some nd' -> nd_forced nd' = nd_forced nd.
Proof. intros (nd1 & Hq & [= <-])%bind_Some. by apply queue_loop_rest in Hq as (_ & _ & ? & _). Qed.

Lemma receive_one_forced now b nd r nd' fx : process_receive_one now b nd = Some (r, nd', fx) -> nd_forced nd' = nd_forced nd.
Proof.
  unfold process_receive_one. intros ([l' r'] & _ & H)%bind_Some. revert H. destruct (recent now (hash b) _) as [is_recent nd2] eqn:Er.
  unfold recent in Er. injection Er as _ <-. destruct (pr_code r'); try by intros [= <- <- <-].
  - intros (nd3 & Hq%queue_unchecked_forced & [= <- <- <-])%bind_Some. rewrite Hq. by destruct is_recent.
  - intros (nd3 & Hq%queue_unchecked_forced & [= <- <- <-])%bind_Some. by rewrite Hq.
  - destruct is_recent; [by intros [= <- <- <-]|]. intros ([nd3 fx'] & H3 & [= <- <- <-])%bind_Some.
    unfold process_fork in H3. destruct (negb _ && _); [|by injection H3 as <- _]. apply bind_Some in H3 as (lb & _ & H3).
    destruct (start _ _). by injection H3 as <- _.
  - by intros (nd3 & (c & _ & [= <-])%bind_Some & [= <- <- <-])%bind_Some.
  - by intros (x & _ & (nd3 & (c & _ & [= <-])%bind_Some & [= <- <- <-])%bind_Some)%bind_Some.
Qed.

Lemma many_keeps times nd nd' fx h :
  node_ok nd -> ~ meets_foreign nd -> nd_forced nd = [] -> process_receive_many times nd = Some (nd', fx) ->
  block_exists (l_store (nd_ledger nd)) h = true -> block_exists (l_store (nd_ledger nd')) h = true.
Proof.
  revert nd fx. induction times as [|now times IH]; intros nd fx Hok Hn Hf; cbn [process_receive_many]; [by intros [= <- <-]|].
  destruct (have_blocks nd); [|by intros [= <- <-]]. intros ([nd1 fx1] & H1 & ([nd2 fx2] & H2 & [= -> <-])%bind_Some)%bind_Some Hh.
  destruct (process_next_ok genesis_nonzero genesis_admitted now nd Hok) as (nd1' & fx1' & Hp & Hok1).
  { intros Hnf. apply Hn. exists nd. split; [apply rtc_refl|done]. }
  rewrite H1 in Hp. injection Hp as <- <-. pose proof (meets_next _ _ _ _ H1 Hn) as Hn1. unfold process_next in H1. rewrite Hf in H1.
  destruct (nd_blocks nd) as [|b blocks] eqn:Hb; [by injection H1 as <- _; apply (IH nd fx2)|].
  destruct (pop_block _ _ _ Hok Hb) as [_ [Hadm _]]. apply bind_Some in H1 as ([[r nd3] fx3] & Hone & [= -> _]).
  apply (IH nd1 fx2); [done..|by rewrite (receive_one_forced _ _ _ _ _ _ Hone)|done|].
  destruct (receive_one_ledger _ _ _ _ _ _ Hone) as (l' & Hp & ->). by apply (process_keeps _ _ _ _ (no_ledger _ Hok) Hadm Hp).
Qed.

Lemma receive_one_alone now b nd l r r' nd' fx :
  node_ok nd -> process b (nd_ledger nd) = Some (l, r) -> pr_code r = progress ->
  (forall b', ~ waiting (nd_caches nd) (hash b) b') -> process_receive_one now b nd = Some (r', nd', fx) ->
  nd_blocks nd' = nd_blocks nd.
Proof.
  intros Hok Hp Hr Hw. destruct (unchecked_get_waiting (nd_caches nd) (hash b) (no_caches _ Hok)) as (bs & Hg & Hbs).
  assert (bs = []) as -> by (destruct bs as [|b' bs]; [done|]; destruct (Hw b'); apply Hbs; by left).
  unfold process_receive_one. rewrite Hp. cbn [mbind option_bind]. rewrite Hr. destruct (recent now (hash b) _) as [is_recent nd2] eqn:Er.
  unfold recent in Er. injection Er as _ <-. intros (nd3 & Hq & [= _ <- _])%bind_Some. unfold queue_unchecked in Hq.
  apply bind_Some in Hq as (nd4 & Hq & [= <-]). revert Hq. destruct is_recent; cbn; rewrite Hg; cbn; by intros [= <-].
Qed.

(** A block that comes first and that the ledger accepts is in the ledger when
    [processor_flush] returns; when it is the only one, and no block waits for it, the ledger
    is the one with this block. *)
Lemma first_settles clock nd b blocks l r :
  node_ok nd -> ~ meets_foreign nd -> nd_forced nd = [] -> nd_blocks nd = b :: blocks ->
  process b (nd_ledger nd) = Some (l, r) -> pr_code r = progress ->
  exists nd' fx, processor_flush clock nd = Some (nd', fx) /\ node_ok nd' /\ have_blocks nd' = false
    /\ block_exists (l_store (nd_ledger nd')) (hash b) = true
    /\ (blocks = [] -> (forall b', ~ waiting (nd_caches nd) (hash b) b') -> nd_ledger nd' = l).
Proof.
  intros Hok Hn Hf Hb Hp Hr. destruct (processor_flush_ok clock nd Hok Hn) as (nd' & fx & Hfl & Hok' & Hnb).
  assert (exists times, flush_times clock nd = clock 0%nat :: times) as [times Ht].
  { pose proof (sizes nd) as Hsz. unfold flush_times, turns, queue_size in *. rewrite Hf, Hb in *. cbn [length] in *.
    destruct (Z.to_nat _) as [|n] eqn:En; [nia|]. by eexists. }
  pose proof Hfl as Hrun. unfold processor_flush in Hrun. rewrite Ht in Hrun. cbn [process_receive_many] in Hrun.
  unfold have_blocks in Hrun at 1. rewrite Hb in Hrun.
  apply bind_Some in Hrun as ([nd1 fx1] & H1 & ([nd2 fx2] & H2 & [= -> _])%bind_Some).
  pose proof (meets_next _ _ _ _ H1 Hn) as Hn1.
  destruct (process_next_ok genesis_nonzero genesis_admitted (clock 0%nat) nd Hok) as (nd1' & fx1' & Hpn & Hok1).
  { intros Hnf. apply Hn. exists nd. split; [apply rtc_refl|done]. }
  rewrite H1 in Hpn. injection Hpn as <- <-. unfold process_next in H1. rewrite Hf, Hb in H1.
  apply bind_Some in H1 as ([[r1 nd3] fx3] & Hone & [= -> _]).
  destruct (pop_block _ _ _ Hok Hb) as [Hok2 [Hadm _]]. destruct (receive_one_ledger _ _ _ _ _ _ Hone) as (l1 & Hp1 & Hl1).
  cbn in Hp1. rewrite Hp in Hp1. injection Hp1 as <- <-. exists nd', fx. split_and!; [done..| |].
  - eapply (many_keeps times nd1); [done|done|by rewrite (receive_one_forced _ _ _ _ _ _ Hone)|done|]. rewrite Hl1.
    by apply (process_keeps _ _ _ _ (no_ledger _ Hok) Hadm Hp).
  - intros -> Hw. pose proof (receive_one_alone _ _ _ _ _ _ _ _ Hok2 Hp Hr Hw Hone) as Hb1. cbn in Hb1.
    pose proof (receive_one_forced _ _ _ _ _ _ Hone) as Hf1. cbn in Hf1. rewrite Hf in Hf1.
    destruct times as [|now times]; cbn [process_receive_many] in H2; [by injection H2 as <- _|].
    unfold have_blocks in H2. rewrite Hb1, Hf1 in H2. by injection H2 as <- _.
Qed.

(** A block that the ledger accepts names the head of its own account. *)
Lemma accepted_not_foreign l b l' r :
  reachable l -> admitted b -> process b l = Some (l', r) -> pr_code r = progress -> ~ foreign (l_store l) b.
Proof.
  intros [G [HI _]]%(reachable_consistent genesis_nonzero genesis_admitted) Hb Hp Hr. destruct b as [| | | |b]; try (by intros []).
  apply (process_code _ _ _ _ HI _ _ _ (admitted_wf _ Hb) Hp) in Hr as [_ Hr]. intros (i & a & j & Hi & Hj & Hh & Hne).
  cbn in Hr. rewrite Hi in Hr. destruct Hr as (_ & _ & Hpr & _).
  destruct (li_head HI _ _ Hi) as (_ & m & _ & Hm & Ha & _). destruct (li_head HI _ _ Hj) as (_ & m' & _ & Hm' & Ha' & _). congruence.
Qed.

Lemma idle_stays nd nd' : have_blocks nd = false -> rtc processed nd nd' -> nd' = nd.
Proof.
  intros Hb Hr. induction Hr as [|nd nd1 nd2 (now & fx & Hp) _ IH]; [done|]. assert (nd1 = nd) as ->; [|by apply IH].
  unfold have_blocks, process_next in *. destruct (nd_blocks nd); [|done]. destruct (nd_forced nd); [|done]. by injection Hp as <- _.
Qed.

(** One block, that the ledger accepts and no block waits for. *)
Lemma alone_undisturbed nd b l r :
  node_ok nd -> nd_forced nd = [] -> nd_blocks nd = [b] -> process b (nd_ledger nd) = Some (l, r) -> pr_code r = progress ->
  (forall b', ~ waiting (nd_caches nd) (hash b) b') -> ~ meets_foreign nd.
Proof.
  intros Hok Hf Hb Hp Hr Hw (nd1 & Hrun & _ & Hn). destruct (pop_block _ _ _ Hok Hb) as [Hok1 [Hadm _]].
  destruct Hrun as [nd|nd nd2 nd1 (now & fx & Hnext) Hrun].
  - unfold next_foreign in Hn. rewrite Hf, Hb in Hn. by apply (accepted_not_foreign _ _ _ _ (no_ledger _ Hok) Hadm Hp Hr).
  - unfold process_next in Hnext. rewrite Hf, Hb in Hnext. apply bind_Some in Hnext as ([[r1 nd3] fx1] & Hone & [= -> _]).
    pose proof (receive_one_alone _ _ _ _ _ _ _ _ Hok1 Hp Hr Hw Hone) as Hb2.
    pose proof (receive_one_forced _ _ _ _ _ _ Hone) as Hf2. cbn in Hb2, Hf2. rewrite Hf in Hf2.
    apply idle_stays in Hrun as ->; [|unfold have_blocks; by rewrite Hb2, Hf2]. unfold next_foreign in Hn. by rewrite Hf2, Hb2 in Hn.
Qed.
End drain.
