(* ===== verification/WalletStore.v ===== *)
(** * WalletStore: the keys of a wallet

    [rai::fan], [rai::wallet_value] and [rai::wallet_store] (node/wallet.cpp). A wallet is a
    table from public keys to encrypted private keys; the first seven keys of the table
    are special entries. Keys are encrypted with the wallet key, the wallet key with
    a key derived from the password; both are kept in memory spread over several words.
    Random words are arguments of the operations that draw them. *)

From stdpp Require Import base list option tactics gmap sorting.
From Stdlib Require Import ZArith Lia.
From S2P Require Import Prelude Blocks Common Store Numbers.
#[local] Open Scope Z_scope.

(** ** Parameters *)

(** AES in counter mode (Crypto++), with key, initial counter and data; Argon2 of a
    password with a salt; the public key of a private key. *)
Class Crypto := {
  ctr_encrypt : Z -> Z -> Z -> Z;
  ctr_decrypt : Z -> Z -> Z -> Z;
  argon2_hash : stream -> Z -> Z;
  ed25519_publickey : Z -> Z
}.

(** Decryption inverts encryption; all results are 256-bit words. *)
Class CryptoLaws `{Crypto} : Prop := {
  decrypt_encrypt key iv x : in_width 256 x -> ctr_decrypt key iv (ctr_encrypt key iv x) = x;
  encrypt_width key iv x : in_width 256 x -> in_width 256 (ctr_encrypt key iv x);
  decrypt_width key iv x : in_width 256 x -> in_width 256 (ctr_decrypt key iv x);
  argon2_width password salt : in_width 256 (argon2_hash password salt)
}.

(** ** Data *)

(** [fan]: a value as the exclusive or of several words; there is always a first one. *)
Record fan := Fan {
  fan_first : Z;
  fan_rest : list Z
}.

Record wallet_value := WalletValue {
  wv_key : Z;
  wv_work : Z
}.

Inductive key_type :=
| kt_not_a_type
| kt_unknown
| kt_adhoc
| kt_deterministic.

#[global] Instance key_type_eq_dec : EqDecision key_type.
Proof. solve_decision. Defined.

Record wallet_store := WalletStore {
  ws_entries : gmap Z wallet_value;
  ws_password : fan;
  ws_wallet_key_mem : fan
}.

Definition set_entries (m : gmap Z wallet_value) (ws : wallet_store) : wallet_store :=
  WalletStore m (ws_password ws) (ws_wallet_key_mem ws).
Definition set_password (f : fan) (ws : wallet_store) : wallet_store :=
  WalletStore (ws_entries ws) f (ws_wallet_key_mem ws).
Definition set_wallet_key_mem (f : fan) (ws : wallet_store) : wallet_store :=
  WalletStore (ws_entries ws) (ws_password ws) f.

Definition version_1 : Z := 1.
Definition version_2 : Z := 2.
Definition version_3 : Z := 3.
Definition version_current : Z := version_3.
Definition version_special : Z := 0.
Definition salt_special : Z := 1.
Definition wallet_key_special : Z := 2.
Definition check_special : Z := 3.
Definition representative_special : Z := 4.
Definition seed_special : Z := 5.
Definition deterministic_index_special : Z := 6.
Definition special_count : Z := 7.

(** ** Values spread out in memory *)

(** [fan::fan]: the words are the random ones, then the key combined with all of them. *)
Definition fan_init (key : Z) (randoms : list Z) : fan :=
  let last := fold_left Z.lxor randoms key in
  match randoms with
  | [] => Fan last []
  | r :: randoms => Fan r (randoms ++ [last])
  end.

(** [fan::value_get]. *)
Definition fan_value (f : fan) : Z := fold_left Z.lxor (fan_first f :: fan_rest f) 0.

(** [fan::value_set]. *)
Definition fan_value_set (v : Z) (f : fan) : fan :=
  Fan (Z.lxor (Z.lxor (fan_first f) (fan_value f)) v) (fan_rest f).

(** ** Entries *)

(** [wallet_value::val] and the constructor that reads it; [None] is the failed assertion
    on the size. *)
Definition wallet_value_val (v : wallet_value) : stream := be_bytes 32 (wv_key v) ++ le_bytes 8 (wv_work v).
Definition wallet_value_read (s : stream) : option wallet_value :=
  _ ← assert (length s =? 40)%nat;
  Some (WalletValue (of_be_bytes (take 32 s)) (of_le_bytes (drop 32 s))).

(** [key_type]. *)
Definition key_type_of (v : wallet_value) : key_type :=
  if 2 ^ 64 - 1 <? wv_key v then kt_adhoc
  else if wrap 32 (Z.shiftr (wv_key v) 32) =? 1 then kt_deterministic else kt_unknown.

Section store.
Context `{E0 : Env} `{K0 : Crypto}.

Definition entry_get_raw (ws : wallet_store) (pub : Z) : wallet_value := default (WalletValue 0 0) (ws_entries ws !! pub).
Definition entry_put_raw (pub : Z) (v : wallet_value) (ws : wallet_store) : wallet_store :=
  set_entries (<[pub := v]> (ws_entries ws)) ws.

(** [erase]: [None] is the failed assertion that the entry is there. *)
Definition wallet_erase (pub : Z) (ws : wallet_store) : option wallet_store :=
  _ ← ws_entries ws !! pub; Some (set_entries (delete pub (ws_entries ws)) ws).

(** [find] and [exists]. *)
Definition wallet_find (ws : wallet_store) (k : Z) : option Z :=
  match lower_bound (ws_entries ws) k with
  | Some x => if x =? k then Some x else None
  | None => None
  end.
Definition wallet_exists (ws : wallet_store) (pub : Z) : bool := bool_decide (is_Some (wallet_find ws pub)).

(** [begin]: past the special entries. [accounts]. *)
Definition wallet_begin (ws : wallet_store) : option Z := lower_bound (ws_entries ws) special_count.
Definition wallet_accounts (ws : wallet_store) : list Z := filter (fun k => special_count <= k) (ordered (ws_entries ws)).

(** ** Keys and passwords *)

Definition wallet_check (ws : wallet_store) : Z := wv_key (entry_get_raw ws check_special).
Definition wallet_salt (ws : wallet_store) : Z := wv_key (entry_get_raw ws salt_special).

(** [salt (transaction).owords[0]]: the first sixteen bytes. *)
Definition wallet_iv (ws : wallet_store) : Z := Z.shiftr (wallet_salt ws) 128.

Definition wallet_key (ws : wallet_store) : Z :=
  ctr_decrypt (fan_value (ws_password ws)) (wallet_iv ws) (fan_value (ws_wallet_key_mem ws)).

Definition wallet_seed (ws : wallet_store) : Z :=
  ctr_decrypt (wallet_key ws) (wallet_iv ws) (wv_key (entry_get_raw ws seed_special)).

Definition valid_password (ws : wallet_store) : bool :=
  wallet_check ws =? ctr_encrypt (wallet_key ws) (wallet_iv ws) 0.

Definition derive_key (ws : wallet_store) (password : stream) : Z := argon2_hash password (wallet_salt ws).

(** [rekey]: [true] is an error. *)
Definition rekey (password : stream) (ws : wallet_store) : bool * wallet_store :=
  if valid_password ws then
    let password_new := derive_key ws password in
    let wallet_key_l := wallet_key ws in
    let ws := set_password (fan_value_set password_new (ws_password ws)) ws in
    let encrypted := ctr_encrypt password_new (wallet_iv ws) wallet_key_l in
    let ws := set_wallet_key_mem (fan_value_set encrypted (ws_wallet_key_mem ws)) ws in
    (false, entry_put_raw wallet_key_special (WalletValue encrypted 0) ws)
  else (true, ws).

(** ** Deterministic keys *)

Definition deterministic_index_get (ws : wallet_store) : Z := wrap 32 (wv_key (entry_get_raw ws deterministic_index_special)).
Definition deterministic_index_set (index : Z) (ws : wallet_store) : wallet_store :=
  entry_put_raw deterministic_index_special (WalletValue index 0) ws.

(** [deterministic_key]: [None] is the failed assertion of a valid password. *)
Definition wallet_deterministic_key (ws : wallet_store) (index : Z) : option Z :=
  _ ← assert (valid_password ws); Some (deterministic_key (wallet_seed ws) index).

(** The loop of [deterministic_insert] looks for a key that is not there. More turns than
    there are entries are needed only when two indices have the same key. *)
Fixpoint insert_loop (fuel : nat) (index result : Z) (ws : wallet_store) : option (Z * Z) :=
  if wallet_exists ws result then
    match fuel with
    | O => None
    | S fuel =>
      let index := wrap 32 (index + 1) in
      prv ← wallet_deterministic_key ws index;
      insert_loop fuel index (ed25519_publickey prv) ws
    end
  else Some (index, result).

Definition deterministic_insert (ws : wallet_store) : option (Z * wallet_store) :=
  let index := deterministic_index_get ws in
  prv ← wallet_deterministic_key ws index;
  '(index, result) ← insert_loop (size (ws_entries ws)) index (ed25519_publickey prv) ws;
  let marker := Z.lor (wrap 64 (Z.shiftl 1 32)) index in
  let ws := entry_put_raw result (WalletValue marker 0) ws in
  Some (result, deterministic_index_set (wrap 32 (index + 1)) ws).

(** The loop of [deterministic_clear]; [i] is the cursor. *)
Fixpoint clear_loop (fuel : nat) (i : option Z) (ws : wallet_store) : option wallet_store :=
  match i with
  | None => Some ws
  | Some k =>
    match fuel with
    | O => None
    | S fuel =>
      v ← ws_entries ws !! k;
      match key_type_of v with
      | kt_deterministic => ws ← wallet_erase k ws; clear_loop fuel (lower_bound (ws_entries ws) k) ws
      | _ => clear_loop fuel (lower_bound (ws_entries ws) (k + 1)) ws
      end
    end
  end.

Definition deterministic_clear (ws : wallet_store) : option wallet_store :=
  ws ← clear_loop (size (ws_entries ws)) (wallet_begin ws) ws;
  Some (deterministic_index_set 0 ws).

Definition seed_set (prv : Z) (ws : wallet_store) : option wallet_store :=
  let ciphertext := ctr_encrypt (wallet_key ws) (wallet_iv ws) prv in
  deterministic_clear (entry_put_raw seed_special (WalletValue ciphertext 0) ws).

(** ** Accounts *)

Definition wallet_representative (ws : wallet_store) : Z := wv_key (entry_get_raw ws representative_special).
Definition representative_set (a : Z) (ws : wallet_store) : wallet_store :=
  entry_put_raw representative_special (WalletValue a 0) ws.
Definition is_representative (ws : wallet_store) : bool := wallet_exists ws (wallet_representative ws).

Definition insert_adhoc (prv : Z) (ws : wallet_store) : option (Z * wallet_store) :=
  _ ← assert (valid_password ws);
  let pub := ed25519_publickey prv in
  Some (pub, entry_put_raw pub (WalletValue (ctr_encrypt (wallet_key ws) (wallet_iv ws) prv) 0) ws).

Definition insert_watch (pub : Z) (ws : wallet_store) : wallet_store := entry_put_raw pub (WalletValue 0 0) ws.

(** [fetch]: the inner [None] is an error. *)
Definition fetch_raw (ws : wallet_store) (pub : Z) : option (option Z) :=
  if valid_password ws then
    let value := entry_get_raw ws pub in
    if negb (wv_key value =? 0) then
      match key_type_of value with
      | kt_deterministic =>
        prv ← wallet_deterministic_key ws (wrap 32 (wv_key value)); Some (Some prv)
      | kt_adhoc => Some (Some (ctr_decrypt (wallet_key ws) (wallet_iv ws) (wv_key value)))
      | _ => Some None
      end
    else Some None
  else Some None.

Definition fetch (ws : wallet_store) (pub : Z) : option (option Z) :=
  r ← fetch_raw ws pub;
  match r with
  | Some prv => Some (if ed25519_publickey prv =? pub then Some prv else None)
  | None => Some None
  end.

(** [work_get]: [None] is an error. [work_put]: [None] is a failed assertion. *)
Definition work_get (ws : wallet_store) (pub : Z) : option Z :=
  let entry := entry_get_raw ws pub in if negb (wv_key entry =? 0) then Some (wv_work entry) else None.
Definition work_put (pub work : Z) (ws : wallet_store) : option wallet_store :=
  let entry := entry_get_raw ws pub in
  _ ← assert (negb (wv_key entry =? 0));
  Some (entry_put_raw pub (WalletValue (wv_key entry) work) ws).

(** ** Between wallets *)

(** The loop of [move] and [import]: the error so far, the wallet and the other one. *)
Fixpoint move_loop (keys : list Z) (result : bool) (ws other : wallet_store)
    : option (bool * wallet_store * wallet_store) :=
  match keys with
  | [] => Some (result, ws, other)
  | k :: keys =>
    r ← fetch other k;
    match result, r with
    | false, Some prv =>
      '(_, ws) ← insert_adhoc prv ws;
      other ← wallet_erase k other;
      move_loop keys false ws other
    | _, _ => move_loop keys true ws other
    end
  end.

Definition move_keys (keys : list Z) (ws other : wallet_store) : option (bool * wallet_store * wallet_store) :=
  _ ← assert (valid_password ws);
  _ ← assert (valid_password other);
  move_loop keys false ws other.

Definition wallet_import (ws other : wallet_store) : option (bool * wallet_store * wallet_store) :=
  _ ← assert (valid_password ws);
  _ ← assert (valid_password other);
  move_loop (wallet_accounts other) false ws other.

(** ** Versions *)

Definition wallet_version (ws : wallet_store) : Z := wrap 8 (wv_key (entry_get_raw ws version_special)).
Definition wallet_version_put (v : Z) (ws : wallet_store) : wallet_store :=
  entry_put_raw version_special (WalletValue v 0) ws.

(** The loop of [upgrade_v1_v2]: a key that cannot be fetched may be encrypted with the
    wallet key as a zero or an empty password gives it. *)
Fixpoint upgrade_loop (keys : list Z) (zero_password empty_password : Z) (ws : wallet_store) : option wallet_store :=
  match keys with
  | [] => Some ws
  | k :: keys =>
    r ← fetch ws k;
    ws ← match r with
         | Some _ => Some ws
         | None =>
           let data := wv_key (entry_get_raw ws k) in
           let prv := ctr_decrypt zero_password (wallet_iv ws) data in
           if ed25519_publickey prv =? k then snd <$> insert_adhoc prv ws else
           let prv := ctr_decrypt empty_password (wallet_iv ws) data in
           if ed25519_publickey prv =? k then snd <$> insert_adhoc prv ws else Some ws
         end;
    upgrade_loop keys zero_password empty_password ws
  end.

Definition upgrade_v1_v2 (ws : wallet_store) : option wallet_store :=
  _ ← assert (wallet_version ws =? 1);
  let value := wv_key (entry_get_raw ws wallet_key_special) in
  let zero_password := ctr_decrypt 0 (wallet_iv ws) value in
  let empty_password := ctr_decrypt (derive_key ws []) (wallet_iv ws) value in
  ws ← upgrade_loop (wallet_accounts ws) zero_password empty_password ws;
  Some (wallet_version_put 2 ws).

Definition upgrade_v2_v3 (seed : Z) (ws : wallet_store) : option wallet_store :=
  _ ← assert (wallet_version ws =? 2);
  ws ← seed_set seed ws;
  Some (wallet_version_put 3 (entry_put_raw deterministic_index_special (WalletValue 0 0) ws)).

(** [attempt_password]: [true] is an error. Both tests of the version read the snapshot of
    the caller's transaction, the upgrades write in their own. *)
Definition attempt_password (password : stream) (seed : Z) (ws : wallet_store) : option (bool * wallet_store) :=
  let ws := set_password (fan_value_set (derive_key ws password) (ws_password ws)) ws in
  if valid_password ws then
    let version := wallet_version ws in
    ws ← (if version =? version_1 then upgrade_v1_v2 ws else Some ws);
    ws ← (if version =? version_2 then upgrade_v2_v3 seed ws else Some ws);
    Some (false, ws)
  else Some (true, ws).

(** ** Opening a wallet *)

(** The first contents of a wallet. *)
Definition wallet_initialize (representative salt key seed : Z) (ws : wallet_store) : option wallet_store :=
  let ws := wallet_version_put version_current ws in
  let ws := entry_put_raw salt_special (WalletValue salt 0) ws in
  let ws := set_password (fan_value_set 0 (ws_password ws)) ws in
  let encrypted := ctr_encrypt 0 (Z.shiftr salt 128) key in
  let ws := entry_put_raw wallet_key_special (WalletValue encrypted 0) ws in
  let ws := set_wallet_key_mem (fan_value_set encrypted (ws_wallet_key_mem ws)) ws in
  let ws := entry_put_raw check_special (WalletValue (ctr_encrypt key (Z.shiftr salt 128) 0) 0) ws in
  let ws := entry_put_raw representative_special (WalletValue representative 0) ws in
  ws ← seed_set seed ws;
  Some (entry_put_raw deterministic_index_special (WalletValue 0 0) ws).

(** The constructor [wallet_store] over a table. *)
Definition wallet_open (representative salt key seed : Z) (randoms1 randoms2 : list Z) (entries : gmap Z wallet_value)
    : option wallet_store :=
  let ws := WalletStore entries (fan_init 0 randoms1) (fan_init 0 randoms2) in
  ws ← match entries !! version_special with
       | Some _ => Some ws
       | None => wallet_initialize representative salt key seed ws
       end;
  Some (set_wallet_key_mem (fan_value_set (wv_key (entry_get_raw ws wallet_key_special)) (ws_wallet_key_mem ws)) ws).
End store.

(** ** Backups *)

Section backup.
Context `{S0 : Streams}.

(** [serialize_json], up to the JSON text: the pairs of the tree. *)
Definition serialize_tree (ws : wallet_store) : list (stream * stream) :=
  (fun k => (uint256_encode_hex k, uint256_encode_hex (wv_key (entry_get_raw ws k)))) <$> ordered (ws_entries ws).

(** The loop over [l] of the constructor that reads a tree: the error of the last pair, and
    the table. *)
Fixpoint restore_loop (tree l : list (stream * stream)) (init : bool) (ws : wallet_store) : bool * wallet_store :=
  match l with
  | [] => (init, ws)
  | (name, v) :: l =>
    let '(error, key) := uint256_decode_hex 0 name in
    if error then restore_loop tree l true ws else
    let '(error, value) := uint256_decode_hex 0 (default v (tree_get tree name)) in
    if error then restore_loop tree l true ws
    else restore_loop tree l false (entry_put_raw key (WalletValue value 0) ws)
  end.

(** The constructor [wallet_store] from a tree, into an empty table: [true] is an error. The
    tree of a text that is not JSON is empty, which is an error, too. *)
Definition wallet_restore (tree : list (stream * stream)) (randoms1 randoms2 : list Z) : bool * wallet_store :=
  let '(init, ws) := restore_loop tree tree false (WalletStore ∅ (fan_init 0 randoms1) (fan_init 0 randoms2)) in
  let missing k := bool_decide (ws_entries ws !! k = None) in
  let init := init || missing version_special || missing wallet_key_special || missing salt_special
              || missing check_special || missing representative_special in
  let ws := set_password (fan_value_set 0 (ws_password ws)) ws in
  (init, set_wallet_key_mem (fan_value_set (wv_key (entry_get_raw ws wallet_key_special)) (ws_wallet_key_mem ws)) ws).
End backup.
