(* ===== verification/WalletKeys.v ===== *)
(** * WalletKeys: what holds of the keys of a wallet *)

From stdpp Require Import base list option tactics gmap sorting.
From Stdlib Require Import ZArith Lia.
From S2P Require Import Prelude Blocks Common Store Numbers TextForms WalletStore.
#[local] Open Scope Z_scope.

(** ** Values spread out in memory *)

Lemma fold_lxor l a : fold_left Z.lxor l a = Z.lxor a (fold_left Z.lxor l 0).
Proof.
  revert a. induction l as [|x l IH]; intros a; cbn [fold_left]; [by rewrite Z.lxor_0_r|].
  rewrite (IH (Z.lxor a x)), (IH (Z.lxor 0 x)), Z.lxor_0_l. apply Z.lxor_assoc.
Qed.

Lemma fan_value_first f : fan_value f = Z.lxor (fan_first f) (fold_left Z.lxor (fan_rest f) 0).
Proof. unfold fan_value. cbn [fold_left]. by rewrite Z.lxor_0_l, fold_lxor. Qed.

Lemma fan_set_value v f : fan_value (fan_value_set v f) = v.
Proof.
  rewrite fan_value_first. unfold fan_value_set. cbn [fan_first fan_rest]. rewrite (fan_value_first f). set (x := fan_first f). set (y := fold_left _ _ _).
  rewrite <- (Z.lxor_assoc x x y), Z.lxor_nilpotent, Z.lxor_0_l, (Z.lxor_comm y v), Z.lxor_assoc, Z.lxor_nilpotent.
  apply Z.lxor_0_r.
Qed.

Lemma fan_init_value key randoms : fan_value (fan_init key randoms) = key.
Proof.
  rewrite fan_value_first. destruct randoms as [|r randoms]; cbn; [apply Z.lxor_0_r|].
  rewrite fold_left_app. cbn. rewrite (fold_lxor randoms (Z.lxor key r)). set (y := fold_left _ _ _).
  rewrite (Z.lxor_comm y), !(Z.lxor_assoc _ y), Z.lxor_nilpotent, Z.lxor_0_r, (Z.lxor_comm key), <- Z.lxor_assoc,
    Z.lxor_nilpotent. apply Z.lxor_0_l.
Qed.

(** ** Entries *)

Lemma wallet_value_roundtrip v :
  in_width 256 (wv_key v) -> in_width 64 (wv_work v) -> wallet_value_read (wallet_value_val v) = Some v.
Proof.
  intros Hk Hw. unfold wallet_value_read, wallet_value_val. rewrite length_app, be_bytes_length, le_bytes_length.
  cbn [assert Nat.add Nat.eqb mbind option_bind].
  rewrite take_app_length', drop_app_length' by by rewrite be_bytes_length.
  rewrite of_be_be_bytes, of_le_le_bytes, !wrap_small by done. by destruct v.
Qed.

Lemma wallet_exists_iff ws k : wallet_exists ws k = true <-> is_Some (ws_entries ws !! k).
Proof.
  unfold wallet_exists, wallet_find. rewrite bool_decide_eq_true. split.
  - destruct (lower_bound _ k) as [x|] eqn:Hl; [|by intros [? ?]]. destruct (Z.eqb_spec x k) as [->|]; [|by intros [? ?]].
    intros _. by apply lower_bound_Some in Hl as [? _].
  - intros Hk. destruct (lower_bound _ k) as [x|] eqn:Hl.
    + apply lower_bound_Some in Hl as (_ & H1 & H2). specialize (H2 k Hk). destruct (Z.eqb_spec x k); [by eexists|lia].
    + apply (lower_bound_None _ _ k) in Hl; [lia|done].
Qed.

Section keys.
Context `{E0 : Env} `{K0 : Crypto}.

(** ** What [fetch] depends on *)

(** Two states of a wallet with the same secrets. *)
Record same_secrets (ws ws' : wallet_store) : Prop := {
  ss_key : wallet_key ws' = wallet_key ws;
  ss_salt : wallet_salt ws' = wallet_salt ws;
  ss_check : wallet_check ws' = wallet_check ws;
  ss_seed : wv_key (entry_get_raw ws' seed_special) = wv_key (entry_get_raw ws seed_special)
}.

Lemma same_secrets_refl ws : same_secrets ws ws.
Proof. done. Qed.

Lemma same_secrets_trans ws1 ws2 ws3 : same_secrets ws1 ws2 -> same_secrets ws2 ws3 -> same_secrets ws1 ws3.
Proof. intros [] []. split; congruence. Qed.

Lemma secrets_valid ws ws' : same_secrets ws ws' -> valid_password ws' = valid_password ws.
Proof. intros [H1 H2 H3 H4]. unfold valid_password, wallet_iv. by rewrite H1, H2, H3. Qed.

Lemma secrets_seed ws ws' : same_secrets ws ws' -> wallet_seed ws' = wallet_seed ws.
Proof. intros [H1 H2 H3 H4]. unfold wallet_seed, wallet_iv. by rewrite H1, H2, H4. Qed.

Lemma secrets_fetch ws ws' k :
  same_secrets ws ws' -> wv_key (entry_get_raw ws' k) = wv_key (entry_get_raw ws k) -> fetch ws' k = fetch ws k.
Proof.
  intros Hs Hk. unfold fetch, fetch_raw, wallet_deterministic_key, key_type_of, wallet_iv.
  by rewrite (secrets_valid _ _ Hs), (secrets_seed _ _ Hs), (ss_key _ _ Hs), (ss_salt _ _ Hs), Hk.
Qed.

Lemma get_put_eq k v ws : entry_get_raw (entry_put_raw k v ws) k = v.
Proof. unfold entry_get_raw. cbn. by rewrite lookup_insert_eq. Qed.

Lemma get_put_ne k k' v ws : k' <> k -> entry_get_raw (entry_put_raw k v ws) k' = entry_get_raw ws k'.
Proof. intros Hne. unfold entry_get_raw. cbn. by rewrite lookup_insert_ne. Qed.

(** The entries of accounts are no secrets. *)
Lemma put_secrets k v ws : special_count <= k \/ k = deterministic_index_special -> same_secrets ws (entry_put_raw k v ws).
Proof.
  intros Hk. unfold special_count, deterministic_index_special in Hk.
  assert (forall j, j <= 5 -> entry_get_raw (entry_put_raw k v ws) j = entry_get_raw ws j) as He.
  { intros j Hj. apply get_put_ne. lia. }
  unfold special_count, deterministic_index_special in Hk.
  assert (wallet_salt (entry_put_raw k v ws) = wallet_salt ws) as E by (unfold wallet_salt; by rewrite He).
  split; [unfold wallet_key, wallet_iv; by rewrite E|done|unfold wallet_check; by rewrite He|by rewrite He].
Qed.

Lemma erase_entry k ws : is_Some (ws_entries ws !! k) ->
  exists ws', wallet_erase k ws = Some ws' /\ ws_entries ws' = delete k (ws_entries ws)
    /\ (special_count <= k -> same_secrets ws ws').
Proof.
  intros [v Hv]. unfold wallet_erase. rewrite Hv. eexists. split; [done|]. split; [done|]. intros Hk. unfold special_count in Hk.
  set (ws' := set_entries _ ws).
  assert (forall j, j <= 5 -> entry_get_raw ws' j = entry_get_raw ws j) as He.
  { intros j Hj. unfold entry_get_raw. cbn. rewrite lookup_delete_ne; [done|lia]. }
  assert (wallet_salt ws' = wallet_salt ws) as E by (unfold wallet_salt; by rewrite He).
  split; [unfold wallet_key, wallet_iv; by rewrite E|done|unfold wallet_check; by rewrite He|by rewrite He].
Qed.

(** [fetch] never fails an assertion. *)
Lemma fetch_total ws k : exists r, fetch ws k = Some r.
Proof.
  unfold fetch, fetch_raw, wallet_deterministic_key. destruct (valid_password ws) eqn:Hv; [|by eexists].
  destruct (negb _); [|by eexists]. destruct (key_type_of _); by eexists.
Qed.

(** A locked wallet gives nothing. *)
Lemma fetch_locked ws k : valid_password ws = false -> fetch ws k = Some None.
Proof. intros Hv. unfold fetch, fetch_raw. by rewrite Hv. Qed.

Lemma fetch_pub ws k prv : fetch ws k = Some (Some prv) -> ed25519_publickey prv = k /\ valid_password ws = true /\ is_Some (ws_entries ws !! k).
Proof.
  unfold fetch. intros ([r|] & Hr & H)%bind_Some; [|done]. destruct (Z.eqb_spec (ed25519_publickey r) k) as [Hk|]; [|done].
  injection H as <-. split; [done|]. unfold fetch_raw in Hr. destruct (valid_password ws); [|done]. split; [done|].
  unfold entry_get_raw in Hr. destruct (ws_entries ws !! k); [by eexists|]. by cbn in Hr.
Qed.

Definition cipher (ws : wallet_store) (prv : Z) : Z := ctr_encrypt (wallet_key ws) (wallet_iv ws) prv.

Lemma fetch_adhoc `{!CryptoLaws} ws prv w :
  let pub := ed25519_publickey prv in
  valid_password ws = true -> in_width 256 prv -> 2 ^ 64 <= cipher ws prv ->
  entry_get_raw ws pub = WalletValue (cipher ws prv) w -> fetch ws pub = Some (Some prv).
Proof.
  intros pub Hv Hp Hc He. unfold fetch, fetch_raw. rewrite Hv, He. unfold key_type_of. cbn [wv_key].
  destruct (Z.eqb_spec (cipher ws prv) 0); [lia|]. destruct (Z.ltb_spec (2 ^ 64 - 1) (cipher ws prv)); [|lia].
  cbn [negb mbind option_bind]. unfold cipher. rewrite decrypt_encrypt by done. by rewrite Z.eqb_refl.
Qed.

(** The entry of a deterministic key. *)
Definition marker (index : Z) : Z := Z.lor (wrap 64 (Z.shiftl 1 32)) index.

Lemma marker_value index : 0 <= index < 2 ^ 32 -> marker index = 2 ^ 32 + index.
Proof. intros Hi. unfold marker. change (wrap 64 (Z.shiftl 1 32)) with (Z.shiftl 1 32). rewrite lor_shiftl; lia. Qed.

Definition derived (ws : wallet_store) (index : Z) : Z := deterministic_key (wallet_seed ws) index.
Definition derived_pub (ws : wallet_store) (index : Z) : Z := ed25519_publickey (derived ws index).

Lemma fetch_deterministic ws index w :
  valid_password ws = true -> 0 <= index < 2 ^ 32 ->
  entry_get_raw ws (derived_pub ws index) = WalletValue (marker index) w ->
  fetch ws (derived_pub ws index) = Some (Some (derived ws index)).
Proof.
  intros Hv Hi He. unfold fetch, fetch_raw. rewrite Hv, He. unfold key_type_of. cbn [wv_key]. rewrite marker_value by done.
  destruct (Z.eqb_spec (2 ^ 32 + index) 0); [lia|]. destruct (Z.ltb_spec (2 ^ 64 - 1) (2 ^ 32 + index)); [lia|].
  assert (Z.shiftr (2 ^ 32 + index) 32 = 1) as ->.
  { rewrite Z.shiftr_div_pow2 by lia. change (2 ^ 32 + index) with (1 * 2 ^ 32 + index).
    rewrite Z.div_add_l, Z.div_small by lia. done. }
  assert (wrap 32 (2 ^ 32 + index) = index) as ->.
  { unfold wrap. change (2 ^ 32 + index) with (1 * 2 ^ 32 + index). rewrite Z.add_comm, Z.mod_add by lia. by apply Z.mod_small. }
  cbn [negb]. change (wrap 32 1 =? 1) with true. unfold wallet_deterministic_key. rewrite Hv. cbn [assert mbind option_bind].
  fold (derived ws index) (derived_pub ws index). by rewrite Z.eqb_refl.
Qed.

Lemma insert_adhoc_ok `{!CryptoLaws} prv ws :
  let pub := ed25519_publickey prv in
  valid_password ws = true -> in_width 256 prv -> special_count <= pub -> 2 ^ 64 <= cipher ws prv ->
  exists ws', insert_adhoc prv ws = Some (pub, ws') /\ same_secrets ws ws' /\ fetch ws' pub = Some (Some prv)
    /\ forall k, k <> pub -> fetch ws' k = fetch ws k.
Proof.
  intros pub Hv Hp Hs Hc. unfold insert_adhoc. rewrite Hv. cbn [assert mbind option_bind]. fold (cipher ws prv).
  eexists. split; [done|]. set (ws' := entry_put_raw _ _ ws).
  assert (same_secrets ws ws') as Hss by (apply put_secrets; auto). split_and!; [done| |].
  - apply (fetch_adhoc ws' prv 0); [by rewrite (secrets_valid _ _ Hss)|done| |].
    + unfold cipher, wallet_iv. by rewrite (ss_key _ _ Hss), (ss_salt _ _ Hss).
    + unfold ws' at 1. fold pub. rewrite get_put_eq. unfold cipher, wallet_iv. by rewrite (ss_key _ _ Hss), (ss_salt _ _ Hss).
  - intros k Hk. apply secrets_fetch; [done|]. unfold ws'. by rewrite get_put_ne.
Qed.

(** A private key that is inserted can be fetched by its public key, and the other keys
    of the wallet are as before. *)
Theorem insert_adhoc_fetch `{!CryptoLaws} prv ws :
  let pub := ed25519_publickey prv in
  valid_password ws = true -> in_width 256 prv -> special_count <= pub -> 2 ^ 64 <= cipher ws prv ->
  exists ws', insert_adhoc prv ws = Some (pub, ws') /\ same_secrets ws ws' /\ fetch ws' pub = Some (Some prv)
    /\ forall k, k <> pub -> fetch ws' k = fetch ws k.
Proof. apply insert_adhoc_ok. Qed.

(** ** Deterministic keys *)

Lemma insert_loop_ok ws (X : gset Z) fuel index :
  valid_password ws = true -> 0 <= index -> index + Z.of_nat fuel < 2 ^ 32 -> (size X <= fuel)%nat ->
  (forall i j, index <= i <= index + Z.of_nat fuel -> index <= j <= index + Z.of_nat fuel ->
     derived_pub ws i = derived_pub ws j -> i = j) ->
  (forall i, index <= i <= index + Z.of_nat fuel -> is_Some (ws_entries ws !! derived_pub ws i) -> derived_pub ws i ∈ X) ->
  exists j, insert_loop fuel index (derived_pub ws index) ws = Some (j, derived_pub ws j)
    /\ index <= j <= index + Z.of_nat fuel /\ wallet_exists ws (derived_pub ws j) = false
    /\ forall i, index <= i < j -> wallet_exists ws (derived_pub ws i) = true.
Proof.
  intros Hv. revert X index. induction fuel as [|fuel IH]; intros X index H0 Hi HX Hinj Hin; cbn [insert_loop].
  all: destruct (wallet_exists ws (derived_pub ws index)) eqn:He; [|exists index; split_and!; [done|lia|lia|done|lia]].
  all: assert (derived_pub ws index ∈ X) as HeX by (apply Hin; [lia|by apply wallet_exists_iff]).
  - assert (X = ∅) as -> by (apply leibniz_equiv, size_empty_iff; lia). set_solver.
  - unfold wallet_deterministic_key. rewrite Hv. cbn [assert mbind option_bind]. rewrite wrap_small by (unfold in_width; lia).
    fold (derived ws (index + 1)) (derived_pub ws (index + 1)).
    destruct (IH (X ∖ {[derived_pub ws index]}) (index + 1)) as (j & Hj & Hr & Hn & Hb); [lia|lia| | | |].
    + rewrite size_difference by set_solver. rewrite size_singleton. lia.
    + intros i j Hi' Hj'. apply Hinj; lia.
    + intros i Hi' Hs. apply elem_of_difference. split; [apply Hin; [lia|done]|]. rewrite elem_of_singleton.
      intros E. apply Hinj in E; lia.
    + exists j. split_and!; [done|lia|lia|done|]. intros i Hi'. destruct (decide (i = index)) as [->|]; [done|apply Hb; lia].
Qed.

(** The conditions under which [deterministic_insert] finds an index from [lo] to [hi]: their
    keys are different and the indices do not wrap around. *)
Record fresh_indices (ws : wallet_store) (lo hi : Z) : Prop := {
  fi_width : hi < 2 ^ 32;
  fi_special i : lo <= i <= hi -> special_count <= derived_pub ws i;
  fi_distinct i j : lo <= i <= hi -> lo <= j <= hi -> derived_pub ws i = derived_pub ws j -> i = j
}.

Definition with_index (j : Z) (ws : wallet_store) : wallet_store :=
  deterministic_index_set (wrap 32 (j + 1)) (entry_put_raw (derived_pub ws j) (WalletValue (marker j) 0) ws).

Lemma with_index_secrets j ws : special_count <= derived_pub ws j -> same_secrets ws (with_index j ws).
Proof. intros Hs. eapply same_secrets_trans; [|apply put_secrets; auto]. apply put_secrets; auto. Qed.

Lemma with_index_get j ws : deterministic_index_get (with_index j ws) = wrap 32 (j + 1).
Proof. unfold deterministic_index_get, with_index, deterministic_index_set. rewrite get_put_eq. cbn. apply wrap_wrap. Qed.

Lemma with_index_lookup j ws k : special_count <= k ->
  ws_entries (with_index j ws) !! k = if decide (k = derived_pub ws j) then Some (WalletValue (marker j) 0) else ws_entries ws !! k.
Proof.
  intros Hk. cbn. rewrite lookup_insert_ne by (unfold special_count, deterministic_index_special in *; lia).
  destruct (decide (k = derived_pub ws j)) as [->|]; [apply lookup_insert_eq|by apply lookup_insert_ne].
Qed.

Lemma secrets_derived ws ws' i : same_secrets ws ws' -> derived_pub ws' i = derived_pub ws i.
Proof. intros Hss. unfold derived_pub, derived. by rewrite (secrets_seed _ _ Hss). Qed.

Lemma deterministic_insert_ok ws :
  let index := deterministic_index_get ws in let n := Z.of_nat (size (ws_entries ws)) in
  valid_password ws = true -> fresh_indices ws index (index + n) ->
  exists j, deterministic_insert ws = Some (derived_pub ws j, with_index j ws) /\ index <= j <= index + n
    /\ wallet_exists ws (derived_pub ws j) = false /\ forall i, index <= i < j -> wallet_exists ws (derived_pub ws i) = true.
Proof.
  intros index n Hv [Hn _ Hinj]. assert (0 <= index) as H0 by (apply Z.mod_pos_bound; lia). unfold deterministic_insert.
  fold index. unfold wallet_deterministic_key. rewrite Hv. cbn [assert mbind option_bind]. fold (derived ws index) (derived_pub ws index).
  destruct (insert_loop_ok ws (dom (ws_entries ws)) (size (ws_entries ws)) index Hv H0 Hn) as (j & -> & Hj);
    [by rewrite size_dom|done|by intros i _ ?%elem_of_dom|].
  exists j. done.
Qed.

(** [deterministic_insert] ends with a key that the wallet did not have, derived from
    the seed at an index not below the stored one; the key can be fetched, the others are
    as before, and the next search starts after the index. This holds as long as the
    indices it tries have different keys and do not wrap around. *)
Theorem deterministic_insert_fetch ws :
  let index := deterministic_index_get ws in let n := Z.of_nat (size (ws_entries ws)) in
  valid_password ws = true -> fresh_indices ws index (index + n) ->
  exists j ws', deterministic_insert ws = Some (derived_pub ws j, ws')
    /\ index <= j /\ wallet_exists ws (derived_pub ws j) = false
    /\ fetch ws' (derived_pub ws j) = Some (Some (derived ws j))
    /\ (forall k, special_count <= k -> k <> derived_pub ws j -> fetch ws' k = fetch ws k)
    /\ deterministic_index_get ws' = wrap 32 (j + 1).
Proof.
  intros index n Hv Hfi. destruct (deterministic_insert_ok ws Hv Hfi) as (j & Hj & Hr & Hne & _). exists j, (with_index j ws).
  assert (0 <= index) as H0 by (apply Z.mod_pos_bound; lia). pose proof (fi_width _ _ _ Hfi).
  pose proof (fi_special _ _ _ Hfi j Hr) as Hs. pose proof (with_index_secrets j ws Hs) as Hss.
  split_and!; [done|lia|done| | |apply with_index_get].
  - rewrite <- (secrets_derived _ _ j Hss). unfold derived at 1. rewrite <- (secrets_seed _ _ Hss). fold (derived (with_index j ws) j).
    apply (fetch_deterministic _ j 0); [by rewrite (secrets_valid _ _ Hss)|lia|].
    rewrite (secrets_derived _ _ j Hss). unfold entry_get_raw. by rewrite with_index_lookup, decide_True.
  - intros k Hk Hkj. apply secrets_fetch; [done|]. unfold entry_get_raw. by rewrite with_index_lookup, decide_False.
Qed.

(** The entries that [deterministic_clear] leaves, from [p] on. *)
Definition cleared (p : Z) (m : gmap Z wallet_value) (k : Z) : option wallet_value :=
  v ← m !! k; if decide (p <= k /\ key_type_of v = kt_deterministic) then None else Some v.

Definition keys_from (p : Z) (m : gmap Z wallet_value) : gset Z := filter (fun k => p <= k) (dom m).

Lemma keys_from_smaller p q k m m' :
  k ∈ keys_from p m -> p <= q -> (forall j, is_Some (m' !! j) -> is_Some (m !! j)) -> k ∉ keys_from q m' ->
  (size (keys_from q m') < size (keys_from p m))%nat.
Proof.
  intros Hk Hq Hm Hn. apply subset_size. split; [|set_solver]. intros j. unfold keys_from.
  rewrite !elem_of_filter, !elem_of_dom. intros [? ?]. split; [lia|auto].
Qed.

Lemma clear_loop_ok fuel p ws :
  (size (keys_from p (ws_entries ws)) <= fuel)%nat ->
  exists m, clear_loop fuel (lower_bound (ws_entries ws) p) ws = Some (set_entries m ws)
    /\ forall k, m !! k = cleared p (ws_entries ws) k.
Proof.
  revert p ws. induction fuel as [|fuel IH]; intros p ws Hf; destruct (lower_bound (ws_entries ws) p) as [k|] eqn:Hl; cbn [clear_loop].
  2, 4: exists (ws_entries ws); split; [by destruct ws|]; intros k; unfold cleared;
    destruct (ws_entries ws !! k) eqn:Hk; [|done]; cbn; rewrite decide_False; [done|]; intros [? _];
    pose proof (lower_bound_None _ _ k Hl) as Hn; rewrite Hk in Hn; specialize (Hn ltac:(by eexists)); lia.
  all: apply lower_bound_Some in Hl as ([v Hk] & Hp & Hmin).
  all: assert (k ∈ keys_from p (ws_entries ws)) as Hin by (apply elem_of_filter; split; [done|by apply elem_of_dom]).
  - assert (size (keys_from p (ws_entries ws)) = O) as Hz%size_empty_inv by lia. set_solver.
  - rewrite Hk. cbn [mbind option_bind].
    assert (forall m' q, (forall j, is_Some (m' !! j) -> is_Some (ws_entries ws !! j)) -> p <= q -> k ∉ keys_from q m' ->
      (size (keys_from q m') <= fuel)%nat) as Hsz.
    { intros m' q Hm Hq Hn. pose proof (keys_from_smaller p q k _ m' Hin Hq Hm Hn). lia. }
    destruct (decide (key_type_of v = kt_deterministic)) as [Hd|Hd].
    + rewrite Hd. unfold wallet_erase. rewrite Hk. cbn [mbind option_bind].
      destruct (IH k (set_entries (delete k (ws_entries ws)) ws)) as (m & -> & Hm).
      { apply Hsz; [intros j; cbn; rewrite lookup_delete_is_Some; naive_solver|done|].
        unfold keys_from. rewrite elem_of_filter, elem_of_dom. cbn. rewrite lookup_delete_eq. by intros [_ [? ?]]. }
      exists m. split; [done|]. intros j. rewrite Hm. unfold cleared. cbn. destruct (decide (j = k)) as [->|Hne].
      * rewrite lookup_delete_eq, Hk. cbn. by rewrite decide_True.
      * rewrite lookup_delete_ne by done. destruct (ws_entries ws !! j) as [w|] eqn:Hj; [|done]. cbn.
        apply decide_ext. assert (p <= j -> k <= j); [|intuition lia]. intros. apply Hmin; [by eexists|done].
    + destruct (IH (k + 1) ws) as (m & Hc & Hm).
      { apply Hsz; [done|lia|]. unfold keys_from. rewrite elem_of_filter. lia. }
      exists m. split; [by destruct (key_type_of v)|]. intros j. rewrite Hm. unfold cleared.
      destruct (ws_entries ws !! j) as [w|] eqn:Hj; [|done]. cbn. apply decide_ext.
      destruct (decide (j = k)) as [->|Hne]; [rewrite Hk in Hj; injection Hj as <-; intuition lia|].
      assert (p <= j -> k <= j); [|intuition lia]. intros. apply Hmin; [by eexists|done].
Qed.

Lemma clear_ok ws :
  exists ws', deterministic_clear ws = Some ws' /\ ws_password ws' = ws_password ws
    /\ ws_wallet_key_mem ws' = ws_wallet_key_mem ws
    /\ ws_entries ws' !! deterministic_index_special = Some (WalletValue 0 0)
    /\ forall k, k <> deterministic_index_special -> ws_entries ws' !! k = cleared special_count (ws_entries ws) k.
Proof.
  unfold deterministic_clear, wallet_begin. destruct (clear_loop_ok (size (ws_entries ws)) special_count ws) as (m & -> & Hm).
  { rewrite <- size_dom. apply subseteq_size. unfold keys_from. set_solver. }
  eexists. split; [done|]. split_and!; [done..|apply lookup_insert_eq|].
  intros k Hk. cbn. rewrite lookup_insert_ne by done. apply Hm.
Qed.

Lemma cleared_special m k : k < special_count -> cleared special_count m k = m !! k.
Proof. intros Hk. unfold cleared. destruct (m !! k) as [v|]; [|done]. cbn. rewrite decide_False by lia. done. Qed.

Lemma seed_set_ok `{!CryptoLaws} prv ws :
  in_width 256 prv ->
  exists ws', seed_set prv ws = Some ws' /\ wallet_key ws' = wallet_key ws /\ wallet_salt ws' = wallet_salt ws
    /\ wallet_check ws' = wallet_check ws /\ wallet_seed ws' = prv /\ deterministic_index_get ws' = 0
    /\ ws_password ws' = ws_password ws /\ ws_wallet_key_mem ws' = ws_wallet_key_mem ws
    /\ (forall k, special_count <= k -> ws_entries ws' !! k = cleared special_count (ws_entries ws) k)
    /\ (forall k, k < 5 -> ws_entries ws' !! k = ws_entries ws !! k)
    /\ ws_entries ws' !! seed_special = Some (WalletValue (cipher ws prv) 0).
Proof.
  intros Hp. unfold seed_set. set (ws1 := entry_put_raw _ _ ws).
  destruct (clear_ok ws1) as (ws' & Hc & H1 & H2 & H3 & H4). exists ws'.
  assert (forall k, k < 5 -> ws_entries ws' !! k = ws_entries ws !! k) as He.
  { intros k Hk. rewrite H4 by (unfold deterministic_index_special; lia). rewrite cleared_special by (unfold special_count; lia).
    cbn. rewrite lookup_insert_ne by (unfold seed_special; lia). done. }
  assert (wallet_salt ws' = wallet_salt ws) as Hs by (unfold wallet_salt, entry_get_raw; by rewrite He).
  assert (wallet_key ws' = wallet_key ws) as Hk.
  { unfold wallet_key, wallet_iv. rewrite H1, H2, Hs. done. }
  split_and!; [done|done|done|unfold wallet_check, entry_get_raw; by rewrite He| |unfold deterministic_index_get, entry_get_raw; by rewrite H3|done|done| |done|].
  - unfold wallet_seed, wallet_iv, entry_get_raw. rewrite Hk, Hs, H4, cleared_special by done. cbn. rewrite lookup_insert_eq.
    cbn. by apply decrypt_encrypt.
  - intros k Hsp. rewrite H4 by (unfold special_count, deterministic_index_special in *; lia). unfold cleared. cbn.
    rewrite lookup_insert_ne; [done|]. unfold special_count, seed_special in *. lia.
  - rewrite H4, cleared_special by done. apply lookup_insert_eq.
Qed.

(** [seed_set] comes to an end; the seed is the given one, the keys derived from the old
    seed are gone, the others can be fetched as before, and the next derived key has
    index zero. *)
Theorem seed_set_spec `{!CryptoLaws} prv ws :
  in_width 256 prv ->
  exists ws', seed_set prv ws = Some ws' /\ wallet_seed ws' = prv /\ deterministic_index_get ws' = 0
    /\ valid_password ws' = valid_password ws
    /\ forall k, special_count <= k ->
         if decide (key_type_of (entry_get_raw ws k) = kt_deterministic)
         then wallet_exists ws' k = false else fetch ws' k = fetch ws k.
Proof.
  intros Hp. destruct (seed_set_ok prv ws Hp) as (ws' & Hs & H1 & H2 & H3 & H4 & H5 & _ & _ & H6 & _). exists ws'.
  assert (valid_password ws' = valid_password ws) as Hv by (unfold valid_password, wallet_iv; by rewrite H1, H2, H3).
  split_and!; [done..|]. intros k Hk. specialize (H6 k Hk). unfold cleared in H6. unfold entry_get_raw.
  destruct (ws_entries ws !! k) as [v|] eqn:Ek; cbn in H6 |- *.
  - destruct (decide (key_type_of v = kt_deterministic)) as [Hd|Hd].
    + rewrite decide_True in H6 by done. apply not_true_iff_false. rewrite wallet_exists_iff, H6. by intros [? ?].
    + rewrite decide_False in H6 by naive_solver. unfold fetch, fetch_raw, wallet_iv, entry_get_raw.
      rewrite Hv, H1, H2, H6, Ek. cbn. by destruct (key_type_of v).
  - rewrite decide_False by done. unfold fetch, fetch_raw, entry_get_raw. rewrite Hv, H6, Ek. done.
Qed.
End keys.
