(* ===== verification/WalletPasswords.v ===== *)
(** * WalletPasswords: keys survive passwords, restarts, backups and moves *)

From stdpp Require Import base list option tactics gmap sorting.
From Stdlib Require Import ZArith Lia.
From S2P Require Import Prelude Blocks Common Store Numbers TextForms WalletStore WalletKeys.
#[local] Open Scope Z_scope.
#[local] Opaque fan_value fan_value_set fan_init.

(** Keys and values are 256-bit words, and the copy of the encrypted wallet key in memory
    is the one in the table. *)
Record wallet_ok (ws : wallet_store) : Prop := {
  wo_width k v : ws_entries ws !! k = Some v -> in_width 256 k /\ in_width 256 (wv_key v);
  wo_mem : fan_value (ws_wallet_key_mem ws) = wv_key (entry_get_raw ws wallet_key_special)
}.

Section passwords.
Context `{E0 : Env} `{K0 : Crypto}.

(** The password of the wallet in memory is [pw]. *)
Definition opened_with (pw : stream) (ws : wallet_store) : Prop := fan_value (ws_password ws) = derive_key ws pw.

Lemma entry_width ws k : wallet_ok ws -> in_width 256 (wv_key (entry_get_raw ws k)).
Proof.
  intros Hw. unfold entry_get_raw. destruct (ws_entries ws !! k) as [v|] eqn:Hk; [by eapply wo_width|]. cbn. by split.
Qed.

Lemma wallet_key_width `{!CryptoLaws} ws : wallet_ok ws -> in_width 256 (wallet_key ws).
Proof. intros Hw. apply decrypt_width. rewrite wo_mem by done. by apply entry_width. Qed.

(** Entering the password of [ws] in a wallet with its entries opens the same secrets. *)
Lemma reenter pw seed ws ws' :
  valid_password ws = true -> opened_with pw ws -> wallet_version ws = 3 ->
  fan_value (ws_wallet_key_mem ws') = fan_value (ws_wallet_key_mem ws) ->
  (forall k, wv_key (entry_get_raw ws' k) = wv_key (entry_get_raw ws k)) ->
  exists ws'', attempt_password pw seed ws' = Some (false, ws'') /\ same_secrets ws ws''
    /\ ws_entries ws'' = ws_entries ws' /\ forall k, fetch ws'' k = fetch ws k.
Proof.
  intros Hv Hp Hver Hm He. unfold attempt_password. set (ws'' := set_password _ ws').
  assert (wallet_salt ws'' = wallet_salt ws) as Hs by (unfold wallet_salt; apply He).
  assert (same_secrets ws ws'') as Hss.
  { split; [|done|unfold wallet_check; apply He|apply He]. unfold wallet_key, wallet_iv. rewrite Hs.
    change (ws_wallet_key_mem ws'') with (ws_wallet_key_mem ws'). rewrite Hm. unfold opened_with in Hp. rewrite Hp.
    change (ws_password ws'') with (fan_value_set (derive_key ws' pw) (ws_password ws')). rewrite fan_set_value.
    unfold derive_key. change (wallet_salt ws') with (wallet_salt ws''). by rewrite Hs. }
  rewrite (secrets_valid _ _ Hss), Hv. assert (wallet_version ws'' = 3) as ->.
  { unfold wallet_version in *. rewrite <- Hver. f_equal. apply He. }
  exists ws''. split_and!; [done..|]. intros k. apply secrets_fetch; [done|apply He].
Qed.

Lemma rekey_ok `{!CryptoLaws} pw ws :
  wallet_ok ws -> valid_password ws = true ->
  exists ws', rekey pw ws = (false, ws') /\ wallet_ok ws' /\ same_secrets ws ws' /\ opened_with pw ws'
    /\ forall k, k <> wallet_key_special -> ws_entries ws' !! k = ws_entries ws !! k.
Proof.
  intros Hok Hv. unfold rekey. rewrite Hv. eexists. split; [done|]. set (ws' := entry_put_raw _ _ _).
  assert (forall k, k <> wallet_key_special -> ws_entries ws' !! k = ws_entries ws !! k) as He.
  { intros k Hk. cbn. by rewrite lookup_insert_ne. }
  assert (wallet_salt ws' = wallet_salt ws) as Hs by (unfold wallet_salt, entry_get_raw; by rewrite He).
  split_and!; [| | |done].
  - split.
    + intros k v. cbn. intros [[<- <-]|[_ Hk]]%lookup_insert_Some; [|by eapply wo_width]. split; [by split|].
      apply encrypt_width, wallet_key_width, Hok.
    + cbn [ws_wallet_key_mem ws' entry_put_raw set_entries set_wallet_key_mem]. unfold ws'. rewrite get_put_eq. apply fan_set_value.
  - split; [|done|unfold wallet_check, entry_get_raw; by rewrite He|unfold entry_get_raw; by rewrite He].
    unfold wallet_key at 1, wallet_iv. rewrite Hs.
    cbn [ws_wallet_key_mem ws_password ws' entry_put_raw set_entries set_wallet_key_mem set_password]. rewrite !fan_set_value.
    by apply decrypt_encrypt, wallet_key_width.
  - unfold opened_with. cbn [ws_password ws' entry_put_raw set_entries set_wallet_key_mem set_password]. rewrite fan_set_value.
    unfold derive_key. by rewrite Hs.
Qed.

(** C23. After [rekey] the keys can be fetched as before; and when the wallet is opened again
    from its table and the new password is entered, they can be fetched still. *)
Theorem password_recovers `{!CryptoLaws} pw ws representative salt key seed seed' randoms1 randoms2 :
  wallet_ok ws -> valid_password ws = true -> wallet_version ws = 3 ->
  exists ws1 ws2 ws3, rekey pw ws = (false, ws1)
    /\ wallet_open representative salt key seed randoms1 randoms2 (ws_entries ws1) = Some ws2
    /\ attempt_password pw seed' ws2 = Some (false, ws3)
    /\ wallet_ok ws1
    /\ forall k, k <> wallet_key_special -> fetch ws1 k = fetch ws k /\ fetch ws3 k = fetch ws k.
Proof.
  intros Hok Hv Hver. destruct (rekey_ok pw ws Hok Hv) as (ws1 & Hr & Hok1 & Hss & Hp & He).
  assert (wallet_version ws1 = 3) as Hver1 by (rewrite <- Hver; unfold wallet_version, entry_get_raw; by rewrite He).
  assert (valid_password ws1 = true) as Hv1 by by rewrite (secrets_valid _ _ Hss).
  assert (forall k, k <> wallet_key_special -> fetch ws1 k = fetch ws k) as Hf.
  { intros k Hk. apply secrets_fetch; [done|]. unfold entry_get_raw. by rewrite He. }
  assert (exists v, ws_entries ws1 !! version_special = Some v) as [v Hv0].
  { unfold wallet_version, entry_get_raw in Hver1. destruct (ws_entries ws1 !! version_special); [by eexists|done]. }
  set (ws0 := WalletStore (ws_entries ws1) (fan_init 0 randoms1) (fan_init 0 randoms2)).
  set (ws2 := set_wallet_key_mem (fan_value_set (wv_key (entry_get_raw ws0 wallet_key_special)) (ws_wallet_key_mem ws0)) ws0).
  assert (wallet_open representative salt key seed randoms1 randoms2 (ws_entries ws1) = Some ws2) as Ho
    by (unfold wallet_open; by rewrite Hv0).
  destruct (reenter pw seed' ws1 ws2 Hv1 Hp Hver1) as (ws3 & Ha & _ & _ & Hf3); [|done|].
  { unfold ws2. cbn [ws_wallet_key_mem set_wallet_key_mem]. rewrite fan_set_value, (wo_mem _ Hok1). done. }
  exists ws1, ws2, ws3. split_and!; [done..|]. intros k Hk. rewrite Hf3. auto.
Qed.

(** ** New wallets *)

Definition entries_width (m : gmap Z wallet_value) : Prop :=
  forall k v, m !! k = Some v -> in_width 256 k /\ in_width 256 (wv_key v).

Lemma put_width k v m : entries_width m -> in_width 256 k -> in_width 256 (wv_key v) -> entries_width (<[k := v]> m).
Proof. intros Hm Hk Hv j w [[<- <-]|[_ Hj]]%lookup_insert_Some; [done|by apply Hm]. Qed.

Lemma seed_set_width `{!CryptoLaws} prv ws ws' :
  in_width 256 prv -> entries_width (ws_entries ws) -> seed_set prv ws = Some ws' -> entries_width (ws_entries ws').
Proof.
  intros Hp Hm. unfold seed_set. set (ws1 := entry_put_raw _ _ ws).
  assert (entries_width (ws_entries ws1)) as Hm1 by (apply put_width; [done|by split|by apply encrypt_width]).
  destruct (clear_ok ws1) as (ws2 & -> & _ & _ & H3 & H4). intros [= <-] k v Hk.
  destruct (decide (k = deterministic_index_special)) as [->|Hne].
  - rewrite H3 in Hk. injection Hk as <-. by split.
  - rewrite H4 in Hk by done. apply bind_Some in Hk as (w & Hw & Hk). case_decide; [done|]. injection Hk as ->. by apply Hm1.
Qed.

(** A new wallet is open with the password zero, has the given seed and no account. *)
Lemma wallet_created `{!CryptoLaws} representative salt key seed randoms1 randoms2 :
  in_width 256 representative -> in_width 256 salt -> in_width 256 key -> in_width 256 seed ->
  exists ws, wallet_open representative salt key seed randoms1 randoms2 ∅ = Some ws /\ wallet_ok ws
    /\ valid_password ws = true /\ wallet_seed ws = seed /\ wallet_version ws = 3
    /\ wallet_representative ws = representative /\ deterministic_index_get ws = 0
    /\ forall k, special_count <= k -> ws_entries ws !! k = None.
Proof.
  intros Hr Hs Hk Hse. unfold wallet_open, wallet_initialize. rewrite lookup_empty.
  set (ws1 := entry_put_raw representative_special _ _).
  destruct (seed_set_ok seed ws1 Hse) as (ws2 & Hset & H1 & H2 & H3 & H4 & H5 & H6 & H7 & H8 & H9 & _). rewrite Hset.
  cbn [mbind option_bind]. set (ws3 := entry_put_raw deterministic_index_special _ ws2). eexists. split; [done|].
  set (ws := set_wallet_key_mem _ ws3).
  assert (forall k, k < 5 -> ws_entries ws !! k = ws_entries ws1 !! k) as He.
  { intros k Hk5. cbn. rewrite lookup_insert_ne by (unfold deterministic_index_special; lia). by apply H9. }
  assert (wallet_key ws1 = key) as Hkey.
  { unfold wallet_key, wallet_iv. change (wallet_salt ws1) with salt.
    change (ws_password ws1) with (fan_value_set 0 (fan_init 0 randoms1)).
    change (ws_wallet_key_mem ws1) with (fan_value_set (ctr_encrypt 0 (Z.shiftr salt 128) key) (fan_init 0 randoms2)).
    by rewrite !fan_set_value, decrypt_encrypt. }
  assert (fan_value (ws_wallet_key_mem ws2) = wv_key (entry_get_raw ws3 wallet_key_special)) as Hmem.
  { rewrite H7. change (ws_wallet_key_mem ws1) with (fan_value_set (ctr_encrypt 0 (Z.shiftr salt 128) key) (fan_init 0 randoms2)).
    rewrite fan_set_value. unfold ws3. rewrite get_put_ne by done. unfold entry_get_raw. by rewrite H9. }
  assert (fan_value (ws_wallet_key_mem ws) = wv_key (entry_get_raw ws3 wallet_key_special)) as Hws by apply fan_set_value.
  assert (same_secrets ws2 ws) as Hss.
  { eapply same_secrets_trans; [apply (put_secrets deterministic_index_special (WalletValue 0 0)); auto|]. fold ws3. split; [|done..].
    unfold wallet_key. by rewrite Hws, <- Hmem. }
  split_and!.
  - split; [|done]. apply put_width; [|by split..]. eapply seed_set_width; [done| |done].
    repeat (apply put_width; [|by split|first [done|by apply encrypt_width|by split]]). done.
  - rewrite (secrets_valid _ _ Hss). unfold valid_password, wallet_iv. rewrite H1, H2, H3, Hkey. apply Z.eqb_refl.
  - by rewrite (secrets_seed _ _ Hss).
  - unfold wallet_version, entry_get_raw. by rewrite He.
  - unfold wallet_representative, entry_get_raw. by rewrite He.
  - unfold deterministic_index_get. unfold ws. change (entry_get_raw (set_wallet_key_mem _ ws3)) with (entry_get_raw ws3). unfold ws3. by rewrite get_put_eq.
  - intros k Hk7. cbn. rewrite lookup_insert_ne by (unfold special_count, deterministic_index_special in *; lia).
    rewrite H8 by done. unfold cleared. assert (ws_entries ws1 !! k = None) as ->; [|done]. unfold special_count in Hk7.
    cbn. rewrite !lookup_insert_ne by (unfold version_special, salt_special, wallet_key_special, check_special, representative_special; lia). done.
Qed.

(** ** Moving keys *)

(** [k] can be fetched from [other] and its key can be kept in [ws]. *)
Definition movable (ws other : wallet_store) (k : Z) : Prop :=
  special_count <= k /\ exists prv, fetch other k = Some (Some prv) /\ in_width 256 prv /\ 2 ^ 64 <= cipher ws prv.

Lemma move_loop_ok `{!CryptoLaws} keys ws other :
  valid_password ws = true -> NoDup keys -> (forall k, k ∈ keys -> movable ws other k) ->
  exists ws' other', move_loop keys false ws other = Some (false, ws', other')
    /\ (forall k, k ∈ keys -> fetch ws' k = fetch other k /\ ws_entries other' !! k = None)
    /\ (forall k, k ∉ keys -> fetch ws' k = fetch ws k /\ ws_entries other' !! k = ws_entries other !! k).
Proof.
  revert ws other. induction keys as [|k keys IH]; intros ws other Hv Hn Hm; cbn [move_loop].
  { exists ws, other. split_and!; [done|by intros ? ?%not_elem_of_nil|done]. }
  apply NoDup_cons in Hn as [Hk Hn]. destruct (Hm k) as (Hsp & prv & Hf & Hp & Hc); [by left|]. rewrite Hf. cbn [mbind option_bind].
  destruct (fetch_pub _ _ _ Hf) as (Hpub & _ & He).
  destruct (insert_adhoc_ok prv ws Hv Hp) as (ws1 & -> & Hss & Hf1 & Ho1); [by rewrite Hpub|done|]. rewrite Hpub in *.
  destruct (erase_entry k other He) as (other1 & -> & Hd & Hso). specialize (Hso Hsp). cbn [mbind option_bind].
  assert (forall j, j <> k -> fetch other1 j = fetch other j) as Hfo.
  { intros j Hj. apply secrets_fetch; [done|]. unfold entry_get_raw. by rewrite Hd, lookup_delete_ne. }
  destruct (IH ws1 other1) as (ws' & other' & Hml & H1 & H2); [by rewrite (secrets_valid _ _ Hss)|done| |].
  { intros j Hj. destruct (Hm j) as (Hsj & prvj & Hfj & Hpj & Hcj); [by right|]. split; [done|]. exists prvj.
    rewrite Hfo by (intros ->; done). split_and!; [done..|]. unfold cipher, wallet_iv. by rewrite (ss_key _ _ Hss), (ss_salt _ _ Hss). }
  exists ws', other'. split_and!; [done|intros j [->|Hj]%elem_of_cons|intros j [Hjk Hj]%not_elem_of_cons].
  - destruct (H2 k Hk) as [-> ->]. rewrite Hd, lookup_delete_eq. split; [congruence|done].
  - destruct (H1 j Hj) as [-> ->]. split; [|done]. apply Hfo. by intros ->.
  - destruct (H2 j Hj) as [-> ->]. rewrite Hd, lookup_delete_ne by done. auto.
Qed.

(** Keys that can be fetched from another wallet are moved without error: they can be
    fetched here with the same private keys, are gone there, and all other keys are as
    before. *)
Theorem move_keys_spec `{!CryptoLaws} keys ws other :
  valid_password ws = true -> valid_password other = true -> NoDup keys -> (forall k, k ∈ keys -> movable ws other k) ->
  exists ws' other', move_keys keys ws other = Some (false, ws', other')
    /\ (forall k, k ∈ keys -> fetch ws' k = fetch other k /\ ws_entries other' !! k = None)
    /\ (forall k, k ∉ keys -> fetch ws' k = fetch ws k /\ ws_entries other' !! k = ws_entries other !! k).
Proof. intros Hv Ho. unfold move_keys. rewrite Hv, Ho. by apply move_loop_ok. Qed.
End passwords.

(** ** Backups *)

Section backups.
Context `{E0 : Env} `{K0 : Crypto} `{S0 : Streams} `{SL : !StreamsLaws}.

Definition tree_of (ws : wallet_store) (keys : list Z) : list (stream * stream) :=
  (fun k => (uint256_encode_hex k, uint256_encode_hex (wv_key (entry_get_raw ws k)))) <$> keys.

Lemma encode_hex_inj k k' : in_width 256 k -> in_width 256 k' -> uint256_encode_hex k = uint256_encode_hex k' -> k = k'.
Proof.
  intros Hk Hk' E. pose proof (proj1 (proj2 (hex_roundtrip 0 k)) Hk) as H1.
  rewrite E, (proj1 (proj2 (hex_roundtrip 0 k')) Hk') in H1. congruence.
Qed.

Lemma tree_get_of ws keys k :
  (forall k, k ∈ keys -> in_width 256 k) -> k ∈ keys ->
  tree_get (tree_of ws keys) (uint256_encode_hex k) = Some (uint256_encode_hex (wv_key (entry_get_raw ws k))).
Proof.
  intros Hw Hk. induction keys as [|j keys IH]; [by apply not_elem_of_nil in Hk|]. unfold tree_get, tree_of in *. cbn.
  case_bool_decide as E.
  - apply encode_hex_inj in E as ->; [done|apply Hw; left|by apply Hw].
  - apply IH; [by intros; apply Hw; right|]. apply elem_of_cons in Hk as [->|]; done.
Qed.

Lemma restore_loop_ok ws all keys ws0 :
  (forall k, k ∈ all -> in_width 256 k /\ in_width 256 (wv_key (entry_get_raw ws k))) -> (forall k, k ∈ keys -> k ∈ all) ->
  exists m, restore_loop (tree_of ws all) (tree_of ws keys) false ws0 = (false, set_entries m ws0)
    /\ forall k, m !! k = if decide (k ∈ keys) then Some (WalletValue (wv_key (entry_get_raw ws k)) 0) else ws_entries ws0 !! k.
Proof.
  intros Hw. revert ws0. induction keys as [|k keys IH]; intros ws0 Hin.
  { exists (ws_entries ws0). split; [by destruct ws0|]. intros k. by rewrite decide_False by apply not_elem_of_nil. }
  destruct (Hw k) as [Hk Hv]; [apply Hin; by left|]. unfold tree_of at 2. rewrite fmap_cons. cbn [restore_loop]. fold (tree_of ws keys).
  rewrite tree_get_of; [|by intros; apply Hw|apply Hin; by left]. cbn [from_option id].
  rewrite (proj1 (proj2 (hex_roundtrip 0 k)) Hk), (proj1 (proj2 (hex_roundtrip 0 _)) Hv).
  destruct (IH (entry_put_raw k (WalletValue (wv_key (entry_get_raw ws k)) 0) ws0)) as (m & -> & Hm); [by intros; apply Hin; right|].
  exists m. split; [done|]. intros j. rewrite Hm. cbn. destruct (decide (j ∈ keys)) as [Hj|Hj].
  { by rewrite decide_True by by right. }
  destruct (decide (j = k)) as [->|Hne]; [rewrite lookup_insert_eq, decide_True; [done|by left]|].
  rewrite lookup_insert_ne, decide_False by set_solver. done.
Qed.

(** C24. The tree that a backup consists of is read back without error, and when the password
    of the wallet is entered in the restored one, all its keys can be fetched. *)
Theorem backup_restores pw seed ws randoms1 randoms2 :
  wallet_ok ws -> valid_password ws = true -> opened_with pw ws -> wallet_version ws = 3 ->
  (forall k, k ∈ [wallet_key_special; salt_special; check_special; representative_special] -> is_Some (ws_entries ws !! k)) ->
  exists ws1 ws2, wallet_restore (serialize_tree ws) randoms1 randoms2 = (false, ws1)
    /\ attempt_password pw seed ws1 = Some (false, ws2)
    /\ forall k, fetch ws2 k = fetch ws k.
Proof.
  intros Hok Hv Hp Hver Hs. unfold wallet_restore, serialize_tree. fold (tree_of ws (ordered (ws_entries ws))).
  set (ws0 := WalletStore ∅ _ _). destruct (restore_loop_ok ws (ordered (ws_entries ws)) (ordered (ws_entries ws)) ws0) as (m & -> & Hm); [|done|].
  { intros k [v Hk]%ordered_elem. split; [by eapply wo_width|by apply entry_width]. }
  assert (forall k, wv_key (entry_get_raw (set_entries m ws0) k) = wv_key (entry_get_raw ws k)) as He.
  { intros k. unfold entry_get_raw. cbn. rewrite Hm. case_decide as Hd; [done|]. rewrite ordered_elem in Hd. cbn.
    rewrite lookup_empty. destruct (ws_entries ws !! k); [by destruct Hd|done]. }
  assert (forall k, is_Some (ws_entries ws !! k) -> bool_decide (m !! k = None) = false) as Hn.
  { intros k Hk%ordered_elem. by rewrite Hm, decide_True. }
  assert (is_Some (ws_entries ws !! version_special)) as Hvs.
  { unfold wallet_version, entry_get_raw in Hver. destruct (ws_entries ws !! version_special); [by eexists|done]. }
  cbn [ws_entries set_entries]. rewrite (Hn _ Hvs), (Hn wallet_key_special), (Hn salt_special), (Hn check_special), (Hn representative_special)
    by (apply Hs; repeat constructor). cbn [orb]. set (ws1 := set_wallet_key_mem _ _).
  destruct (reenter pw seed ws ws1 Hv Hp Hver) as (ws2 & Ha & _ & _ & Hf); [| |by exists ws1, ws2].
  - unfold ws1. cbn [ws_wallet_key_mem set_wallet_key_mem]. rewrite fan_set_value, (wo_mem _ Hok). apply He.
  - intros k. apply He.
Qed.
End backups.
