(* ===== verification/WalletActions.v ===== *)
(** * WalletActions: blocks made by a wallet

    The actions of [rai::wallet] (node/wallet.cpp): composing send, receive and change
    blocks as state blocks, signing them with a key of the wallet, and handing them to the
    block processor, for which they wait ([processor_flush] of [Drain]). Work that is missing comes
    from [work_generate_blocking], a parameter. *)

From stdpp Require Import base list option tactics gmap sorting.
From Stdlib Require Import ZArith Lia.
From S2P Require Import Prelude Blocks Common Stats Store Tables Visitors Ledger Rollback Chain LedgerInv.
From S2P Require Import Queries Process Accept Genesis Runs Votes Elections Caches Work Node NodeInv Drain.
From S2P Require Import WalletStore WalletKeys.
#[local] Open Scope Z_scope.

(** ** Parameters *)

(** [node_config::receive_minimum], and the work found for a root. *)
Class WalletConfig := {
  receive_minimum : Z;
  generate_work : Z -> Z
}.

(** The work found is valid; a signature made with a private key is valid for its public
    key. *)
Class WalletLaws `{Env} `{WorkConfig} `{Crypto} `{WalletConfig} : Prop := {
  generated_valid r : work_validate r (generate_work r) = false;
  signed_valid prv message :
    validate_message (ed25519_publickey prv) message (sign_message prv (ed25519_publickey prv) message) = false
}.

(** ** Data *)

(** A node with one of its wallets; [wn_ids] is the table of send identifiers. *)
Record wallet_node := WalletNode {
  wn_node : node;
  wn_wallet : wallet_store;
  wn_ids : gmap stream Z
}.

(** A block is sent out again; work for the next block of an account is queued; what the
    block processor sends out while an action waits for it. *)
Inductive wallet_effect :=
| republish_block (b : block)
| work_ensure (account root : Z)
| processor_effect (fx : effect).

(** The order of the entries of one account. *)
Definition entry_le (e1 e2 : Z * pending_info) : Prop := fst e1 <= fst e2.
#[global] Instance entry_le_dec : RelDecision entry_le.
Proof. intros e1 e2. unfold entry_le. apply _. Defined.

Section actions.
Context `{E0 : Env} `{C0 : NodeConfig} `{O0 : HashOrder} `{W0 : WorkConfig} `{K0 : Crypto} `{A0 : WalletConfig}.

(** The constructor of [state_block] that signs. *)
Definition state_make (account previous representative balance link prv pub work : Z) : block :=
  let h := StateHashables account previous representative balance link in
  State (StateBlock h (sign_message prv pub (hash (State (StateBlock h 0 0)))) work).

(** ** Composing blocks *)

(** The block of [receive_action]; the inner [None] is a null pointer. *)
Definition receive_block_make (ws : wallet_store) (s : store) (send : block) (representative_a amount_a : Z)
    : option (option block) :=
  if negb (receive_minimum <=? amount_a) then Some None else
  if negb (block_exists s (hash send)) then Some None else
  account ← block_destination s send;
  match pending_get s (PendingKey account (hash send)) with
  | None => Some None
  | Some pnd =>
    r ← fetch ws account;
    match r with
    | None => Some None
    | Some prv =>
      let cached_work := default 0 (work_get ws account) in
      match account_get s account with
      | Some info =>
        rep_block ← block_get s (ai_rep_block info);
        Some (Some (state_make account (ai_head info) (representative rep_block)
                      (wrap 128 (ai_balance info + pi_amount pnd)) (hash send) prv account cached_work))
      | None => Some (Some (state_make account 0 representative_a (pi_amount pnd) (hash send) prv account cached_work))
      end
    end
  end.

(** The block of [change_action]. *)
Definition change_block_make (ws : wallet_store) (s : store) (source_a representative_a : Z) : option (option block) :=
  if negb (valid_password ws) then Some None else
  if wallet_exists ws source_a && negb (latest s source_a =? 0) then
    info ← account_get s source_a;
    r ← fetch ws source_a;
    prv ← r;
    let cached_work := default 0 (work_get ws source_a) in
    Some (Some (state_make source_a (ai_head info) representative_a (ai_balance info) 0 prv source_a cached_work))
  else Some None.

(** The block of [send_action], without its identifier. *)
Definition send_block_make (ws : wallet_store) (s : store) (source_a account_a amount_a : Z) : option (option block) :=
  if negb (valid_password ws) then Some None else
  if negb (wallet_exists ws source_a) then Some None else
  let balance := account_balance s source_a in
  if negb (balance =? 0) && (amount_a <=? balance) then
    info ← account_get s source_a;
    r ← fetch ws source_a;
    prv ← r;
    rep_block ← block_get s (ai_rep_block info);
    let cached_work := default 0 (work_get ws source_a) in
    Some (Some (state_make source_a (ai_head info) (representative rep_block) (wrap 128 (balance - amount_a))
                  account_a prv source_a cached_work))
  else Some None.

(** ** Actions *)

(** The block is given work if it has none. *)
Definition with_work (b : block) : block :=
  if work_validate_block b then block_work_set (generate_work (root b)) b else b.

(** The block is queued, at time [now], and the action waits until the block processor, which
    takes its turns at the times of [clock], has nothing left to do. *)
Definition submit (now : Z) (clock : nat -> Z) (account : Z) (generate : bool) (b : option block) (wn : wallet_node)
    : option (option block * wallet_node * list wallet_effect) :=
  match b with
  | None => Some (None, wn, [])
  | Some b =>
    let b := with_work b in
    nd ← process_active now b (wn_node wn);
    '(nd, fx) ← processor_flush clock nd;
    Some (Some b, WalletNode nd (wn_wallet wn) (wn_ids wn),
          (processor_effect <$> fx) ++ if generate then [work_ensure account (hash b)] else [])
  end.

Definition wn_store (wn : wallet_node) : store := l_store (nd_ledger (wn_node wn)).

Definition receive_action (now : Z) (clock : nat -> Z) (send : block) (representative_a amount_a : Z) (generate : bool) (wn : wallet_node)
    : option (option block * wallet_node * list wallet_effect) :=
  b ← receive_block_make (wn_wallet wn) (wn_store wn) send representative_a amount_a;
  match b with
  | None => Some (None, wn, [])
  | Some b => account ← block_destination (wn_store wn) send; submit now clock account generate (Some b) wn
  end.

Definition change_action (now : Z) (clock : nat -> Z) (source_a representative_a : Z) (generate : bool) (wn : wallet_node)
    : option (option block * wallet_node * list wallet_effect) :=
  b ← change_block_make (wn_wallet wn) (wn_store wn) source_a representative_a;
  submit now clock source_a generate b wn.

(** The block that an identifier stands for, when it is in the ledger. *)
Definition cached_send (id : option stream) (wn : wallet_node) : option block :=
  i ← id; h ← wn_ids wn !! i; block_get (wn_store wn) h.

Definition send_action (now : Z) (clock : nat -> Z) (source_a account_a amount_a : Z) (generate : bool) (id : option stream)
    (wn : wallet_node) : option (option block * wallet_node * list wallet_effect) :=
  match cached_send id wn with
  | Some b => Some (Some b, wn, [republish_block b])
  | None =>
    b ← send_block_make (wn_wallet wn) (wn_store wn) source_a account_a amount_a;
    let ids := match id, b with
               | Some i, Some b => <[i := hash b]> (wn_ids wn)
               | _, _ => wn_ids wn
               end in
    submit now clock source_a generate b (WalletNode (wn_node wn) (wn_wallet wn) ids)
  end.

(** ** Cached work *)

(** [work_update]: [None] is a failed assertion. *)
Definition work_update (account root_a work : Z) (s : store) (ws : wallet_store) : option wallet_store :=
  _ ← assert (negb (work_validate root_a work));
  _ ← assert (wallet_exists ws account);
  if latest_root s account =? root_a then work_put account work ws else Some ws.

(** [work_cache_blocking]. *)
Definition work_cache_blocking (account root_a : Z) (s : store) (ws : wallet_store) : option wallet_store :=
  if wallet_exists ws account then work_update account root_a (generate_work root_a) s ws else Some ws.

(** ** Searching *)

(** The pending entries of an account in the order of the table. *)
Definition pending_of (s : store) (account : Z) : list (Z * pending_info) :=
  let l := (fun e => (pk_hash (fst e), snd e)) <$> filter (fun e => pk_account (fst e) = account) (map_to_list (pending s)) in
  merge_sort entry_le l.

(** The blocks that [search_pending] has confirmed for one account. *)
Fixpoint confirm_pending (s : store) (l : list (Z * pending_info)) : option (list block) :=
  match l with
  | [] => Some []
  | (_, pnd) :: l =>
    if receive_minimum <=? pi_amount pnd then
      info ← account_get s (pi_source pnd);
      b ← block_get s (ai_head info);
      bs ← confirm_pending s l;
      Some (b :: bs)
    else confirm_pending s l
  end.

Fixpoint search_accounts (ws : wallet_store) (s : store) (accounts : list Z) : option (list block) :=
  match accounts with
  | [] => Some []
  | a :: accounts =>
    bs ← (if negb (wv_key (entry_get_raw ws a) =? 0) then confirm_pending s (pending_of s a) else Some []);
    bs' ← search_accounts ws s accounts;
    Some (bs ++ bs')
  end.

(** [search_pending]: [true] is an error. *)
Definition search_pending (ws : wallet_store) (s : store) : option (bool * list block) :=
  if valid_password ws then bs ← search_accounts ws s (wallet_accounts ws); Some (false, bs) else Some (true, []).

(** [foreach_representative] on one wallet: the keys it passes to the action. *)
Fixpoint representative_keys (ws : wallet_store) (accounts : list Z) (l : ledger) : option (list (Z * Z) * ledger) :=
  match accounts with
  | [] => Some ([], l)
  | a :: accounts =>
    let '(w, l) := weight l a in
    r ← (if negb (w =? 0) && valid_password ws then p ← fetch ws a; prv ← p; Some [(a, prv)] else Some []);
    '(rs, l) ← representative_keys ws accounts l;
    Some (r ++ rs, l)
  end.
End actions.
