(* ===== verification/WalletSends.v ===== *)
(** * WalletSends: the ledger accepts what a wallet makes

    The blocks that the send and receive actions compose are accepted by the ledger they
    were composed for, and move the amount they should; when the block processor, for
    which the actions wait, comes to them first, they are in the ledger afterwards. *)

From stdpp Require Import base list option tactics gmap sorting.
From Stdlib Require Import ZArith Lia.
From S2P Require Import Prelude Blocks Common Stats Store Tables Visitors Ledger Rollback Chain LedgerInv.
From S2P Require Import Queries Process Accept Genesis Runs Votes Elections Caches Work Node NodeInv Drain.
From S2P Require Import WalletStore WalletKeys WalletActions.
#[local] Open Scope Z_scope.

Section sends.
Context `{E0 : Env} `{C0 : NodeConfig} `{O0 : HashOrder} `{OL : !HashOrderLaws} `{W0 : WorkConfig} `{K0 : Crypto} `{A0 : WalletConfig} `{T0 : Traffic}.
Context `{TL : !TrafficLaws} `{WL : !WalletLaws}.
Context (genesis_nonzero : genesis_account <> 0) (genesis_admitted : admitted genesis_block).

(** ** Composed blocks *)

Lemma state_make_signed account p r bal link prv w :
  ed25519_publickey prv = account -> signed_by account (state_make account p r bal link prv account w).
Proof. intros <-. apply signed_valid. Qed.

(** Giving a block work changes its work only. *)
Lemma with_work_state account p r bal link prv pub w :
  exists w', with_work (state_make account p r bal link prv pub w) = state_make account p r bal link prv pub w'
    /\ work_validate_block (state_make account p r bal link prv pub w') = false.
Proof.
  unfold with_work. destruct (work_validate_block _) eqn:Hw; [|by exists w].
  eexists. split; [done|]. apply generated_valid.
Qed.

(** A block goes to the front of the queue when it is new. *)
Lemma process_active_queues now b nd :
  work_validate_block b = false ->
  exists nd', process_active now b nd = Some nd' /\ nd_ledger nd' = nd_ledger nd /\ nd_caches nd' = nd_caches nd
    /\ nd_forced nd' = nd_forced nd
    /\ (arrived (hash b) (nd_arrival nd) = false -> nd_blocks nd' = b :: nd_blocks nd)
    /\ (node_ok nd -> admitted b -> node_ok nd').
Proof.
  intros Hw. unfold process_active, arrival_add. destruct (arrived _ _) eqn:Ha.
  { eexists. split_and!; [done..|]. intros [H1 H2 H3 H4 H5 H6] _. by split. }
  unfold add. pose proof Hw as Hw'. unfold work_validate_block in Hw'. rewrite Hw'. eexists. split_and!; [done..|].
  intros [H1 H2 H3 H4 H5 H6] Hb. split; try done. constructor; [by split|done].
Qed.

(** The action [r] that queued block [b], which the ledger accepts with result [l'], and so
    came to node [nd1]: unless the block processor meets a block that names the head of
    another account as its predecessor, it ends with nothing queued. A new block is in the
    ledger then when no block was forced before it, and the ledger is [l'] when no other was
    queued or waited for it. *)
Definition settles (b : block) (l' : ledger) (nd1 : node) (wn : wallet_node)
    (r : option (option block * wallet_node * list wallet_effect)) : Prop :=
  ~ meets_foreign nd1 ->
  exists wn' fx, r = Some (Some b, wn', fx) /\ node_ok (wn_node wn') /\ have_blocks (wn_node wn') = false
    /\ (arrived (hash b) (nd_arrival (wn_node wn)) = false -> nd_forced (wn_node wn) = [] ->
        block_exists (wn_store wn') (hash b) = true
        /\ (nd_blocks (wn_node wn) = [] -> (forall b', ~ waiting (nd_caches (wn_node wn)) (hash b) b') ->
            nd_ledger (wn_node wn') = l')).

Lemma wallet_node_eta wn : WalletNode (wn_node wn) (wn_wallet wn) (wn_ids wn) = wn.
Proof. by destruct wn. Qed.

Lemma submit_settles now clock account generate b wn ids nd1 l' r :
  node_ok (wn_node wn) -> work_validate_block (with_work b) = false -> admitted (with_work b) ->
  process_active now (with_work b) (wn_node wn) = Some nd1 ->
  process (with_work b) (nd_ledger (wn_node wn)) = Some (l', r) -> pr_code r = progress ->
  settles (with_work b) l' nd1 wn (submit now clock account generate (Some b) (WalletNode (wn_node wn) (wn_wallet wn) ids)).
Proof.
  intros Hok Hw Hadm Ha Hp Hr Hn. cbn [submit wn_node wn_wallet wn_ids]. rewrite Ha. cbn [mbind option_bind].
  destruct (process_active_queues now _ (wn_node wn) Hw) as (nd & Ha' & Hl & Hc & Hf & Hb & Hk). rewrite Ha in Ha'. injection Ha' as <-.
  specialize (Hk Hok Hadm). destruct (processor_flush_ok genesis_nonzero genesis_admitted clock nd1 Hk Hn) as (nd' & fx & Hfl & Hok' & Hnb).
  rewrite Hfl. cbn [mbind option_bind]. eexists _, _. split_and!; [done..|]. intros Harr Hforced. cbn [wn_node].
  rewrite Hforced in Hf. rewrite <- Hl in Hp. specialize (Hb Harr).
  destruct (first_settles genesis_nonzero genesis_admitted clock nd1 _ _ l' r Hk Hn Hf Hb Hp Hr) as (nd2 & fx2 & Hfl2 & _ & _ & He & Hq).
  rewrite Hfl in Hfl2. injection Hfl2 as <- <-. split; [done|]. intros Hbl Hwait. apply Hq; [done|]. by rewrite Hc.
Qed.

(** ** State blocks at the end of a chain *)

(** A block with the digest of an admitted state block has its hashables. *)
Lemma stored_twin G s b b' :
  ledger_inv 0 (fun _ => 0) G s -> admitted (State b) -> contents (blocks s) !! hash (State b) = Some b' ->
  exists sb, b' = State sb /\ state_h sb = state_h b.
Proof.
  intros HI Hb [succ Hs]%contents_Some. pose proof (li_admitted HI _ _ _ Hs) as Hb'.
  destruct (chain_hash (li_chain HI) _ _ _ Hs) as [Hh _].
  pose proof (admitted_inj _ _ Hb' Hb Hh) as Hi. apply hash_input_hashables in Hi; [|by apply admitted_wf..].
  destruct b'; destruct Hi as [Hi|Hi]; try done. by eexists.
Qed.

Lemma next_fresh G s b i :
  ledger_inv 0 (fun _ => 0) G s -> admitted (State b) -> account_get s (state_account b) = Some i ->
  state_previous b = ai_head i -> block_exists s (hash (State b)) = false.
Proof.
  intros HI Hb Hi Hp. rewrite block_exists_blocks. destruct (blocks s !! hash (State b)) as [[b' succ]|] eqn:Hs; [|done].
  assert (contents (blocks s) !! hash (State b) = Some b') as Hc by by rewrite contents_lookup, Hs.
  destruct (stored_twin _ _ _ _ HI Hb Hc) as (sb & -> & Hsb).
  destruct (head_facts _ _ _ _ HI _ _ Hi) as (pb & p & Hpb & _ & _ & _ & H0 & _).
  assert (previous (State sb) = ai_head i) as Hpr by (cbn; by rewrite Hsb).
  destruct (chain_back (li_chain HI) _ _ _ Hs) as [pb' Hpb']; [by rewrite Hpr|]. rewrite Hpr in Hpb'.
  destruct (chain_hash (li_chain HI) _ _ _ Hs) as [_ [? _]]. congruence.
Qed.

Lemma first_fresh G s b :
  ledger_inv 0 (fun _ => 0) G s -> admitted (State b) -> account_get s (state_account b) = None ->
  block_exists s (hash (State b)) = false.
Proof.
  intros HI Hb Hi. rewrite block_exists_blocks. destruct (blocks s !! hash (State b)) as [[b' succ]|] eqn:Hs; [|done].
  assert (contents (blocks s) !! hash (State b) = Some b') as Hc by by rewrite contents_lookup, Hs.
  destruct (stored_twin _ _ _ _ HI Hb Hc) as (sb & -> & Hsb).
  destruct (stored_facts _ _ _ _ HI _ _ _ Hs) as (m & Hm & Ha & _). destruct (li_owner HI _ _ Hm) as [j Hj].
  rewrite Ha, Hsb in Hj. unfold account_get in Hi. congruence.
Qed.

(** What an accepted state block does to its account and to the pending amounts. *)
Lemma state_effects G l b l' r :
  ledger_inv 0 (fun _ => 0) G (l_store l) -> admitted (State b) -> process (State b) l = Some (l', r) -> pr_code r = progress ->
  account_balance (l_store l') (state_account b) = state_balance b
  /\ match account_get (l_store l) (state_account b) with
     | Some i => state_previous b = ai_head i ->
         if state_balance b <? ai_balance i
         then pending_get (l_store l') (PendingKey (state_link b) (hash (State b)))
              = Some (PendingInfo (state_account b) (ai_balance i - state_balance b))
         else state_link b <> 0 -> pending_get (l_store l') (PendingKey (state_account b) (state_link b)) = None
     | None => state_previous b = 0 -> state_link b <> 0 ->
         pending_get (l_store l') (PendingKey (state_account b) (state_link b)) = None
     end.
Proof.
  intros HI Hb Hp Hr. destruct (process_ok _ _ _ _ _ HI Hb) as (l1 & r1 & Hp1 & Ho). rewrite Hp in Hp1. injection Hp1 as <- <-.
  destruct Ho as [[? _]|(_ & m & HV & HA)]; [done|]. destruct (vs_ok HV) as (Ha & _ & Hbal & _).
  split.
  - destruct (ap_accounts HA) as [t Ht]. unfold account_balance, account_get. rewrite Ht, <- Ha, lookup_insert_eq. done.
  - unfold pending_get, account_get. rewrite (ap_pending HA). unfold pending_after, send_of, source_of.
    rewrite lookup_insert_eq. destruct (accounts (l_store l) !! state_account b) as [i|] eqn:Hi.
    + intros Hprev. destruct (head_facts _ _ _ _ HI _ _ Hi) as (pb & p & Hpb & Hgp & (_ & Hib & _) & _ & H0 & _).
      rewrite Hprev. destruct (Z.eqb_spec (ai_head i) 0); [done|]. rewrite Hgp. cbn [mbind option_bind]. rewrite Hib.
      destruct (Z.ltb_spec (state_balance b) (ci_balance p)) as [Hlt|Hge]; [rewrite Ha; apply lookup_insert_eq|].
      intros Hl. destruct (Z.eqb_spec (state_link b) 0); [done|]. rewrite Ha. apply lookup_delete_eq.
    + intros -> Hl. rewrite Z.eqb_refl. destruct (Z.eqb_spec (state_link b) 0); [done|]. rewrite Ha. apply lookup_delete_eq.
Qed.

(** ** The actions *)

Lemma composed_accepted G l b i :
  ledger_inv 0 (fun _ => 0) G (l_store l) -> admitted (State b) -> account_get (l_store l) (state_account b) = Some i ->
  state_previous b = ai_head i -> signed_by (state_account b) (State b) -> link_fits (l_store l) b (ai_balance i) ->
  exists l' r, process (State b) l = Some (l', r) /\ pr_code r = progress.
Proof.
  intros HI Hb Hi Hp Hs Hl. destruct (process_ok _ _ _ _ _ HI Hb) as (l' & r & Hpr & _). exists l', r. split; [done|].
  apply (process_code _ _ _ _ HI _ _ _ (admitted_wf _ Hb) Hpr). split; [by eapply next_fresh|].
  cbn. rewrite Hi. split_and!; [|done..]. by destruct (head_facts _ _ _ _ HI _ _ Hi) as (_ & _ & _ & _ & _ & ? & _).
Qed.

(** The block that a send action composes, and that the ledger accepts it. *)
Lemma send_composed l ws source_a account_a amount_a prv :
  reachable l -> fetch ws source_a = Some (Some prv) -> 0 < amount_a <= account_balance (l_store l) source_a ->
  exists p r w, let make w' := state_make source_a p r (account_balance (l_store l) source_a - amount_a) account_a prv source_a w' in
    send_block_make ws (l_store l) source_a account_a amount_a = Some (Some (make w))
    /\ forall w', admitted (make w') -> exists l' r, process (make w') l = Some (l', r) /\ pr_code r = progress
         /\ account_balance (l_store l') source_a = account_balance (l_store l) source_a - amount_a
         /\ pending_get (l_store l') (PendingKey account_a (hash (make w'))) = Some (PendingInfo source_a amount_a).
Proof.
  intros Hl Hf Ham. destruct (fetch_pub _ _ _ Hf) as (Hpub & Hv & He).
  destruct (reachable_consistent genesis_nonzero genesis_admitted _ Hl) as [G [HI _]].
  unfold send_block_make. rewrite Hv, (proj2 (wallet_exists_iff _ _) He). cbn [negb].
  unfold account_balance in *. destruct (account_get (l_store l) source_a) as [i|] eqn:Hi; [|lia].
  destruct (Z.eqb_spec (ai_balance i) 0); [lia|]. destruct (Z.leb_spec amount_a (ai_balance i)); [|lia].
  cbn [negb andb mbind option_bind]. rewrite Hf. cbn [mbind option_bind].
  destruct (head_facts _ _ _ _ HI _ _ Hi) as (_ & _ & _ & _ & _ & Ha0 & _ & Hwi & [rb Hrb] & _).
  rewrite (block_get_of _ _ _ _ HI), Hrb. cbn [mbind option_bind].
  rewrite wrap_small by (unfold in_width in *; lia). eexists _, _, _. split; [done|]. intros w' Hb.
  destruct (composed_accepted G l _ i HI Hb Hi) as (l' & r & Hp & Hr); [done|by apply state_make_signed|left; cbn; lia|].
  exists l', r. split_and!; [done..| |]; destruct (state_effects _ _ _ _ _ HI Hb Hp Hr) as [E1 E2].
  - unfold account_balance in E1. cbn in E1. done.
  - cbn [state_account state_h state_previous state_balance state_link] in E2. rewrite Hi in E2. specialize (E2 eq_refl).
    destruct (Z.ltb_spec (ai_balance i - amount_a) (ai_balance i)); [|lia].
    replace (ai_balance i - (ai_balance i - amount_a)) with amount_a in E2 by lia. done.
Qed.

(** C20. A wallet that has the key of an account with enough balance makes a block for a
    positive amount and queues it. The ledger accepts the block: the balance goes down
    by the amount, which is pending for the destination. The action waits for the block
    processor and ends with the block in the ledger, as [settles] says. *)
Theorem send_action_accepted now clock source_a account_a amount_a generate wn prv :
  node_ok (wn_node wn) -> fetch (wn_wallet wn) source_a = Some (Some prv) ->
  0 < amount_a <= account_balance (wn_store wn) source_a ->
  exists b0 nd1, let b := with_work b0 in
    send_block_make (wn_wallet wn) (wn_store wn) source_a account_a amount_a = Some (Some b0)
    /\ process_active now b (wn_node wn) = Some nd1
    /\ (arrived (hash b) (nd_arrival (wn_node wn)) = false -> nd_blocks nd1 = b :: nd_blocks (wn_node wn))
    /\ (admitted b -> exists l' r, process b (nd_ledger (wn_node wn)) = Some (l', r) /\ pr_code r = progress
          /\ account_balance (l_store l') source_a = account_balance (wn_store wn) source_a - amount_a
          /\ pending_get (l_store l') (PendingKey account_a (hash b)) = Some (PendingInfo source_a amount_a)
          /\ settles b l' nd1 wn (send_action now clock source_a account_a amount_a generate None wn)).
Proof.
  intros Hok Hf Ham. destruct (send_composed _ _ _ account_a _ _ (no_ledger _ Hok) Hf Ham) as (p & r & w & Hmake & Hacc).
  destruct (with_work_state source_a p r (account_balance (wn_store wn) source_a - amount_a) account_a prv source_a w) as (w' & Hww & Hw).
  eexists _. cbv zeta. fold (wn_store wn) in Hmake, Hacc. rewrite <- Hww in Hw. destruct (process_active_queues now _ (wn_node wn) Hw) as (nd1 & Hnd & _ & _ & _ & Hq & _).
  exists nd1. split; [exact Hmake|]. split_and!; [done..|]. intros Hb. pose proof Hb as Hb'. rewrite Hww in Hb'.
  destruct (Hacc _ Hb') as (l' & r' & Hp & Hr & Hbal & Hpend). unfold wn_store in *. rewrite <- Hww in Hp, Hpend.
  exists l', r'. split_and!; [done..|]. unfold send_action. cbn [cached_send mbind option_bind]. unfold wn_store. rewrite Hmake.
  cbn [mbind option_bind]. by apply (submit_settles _ _ _ _ _ _ _ _ _ r').
Qed.

Lemma opening_accepted G l b :
  ledger_inv 0 (fun _ => 0) G (l_store l) -> admitted (State b) -> account_get (l_store l) (state_account b) = None ->
  state_account b <> 0 -> state_previous b = 0 -> state_link b <> 0 -> signed_by (state_account b) (State b) ->
  link_fits (l_store l) b 0 -> exists l' r, process (State b) l = Some (l', r) /\ pr_code r = progress.
Proof.
  intros HI Hb Hi Ha Hp Hk Hs Hl. destruct (process_ok _ _ _ _ _ HI Hb) as (l' & r & Hpr & _). exists l', r. split; [done|].
  apply (process_code _ _ _ _ HI _ _ _ (admitted_wf _ Hb) Hpr). split; [by eapply first_fresh|]. cbn. by rewrite Hi.
Qed.

(** The block that a receive action composes, and that the ledger accepts it. *)
Lemma receive_composed l ws send representative_a amount_a account pnd prv :
  reachable l -> receive_minimum <= amount_a -> block_exists (l_store l) (hash send) = true ->
  block_destination (l_store l) send = Some account -> account <> 0 ->
  pending_get (l_store l) (PendingKey account (hash send)) = Some pnd -> fetch ws account = Some (Some prv) ->
  exists p r w, let make w' := state_make account p r (account_balance (l_store l) account + pi_amount pnd) (hash send) prv account w' in
    receive_block_make ws (l_store l) send representative_a amount_a = Some (Some (make w))
    /\ forall w', admitted (make w') -> exists l' r, process (make w') l = Some (l', r) /\ pr_code r = progress
         /\ account_balance (l_store l') account = account_balance (l_store l) account + pi_amount pnd
         /\ pending_get (l_store l') (PendingKey account (hash send)) = None.
Proof.
  intros Hl Hm He Hd Ha Hp Hf. destruct (fetch_pub _ _ _ Hf) as (Hpub & _ & _).
  destruct (reachable_consistent genesis_nonzero genesis_admitted _ Hl) as [G [HI _]].
  assert (hash send <> 0) as Hh.
  { rewrite block_exists_blocks in He. destruct (blocks (l_store l) !! hash send) as [[sb ss]|] eqn:Hs; [|done].
    by destruct (chain_hash (li_chain HI) _ _ _ Hs) as [_ [? _]]. }
  unfold receive_block_make. destruct (Z.leb_spec receive_minimum amount_a); [|lia]. rewrite He, Hd. cbn [negb mbind option_bind].
  rewrite Hp, Hf. cbn [mbind option_bind]. pose proof (pending_nonneg _ _ _ _ HI _ _ Hp) as Hpos. unfold account_balance.
  destruct (account_get (l_store l) account) as [i|] eqn:Hi.
  - destruct (head_facts _ _ _ _ HI _ _ Hi) as (_ & _ & _ & _ & _ & _ & _ & _ & [rb Hrb] & _).
    rewrite (block_get_of _ _ _ _ HI), Hrb. cbn [mbind option_bind]. rewrite wrap_small by by eapply receive_fits.
    eexists _, _, _. split; [done|]. intros w' Hb.
    destruct (composed_accepted G l _ i HI Hb Hi) as (l' & r & Hpr & Hr); [done|by apply state_make_signed| |].
    { right. left. cbn. split_and!; [lia|done|]. exists pnd. split; [done|lia]. }
    exists l', r. destruct (state_effects _ _ _ _ _ HI Hb Hpr Hr) as [E1 E2]. split_and!; [done..|].
    cbn [state_account state_h state_previous state_balance state_link] in E2. rewrite Hi in E2. specialize (E2 eq_refl).
    destruct (Z.ltb_spec (ai_balance i + pi_amount pnd) (ai_balance i)); [lia|by apply E2].
  - eexists _, _, _. split; [done|]. intros w' Hb.
    destruct (opening_accepted G l _ HI Hb Hi) as (l' & r & Hpr & Hr); [done|done|done|by apply state_make_signed| |].
    { right. left. cbn. split_and!; [lia|done|]. exists pnd. split; [done|lia]. }
    exists l', r. destruct (state_effects _ _ _ _ _ HI Hb Hpr Hr) as [E1 E2]. split_and!; [done..|].
    cbn [state_account state_h state_previous state_balance state_link] in E2. rewrite Hi in E2. by apply E2.
Qed.

(** C21. A wallet that has the key of the destination of a pending send makes a block that
    receives it and queues it, when the amount that it was told is not less than the
    minimum of the node; otherwise it does nothing. The ledger accepts the block: the balance
    of the account, which may be new, goes up by the pending amount, which is no longer
    pending. The action waits for the block processor and ends with the block in the
    ledger, as [settles] says. *)
Theorem receive_action_accepted now clock send representative_a amount_a generate wn account pnd prv :
  node_ok (wn_node wn) -> block_exists (wn_store wn) (hash send) = true ->
  block_destination (wn_store wn) send = Some account -> account <> 0 ->
  pending_get (wn_store wn) (PendingKey account (hash send)) = Some pnd -> fetch (wn_wallet wn) account = Some (Some prv) ->
  let run := receive_action now clock send representative_a amount_a generate wn in
  (amount_a < receive_minimum -> run = Some (None, wn, []))
  /\ (receive_minimum <= amount_a -> exists b0 nd1, let b := with_work b0 in
        receive_block_make (wn_wallet wn) (wn_store wn) send representative_a amount_a = Some (Some b0)
        /\ process_active now b (wn_node wn) = Some nd1
        /\ (arrived (hash b) (nd_arrival (wn_node wn)) = false -> nd_blocks nd1 = b :: nd_blocks (wn_node wn))
        /\ (admitted b -> exists l' r, process b (nd_ledger (wn_node wn)) = Some (l', r) /\ pr_code r = progress
              /\ account_balance (l_store l') account = account_balance (wn_store wn) account + pi_amount pnd
              /\ pending_get (l_store l') (PendingKey account (hash send)) = None
              /\ settles b l' nd1 wn run)).
Proof.
  intros Hok He Hd Ha Hp Hf run. split; intros Hm.
  { unfold run, receive_action, receive_block_make. by destruct (Z.leb_spec receive_minimum amount_a); [lia|]. }
  destruct (receive_composed _ _ _ representative_a _ _ _ _ (no_ledger _ Hok) Hm He Hd Ha Hp Hf) as (p & r & w & Hmake & Hacc).
  destruct (with_work_state account p r (account_balance (wn_store wn) account + pi_amount pnd) (hash send) prv account w) as (w' & Hww & Hw).
  eexists _. cbv zeta. fold (wn_store wn) in Hmake, Hacc. rewrite <- Hww in Hw. destruct (process_active_queues now _ (wn_node wn) Hw) as (nd1 & Hnd & _ & _ & _ & Hq & _).
  exists nd1. split; [exact Hmake|]. split_and!; [done..|]. intros Hb. pose proof Hb as Hb'. rewrite Hww in Hb'.
  destruct (Hacc _ Hb') as (l' & r' & Hpr & Hr & Hbal & Hpend). unfold wn_store in *. rewrite <- Hww in Hpr.
  exists l', r'. split_and!; [done..|]. unfold run, receive_action, wn_store. rewrite Hmake, Hd. cbn [mbind option_bind].
  pose proof (submit_settles now clock account generate _ wn (wn_ids wn) nd1 l' r' Hok Hw Hb Hnd Hpr Hr) as Hs.
  by rewrite wallet_node_eta in Hs.
Qed.

(** A send with an identifier is made once: as long as its block is in the ledger, the
    same identifier gives this block again, whatever the other arguments. *)
Lemma send_once now1 now2 clock1 clock2 source1 account1 amount1 source2 account2 amount2 generate1 generate2 id b wn wn1 wn2 fx :
  cached_send (Some id) wn = None ->
  send_action now1 clock1 source1 account1 amount1 generate1 (Some id) wn = Some (Some b, wn1, fx) ->
  wn_ids wn2 = wn_ids wn1 -> block_get (wn_store wn2) (hash b) = Some b ->
  send_action now2 clock2 source2 account2 amount2 generate2 (Some id) wn2 = Some (Some b, wn2, [republish_block b]).
Proof.
  intros Hc. unfold send_action. rewrite Hc. intros ([b0|] & _ & H)%bind_Some Hi Hb; [|done].
  apply bind_Some in H as (nd & _ & ([nd' fx'] & _ & [= <- <- _])%bind_Some). cbn in Hi. unfold cached_send. cbn [mbind option_bind].
  assert (hash (with_work b0) = hash b0) as Hh by (unfold with_work; destruct (work_validate_block b0); by destruct b0).
  rewrite Hi, lookup_insert_eq. cbn [mbind option_bind]. by rewrite <- Hh, Hb.
Qed.

(** [search_pending] fails no assertion. *)
Lemma search_pending_total ws l : reachable l -> exists r, search_pending ws (l_store l) = Some r.
Proof.
  intros [G [HI _]]%(reachable_consistent genesis_nonzero genesis_admitted). unfold search_pending.
  destruct (valid_password ws); [|by eexists].
  assert (forall a, exists bs, confirm_pending (l_store l) (pending_of (l_store l) a) = Some bs) as Hc.
  { intros a. assert (forall e, e ∈ pending_of (l_store l) a -> exists k, pending (l_store l) !! k = Some (snd e)) as Hin.
    { intros e. unfold pending_of. rewrite merge_sort_Permutation. intros ([k p] & -> & [_ Hk]%list_elem_of_filter)%list_elem_of_fmap.
      exists k. by apply elem_of_map_to_list. }
    induction (pending_of (l_store l) a) as [|[h p] es IH]; [by eexists|]. cbn.
    destruct IH as [bs IH]; [by intros; apply Hin; right|]. rewrite IH. destruct (_ <=? _); [|by eexists].
    destruct (Hin (h, p)) as [k Hk]; [by left|]. destruct (li_pending HI _ _ Hk) as (_ & m & Hm & Ha).
    destruct (li_owner HI _ _ Hm) as [i Hi]. cbn [snd] in Ha. unfold account_get. rewrite <- Ha, Hi. cbn.
    destruct (head_facts _ _ _ _ HI _ _ Hi) as (pb & _ & Hpb & _). rewrite (block_get_of _ _ _ _ HI), contents_lookup, Hpb. by eexists. }
  assert (forall accounts, exists bs, search_accounts ws (l_store l) accounts = Some bs) as Hs.
  { induction accounts as [|a accounts [bs IH]]; [by eexists|]. cbn. rewrite IH. destruct (negb _); [|by eexists].
    destruct (Hc a) as [bs' ->]. by eexists. }
  destruct (Hs (wallet_accounts ws)) as [bs ->]. by eexists.
Qed.
End sends.
