(* ===== verification/Wallets.v ===== *)
(** * Wallets: the wallets of a node

    The operations of [rai::wallet] that go through its store, [change_seed], and
    [rai::wallets] (node/wallet.cpp): the wallets by number and the queue of actions that
    one thread works off, highest priority first. What runs in the background of the node
    (entering the first password, searching for pending blocks) are further steps. *)

From stdpp Require Import base list option tactics gmap sorting.
From Stdlib Require Import ZArith Lia.
From S2P Require Import Prelude Blocks Common Stats Numbers Store Tables Visitors Ledger Rollback Chain LedgerInv.
From S2P Require Import Queries Process Accept Genesis Runs Votes Elections Caches Work Node NodeInv Drain.
From S2P Require Import WalletStore WalletKeys WalletActions.
#[local] Open Scope Z_scope.

(** ** Data *)

(** What is queued, with the number of its wallet. *)
Inductive wallet_action :=
| act_change (id source_a representative_a : Z) (generate : bool)
| act_receive (id : Z) (send : block) (representative_a amount_a : Z) (generate : bool)
| act_send (id source_a account_a amount_a : Z) (generate : bool) (send_id : option stream)
| act_work (id account root_a : Z).

Record wallets := Wallets {
  wl_items : gmap Z wallet_store;
  wl_actions : list (Z * wallet_action);
  wl_send_action_ids : gmap stream Z;
  wl_node : node
}.

Definition set_items (m : gmap Z wallet_store) (w : wallets) : wallets :=
  Wallets m (wl_actions w) (wl_send_action_ids w) (wl_node w).
Definition set_actions (q : list (Z * wallet_action)) (w : wallets) : wallets :=
  Wallets (wl_items w) q (wl_send_action_ids w) (wl_node w).

Definition generate_priority : Z := 2 ^ 128 - 1.
Definition high_priority : Z := 2 ^ 128 - 1 - 1.

(** ** The queue *)

(** The insertion in the multimap: behind the actions with the same priority. *)
Fixpoint queue_insert (amount_a : Z) (a : wallet_action) (q : list (Z * wallet_action)) : list (Z * wallet_action) :=
  match q with
  | [] => [(amount_a, a)]
  | (p, a') :: q => if p <? amount_a then (amount_a, a) :: (p, a') :: q else (p, a') :: queue_insert amount_a a q
  end.

Definition queue_wallet_action (amount_a : Z) (a : wallet_action) (w : wallets) : wallets :=
  set_actions (queue_insert amount_a a (wl_actions w)) w.

Definition change_async (id source_a representative_a : Z) (generate : bool) (w : wallets) : wallets :=
  queue_wallet_action high_priority (act_change id source_a representative_a generate) w.
Definition receive_async (id : Z) (b : block) (representative_a amount_a : Z) (generate : bool) (w : wallets) : wallets :=
  queue_wallet_action amount_a (act_receive id b representative_a amount_a generate) w.
Definition send_async (id source_a account_a amount_a : Z) (generate : bool) (send_id : option stream) (w : wallets) : wallets :=
  queue_wallet_action high_priority (act_send id source_a account_a amount_a generate send_id) w.

(** What an action leaves to do: work is queued, the rest is sent out. *)
Fixpoint after_action (id : Z) (fx : list wallet_effect) (w : wallets) : wallets * list wallet_effect :=
  match fx with
  | [] => (w, [])
  | work_ensure account root_a :: fx =>
    after_action id fx (queue_wallet_action generate_priority (act_work id account root_a) w)
  | e :: fx => let '(w, out) := after_action id fx w in (w, e :: out)
  end.

Section wallets.
Context `{E0 : Env} `{C0 : NodeConfig} `{O0 : HashOrder} `{W0 : WorkConfig} `{K0 : Crypto} `{A0 : WalletConfig}.

Definition wallet_in (ws : wallet_store) (w : wallets) : wallet_node := WalletNode (wl_node w) ws (wl_send_action_ids w).

(** The state after an action of wallet [id]. *)
Definition finish_action (id : Z) (r : option block * wallet_node * list wallet_effect) (w : wallets)
    : option block * wallets * list wallet_effect :=
  let '(b, wn, fx) := r in
  let w := Wallets (<[id := wn_wallet wn]> (wl_items w)) (wl_actions w) (wn_ids wn) (wn_node wn) in
  let '(w, out) := after_action id fx w in (b, w, out).

(** An action runs, at time [now] and with the block processor at work at the times of
    [clock]; the block goes to its caller, the list is sent out. The action holds a pointer
    to its wallet: [None] stands for the use of a wallet that is gone, too. *)
Definition run_action (now : Z) (clock : nat -> Z) (a : wallet_action) (w : wallets)
    : option (option block * wallets * list wallet_effect) :=
  match a with
  | act_change id source_a representative_a generate =>
    ws ← wl_items w !! id;
    r ← change_action now clock source_a representative_a generate (wallet_in ws w);
    Some (finish_action id r w)
  | act_receive id send representative_a amount_a generate =>
    ws ← wl_items w !! id;
    r ← receive_action now clock send representative_a amount_a generate (wallet_in ws w);
    Some (finish_action id r w)
  | act_send id source_a account_a amount_a generate send_id =>
    ws ← wl_items w !! id;
    r ← send_action now clock source_a account_a amount_a generate send_id (wallet_in ws w);
    Some (finish_action id r w)
  | act_work id account root_a =>
    ws ← wl_items w !! id;
    ws ← work_cache_blocking account root_a (l_store (nd_ledger (wl_node w))) ws;
    Some (None, set_items (<[id := ws]> (wl_items w)) w, [])
  end.

(** One turn of [do_wallet_actions]. *)
Definition do_wallet_action (turn : Z * (nat -> Z)) (w : wallets) : option (wallets * list wallet_effect) :=
  match wl_actions w with
  | [] => Some (w, [])
  | (_, a) :: q => '(_, w, out) ← run_action (fst turn) (snd turn) a (set_actions q w); Some (w, out)
  end.

(** [do_wallet_actions] for as many turns as there are times: that of the turn, and those
    at which the block processor works meanwhile. *)
Fixpoint do_wallet_actions (times : list (Z * (nat -> Z))) (w : wallets) : option (wallets * list wallet_effect) :=
  match times with
  | [] => Some (w, [])
  | turn :: times =>
    '(w, out) ← do_wallet_action turn w;
    '(w, out') ← do_wallet_actions times w;
    Some (w, out ++ out')
  end.

(** ** Wallets by number *)

Definition wallets_open (id : Z) (w : wallets) : option wallet_store := wl_items w !! id.

(** [create], over a new table: [None] is a failed assertion. *)
Definition wallets_create (id representative salt key seed : Z) (randoms1 randoms2 : list Z) (w : wallets)
    : option (wallet_store * wallets) :=
  match wl_items w !! id with
  | Some _ => None
  | None =>
    ws ← wallet_open representative salt key seed randoms1 randoms2 ∅;
    Some (ws, set_items (<[id := ws]> (wl_items w)) w)
  end.

Definition wallets_destroy (id : Z) (w : wallets) : option wallets :=
  _ ← wl_items w !! id; Some (set_items (delete id (wl_items w)) w).

(** [search_pending] of one wallet and of all: the blocks to confirm. *)
Definition wallets_search_pending (id : Z) (w : wallets) : option (bool * list block) :=
  match wl_items w !! id with
  | None => Some (true, [])
  | Some ws => search_pending ws (l_store (nd_ledger (wl_node w)))
  end.

Fixpoint search_all (l : list (Z * wallet_store)) (s : store) : option (list block) :=
  match l with
  | [] => Some []
  | (_, ws) :: l => '(_, bs) ← search_pending ws s; bs' ← search_all l s; Some (bs ++ bs')
  end.
Definition search_pending_all (w : wallets) : option (list block) :=
  search_all (map_order (wl_items w)) (l_store (nd_ledger (wl_node w))).

(** [foreach_representative]: the keys that it passes to the action, and the ledger, whose
    [weight] may turn the bootstrap weights off. *)
Fixpoint foreach_wallet (items : list (Z * wallet_store)) (l : ledger) : option (list (Z * Z) * ledger) :=
  match items with
  | [] => Some ([], l)
  | (_, ws) :: items =>
    '(ks, l) ← representative_keys ws (wallet_accounts ws) l;
    '(ks', l) ← foreach_wallet items l;
    Some (ks ++ ks', l)
  end.
Definition foreach_representative (w : wallets) : option (list (Z * Z) * ledger) :=
  foreach_wallet (map_order (wl_items w)) (nd_ledger (wl_node w)).

Definition wallets_exists (account : Z) (w : wallets) : bool :=
  existsb (fun i => wallet_exists (snd i) account) (map_order (wl_items w)).

(** ** Operations of a wallet *)

(** [enter_password]: [true] is an error. *)
Definition enter_password (password : stream) (seed : Z) (ws : wallet_store) : option (bool * wallet_store) :=
  attempt_password password seed ws.

Definition enter_initial_password (seed : Z) (ws : wallet_store) : option wallet_store :=
  if fan_value (ws_password ws) =? 0 then
    let ws := if valid_password ws then snd (rekey [] ws) else ws in
    snd <$> enter_password [] seed ws
  else Some ws.

(** [deterministic_insert] and [insert_adhoc]: the account is zero when the wallet is
    locked. *)
Definition insert_next (generate : bool) (ws : wallet_store) : option (Z * wallet_store * list wallet_effect) :=
  if valid_password ws then
    '(key, ws) ← deterministic_insert ws;
    Some (key, ws, if generate then [work_ensure key key] else [])
  else Some (0, ws, []).

Definition insert_key (prv : Z) (generate : bool) (s : store) (ws : wallet_store)
    : option (Z * wallet_store * list wallet_effect) :=
  if valid_password ws then
    '(key, ws) ← insert_adhoc prv ws;
    Some (key, ws, if generate then [work_ensure key (latest_root s key)] else [])
  else Some (0, ws, []).

(** [import] of the tree of a backup: [true] is an error. *)
Definition import_tree `{S0 : Streams} (tree : list (stream * stream)) (password : stream) (seed : Z) (ws : wallet_store)
    : option (bool * wallet_store) :=
  let '(error, temp) := wallet_restore tree [] [] in
  if (error : bool) then Some (true, ws) else
  '(error, temp) ← attempt_password password seed temp;
  if (error : bool) then Some (true, ws) else
  '(error, ws, _) ← wallet_import ws temp;
  Some (error, ws).

(** ** Changing the seed *)

(** An account has a block, or a pending amount. *)
Definition account_used (s : store) (account : Z) : bool :=
  negb (latest s account =? 0) || bool_decide (pending_of s account <> []).

(** The first loop of [change_seed]: [n] is moved on by each account in use. *)
Fixpoint seed_scan (fuel : nat) (s : store) (ws : wallet_store) (i n count : Z) : option Z :=
  if i <? n then
    match fuel with
    | O => None
    | S fuel =>
      prv ← wallet_deterministic_key ws i;
      if account_used s (ed25519_publickey prv)
      then seed_scan fuel s ws (wrap 32 (i + 1)) (wrap 32 (i + 64 + i / 64)) i
      else seed_scan fuel s ws (wrap 32 (i + 1)) n count
    end
  else Some count.

(** The second loop, from [i] for [n] turns. *)
Fixpoint seed_inserts (n : nat) (i account : Z) (ws : wallet_store) : option (Z * wallet_store * list wallet_effect) :=
  match n with
  | O => Some (account, ws, [])
  | S n =>
    '(account, ws, fx) ← insert_next (i <? 4) ws;
    '(account, ws, fx') ← seed_inserts n (i + 1) account ws;
    Some (account, ws, fx ++ fx')
  end.

Definition change_seed (fuel : nat) (prv : Z) (s : store) (ws : wallet_store)
    : option (Z * wallet_store * list wallet_effect) :=
  ws ← seed_set prv ws;
  '(account, ws, fx) ← insert_next true ws;
  count ← seed_scan fuel s ws 1 64 0;
  '(account, ws, fx') ← seed_inserts (Z.to_nat count) 0 account ws;
  Some (account, ws, fx ++ fx').
End wallets.
