(* ===== verification/WalletSeeds.v ===== *)
(** * WalletSeeds: what a wallet finds when its seed changes

    [change_seed] looks for accounts of the new seed that are in use, and gives up after a
    stretch of unused ones. *)

From stdpp Require Import base list option tactics gmap.
From Stdlib Require Import ZArith Lia.
From S2P Require Import Prelude Blocks Common Stats Numbers TextForms Store Tables Visitors Ledger Rollback Chain LedgerInv.
From S2P Require Import Queries Process Accept Genesis Runs Votes Elections Caches Work Node NodeInv.
From S2P Require Import WalletStore WalletKeys WalletPasswords WalletActions Wallets.
#[local] Open Scope Z_scope.

Section seeds.
Context `{E0 : Env} `{K0 : Crypto}.

(** The private and the public key of an index. *)
Definition seed_key (seed i : Z) : Z := deterministic_key seed i.
Definition seed_pub (seed i : Z) : Z := ed25519_publickey (seed_key seed i).

Lemma derived_pub_seed ws i : derived_pub ws i = seed_pub (wallet_seed ws) i.
Proof. done. Qed.

(** ** The search *)

(** The indices that are found: each in use, and near enough to one found before. *)
Inductive found (s : store) (seed : Z) : Z -> Prop :=
| found_first : found s seed 0
| found_next j i : found s seed j -> j < i < j + 64 + j / 64 -> account_used s (seed_pub seed i) = true -> found s seed i.

Lemma found_nonneg s seed i : found s seed i -> 0 <= i.
Proof. induction 1; lia. Qed.

Lemma found_used s seed i : found s seed i -> i <> 0 -> account_used s (seed_pub seed i) = true.
Proof. by destruct 1. Qed.

Lemma reach_mono j i : 0 <= j <= i -> j + 64 + j / 64 <= i + 64 + i / 64.
Proof. intros H. pose proof (Z.div_le_mono j i 64). lia. Qed.

(** The indices are 32-bit numbers and go up, so that the loop ends whatever is in use. *)
Lemma seed_scan_total s fuel ws i n count :
  valid_password ws = true -> 0 <= i -> in_width 32 n -> 2 ^ 32 - i <= Z.of_nat fuel ->
  exists c, seed_scan fuel s ws i n count = Some c
    /\ (c = count \/ i <= c < 2 ^ 32 /\ account_used s (seed_pub (wallet_seed ws) c) = true).
Proof.
  intros Hv. revert i n count. induction fuel as [|fuel IH]; intros i n count H0 Hn Hf; cbn [seed_scan].
  all: unfold in_width in Hn; destruct (Z.ltb_spec i n) as [Hlt|Hge]; [|by exists count; auto].
  - lia.
  - unfold wallet_deterministic_key. rewrite Hv. cbn [assert mbind option_bind].
    fold (seed_key (wallet_seed ws) i) (seed_pub (wallet_seed ws) i).
    rewrite (wrap_small 32 (i + 1)) by (unfold in_width; lia).
    destruct (account_used s (seed_pub (wallet_seed ws) i)) eqn:Hu.
    + destruct (IH (i + 1) (wrap 32 (i + 64 + i / 64)) i) as (c & -> & Hc); [lia|by apply wrap_in_width|lia|].
      exists c. split; [done|right]. destruct Hc as [->|[? ?]]; split; (done || lia).
    + destruct (IH (i + 1) n count) as (c & -> & Hc); [lia|done|lia|]. exists c. split; [done|].
      destruct Hc as [?|[? ?]]; [by left|right]. split; [lia|done].
Qed.

(** C26. The search of [change_seed] ends in an unlocked wallet, whatever accounts are in use:
    2^32 turns are enough, and the index it ends with is zero or that of an account in use. *)
Theorem seed_scan_ends s fuel ws :
  valid_password ws = true -> 2 ^ 32 <= Z.of_nat fuel ->
  exists c, seed_scan fuel s ws 1 64 0 = Some c
    /\ (c = 0 \/ 1 <= c < 2 ^ 32 /\ account_used s (seed_pub (wallet_seed ws) c) = true).
Proof. intros Hv Hf. apply seed_scan_total; [done|lia|done|lia]. Qed.

(** While the found indices are small enough for the arithmetic of the loop, the search
    ends with the greatest one. *)
Lemma seed_scan_ok s seed M fuel ws i count :
  (forall j, found s seed j -> j <= M) -> M + 64 + M / 64 < 2 ^ 32 -> valid_password ws = true -> wallet_seed ws = seed ->
  found s seed count -> count < i <= count + 64 + count / 64 ->
  (forall j, found s seed j -> j < i -> j <= count) -> 2 ^ 32 - i <= Z.of_nat fuel ->
  exists c, seed_scan fuel s ws i (count + 64 + count / 64) count = Some c
    /\ found s seed c /\ forall j, found s seed j -> j <= c.
Proof.
  intros HM Hw Hv Hs. revert i count.
  induction fuel as [|fuel IH]; intros i count Hc Hi Hbelow Hf; cbn [seed_scan].
  all: pose proof (found_nonneg _ _ _ Hc) as Hc0; pose proof (reach_mono count M ltac:(pose proof (HM _ Hc); lia)) as Hm.
  all: destruct (Z.ltb_spec i (count + 64 + count / 64)) as [Hlt|Hge]; [|exists count; split_and!; [done..|]].
  2, 4: intros j Hj; induction Hj as [|j k Hj IHj Hk Huse]; [done|]; destruct (Z.lt_ge_cases k i) as [Hki|Hki];
    [apply Hbelow; [by apply (found_next s seed j)|done]|]; pose proof (found_nonneg _ _ _ Hj);
    pose proof (reach_mono j count ltac:(lia)); lia.
  - lia.
  - unfold wallet_deterministic_key. rewrite Hv. cbn [assert mbind option_bind]. rewrite Hs. fold (seed_key seed i) (seed_pub seed i).
    rewrite (wrap_small 32 (i + 1)) by (unfold in_width; lia).
    destruct (account_used s (seed_pub seed i)) eqn:Huse.
    + assert (found s seed i) as Hfi by (apply (found_next s seed count); [done|lia|done]).
      pose proof (HM _ Hfi). pose proof (reach_mono i M ltac:(lia)). pose proof (Z.div_pos i 64 ltac:(lia) ltac:(lia)).
      rewrite wrap_small by (unfold in_width; lia). apply IH; [done|lia|intros; lia|lia].
    + apply IH; [done|lia| |lia]. intros j Hj Hji. destruct (decide (j = i)) as [->|]; [|apply Hbelow; [done|lia]].
      rewrite (found_used _ _ _ Hj) in Huse; [done|lia].
Qed.

(** ** The accounts that are inserted *)

(** The keys of the first [B] indices are different, and no special entries. *)
Record distinct_keys (seed B : Z) : Prop := {
  dk_width : B < 2 ^ 32;
  dk_special i : 0 <= i <= B -> special_count <= seed_pub seed i;
  dk_distinct i j : 0 <= i <= B -> 0 <= j <= B -> seed_pub seed i = seed_pub seed j -> i = j
}.

(** The wallet [ws] after insertions into [ws0]: all indices below the stored one are
    there. *)
Record seeded (ws0 ws : wallet_store) (index : Z) : Prop := {
  sd_secrets : same_secrets ws0 ws;
  sd_index : deterministic_index_get ws = index;
  sd_present : is_Some (ws_entries ws !! deterministic_index_special);
  sd_there i : 0 <= i < index -> is_Some (ws_entries ws !! seed_pub (wallet_seed ws0) i);
  sd_marked i : 0 <= i < index -> ws_entries ws0 !! seed_pub (wallet_seed ws0) i = None ->
    ws_entries ws !! seed_pub (wallet_seed ws0) i = Some (WalletValue (marker i) 0);
  sd_others k : special_count <= k -> (forall i, 0 <= i < index -> k <> seed_pub (wallet_seed ws0) i) ->
    ws_entries ws !! k = ws_entries ws0 !! k
}.

(** There are no more indices than entries. *)
Lemma index_bound seed B (m : gmap Z wallet_value) index :
  distinct_keys seed B -> 0 <= index <= B + 1 -> (forall i, 0 <= i < index -> is_Some (m !! seed_pub seed i)) ->
  index <= Z.of_nat (size m).
Proof.
  intros Hd Hi Hin. pose (l := seed_pub seed <$> (Z.of_nat <$> seq 0 (Z.to_nat index))).
  assert (NoDup l) as Hn.
  { apply NoDup_fmap_2_strong; [|apply NoDup_fmap_2; [intros ? ?; lia|apply NoDup_seq]].
    intros x y (n & -> & Hn%elem_of_seq)%list_elem_of_fmap (n' & -> & Hn'%elem_of_seq)%list_elem_of_fmap.
    apply (dk_distinct _ _ Hd); lia. }
  assert ((list_to_set l : gset Z) ⊆ dom m) as Hs.
  { intros k. rewrite elem_of_list_to_set, elem_of_dom.
    intros (i & -> & (n & -> & Hn'%elem_of_seq)%list_elem_of_fmap)%list_elem_of_fmap. apply Hin. lia. }
  apply subseteq_size in Hs. rewrite size_list_to_set in Hs by done. rewrite size_dom in Hs. unfold l in Hs.
  rewrite !length_fmap, length_seq in Hs. lia.
Qed.

Lemma with_index_size j ws :
  special_count <= derived_pub ws j -> is_Some (ws_entries ws !! deterministic_index_special) ->
  wallet_exists ws (derived_pub ws j) = false -> size (ws_entries (with_index j ws)) = S (size (ws_entries ws)).
Proof.
  intros Hs [v Hp] He. cbn. assert (ws_entries ws !! derived_pub ws j = None) as Hn.
  { destruct (ws_entries ws !! derived_pub ws j) eqn:Hk; [|done].
    rewrite (proj2 (wallet_exists_iff ws _)) in He by (rewrite Hk; by eexists). done. }
  rewrite !map_size_insert, lookup_insert_ne, Hp, Hn; [done|]. unfold special_count, deterministic_index_special in *. lia.
Qed.

Lemma seeded_step B ws0 ws index :
  distinct_keys (wallet_seed ws0) B -> valid_password ws0 = true -> seeded ws0 ws index -> 0 <= index ->
  2 * Z.of_nat (size (ws_entries ws)) <= B ->
  exists j, deterministic_insert ws = Some (seed_pub (wallet_seed ws0) j, with_index j ws) /\ index <= j
    /\ seeded ws0 (with_index j ws) (j + 1) /\ size (ws_entries (with_index j ws)) = S (size (ws_entries ws)).
Proof.
  intros Hd Hv Hsd H0 HB. pose proof (sd_secrets _ _ _ Hsd) as Hss. pose proof (secrets_seed _ _ Hss) as Hseed.
  pose proof (index_bound _ B (ws_entries ws) index Hd) as Hib. assert (index <= B + 1) as HiB.
  { destruct (Z.le_gt_cases index (B + 1)); [done|]. assert (B + 1 <= Z.of_nat (size (ws_entries ws))); [|lia].
    apply (index_bound _ B (ws_entries ws) (B + 1) Hd); [lia|]. intros i Hi. apply (sd_there _ _ _ Hsd). lia. }
  specialize (Hib ltac:(lia) (sd_there _ _ _ Hsd)).
  destruct (deterministic_insert_ok ws) as (j & Hj & Hr & Hne & Hskip); rewrite ?(sd_index _ _ _ Hsd) in *.
  { by rewrite (secrets_valid _ _ Hss). }
  { pose proof (dk_width _ _ Hd). split; [lia|intros i Hi|intros i k Hi Hk]; rewrite !derived_pub_seed, Hseed;
      [apply (dk_special _ _ Hd); lia|apply (dk_distinct _ _ Hd); lia]. }
  rewrite derived_pub_seed, Hseed in Hj, Hne.
  assert (special_count <= derived_pub ws j) as Hsp by (rewrite derived_pub_seed, Hseed; apply (dk_special _ _ Hd); lia).
  assert (forall i, 0 <= i <= j -> special_count <= seed_pub (wallet_seed ws0) i) as Hsi by (intros; apply (dk_special _ _ Hd); lia).
  exists j. split_and!; [done|lia| |apply with_index_size; [done|apply (sd_present _ _ _ Hsd)|by rewrite derived_pub_seed, Hseed]].
  pose proof (dk_width _ _ Hd). split.
  - eapply same_secrets_trans; [done|by apply with_index_secrets].
  - rewrite with_index_get. apply wrap_small. unfold in_width. lia.
  - cbn. rewrite lookup_insert_eq. by eexists.
  - intros i Hi. rewrite with_index_lookup by (apply Hsi; lia). case_decide as Hc; [by eexists|].
    destruct (Z.lt_ge_cases i index); [apply (sd_there _ _ _ Hsd); lia|].
    assert (i <> j) by (intros ->; apply Hc; by rewrite derived_pub_seed, Hseed).
    specialize (Hskip i ltac:(lia)). rewrite derived_pub_seed, Hseed in Hskip. by apply wallet_exists_iff.
  - intros i Hi Hn. rewrite with_index_lookup by (apply Hsi; lia). rewrite derived_pub_seed, Hseed.
    destruct (decide (i = j)) as [->|Hij]; [by rewrite decide_True|].
    rewrite decide_False by (intros E; apply (dk_distinct _ _ Hd) in E; lia).
    destruct (Z.lt_ge_cases i index); [apply (sd_marked _ _ _ Hsd); [lia|done]|].
    specialize (Hskip i ltac:(lia)). rewrite derived_pub_seed, Hseed, wallet_exists_iff in Hskip.
    rewrite (sd_others _ _ _ Hsd) in Hskip; [|apply Hsi; lia|intros k Hk E; apply (dk_distinct _ _ Hd) in E; lia].
    rewrite Hn in Hskip. by destruct Hskip.
  - intros k Hk Hi. rewrite with_index_lookup by done. rewrite decide_False.
    + apply (sd_others _ _ _ Hsd); [done|]. intros i Hi'. apply Hi. lia.
    + rewrite derived_pub_seed, Hseed. apply Hi. lia.
Qed.

Lemma insert_next_ok B generate ws0 ws index :
  distinct_keys (wallet_seed ws0) B -> valid_password ws0 = true -> seeded ws0 ws index -> 0 <= index ->
  2 * Z.of_nat (size (ws_entries ws)) <= B ->
  exists j fx, insert_next generate ws = Some (seed_pub (wallet_seed ws0) j, with_index j ws, fx) /\ index <= j
    /\ seeded ws0 (with_index j ws) (j + 1) /\ size (ws_entries (with_index j ws)) = S (size (ws_entries ws)).
Proof.
  intros Hd Hv Hsd H0 HB. destruct (seeded_step B ws0 ws index Hd Hv Hsd H0 HB) as (j & Hj & H). exists j. unfold insert_next.
  rewrite (secrets_valid _ _ (sd_secrets _ _ _ Hsd)), Hv, Hj. cbn [mbind option_bind]. by eexists.
Qed.

Lemma seed_inserts_ok B n ws0 ws i account index :
  distinct_keys (wallet_seed ws0) B -> valid_password ws0 = true -> seeded ws0 ws index -> 0 <= index ->
  2 * (Z.of_nat (size (ws_entries ws)) + Z.of_nat n) <= B ->
  exists account' ws' fx index', seed_inserts n i account ws = Some (account', ws', fx)
    /\ seeded ws0 ws' index' /\ index + Z.of_nat n <= index'.
Proof.
  intros Hd Hv. revert i account ws index. induction n as [|n IH]; intros i account ws index Hsd H0 HB; cbn [seed_inserts].
  { exists account, ws, [], index. split_and!; [done..|lia]. }
  destruct (insert_next_ok B (i <? 4) ws0 ws index Hd Hv Hsd H0 ltac:(lia)) as (j & fx & -> & Hj & Hsd' & Hsz).
  cbn [mbind option_bind].
  destruct (IH (i + 1) (seed_pub (wallet_seed ws0) j) (with_index j ws) (j + 1) Hsd' ltac:(lia) ltac:(lia))
    as (a' & ws' & fx' & index' & -> & Hs' & Hi'). cbn [mbind option_bind].
  eexists _, _, _, _. split; [done|]. split; [done|lia].
Qed.

(** A wallet whose seed was just set. *)
Lemma seed_set_seeded `{!CryptoLaws} seed ws :
  in_width 256 seed -> valid_password ws = true ->
  exists ws0, seed_set seed ws = Some ws0 /\ valid_password ws0 = true /\ wallet_seed ws0 = seed /\ seeded ws0 ws0 0
    /\ (size (ws_entries ws0) <= size (ws_entries ws) + 2)%nat
    /\ forall k, special_count <= k -> ws_entries ws0 !! k = cleared special_count (ws_entries ws) k.
Proof.
  intros Hw Hv. destruct (seed_set_ok seed ws Hw) as (ws0 & Hs & H1 & H2 & H3 & H4 & H5 & _ & _ & H6 & H7 & H8). exists ws0.
  assert (valid_password ws0 = true) as Hv0 by (rewrite <- Hv; unfold valid_password, wallet_iv; by rewrite H1, H2, H3).
  split_and!; [done..| | |done].
  - split; [apply same_secrets_refl|done| |lia|lia|done].
    unfold seed_set in Hs. apply bind_Some in Hs as (ws1 & _ & [= <-]). cbn. rewrite lookup_insert_eq. by eexists.
  - assert (dom (ws_entries ws0) ⊆ dom (ws_entries ws) ∪ {[seed_special; deterministic_index_special]}) as Hsub.
    { intros k. rewrite elem_of_union, !elem_of_dom. intros Hk. destruct (decide (k < 5)); [left; by rewrite <- H7|].
      destruct (decide (special_count <= k)) as [Hsp|Hsp].
      - left. rewrite H6 in Hk by done. unfold cleared in Hk. destruct (ws_entries ws !! k); [by eexists|by destruct Hk].
      - right. unfold special_count in Hsp. assert (k = 5 \/ k = 6) as [-> | ->] by lia; set_solver. }
    apply subseteq_size in Hsub. rewrite size_dom in Hsub. etrans; [done|].
    rewrite size_union_alt. rewrite size_dom. apply Nat.add_le_mono_l.
    etrans; [apply subseteq_size, subseteq_difference_l; done|]. by vm_compute.
Qed.

Lemma seeded_found B ws0 ws ws' index i :
  distinct_keys (wallet_seed ws0) B -> valid_password ws0 = true -> seeded ws0 ws' index ->
  (forall k, special_count <= k -> ws_entries ws0 !! k = cleared special_count (ws_entries ws) k) -> 0 <= i < index -> i <= B ->
  wallet_exists ws' (seed_pub (wallet_seed ws0) i) = true
  /\ ((forall v, ws_entries ws !! seed_pub (wallet_seed ws0) i = Some v -> key_type_of v = kt_deterministic) ->
      fetch ws' (seed_pub (wallet_seed ws0) i) = Some (Some (seed_key (wallet_seed ws0) i))).
Proof.
  intros Hd Hv Hsd Hcl Hi HiB. split; [by apply wallet_exists_iff, (sd_there _ _ _ Hsd)|]. intros Hold.
  pose proof (sd_secrets _ _ _ Hsd) as Hss. rewrite <- (secrets_seed _ _ Hss). pose proof (dk_width _ _ Hd).
  apply (fetch_deterministic ws' i 0); [by rewrite (secrets_valid _ _ Hss)|lia|].
  rewrite derived_pub_seed, (secrets_seed _ _ Hss). unfold entry_get_raw. rewrite (sd_marked _ _ _ Hsd); [done|done|].
  pose proof (dk_special _ _ Hd i ltac:(lia)). rewrite Hcl by done. unfold cleared.
  destruct (ws_entries ws !! seed_pub (wallet_seed ws0) i) as [v|] eqn:Hk; [|done]. cbn. rewrite decide_True; [done|]. auto.
Qed.

(** C25. In an unlocked wallet, with as many different derived keys as the wallet and the
    indices found ask for, [change_seed] comes to an end and leaves a wallet with the new
    seed that has every account the search comes to: an account in use whose index is less
    than 64, plus one for every 64 accounts, behind that of an account found before. Its
    private key can be fetched, unless the wallet had the account by other means, watched
    or inserted with a key of its own. *)
Theorem change_seed_finds `{!CryptoLaws} seed s ws B fuel :
  in_width 256 seed -> valid_password ws = true -> distinct_keys seed B ->
  (forall i, found s seed i -> 2 * (Z.of_nat (size (ws_entries ws)) + i + 3) <= B) -> 2 ^ 32 <= Z.of_nat fuel ->
  exists account ws' fx, change_seed fuel seed s ws = Some (account, ws', fx) /\ wallet_seed ws' = seed
    /\ forall i, found s seed i -> wallet_exists ws' (seed_pub seed i) = true
         /\ ((forall v, ws_entries ws !! seed_pub seed i = Some v -> key_type_of v = kt_deterministic) ->
             fetch ws' (seed_pub seed i) = Some (Some (seed_key seed i))).
Proof.
  intros Hw Hv Hd HB Hf. pose proof (HB 0 (found_first _ _)) as HB0. pose proof (dk_width _ _ Hd) as HBw.
  destruct (seed_set_seeded seed ws Hw Hv) as (ws0 & Hs0 & Hv0 & Hseed & Hsd0 & Hsz & Hcl). unfold change_seed. rewrite Hs0.
  cbn [mbind option_bind]. subst seed.
  destruct (insert_next_ok B true ws0 ws0 0 Hd Hv0 Hsd0 ltac:(lia) ltac:(lia)) as (j & fx & -> & Hj & Hsd & Hsz1).
  cbn [mbind option_bind]. pose proof (sd_secrets _ _ _ Hsd) as Hss.
  destruct (seed_scan_ok s (wallet_seed ws0) (B / 2) fuel (with_index j ws0) 1 0) as (c & Hc & Hcf & Hmax);
    [intros i Hi%HB; apply Z.div_le_lower_bound; lia|pose proof (Z.div_lt_upper_bound (B / 2) 64 (2 ^ 26)); pose proof (Z.div_lt_upper_bound B 2 (2 ^ 31)); lia
    |by rewrite (secrets_valid _ _ Hss)|by rewrite (secrets_seed _ _ Hss)|constructor|by vm_compute|intros; lia|lia|].
  change (0 + 64 + 0 / 64) with 64 in Hc. rewrite Hc. cbn [mbind option_bind].
  pose proof (found_nonneg _ _ _ Hcf) as Hc0. pose proof (HB _ Hcf) as HBc.
  destruct (seed_inserts_ok B (Z.to_nat c) ws0 (with_index j ws0) 0 (seed_pub (wallet_seed ws0) j) (j + 1) Hd Hv0 Hsd ltac:(lia) ltac:(lia))
    as (a' & ws' & fx' & index & -> & Hsd' & Hi). cbn [mbind option_bind].
  eexists _, _, _. split; [done|]. pose proof (sd_secrets _ _ _ Hsd') as Hss'.
  split; [by rewrite (secrets_seed _ _ Hss')|]. intros i Hfi. pose proof (found_nonneg _ _ _ Hfi). pose proof (Hmax i Hfi).
  apply (seeded_found B ws0 ws ws' index i); [done..|lia|lia].
Qed.
End seeds.
