(* ===== verification/WalletQueue.v ===== *)
(** * WalletQueue: the queue of wallet actions

    The actions are served by priority, in the order in which they were queued; the queue
    runs empty. *)

From stdpp Require Import base list option tactics gmap sorting.
From Stdlib Require Import ZArith Lia.
From S2P Require Import Prelude Blocks Common Stats Numbers TextForms Store Tables Visitors Ledger Rollback Chain Balance LedgerInv.
From S2P Require Import Queries Process Accept Unwind RollbackInv Genesis Runs Votes Elections Caches Work Node NodeInv Drain.
From S2P Require Import WalletStore WalletKeys WalletActions WalletSends Wallets.
#[local] Open Scope Z_scope.

(** ** Order *)

Definition served_before (e1 e2 : Z * wallet_action) : Prop := fst e2 <= fst e1.
Definition in_order (q : list (Z * wallet_action)) : Prop := StronglySorted served_before q.
Definition with_priority (p : Z) (q : list (Z * wallet_action)) : list (Z * wallet_action) := filter (fun e => fst e = p) q.

Lemma queue_insert_elem p a q e : e ∈ queue_insert p a q <-> e = (p, a) \/ e ∈ q.
Proof.
  induction q as [|[p' a'] q IH]; cbn; [set_solver|]. destruct (p' <? p); [set_solver|]. rewrite !elem_of_cons, IH. tauto.
Qed.

Lemma queue_insert_ordered p a q : in_order q -> in_order (queue_insert p a q).
Proof.
  unfold in_order. induction q as [|[p' a'] q IH]; intros Hs; cbn; [by repeat constructor|].
  destruct (StronglySorted_inv Hs) as [Hq Hf]. destruct (Z.ltb_spec p' p) as [Hlt|Hge].
  - constructor; [done|]. constructor; [unfold served_before; cbn; lia|]. eapply Forall_impl; [done|].
    unfold served_before. cbn. intros e He. lia.
  - constructor; [by apply IH|]. apply Forall_forall. intros e [->|He]%queue_insert_elem; [done|]. by eapply Forall_forall.
Qed.

Lemma with_priority_none p q : Forall (fun e => fst e < p) q -> with_priority p q = [].
Proof.
  unfold with_priority. induction 1 as [|e q He _ IH]; [done|]. rewrite filter_cons, decide_False by lia. done.
Qed.

(** The queue stays ordered by priority when an action is queued, and the action comes
    behind the ones with the same priority that were there; the order of the others is
    as before. *)
Theorem queue_action_order amount_a a w :
  in_order (wl_actions w) ->
  in_order (wl_actions (queue_wallet_action amount_a a w))
  /\ forall p, with_priority p (wl_actions (queue_wallet_action amount_a a w))
       = with_priority p (wl_actions w) ++ (if decide (amount_a = p) then [(amount_a, a)] else []).
Proof.
  intros Hs. split; [by apply queue_insert_ordered|]. intros p. cbn. unfold with_priority, in_order in *.
  induction (wl_actions w) as [|[p' a'] q IH]; cbn [queue_insert].
  { by rewrite filter_cons, filter_nil. }
  destruct (StronglySorted_inv Hs) as [Hq Hf]. destruct (Z.ltb_spec p' amount_a) as [Hlt|Hge]; rewrite !filter_cons; cbn.
  - destruct (decide (amount_a = p)) as [->|]; [|by rewrite app_nil_r].
    rewrite decide_False by lia. fold (with_priority p q). rewrite with_priority_none; [done|].
    eapply Forall_impl; [done|]. unfold served_before. cbn. intros e He. lia.
  - rewrite IH by done. by destruct (decide (p' = p)).
Qed.

(** ** The queue runs empty *)

Section queue.
Context `{E0 : Env} `{T0 : Traffic} `{TL0 : !TrafficLaws} `{C0 : NodeConfig} `{O0 : HashOrder} `{OL0 : !HashOrderLaws}.
Context `{W0 : WorkConfig} `{K0 : Crypto} `{A0 : WalletConfig} `{WL0 : !WalletLaws}.
Context (genesis_nonzero : genesis_account <> 0) (genesis_admitted : admitted genesis_block).

(** The wallet can sign for an account that it has, when it is not locked. *)
Definition keyed (ws : wallet_store) (account : Z) : Prop :=
  special_count <= account /\
  (wallet_exists ws account = true -> valid_password ws = true -> exists prv, fetch ws account = Some (Some prv)).

(** An entry that may hold work. *)
Definition work_slot (ws : wallet_store) (account : Z) : Prop :=
  special_count <= account /\ (wallet_exists ws account = true -> wv_key (entry_get_raw ws account) <> 0).

(** A send that the wallet is told of, to an account that is no special entry. *)
Definition receivable (send : block) : Prop :=
  admitted send /\
  match send with Send b => special_count <= send_destination b | State b => special_count <= state_link b | _ => False end.

(** What an action relies on; special entries are no accounts. *)
Definition safe_in (ws : wallet_store) (a : wallet_action) : Prop :=
  match a with
  | act_change _ source_a _ _ => keyed ws source_a
  | act_receive _ send _ _ _ => receivable send
  | act_send _ source_a _ _ _ _ => keyed ws source_a
  | act_work _ account _ => work_slot ws account
  end.

Definition action_wallet (a : wallet_action) : Z :=
  match a with act_change id _ _ _ => id | act_receive id _ _ _ _ => id | act_send id _ _ _ _ _ => id | act_work id _ _ => id end.

Definition wl_store (w : wallets) : store := l_store (nd_ledger (wl_node w)).

Definition safe_action (w : wallets) (a : wallet_action) : Prop :=
  exists ws, wl_items w !! action_wallet a = Some ws /\ safe_in ws a.

(** The block that an action makes. *)
Definition composed (w : wallets) (a : wallet_action) : option block :=
  ws ← wl_items w !! action_wallet a;
  match a with
  | act_change _ source_a representative_a _ => mjoin (change_block_make ws (wl_store w) source_a representative_a)
  | act_receive _ send representative_a amount_a _ => mjoin (receive_block_make ws (wl_store w) send representative_a amount_a)
  | act_send _ source_a account_a amount_a _ id =>
    match cached_send id (wallet_in ws w) with
    | Some _ => None
    | None => mjoin (send_block_make ws (wl_store w) source_a account_a amount_a)
    end
  | act_work _ _ _ => None
  end.

(** Block [b] is one of the submitted ones, and the block processor, once it is queued, does
    not meet a block that names the head of another account as its predecessor. *)
Definition undisturbed (now : Z) (nd : node) (b : block) : Prop :=
  admitted b /\ forall nd1, process_active now b nd = Some nd1 -> ~ meets_foreign nd1.

(** Two states of a wallet that differ in cached work only. *)
Definition same_keys (ws ws' : wallet_store) : Prop :=
  same_secrets ws ws' /\ forall k, wallet_exists ws' k = wallet_exists ws k
    /\ wv_key (entry_get_raw ws' k) = wv_key (entry_get_raw ws k).

Lemma same_keys_refl ws : same_keys ws ws.
Proof. split; [apply same_secrets_refl|done]. Qed.

Lemma same_keys_safe ws ws' a : same_keys ws ws' -> safe_in ws a -> safe_in ws' a.
Proof.
  intros [Hss Hk]. assert (forall k, keyed ws k -> keyed ws' k) as Hkeyed.
  { intros k. unfold keyed. destruct (Hk k) as [-> Hv]. rewrite (secrets_valid _ _ Hss), (secrets_fetch _ _ _ Hss Hv). done. }
  destruct a; cbn; [apply Hkeyed|done|apply Hkeyed|]. unfold work_slot. by destruct (Hk account) as [-> ->].
Qed.

Lemma fetch_nonzero ws k prv : fetch ws k = Some (Some prv) -> wv_key (entry_get_raw ws k) <> 0.
Proof.
  unfold fetch. intros ([r|] & Hr & H)%bind_Some E; [|done]. unfold fetch_raw in Hr. destruct (valid_password ws); [|done].
  by rewrite E in Hr.
Qed.

Lemma work_put_ok account work ws :
  special_count <= account -> wv_key (entry_get_raw ws account) <> 0 ->
  exists ws', work_put account work ws = Some ws' /\ same_keys ws ws'.
Proof.
  intros Hsp Hne. unfold work_put. destruct (Z.eqb_spec (wv_key (entry_get_raw ws account)) 0) as [|_]; [done|].
  cbn [negb assert mbind option_bind]. eexists. split; [done|]. split; [by apply put_secrets; left|]. intros k.
  destruct (decide (k = account)) as [->|Hk].
  - rewrite get_put_eq. split; [|done]. apply eq_bool_prop_intro. rewrite !Is_true_true, !wallet_exists_iff. cbn.
    rewrite lookup_insert_eq. split; [|by eexists]. intros _. unfold entry_get_raw in Hne.
    destruct (ws_entries ws !! account); [by eexists|done].
  - rewrite get_put_ne by done. split; [|done]. apply eq_bool_prop_intro. rewrite !Is_true_true, !wallet_exists_iff. cbn.
    by rewrite lookup_insert_ne.
Qed.

(** *** An action ends *)

(** Nothing in [fx] asks for work. *)
Definition no_work (fx : list wallet_effect) : Prop := Forall (fun e => match e with work_ensure _ _ => False | _ => True end) fx.

(** The wallet is as before and the node consistent, and at most one thing is left to do
    besides what is sent out, work for an account with a key. *)
Definition action_ends (wn : wallet_node) (r : option (option block * wallet_node * list wallet_effect)) : Prop :=
  exists b wn' out fx, r = Some (b, wn', out ++ fx) /\ wn_wallet wn' = wn_wallet wn /\ node_ok (wn_node wn') /\ no_work out
    /\ (have_blocks (wn_node wn) = false -> have_blocks (wn_node wn') = false)
    /\ (fx = [] \/ exists account root, fx = [work_ensure account root] /\ special_count <= account
          /\ wv_key (entry_get_raw (wn_wallet wn) account) <> 0).

Lemma nothing_ends wn ids : node_ok (wn_node wn) -> action_ends wn (Some (None, WalletNode (wn_node wn) (wn_wallet wn) ids, [])).
Proof. intros Hok. eexists _, _, [], []. split_and!; try done; [constructor|by left]. Qed.

Lemma nothing_ends_same wn : node_ok (wn_node wn) -> action_ends wn (Some (None, wn, [])).
Proof. intros Hok. rewrite <- (wallet_node_eta wn) at 2. by apply nothing_ends. Qed.

Lemma submit_ends now clock account generate p r bal link prv pub w wn ids :
  let b := state_make account p r bal link prv pub w in
  node_ok (wn_node wn) -> undisturbed now (wn_node wn) (with_work b) ->
  special_count <= account -> wv_key (entry_get_raw (wn_wallet wn) account) <> 0 ->
  action_ends wn (submit now clock account generate (Some b) (WalletNode (wn_node wn) (wn_wallet wn) ids)).
Proof.
  intros b Hok [Hb Hn] Hsp Hk. cbn [submit]. destruct (with_work_state account p r bal link prv pub w) as (w' & Hww & Hw).
  fold b in Hww. rewrite <- Hww in Hw. cbn [wn_node wn_wallet wn_ids].
  destruct (process_active_queues now _ (wn_node wn) Hw) as (nd1 & Hnd & _ & _ & _ & _ & Hok1). rewrite Hnd. cbn [mbind option_bind].
  destruct (processor_flush_ok genesis_nonzero genesis_admitted clock nd1 (Hok1 Hok Hb) (Hn _ Hnd)) as (nd' & fx & -> & Hok' & Hnb).
  cbn [mbind option_bind]. eexists _, _, (processor_effect <$> fx), _. split_and!; [done..| |done|].
  - apply Forall_fmap, Forall_true. done.
  - destruct generate; [|by left]. right. by eexists _, _.
Qed.

Lemma submit_ends_same now clock account generate p r bal link prv pub w wn :
  let b := state_make account p r bal link prv pub w in
  node_ok (wn_node wn) -> undisturbed now (wn_node wn) (with_work b) ->
  special_count <= account -> wv_key (entry_get_raw (wn_wallet wn) account) <> 0 ->
  action_ends wn (submit now clock account generate (Some b) wn).
Proof.
  intros b Hok Hu Hsp Hk. pose proof (submit_ends now clock account generate p r bal link prv pub w wn (wn_ids wn) Hok Hu Hsp Hk) as He.
  by rewrite wallet_node_eta in He.
Qed.

Lemma change_ends now clock source_a representative_a generate wn :
  node_ok (wn_node wn) -> keyed (wn_wallet wn) source_a ->
  (forall b, mjoin (change_block_make (wn_wallet wn) (wn_store wn) source_a representative_a) = Some b ->
     undisturbed now (wn_node wn) (with_work b)) ->
  action_ends wn (change_action now clock source_a representative_a generate wn).
Proof.
  intros Hok [Hsp Hk]. unfold change_action, change_block_make.
  destruct (valid_password (wn_wallet wn)) eqn:Hv; [|intros _; by apply nothing_ends_same].
  destruct (wallet_exists (wn_wallet wn) source_a) eqn:He; [|intros _; by apply nothing_ends_same]. destruct (Hk eq_refl eq_refl) as [prv Hf].
  unfold latest. destruct (account_get (wn_store wn) source_a) as [i|] eqn:Hi; [|intros _; by apply nothing_ends_same]. cbn [negb andb].
  destruct (ai_head i =? 0); [intros _; by apply nothing_ends_same|]. cbn [negb mbind option_bind]. rewrite Hf. cbn [mbind option_bind].
  intros Hu. apply submit_ends_same; [done|by apply Hu|done|by eapply fetch_nonzero].
Qed.

Lemma send_ends now clock source_a account_a amount_a generate id wn :
  node_ok (wn_node wn) -> keyed (wn_wallet wn) source_a ->
  (forall b, cached_send id wn = None ->
     mjoin (send_block_make (wn_wallet wn) (wn_store wn) source_a account_a amount_a) = Some b ->
     undisturbed now (wn_node wn) (with_work b)) ->
  action_ends wn (send_action now clock source_a account_a amount_a generate id wn).
Proof.
  intros Hok [Hsp Hk]. destruct (reachable_consistent genesis_nonzero genesis_admitted _ (no_ledger _ Hok)) as [G [HI _]].
  unfold send_action. destruct (cached_send id wn) as [b|].
  { intros _. exists (Some b), wn, [republish_block b], []. split_and!; try done; [by repeat constructor|by left]. }
  unfold send_block_make. destruct (valid_password (wn_wallet wn)) eqn:Hv; [|intros _; by apply nothing_ends].
  destruct (wallet_exists (wn_wallet wn) source_a) eqn:He; [|intros _; by apply nothing_ends]. destruct (Hk eq_refl eq_refl) as [prv Hf].
  cbn [negb]. unfold account_balance, wn_store. destruct (account_get _ source_a) as [i|] eqn:Hi; [|intros _; by apply nothing_ends].
  destruct (_ && _); [|intros _; by apply nothing_ends]. cbn [mbind option_bind]. rewrite Hf. cbn [mbind option_bind].
  destruct (head_facts _ _ _ _ HI _ _ Hi) as (_ & _ & _ & _ & _ & _ & _ & _ & [rb Hrb] & _).
  rewrite (block_get_of _ _ _ _ HI), Hrb. cbn [mbind option_bind]. intros Hu.
  apply submit_ends; [done|by apply Hu|done|by eapply fetch_nonzero].
Qed.

(** The destination of a stored send; only sends are pending. *)
Lemma receivable_destination l send :
  reachable l -> receivable send -> block_exists (l_store l) (hash send) = true ->
  exists account, block_destination (l_store l) send = Some account
    /\ forall pnd, pending_get (l_store l) (PendingKey account (hash send)) = Some pnd -> special_count <= account.
Proof.
  intros [G [HI _]]%(reachable_consistent genesis_nonzero genesis_admitted) [Hadm Hd] He. destruct send as [b| | | |b]; try done; [by eexists|].
  rewrite block_exists_blocks in He. destruct (blocks (l_store l) !! hash (State b)) as [[b' succ]|] eqn:Hs; [|done].
  assert (contents (blocks (l_store l)) !! hash (State b) = Some b') as Hc by by rewrite contents_lookup, Hs.
  destruct (stored_twin _ _ _ _ HI Hadm Hc) as (sb & -> & Hsb). pose proof (is_send_of _ _ _ _ HI _ _ Hc) as Hi.
  cbn [block_destination]. assert (is_send (l_store l) b = is_send (l_store l) sb) as -> by (unfold is_send; by rewrite Hsb).
  rewrite Hi. cbn [mbind option_bind]. eexists. split; [done|]. intros pnd Hp. destruct (li_pending HI _ _ Hp) as [Hso _].
  cbn [pk_hash] in Hso. by rewrite Hso.
Qed.

Lemma receive_ends now clock send representative_a amount_a generate wn :
  node_ok (wn_node wn) -> receivable send ->
  (forall b, mjoin (receive_block_make (wn_wallet wn) (wn_store wn) send representative_a amount_a) = Some b ->
     undisturbed now (wn_node wn) (with_work b)) ->
  action_ends wn (receive_action now clock send representative_a amount_a generate wn).
Proof.
  intros Hok Hrc. destruct (reachable_consistent genesis_nonzero genesis_admitted _ (no_ledger _ Hok)) as [G [HI _]].
  unfold receive_action, receive_block_make. destruct (negb _); [intros _; by apply nothing_ends_same|].
  destruct (block_exists (wn_store wn) (hash send)) eqn:He; [|intros _; by apply nothing_ends_same].
  destruct (receivable_destination _ _ (no_ledger _ Hok) Hrc He) as (account & Hd & Hsp). unfold wn_store in *.
  rewrite Hd. cbn [negb mbind option_bind]. destruct (pending_get _ _) as [pnd|]; [|intros _; by apply nothing_ends_same].
  specialize (Hsp pnd eq_refl). destruct (fetch_total (wn_wallet wn) account) as [[prv|] Hf]; rewrite Hf; cbn [mbind option_bind];
    [|intros _; by apply nothing_ends_same].
  assert (wv_key (entry_get_raw (wn_wallet wn) account) <> 0) as Hne by by eapply fetch_nonzero.
  destruct (account_get _ account) as [i|] eqn:Hi.
  - destruct (head_facts _ _ _ _ HI _ _ Hi) as (_ & _ & _ & _ & _ & _ & _ & _ & [rb Hrb] & _).
    rewrite (block_get_of _ _ _ _ HI), Hrb. cbn [mbind option_bind]. intros Hu.
    apply submit_ends_same; [done|by apply Hu|done|done].
  - cbn [mbind option_bind]. intros Hu. apply submit_ends_same; [done|by apply Hu|done|done].
Qed.

Lemma work_ends account root_a s ws :
  work_slot ws account -> exists ws', work_cache_blocking account root_a s ws = Some ws' /\ same_keys ws ws'.
Proof.
  intros [Hsp Hk]. unfold work_cache_blocking. destruct (wallet_exists ws account) eqn:He; [|exists ws; split; [done|apply same_keys_refl]].
  unfold work_update. rewrite generated_valid, He. cbn [negb assert mbind option_bind].
  destruct (_ =? _); [|exists ws; split; [done|apply same_keys_refl]]. apply work_put_ok; auto.
Qed.

(** *** All actions end *)

(** An action other than work may queue work. *)
Definition action_turns (a : wallet_action) : nat := match a with act_work _ _ _ => 1 | _ => 2 end.
Definition queue_turns (q : list (Z * wallet_action)) : nat := sum_list (action_turns ∘ snd <$> q).

Lemma queue_turns_insert p a q : queue_turns (queue_insert p a q) = (action_turns a + queue_turns q)%nat.
Proof.
  unfold queue_turns. induction q as [|[p' a'] q IH]; [done|]. cbn [queue_insert]. destruct (p' <? p); [done|]. cbn in *. lia.
Qed.

(** The state after an action: fewer turns are left, and what was safe still is. *)
Record action_done (a : wallet_action) (w w' : wallets) : Prop := {
  ad_node : node_ok (wl_node w');
  ad_idle : have_blocks (wl_node w) = false -> have_blocks (wl_node w') = false;
  ad_safe a' : safe_action w a' -> safe_action w' a';
  ad_queue e : e ∈ wl_actions w' -> e ∈ wl_actions w \/ safe_action w' (snd e);
  ad_turns : (queue_turns (wl_actions w') < action_turns a + queue_turns (wl_actions w))%nat
}.

Lemma after_sent id out fx w :
  no_work out -> after_action id (out ++ fx) w = let '(w', out') := after_action id fx w in (w', out ++ out').
Proof.
  intros Ho. induction out as [|e out IH]; [by cbn; destruct (after_action id fx w)|].
  apply Forall_cons in Ho as [He Ho]. specialize (IH Ho).
  destruct e; [|done|]; cbn; rewrite IH; by destruct (after_action id fx w).
Qed.

Lemma finish_action_ok id ws r w a :
  wl_items w !! id = Some ws -> action_turns a = 2%nat -> action_ends (wallet_in ws w) r ->
  exists x b w' out, r = Some x /\ finish_action id x w = (b, w', out) /\ action_done a w w'.
Proof.
  intros Hi Ha (b & wn' & out & fx & -> & Hw & Hok & Hout & Hidle & Hfx). exists (b, wn', out ++ fx), b. unfold finish_action.
  rewrite (after_sent id out fx _ Hout).
  set (w1 := Wallets _ _ _ _). assert (wl_items w1 = wl_items w) as Hi1 by (cbn; rewrite Hw; by apply insert_id).
  assert (forall w2, wl_items w2 = wl_items w -> forall a', safe_action w a' -> safe_action w2 a') as Hsafe.
  { intros w2 H1 a' (ws' & ? & ?). exists ws'. by rewrite H1. }
  destruct Hfx as [->|(account & root & -> & Hsp & Hk)]; cbn [after_action]; eexists _, _; (split; [done|split; [done|]]).
  { split; [done|done|by apply Hsafe|by left|rewrite Ha; change (wl_actions w1) with (wl_actions w); lia]. }
  split; [done|done|by apply Hsafe| |rewrite Ha; cbn [wl_actions queue_wallet_action set_actions]; rewrite queue_turns_insert; cbn [action_turns]; change (wl_actions w1) with (wl_actions w); lia].
  intros e [->|He]%queue_insert_elem; [|by left]. right. exists ws. cbn [snd action_wallet].
  split; [cbn; rewrite Hw; by apply lookup_insert_eq|]. by split.
Qed.

Lemma run_action_ok now clock a w :
  node_ok (wl_node w) -> safe_action w a -> (forall b, composed w a = Some b -> undisturbed now (wl_node w) (with_work b)) ->
  exists b w' out, run_action now clock a w = Some (b, w', out) /\ action_done a w w'.
Proof.
  intros Hok (ws & Hi & Hs) Hu. unfold composed in Hu. rewrite Hi in Hu. cbn [mbind option_bind] in Hu.
  destruct a as [id so re ge|id send re am ge|id so ac am ge si|id ac ro]; cbn in Hi, Hs; cbn [run_action];
    rewrite Hi; cbn [mbind option_bind].
  - destruct (finish_action_ok id ws _ w (act_change id so re ge) Hi eq_refl (change_ends now clock so re ge (wallet_in ws w) Hok Hs Hu))
      as (x & b & w' & out & -> & E & Hd). cbn [mbind option_bind]. rewrite E. eauto.
  - destruct (finish_action_ok id ws _ w (act_receive id send re am ge) Hi eq_refl
      (receive_ends now clock send re am ge (wallet_in ws w) Hok Hs Hu)) as (x & b & w' & out & -> & E & Hd).
    cbn [mbind option_bind]. rewrite E. eauto.
  - destruct (finish_action_ok id ws (send_action now clock so ac am ge si (wallet_in ws w)) w (act_send id so ac am ge si) Hi eq_refl)
      as (x & b & w' & out & -> & E & Hd); [|cbn [mbind option_bind]; rewrite E; eauto].
    apply send_ends; [done..|]. intros b Hc Hb. apply Hu. by rewrite Hc.
  - destruct (work_ends ac ro (l_store (nd_ledger (wl_node w))) ws Hs) as (ws' & -> & Hk). cbn [mbind option_bind].
    eexists _, _, _. split; [done|]. split; [done|done| |by left|cbn [wl_actions set_items action_turns]; lia].
    intros a' (ws1 & H1 & H2). unfold safe_action. cbn. destruct (decide (action_wallet a' = id)) as [E|Hne].
    + rewrite E in H1 |- *. rewrite lookup_insert_eq. exists ws'. split; [done|]. assert (ws1 = ws) as -> by congruence. by eapply same_keys_safe.
    + rewrite lookup_insert_ne by done. by exists ws1.
Qed.

(** The queue of a consistent node: every action finds its wallet and the key that it
    needs. *)
Record queue_ok (w : wallets) : Prop := {
  qo_node : node_ok (wl_node w);
  qo_safe e : e ∈ wl_actions w -> safe_action w (snd e)
}.

(** The block that the next action makes, if any, is undisturbed, and so are those of the
    turns after it. *)
Definition turn_undisturbed (now : Z) (w : wallets) : Prop :=
  match wl_actions w with
  | [] => True
  | (_, a) :: _ => forall b, composed w a = Some b -> undisturbed now (wl_node w) (with_work b)
  end.
Fixpoint run_undisturbed (times : list (Z * (nat -> Z))) (w : wallets) : Prop :=
  match times with
  | [] => True
  | turn :: times =>
    turn_undisturbed (fst turn) w
    /\ match do_wallet_action turn w with Some (w', _) => run_undisturbed times w' | None => True end
  end.

Lemma do_wallet_action_ok turn w :
  queue_ok w -> turn_undisturbed (fst turn) w ->
  exists w' out, do_wallet_action turn w = Some (w', out) /\ queue_ok w'
    /\ (have_blocks (wl_node w) = false -> have_blocks (wl_node w') = false)
    /\ (queue_turns (wl_actions w') <= queue_turns (wl_actions w) - 1)%nat.
Proof.
  intros [Hr Hs] Hu. unfold do_wallet_action, turn_undisturbed in *. destruct (wl_actions w) as [|[p a] q] eqn:Hq.
  { exists w, []. split_and!; [done| |done|rewrite Hq; cbn; lia]. split; [done|]. intros e. rewrite Hq. by intros ?%not_elem_of_nil. }
  destruct (run_action_ok (fst turn) (snd turn) a (set_actions q w)) as (b & w' & out & -> & [Hn Hidle Hsafe Hqu Ht]);
    [done|apply (Hs (p, a)); by left|done|].
  cbn [mbind option_bind]. exists w', out. split; [done|]. split_and!; [|done|cbn in *; unfold queue_turns in *; cbn; lia].
  split; [done|]. intros e [He|He]%Hqu; [|done]. apply Hsafe, (Hs e). by right.
Qed.

(** C22. The thread that serves the wallet actions works off its queue. As long as each action
    finds its wallet, and the key of its account in it, no action fails an assertion: the
    blocks they make go through the block processor, which changes the ledger under the
    actions that follow. After at most two turns for each action the queue is empty, the
    node consistent, and nothing is left to the block processor if it had nothing to do
    before. The blocks made are assumed to be among the submitted ones, and the processor
    not to meet a block that names the head of another account as its predecessor. *)
Theorem wallet_queue_drains times w :
  queue_ok w -> run_undisturbed times w -> (2 * length (wl_actions w) <= length times)%nat ->
  exists w' out, do_wallet_actions times w = Some (w', out) /\ wl_actions w' = [] /\ node_ok (wl_node w')
    /\ (have_blocks (wl_node w) = false -> have_blocks (wl_node w') = false).
Proof.
  intros Hok Hu Hn. assert (queue_turns (wl_actions w) <= length times)%nat as Ht.
  { etrans; [|done]. unfold queue_turns. clear. induction (wl_actions w) as [|[p a] q IH]; [done|]. cbn. destruct a; cbn; lia. }
  clear Hn. revert w Hok Hu Ht. induction times as [|turn times IH]; intros w Hok Hu Ht; cbn [do_wallet_actions].
  - exists w, []. split_and!; [done| |apply Hok|done]. destruct (wl_actions w) as [|[p a] q]; [done|]. unfold queue_turns in Ht. cbn in Ht.
    destruct a; cbn in Ht; lia.
  - destruct Hu as [Hu1 Hu2]. destruct (do_wallet_action_ok turn w Hok Hu1) as (w1 & out1 & E & Hok1 & Hi1 & Ht1).
    rewrite E in Hu2 |- *. cbn [mbind option_bind].
    destruct (IH w1 Hok1 Hu2) as (w2 & out2 & -> & Hq2 & Hok2 & Hi2); [cbn in Ht; lia|]. cbn [mbind option_bind].
    eexists _, _. split_and!; [done..|auto].
Qed.
End queue.
