(* ===== verification/TestNet.v ===== *)
(** * TestNet: a small network

    A concrete environment (a digest that adds up bytes, signatures that are sums) and a few
    blocks, on which the hypotheses of the theorems hold and the definitions can be
    evaluated. *)

From stdpp Require Import base list option tactics gmap.
From Stdlib Require Import ZArith Lia.
From S2P Require Import Prelude Blocks Common Stats Store Tables Visitors Ledger Rollback Chain.
From S2P Require Import Balance LedgerInv Queries Process Accept Unwind RollbackInv Determined.
From S2P Require Import Genesis Runs Votes Elections Caches Work Node NodeInv.
#[local] Open Scope Z_scope.

Module TestNet.
Definition digest (s : stream) : Z :=
  fold_left (fun acc b => 3 * acc + Z_of_byte b) s 0.

Definition signature_of (key message : Z) : Z := (key + message) mod 2 ^ 512.

#[export] Instance env : Env := {|
  blake2b n s := be_bytes n (digest s);
  ed25519_sign_open message key signature := if signature =? signature_of key message then 0 else 1;
  ed25519_sign message _ key := signature_of key message;
  genesis_account := 1000;
  genesis_signature := 0;
  genesis_work := 234;
  seconds_since_epoch n := Z.of_nat n
|}.

#[export] Instance work_config : WorkConfig := true.

Definition work_for (r : Z) : Z :=
  default 0 (List.find (fun w => negb (work_validate r w)) (Z.of_nat <$> seq 0 256)).

(** Blocks signed by an account, with work. *)
Definition send_by (a p destination balance : Z) : block :=
  let h := SendHashables p destination balance in
  Send (SendBlock h (signature_of a (hash (Send (SendBlock h 0 0)))) (work_for p)).
Definition receive_by (a p source : Z) : block :=
  let h := ReceiveHashables p source in
  Receive (ReceiveBlock h (signature_of a (hash (Receive (ReceiveBlock h 0 0)))) (work_for p)).
Definition open_by (a source representative : Z) : block :=
  let h := OpenHashables source representative a in
  Open (OpenBlock h (signature_of a (hash (Open (OpenBlock h 0 0)))) (work_for a)).
Definition change_by (a p representative : Z) : block :=
  let h := ChangeHashables p representative in
  Change (ChangeBlock h (signature_of a (hash (Change (ChangeBlock h 0 0)))) (work_for p)).
Definition state_by (a p representative balance link : Z) : block :=
  let h := StateHashables a p representative balance link in
  State (StateBlock h (signature_of a (hash (State (StateBlock h 0 0)))) (work_for (if p =? 0 then a else p))).

(** The genesis account sends 100, account 2000 opens with it and sends 30 back. *)
Definition send_1 : block := Eval vm_compute in
  send_by 1000 (hash genesis_block) 2000 (genesis_amount - 100).
Definition open_1 : block := Eval vm_compute in open_by 2000 (hash send_1) 3000.
Definition state_1 : block := Eval vm_compute in state_by 2000 (hash open_1) 2000 70 1000.
Definition receive_1 : block := Eval vm_compute in receive_by 1000 (hash send_1) (hash state_1).
Definition change_1 : block := Eval vm_compute in change_by 1000 (hash receive_1) 4000.
(** Not signed. *)
Definition send_2 : block := Eval vm_compute in Send (SendBlock (SendHashables (hash genesis_block) 2000 0) 0 0).
(** A fork of the first send. *)
Definition send_3 : block := Eval vm_compute in
  send_by 1000 (hash genesis_block) 2000 (genesis_amount - 500).
(** Account 2000 names a block of the genesis account as its predecessor. *)
Definition state_2 : block := Eval vm_compute in state_by 2000 (hash send_1) 2000 50 1000.

(** The genesis account sends 100 with a state block. *)
Definition state_3 : block := Eval vm_compute in state_by 1000 (hash genesis_block) 1000 (genesis_amount - 100) 2000.
(** Account 2000 opens with a state block. *)
Definition state_4 : block := Eval vm_compute in state_by 2000 0 3000 100 (hash send_1).

Definition blocks_1 : list block :=
  [genesis_block; send_1; open_1; state_1; receive_1; change_1; send_2; send_3; state_2; state_3; state_4].

#[export] Instance traffic : Traffic := fun b => b ∈ blocks_1.

Definition hash_ok_b (h : Z) : bool := negb (h =? 0) && negb (h =? 1) && negb (h =? genesis_account).

Lemma all_wf : Forall wf_block blocks_1.
Proof. apply (bool_decide_unpack _). vm_compute. exact I. Qed.

Lemma all_hash_ok : Forall (fun b => hash_ok_b (hash b) = true) blocks_1.
Proof. apply (bool_decide_unpack _). vm_compute. exact I. Qed.

Lemma hashes_distinct : NoDup (hash <$> blocks_1).
Proof. apply (bool_decide_unpack _). vm_compute. exact I. Qed.

#[export] Instance traffic_laws : TrafficLaws.
Proof.
  split.
  - intros b Hb. by eapply (proj1 (Forall_forall _ _)); [apply all_wf|].
  - intros b Hb. pose proof (proj1 (Forall_forall _ _) all_hash_ok b Hb) as Hh. unfold hash_ok_b in Hh.
    rewrite !andb_true_iff, !negb_true_iff, !Z.eqb_neq in Hh. unfold hash_ok. naive_solver.
  - intros b1 b2 [i1 H1]%list_elem_of_lookup [i2 H2]%list_elem_of_lookup Hh.
    assert (i1 = i2) as ->; [|congruence]. pose proof hashes_distinct as Hd. rewrite NoDup_alt in Hd.
    apply (Hd i1 i2 (hash b1)); rewrite list_lookup_fmap; [by rewrite H1|rewrite H2; cbn; congruence].
Qed.

Definition genesis_nonzero : genesis_account <> 0.
Proof. done. Defined.
Definition genesis_admitted : admitted genesis_block.
Proof. by left. Defined.

(** ** A run *)

Definition ledger_0 : ledger :=
  Ledger (genesis_store 0 empty_store) ∅ 0 ∅ 0 false.

(** The ledger and the code after one block. *)
Definition after (b : block) (l : ledger) : ledger := default l (fst <$> process b l).
Definition result (b : block) (l : ledger) : process_return :=
  default (reject old) (snd <$> process b l).

Lemma after_result b l : is_Some (process b l) -> process b l = Some (after b l, result b l).
Proof. intros [[l' r] H]. unfold after, result. by rewrite H. Qed.

Definition ledger_1 : ledger := after send_1 ledger_0.
Definition ledger_2 : ledger := after open_1 ledger_1.
Definition ledger_3 : ledger := after state_1 ledger_2.
Definition ledger_4 : ledger := after receive_1 ledger_3.
Definition ledger_5 : ledger := after change_1 ledger_4.

Lemma admitted_send_1 : admitted send_1. Proof. right. left. Qed.
Lemma admitted_open_1 : admitted open_1. Proof. right. right. left. Qed.
Lemma admitted_state_1 : admitted state_1. Proof. do 3 right. left. Qed.
Lemma admitted_receive_1 : admitted receive_1. Proof. do 4 right. left. Qed.
Lemma admitted_change_1 : admitted change_1. Proof. do 5 right. left. Qed.
Lemma admitted_send_2 : admitted send_2. Proof. do 6 right. left. Qed.
Lemma admitted_send_3 : admitted send_3. Proof. do 7 right. left. Qed.
Lemma admitted_state_2 : admitted state_2. Proof. do 8 right. left. Qed.
Lemma admitted_state_3 : admitted state_3. Proof. do 9 right. left. Qed.
Lemma admitted_state_4 : admitted state_4. Proof. do 10 right. left. Qed.

Lemma reachable_0 : reachable ledger_0.
Proof. by apply (reachable_genesis 0 empty_store). Qed.

Lemma reachable_after b l : reachable l -> admitted b -> is_Some (process b l) -> reachable (after b l).
Proof. intros Hl Hb Hp. by eapply reachable_process; [..|apply after_result]. Qed.

Definition progresses (b : block) (l : ledger) : bool :=
  match process b l with Some (_, r) => bool_decide (pr_code r = progress) | None => false end.

Lemma progresses_Some b l : progresses b l = true -> is_Some (process b l) /\ pr_code (result b l) = progress.
Proof.
  unfold progresses, result. destruct (process b l) as [[l' r]|]; [|done]. cbn.
  rewrite bool_decide_eq_true. eauto.
Qed.

Lemma reachable_progress b l : reachable l -> admitted b -> progresses b l = true -> reachable (after b l).
Proof. intros Hl Hb [Hp _]%progresses_Some. by apply reachable_after. Qed.

Lemma reachable_1 : reachable ledger_1.
Proof. apply reachable_progress; [apply reachable_0|apply admitted_send_1|by vm_compute]. Qed.
Lemma reachable_2 : reachable ledger_2.
Proof. apply reachable_progress; [apply reachable_1|apply admitted_open_1|by vm_compute]. Qed.
Lemma reachable_3 : reachable ledger_3.
Proof. apply reachable_progress; [apply reachable_2|apply admitted_state_1|by vm_compute]. Qed.
Lemma reachable_4 : reachable ledger_4.
Proof. apply reachable_progress; [apply reachable_3|apply admitted_receive_1|by vm_compute]. Qed.
Lemma reachable_5 : reachable ledger_5.
Proof. apply reachable_progress; [apply reachable_4|apply admitted_change_1|by vm_compute]. Qed.
End TestNet.

(** * A node of the small network

    The parameters of the node on the network of [TestNet] (orders of iteration, limits),
    votes, and nodes in a few states. *)

Module NodeNet.
Import TestNet.

#[export] Instance order : HashOrder := {| map_order _ m := map_to_list m; totals_order t := t |}.
#[export] Instance order_laws : HashOrderLaws.
Proof. by split. Qed.

(** The least online weight is 100, the quorum half of the stake. *)
#[export] Instance config : NodeConfig := {|
  online_weight_minimum := 100;
  online_weight_quorum := 50;
  test_network := true;
  not_an_account := 1
|}.

Definition vote_by (a sequence : Z) (b : block) : vote := vote_make a a sequence b.
Definition vote_1 : vote := Eval vm_compute in vote_by 1000 1 send_1.
Definition vote_2 : vote := Eval vm_compute in vote_by 2000 1 send_3.
Definition vote_3 : vote := Eval vm_compute in vote_by 1000 5 send_1.

Lemma vote_1_valid : vote_validate vote_1 = false. Proof. by vm_compute. Qed.
Lemma vote_2_valid : vote_validate vote_2 = false. Proof. by vm_compute. Qed.
Lemma vote_3_valid : vote_validate vote_3 = false. Proof. by vm_compute. Qed.

Lemma vote_1_wf : vote_wf vote_1. Proof. apply (bool_decide_unpack _). by vm_compute. Qed.
Lemma vote_3_wf : vote_wf vote_3. Proof. apply (bool_decide_unpack _). by vm_compute. Qed.

(** One block waits in memory and one in the database; the last vote of the genesis account
    has sequence number 5. *)
Definition caches_1 : caches :=
  Caches ∅ {[1000 := vote_3]} {[hash send_1 := [serialize_block open_1]]} [(hash open_1, state_1)].

Lemma wf_1 b : b ∈ blocks_1 -> wf_block b.
Proof. apply Forall_forall, all_wf. Qed.

Lemma caches_empty_ok : caches_ok caches_empty.
Proof.
  split; cbn.
  - intros h v. unfold dups. rewrite lookup_empty. by intros ?%not_elem_of_nil.
  - by intros h b ?%not_elem_of_nil.
  - by intros a v ?%lookup_empty_Some.
  - by intros a v ?%lookup_empty_Some.
Qed.

Lemma pair_elem {A} (h k : Z) (b c : A) : (h, b) ∈ [(k, c)] -> h = k /\ b = c.
Proof. by intros [= -> ->]%list_elem_of_singleton. Qed.

Lemma caches_1_ok : caches_ok caches_1.
Proof.
  split; cbn.
  - intros h v. unfold dups. destruct (decide (h = hash send_1)) as [->|Hne].
    + rewrite lookup_singleton_eq. intros ->%list_elem_of_singleton. exists open_1. split; [done|].
      apply wf_1. right. right. left.
    + rewrite lookup_singleton_ne by done. by intros ?%not_elem_of_nil.
  - intros h b [-> ->]%pair_elem. apply wf_1. do 3 right. left.
  - by intros a v ?%lookup_empty_Some.
  - intros a v [_ <-]%lookup_singleton_Some. apply vote_3_wf.
Qed.

Lemma caches_1_waiting h b : waiting caches_1 h b ->
  (h = hash send_1 /\ b = open_1) \/ (h = hash open_1 /\ b = state_1).
Proof.
  intros [He|[Hv Hb]]%waiting_iff; [|..|apply caches_1_ok].
  - apply pair_elem in He. auto.
  - left. cbn in Hv. unfold dups in Hv. destruct (decide (h = hash send_1)) as [->|Hne].
    + rewrite lookup_singleton_eq in Hv. apply list_elem_of_singleton in Hv. split; [done|].
      apply serialize_block_inj; [done| |done]. apply wf_1. right. right. left.
    + rewrite lookup_singleton_ne in Hv by done. by apply not_elem_of_nil in Hv.
Qed.

Lemma caches_1_open : waiting caches_1 (hash send_1) open_1.
Proof.
  apply waiting_iff; [apply caches_1_ok|]. right. cbn. unfold dups. rewrite lookup_singleton_eq.
  split; [by apply list_elem_of_singleton|]. apply (wf_1 open_1). right. right. left.
Qed.

Definition no_elections : active_transactions := ActiveTransactions ∅ [].
Lemma no_elections_ok : active_ok no_elections.
Proof. intros r cf. unfold no_elections. cbn. by rewrite lookup_empty. Qed.

(** An election between the two sends, started with the one in the ledger. *)
Definition elections_1 : active_transactions := snd (start (send_1, Some send_3) no_elections).
Lemma elections_1_ok : active_ok elections_1.
Proof. apply start_ok, no_elections_ok. Qed.

Definition node_with (l : ledger) (blocks forced : list block) : node :=
  Node l caches_1 elections_1 blocks forced [] [].

Definition queueable_b (b : block) : bool := negb (work_validate (root b) (block_work b)).
Lemma queueable_1 b : admitted b -> queueable_b b = true -> queueable b.
Proof. unfold queueable_b, queueable. intros Ha Hw. apply negb_true_iff in Hw. exact (conj Ha Hw). Qed.

Lemma node_with_ok l blocks forced :
  reachable l -> Forall queueable blocks -> Forall (fun b => queueable b /\ root b <> genesis_account) forced ->
  node_ok (node_with l blocks forced).
Proof.
  intros Hl Hb Hf. split; cbn; [done|apply caches_1_ok|apply elections_1_ok|done..|].
  intros h b [[_ ->]|[_ ->]]%caches_1_waiting; apply queueable_1.
  - apply admitted_open_1.
  - by vm_compute.
  - apply admitted_state_1.
  - by vm_compute.
Qed.
End NodeNet.
