(* ===== verification/Witnesses.v ===== *)
(** * Witnesses: the theorems on the runs at work

    Each theorem of [Runs] is applied on the small network of [TestNet], at a ledger and
    blocks where its hypotheses hold. *)

From stdpp Require Import base list option tactics gmap.
From Stdlib Require Import ZArith Lia.
From S2P Require Import Prelude Blocks Common Stats Store Tables Visitors Ledger Rollback Chain.
From S2P Require Import Balance LedgerInv Queries Process Accept Unwind RollbackInv Determined.
From S2P Require Import Genesis Runs TestNet.
#[local] Open Scope Z_scope.

Module Witnesses.
Import TestNet.

(** An open block for a pending send is accepted. *)
Lemma process_total_witness :
  reachable ledger_1 /\ admitted open_1
  /\ exists l' r, process open_1 ledger_1 = Some (l', r)
    /\ (pr_code r = progress <-> acceptable (l_store ledger_1) open_1)
    /\ (pr_code r = progress -> block_get (l_store l') (hash open_1) = Some open_1)
    /\ (pr_code r <> progress -> l_store l' = l_store ledger_1).
Proof.
  split; [apply reachable_1|]. split; [apply admitted_open_1|].
  apply (process_total genesis_nonzero genesis_admitted ledger_1 open_1 reachable_1 admitted_open_1).
Defined.

(** Rolling back the first send takes the whole second chain with it. *)
Lemma rollback_total_witness :
  block_exists (l_store ledger_4) (hash send_1) = true /\ hash send_1 <> hash genesis_block
  /\ exists l', rollback (hash send_1) ledger_4 = Some l' /\ block_exists (l_store l') (hash send_1) = false
    /\ (forall k b, block_get (l_store l') k = Some b -> block_get (l_store ledger_4) k = Some b)
    /\ (forall k, block_exists (l_store ledger_4) k = true -> block_exists (l_store l') k = false ->
          depends (contents (blocks (l_store ledger_4))) k (hash send_1)).
Proof.
  split; [by vm_compute|]. split; [by vm_compute|].
  apply (rollback_total genesis_nonzero genesis_admitted ledger_4 (hash send_1) reachable_4); by vm_compute.
Defined.

Lemma stored_types_witness :
  (forall h b, block_get (l_store ledger_3) h = Some b -> hash b = h /\ wf_block b)
  /\ (forall a i, account_get (l_store ledger_3) a = Some i ->
        in_width 128 (ai_balance i) /\ in_width 64 (ai_block_count i)
        /\ block_exists (l_store ledger_3) (ai_head i) = true /\ block_exists (l_store ledger_3) (ai_open_block i) = true
        /\ block_exists (l_store ledger_3) (ai_rep_block i) = true)
  /\ (forall k p, pending_get (l_store ledger_3) k = Some p ->
        in_width 128 (pi_amount p) /\ block_exists (l_store ledger_3) (pk_hash k) = true
        /\ account_exists (l_store ledger_3) (pi_source p) = true)
  /\ (forall r, in_width 128 (representation_get (l_store ledger_3) r)).
Proof. exact (stored_types genesis_nonzero genesis_admitted ledger_3 reachable_3). Defined.

Lemma supply_conserved_witness : reachable ledger_3 /\ supply (l_store ledger_3) = genesis_amount.
Proof.
  split; [apply reachable_3|]. apply (supply_conserved genesis_nonzero genesis_admitted ledger_3 reachable_3).
Defined.

Lemma weights_exact_witness :
  reachable ledger_3 /\ representation_get (l_store ledger_3) 2000 = weight_of (l_store ledger_3) 2000.
Proof.
  split; [apply reachable_3|]. apply (weights_exact genesis_nonzero genesis_admitted ledger_3 2000 reachable_3).
Defined.

(** A ledger that accepted the state block and took it back, and one that never saw it. *)
Definition ledger_2' : ledger := default ledger_3 (rollback (hash state_1) ledger_3).

Lemma reachable_2' : reachable ledger_2'.
Proof.
  eapply (reachable_rollback ledger_3 (hash state_1)); [apply reachable_3|by vm_compute|by vm_compute|].
  unfold ledger_2'. destruct (rollback (hash state_1) ledger_3) as [l|] eqn:E; [done|].
  exfalso. revert E. by vm_compute.
Qed.

Lemma ledgers_converge_witness :
  (forall h, block_get (l_store ledger_2) h = block_get (l_store ledger_2') h)
  /\ same_ledger (l_store ledger_2) (l_store ledger_2').
Proof.
  assert (tables (l_store ledger_2) = tables (l_store ledger_2')) as Ht by by vm_compute.
  assert (forall h, block_get (l_store ledger_2) h = block_get (l_store ledger_2') h) as Hb
    by (intros h; by rewrite Ht).
  split; [done|].
  apply (ledgers_converge genesis_nonzero genesis_admitted ledger_2 ledger_2' reachable_2 reachable_2' Hb).
Defined.

Lemma process_rollback_witness :
  process receive_1 ledger_3 = Some (ledger_4, result receive_1 ledger_3)
  /\ pr_code (result receive_1 ledger_3) = progress
  /\ exists l'', rollback (hash receive_1) ledger_4 = Some l''
     /\ same_ledger (l_store ledger_3) (l_store l'').
Proof.
  assert (progresses receive_1 ledger_3 = true) as Hp by by vm_compute.
  apply progresses_Some in Hp as [Hp Hr]. apply after_result in Hp. split_and!; [done..|].
  apply (process_rollback genesis_nonzero genesis_admitted ledger_3 receive_1 ledger_4 _ reachable_3
           admitted_receive_1 Hp Hr).
Defined.

Definition info_2000 : account_info := default (AccountInfo 0 0 0 0 0 0) (account_get (l_store ledger_3) 2000).

Lemma account_info_correct_witness :
  account_get (l_store ledger_3) 2000 = Some info_2000
  /\ balance (l_store ledger_3) (ai_head info_2000) = Some 70
  /\ ai_head info_2000 = hash state_1.
Proof.
  assert (account_get (l_store ledger_3) 2000 = Some info_2000) as Hi by by vm_compute.
  split; [done|]. split; [|by vm_compute].
  apply (account_info_correct genesis_nonzero genesis_admitted ledger_3 2000 info_2000 reachable_3 Hi).
Defined.

Lemma block_account_witness :
  block_get (l_store ledger_3) (hash state_1) = Some state_1
  /\ exists a i, account (l_store ledger_3) (hash state_1) = Some a
    /\ account_get (l_store ledger_3) a = Some i
    /\ (previous state_1 = 0 -> ai_open_block i = hash state_1)
    /\ (previous state_1 <> 0 -> account (l_store ledger_3) (previous state_1) = Some a
          /\ block_successor (l_store ledger_3) (previous state_1) = hash state_1).
Proof.
  assert (block_get (l_store ledger_3) (hash state_1) = Some state_1) as Hb by by vm_compute.
  split; [done|]. apply (block_account genesis_nonzero genesis_admitted ledger_3 _ _ reachable_3 Hb).
Defined.

Lemma received_once_witness :
  block_source (l_store ledger_4) open_1 = Some (hash send_1) /\ hash open_1 = hash open_1.
Proof.
  split; [by vm_compute|].
  apply (received_once genesis_nonzero genesis_admitted ledger_4 (hash open_1) open_1 (hash open_1) open_1
           (hash send_1) reachable_4); by vm_compute.
Defined.

Lemma received_amount_witness :
  exists xb y before after, block_get (l_store ledger_4) (hash state_1) = Some xb
    /\ sends (l_store ledger_4) xb
    /\ block_destination (l_store ledger_4) xb = account (l_store ledger_4) (hash receive_1)
    /\ amount (l_store ledger_4) (hash state_1) = Some y
    /\ balance (l_store ledger_4) (previous receive_1) = Some before
    /\ balance (l_store ledger_4) (hash receive_1) = Some after /\ after = before + y.
Proof.
  apply (received_amount genesis_nonzero genesis_admitted ledger_4 (hash receive_1) receive_1
           (hash state_1) reachable_4); by vm_compute.
Defined.

(** The first send is pending before account 2000 opens. *)
Lemma pending_unreceived_witness :
  block_get (l_store ledger_1) (hash send_1) = Some send_1
  /\ sends (l_store ledger_1) send_1 /\ block_destination (l_store ledger_1) send_1 = Some 2000
  /\ ~ received (l_store ledger_1) (hash send_1).
Proof.
  split; [by vm_compute|].
  apply (pending_unreceived genesis_nonzero genesis_admitted ledger_1 (hash send_1) send_1 2000 reachable_1);
    [by vm_compute|]. exists (PendingInfo 1000 100). by vm_compute.
Defined.

Lemma checksum_heads_witness :
  reachable ledger_3
  /\ checksum (l_store ledger_3) = Some (map_lxor (fun _ i => ai_head i) (accounts (l_store ledger_3))).
Proof.
  split; [apply reachable_3|]. apply (checksum_heads genesis_nonzero genesis_admitted ledger_3 reachable_3).
Defined.
End Witnesses.
