(* ===== verification/NodeWitnesses.v ===== *)
(** * NodeWitnesses: the theorems on the node at work

    The theorems of [Votes], [Elections], [OnlineReps], [Caches], [Work], [Messages],
    [NodeInv] and [Drain] at concrete votes, elections, caches, messages and nodes, and two runs that show what the code does where a theorem
    has an exception. *)

From stdpp Require Import base list option tactics gmap.
From Stdlib Require Import ZArith Lia.
From S2P Require Import Prelude Blocks Common Stats Store Tables Visitors Ledger Rollback Chain.
From S2P Require Import LedgerInv Process Accept Genesis Runs Votes Elections OnlineReps Caches Work Messages Node NodeInv Drain.
From S2P Require Import TestNet.
#[local] Open Scope Z_scope.

Module NodeWitnesses.
Import TestNet NodeNet.

Definition votes_1 : votes := snd (votes_vote vote_1 (votes_init not_an_account send_1)).

Lemma bootstrapped_1 : bootstrapped ledger_1. Proof. by left. Qed.
Lemma bootstrapped_3 : bootstrapped ledger_3. Proof. by left. Qed.

(** The genesis account votes for the first send. *)
Lemma majority_wins_witness :
  voted votes_1 send_1 /\ genesis_amount < 2 * support (l_store ledger_1) votes_1 send_1
  /\ fst (winner ledger_1 votes_1) = Some (support (l_store ledger_1) votes_1 send_1, send_1).
Proof.
  assert (voted votes_1 send_1) as Hv by (exists 1000; by vm_compute).
  assert (genesis_amount < 2 * support (l_store ledger_1) votes_1 send_1) as Hm by by vm_compute.
  split_and!; [done..|].
  apply (majority_wins genesis_nonzero genesis_admitted ledger_1 votes_1 send_1 reachable_1 Hv); [exact bootstrapped_1|exact Hm].
Defined.

Lemma quorum_exact_witness :
  have_quorum 1000 (fst (tally ledger_1 votes_1)) = Some true <->
  exists b, voted votes_1 b /\ 1000 / 100 * online_weight_quorum < support (l_store ledger_1) votes_1 b
    /\ forall b', voted votes_1 b' -> support (l_store ledger_1) votes_1 b' <> support (l_store ledger_1) votes_1 b ->
         support (l_store ledger_1) votes_1 b' + 1000 / 100 * online_weight_quorum < support (l_store ledger_1) votes_1 b.
Proof.
  apply (quorum_exact genesis_nonzero genesis_admitted ledger_1 votes_1 1000 reachable_1 bootstrapped_1); done.
Defined.

(** The votes of an election on the first send. *)
Definition run_1 : option (election * ledger * list effect) :=
  election_run [(1000, 0, 0, vote_1); (1000, 100, 100, vote_3)] (election_init send_1) ledger_1.
Definition run_state : election * ledger * list effect := default (election_init send_1, ledger_1, []) run_1.

Lemma confirmed_once_witness :
  confirmations (snd run_state) = [send_1]
  /\ (length (confirmations (snd run_state)) <= 1)%nat
  /\ (el_confirmed (fst (fst run_state)) = true <-> confirmations (snd run_state) <> []).
Proof.
  split; [by vm_compute|].
  apply (confirmed_once [(1000, 0, 0, vote_1); (1000, 100, 100, vote_3)] send_1 ledger_1 _ (snd (fst run_state))).
  by vm_compute.
Defined.

Definition voted_1 : bool * election * ledger * list effect :=
  default (false, election_init send_1, ledger_1, []) (election_vote 1000 0 0 vote_1 (election_init send_1) ledger_1).
Definition election_1 : election := snd (fst (fst voted_1)).
Definition voted_again : bool * election * ledger * list effect :=
  default voted_1 (election_vote 1000 50 50 vote_1 election_1 ledger_1).

(** The same vote again. *)
Lemma votes_in_order_witness :
  ~ newer vote_1 election_1
  /\ (~ newer vote_1 election_1 -> snd (fst (fst voted_again)) = election_1 /\ snd voted_again = [])
  /\ (forall a i, el_last_votes election_1 !! a = Some i ->
        exists j, el_last_votes (snd (fst (fst voted_again))) !! a = Some j /\ last_before i j).
Proof.
  split.
  { intros H. specialize (H (VoteInfo 0 1 (hash send_1))). cut (true = false); [done|]. rewrite <- H; by vm_compute. }
  apply (votes_in_order 1000 50 50 vote_1 election_1 ledger_1 (fst (fst (fst voted_again))) _ (snd (fst voted_again))).
  by vm_compute.
Defined.

Lemma confirmation_needs_quorum_witness :
  send_1 ∈ confirmations (snd voted_1)
  /\ exists w b t, fst (tally (snd (weight ledger_1 (vote_account vote_1))) (el_votes election_1)) = (w, b) :: t
    /\ wrap 128 (match t with [] => 0 | (w2, _) :: _ => w2 end + delta 1000) < w
    /\ (online_weight_minimum <= tally_sum ((w, b) :: t) -> send_1 = b).
Proof.
  assert (confirmations (snd voted_1) = [send_1]) as Hc by by vm_compute.
  assert (send_1 ∈ confirmations (snd voted_1)) as Hin by (rewrite Hc; left). split; [done|].
  apply (confirmation_needs_quorum 1000 0 0 vote_1 (election_init send_1) ledger_1 (fst (fst (fst voted_1))) election_1
           (snd (fst voted_1)) (snd voted_1) send_1); [by vm_compute|done].
Defined.

Lemma announce_votes_spec_witness :
  exists a' fx, announce_votes (l_store ledger_1) [1000; 3000] elections_1 = Some (a', fx) /\ active_ok a'
    /\ (forall r, roots a' !! r
          = cf ← roots elections_1 !! r; if finished (l_store ledger_1) cf then None else Some (announced cf))
    /\ Z.of_nat (length (confirmed a')) <= election_history_size.
Proof. apply (announce_votes_spec (l_store ledger_1) [1000; 3000] elections_1 elections_1_ok). done. Defined.
(** ** Caches *)

Lemma unchecked_put_spec_witness :
  exists c', unchecked_put (hash state_1) receive_1 caches_1 = Some c' /\ caches_ok c'
    /\ (exists b', waiting c' (hash state_1) b' /\ hash b' = hash receive_1)
    /\ forall k b', waiting c' k b' <->
         waiting caches_1 k b'
         \/ (k = hash state_1 /\ b' = receive_1
             /\ forall b'', waiting caches_1 (hash state_1) b'' -> hash b'' <> hash receive_1).
Proof.
  apply (unchecked_put_spec (hash state_1) receive_1 caches_1 caches_1_ok). apply wf_1. do 4 right. left.
Defined.

Lemma unchecked_del_spec_witness :
  waiting caches_1 (hash send_1) open_1
  /\ caches_ok (unchecked_del (hash send_1) open_1 caches_1)
  /\ forall k b', waiting (unchecked_del (hash send_1) open_1 caches_1) k b'
       <-> waiting caches_1 k b' /\ ~ (k = hash send_1 /\ b' = open_1).
Proof.
  split; [apply caches_1_open|]. apply (unchecked_del_spec (hash send_1) open_1 caches_1 caches_1_ok). apply wf_1. right. right. left.
Defined.

Lemma flush_spec_witness :
  unchecked_cache caches_1 <> []
  /\ caches_ok (flush caches_1) /\ unchecked_cache (flush caches_1) = [] /\ vote_cache (flush caches_1) = ∅
  /\ (forall h b, waiting (flush caches_1) h b <-> waiting caches_1 h b)
  /\ (forall a, vote_current (flush caches_1) a = vote_current caches_1 a).
Proof. split; [intros E; discriminate E|]. apply (flush_spec caches_1 caches_1_ok). Defined.

(** The vote with sequence number 5 remains. *)
Lemma vote_max_spec_witness :
  sequence_of caches_1 1000 = 5
  /\ exists r c', vote_max vote_1 caches_1 = Some (r, c') /\ caches_ok c'
    /\ vote_sequence r = Z.max (vote_sequence vote_1) (sequence_of caches_1 (vote_account vote_1))
    /\ (r = vote_1 \/ vote_current caches_1 (vote_account vote_1) = Some (Some r))
    /\ forall a, vote_current c' a
         = if decide (a = vote_account vote_1) then Some (Some r) else vote_current caches_1 a.
Proof. split; [by vm_compute|]. apply (vote_max_spec vote_1 caches_1 caches_1_ok vote_1_wf). Defined.

(** ** The work pool *)

Definition request_1 : request := Request 1000 0.
Definition pool_1 : pool := pool_generate request_1 None (pool_init 2).
Definition pool_2 : pool := default pool_1 (pool_take 0 pool_1).
Definition pool_3 : pool := default pool_2 (pool_try 0 (work_for 1000) pool_2).
Definition pool_4 : pool := default pool_3 (pool_leave 0 pool_3).
Definition pool_5 : pool := default pool_4 (snd <$> pool_finish 0 pool_4).

Lemma pool_run : rtc pool_step (pool_init 2) pool_5.
Proof.
  apply (rtc_l _ _ pool_1).
  { apply step_generate; [apply not_elem_of_nil|apply not_elem_of_nil|done]. }
  apply (rtc_l _ _ pool_2); [by apply (step_take 0); vm_compute|].
  apply (rtc_l _ _ pool_3); [by apply (step_try 0 (work_for 1000)); vm_compute|].
  apply (rtc_l _ _ pool_4); [by apply (step_leave 0); vm_compute|].
  apply rtc_once. apply (step_finish 0 _ true). by vm_compute.
Qed.

Lemma pool_answers_witness :
  p_answers pool_5 = [(request_1, Some (work_for 1000))]
  /\ (forall i ok p', pool_finish i pool_5 = Some (ok, p') -> ok = true)
  /\ NoDup (p_pending pool_5 ++ (p_answers pool_5).*1)
  /\ forall rq w, (rq, Some w) ∈ p_answers pool_5 -> work_validate (rq_root rq) w = false.
Proof. split; [by vm_compute|]. apply (pool_answers 2 pool_5 pool_run). by vm_compute. Defined.
(** ** The node *)

Lemma queueable_receive_1 : queueable receive_1.
Proof. apply queueable_1; [apply admitted_receive_1|by vm_compute]. Qed.
Lemma queueable_open_1 : queueable open_1.
Proof. apply queueable_1; [apply admitted_open_1|by vm_compute]. Qed.
Lemma queueable_send_3 : queueable send_3.
Proof. apply queueable_1; [apply admitted_send_3|by vm_compute]. Qed.
Lemma queueable_state_2 : queueable state_2.
Proof. apply queueable_1; [apply admitted_state_2|by vm_compute]. Qed.

(** A node without queued blocks, one with an open block and one with a forced fork. *)
Definition node_1 : node := node_with ledger_3 [] [].
Definition node_2 : node := node_with ledger_1 [open_1] [].
Definition node_3 : node := node_with ledger_3 [] [send_3].

Lemma node_1_ok : node_ok node_1.
Proof. apply node_with_ok; [apply reachable_3|constructor..]. Qed.
Lemma node_2_ok : node_ok node_2.
Proof. apply node_with_ok; [apply reachable_1|by repeat constructor; apply queueable_open_1|constructor]. Qed.
Lemma node_3_ok : node_ok node_3.
Proof.
  apply node_with_ok; [apply reachable_3|constructor|]. apply Forall_singleton. split; [apply queueable_send_3|].
  by vm_compute.
Qed.

Lemma forked_block_spec_witness :
  (forked_block (l_store ledger_3) send_3 = None <-> stray (l_store ledger_3) send_3)
  /\ forall lb, forked_block (l_store ledger_3) send_3 = Some lb ->
       root lb = root send_3 /\ block_exists (l_store ledger_3) (hash lb) = true /\ hash lb <> hash send_3.
Proof.
  apply (forked_block_spec genesis_nonzero genesis_admitted ledger_3 send_3 reachable_3); by vm_compute.
Defined.

Lemma process_receive_one_total_witness :
  ~ foreign (l_store (nd_ledger node_1)) receive_1
  /\ ((exists r nd' fx, process_receive_one 0 receive_1 node_1 = Some (r, nd', fx) /\ received_one receive_1 node_1 r nd')
      \/ foreign (l_store (nd_ledger node_1)) receive_1).
Proof.
  split; [intros []|].
  apply (process_receive_one_total genesis_nonzero genesis_admitted 0 receive_1 node_1 node_1_ok queueable_receive_1).
Defined.

Lemma process_receive_many_total_witness :
  (exists nd' fx, process_receive_many [0; 1; 2] node_2 = Some (nd', fx) /\ node_ok nd')
  \/ (exists nd1, rtc processed node_2 nd1 /\ node_ok nd1 /\ next_foreign nd1).
Proof.
  apply (process_receive_many_total genesis_nonzero genesis_admitted [0; 1; 2] node_2 node_2_ok).
Defined.

Definition times_2 : list Z := replicate 40 0.
Definition drained_2 : bool :=
  match process_receive_many times_2 node_2 with Some (nd, _) => negb (have_blocks nd) | None => false end.

Lemma queue_drains_witness :
  drained_2 = true
  /\ ((exists nd' fx, process_receive_many times_2 node_2 = Some (nd', fx) /\ node_ok nd' /\ have_blocks nd' = false)
      \/ (exists nd1, rtc processed node_2 nd1 /\ node_ok nd1 /\ next_foreign nd1)).
Proof.
  split; [by vm_compute|]. apply (queue_drains genesis_nonzero genesis_admitted times_2 node_2 node_2_ok). by vm_compute.
Defined.

Definition next_3 : node * list effect := default (node_3, []) (process_next 0 node_3).

Lemma force_replaces_witness :
  block_exists (l_store (nd_ledger node_3)) (hash send_1) = true
  /\ block_exists (l_store (nd_ledger (fst next_3))) (hash send_1) = false.
Proof.
  split; [by vm_compute|].
  apply (force_replaces genesis_nonzero genesis_admitted 0 node_3 send_3 [] send_1 (fst next_3) (snd next_3) node_3_ok);
    by vm_compute.
Defined.

Lemma vote_processor_total_witness :
  exists code nd' fx told reply, vote_processor_vote 1000 0 0 vote_1 node_1 = Some (code, nd', fx, told, reply)
    /\ node_ok nd'
    /\ (vote_validate vote_1 = true -> code = vote_code_invalid /\ nd' = node_1 /\ fx = [] /\ reply = None).
Proof. apply (vote_processor_total 1000 0 0 vote_1 node_1 node_1_ok vote_1_wf). Defined.

Lemma stale_vote_reported_witness :
  exists nd' fx reply, vote_processor_vote 1000 0 0 vote_1 node_1 = Some (vote_code_vote, nd', fx, true, reply).
Proof. apply (stale_vote_reported 1000 0 0 vote_1 node_1 node_1_ok vote_1_wf vote_1_valid). by vm_compute. Defined.

(** ** What the code does in the exceptional cases *)

(** A block without any supporting vote is confirmed: when the votes for another block
    of its root reach the quorum but not [online_weight_minimum], the winner is not
    changed and yet it is confirmed. Here the votes are 70 of an online weight of 100,
    all for [send_3], and [send_1] is confirmed. *)
Example unsupported_confirmed :
  let e := snd (fst (fst (default voted_1 (election_vote 100 0 0 vote_2 (election_init send_1) ledger_3)))) in
  election_vote 100 0 0 vote_2 (election_init send_1) ledger_3
    = Some (false, e, ledger_3, [republish_vote vote_2; process_confirmed send_1])
  /\ support (l_store ledger_3) (el_votes e) send_3 = 70
  /\ support (l_store ledger_3) (el_votes e) send_1 = 0.
Proof. by vm_compute. Qed.

(** A valid state block that names the head of another account as its predecessor makes
    a consistent node fail an assertion. *)
Example foreign_block_fails :
  node_ok node_1 /\ queueable state_2 /\ process_receive_one 0 state_2 node_1 = None.
Proof. split_and!; [apply node_1_ok|apply queueable_state_2|by vm_compute]. Qed.
(** ** Online representatives *)

Definition online_1 : online_reps := OnlineReps [RepInfo 0 3000; RepInfo 600 1000] (fst (weight ledger_1 1000)).

Lemma online_1_ok : online_ok 600 ledger_1 online_1.
Proof.
  split.
  - apply (bool_decide_unpack _). by vm_compute.
  - repeat constructor. cbn. lia.
  - repeat constructor; cbn; lia.
  - by vm_compute.
Qed.

(** Account 3000 was heard of too long ago. *)
Lemma online_vote_exact_witness :
  or_reps (fst (online_vote 800 vote_1 online_1 ledger_1)) = [RepInfo 800 1000]
  /\ or_reps (fst (online_vote 800 vote_1 online_1 ledger_1)) = heard_after 800 (vote_account vote_1) (or_reps online_1)
  /\ online_ok 800 ledger_1 (fst (online_vote 800 vote_1 online_1 ledger_1)).
Proof.
  split; [by vm_compute|].
  apply (online_vote_exact genesis_nonzero genesis_admitted 600 800 vote_1 online_1 ledger_1 reachable_1 bootstrapped_1 online_1_ok). lia.
Defined.

(** ** Messages *)

#[export] Instance network : Network := rai_test_network.

Lemma parse_serialize_witness :
  parser_answer (publish_make send_1) = (success, Some (publish_make send_1))
  /\ exists s, message_serialize (publish_make send_1) = Some s /\ deserialize_buffer s = parser_answer (publish_make send_1).
Proof.
  split; [by vm_compute|]. apply (parse_serialize (publish_make send_1)).
  exact (proj1 (proj1 (proj2 made_wf) send_1 (wf_1 send_1 admitted_send_1))).
Defined.

Definition datagram_1 : stream := default [] (message_serialize (confirm_req_make send_1)).

Lemma parse_sound_witness :
  success = success /\ message_wf (confirm_req_make send_1) /\ message_serialize (confirm_req_make send_1) = Some datagram_1
  /\ parser_answer (confirm_req_make send_1) = (success, Some (confirm_req_make send_1)).
Proof. apply (parse_sound datagram_1 success (Some (confirm_req_make send_1))). by vm_compute. Defined.
End NodeWitnesses.
