(* ===== verification/BootstrapWitnesses.v ===== *)
(** * BootstrapWitnesses: a bootstrap on the small network

    The theorems of [BootstrapRun] applied to ledgers of [TestNet]: a client that has the
    first send and a server that is four blocks ahead, and the other way round. *)

From stdpp Require Import base list option tactics gmap sorting.
From Stdlib Require Import ZArith Lia.
From S2P Require Import Prelude Blocks Common Stats Store Tables Visitors Ledger Rollback Work Messages Chain Balance LedgerInv Queries Genesis Runs.
From S2P Require Import Tables Queries Bootstrap BootstrapSync BootstrapPulls BootstrapRun TestNet.
#[local] Open Scope Z_scope.

Module BootstrapWitnesses.
Import TestNet.
#[local] Instance network : Network := rai_test_network.

Lemma readable_stored l : reachable l ->
  map_Forall (fun _ v => readable (fst v)) (blocks (l_store l)) -> all_readable (l_store l).
Proof.
  intros [G [HI _]]%(reachable_consistent genesis_nonzero genesis_admitted) Hr h b.
  rewrite (block_get_of _ _ _ _ HI). intros [succ Hb]%contents_Some. by apply Hr in Hb.
Qed.

#[local] Instance readable_dec b : Decision (readable b).
Proof. unfold readable. apply _. Defined.
#[local] Instance accounts_ok_dec s : Decision (accounts_ok s).
Proof. unfold accounts_ok. apply _. Defined.

Lemma readable_1 : all_readable (l_store ledger_1).
Proof. apply readable_stored; [apply reachable_1|]. apply (bool_decide_unpack _). by vm_compute. Qed.
Lemma readable_5 : all_readable (l_store ledger_5).
Proof. apply readable_stored; [apply reachable_5|]. apply (bool_decide_unpack _). by vm_compute. Qed.
Lemma accounts_ok_1 : accounts_ok (l_store ledger_1).
Proof. apply (bool_decide_unpack _). by vm_compute. Qed.
Lemma accounts_ok_5 : accounts_ok (l_store ledger_5).
Proof. apply (bool_decide_unpack _). by vm_compute. Qed.

Lemma bootstrap_misses_nothing_witness :
  exists out c, bootstrap_connection 0 (l_store ledger_5) frontier_req_run = Some (out, [])
    /\ request_frontier (fun _ => false) (l_store ledger_1) out = Some (frontier_done, c)
    /\ (forall p, p ∈ fc_pulls c -> exists r, pull_exchange 0 (l_store ledger_5) p r)
    /\ forall h b, block_get (l_store ledger_5) h = Some b ->
         block_exists (l_store ledger_1) h = true
         \/ exists p r, p ∈ fc_pulls c /\ pull_exchange 0 (l_store ledger_5) p r /\ b ∈ pr_blocks r.
Proof.
  apply (bootstrap_misses_nothing genesis_nonzero genesis_admitted 0 ledger_1 ledger_5 (fun _ => false)
           reachable_1 reachable_5 accounts_ok_1 accounts_ok_5); [by vm_compute|done|apply readable_5].
Defined.

Lemma bootstrap_pushes_witness :
  exists out c l, bootstrap_connection 0 (l_store ledger_1) frontier_req_run = Some (out, [])
    /\ request_frontier (fun _ => false) (l_store ledger_5) out = Some (frontier_done, c)
    /\ bulk_push_blocks (l_store ledger_5) (fc_targets c) = Some l
    /\ bootstrap_connection 0 (l_store ledger_1) (bulk_push_start l) = Some ([], l)
    /\ (fc_cost c < bulk_push_cost_limit -> forall h b a, block_get (l_store ledger_5) h = Some b ->
          account (l_store ledger_5) h = Some a ->
          block_exists (l_store ledger_1) h = true \/ b ∈ l \/ exists p, p ∈ fc_pulls c /\ pl_account p = a).
Proof.
  apply (bootstrap_pushes genesis_nonzero genesis_admitted 0 ledger_5 ledger_1 (fun _ => false)
           reachable_5 reachable_1 accounts_ok_5 accounts_ok_1); [by vm_compute|done|apply readable_5].
Defined.

Lemma frontiers_compared_witness :
  exists out c, bootstrap_connection 0 (l_store ledger_5) frontier_req_run = Some (out, [])
    /\ request_frontier (fun _ => false) (l_store ledger_1) out = Some (frontier_done, c)
    /\ fc_pulls c = omap (wanted (l_store ledger_1) (heads_of (l_store ledger_5))) (ordered (accounts (l_store ledger_5)))
    /\ fc_targets c `prefix_of` omap (offered (l_store ledger_1) (heads_of (l_store ledger_5))) (ordered (accounts (l_store ledger_1)))
    /\ (fc_cost c < bulk_push_cost_limit ->
          fc_targets c = omap (offered (l_store ledger_1) (heads_of (l_store ledger_5))) (ordered (accounts (l_store ledger_1))))
    /\ Z.of_nat (length (fc_targets c)) <= bulk_push_cost_limit.
Proof.
  apply (frontiers_compared 0 (l_store ledger_1) (l_store ledger_5) (fun _ => false) accounts_ok_1 accounts_ok_5); [by vm_compute|done].
Defined.

(** The client knows the first send, and pulls the blocks after it. *)
Definition pull_1 : pull_info := Eval vm_compute in PullInfo 1000 (hash change_1) (hash send_1) 0.
Definition info_1 : account_info := Eval vm_compute in default (AccountInfo 0 0 0 0 0 0) (accounts (l_store ledger_5) !! 1000).

Lemma pull_finishes_witness :
  exists r, pull_exchange 0 (l_store ledger_5) pull_1 r
    /\ (pl_end pull_1 = 0 \/ block_exists (l_store ledger_5) (pl_end pull_1) = true ->
          segment (l_store ledger_5) (pl_head pull_1) (pr_blocks r) (pl_end pull_1) /\ pr_pooled r = true
          /\ pull_again pull_1 r = None)
    /\ (pl_end pull_1 <> 0 -> block_exists (l_store ledger_5) (pl_end pull_1) = false ->
          segment (l_store ledger_5) (pl_head pull_1) (pr_blocks r) 0 /\ pr_pooled r = false
          /\ pull_again pull_1 r = Some (PullInfo (pl_account pull_1) 0 (pl_end pull_1) (pl_attempts pull_1))).
Proof.
  apply (pull_finishes genesis_nonzero genesis_admitted 0 ledger_5 pull_1 info_1 reachable_5 readable_5 accounts_ok_5);
    by vm_compute.
Defined.

(** The two requests of a bootstrap and a push, in one go. *)
Definition requests_1 : list message :=
  [frontier_req (header_init mt_frontier_req) 0 (2 ^ 32 - 1) (2 ^ 32 - 1);
   bulk_pull (header_init mt_bulk_pull) 1000 (hash send_1)].
Definition bytes_1 : list stream := default [] (mapM message_serialize requests_1).
Definition answers_1 : list stream := default [] (mapM (run_request 0 (l_store ledger_5)) requests_1).

Lemma is_request_1 : Forall is_request requests_1.
Proof. repeat constructor; by vm_compute. Qed.
Lemma change_1_readable : Forall readable [change_1].
Proof. apply (bool_decide_unpack _). by vm_compute. Qed.

Lemma requests_in_order_witness :
  bootstrap_connection 0 (l_store ledger_5) (concat bytes_1 ++ bulk_push_start [change_1]) = Some (concat answers_1, [change_1]).
Proof.
  apply (requests_in_order 0 (l_store ledger_5) requests_1 bytes_1 answers_1 [change_1] is_request_1); [by vm_compute..|apply change_1_readable].
Defined.

(** What the client of [ledger_1] queues at the server of [ledger_5]: the genesis account down
    to the first send, account 2000 from its first block; it has nothing to push. *)
Example queued_1 :
  (out ← bootstrap_connection 0 (l_store ledger_5) frontier_req_run;
   r ← request_frontier (fun _ => false) (l_store ledger_1) (fst out);
   Some (fc_pulls (snd r), fc_targets (snd r)))
  = Some ([pull_1; PullInfo 2000 (hash state_1) 0 0], []).
Proof. vm_compute. reflexivity. Qed.

(** The other way round it pushes the genesis account down to the first send, and account
    2000 whole. *)
Example queued_2 :
  (out ← bootstrap_connection 0 (l_store ledger_1) frontier_req_run;
   r ← request_frontier (fun _ => false) (l_store ledger_5) (fst out);
   bulk_push_blocks (l_store ledger_5) (fc_targets (snd r)))
  = Some [state_1; open_1; change_1; receive_1].
Proof. vm_compute. reflexivity. Qed.

(** An old account behind a recent one is not left out: only the first frontiers are judged
    by their age. *)
Definition aged (a modified : Z) (s : store) : store :=
  match accounts s !! a with
  | Some i => account_put a (AccountInfo (ai_head i) (ai_rep_block i) (ai_open_block i) (ai_balance i) modified (ai_block_count i)) s
  | None => s
  end.
Example age_judges_first :
  let s := aged 1000 100 (aged 2000 1 (l_store ledger_5)) in
  let t := aged 1000 1 (aged 2000 100 (l_store ledger_5)) in
  (fst <$> frontiers_sent 0 50 120 s, fst <$> frontiers_sent 0 50 120 t) = ([1000; 2000; 0], [2000; 0]).
Proof. vm_compute. reflexivity. Qed.

(** A range of blocks lists only those with block information: none of the six blocks here. *)
Example range_is_empty :
  range_send 2 0 (l_store ledger_5) (set_params 0 (2 ^ 256 - 1) (l_store ledger_5)) = Some []
  /\ blocks_total (l_store ledger_5) = 6%nat.
Proof. split; vm_compute; reflexivity. Qed.
End BootstrapWitnesses.
