(* ===== verification/UpgradesWitnesses.v ===== *)
(** * UpgradesWitnesses: a database of the first version

    [first_version] takes from a ledger what the first version did not have: the successors
    of blocks, the opening blocks and counts of accounts, the destinations in the keys of
    pending sends, weights and block information. The result is a database [upgrades_restore]
    is about; the ledger of [TestNet] goes through it. *)

From stdpp Require Import base list option tactics gmap sorting.
From Stdlib Require Import ZArith Lia.
From S2P Require Import Prelude Blocks Common Stats Store Tables Visitors Ledger Rollback Chain Balance LedgerInv Queries Genesis Runs.
From S2P Require Import Caches Tables Queries Upgrades UpgradesSpec UpgradesRun TestNet.
#[local] Open Scope Z_scope.

Section first.
Context `{E0 : Env} `{T0 : Traffic}.

Definition unlink (t : block_tables) : block_tables :=
  let f (m : gmap Z stored) : gmap Z stored := (fun v => (v.1, 0)) <$> m in
  BlockTables (f (send_blocks t)) (f (receive_blocks t)) (f (open_blocks t)) (f (change_blocks t)) (f (state_blocks t)).

Definition pending_to_v3 (e : pending_key * pending_info) : Z * pending_info_v3 :=
  (pk_hash e.1, PendingInfoV3 (pi_source e.2) (pi_amount e.2) (pk_account e.1)).

(** All accounts have the representative block [r] and the sequence number [n]. *)
Definition first_version (r n : Z) (s : store) : database :=
  Database ((fun i => account_v1 (AccountInfoV1 (ai_head i) r (ai_balance i) (ai_modified i))) <$> accounts s)
    (pending_v3 (list_to_map (pending_to_v3 <$> map_to_list (pending s))))
    (Store (frontiers s) ∅ (unlink s) ∅ ∅ ∅ ∅ ∅) ∅ ∅ ((fun _ => [le_bytes 8 n]) <$> accounts s) ∅.

Context (K : Z) (D : Z -> Z) (G : gmap Z chain_info) (s : store) (HI : ledger_inv K D G s).

Lemma unlink_blocks (t : block_tables) h : blocks (unlink t) !! h = (fun v => (v.1, 0)) <$> blocks t !! h.
Proof.
  rewrite !blocks_lookup. unfold unlink. cbn. rewrite !lookup_fmap.
  by destruct (send_blocks t !! h), (receive_blocks t !! h), (open_blocks t !! h), (change_blocks t !! h), (state_blocks t !! h).
Qed.

Lemma unlink_ok (t : block_tables) : tables_ok t -> tables_ok (unlink t).
Proof.
  intros Hok ty m h v Hty Hv. rewrite unlink_blocks.
  assert (exists m0 v0, block_database ty t = Some m0 /\ m0 !! h = Some v0 /\ v = (v0.1, 0)) as (m0 & v0 & Hm0 & Hv0 & ->).
  { destruct ty; cbn in Hty |- *; try done; simplify_eq; apply lookup_fmap_Some in Hv as (v0 & <- & ?); eauto. }
  destruct (Hok _ _ _ _ Hm0 Hv0) as [? ->]. done.
Qed.

Lemma pending_hash_inj k1 p1 k2 p2 : pending s !! k1 = Some p1 -> pending s !! k2 = Some p2 -> pk_hash k1 = pk_hash k2 -> k1 = k2.
Proof.
  intros [H1 _]%(li_pending HI) [H2 _]%(li_pending HI) E. rewrite E in H1. rewrite H1 in H2. destruct k1, k2. cbn in *. by simplify_eq.
Qed.

Lemma first_pendings : pendings_are s (list_to_map (pending_to_v3 <$> map_to_list (pending s))).
Proof.
  assert (NoDup (pending_to_v3 <$> map_to_list (pending s)).*1) as Hn.
  { rewrite <- list_fmap_compose. apply NoDup_fmap_2_strong; [|apply NoDup_map_to_list]. intros [k1 p1] [k2 p2] H1%elem_of_map_to_list H2%elem_of_map_to_list E.
    assert (k1 = k2) as -> by (by eapply pending_hash_inj). congruence. }
  intros k p. rewrite <- elem_of_list_to_map by done. rewrite list_elem_of_fmap. split.
  - intros Hp. exists (k, p). split; [done|]. by apply elem_of_map_to_list.
  - intros ([k' p'] & E & Hk%elem_of_map_to_list). unfold pending_to_v3 in E. destruct k, k', p, p'. cbn in *. by simplify_eq.
Qed.

Lemma first_version_at r n : in_width 64 n -> ledger_at s (fun _ => r) 1 (first_version r n s).
Proof.
  intros Hn. split; try done; try (intros; lia).
  - intros a. cbn. by rewrite lookup_fmap.
  - split; [lia|apply first_pendings].
  - split; [apply unlink_ok, HI|]. split; [intros h; cbn; by rewrite unlink_blocks, fmap_None|]. intros h b succ Hb. exists 0. cbn. rewrite unlink_blocks, Hb.
    split; [done|]. right. split; [done|lia].
  - intros _ a x. unfold dups. cbn. rewrite lookup_fmap. destruct (accounts s !! a); cbn; [|by intros ?%not_elem_of_nil].
    intros ->%list_elem_of_singleton. exists (n, []). rewrite <- (app_nil_r (le_bytes 8 n)). by apply read_le_bytes.
Qed.
End first.

Module UpgradesWitnesses.
Import TestNet.

(** After three blocks, one send of which is pending. *)
Definition old_3 : database := first_version 0 7 (l_store ledger_3).

Lemma old_3_at : ledger_at (l_store ledger_3) (fun _ => 0) 1 old_3.
Proof.
  destruct (reachable_consistent genesis_nonzero genesis_admitted _ reachable_3) as [G [HI _]]. by apply (first_version_at _ _ _ _ HI).
Qed.

Lemma upgrades_restore_witness :
  exists d' (t : store), block_store_init 1000 old_3 = Some d' /\ database_store d' = Some t
    /\ blocks t = blocks (l_store ledger_3) /\ accounts t = accounts (l_store ledger_3) /\ pending t = pending (l_store ledger_3)
    /\ frontiers t = frontiers (l_store ledger_3) /\ (forall r, representation_get t r = representation_get (l_store ledger_3) r)
    /\ version_get t = Z.max 1 10 /\ exists K G, ledger_inv K (fun _ => 0) G t.
Proof.
  apply (upgrades_restore genesis_nonzero genesis_admitted ledger_3 (fun _ => 0) 1000 1 old_3 reachable_3); [by vm_compute|lia|apply old_3_at].
Defined.

(** The same run, computed: the accounts come out as the ledger has them, and each has a vote. *)
Example old_3_opened :
  match block_store_init 1000 old_3 with
  | Some d => fmap accounts (database_store d) = Some (accounts (l_store ledger_3)) /\ dom (db_vote d) = dom (accounts (l_store ledger_3))
  | None => False
  end.
Proof. by vm_compute. Qed.
End UpgradesWitnesses.
