(* ===== verification/TextWitnesses.v ===== *)
(** * TextWitnesses: the text forms at work

    A concrete number stream, the theorems of [TextForms] at concrete numbers, and an
    account text with a character outside the alphabet that is accepted. *)

From Stdlib Require Import ZArith Lia String.
From stdpp Require Import base list option tactics gmap.
From S2P Require Import Prelude Blocks Common Numbers TextForms BlockJson Genesis TestNet.
#[local] Open Scope Z_scope.
#[local] Abbreviation length := Datatypes.length.

Module TextWitnesses.
Import TestNet.

(** The digit of a character, of either case. *)
Definition char_digit (base : Z) (c : byte) : option Z :=
  let d := if code c <? 0x40 then code c - 0x30 else if code c <? 0x60 then code c - 0x41 + 10 else code c - 0x61 + 10 in
  if (0 <=? d) && (d <? base) then Some d else None.

Fixpoint read_digits (base n : Z) (s : stream) : Z * stream :=
  match s with
  | [] => (n, [])
  | c :: rest => match char_digit base c with Some d => read_digits base (n * base + d) rest | None => (n, s) end
  end.

#[export] Instance streams : Streams := {|
  hex_upper := true;
  extract w base s := Some (read_digits base 0 s)
|}.

Lemma char_digit_ok base upper d : base = 16 \/ base = 10 -> 0 <= d < base -> char_digit base (digit_char upper d) = Some d.
Proof.
  intros Hb Hd. cut (Forall (fun d => char_digit 16 (digit_char upper d) = Some d) (Z.of_nat <$> seq 0 16)
    /\ Forall (fun d => char_digit 10 (digit_char upper d) = Some d) (Z.of_nat <$> seq 0 10)).
  - rewrite !Forall_forall. intros [H1 H2].
    destruct Hb as [-> | ->]; [apply H1|apply H2]; apply list_elem_of_fmap; exists (Z.to_nat d); rewrite elem_of_seq; lia.
  - destruct upper; split; by repeat constructor.
Qed.

Lemma read_digits_ok base upper ds n : base = 16 \/ base = 10 -> Forall (fun d => 0 <= d < base) ds ->
  read_digits base n (digit_char upper <$> ds) = (fold_left (fun n d => n * base + d) ds n, []).
Proof.
  intros Hb Hds. revert n. induction Hds as [|d ds Hd Hds IH]; intros n; [done|]. rewrite fmap_cons. cbn [read_digits].
  by rewrite char_digit_ok, IH.
Qed.

#[export] Instance streams_laws : StreamsLaws.
Proof. intros w base ds upper Hb _ Hds _. unfold extract, streams. f_equal. apply read_digits_ok; [naive_solver|done]. Qed.

#[export] Instance digest_length : DigestLength.
Proof. intros n s _. apply be_bytes_length. Qed.

Lemma read_digits_rest base s : forall n m, read_digits base n s = (m, []) -> Forall (fun c => is_Some (char_digit base c)) s.
Proof.
  induction s as [|c s IH]; intros n m H; [constructor|]. cbn [read_digits] in H. destruct (char_digit base c) as [d|] eqn:E; [|done].
  constructor; [by rewrite E|by eapply IH].
Qed.

#[export] Instance streams_stop : StreamsStop.
Proof. intros w n s [= Hs] Hin. apply read_digits_rest in Hs. rewrite Forall_forall in Hs. by destruct (Hs _ Hin). Qed.

Lemma json_roundtrip_witness : exists t, serialize_json state_1 = Some t /\ deserialize_block_json t = read_ret state_1.
Proof. apply (json_roundtrip state_1). by vm_compute. Defined.

(** An open block prints what its member does not read. *)
Example open_1_misread : exists t, serialize_json open_1 = Some t
  /\ open_deserialize_json t = read_error /\ deserialize_block_json t = read_ret open_1.
Proof. eexists. split; [by vm_compute|]. by vm_compute. Qed.

Lemma hex_roundtrip_witness : uint256_decode_hex 0 (uint256_encode_hex (2 ^ 255 + 10)) = (false, 2 ^ 255 + 10).
Proof. refine (proj1 (proj2 (hex_roundtrip 0 (2 ^ 255 + 10))) _). by vm_compute. Defined.

Lemma dec_roundtrip_witness : uint128_decode_dec 7 (uint128_encode_dec (2 ^ 128 - 1)) = (false, 2 ^ 128 - 1).
Proof. refine (proj1 (dec_roundtrip 7 (2 ^ 128 - 1)) _). by vm_compute. Defined.

(** An account whose text has digit 14 after digit 2. *)
Definition account_1 : Z := 79872.
Definition text_1 : stream := default [] (encode_account account_1).

Lemma decode_encode_account_witness :
  exists s, encode_account account_1 = Some s /\ length s = 64%nat /\ decode_account 5 s = Some (false, account_1).
Proof. apply (decode_encode_account 5 account_1). by vm_compute. Defined.

Lemma decode_account_canonical_witness :
  let s := chars "nano-" ++ drop 4 text_1 in
  decode_account 0 s = Some (false, account_1) /\ encode_account account_1 = Some (chars "xrb_" ++ drop 5 s).
Proof.
  split; [by vm_compute|]. apply (decode_account_canonical 0 (chars "nano-" ++ drop 4 text_1) account_1); [by vm_compute|].
  apply (bool_decide_unpack _). by vm_compute.
Defined.

Lemma format_balance_exact_witness :
  format_balance 1234500 (10 ^ Z.of_nat 6) (Z.of_nat 6) false (byte_of_Z 0x2c) (byte_of_Z 0x2e) [3] = Some (chars "1.2345")
  /\ exists fs, format_balance 1234500 (10 ^ Z.of_nat 6) (Z.of_nat 6) false (byte_of_Z 0x2c) (byte_of_Z 0x2e) [3]
      = Some (print_dec (1234500 / 10 ^ Z.of_nat 6)
              ++ if 1234500 mod 10 ^ Z.of_nat 6 =? 0 then [] else byte_of_Z 0x2e :: (digit_char false <$> fs))
    /\ fraction_digits 6 (1234500 mod 10 ^ Z.of_nat 6) fs.
Proof. split; [by vm_compute|]. apply (format_balance_exact 1234500 6); [by vm_compute|lia]. Defined.

(** The text of [account_1] with its digits 2 and 14 replaced by digit 0 and the character
    zero, which is not in the alphabet. *)
Definition text_2 : stream := <[52%nat := account_char 0]> (<[53%nat := byte_of_Z 0x30]> text_1).

(** A text with a character outside the alphabet is accepted, as another text of the
    same account: the decoder compares with the wrong value, and what such a character
    adds can be made up for by the character before it. *)
Example foreign_character_accepted :
  (byte_of_Z 0x30 ∉ account_lookup) /\ text_2 !! 53%nat = Some (byte_of_Z 0x30) /\ text_2 <> text_1
  /\ decode_account 0 text_2 = Some (false, account_1) /\ encode_account account_1 = Some text_1.
Proof. split; [by apply (bool_decide_unpack _); vm_compute|]. by vm_compute. Qed.
End TextWitnesses.
