(* ===== verification/WalletWitnesses.v ===== *)
(** * WalletWitnesses: a wallet at work

    A concrete cipher and key derivation, a wallet with the keys of the accounts of
    [TestNet], the theorems on wallets there, and what the code does with watched
    accounts and empty sends. *)

From Stdlib Require Import ZArith Lia.
From stdpp Require Import base list option tactics gmap.
From S2P Require Import Prelude Blocks Common Stats Numbers TextForms Store Tables Visitors Ledger Rollback Chain.
From S2P Require Import LedgerInv Process Accept Genesis Runs Votes Elections Caches Work Node NodeInv Drain.
From S2P Require Import WalletStore WalletKeys WalletPasswords WalletActions WalletSends Wallets WalletSeeds WalletQueue TestNet TextWitnesses.
#[local] Open Scope Z_scope.

Module WalletWitnesses.
Import TestNet NodeNet TextWitnesses.

(** ** A cipher *)

Definition keystream (key iv : Z) : Z := wrap 256 (7 * key + iv + 2 ^ 200).

#[export] Instance crypto : Crypto := {|
  ctr_encrypt key iv x := Z.lxor x (keystream key iv);
  ctr_decrypt key iv x := Z.lxor x (keystream key iv);
  argon2_hash password salt := wrap 256 (digest password + salt + 1);
  ed25519_publickey prv := wrap 256 (prv + 7)
|}.

Lemma lxor_width x y : in_width 256 x -> in_width 256 y -> in_width 256 (Z.lxor x y).
Proof.
  intros [Hx0 Hx] [Hy0 Hy]. assert (0 <= Z.lxor x y) as H0 by (apply Z.lxor_nonneg; lia). split; [done|].
  destruct (Z.eq_dec (Z.lxor x y) 0) as [->|Hne]; [done|]. apply Z.log2_lt_pow2; [lia|].
  assert (forall z, 0 <= z < 2 ^ 256 -> Z.log2 z < 256) as Hl.
  { intros z Hz. destruct (Z.eq_dec z 0) as [->|]; [done|]. apply Z.log2_lt_pow2; lia. }
  pose proof (Z.log2_lxor x y Hx0 Hy0). pose proof (Hl x). pose proof (Hl y). lia.
Qed.

#[export] Instance crypto_laws : CryptoLaws.
Proof.
  assert (forall key iv, in_width 256 (keystream key iv)) as Hk by (intros; by apply wrap_in_width).
  split; cbn -[keystream].
  - intros key iv x _. by rewrite Z.lxor_assoc, Z.lxor_nilpotent, Z.lxor_0_r.
  - intros key iv x Hx. by apply lxor_width.
  - intros key iv x Hx. by apply lxor_width.
  - intros password salt. by apply wrap_in_width.
Qed.

#[export] Instance wallet_config : WalletConfig := {| receive_minimum := 1; generate_work := work_for |}.

(** The first byte of the work makes the last byte of the digest take any value. *)
Lemma fold_digest s acc :
  fold_left (fun acc b => 3 * acc + Z_of_byte b) s acc = 3 ^ Z.of_nat (length s) * acc + digest s.
Proof.
  unfold digest. revert acc. induction s as [|x s IH]; intros acc; cbn [fold_left length]; [change (3 ^ Z.of_nat 0) with 1; lia|].
  rewrite IH, (IH (3 * 0 + _)), Nat2Z.inj_succ, Z.pow_succ_r by lia. ring.
Qed.

Lemma of_le_bytes_snoc s b : of_le_bytes (s ++ [b]) = of_le_bytes s + 256 ^ Z.of_nat (length s) * Z_of_byte b.
Proof.
  assert (forall x l, of_le_bytes (x :: l) = Z_of_byte x + 256 * of_le_bytes l) as Hc by done.
  induction s as [|x s IH]; cbn [app length]; rewrite !Hc; [change (of_le_bytes []) with 0; change (256 ^ Z.of_nat 0) with 1; ring|].
  rewrite IH, Nat2Z.inj_succ, Z.pow_succ_r by lia. ring.
Qed.

Lemma last_byte_work r w : digest (le_bytes 8 w ++ be_bytes 32 r) mod 256 = 255 -> work_validate r w = false.
Proof.
  unfold work_validate, work_value. cbn [blake2b env]. generalize (digest (le_bytes 8 w ++ be_bytes 32 r)) as d. intros d Hd.
  apply Z.ltb_ge. unfold be_bytes. change (le_bytes 8 d) with (byte_of_Z d :: le_bytes 7 (Z.shiftr d 8)). rewrite reverse_cons, of_le_bytes_snoc, Z_of_byte_of_Z, length_reverse, le_bytes_length.
  rewrite Hd.
  match goal with |- _ <= ?x + _ => assert (0 <= x) by apply of_le_bytes_range end.
  change publish_threshold with (256 ^ 7 * 255). 
  change (Z.of_nat 7) with 7. lia.
Qed.

Lemma digest_cons x s : digest (x :: s) = 3 ^ Z.of_nat (length s) * Z_of_byte x + digest s.
Proof. unfold digest at 1. cbn [fold_left]. by rewrite fold_digest. Qed.

(** 3 is odd. *)
Lemma byte_reached d : (3 ^ 39 * ((255 - d) * 3 ^ 25 mod 256) + d) mod 256 = 255.
Proof.
  rewrite <- Zplus_mod_idemp_l, Zmult_mod_idemp_r, Zplus_mod_idemp_l.
  replace (3 ^ 39 * ((255 - d) * 3 ^ 25) + d) with (255 + (3 ^ 64 / 256) * (255 - d) * 256).
  - by rewrite Z_mod_plus_full.
  - assert (3 ^ 39 * 3 ^ 25 = 1 + 3 ^ 64 / 256 * 256) as E by by vm_compute.
    replace (3 ^ 39 * ((255 - d) * 3 ^ 25)) with (3 ^ 39 * 3 ^ 25 * (255 - d)) by ring. rewrite E. ring.
Qed.

Definition zeros : stream := repeat (byte_of_Z 0) 7.

Lemma le_bytes_small w : 0 <= w < 256 -> le_bytes 8 w = byte_of_Z w :: zeros.
Proof.
  intros Hw. change (le_bytes 8 w) with (byte_of_Z w :: le_bytes 7 (Z.shiftr w 8)).
  by rewrite (Z.shiftr_div_pow2 w 8), Z.div_small by lia.
Qed.

Lemma work_reached r : exists w, 0 <= w < 256 /\ work_validate r w = false.
Proof.
  pose (d := digest (zeros ++ be_bytes 32 r)). exists ((255 - d) * 3 ^ 25 mod 256).
  assert (0 <= (255 - d) * 3 ^ 25 mod 256 < 256) as Hw by (apply Z.mod_pos_bound; lia). split; [done|].
  apply last_byte_work. rewrite le_bytes_small by done. rewrite <- app_comm_cons, digest_cons.
  assert (Z.of_nat (length (zeros ++ be_bytes 32 r)) = 39) as -> by by rewrite length_app, be_bytes_length.
  rewrite Z_of_byte_of_Z, (Z.mod_small (_ mod _)) by done. apply byte_reached.
Qed.

Lemma work_for_valid r : work_validate r (work_for r) = false.
Proof.
  unfold work_for. destruct (List.find _ _) as [w|] eqn:Hf.
  - apply find_some in Hf as [_ Hf]. by apply negb_true_iff in Hf.
  - exfalso. destruct (work_reached r) as (w & Hw & Hv).
    assert (In w (Z.of_nat <$> seq 0 256)) as Hin.
    { apply list_elem_of_In, list_elem_of_fmap. exists (Z.to_nat w). split; [lia|]. apply elem_of_seq. lia. }
    pose proof (find_none _ _ Hf _ Hin) as Hn. cbn beta in Hn. by rewrite Hv in Hn.
Qed.

#[export] Instance wallet_laws : WalletLaws.
Proof.
  split; [apply work_for_valid|]. intros prv message. unfold validate_message, sign_message. cbn [ed25519_sign ed25519_sign_open env].
  by rewrite Z.eqb_refl.
Qed.

(** ** Wallets *)

(** A new wallet with seed 77 and the private keys of the accounts 1000 and 2000. *)
Definition wallet_0 : wallet_store :=
  default (WalletStore ∅ (Fan 0 []) (Fan 0 [])) (wallet_open 3000 (2 ^ 130 + 5) 42 77 [5; 6] [9] ∅).
Definition adhoc (prv : Z) (ws : wallet_store) : wallet_store := default ws (snd <$> insert_adhoc prv ws).
Definition wallet_1 : wallet_store := adhoc 993 wallet_0.
Definition wallet_2 : wallet_store := adhoc 1993 wallet_1.

Lemma insert_adhoc_fetch_witness :
  let pub := ed25519_publickey 1993 in
  pub = 2000 /\ exists ws', insert_adhoc 1993 wallet_1 = Some (pub, ws') /\ same_secrets wallet_1 ws' /\ fetch ws' pub = Some (Some 1993)
    /\ forall k, k <> pub -> fetch ws' k = fetch wallet_1 k.
Proof. split; [by vm_compute|]. apply (insert_adhoc_fetch 1993 wallet_1); by vm_compute. Defined.

(** The indices that [deterministic_insert] may try. *)
Definition indices : list Z := Z.of_nat <$> seq 0 10.

Lemma indices_elem i : 0 <= i <= 9 -> i ∈ indices.
Proof. intros Hi. apply list_elem_of_fmap. exists (Z.to_nat i). split; [lia|]. apply elem_of_seq. lia. Qed.

Lemma indices_special i : 0 <= i <= 9 -> special_count <= derived_pub wallet_2 i.
Proof.
  intros Hi%indices_elem. revert i Hi. apply Forall_forall. apply (bool_decide_unpack _). by vm_compute.
Qed.

Lemma indices_distinct i j : 0 <= i <= 9 -> 0 <= j <= 9 -> derived_pub wallet_2 i = derived_pub wallet_2 j -> i = j.
Proof.
  assert (NoDup (derived_pub wallet_2 <$> indices)) as Hn by (apply (bool_decide_unpack _); by vm_compute).
  intros Hi Hj E. assert (forall k, 0 <= k <= 9 -> (derived_pub wallet_2 <$> indices) !! Z.to_nat k = Some (derived_pub wallet_2 k)) as Hl.
  { intros k Hk. unfold indices. rewrite !list_lookup_fmap, lookup_seq_lt by lia. cbn [fmap option_fmap option_map].
    by rewrite Nat.add_0_l, Z2Nat.id by lia. }
  pose proof (Hl i Hi) as H1. pose proof (Hl j Hj) as H2. rewrite E in H1. rewrite NoDup_alt in Hn.
  pose proof (Hn _ _ _ H1 H2). lia.
Qed.

Lemma deterministic_insert_fetch_witness :
  exists j ws', deterministic_insert wallet_2 = Some (derived_pub wallet_2 j, ws')
    /\ deterministic_index_get wallet_2 <= j /\ wallet_exists wallet_2 (derived_pub wallet_2 j) = false
    /\ fetch ws' (derived_pub wallet_2 j) = Some (Some (derived wallet_2 j))
    /\ (forall k, special_count <= k -> k <> derived_pub wallet_2 j -> fetch ws' k = fetch wallet_2 k)
    /\ deterministic_index_get ws' = wrap 32 (j + 1).
Proof.
  apply (deterministic_insert_fetch wallet_2); [by vm_compute|].
  split; [by vm_compute|exact indices_special|exact indices_distinct].
Defined.

Lemma seed_set_spec_witness :
  exists ws', seed_set 78 wallet_2 = Some ws' /\ wallet_seed ws' = 78 /\ deterministic_index_get ws' = 0
    /\ valid_password ws' = valid_password wallet_2
    /\ forall k, special_count <= k ->
         if decide (key_type_of (entry_get_raw wallet_2 k) = kt_deterministic)
         then wallet_exists ws' k = false else fetch ws' k = fetch wallet_2 k.
Proof. apply (seed_set_spec 78 wallet_2). by vm_compute. Defined.

(** ** Passwords, backups and moves *)

Lemma wallet_2_ok : wallet_ok wallet_2.
Proof.
  split.
  - assert (map_Forall (fun k v => in_width 256 k /\ in_width 256 (wv_key v)) (ws_entries wallet_2)) as H
      by (apply (bool_decide_unpack _); by vm_compute). exact H.
  - by vm_compute.
Qed.

Definition password_1 : stream := byte_of_Z <$> [104; 111].

Lemma password_recovers_witness :
  fetch wallet_2 1000 = Some (Some 993)
  /\ exists ws1 ws2 ws3, rekey password_1 wallet_2 = (false, ws1)
    /\ wallet_open 1 2 3 4 [8] [] (ws_entries ws1) = Some ws2
    /\ attempt_password password_1 5 ws2 = Some (false, ws3) /\ wallet_ok ws1
    /\ forall k, k <> wallet_key_special -> fetch ws1 k = fetch wallet_2 k /\ fetch ws3 k = fetch wallet_2 k.
Proof.
  split; [by vm_compute|].
  apply (password_recovers password_1 wallet_2 1 2 3 4 5 [8] [] wallet_2_ok); by vm_compute.
Defined.

Definition wallet_3 : wallet_store := snd (rekey password_1 wallet_2).

Lemma wallet_3_ok : wallet_ok wallet_3.
Proof.
  destruct (rekey_ok password_1 wallet_2 wallet_2_ok) as (ws' & E & Hok & _); [by vm_compute|].
  unfold wallet_3. by rewrite E.
Qed.

Lemma backup_restores_witness :
  exists ws1 ws2, wallet_restore (serialize_tree wallet_3) [1; 2] [] = (false, ws1)
    /\ attempt_password password_1 5 ws1 = Some (false, ws2)
    /\ forall k, fetch ws2 k = fetch wallet_3 k.
Proof.
  apply (backup_restores password_1 5 wallet_3 [1; 2] [] wallet_3_ok); [by vm_compute..|].
  apply Forall_forall. repeat constructor; by eexists; vm_compute.
Defined.

Lemma movable_1 : movable wallet_0 wallet_2 2000.
Proof. split; [by vm_compute|]. exists 1993. split; [by vm_compute|]. split; by vm_compute. Qed.

Lemma move_keys_spec_witness :
  exists ws' other', move_keys [2000] wallet_0 wallet_2 = Some (false, ws', other')
    /\ (forall k, k ∈ [2000] -> fetch ws' k = fetch wallet_2 k /\ ws_entries other' !! k = None)
    /\ (forall k, k ∉ [2000] -> fetch ws' k = fetch wallet_0 k /\ ws_entries other' !! k = ws_entries wallet_2 !! k).
Proof.
  apply (move_keys_spec [2000] wallet_0 wallet_2); [by vm_compute|by vm_compute|by apply NoDup_singleton|].
  intros k ->%list_elem_of_singleton. apply movable_1.
Defined.

(** ** Sending and receiving *)

Definition wallet_at (l : ledger) (ws : wallet_store) : wallet_node := WalletNode (node_with l [] []) ws ∅.

Lemma wallet_at_ok l ws : reachable l -> node_ok (wn_node (wallet_at l ws)).
Proof. intros Hl. by apply node_with_ok. Qed.

Definition clock_1 (n : nat) : Z := 5 + Z.of_nat n.

Lemma nothing_waits b b' : hash b <> hash send_1 -> hash b <> hash open_1 -> ~ waiting caches_1 (hash b) b'.
Proof. intros H1 H2 [[E _]|[E _]]%caches_1_waiting; [exact (H1 E)|exact (H2 E)]. Qed.

(** A block that the ledger accepts, alone in the queue. *)
Lemma alone_1 now l b nd1 :
  reachable l -> admitted b -> work_validate_block b = false -> option_map (fun x => pr_code (snd x)) (process b l) = Some progress ->
  hash b <> hash send_1 -> hash b <> hash open_1 ->
  process_active now b (node_with l [] []) = Some nd1 -> ~ meets_foreign nd1.
Proof.
  intros Hl Hb Hw Hp H1 H2 Ha. destruct (process b l) as [[l' r]|] eqn:E; [|done]. injection Hp as Hr.
  destruct (process_active_queues now b (node_with l [] []) Hw) as (nd & Ha' & Hled & Hc & Hf & Hbl & Hok).
  rewrite Ha in Ha'. injection Ha' as <-.
  apply (alone_undisturbed genesis_nonzero genesis_admitted nd1 b l' r); [|exact Hf|by apply Hbl|by rewrite Hled|done|].
  - apply Hok; [by apply node_with_ok|done].
  - rewrite Hc. intros b'. exact (nothing_waits b b' H1 H2).
Qed.

(** The block of an action, with its work. *)
Lemma made_Some (r : option (option block)) b0 b : r = Some (Some b0) -> with_work <$> mjoin r = Some b -> with_work b0 = b.
Proof. intros -> H. exact (Some_inj _ _ H). Qed.

Lemma send_action_accepted_witness :
  exists wn' fx, send_action 5 clock_1 1000 2000 100 true None (wallet_at ledger_0 wallet_2) = Some (Some state_3, wn', fx)
    /\ have_blocks (wn_node wn') = false /\ block_exists (wn_store wn') (hash state_3) = true
    /\ account_balance (wn_store wn') 1000 = account_balance (l_store ledger_0) 1000 - 100
    /\ pending_get (wn_store wn') (PendingKey 2000 (hash state_3)) = Some (PendingInfo 1000 100).
Proof.
  destruct (send_action_accepted genesis_nonzero genesis_admitted 5 clock_1 1000 2000 100 true (wallet_at ledger_0 wallet_2) 993)
    as (b0 & nd1 & Hm & Ha & Hq & Hp); [apply wallet_at_ok, reachable_0|by vm_compute|by vm_compute|].
  assert (with_work b0 = state_3) as Eb by (apply (made_Some _ _ _ Hm); by vm_compute). cbv zeta in *. rewrite Eb in Ha, Hq, Hp.
  destruct (Hp admitted_state_3) as (l' & r & Hpr & _ & Hbal & Hpend & Hset).
  destruct Hset as (wn' & fx & Hs & _ & Hnb & Hin).
  { eapply (alone_1 5 ledger_0 state_3); [apply reachable_0|apply admitted_state_3|by vm_compute..|exact Ha]. }
  destruct Hin as [Hex Hl]; [by vm_compute|done|]. exists wn', fx. split; [exact Hs|]. split; [exact Hnb|]. split; [exact Hex|].
  unfold wn_store. rewrite Hl; [by split|done|]. intros b'. apply nothing_waits; by vm_compute.
Defined.

Lemma receive_action_accepted_witness :
  (exists wn' fx, receive_action 5 clock_1 send_1 3000 100 true (wallet_at ledger_1 wallet_2) = Some (Some state_4, wn', fx)
    /\ have_blocks (wn_node wn') = false /\ block_exists (wn_store wn') (hash state_4) = true
    /\ account_balance (wn_store wn') 2000 = account_balance (l_store ledger_1) 2000 + 100
    /\ pending_get (wn_store wn') (PendingKey 2000 (hash send_1)) = None)
  /\ receive_action 5 clock_1 send_1 3000 0 true (wallet_at ledger_1 wallet_2) = Some (None, wallet_at ledger_1 wallet_2, []).
Proof.
  split.
  2: { apply (receive_action_accepted genesis_nonzero genesis_admitted 5 clock_1 send_1 3000 0 true (wallet_at ledger_1 wallet_2) 2000 (PendingInfo 1000 100) 1993);
         [apply wallet_at_ok, reachable_1|by vm_compute..]. }
  destruct (receive_action_accepted genesis_nonzero genesis_admitted 5 clock_1 send_1 3000 100 true (wallet_at ledger_1 wallet_2) 2000 (PendingInfo 1000 100) 1993)
    as [_ Hmore]; [apply wallet_at_ok, reachable_1|by vm_compute..|].
  destruct Hmore as (b0 & nd1 & Hm & Ha & Hq & Hp); [by vm_compute|].
  assert (with_work b0 = state_4) as Eb by (apply (made_Some _ _ _ Hm); by vm_compute). cbv zeta in *. rewrite Eb in Ha, Hq, Hp.
  destruct (Hp admitted_state_4) as (l' & r & Hpr & _ & Hbal & Hpend & Hset).
  destruct Hset as (wn' & fx & Hs & _ & Hnb & Hin).
  { eapply (alone_1 5 ledger_1 state_4); [apply reachable_1|apply admitted_state_4|by vm_compute..|exact Ha]. }
  destruct Hin as [Hex Hl]; [by vm_compute|done|]. exists wn', fx. split; [exact Hs|]. split; [exact Hnb|]. split; [exact Hex|].
  unfold wn_store. rewrite Hl; [by split|done|]. intros b'. apply nothing_waits; by vm_compute.
Defined.

(** ** A new seed *)

Lemma range_forall (P : Z -> bool) lo n :
  forallb P (Z.of_nat <$> seq lo n) = true -> forall i, Z.of_nat lo <= i < Z.of_nat lo + Z.of_nat n -> P i = true.
Proof.
  intros H i Hi. rewrite forallb_forall in H. apply H, list_elem_of_In, list_elem_of_fmap. exists (Z.to_nat i).
  split; [lia|]. apply elem_of_seq. lia.
Qed.

(** With seed 24, account 2000 has index 49. *)
Lemma seed_pub_24 i : 0 <= i <= 118 -> seed_pub 24 i = 1951 + i.
Proof.
  intros Hi. apply Z.eqb_eq. apply (range_forall (fun i => seed_pub 24 i =? 1951 + i) 0 119); [by vm_compute|lia].
Qed.

(** No other index is found. *)
Lemma found_24 i : found (l_store ledger_1) 24 i -> i = 0 \/ i = 49.
Proof.
  assert (forallb (fun i => (i =? 49) || negb (account_used (l_store ledger_1) (seed_pub 24 i))) (Z.of_nat <$> seq 1 112) = true) as Hu
    by by vm_compute.
  induction 1 as [|j i _ [-> | ->] Hi Huse]; [by left|right..].
  - change (0 + 64 + 0 / 64) with 64 in Hi. pose proof (range_forall _ 1 112 Hu i ltac:(lia)) as H. cbv beta in H.
    rewrite Huse, orb_false_r in H. by apply Z.eqb_eq in H.
  - change (49 + 64 + 49 / 64) with 113 in Hi. pose proof (range_forall _ 1 112 Hu i ltac:(lia)) as H. cbv beta in H.
    rewrite Huse, orb_false_r in H. by apply Z.eqb_eq in H.
Qed.

Lemma distinct_24 : distinct_keys 24 118.
Proof.
  split; [lia| |].
  - intros i Hi. rewrite seed_pub_24 by done. unfold special_count. lia.
  - intros i j Hi Hj. rewrite !seed_pub_24 by done. lia.
Qed.

Lemma found_49 : found (l_store ledger_1) 24 49.
Proof. apply (found_next _ _ 0); [constructor|by vm_compute|by vm_compute]. Qed.

Definition full_fuel : nat := Z.to_nat (2 ^ 32).
Lemma full_fuel_enough : 2 ^ 32 <= Z.of_nat full_fuel.
Proof. unfold full_fuel. rewrite Z2Nat.id; lia. Qed.

Lemma seed_scan_ends_witness :
  exists c, seed_scan full_fuel (l_store ledger_1) wallet_0 1 64 0 = Some c
    /\ (c = 0 \/ 1 <= c < 2 ^ 32 /\ account_used (l_store ledger_1) (seed_pub (wallet_seed wallet_0) c) = true).
Proof. apply (seed_scan_ends (l_store ledger_1) full_fuel wallet_0); [by vm_compute|exact full_fuel_enough]. Defined.

Lemma change_seed_finds_witness :
  exists account ws' fx, change_seed full_fuel 24 (l_store ledger_1) wallet_0 = Some (account, ws', fx) /\ wallet_seed ws' = 24
    /\ wallet_exists ws' 2000 = true /\ fetch ws' 2000 = Some (Some 1993).
Proof.
  destruct (change_seed_finds 24 (l_store ledger_1) wallet_0 118 full_fuel) as (account & ws' & fx & Hc & Hs & Hf);
    [by vm_compute|by vm_compute|exact distinct_24| |exact full_fuel_enough|].
  { assert (Z.of_nat (size (ws_entries wallet_0)) = 7) as -> by by vm_compute. intros i [-> | ->]%found_24; lia. }
  exists account, ws', fx. destruct (Hf 49 found_49) as [He Hfe]. change (seed_pub 24 49) with 2000 in *. change (seed_key 24 49) with 1993 in *.
  split; [exact Hc|]. split; [exact Hs|]. split; [exact He|]. apply Hfe. intros v Hv.
  assert (ws_entries wallet_0 !! 2000 = None) as Hn by by vm_compute. rewrite Hn in Hv. discriminate.
Defined.

(** In this ledger 113 turns are enough. *)
Example change_seed_runs :
  option_map (fun r => wallet_exists (snd (fst r)) 2000) (change_seed 113 24 (l_store ledger_1) wallet_0) = Some true.
Proof. by vm_compute. Qed.

(** ** The queue *)

(** A receive is queued twice, and a send of more than the account has. *)
Definition wallets_1 : wallets :=
  receive_async 1 send_1 3000 100 true (send_async 1 1000 2000 (2 ^ 128 - 1) true None (receive_async 1 send_1 3000 100 true
    (Wallets {[1 := wallet_2]} [] ∅ (node_with ledger_1 [] [])))).

Lemma queue_action_order_witness :
  in_order (wl_actions (queue_wallet_action 500 (act_work 1 1000 7) wallets_1))
  /\ forall p, with_priority p (wl_actions (queue_wallet_action 500 (act_work 1 1000 7) wallets_1))
       = with_priority p (wl_actions wallets_1) ++ (if decide (500 = p) then [(500, act_work 1 1000 7)] else []).
Proof. apply (queue_action_order 500 (act_work 1 1000 7) wallets_1). repeat constructor; by vm_compute. Defined.

Lemma wallets_1_ok : queue_ok wallets_1.
Proof.
  assert (forall a, safe_in wallet_2 a -> action_wallet a = 1 -> safe_action wallets_1 a) as Hs.
  { intros a Ha E. exists wallet_2. by rewrite E. }
  assert (keyed wallet_2 1000) as Hk by (split; [by vm_compute|]; intros _ _; exists 993; by vm_compute).
  assert (receivable send_1) as Hr by (split; [apply admitted_send_1|by vm_compute]).
  split; [apply node_with_ok; [apply reachable_1|constructor|constructor]|]. apply Forall_forall. by repeat constructor; apply Hs.
Qed.

(** The turns; the first receive makes [state_4], which the ledger takes, and the second
    finds nothing to receive. *)
Definition turns_1 : list (Z * (nat -> Z)) := replicate 6 (5, clock_1).
Definition next_action (w : wallets) : option block :=
  match wl_actions w with [] => None | (_, a) :: _ => composed w a end.

Definition after_turn (w : wallets) : wallets := default w (fst <$> do_wallet_action (5, clock_1) w).

Lemma turn_quiet now w : next_action w = None -> turn_undisturbed now w.
Proof.
  unfold next_action, turn_undisturbed. destruct (wl_actions w) as [|[p a] q]; [auto|]. intros E b H. rewrite E in H. discriminate H.
Qed.

Lemma run_next n w :
  turn_undisturbed 5 w -> run_undisturbed (replicate n (5, clock_1)) (after_turn w) ->
  run_undisturbed (replicate (S n) (5, clock_1)) w.
Proof.
  intros Ht Hr. cbn [replicate run_undisturbed]. split; [exact Ht|]. revert Hr. unfold after_turn.
  destruct (do_wallet_action (5, clock_1) w) as [[w' out]|]; [intros Hr; exact Hr|auto].
Qed.

Lemma first_receive : turn_undisturbed 5 (after_turn wallets_1).
Proof.
  assert (wl_node (after_turn wallets_1) = node_with ledger_1 [] []) as Hn by by vm_compute.
  assert (with_work <$> next_action (after_turn wallets_1) = Some state_4) as Hc by by vm_compute.
  unfold turn_undisturbed, next_action in *. destruct (wl_actions (after_turn wallets_1)) as [|[p a] q]; [exact I|].
  intros b Hb. rewrite Hb in Hc. apply Some_inj in Hc. rewrite Hc, Hn. split; [apply admitted_state_4|]. intros nd1 Ha.
  eapply (alone_1 5 ledger_1 state_4); [apply reachable_1|apply admitted_state_4|by vm_compute..|exact Ha].
Qed.

Lemma turns_1_undisturbed : run_undisturbed turns_1 wallets_1.
Proof.
  apply run_next; [apply turn_quiet; by vm_compute|]. apply run_next; [apply first_receive|].
  repeat (apply run_next; [apply turn_quiet; by vm_compute|]). exact I.
Qed.

Lemma wallet_queue_drains_witness :
  length (wl_actions wallets_1) = 3%nat
  /\ exists w' out, do_wallet_actions turns_1 wallets_1 = Some (w', out) /\ wl_actions w' = [] /\ node_ok (wl_node w')
       /\ (have_blocks (wl_node wallets_1) = false -> have_blocks (wl_node w') = false).
Proof.
  split; [done|]. apply (wallet_queue_drains genesis_nonzero genesis_admitted turns_1 wallets_1 wallets_1_ok turns_1_undisturbed).
  by vm_compute.
Defined.

(** An action whose wallet was destroyed meanwhile uses a wallet that is gone. *)
Example destroyed_while_queued :
  option_map wl_actions (wallets_destroy 1 wallets_1) = Some (wl_actions wallets_1)
  /\ (wallets_destroy 1 wallets_1 ≫= do_wallet_action (5, clock_1)) = None.
Proof. by vm_compute. Qed.

(** ** Watched accounts and empty sends *)

(** Watching an account whose private key the wallet has loses the key. *)
Example watch_loses_key :
  fetch wallet_2 1000 = Some (Some 993) /\ fetch (insert_watch 1000 wallet_2) 1000 = Some None.
Proof. by vm_compute. Qed.

(** Watching the account whose number is that of the check value replaces the check value:
    the password is no longer accepted. *)
Example watch_special_locks :
  valid_password wallet_2 = true /\ valid_password (insert_watch check_special wallet_2) = false.
Proof. by vm_compute. Qed.

(** Watching the burn account replaces the version of the wallet by 0. *)
Example watch_burn_version :
  wallet_version wallet_2 = 3 /\ wallet_version (insert_watch version_special wallet_2) = 0.
Proof. by vm_compute. Qed.

(** A send from a watched account with a balance fails an assertion, and so does a change
    of its representative. *)
Example watch_only_asserts :
  let ws := insert_watch 1000 wallet_0 in
  wallet_exists ws 1000 = true /\ send_action 5 clock_1 1000 2000 100 true None (wallet_at ledger_0 ws) = None
  /\ change_action 5 clock_1 1000 3000 true (wallet_at ledger_0 ws) = None.
Proof. by vm_compute. Qed.

(** A send of nothing is made and queued, but the ledger takes the block for a receive and
    refuses it. *)
Example empty_send_refused :
  exists b wn' fx, send_action 5 clock_1 1000 2000 0 true None (wallet_at ledger_0 wallet_2) = Some (Some b, wn', fx)
    /\ block_exists (wn_store wn') (hash b) = false /\ option_map (fun x => pr_code (snd x)) (process b ledger_0) = Some gap_source.
Proof. do 3 eexists. split; [by vm_compute|]. by vm_compute. Qed.
End WalletWitnesses.
