(* ===== verification/Primes.v ===== *)
(** * Primes: primality certificates

    Pocklington's criterion, by which a number is shown to be prime from prime factors of
    its predecessor, and the prime [2 ^ 255 - 19] over which Ed25519 computes. *)

From Stdlib Require Import ZArith Zdivisibility Zpow_facts List Lia.
From Stdlib Require Import Zmod.
Import ListNotations.
#[local] Open Scope Z_scope.

(** ** Congruence *)

Lemma mod_divide_sub p a b : p <> 0 -> a mod p = b mod p <-> (p | a - b).
Proof.
  intros Hp. rewrite <- Z.mod_divide by exact Hp. split; intros H.
  - now rewrite Zminus_mod, H, Z.sub_diag, Z.mod_0_l.
  - replace a with (b + (a - b)) by lia. now rewrite Zplus_mod, H, Z.add_0_r, Z.mod_mod.
Qed.

Lemma mod_pow_1 p a n : 1 < p -> a mod p = 1 -> 0 <= n -> (a ^ n) mod p = 1.
Proof. intros Hp H Hn. rewrite Zpower_mod, H, Z.pow_1_l by lia. now apply Z.mod_1_l. Qed.

Definition divide_dec a b : {(a | b)} + {~ (a | b)}.
Proof.
  destruct (Z.eq_dec a 0) as [->|Ha].
  - destruct (Z.eq_dec b 0) as [->|Hb]; [left; apply Z.divide_refl|right]. now intros H%Z.divide_0_l.
  - destruct (Z.eq_dec (b mod a) 0) as [H|H]; [left|right]; now rewrite <- Z.mod_divide.
Defined.

(** ** Pocklington's criterion *)

(** If [b] has order [q] modulo a prime [l], then [q] divides [l - 1]. *)
Lemma order_divides l q b : Z.prime l -> Z.prime q -> b mod l <> 0 -> b ^ q mod l = 1 -> b mod l <> 1 -> (q | l - 1).
Proof.
  intros Hl Hq Hb Hbq Hb1. pose proof (Z.prime_ge_2 l Hl). pose proof (Z.prime_ge_2 q Hq).
  pose proof (Z.fermat_nz l b Hl Hb) as Hf. replace (Z.pred l) with (l - 1) in Hf by lia. rewrite ?(Z.mod_1_l l) in Hf by lia.
  destruct (divide_dec q (l - 1)) as [Hd|Hd]; [assumption|]. exfalso. apply Hb1.
  destruct (Z.eq_dec l 2) as [->|Hl2]; [now rewrite Z.pow_1_r in Hf|].
  pose proof (Z.coprime_prime_l q (l - 1) Hq Hd) as Hcop. apply Z.Bezout_coprime in Hcop as (u & v & Huv).
  set (u' := u mod (l - 1)). assert (0 <= u') as Hu' by (apply Z.mod_pos_bound; lia).
  assert (exists v', u' * q = 1 + v' * (l - 1)) as [v' Hv'].
  { exists (- v - u / (l - 1) * q). unfold u'. rewrite Z.mod_eq by lia.
    transitivity (u * q - (l - 1) * (u / (l - 1)) * q); [ring|]. replace (u * q) with (1 - v * (l - 1)) by lia. ring. }
  assert (0 <= v') as Hv0 by nia.
  assert (b ^ (u' * q) mod l = 1) as H1.
  { rewrite (Z.mul_comm u'), Z.pow_mul_r by lia. apply mod_pow_1; [lia|assumption|lia]. }
  rewrite Hv', Z.pow_add_r, Z.pow_1_r, Zmult_mod in H1 by nia.
  rewrite (Z.mul_comm v'), Z.pow_mul_r, (mod_pow_1 l (b ^ (l - 1))) in H1 by (lia || assumption).
  now rewrite Z.mul_1_r, Z.mod_mod in H1 by lia.
Qed.

(** What is checked for one prime factor [q] of [n - 1], with base [a]. *)
Definition certifies (n a q : Z) : bool :=
  let c := Zpow_mod a ((n - 1) / q) n in
  (Zpow_mod c q n =? 1) && (Z.gcd (c - 1) n =? 1).

Lemma certifies_divides n a q l : 1 < n -> Z.prime q -> certifies n a q = true -> Z.prime l -> (l | n) -> (q | l - 1).
Proof.
  intros Hn Hq H Hl Hln. unfold certifies in H. rewrite !Bool.andb_true_iff, !Z.eqb_eq, !Zpow_mod_correct in H by lia.
  destruct H as [Hc Hg]. set (c := a ^ ((n - 1) / q) mod n) in *. pose proof (Z.prime_ge_2 l Hl). pose proof (Z.prime_ge_2 q Hq).
  assert (c ^ q mod l = 1) as Hcl.
  { rewrite <- (Z.mod_1_l n) in Hc by lia. apply mod_divide_sub in Hc; [|lia]. rewrite <- (Z.mod_1_l l) by lia.
    apply mod_divide_sub; [lia|]. eapply Z.divide_trans; eassumption. }
  apply (order_divides l q c); [assumption..| |assumption|].
  - intros Hd. rewrite Zpower_mod, Hd, Z.pow_0_l, Z.mod_0_l in Hcl by lia. discriminate.
  - intros H1. assert ((l | Z.gcd (c - 1) n)) as Hd.
    { apply Z.gcd_greatest; [|assumption]. apply mod_divide_sub; [lia|]. now rewrite (Z.mod_1_l l) by lia. }
    rewrite Hg in Hd. apply Z.divide_1_r_nonneg in Hd; lia.
Qed.

(** A composite number has a prime factor whose square is not above it. *)
Lemma prime_factor n : 1 < n -> exists l, Z.prime l /\ (l | n).
Proof.
  intros Hn. assert (2 <= n) as Hn2 by lia. clear Hn. revert n Hn2. apply (Zlt_lower_bound_ind _ 2). intros n IH Hn.
  destruct (List.Exists_dec (fun k => (k | n)) (map Z.of_nat (seq 2 (Z.to_nat (n - 2)))) (fun k => divide_dec k n)) as [He|He].
  - apply Exists_exists in He as (k & (i & <- & Hi%in_seq)%in_map_iff & Hk).
    destruct (IH (Z.of_nat i)) as (l & Hl & Hd); [lia|]. exists l. split; [assumption|]. eapply Z.divide_trans; eassumption.
  - exists n. split; [|apply Z.divide_refl]. split; [lia|]. intros k Hk Hd. apply He, Exists_exists. exists k. split; [|assumption].
    apply in_map_iff. exists (Z.to_nat k). split; [lia|]. apply in_seq. lia.
Qed.

Lemma small_factor n : 1 < n -> Z.prime n \/ exists l, Z.prime l /\ (l | n) /\ l * l <= n.
Proof.
  intros Hn. destruct (prime_factor n Hn) as (k & Hpk & Hdk). destruct (Z.eq_dec k n) as [->|Hne]; [now left|right].
  pose proof (Z.prime_ge_2 k Hpk). pose proof (Z.divide_pos_le k n ltac:(lia) Hdk). destruct Hdk as [m Hm].
  assert (exists k, 1 < k /\ (k | n) /\ k * k <= n) as (c & Hc & Hcn & Hcc).
  { destruct (Z.le_gt_cases (k * k) n) as [Hle|Hgt].
    - exists k. repeat split; [lia|now exists m|lia].
    - exists m. repeat split; [nia|exists k; lia|nia]. }
  destruct (prime_factor c Hc) as (l & Hl & Hd). exists l. split; [assumption|]. split; [eapply Z.divide_trans; eassumption|].
  pose proof (Z.divide_pos_le l c ltac:(lia) Hd). pose proof (Z.prime_ge_2 l Hl). nia.
Qed.

(** One or two prime factors of [n - 1] that are large enough. *)
Theorem pocklington_1 n a q : 1 < n -> Z.prime q -> n < (q + 1) * (q + 1) -> certifies n a q = true -> Z.prime n.
Proof.
  intros Hn Hq Hs Hc. destruct (small_factor n Hn) as [Hp|(l & Hl & Hd & Hll)]; [assumption|]. exfalso. pose proof (Z.prime_ge_2 l Hl). pose proof (Z.prime_ge_2 q Hq).
  pose proof (certifies_divides n a q l Hn Hq Hc Hl Hd) as Hdiv. apply Z.divide_pos_le in Hdiv; nia.
Qed.

Theorem pocklington_2 n a1 q1 a2 q2 : 1 < n -> Z.prime q1 -> Z.prime q2 -> q1 <> q2 ->
  n < (q1 * q2 + 1) * (q1 * q2 + 1) -> certifies n a1 q1 = true -> certifies n a2 q2 = true -> Z.prime n.
Proof.
  intros Hn Hq1 Hq2 Hne Hs Hc1 Hc2. destruct (small_factor n Hn) as [Hp|(l & Hl & Hd & Hll)]; [assumption|]. exfalso. pose proof (Z.prime_ge_2 l Hl).
  pose proof (Z.prime_ge_2 q1 Hq1). pose proof (Z.prime_ge_2 q2 Hq2).
  pose proof (certifies_divides n a1 q1 l Hn Hq1 Hc1 Hl Hd) as [k Hk].
  pose proof (certifies_divides n a2 q2 l Hn Hq2 Hc2 Hl Hd) as H2. rewrite Hk in H2.
  apply (Z.divide_prime_mul _ _ _ Hq2) in H2 as [[j Hj]|H2].
  - subst k. set (r := q1 * q2) in *. assert (l - 1 = j * r) as Hr by (unfold r; rewrite Hk; ring).
    assert (0 < r) by (unfold r; nia). assert (0 < j) by (destruct (Z.le_gt_cases j 0); [nia|assumption]).
    assert (r <= l - 1) by nia. nia.
  - apply (Z.divide_prime_prime _ _ Hq2 Hq1) in H2. congruence.
Qed.

(** Trial division. *)
Definition no_divisor (n : Z) : bool :=
  forallb (fun k => negb (n mod Z.of_nat k =? 0)) (seq 2 (Z.to_nat (Z.sqrt n) - 1)).

Lemma trial_division n : 1 < n -> no_divisor n = true -> Z.prime n.
Proof.
  intros Hn H. destruct (small_factor n Hn) as [Hp|(l & Hl & Hd & Hll)]; [assumption|]. exfalso. pose proof (Z.prime_ge_2 l Hl).
  unfold no_divisor in H. rewrite forallb_forall in H. specialize (H (Z.to_nat l)).
  assert (l <= Z.sqrt n) as Hs by (apply Z.sqrt_le_square; lia).
  rewrite Z2Nat.id, (proj2 (Z.mod_divide n l ltac:(lia)) Hd) in H by lia. discriminate H. apply in_seq. lia.
Qed.

(** ** The prime of Ed25519 *)

Definition p25519 : Z := 2 ^ 255 - 19.

Lemma prime_430751 : Z.prime 430751. Proof. apply trial_division; [lia|now vm_compute]. Qed.
Lemma prime_4153 : Z.prime 4153. Proof. apply trial_division; [lia|now vm_compute]. Qed.
Lemma prime_569003 : Z.prime 569003. Proof. apply trial_division; [lia|now vm_compute]. Qed.
Lemma prime_127 : Z.prime 127. Proof. apply trial_division; [lia|now vm_compute]. Qed.
Lemma prime_991 : Z.prime 991. Proof. apply trial_division; [lia|now vm_compute]. Qed.
Lemma prime_103 : Z.prime 103. Proof. apply trial_division; [lia|now vm_compute]. Qed.

Lemma prime_a : Z.prime 8574133.
Proof. apply (pocklington_2 _ 2 991 2 103); [lia|apply prime_991|apply prime_103|lia|lia|now vm_compute..]. Qed.
Lemma prime_b : Z.prime 1919519569386763.
Proof. apply (pocklington_2 _ 2 8574133 2 127); [lia|apply prime_a|apply prime_127|lia|lia|now vm_compute..]. Qed.
Lemma prime_c : Z.prime 2773320623.
Proof. apply (pocklington_1 _ 2 569003); [lia|apply prime_569003|lia|now vm_compute]. Qed.
Lemma prime_d : Z.prime 72106336199.
Proof. apply (pocklington_1 _ 2 2773320623); [lia|apply prime_c|lia|now vm_compute]. Qed.
Lemma prime_e : Z.prime 75445702479781427272750846543864801.
Proof. apply (pocklington_2 _ 2 1919519569386763 2 72106336199); [lia|apply prime_b|apply prime_d|lia|lia|now vm_compute..]. Qed.
Lemma prime_f : Z.prime 31757755568855353.
Proof. apply (pocklington_2 _ 2 430751 2 4153); [lia|apply prime_430751|apply prime_4153|lia|lia|now vm_compute..]. Qed.
Lemma prime_g : Z.prime 74058212732561358302231226437062788676166966415465897661863160754340907.
Proof. apply (pocklington_2 _ 2 75445702479781427272750846543864801 2 31757755568855353); [lia|apply prime_e|apply prime_f|lia|lia|now vm_compute..]. Qed.

Theorem p25519_prime : Z.prime p25519.
Proof.
  apply (pocklington_1 _ 2 74058212732561358302231226437062788676166966415465897661863160754340907);
    [now vm_compute|apply prime_g|now vm_compute|now vm_compute].
Qed.
