(* ===== verification/Groups.v ===== *)
(** * Groups: multiples of an element of a commutative group

    The points of the curve of Ed25519 are a commutative group, and the scalar
    multiplications of ed25519-donna compute multiples of points. This file has the
    interface [CommGroup] and the laws of multiples by integers. *)

From Stdlib Require Import ZArith Lia.
#[local] Open Scope Z_scope.

Class CommGroup (A : Type) := {
  gzero : A;
  gadd : A -> A -> A;
  gneg : A -> A;
  gadd_comm P Q : gadd P Q = gadd Q P;
  gadd_assoc P Q R : gadd (gadd P Q) R = gadd P (gadd Q R);
  gadd_zero P : gadd P gzero = P;
  gadd_neg P : gadd P (gneg P) = gzero;
}.

Section group.
Context {A : Type} {G : CommGroup A}.
Implicit Types (P Q R : A) (m n : Z).

Lemma gadd_zero_l P : gadd gzero P = P.
Proof. rewrite gadd_comm. apply gadd_zero. Qed.

Lemma gadd_neg_l P : gadd (gneg P) P = gzero.
Proof. rewrite gadd_comm. apply gadd_neg. Qed.

Lemma gadd_cancel P Q R : gadd P Q = gadd P R -> Q = R.
Proof.
  intros H. rewrite <- (gadd_zero_l Q), <- (gadd_zero_l R), <- (gadd_neg_l P), !gadd_assoc. now f_equal.
Qed.

Lemma gneg_unique P Q : gadd P Q = gzero -> Q = gneg P.
Proof. intros H. apply (gadd_cancel P). now rewrite gadd_neg. Qed.

Lemma gneg_neg P : gneg (gneg P) = P.
Proof. symmetry. apply gneg_unique, gadd_neg_l. Qed.

Lemma gneg_zero : gneg gzero = gzero.
Proof. symmetry. apply gneg_unique, gadd_zero. Qed.

Lemma gneg_add P Q : gneg (gadd P Q) = gadd (gneg P) (gneg Q).
Proof.
  symmetry. apply gneg_unique. rewrite (gadd_comm P), gadd_assoc, <- (gadd_assoc P), gadd_neg, gadd_zero_l.
  apply gadd_neg.
Qed.

(** ** Multiples by integers *)

Definition gmul (n : Z) (P : A) : A :=
  match n with
  | Z0 => gzero
  | Zpos n => Pos.iter (gadd P) gzero n
  | Zneg n => gneg (Pos.iter (gadd P) gzero n)
  end.

Lemma gmul_succ n P : gmul (Z.succ n) P = gadd P (gmul n P).
Proof.
  destruct n as [|n|n].
  - reflexivity.
  - rewrite <- Pos2Z.inj_succ. simpl. apply Pos.iter_succ.
  - destruct (Pos.eq_dec n 1) as [->|Hn]; [simpl; now rewrite gadd_zero, gadd_neg|].
    replace (Z.succ (Zneg n)) with (Zneg (Pos.pred n)) by lia.
    simpl. rewrite <- (Pos.succ_pred n Hn) at 2. rewrite Pos.iter_succ, gneg_add, <- gadd_assoc, gadd_neg.
    now rewrite gadd_zero_l.
Qed.

Lemma gmul_pred n P : gmul (Z.pred n) P = gadd (gneg P) (gmul n P).
Proof.
  apply (gadd_cancel P). rewrite <- gmul_succ, Z.succ_pred, <- gadd_assoc, gadd_neg. now rewrite gadd_zero_l.
Qed.

Lemma gmul_add m n P : gmul (m + n) P = gadd (gmul m P) (gmul n P).
Proof.
  induction m as [|m IH|m IH] using Z.peano_ind.
  - simpl. now rewrite gadd_zero_l.
  - now rewrite Z.add_succ_l, !gmul_succ, IH, gadd_assoc.
  - now rewrite Z.add_pred_l, !gmul_pred, IH, gadd_assoc.
Qed.

Lemma gmul_1 P : gmul 1 P = P.
Proof. apply gadd_zero. Qed.

Lemma gmul_0 P : gmul 0 P = gzero.
Proof. reflexivity. Qed.

Lemma gmul_opp n P : gmul (- n) P = gneg (gmul n P).
Proof. apply gneg_unique. rewrite <- gmul_add, Z.add_opp_diag_r. reflexivity. Qed.

Lemma gmul_zero n : gmul n gzero = gzero.
Proof.
  induction n as [|n IH|n IH] using Z.peano_ind; [reflexivity|..].
  - now rewrite gmul_succ, IH, gadd_zero.
  - now rewrite gmul_pred, IH, gadd_zero, gneg_zero.
Qed.

Lemma gmul_mul m n P : gmul (m * n) P = gmul m (gmul n P).
Proof.
  induction m as [|m IH|m IH] using Z.peano_ind; [reflexivity|..].
  - now rewrite Z.mul_succ_l, Z.add_comm, gmul_add, IH, gmul_succ.
  - rewrite Z.mul_pred_l, <- Z.add_opp_l, gmul_add, IH, gmul_pred, gmul_opp. reflexivity.
Qed.

Lemma gmul_neg n P : gmul n (gneg P) = gneg (gmul n P).
Proof. rewrite <- (gmul_1 P) at 1. rewrite <- gmul_opp, <- gmul_mul, Z.mul_comm, Z.mul_opp_l, Z.mul_1_l. apply gmul_opp. Qed.

Lemma gmul_padd n P Q : gmul n (gadd P Q) = gadd (gmul n P) (gmul n Q).
Proof.
  assert (forall P1 P2 P3 P4, gadd (gadd P1 P2) (gadd P3 P4) = gadd (gadd P1 P3) (gadd P2 P4)) as Hswap.
  { intros P1 P2 P3 P4. rewrite !gadd_assoc, <- (gadd_assoc P2), (gadd_comm P2 P3), gadd_assoc. reflexivity. }
  induction n as [|n IH|n IH] using Z.peano_ind; [symmetry; apply gadd_zero|..].
  - now rewrite !gmul_succ, IH, Hswap.
  - now rewrite !gmul_pred, IH, gneg_add, Hswap.
Qed.

(** A multiple depends on its factor only modulo the order. *)
Lemma gmul_mod n l P : gmul l P = gzero -> gmul (n mod l) P = gmul n P.
Proof.
  intros H. rewrite (Z_div_mod_eq_full n l) at 2. now rewrite gmul_add, Z.mul_comm, gmul_mul, H, gmul_zero, gadd_zero_l.
Qed.
End group.
