(* ===== verification/Edwards.v ===== *)
(** * Edwards: the addition law of a twisted Edwards curve

    The curve [- x^2 + y^2 = 1 + d x^2 y^2] over a field in which -1 is a square and [d]
    is not: addition is complete (no denominator is ever zero), and the points of the
    curve are a commutative group. [Curve] instantiates it with the field and the
    constants of ed25519-donna. *)

From Stdlib Require Import ZArith NsatzTactic Field Eqdep_dec Bool.
Set Warnings "-notation-overridden,-notation-for-abbreviation".

Section edwards.
Context (F : Type) (f0 f1 : F) (fadd fmul fsub : F -> F -> F) (fopp : F -> F) (fdiv : F -> F -> F) (finv : F -> F).
Context (Fth : field_theory f0 f1 fadd fmul fsub fopp fdiv finv eq).
Context (feqb : F -> F -> bool) (feqb_eq : forall x y, feqb x y = true <-> x = y).
#[local] Notation "0" := f0.
#[local] Notation "1" := f1.
#[local] Infix "+" := fadd.
#[local] Infix "*" := fmul.
#[local] Infix "-" := fsub.
#[local] Infix "/" := fdiv.
#[local] Notation "- x" := (fopp x).
Context (d i : F) (i_square : i * i = - (1)) (two_nonzero : 1 + 1 <> 0) (d_nonsquare : forall x, x * x <> d).

Add Field edwards_field : Fth.

#[local] Instance edwards_ops : @Ring_ops F f0 f1 fadd fmul fsub fopp eq := {}.

#[local] Instance edwards_ring : Ring (Ro := edwards_ops).
Proof.
  constructor; [exact eq_equivalence|..]; repeat intro;
    cbv [equality eq_notation addition add_notation multiplication mul_notation subtraction sub_notation
         opposite opp_notation zero zero_notation one one_notation] in *; subst; try reflexivity; ring.
Qed.

#[local] Instance edwards_cring : Cring (Rr := edwards_ring).
Proof. intros x y. cbv. ring. Qed.

Lemma feq_dec (x y : F) : x = y \/ x <> y.
Proof.
  destruct (feqb x y) eqn:E; [left; now apply feqb_eq|right; intros H].
  apply feqb_eq in H. congruence.
Qed.

Lemma fmul_zero x y : x * y = 0 -> x = 0 \/ y = 0.
Proof.
  intros H. destruct (feq_dec x 0) as [->|Hx]; [now left|right].
  transitivity ((x * y) / x); [now field|]. rewrite H. now field.
Qed.

Lemma fmul_nonzero x y : x <> 0 -> y <> 0 -> x * y <> 0.
Proof. intros Hx Hy H. now destruct (fmul_zero x y H). Qed.

#[local] Instance edwards_domain : Integral_domain (Rcr := edwards_cring).
Proof. constructor; [exact fmul_zero|cbv; apply (F_1_neq_0 Fth)]. Qed.

(** ** Completeness *)

Definition e_on_curve (x y : F) : Prop := y * y - x * x = 1 + d * (x * x) * (y * y).

Definition sum_x (x1 y1 x2 y2 : F) : F := (x1 * y2 + y1 * x2) / (1 + d * x1 * x2 * y1 * y2).
Definition sum_y (x1 y1 x2 y2 : F) : F := (y1 * y2 + x1 * x2) / (1 - d * x1 * x2 * y1 * y2).

(** If [e = d x1 x2 y1 y2] had square 1, then [d] would be a square. *)
Lemma square_ratio x1 y1 x2 y2 s e : e_on_curve x1 y1 -> e_on_curve x2 y2 ->
  e = d * x1 * x2 * y1 * y2 -> e * e = 1 -> s * s = 1 -> i * x2 + s * y2 = 0.
Proof.
  unfold e_on_curve. intros H1 H2 He Hee Hs.
  destruct (feq_dec (i * x2 + s * y2) 0) as [|Hne]; [assumption|exfalso].
  assert (x1 * y1 <> 0) as Hxy.
  { intros E. apply (F_1_neq_0 Fth). rewrite <- Hee, He.
    replace (d * x1 * x2 * y1 * y2) with (d * x2 * y2 * (x1 * y1)) by ring. rewrite E. ring. }
  pose proof (fmul_nonzero _ _ Hxy Hne) as Hden.
  apply (d_nonsquare ((i * x1 + s * e * y1) / (x1 * y1 * (i * x2 + s * y2)))).
  assert ((i * x1 + s * e * y1) * (i * x1 + s * e * y1)
          = d * ((x1 * y1 * (i * x2 + s * y2)) * (x1 * y1 * (i * x2 + s * y2)))) as E by (clear Hne Hxy Hden; nsatz).
  revert E Hden. generalize (x1 * y1 * (i * x2 + s * y2)) (i * x1 + s * e * y1). intros den num E Hden.
  transitivity ((num * num) / (den * den)); [now field|]. rewrite E. now field.
Qed.

Lemma completeness x1 y1 x2 y2 : e_on_curve x1 y1 -> e_on_curve x2 y2 ->
  (d * x1 * x2 * y1 * y2) * (d * x1 * x2 * y1 * y2) <> 1.
Proof.
  intros H1 H2 He.
  pose proof (square_ratio x1 y1 x2 y2 1 _ H1 H2 eq_refl He ltac:(ring)) as Ha.
  pose proof (square_ratio x1 y1 x2 y2 (- (1)) _ H1 H2 eq_refl He ltac:(ring)) as Hb.
  assert ((1 + 1) * y2 = 0) as E.
  { transitivity ((i * x2 + 1 * y2) - (i * x2 + - (1) * y2)); [ring|]. rewrite Ha, Hb. ring. }
  apply fmul_zero in E as [E|E]; [contradiction|]. apply (F_1_neq_0 Fth). rewrite <- He, E. ring.
Qed.

Lemma denominators x1 y1 x2 y2 : e_on_curve x1 y1 -> e_on_curve x2 y2 ->
  1 + d * x1 * x2 * y1 * y2 <> 0 /\ 1 - d * x1 * x2 * y1 * y2 <> 0.
Proof.
  intros H1 H2. pose proof (completeness _ _ _ _ H1 H2) as Hc. revert Hc.
  generalize (d * x1 * x2 * y1 * y2). intros e Hc. split; intros E; apply Hc; nsatz.
Qed.

Lemma sum_on_curve x1 y1 x2 y2 : e_on_curve x1 y1 -> e_on_curve x2 y2 ->
  e_on_curve (sum_x x1 y1 x2 y2) (sum_y x1 y1 x2 y2).
Proof.
  intros H1 H2. destruct (denominators _ _ _ _ H1 H2) as [Hp Hm].
  unfold e_on_curve, sum_x, sum_y in *. field_simplify_eq; [|now split]. clear Hp Hm two_nonzero d_nonsquare i_square. nsatz.
Qed.

(** ** The commutative group of points *)

Definition e_on_curve_b (x y : F) : bool := feqb (y * y - x * x) (1 + d * (x * x) * (y * y)).

Lemma e_on_curve_b_spec x y : e_on_curve_b x y = true <-> e_on_curve x y.
Proof. apply feqb_eq. Qed.

Record epoint := EPoint { ex : F; ey : F; p_on : e_on_curve_b ex ey = true }.

Lemma epoint_on (P : epoint) : e_on_curve (ex P) (ey P).
Proof. apply e_on_curve_b_spec, p_on. Qed.

Lemma epoint_eq (P Q : epoint) : ex P = ex Q -> ey P = ey Q -> P = Q.
Proof.
  destruct P as [x y H], Q as [x' y' H']. simpl. intros -> ->. f_equal. apply UIP_dec, bool_dec.
Qed.

Lemma zero_on : e_on_curve_b 0 1 = true.
Proof. apply feqb_eq. ring. Qed.

Lemma neg_on (P : epoint) : e_on_curve_b (- ex P) (ey P) = true.
Proof. apply feqb_eq. transitivity (ey P * ey P - ex P * ex P); [ring|]. rewrite (epoint_on P). ring. Qed.

Lemma add_on (P Q : epoint) :
  e_on_curve_b (sum_x (ex P) (ey P) (ex Q) (ey Q)) (sum_y (ex P) (ey P) (ex Q) (ey Q)) = true.
Proof. apply e_on_curve_b_spec, sum_on_curve; apply epoint_on. Qed.

Definition pzero : epoint := EPoint 0 1 zero_on.
Definition pneg (P : epoint) : epoint := EPoint (- ex P) (ey P) (neg_on P).
Definition padd (P Q : epoint) : epoint := EPoint _ _ (add_on P Q).

Lemma padd_comm P Q : padd P Q = padd Q P.
Proof.
  apply epoint_eq; simpl; unfold sum_x, sum_y; f_equal; ring.
Qed.

Lemma padd_zero P : padd P pzero = P.
Proof.
  assert (1 <> 0) by apply (F_1_neq_0 Fth).
  apply epoint_eq; simpl; unfold sum_x, sum_y; field; [intros E|intros E]; apply (F_1_neq_0 Fth); rewrite <- E; ring.
Qed.

Lemma padd_neg P : padd P (pneg P) = pzero.
Proof.
  destruct (denominators _ _ _ _ (epoint_on P) (epoint_on (pneg P))) as [Hp Hm]. pose proof (epoint_on P) as Ho.
  unfold e_on_curve in Ho. apply epoint_eq; simpl in *; unfold sum_x, sum_y.
  - replace (ex P * ey P + ey P * - ex P) with 0 by ring. now field.
  - replace (ey P * ey P + ex P * - ex P) with (1 - d * ex P * - ex P * ey P * ey P); [now field|].
    transitivity (1 + d * (ex P * ex P) * (ey P * ey P)); [ring|]. rewrite <- Ho. ring.
Qed.

(** A nested sum, cleared of its inner fractions. *)
Lemma nested_x n1 d1 n2 d2 a b : d1 <> 0 -> d2 <> 0 -> 1 + d * (n1 / d1) * a * (n2 / d2) * b <> 0 ->
  d1 * d2 + d * n1 * n2 * a * b <> 0 /\
  ((n1 / d1) * b + (n2 / d2) * a) / (1 + d * (n1 / d1) * a * (n2 / d2) * b)
  = (n1 * d2 * b + n2 * d1 * a) / (d1 * d2 + d * n1 * n2 * a * b).
Proof.
  intros H1 H2 H. assert (d1 * d2 + d * n1 * n2 * a * b <> 0) as Hd.
  { intros E. apply H. transitivity ((d1 * d2 + d * n1 * n2 * a * b) / (d1 * d2)); [field; tauto|].
    rewrite E. field. tauto. }
  split; [exact Hd|]. field. tauto.
Qed.

Lemma nested_y n1 d1 n2 d2 a b : d1 <> 0 -> d2 <> 0 -> 1 - d * (n1 / d1) * a * (n2 / d2) * b <> 0 ->
  d1 * d2 - d * n1 * n2 * a * b <> 0 /\
  ((n2 / d2) * b + (n1 / d1) * a) / (1 - d * (n1 / d1) * a * (n2 / d2) * b)
  = (n2 * d1 * b + n1 * d2 * a) / (d1 * d2 - d * n1 * n2 * a * b).
Proof.
  intros H1 H2 H. assert (d1 * d2 - d * n1 * n2 * a * b <> 0) as Hd.
  { intros E. apply H. transitivity ((d1 * d2 - d * n1 * n2 * a * b) / (d1 * d2)); [field; tauto|].
    rewrite E. field. tauto. }
  split; [exact Hd|]. field. tauto.
Qed.

Lemma cross n1 d1 n2 d2 : d1 <> 0 -> d2 <> 0 -> n1 * d2 = n2 * d1 -> n1 / d1 = n2 / d2.
Proof.
  intros H1 H2 H. transitivity ((n1 * d2) / (d1 * d2)); [field; tauto|]. rewrite H. field. tauto.
Qed.

Lemma sum_flip x1 y1 x2 y2 : sum_x x1 y1 x2 y2 = sum_x x2 y2 x1 y1 /\ sum_y x1 y1 x2 y2 = sum_y x2 y2 x1 y1.
Proof. unfold sum_x, sum_y; split; f_equal; ring. Qed.

Lemma sum_assoc x1 y1 x2 y2 x3 y3 (H1 : e_on_curve x1 y1) (H2 : e_on_curve x2 y2) (H3 : e_on_curve x3 y3) :
  sum_x (sum_x x1 y1 x2 y2) (sum_y x1 y1 x2 y2) x3 y3 = sum_x (sum_x x3 y3 x2 y2) (sum_y x3 y3 x2 y2) x1 y1 /\
  sum_y (sum_x x1 y1 x2 y2) (sum_y x1 y1 x2 y2) x3 y3 = sum_y (sum_x x3 y3 x2 y2) (sum_y x3 y3 x2 y2) x1 y1.
Proof.
  destruct (denominators _ _ _ _ H1 H2) as [Hp1 Hm1]. destruct (denominators _ _ _ _ H3 H2) as [Hp2 Hm2].
  destruct (denominators _ _ _ _ (sum_on_curve _ _ _ _ H1 H2) H3) as [Hp3 Hm3].
  destruct (denominators _ _ _ _ (sum_on_curve _ _ _ _ H3 H2) H1) as [Hp4 Hm4].
  unfold sum_x, sum_y, e_on_curve in *.
  destruct (nested_x _ _ _ _ _ _ Hp1 Hm1 Hp3) as [Hd1 ->]. destruct (nested_x _ _ _ _ _ _ Hp2 Hm2 Hp4) as [Hd2 ->].
  destruct (nested_y _ _ _ _ _ _ Hp1 Hm1 Hm3) as [Hd3 ->]. destruct (nested_y _ _ _ _ _ _ Hp2 Hm2 Hm4) as [Hd4 ->].
  split; apply cross; try assumption; clear Hp1 Hp2 Hp3 Hp4 Hm1 Hm2 Hm3 Hm4 Hd1 Hd2 Hd3 Hd4; nsatz.
Qed.

Lemma padd_assoc P Q R : padd (padd P Q) R = padd P (padd Q R).
Proof.
  rewrite (padd_comm P (padd Q R)), (padd_comm Q R).
  destruct (sum_assoc _ _ _ _ _ _ (epoint_on P) (epoint_on Q) (epoint_on R)) as [Hx Hy]. now apply epoint_eq.
Qed.
End edwards.
