(* ===== verification/Curve25519.v ===== *)
(** * Curve25519: the curve of Ed25519

    The twisted Edwards curve [- x^2 + y^2 = 1 + d x^2 y^2] of ed25519-donna/ed25519-donna.h,
    over the integers modulo [2 ^ 255 - 19]: its points are a commutative group, since -1 is
    a square and [d] is not. *)

From Stdlib Require Import ZArith Zdivisibility Lia Field.
From Stdlib Require Import Zmod.
From S2P Require Import Primes Groups Edwards.
#[local] Open Scope Z_scope.

(** ** The field *)

Abbreviation F := (Zmod p25519).

Add Field F25519 : (Zmod.field_theory p25519 p25519_prime).

Lemma F_eqb_eq (x y : F) : Zmod.eqb x y = true <-> x = y.
Proof.
  split; [apply Zmod.eqb_eq|intros ->; apply Zmod.eqb_refl].
Qed.

Lemma F_eq (x y : F) : (Zmod.unsigned x =? Zmod.unsigned y)%Z = true -> x = y.
Proof. intros H. now apply Zmod.unsigned_inj, Z.eqb_eq. Qed.

Lemma F_neq (x y : F) : (Zmod.unsigned x =? Zmod.unsigned y)%Z = false -> x <> y.
Proof. intros H ->. now rewrite Z.eqb_refl in H. Qed.

Lemma F_eq_dec (x y : F) : x = y \/ x <> y.
Proof. destruct (Zmod.eqb x y) eqn:E; [left; now apply F_eqb_eq|right; intros H; apply F_eqb_eq in H; congruence]. Qed.

(** Decides an equation between closed field elements. *)
Ltac F_compute := first [apply F_eq | apply F_neq]; vm_compute; reflexivity.

Declare Scope F_scope.
Delimit Scope F_scope with F.
Bind Scope F_scope with Zmod.Zmod.
Notation "0" := (@Zmod.zero p25519) : F_scope.
Notation "1" := (@Zmod.one p25519) : F_scope.
Infix "+" := (@Zmod.add p25519) : F_scope.
Infix "-" := (@Zmod.sub p25519) : F_scope.
Infix "*" := (@Zmod.mul p25519) : F_scope.
Infix "/" := (@Zmod.mdiv p25519) : F_scope.
Notation "- x" := (@Zmod.opp p25519 x) : F_scope.
#[local] Open Scope F_scope.

Lemma F_mul_zero (x y : F) : x * y = 0 -> x = 0 \/ y = 0.
Proof. apply (Zmod.mul_0_iff_prime p25519_prime). Qed.

Lemma F_mul_nonzero (x y : F) : x <> 0 -> y <> 0 -> x * y <> 0.
Proof. intros Hx Hy H. destruct (F_mul_zero x y H); contradiction. Qed.

Lemma F_mul_cancel (x y z : F) : x <> 0 -> x * y = x * z -> y = z.
Proof.
  intros Hx H. transitivity ((x * y) / x); [now field|]. rewrite H. now field.
Qed.

(** The constants of the curve: [d], and a square root of -1. *)
Definition curve_d : F := Zmod.of_Z _ 37095705934669439343138083508754565189542113879843219016388785533085940283555.
Definition curve_i : F := Zmod.of_Z _ 19681161376707505956807079304988542015446066515923890162744021073123829784752.

Lemma curve_i_square : curve_i * curve_i = - (1).
Proof. F_compute. Qed.

Lemma one_nonzero : 1 <> 0.
Proof. F_compute. Qed.

Lemma two_nonzero : 1 + 1 <> 0.
Proof. F_compute. Qed.

Lemma pow_square (x : F) n : (0 <= n)%Z -> Zmod.pow (x * x) n = Zmod.pow x (2 * n).
Proof. intros Hn. rewrite <- Zmod.pow_2_r, <- Zmod.pow_mul_r_nonneg by lia. reflexivity. Qed.

(** [d] is not a square, by Euler's criterion. *)
Lemma curve_d_euler : Zmod.pow curve_d ((p25519 - 1) / 2) = - (1).
Proof. apply F_eq. vm_cast_no_check (eq_refl true). Qed.

Lemma curve_d_nonsquare (x : F) : x * x <> curve_d.
Proof.
  intros H. pose proof curve_d_euler as Hd. destruct (F_eq_dec x 0) as [->|Hx].
  - rewrite Zmod.mul_0_l in H. revert H. F_compute.
  - rewrite <- H, pow_square in Hd by (vm_compute; discriminate).
    replace (2 * ((p25519 - 1) / 2))%Z with (Z.pred p25519) in Hd by (vm_compute; reflexivity).
    rewrite (Zmod.fermat_nz x Hx p25519_prime) in Hd. revert Hd. F_compute.
Qed.

(** ** The group *)

Definition point : Type := Edwards.epoint F 1 Zmod.add Zmod.mul Zmod.sub Zmod.eqb curve_d.
Definition px (P : point) : F := Edwards.ex _ _ _ _ _ _ _ P.
Definition py (P : point) : F := Edwards.ey _ _ _ _ _ _ _ P.

Definition on_curve (x y : F) : Prop := y * y - x * x = 1 + curve_d * (x * x) * (y * y).

Lemma point_on (P : point) : on_curve (px P) (py P).
Proof. apply (Edwards.epoint_on F 1 _ _ _ _ F_eqb_eq). Qed.

Lemma point_eq (P Q : point) : px P = px Q -> py P = py Q -> P = Q.
Proof. apply Edwards.epoint_eq. Qed.

(** A point from its coordinates. *)
Lemma on_curve_b_true x y : on_curve x y -> Edwards.e_on_curve_b F 1 Zmod.add Zmod.mul Zmod.sub Zmod.eqb curve_d x y = true.
Proof. apply F_eqb_eq. Qed.

Definition mk_point (x y : F) (H : on_curve x y) : point := Edwards.EPoint _ _ _ _ _ _ _ x y (on_curve_b_true x y H).

Lemma px_mk x y H : px (mk_point x y H) = x.
Proof. reflexivity. Qed.

Lemma py_mk x y H : py (mk_point x y H) = y.
Proof. reflexivity. Qed.

#[export] Instance curve_group : CommGroup point := {
  gzero := Edwards.pzero _ _ _ _ _ _ _ _ _ (Zmod.field_theory p25519 p25519_prime) _ F_eqb_eq _;
  gadd := Edwards.padd _ _ _ _ _ _ _ _ _ (Zmod.field_theory p25519 p25519_prime) _ F_eqb_eq _ _
    curve_i_square two_nonzero curve_d_nonsquare;
  gneg := Edwards.pneg _ _ _ _ _ _ _ _ _ (Zmod.field_theory p25519 p25519_prime) _ F_eqb_eq _;
  gadd_comm := Edwards.padd_comm _ _ _ _ _ _ _ _ _ _ _ _ _ _ _ _ _;
  gadd_assoc := Edwards.padd_assoc _ _ _ _ _ _ _ _ _ _ _ _ _ _ _ _ _;
  gadd_zero := Edwards.padd_zero _ _ _ _ _ _ _ _ _ _ _ _ _ _ _ _ _;
  gadd_neg := Edwards.padd_neg _ _ _ _ _ _ _ _ _ _ _ _ _ _ _ _ _;
}.

Lemma px_zero : px gzero = 0.
Proof. reflexivity. Qed.

Lemma py_zero : py gzero = 1.
Proof. reflexivity. Qed.

Lemma px_neg P : px (gneg P) = - px P.
Proof. reflexivity. Qed.

Lemma py_neg P : py (gneg P) = py P.
Proof. reflexivity. Qed.

Section sum.
Context (P Q : point).
#[local] Abbreviation e := (curve_d * px P * px Q * py P * py Q).

Lemma px_add : px (gadd P Q) = (px P * py Q + py P * px Q) / (1 + e).
Proof. reflexivity. Qed.

Lemma py_add : py (gadd P Q) = (py P * py Q + px P * px Q) / (1 - e).
Proof. reflexivity. Qed.

Lemma add_denominators : 1 + e <> 0 /\ 1 - e <> 0.
Proof.
  apply (Edwards.denominators _ _ _ _ _ _ _ _ _ (Zmod.field_theory p25519 p25519_prime) _ F_eqb_eq _ _
    curve_i_square two_nonzero curve_d_nonsquare); apply point_on.
Qed.
End sum.

#[global] Opaque curve_group point px py mk_point.
