(* ===== verification/Words.v ===== *)
(** * Words: 64- and 128-bit words of ed25519-donna

    The unsigned integers of ed25519-donna-portable.h with their wrap-around, and an
    interval analysis by type classes: [Bnd x u] says that [0 <= x <= u], and its instances
    compute the bound of an expression from those of its parts. The tactic [let_steps]
    goes through the assignments of a straight-line function, and shows of each that it
    does not overflow. *)

From stdpp Require Import base numbers list.
From S2P Require Import Prelude.

#[local] Open Scope Z_scope.

Abbreviation mask64 := 0xffffffffffffffff%Z.
Abbreviation mask128 := 0xffffffffffffffffffffffffffffffff%Z.

Definition u64 (z : Z) : Z := Z.land z mask64.
Definition u128 (z : Z) : Z := Z.land z mask128.

Lemma u64_wrap z : u64 z = wrap 64 z.
Proof. apply (Z.land_ones z 64). lia. Qed.

Lemma u128_wrap z : u128 z = wrap 128 z.
Proof. apply (Z.land_ones z 128). lia. Qed.

(** ** Bounds *)

Class Bnd (x u : Z) : Prop := bnd : 0 <= x <= u.
#[global] Hint Mode Bnd ! - : typeclass_instances.

(** A comparison of numerals. *)
Class Holds (b : bool) : Prop := holds : b = true.
#[global] Hint Extern 0 (Holds _) => vm_compute; reflexivity : typeclass_instances.

Lemma Bnd_const c : Holds (0 <=? c) -> Bnd c c.
Proof. unfold Holds, Bnd. lia. Qed.

#[global] Hint Extern 1 (Bnd ?c _) => lazymatch isZcst c with true => exact (Bnd_const c _) end : typeclass_instances.

#[global] Instance Bnd_add x y u v : Bnd x u -> Bnd y v -> Bnd (x + y) (u + v).
Proof. unfold Bnd. lia. Qed.

#[global] Instance Bnd_mul x y u v : Bnd x u -> Bnd y v -> Bnd (x * y) (u * v).
Proof. unfold Bnd. nia. Qed.

(** A subtraction that a constant keeps from going below zero. *)
#[global] Instance Bnd_sub x c y u v : Bnd x u -> Bnd y v -> Holds (v <=? c) -> Bnd (x + c - y) (u + c).
Proof. unfold Bnd, Holds. lia. Qed.

#[global] Instance Bnd_sub_const c y v : Bnd y v -> Holds (v <=? c) -> Bnd (c - y) c.
Proof. unfold Bnd, Holds. lia. Qed.

#[global] Instance Bnd_mod x m : Holds (0 <? m) -> Bnd (x mod m) (m - 1).
Proof. unfold Bnd, Holds. intros H. pose proof (Z.mod_pos_bound x m). lia. Qed.

#[global] Instance Bnd_div x m u : Bnd x u -> Holds (0 <? m) -> Bnd (x / m) (u / m).
Proof. unfold Bnd, Holds. intros H Hm. split; [apply Z.div_pos; lia|apply Z.div_le_mono; lia]. Qed.

Lemma Bnd_le x u v : Bnd x u -> Holds (u <=? v) -> Bnd x v.
Proof. unfold Bnd, Holds. lia. Qed.

Lemma u64_id x u : Bnd x u -> Holds (u <=? mask64) -> u64 x = x.
Proof. unfold Bnd, Holds. intros H Hu. rewrite u64_wrap. apply wrap_small. unfold in_width. lia. Qed.

Lemma u128_id x u : Bnd x u -> Holds (u <=? mask128) -> u128 x = x.
Proof. unfold Bnd, Holds. intros H Hu. rewrite u128_wrap. apply wrap_small. unfold in_width. lia. Qed.

(** ** Straight-line code *)

Lemma let_in {A B} (Q : B -> Prop) (e : A) (k : A -> B) :
  (forall x, x = e -> Q (k x)) -> Q (let x := e in k x).
Proof. intros H. by apply H. Qed.

Lemma land_mask x n m : 0 <= n -> m = Z.ones n -> Z.land x m = x mod 2 ^ n.
Proof. intros Hn ->. by apply Z.land_ones. Qed.

(** The parts of a 128-bit word: the low word, and shifted ones. *)
Definition lo128 (t : Z) : Z := u64 t.
Definition shr128 (t n : Z) : Z := u64 (Z.shiftr t n).
Definition shl128 (t n : Z) : Z := u64 (Z.shiftr (u128 (Z.shiftl t n)) 64).

Lemma shl128_div t u : Bnd t u -> Holds (u <=? 2 ^ 115 - 1) -> shl128 t 13 = t / 2251799813685248.
Proof.
  unfold Bnd, Holds, shl128. intros Ht Hu. rewrite Z.shiftl_mul_pow2, Z.shiftr_div_pow2 by lia.
  rewrite u64_wrap, u128_wrap, (wrap_small 128) by (unfold in_width; lia).
  change (2 ^ 64) with (2251799813685248 * 2 ^ 13). rewrite Z.div_mul_cancel_r by lia.
  apply wrap_small. unfold in_width. split; [apply Z.div_pos; lia|apply Z.div_lt_upper_bound; lia].
Qed.

Lemma land_lo128 t m : Z.land m mask64 = m -> Z.land (lo128 t) m = Z.land t m.
Proof. unfold lo128, u64. intros Hm. by rewrite <- Z.land_assoc, (Z.land_comm _ m), Hm. Qed.

(** The bits [n .. n + k) of a word, and its low bits moved up by [n]. *)
Lemma lo128_hi c n k m : 0 <= n -> 0 <= k -> n + k <= 64 -> m = Z.ones k ->
  Z.land (Z.shiftr (lo128 c) n) m = (c / 2 ^ n) mod 2 ^ k.
Proof.
  intros Hn Hk Hnk ->. rewrite <- Z.land_ones, <- Z.shiftr_div_pow2 by lia. apply Z.bits_inj'. intros i Hi.
  unfold lo128, u64. rewrite !Z.land_spec, !Z.shiftr_spec, Z.land_spec by lia.
  destruct (Z.lt_ge_cases i k); [|by rewrite Z.ones_spec_high, !andb_false_r by lia].
  by rewrite (Z.ones_spec_low 64 (i + n) ltac:(lia) : Z.testbit mask64 _ = _), andb_true_r.
Qed.

Lemma lo128_lo c n k m : 0 <= n <= k -> k <= 64 -> m = Z.ones k ->
  Z.land (u64 (Z.shiftl (lo128 c) n)) m = (c mod 2 ^ (k - n)) * 2 ^ n.
Proof.
  intros Hn Hk ->. rewrite <- Z.land_ones, <- Z.shiftl_mul_pow2 by lia. apply Z.bits_inj'. intros i Hi.
  unfold lo128, u64. rewrite !Z.land_spec, !Z.shiftl_spec, !Z.land_spec by lia.
  destruct (Z.lt_ge_cases i n); [by rewrite !(Z.testbit_neg_r _ (i - n)) by lia|].
  destruct (Z.lt_ge_cases i k); [|by rewrite (Z.ones_spec_high k i), (Z.ones_spec_high (k - n)), !andb_false_r by lia].
  rewrite (Z.ones_spec_low k i), (Z.ones_spec_low (k - n) (i - n)), !andb_true_r by lia.
  rewrite (Z.ones_spec_low 64 i ltac:(lia) : Z.testbit mask64 _ = _), andb_true_r.
  by rewrite (Z.ones_spec_low 64 (i - n) ltac:(lia) : Z.testbit mask64 _ = _), andb_true_r.
Qed.

(** A disjunction of disjoint parts is a sum. *)
Lemma lor_add x y n : 0 <= n -> 0 <= x < 2 ^ n -> Z.lor x (y * 2 ^ n) = x + y * 2 ^ n.
Proof.
  intros Hn Hx. rewrite <- Z.shiftl_mul_pow2 by lia. symmetry. apply Z.add_nocarry_lor.
  apply Z.bits_inj'. intros i Hi. rewrite Z.land_spec, Z.bits_0.
  destruct (Z.lt_ge_cases i n); [rewrite Z.shiftl_spec_low by lia; apply andb_false_r|].
  rewrite <- (Z.mod_small x (2 ^ n)) by lia. by rewrite Z.mod_pow2_bits_high by lia.
Qed.

Lemma lor_add_Bnd x y n p u : Bnd x u -> p = 2 ^ n -> Holds (0 <=? n) -> Holds (u <? p) -> Z.lor x (y * p) = x + y * p.
Proof. unfold Bnd, Holds. intros Hx -> Hn Hu. apply lor_add; lia. Qed.

(** The three parts of a number at the bits [n] and 56. *)
Lemma split56 c n : 0 <= n <= 56 -> c = 2 ^ 56 * (c / 2 ^ 56) + 2 ^ n * ((c / 2 ^ n) mod 2 ^ (56 - n)) + c mod 2 ^ n.
Proof.
  intros Hn. rewrite (Z.div_mod c (2 ^ n)) at 1 by lia. rewrite (Z.div_mod (c / 2 ^ n) (2 ^ (56 - n))) at 1 by lia.
  rewrite Z.div_div, <- Z.pow_add_r by lia. replace (n + (56 - n)) with 56 by lia.
  replace (2 ^ 56) with (2 ^ n * 2 ^ (56 - n)); [ring|]. rewrite <- Z.pow_add_r by lia. f_equal. lia.
Qed.

Lemma shiftr_div x n p : p = 2 ^ n -> Holds (0 <=? n) -> Z.shiftr x n = x / p.
Proof. unfold Holds. intros -> Hn. apply Z.shiftr_div_pow2. lia. Qed.

Lemma shiftl_mul x n p : p = 2 ^ n -> Holds (0 <=? n) -> Z.shiftl x n = x * p.
Proof. unfold Holds. intros -> Hn. apply Z.shiftl_mul_pow2. lia. Qed.

(** Masks and shifts of the equation [H] as remainders and quotients. *)
Ltac mask_bits m := let k := eval vm_compute in (Z.log2_up m) in k.

Ltac word_arith H :=
  unfold shr128 in H;
  repeat match type of H with
  | context [Z.land (Z.shiftr (lo128 ?c) ?n) ?m] =>
    let k := mask_bits m in rewrite (lo128_hi c n k m ltac:(lia) ltac:(lia) ltac:(lia) eq_refl) in H;
    let p := eval vm_compute in (2 ^ n) in change (2 ^ n) with p in H;
    let p := eval vm_compute in (2 ^ k) in change (2 ^ k) with p in H
  | context [Z.land (u64 (Z.shiftl (lo128 ?c) ?n)) ?m] =>
    let k := mask_bits m in rewrite (lo128_lo c n k m ltac:(lia) ltac:(lia) eq_refl) in H;
    let p := eval vm_compute in (2 ^ (k - n)) in change (2 ^ (k - n)) with p in H;
    let p := eval vm_compute in (2 ^ n) in change (2 ^ n) with p in H
  | context [Z.land (lo128 ?t) ?m] => rewrite (land_lo128 t m eq_refl) in H
  | context [shl128 ?t 13] => rewrite (shl128_div t _ _ _) in H
  | context [Z.land ?x ?m] =>
    let k := mask_bits m in rewrite (land_mask x k m ltac:(lia) eq_refl) in H;
    let p := eval vm_compute in (2 ^ k) in change (2 ^ k) with p in H
  | context [Z.shiftr ?x ?n] => let p := eval vm_compute in (2 ^ n) in rewrite (shiftr_div x n p eq_refl _) in H
  | context [Z.shiftl ?x ?n] => let p := eval vm_compute in (2 ^ n) in rewrite (shiftl_mul x n p eq_refl _) in H
  end.

(** A disjunction whose parts have known bounds. *)
Ltac join_words H :=
  repeat match type of H with
  | context [Z.lor ?x (?y * ?p)] =>
    let n := eval vm_compute in (Z.log2 p) in rewrite (lor_add_Bnd x y n p _ _ eq_refl _ _) in H
  end.

Ltac no_wrap H :=
  repeat match type of H with
  | context [u64 ?x] => lazymatch x with context [u64 _] => fail | context [u128 _] => fail | _ => rewrite (u64_id x _ _ _) in H end
  | context [u128 ?x] => lazymatch x with context [u64 _] => fail | context [u128 _] => fail | _ => rewrite (u128_id x _ _ _) in H end
  end.

(** One assignment [x := e]: [e] does not overflow, and [x] gets the bound of [e]. *)
Ltac let_step :=
  lazymatch goal with
  | |- ?Q (let x := ?e in @?k x) =>
    let v := fresh x in let H := fresh "E" x in let B := fresh "B" x in
    apply (let_in Q e k); intros v H; cbv beta;
    word_arith H; no_wrap H; join_words H;
    lazymatch type of H with
    | _ = lo128 _ => rewrite H; clear H v
    | _ = ?r => eassert (B : Bnd v _) by (rewrite H; apply _);
      match type of B with Bnd _ ?u => let u' := eval vm_compute in u in change u with u' in B end
    end
  end.

(** Names the assignments, without looking at them. *)
Ltac let_intros :=
  repeat lazymatch goal with
  | |- ?Q (let x := ?e in @?k x) =>
    let v := fresh x in let H := fresh "E" x in apply (let_in Q e k); intros v H; cbv beta
  end.

Ltac let_steps := repeat let_step.
