(* ===== verification/Field25519.v ===== *)
(** * Field25519: arithmetic modulo 2^255 - 19

    ed25519-donna/curve25519-donna-64bit.h: a field element is five limbs of 51 bits, each
    in a 64-bit word, and products are collected in 128-bit words. The definitions keep the
    wrap-around of every assignment; the lemmas show that within the bounds on limbs that
    the callers keep nothing wraps, and that each operation computes its namesake modulo
    [2 ^ 255 - 19]. *)

From stdpp Require Import base numbers list.
From Stdlib Require Import ZArith Lia.
From S2P Require Import Prelude Words Primes.
#[local] Open Scope Z_scope.

(** ** Limbs *)

Record bignum25519 := Fe { f0 : Z; f1 : Z; f2 : Z; f3 : Z; f4 : Z }.

Abbreviation reduce_mask_51 := 0x7ffffffffffff%Z.

Definition curve25519_copy (a : bignum25519) : bignum25519 := Fe (f0 a) (f1 a) (f2 a) (f3 a) (f4 a).

Definition curve25519_add (a b : bignum25519) : bignum25519 :=
  let o0 := u64 (f0 a + f0 b) in
  let o1 := u64 (f1 a + f1 b) in
  let o2 := u64 (f2 a + f2 b) in
  let o3 := u64 (f3 a + f3 b) in
  let o4 := u64 (f4 a + f4 b) in
  Fe o0 o1 o2 o3 o4.

Definition curve25519_add_after_basic (a b : bignum25519) : bignum25519 :=
  let o0 := u64 (f0 a + f0 b) in
  let o1 := u64 (f1 a + f1 b) in
  let o2 := u64 (f2 a + f2 b) in
  let o3 := u64 (f3 a + f3 b) in
  let o4 := u64 (f4 a + f4 b) in
  Fe o0 o1 o2 o3 o4.

Definition curve25519_add_reduce (a b : bignum25519) : bignum25519 :=
  let o0 := u64 (f0 a + f0 b) in let c := Z.shiftr o0 51 in let o0 := Z.land o0 reduce_mask_51 in
  let o1 := u64 (f1 a + f1 b + c) in let c := Z.shiftr o1 51 in let o1 := Z.land o1 reduce_mask_51 in
  let o2 := u64 (f2 a + f2 b + c) in let c := Z.shiftr o2 51 in let o2 := Z.land o2 reduce_mask_51 in
  let o3 := u64 (f3 a + f3 b + c) in let c := Z.shiftr o3 51 in let o3 := Z.land o3 reduce_mask_51 in
  let o4 := u64 (f4 a + f4 b + c) in let c := Z.shiftr o4 51 in let o4 := Z.land o4 reduce_mask_51 in
  let o0 := u64 (o0 + c * 19) in
  Fe o0 o1 o2 o3 o4.

(** Multiples of p. *)
Abbreviation twoP0 := 0xfffffffffffda%Z.
Abbreviation twoP1234 := 0xffffffffffffe%Z.
Abbreviation fourP0 := 0x1fffffffffffb4%Z.
Abbreviation fourP1234 := 0x1ffffffffffffc%Z.

Definition curve25519_sub (a b : bignum25519) : bignum25519 :=
  let o0 := u64 (f0 a + twoP0 - f0 b) in
  let o1 := u64 (f1 a + twoP1234 - f1 b) in
  let o2 := u64 (f2 a + twoP1234 - f2 b) in
  let o3 := u64 (f3 a + twoP1234 - f3 b) in
  let o4 := u64 (f4 a + twoP1234 - f4 b) in
  Fe o0 o1 o2 o3 o4.

Definition curve25519_sub_after_basic (a b : bignum25519) : bignum25519 :=
  let o0 := u64 (f0 a + fourP0 - f0 b) in
  let o1 := u64 (f1 a + fourP1234 - f1 b) in
  let o2 := u64 (f2 a + fourP1234 - f2 b) in
  let o3 := u64 (f3 a + fourP1234 - f3 b) in
  let o4 := u64 (f4 a + fourP1234 - f4 b) in
  Fe o0 o1 o2 o3 o4.

Definition curve25519_sub_reduce (a b : bignum25519) : bignum25519 :=
  let o0 := u64 (f0 a + fourP0 - f0 b) in let c := Z.shiftr o0 51 in let o0 := Z.land o0 reduce_mask_51 in
  let o1 := u64 (f1 a + fourP1234 - f1 b + c) in let c := Z.shiftr o1 51 in let o1 := Z.land o1 reduce_mask_51 in
  let o2 := u64 (f2 a + fourP1234 - f2 b + c) in let c := Z.shiftr o2 51 in let o2 := Z.land o2 reduce_mask_51 in
  let o3 := u64 (f3 a + fourP1234 - f3 b + c) in let c := Z.shiftr o3 51 in let o3 := Z.land o3 reduce_mask_51 in
  let o4 := u64 (f4 a + fourP1234 - f4 b + c) in let c := Z.shiftr o4 51 in let o4 := Z.land o4 reduce_mask_51 in
  let o0 := u64 (o0 + c * 19) in
  Fe o0 o1 o2 o3 o4.

Definition curve25519_neg (a : bignum25519) : bignum25519 :=
  let o0 := u64 (twoP0 - f0 a) in let c := Z.shiftr o0 51 in let o0 := Z.land o0 reduce_mask_51 in
  let o1 := u64 (twoP1234 - f1 a + c) in let c := Z.shiftr o1 51 in let o1 := Z.land o1 reduce_mask_51 in
  let o2 := u64 (twoP1234 - f2 a + c) in let c := Z.shiftr o2 51 in let o2 := Z.land o2 reduce_mask_51 in
  let o3 := u64 (twoP1234 - f3 a + c) in let c := Z.shiftr o3 51 in let o3 := Z.land o3 reduce_mask_51 in
  let o4 := u64 (twoP1234 - f4 a + c) in let c := Z.shiftr o4 51 in let o4 := Z.land o4 reduce_mask_51 in
  let o0 := u64 (o0 + c * 19) in
  Fe o0 o1 o2 o3 o4.

(** ** Multiplication *)

(** The carries of [curve25519_mul] and [curve25519_square]. *)
Definition mul_carry (t0 t1 t2 t3 t4 : Z) : bignum25519 :=
  let r0 := Z.land (lo128 t0) reduce_mask_51 in let c := shr128 t0 51 in
  let t1 := u128 (t1 + c) in let r1 := Z.land (lo128 t1) reduce_mask_51 in let c := shr128 t1 51 in
  let t2 := u128 (t2 + c) in let r2 := Z.land (lo128 t2) reduce_mask_51 in let c := shr128 t2 51 in
  let t3 := u128 (t3 + c) in let r3 := Z.land (lo128 t3) reduce_mask_51 in let c := shr128 t3 51 in
  let t4 := u128 (t4 + c) in let r4 := Z.land (lo128 t4) reduce_mask_51 in let c := shr128 t4 51 in
  let r0 := u64 (r0 + c * 19) in let c := Z.shiftr r0 51 in let r0 := Z.land r0 reduce_mask_51 in
  let r1 := u64 (r1 + c) in
  Fe r0 r1 r2 r3 r4.

Definition curve25519_mul (in2 i : bignum25519) : bignum25519 :=
  let r0 := f0 i in let r1 := f1 i in let r2 := f2 i in let r3 := f3 i in let r4 := f4 i in
  let s0 := f0 in2 in let s1 := f1 in2 in let s2 := f2 in2 in let s3 := f3 in2 in let s4 := f4 in2 in
  let t0 := u128 (r0 * s0) in
  let t1 := u128 (r0 * s1 + r1 * s0) in
  let t2 := u128 (r0 * s2 + r2 * s0 + r1 * s1) in
  let t3 := u128 (r0 * s3 + r3 * s0 + r1 * s2 + r2 * s1) in
  let t4 := u128 (r0 * s4 + r4 * s0 + r3 * s1 + r1 * s3 + r2 * s2) in
  let r1 := u64 (r1 * 19) in
  let r2 := u64 (r2 * 19) in
  let r3 := u64 (r3 * 19) in
  let r4 := u64 (r4 * 19) in
  let t0 := u128 (t0 + (r4 * s1 + r1 * s4 + r2 * s3 + r3 * s2)) in
  let t1 := u128 (t1 + (r4 * s2 + r2 * s4 + r3 * s3)) in
  let t2 := u128 (t2 + (r4 * s3 + r3 * s4)) in
  let t3 := u128 (t3 + r4 * s4) in
  mul_carry t0 t1 t2 t3 t4.

(** The products of [curve25519_square] and of one turn of [curve25519_square_times]. *)
Definition square_products {A} (i : bignum25519) (k : Z -> Z -> Z -> Z -> Z -> A) : A :=
  let r0 := f0 i in let r1 := f1 i in let r2 := f2 i in let r3 := f3 i in let r4 := f4 i in
  let d0 := u64 (r0 * 2) in
  let d1 := u64 (r1 * 2) in
  let d2 := u64 (r2 * 2 * 19) in
  let d419 := u64 (r4 * 19) in
  let d4 := u64 (d419 * 2) in
  let r319 := u64 (r3 * 19) in
  let t0 := u128 (r0 * r0 + d4 * r1 + d2 * r3) in
  let t1 := u128 (d0 * r1 + d4 * r2 + r3 * r319) in
  let t2 := u128 (d0 * r2 + r1 * r1 + d4 * r3) in
  let t3 := u128 (d0 * r3 + d1 * r2 + r4 * d419) in
  let t4 := u128 (d0 * r4 + d1 * r3 + r2 * r2) in
  k t0 t1 t2 t3 t4.

Definition curve25519_square (i : bignum25519) : bignum25519 := square_products i mul_carry.

Definition square_times_carry (t0 t1 t2 t3 t4 : Z) : bignum25519 :=
  let r0 := Z.land (lo128 t0) reduce_mask_51 in
  let r1 := Z.land (lo128 t1) reduce_mask_51 in let c := shl128 t0 13 in let r1 := u64 (r1 + c) in
  let r2 := Z.land (lo128 t2) reduce_mask_51 in let c := shl128 t1 13 in let r2 := u64 (r2 + c) in
  let r3 := Z.land (lo128 t3) reduce_mask_51 in let c := shl128 t2 13 in let r3 := u64 (r3 + c) in
  let r4 := Z.land (lo128 t4) reduce_mask_51 in let c := shl128 t3 13 in let r4 := u64 (r4 + c) in
  let c := shl128 t4 13 in let r0 := u64 (r0 + c * 19) in
  let c := Z.shiftr r0 51 in let r0 := Z.land r0 reduce_mask_51 in
  let r1 := u64 (r1 + c) in let c := Z.shiftr r1 51 in let r1 := Z.land r1 reduce_mask_51 in
  let r2 := u64 (r2 + c) in let c := Z.shiftr r2 51 in let r2 := Z.land r2 reduce_mask_51 in
  let r3 := u64 (r3 + c) in let c := Z.shiftr r3 51 in let r3 := Z.land r3 reduce_mask_51 in
  let r4 := u64 (r4 + c) in let c := Z.shiftr r4 51 in let r4 := Z.land r4 reduce_mask_51 in
  let r0 := u64 (r0 + c * 19) in
  Fe r0 r1 r2 r3 r4.

(** The body runs once, and again while the decremented count is not zero; every call
    passes a positive constant. *)
Definition curve25519_square_times (i : bignum25519) (count : positive) : bignum25519 :=
  Pos.iter (fun r => square_products r square_times_carry) i count.

(** ** Value and bounds *)

Definition fe_val (a : bignum25519) : Z :=
  f0 a + 2 ^ 51 * f1 a + 2 ^ 102 * f2 a + 2 ^ 153 * f3 a + 2 ^ 204 * f4 a.

(** All limbs are at most [u]. *)
Definition limbs (u : Z) (a : bignum25519) : Prop :=
  Bnd (f0 a) u /\ Bnd (f1 a) u /\ Bnd (f2 a) u /\ Bnd (f3 a) u /\ Bnd (f4 a) u.

(** [r] has limbs of at most [u], and the value [v] modulo p. *)
Definition fe_spec (u v : Z) (r : bignum25519) : Prop :=
  limbs u r /\ exists k, fe_val r = v + k * p25519.

(** The bound of a carried result, and the one under which products do not overflow. *)
Abbreviation tight := 2251799813718016%Z. (* 2 ^ 51 + 2 ^ 15 *)
Abbreviation loose := 18014398509481983%Z. (* 2 ^ 54 - 1 *)

Lemma limbs_le u v a : limbs u a -> Holds (u <=? v) -> limbs v a.
Proof. unfold limbs, Bnd, Holds. lia. Qed.

(** Goes through the assignments of the function [f]. *)
Tactic Notation "field_steps" constr(f) := cbv beta delta [f]; let_steps.

(** A remainder and a quotient of the same limb, as a linear equation. *)
Ltac carry_eqs :=
  repeat match goal with
  | H : ?r = ?x mod 2251799813685248, H' : ?c = ?x / 2251799813685248 |- _ =>
    pose proof (Z.div_mod x 2251799813685248 ltac:(lia)); rewrite <- H, <- H' in *; clear H H'
  end.

Ltac limbs_solve := refine (conj _ (conj _ (conj _ (conj _ _)))); cbn [f0 f1 f2 f3 f4]; eapply Bnd_le; apply _.

(** The bounds of the result are at hand; its value differs by [k] times p. *)
Ltac fe_finish k :=
  split; [limbs_solve|exists k; unfold fe_val, p25519; cbn [f0 f1 f2 f3 f4]; carry_eqs; subst; lia].

Lemma mul_carry_spec t0 t1 t2 t3 t4 :
  Bnd t0 (77 * 2 ^ 108) -> Bnd t1 (60 * 2 ^ 108) -> Bnd t2 (42 * 2 ^ 108) -> Bnd t3 (24 * 2 ^ 108) -> Bnd t4 (5 * 2 ^ 108) ->
  fe_spec tight (t0 + 2 ^ 51 * t1 + 2 ^ 102 * t2 + 2 ^ 153 * t3 + 2 ^ 204 * t4) (mul_carry t0 t1 t2 t3 t4).
Proof.
  intros. field_steps mul_carry. fe_finish (- c3).
Qed.

Lemma fe_spec_eq u v v' r k : fe_spec u v' r -> v' = v + k * p25519 -> fe_spec u v r.
Proof. intros [Hr (j & Hj)] ->. split; [done|]. exists (k + j). lia. Qed.

Lemma curve25519_mul_spec a b : limbs loose a -> limbs loose b ->
  fe_spec tight (fe_val a * fe_val b) (curve25519_mul a b).
Proof.
  intros (?&?&?&?&?) (?&?&?&?&?). field_steps curve25519_mul.
  eapply fe_spec_eq; [apply mul_carry_spec; eapply Bnd_le; apply _|].
  instantiate (1 := - (r1 * s4 + r2 * s3 + r3 * s2 + r4 * s1
    + 2 ^ 51 * (r2 * s4 + r3 * s3 + r4 * s2) + 2 ^ 102 * (r3 * s4 + r4 * s3) + 2 ^ 153 * (r4 * s4))).
  unfold fe_val, p25519. subst. ring.
Qed.

Lemma square_products_spec a (k : Z -> Z -> Z -> Z -> Z -> bignum25519) u : limbs loose a ->
  (forall t0 t1 t2 t3 t4,
    Bnd t0 (77 * 2 ^ 108) -> Bnd t1 (60 * 2 ^ 108) -> Bnd t2 (42 * 2 ^ 108) -> Bnd t3 (24 * 2 ^ 108) -> Bnd t4 (5 * 2 ^ 108) ->
    fe_spec u (t0 + 2 ^ 51 * t1 + 2 ^ 102 * t2 + 2 ^ 153 * t3 + 2 ^ 204 * t4) (k t0 t1 t2 t3 t4)) ->
  fe_spec u (fe_val a * fe_val a) (square_products a k).
Proof.
  intros (?&?&?&?&?) Hk. field_steps @square_products.
  eapply fe_spec_eq; [apply Hk; eapply Bnd_le; apply _|].
  instantiate (1 := - (2 * (r1 * r4 + r2 * r3) + 2 ^ 51 * (2 * (r2 * r4) + r3 * r3)
    + 2 ^ 102 * (2 * (r3 * r4)) + 2 ^ 153 * (r4 * r4))).
  unfold fe_val, p25519. subst. ring.
Qed.

Lemma curve25519_square_spec a : limbs loose a -> fe_spec tight (fe_val a * fe_val a) (curve25519_square a).
Proof. intros Ha. apply square_products_spec; [done|apply mul_carry_spec]. Qed.

Lemma square_times_carry_spec t0 t1 t2 t3 t4 :
  Bnd t0 (77 * 2 ^ 108) -> Bnd t1 (60 * 2 ^ 108) -> Bnd t2 (42 * 2 ^ 108) -> Bnd t3 (24 * 2 ^ 108) -> Bnd t4 (5 * 2 ^ 108) ->
  fe_spec tight (t0 + 2 ^ 51 * t1 + 2 ^ 102 * t2 + 2 ^ 153 * t3 + 2 ^ 204 * t4) (square_times_carry t0 t1 t2 t3 t4).
Proof.
  intros. field_steps square_times_carry. fe_finish (- c3 - c8).
Qed.

Lemma u64_small x : 0 <= x <= mask64 -> u64 x = x.
Proof. intros H. rewrite u64_wrap. apply wrap_small. unfold in_width. lia. Qed.

(** The basic operations do not carry: the bound of the result depends on the arguments'. *)
Ltac basic_op k :=
  unfold limbs, Bnd, Holds in *; rewrite !u64_small by lia;
  split; [unfold limbs, Bnd; cbn [f0 f1 f2 f3 f4]; lia|exists k; unfold fe_val, p25519; cbn [f0 f1 f2 f3 f4]; lia].

Section basic.
Context (a b : bignum25519) (u v : Z) (Ha : limbs u a) (Hb : limbs v b).

Lemma curve25519_add_spec : Holds (u + v <=? mask64) ->
  fe_spec (u + v) (fe_val a + fe_val b) (curve25519_add a b).
Proof. intros H. unfold curve25519_add. basic_op 0. Qed.

Lemma curve25519_add_after_basic_spec : Holds (u + v <=? mask64) ->
  fe_spec (u + v) (fe_val a + fe_val b) (curve25519_add_after_basic a b).
Proof. apply curve25519_add_spec. Qed.

Lemma curve25519_sub_spec : Holds (v <=? twoP0) -> Holds (u + twoP1234 <=? mask64) ->
  fe_spec (u + twoP1234) (fe_val a - fe_val b) (curve25519_sub a b).
Proof. intros H H'. unfold curve25519_sub. basic_op 2. Qed.

Lemma curve25519_sub_after_basic_spec : Holds (v <=? fourP0) -> Holds (u + fourP1234 <=? mask64) ->
  fe_spec (u + fourP1234) (fe_val a - fe_val b) (curve25519_sub_after_basic a b).
Proof. intros H H'. unfold curve25519_sub_after_basic. basic_op 4. Qed.
End basic.

Lemma curve25519_add_reduce_spec a b : limbs loose a -> limbs loose b ->
  fe_spec tight (fe_val a + fe_val b) (curve25519_add_reduce a b).
Proof.
  intros (?&?&?&?&?) (?&?&?&?&?). field_steps curve25519_add_reduce. fe_finish (- c3).
Qed.

Lemma curve25519_sub_reduce_spec a b : limbs loose a -> limbs fourP0 b ->
  fe_spec tight (fe_val a - fe_val b) (curve25519_sub_reduce a b).
Proof.
  intros (?&?&?&?&?) (?&?&?&?&?). field_steps curve25519_sub_reduce. fe_finish (4 - c3).
Qed.

Lemma curve25519_neg_spec a : limbs twoP0 a -> fe_spec tight (- fe_val a) (curve25519_neg a).
Proof.
  intros (?&?&?&?&?). field_steps curve25519_neg. fe_finish (2 - c3).
Qed.
