(* ===== verification/FieldBytes.v ===== *)
(** * FieldBytes: field elements as bytes

    The conversions of curve25519-donna-64bit.h between 32 little-endian bytes and limbs,
    and its conditional moves, which use no branches. *)

From stdpp Require Import base numbers list.
From Stdlib Require Import ZArith Lia.
From S2P Require Import Prelude Words Primes Field25519.
#[local] Open Scope Z_scope.

(** ** Reading *)

(** The little-endian word at the offset [n]. *)
Definition U8TO64_LE (p : list byte) (n : nat) : Z := of_le_bytes (take 8 (drop n p)).

Definition curve25519_expand (i : list byte) : bignum25519 :=
  let x0 := U8TO64_LE i 0 in
  let x1 := U8TO64_LE i 8 in
  let x2 := U8TO64_LE i 16 in
  let x3 := U8TO64_LE i 24 in
  let o0 := Z.land x0 reduce_mask_51 in let x0 := Z.lor (Z.shiftr x0 51) (u64 (Z.shiftl x1 13)) in
  let o1 := Z.land x0 reduce_mask_51 in let x1 := Z.lor (Z.shiftr x1 38) (u64 (Z.shiftl x2 26)) in
  let o2 := Z.land x1 reduce_mask_51 in let x2 := Z.lor (Z.shiftr x2 25) (u64 (Z.shiftl x3 39)) in
  let o3 := Z.land x2 reduce_mask_51 in let x3 := Z.shiftr x3 12 in
  let o4 := Z.land x3 reduce_mask_51 in
  Fe o0 o1 o2 o3 o4.

(** ** Writing *)

Definition contract_carry (t : bignum25519) : bignum25519 :=
  let t1 := u64 (f1 t + Z.shiftr (f0 t) 51) in let t0 := Z.land (f0 t) reduce_mask_51 in
  let t2 := u64 (f2 t + Z.shiftr t1 51) in let t1 := Z.land t1 reduce_mask_51 in
  let t3 := u64 (f3 t + Z.shiftr t2 51) in let t2 := Z.land t2 reduce_mask_51 in
  let t4 := u64 (f4 t + Z.shiftr t3 51) in let t3 := Z.land t3 reduce_mask_51 in
  Fe t0 t1 t2 t3 t4.

Definition contract_carry_full (t : bignum25519) : bignum25519 :=
  let t := contract_carry t in
  Fe (u64 (f0 t + 19 * Z.shiftr (f4 t) 51)) (f1 t) (f2 t) (f3 t) (Z.land (f4 t) reduce_mask_51).

Definition contract_carry_final (t : bignum25519) : bignum25519 :=
  let t := contract_carry t in Fe (f0 t) (f1 t) (f2 t) (f3 t) (Z.land (f4 t) reduce_mask_51).

(** The bytes of limb [tn], from bit [shift], and of the beginning of the next one. *)
Definition write51full (tn tn1 shift : Z) : list byte :=
  le_bytes 8 (Z.lor (Z.shiftr tn shift) (u64 (Z.shiftl tn1 (51 - shift)))).

Definition curve25519_contract (input : bignum25519) : list byte :=
  let t := contract_carry_full input in
  let t := contract_carry_full t in
  let t := Fe (u64 (f0 t + 19)) (f1 t) (f2 t) (f3 t) (f4 t) in
  let t := contract_carry_full t in
  let t := Fe (u64 (f0 t + (reduce_mask_51 + 1 - 19))) (u64 (f1 t + (reduce_mask_51 + 1 - 1)))
    (u64 (f2 t + (reduce_mask_51 + 1 - 1))) (u64 (f3 t + (reduce_mask_51 + 1 - 1)))
    (u64 (f4 t + (reduce_mask_51 + 1 - 1))) in
  let t := contract_carry_final t in
  write51full (f0 t) (f1 t) 0 ++ write51full (f1 t) (f2 t) 13
  ++ write51full (f2 t) (f3 t) 26 ++ write51full (f3 t) (f4 t) 39.

(** ** Conditional moves *)

(** [flag] is 0 or 1: one of the two masks is all ones, the other zero. *)
Definition curve25519_move_conditional_bytes (out i : list byte) (flag : Z) : list byte :=
  let nb := u64 (flag - 1) in
  let b := Z.lxor nb mask64 in
  mjoin ((fun n => le_bytes 8 (Z.lor (Z.land (U8TO64_LE out (8 * n)) nb) (Z.land (U8TO64_LE i (8 * n)) b))) <$> seq 0 12).

Definition curve25519_swap_conditional (a b : bignum25519) (iswap : Z) : bignum25519 * bignum25519 :=
  let swap := u64 (- iswap) in
  let x0 := Z.land swap (Z.lxor (f0 a) (f0 b)) in
  let x1 := Z.land swap (Z.lxor (f1 a) (f1 b)) in
  let x2 := Z.land swap (Z.lxor (f2 a) (f2 b)) in
  let x3 := Z.land swap (Z.lxor (f3 a) (f3 b)) in
  let x4 := Z.land swap (Z.lxor (f4 a) (f4 b)) in
  (Fe (Z.lxor (f0 a) x0) (Z.lxor (f1 a) x1) (Z.lxor (f2 a) x2) (Z.lxor (f3 a) x3) (Z.lxor (f4 a) x4),
   Fe (Z.lxor (f0 b) x0) (Z.lxor (f1 b) x1) (Z.lxor (f2 b) x2) (Z.lxor (f3 b) x3) (Z.lxor (f4 b) x4)).

(** ** Lemmas on bytes *)

Lemma of_le_bytes_app bs cs : of_le_bytes (bs ++ cs) = of_le_bytes bs + 2 ^ (8 * Z.of_nat (length bs)) * of_le_bytes cs.
Proof.
  induction bs as [|b bs IH]; [change (of_le_bytes cs = 0 + 1 * of_le_bytes cs); lia|].
  change (of_le_bytes ((b :: bs) ++ cs)) with (Z_of_byte b + 256 * of_le_bytes (bs ++ cs)).
  change (of_le_bytes (b :: bs)) with (Z_of_byte b + 256 * of_le_bytes bs). rewrite IH. cbn [length].
  replace (8 * Z.of_nat (S (length bs))) with (8 + 8 * Z.of_nat (length bs)) by lia.
  rewrite Z.pow_add_r by lia. change (2 ^ 8) with 256. ring.
Qed.

Lemma of_le_bytes_inj bs cs : length bs = length cs -> of_le_bytes bs = of_le_bytes cs -> bs = cs.
Proof. intros Hl H. by rewrite <- (le_of_le_bytes bs), <- (le_of_le_bytes cs), Hl, H. Qed.

Lemma le_bytes_app m n x y : in_width (8 * Z.of_nat m) x ->
  le_bytes m x ++ le_bytes n y = le_bytes (m + n) (x + 2 ^ (8 * Z.of_nat m) * y).
Proof.
  intros Hx. apply of_le_bytes_inj; [by rewrite length_app, !le_bytes_length|].
  rewrite of_le_bytes_app, !of_le_le_bytes, le_bytes_length, wrap_small by done. unfold wrap, in_width in *.
  rewrite Nat2Z.inj_add, Z.mul_add_distr_l, Z.pow_add_r, Z.rem_mul_r by lia.
  set (a := 2 ^ (8 * Z.of_nat m)) in *. rewrite (Z.mul_comm a y), Z_mod_plus_full, Z.div_add by lia.
  rewrite (Z.mod_small x), (Z.div_small x), Z.add_0_l by lia. ring.
Qed.

Lemma lor_shifts x y s n : 0 <= s -> 0 <= n <= 64 -> 0 <= x < 2 ^ (s + n) ->
  Z.lor (Z.shiftr x s) (u64 (Z.shiftl y n)) = x / 2 ^ s + (y mod 2 ^ (64 - n)) * 2 ^ n.
Proof.
  intros Hs Hn Hx. rewrite u64_wrap, Z.shiftr_div_pow2, Z.shiftl_mul_pow2 by lia. unfold wrap.
  replace (2 ^ 64) with (2 ^ (64 - n) * 2 ^ n) by (rewrite <- Z.pow_add_r by lia; f_equal; lia).
  rewrite Z.mul_mod_distr_r, lor_add; [done|lia| |apply Z.pow_nonzero; lia..]. rewrite Z.pow_add_r in Hx by lia.
  split; [apply Z.div_pos; lia|apply Z.div_lt_upper_bound; lia].
Qed.

Lemma U8TO64_LE_range p n : 0 <= U8TO64_LE p n < 2 ^ 64.
Proof.
  unfold U8TO64_LE. pose proof (of_le_bytes_range (take 8 (drop n p))) as H. unfold in_width in H.
  assert (2 ^ (8 * Z.of_nat (length (take 8 (drop n p)))) <= 2 ^ 64); [|lia].
  apply Z.pow_le_mono_r; [lia|]. rewrite length_take. lia.
Qed.

(** Thirty-two bytes are four words. *)
Lemma of_le_words p : length p = 32%nat ->
  of_le_bytes p = U8TO64_LE p 0 + 2 ^ 64 * U8TO64_LE p 8 + 2 ^ 128 * U8TO64_LE p 16 + 2 ^ 192 * U8TO64_LE p 24.
Proof.
  intros Hp. unfold U8TO64_LE. rewrite drop_0.
  rewrite <- (take_drop 8 p) at 1. rewrite <- (take_drop 8 (drop 8 p)) at 1. rewrite <- (take_drop 8 (drop 8 (drop 8 p))) at 1.
  rewrite !drop_drop. change (8 + 8)%nat with 16%nat. change (16 + 8)%nat with 24%nat.
  rewrite !of_le_bytes_app, !length_take, !length_drop, Hp. rewrite (take_ge (drop 24 p)) by (rewrite length_drop, Hp; lia).
  change (8 * Z.of_nat (8 `min` 32)) with 64. change (8 * Z.of_nat (8 `min` (32 - 8))) with 64.
  change (8 * Z.of_nat (8 `min` (32 - 16))) with 64. lia.
Qed.

(** ** The value of the conversions *)

Lemma curve25519_expand_spec i : length i = 32%nat ->
  limbs reduce_mask_51 (curve25519_expand i) /\ fe_val (curve25519_expand i) = of_le_bytes i mod 2 ^ 255.
Proof.
  intros Hi. rewrite (of_le_words i Hi). unfold curve25519_expand.
  pose proof (U8TO64_LE_range i 0). pose proof (U8TO64_LE_range i 8). pose proof (U8TO64_LE_range i 16).
  pose proof (U8TO64_LE_range i 24). rewrite !lor_shifts by lia. rewrite !(land_mask _ 51) by done.
  rewrite Z.shiftr_div_pow2 by lia. generalize dependent (U8TO64_LE i 24). generalize dependent (U8TO64_LE i 16).
  generalize dependent (U8TO64_LE i 8). generalize dependent (U8TO64_LE i 0). intros x0 ? x1 ? x2 ? x3 ?.
  split; [limbs_solve|]. unfold fe_val. cbn [f0 f1 f2 f3 f4].
  Z.to_euclidean_division_equations. lia.
Qed.

(** Limbs of at most 51 bits, but for an excess of the first. *)
Definition carried (u : Z) (t : bignum25519) : Prop :=
  Bnd (f0 t) u /\ Bnd (f1 t) reduce_mask_51 /\ Bnd (f2 t) reduce_mask_51 /\ Bnd (f3 t) reduce_mask_51 /\ Bnd (f4 t) reduce_mask_51.

Ltac carry_word :=
  unfold contract_carry_full, contract_carry_final, contract_carry; cbn [f0 f1 f2 f3 f4];
  rewrite ?(land_mask _ 51) by done; rewrite ?Z.shiftr_div_pow2 by lia.

(** The tactic for a carry: [u64] of small numbers, then linear arithmetic with quotients. *)
Ltac carry_solve :=
  unfold carried, limbs, Bnd, fe_val, p25519 in *; carry_word;
  repeat match goal with |- context [u64 ?x] =>
    lazymatch x with context [u64 _] => fail | _ => rewrite (u64_small x) by (Z.to_euclidean_division_equations; lia) end end;
  cbn [f0 f1 f2 f3 f4]; Z.to_euclidean_division_equations; lia.

Lemma carry_full_loose t : limbs loose t ->
  carried (reduce_mask_51 + 19 * 8) (contract_carry_full t) /\ exists k, fe_val (contract_carry_full t) = fe_val t + k * p25519.
Proof.
  intros Ht. split; [carry_solve|]. exists (- (f4 (contract_carry t) / 2 ^ 51)). carry_solve.
Qed.

Lemma carry_full_carried t : carried (reduce_mask_51 + 19 * 8) t ->
  limbs reduce_mask_51 (contract_carry_full t) /\
  fe_val (contract_carry_full t) = (if fe_val t <? 2 ^ 255 then fe_val t else fe_val t - p25519).
Proof.
  intros Ht. split; [carry_solve|]. case_match; carry_solve.
Qed.

Lemma carry_final_limbs t : Bnd (f0 t) (2 * reduce_mask_51) -> Bnd (f1 t) (2 * reduce_mask_51 + 1) ->
  Bnd (f2 t) (2 * reduce_mask_51 + 1) -> Bnd (f3 t) (2 * reduce_mask_51 + 1) -> Bnd (f4 t) (2 * reduce_mask_51 + 1) ->
  limbs reduce_mask_51 (contract_carry_final t) /\ fe_val (contract_carry_final t) = fe_val t mod 2 ^ 255.
Proof. intros H0 H1 H2 H3 H4. split; carry_solve. Qed.

(** The bytes of limbs of 51 bits. *)
Lemma write51_bytes t : limbs reduce_mask_51 t ->
  write51full (f0 t) (f1 t) 0 ++ write51full (f1 t) (f2 t) 13
  ++ write51full (f2 t) (f3 t) 26 ++ write51full (f3 t) (f4 t) 39 = le_bytes 32 (fe_val t).
Proof.
  unfold limbs, Bnd, write51full. intros Ht. rewrite !lor_shifts by lia.
  rewrite (le_bytes_app 8 8), (le_bytes_app 8 16), (le_bytes_app 8 24); [f_equal|..];
    unfold in_width, fe_val; Z.to_euclidean_division_equations; lia.
Qed.

Lemma curve25519_contract_spec a : limbs loose a -> curve25519_contract a = le_bytes 32 (fe_val a mod p25519).
Proof.
  intros Ha. unfold curve25519_contract. destruct (carry_full_loose a Ha) as [H1 (k & E1)].
  destruct (carry_full_carried _ H1) as [H2 E2]. set (t2 := contract_carry_full (contract_carry_full a)) in *.
  assert (exists j, fe_val t2 = fe_val a + j * p25519) as (j & Ej).
  { destruct (_ <? _) in E2; [exists k|exists (k - 1)]; rewrite E2, E1; ring. }
  destruct (carry_full_carried (Fe (u64 (f0 t2 + 19)) (f1 t2) (f2 t2) (f3 t2) (f4 t2))) as [H3 E3].
  { unfold carried, limbs, Bnd in *. cbn [f0 f1 f2 f3 f4]. rewrite u64_small; lia. }
  set (t3 := contract_carry_full (Fe (u64 (f0 t2 + 19)) (f1 t2) (f2 t2) (f3 t2) (f4 t2))) in *.
  match goal with |- context [contract_carry_final ?t] => destruct (carry_final_limbs t) as [H4 E4] end.
  1-5: unfold limbs, Bnd in *; cbn [f0 f1 f2 f3 f4]; rewrite u64_small; lia.
  rewrite (write51_bytes _ H4), E4. f_equal. clear E1 E2 E4 H4. unfold limbs, Bnd in *.
  assert (0 <= fe_val t2 < 2 ^ 255) as Ht2 by (unfold fe_val; lia).
  replace (fe_val a mod p25519) with (fe_val t2 mod p25519) by (rewrite Ej; apply Z_mod_plus_full).
  replace (fe_val (Fe (u64 (f0 t2 + 19)) _ _ _ _)) with (fe_val t2 + 19) in E3
    by (unfold fe_val; cbn [f0 f1 f2 f3 f4]; rewrite u64_small; lia).
  match goal with |- fe_val ?t mod _ = _ => replace (fe_val t) with (fe_val t3 + (2 ^ 255 - 19))
    by (unfold fe_val; cbn [f0 f1 f2 f3 f4]; rewrite !u64_small; lia) end.
  rewrite E3. unfold p25519. case_match; Z.to_euclidean_division_equations; lia.
Qed.

(** ** Conditional moves *)

Lemma curve25519_swap_conditional_spec a b : limbs mask64 a -> limbs mask64 b ->
  curve25519_swap_conditional a b 0 = (a, b) /\ curve25519_swap_conditional a b 1 = (b, a).
Proof.
  destruct a as [a0 a1 a2 a3 a4], b as [b0 b1 b2 b3 b4]. unfold limbs, Bnd, curve25519_swap_conditional. cbn [f0 f1 f2 f3 f4]. intros Ha Hb.
  change (u64 (- (0))) with 0. change (u64 (- (1))) with mask64. rewrite !Z.land_0_l, !Z.lxor_0_r.
  assert (forall x y, 0 <= x <= mask64 -> 0 <= y <= mask64 -> Z.land mask64 (Z.lxor x y) = Z.lxor x y) as Hl.
  { intros x y Hx Hy. assert (forall z, 0 <= z <= mask64 -> Z.land mask64 z = z) as Hz.
    { intros z Hz. rewrite Z.land_comm, (land_mask _ 64) by done. apply Z.mod_small. lia. }
    rewrite <- (Hz x Hx), <- (Hz y Hy). apply Z.bits_inj'. intros i _. rewrite !Z.land_spec, !Z.lxor_spec, !Z.land_spec.
    by destruct (Z.testbit mask64 i). }
  rewrite !Hl by lia. assert (forall x y, Z.lxor x (Z.lxor x y) = y /\ Z.lxor y (Z.lxor x y) = x) as Hx.
  { intros x y. split; [by rewrite <- Z.lxor_assoc, Z.lxor_nilpotent, Z.lxor_0_l|].
    by rewrite (Z.lxor_comm x), <- Z.lxor_assoc, Z.lxor_nilpotent, Z.lxor_0_l. }
  split; [done|]. f_equal; f_equal; apply Hx.
Qed.

(** Ninety-six bytes are the words that the conditional move copies. *)
Lemma words_join n p : length p = (8 * n)%nat -> mjoin ((fun k => le_bytes 8 (U8TO64_LE p (8 * k))) <$> seq 0 n) = p.
Proof.
  revert p. induction n as [|n IH]; intros p Hp; [by apply nil_length_inv in Hp|].
  trans (take 8 p ++ drop 8 p); [|apply take_drop].
  cbn [seq fmap list_fmap]. rewrite <- seq_shift. cbn [mjoin list_join]. f_equal.
  - unfold U8TO64_LE. rewrite drop_0. rewrite <- (le_of_le_bytes (take 8 p)) at 2. rewrite length_take.
    by replace (8 `min` length p)%nat with 8%nat by lia.
  - rewrite <- (IH (drop 8 p)) by (rewrite length_drop; lia). f_equal. rewrite <- list_fmap_compose. apply list_fmap_ext.
    intros i k _. unfold U8TO64_LE. cbn. rewrite drop_drop. do 3 f_equal. f_equal. lia.
Qed.

Lemma curve25519_move_conditional_bytes_spec out i flag : length out = 96%nat -> length i = 96%nat -> flag = 0 \/ flag = 1 ->
  curve25519_move_conditional_bytes out i flag = if flag =? 0 then out else i.
Proof.
  intros Ho Hi Hf. assert (forall p k, Z.land (U8TO64_LE p k) mask64 = U8TO64_LE p k) as Hm.
  { intros p k. pose proof (U8TO64_LE_range p k). rewrite (land_mask _ 64) by done. by apply Z.mod_small. }
  destruct Hf as [-> | ->]; unfold curve25519_move_conditional_bytes.
  - change (u64 (0 - 1)) with mask64. rewrite Z.lxor_nilpotent. etrans; [|by apply (words_join 12 out)].
    f_equal. apply list_fmap_ext. intros _ k _. by rewrite Z.land_0_r, Z.lor_0_r, Hm.
  - change (u64 (1 - 1)) with 0. rewrite Z.lxor_0_l. etrans; [|by apply (words_join 12 i)].
    f_equal. apply list_fmap_ext. intros _ k _. by rewrite Z.land_0_r, Z.lor_0_l, Hm.
Qed.
