(* ===== verification/FieldPow.v ===== *)
(** * FieldPow: limbs as field elements, and powers

    The operations of [Field25519] stated over the field of integers modulo
    [2 ^ 255 - 19], and the addition chains of ed25519-donna/curve25519-donna-helpers.h:
    [curve25519_recip] is the inverse, [curve25519_pow_two252m3] the power that a square
    root needs. *)

From stdpp Require Import base numbers list.
From Stdlib Require Import ZArith Lia Zmod Field.
From S2P Require Import Prelude Words Primes Curve25519 Field25519 FieldBytes.
#[local] Open Scope Z_scope.

(** ** Definitions *)

Definition curve25519_pow_two5mtwo0_two250mtwo0 (b : bignum25519) : bignum25519 :=
  let t0 := curve25519_square_times b 5 in
  let b := curve25519_mul t0 b in
  let t0 := curve25519_square_times b 10 in
  let c := curve25519_mul t0 b in
  let t0 := curve25519_square_times c 20 in
  let t0 := curve25519_mul t0 c in
  let t0 := curve25519_square_times t0 10 in
  let b := curve25519_mul t0 b in
  let t0 := curve25519_square_times b 50 in
  let c := curve25519_mul t0 b in
  let t0 := curve25519_square_times c 100 in
  let t0 := curve25519_mul t0 c in
  let t0 := curve25519_square_times t0 50 in
  curve25519_mul t0 b.

Definition curve25519_recip (z : bignum25519) : bignum25519 :=
  let a := curve25519_square_times z 1 in
  let t0 := curve25519_square_times a 2 in
  let b := curve25519_mul t0 z in
  let a := curve25519_mul b a in
  let t0 := curve25519_square_times a 1 in
  let b := curve25519_mul t0 b in
  let b := curve25519_pow_two5mtwo0_two250mtwo0 b in
  let b := curve25519_square_times b 5 in
  curve25519_mul b a.

Definition curve25519_pow_two252m3 (z : bignum25519) : bignum25519 :=
  let c := curve25519_square_times z 1 in
  let t0 := curve25519_square_times c 2 in
  let b := curve25519_mul t0 z in
  let c := curve25519_mul b c in
  let t0 := curve25519_square_times c 1 in
  let b := curve25519_mul t0 b in
  let b := curve25519_pow_two5mtwo0_two250mtwo0 b in
  let b := curve25519_square_times b 2 in
  curve25519_mul b z.

(** ** Limbs as field elements *)

Definition fe (a : bignum25519) : F := Zmod.of_Z p25519 (fe_val a).

(** [a] has limbs of at most [u], and stands for [x]. *)
Definition fe_is (u : Z) (x : F) (a : bignum25519) : Prop := limbs u a /\ fe a = x.

Lemma fe_spec_is u v r : fe_spec u v r -> fe_is u (Zmod.of_Z p25519 v) r.
Proof.
  intros [Hr (k & Hk)]. split; [done|]. unfold fe. rewrite Hk. apply Zmod.of_Z_inj. apply Z_mod_plus_full.
Qed.

Lemma fe_is_le u v x a : fe_is u x a -> Holds (u <=? v) -> fe_is v x a.
Proof. intros [Ha Hx] H. split; [by eapply limbs_le|done]. Qed.

Lemma fe_unsigned u x a : fe_is u x a -> Zmod.unsigned x = fe_val a mod p25519.
Proof. intros [_ <-]. apply Zmod.unsigned_of_Z. Qed.

(** Limbs at hand bound other limbs: used to meet the bound that a caller needs. *)
Ltac fe_weaken := eapply fe_is_le; [eassumption|apply _].

Section ops.
Context (x y : F) (a b : bignum25519) (u v : Z) (Ha : fe_is u x a) (Hb : fe_is v y b).

Lemma fe_mul : Holds (u <=? loose) -> Holds (v <=? loose) -> fe_is tight (x * y)%F (curve25519_mul a b).
Proof.
  intros Hu Hv. destruct Ha as [La <-], Hb as [Lb <-]. unfold fe. rewrite <- Zmod.of_Z_mul.
  apply fe_spec_is, curve25519_mul_spec; by eapply limbs_le.
Qed.

Lemma fe_square : Holds (u <=? loose) -> fe_is tight (x * x)%F (curve25519_square a).
Proof.
  intros Hu. destruct Ha as [La <-]. unfold fe. rewrite <- Zmod.of_Z_mul.
  apply fe_spec_is, curve25519_square_spec. by eapply limbs_le.
Qed.

Lemma fe_add : Holds (u + v <=? mask64) -> fe_is (u + v) (x + y)%F (curve25519_add a b).
Proof.
  intros H. destruct Ha as [La <-], Hb as [Lb <-]. unfold fe. rewrite <- Zmod.of_Z_add.
  by apply fe_spec_is, curve25519_add_spec.
Qed.

Lemma fe_add_after_basic : Holds (u + v <=? mask64) -> fe_is (u + v) (x + y)%F (curve25519_add_after_basic a b).
Proof. apply fe_add. Qed.

Lemma fe_sub : Holds (v <=? twoP0) -> Holds (u + twoP1234 <=? mask64) -> fe_is (u + twoP1234) (x - y)%F (curve25519_sub a b).
Proof.
  intros Hv Hu. destruct Ha as [La <-], Hb as [Lb <-]. unfold fe. rewrite <- Zmod.of_Z_sub.
  apply fe_spec_is. by apply (curve25519_sub_spec a b u v).
Qed.

Lemma fe_sub_after_basic : Holds (v <=? fourP0) -> Holds (u + fourP1234 <=? mask64) ->
  fe_is (u + fourP1234) (x - y)%F (curve25519_sub_after_basic a b).
Proof.
  intros Hv Hu. destruct Ha as [La <-], Hb as [Lb <-]. unfold fe. rewrite <- Zmod.of_Z_sub.
  apply fe_spec_is. by apply (curve25519_sub_after_basic_spec a b u v).
Qed.

Lemma fe_add_reduce : Holds (u <=? loose) -> Holds (v <=? loose) -> fe_is tight (x + y)%F (curve25519_add_reduce a b).
Proof.
  intros Hu Hv. destruct Ha as [La <-], Hb as [Lb <-]. unfold fe. rewrite <- Zmod.of_Z_add.
  apply fe_spec_is, curve25519_add_reduce_spec; by eapply limbs_le.
Qed.

Lemma fe_sub_reduce : Holds (u <=? loose) -> Holds (v <=? fourP0) -> fe_is tight (x - y)%F (curve25519_sub_reduce a b).
Proof.
  intros Hu Hv. destruct Ha as [La <-], Hb as [Lb <-]. unfold fe. rewrite <- Zmod.of_Z_sub.
  apply fe_spec_is, curve25519_sub_reduce_spec; by eapply limbs_le.
Qed.

Lemma fe_neg : Holds (u <=? twoP0) -> fe_is tight (- x)%F (curve25519_neg a).
Proof.
  intros Hu. destruct Ha as [La <-]. unfold fe. rewrite <- Zmod.of_Z_opp.
  apply fe_spec_is, curve25519_neg_spec. by eapply limbs_le.
Qed.

Lemma fe_copy : fe_is u x (curve25519_copy a).
Proof. unfold curve25519_copy. by destruct a. Qed.

Lemma fe_contract : Holds (u <=? loose) -> curve25519_contract a = le_bytes 32 (Zmod.unsigned x).
Proof.
  intros Hu. rewrite (fe_unsigned u x a Ha). apply curve25519_contract_spec.
  destruct Ha. by eapply limbs_le.
Qed.
End ops.

Lemma fe_expand i : length i = 32%nat ->
  fe_is reduce_mask_51 (Zmod.of_Z p25519 (of_le_bytes i mod 2 ^ 255)) (curve25519_expand i).
Proof. intros Hi. destruct (curve25519_expand_spec i Hi) as [Hl Hv]. split; [done|]. unfold fe. by rewrite Hv. Qed.

(** ** Powers *)

(** [a] stands for the [n]-th power of [z], with limbs of at most [u]. *)
Definition pow_is (u : Z) (z : F) (n : Z) (a : bignum25519) : Prop := fe_is u (Zmod.pow z n) a /\ 0 <= n.

Lemma pow_is_mul u v z m n a b : Holds (u <=? loose) -> Holds (v <=? loose) ->
  pow_is u z m a -> pow_is v z n b -> pow_is tight z (m + n) (curve25519_mul a b).
Proof.
  intros Hu Hv [Ha Hm] [Hb Hn]. split; [|lia]. rewrite Zmod.pow_add_r_nonneg by lia.
  by apply (fe_mul _ _ _ _ u v).
Qed.

Lemma fe_square_times x a u n : fe_is u x a -> Holds (u <=? loose) ->
  fe_is tight (Zmod.pow x (2 ^ Z.pos n)) (curve25519_square_times a n).
Proof.
  intros Ha Hu. unfold curve25519_square_times.
  assert (forall y b, fe_is loose y b -> fe_is tight (y * y)%F (square_products b square_times_carry)) as Hs.
  { intros y b [Lb <-]. unfold fe. rewrite <- Zmod.of_Z_mul.
    apply fe_spec_is, square_products_spec; [done|apply square_times_carry_spec]. }
  induction n as [|n IH] using Pos.peano_ind.
  - change (2 ^ 1) with 2. rewrite Zmod.pow_2_r. apply Hs. by eapply fe_is_le.
  - rewrite Pos.iter_succ, Pos2Z.inj_succ, Z.pow_succ_r, Z.mul_comm, Zmod.pow_mul_r_nonneg, Zmod.pow_2_r by lia.
    apply Hs. fe_weaken.
Qed.

Lemma pow_is_square_times u z n a c : Holds (u <=? loose) -> pow_is u z n a -> pow_is tight z (n * 2 ^ Z.pos c) (curve25519_square_times a c).
Proof.
  intros Hu [Ha Hn]. split; [|lia]. rewrite Zmod.pow_mul_r_nonneg by lia. by apply (fe_square_times _ _ u).
Qed.

Lemma pow_is_eq u z m n a : pow_is u z m a -> (m =? n) = true -> pow_is u z n a.
Proof. intros H ->%Z.eqb_eq. done. Qed.

#[local] Opaque curve25519_mul curve25519_square_times curve25519_pow_two5mtwo0_two250mtwo0.

(** One step of an addition chain: the power of [e] is found from those of its arguments. *)
Ltac pow_op :=
  idtac; lazymatch goal with
  | Ha : pow_is ?u ?z ?m ?a, Hb : pow_is ?v ?z ?n ?b |- pow_is _ ?z _ (curve25519_mul ?a ?b) => exact (pow_is_mul u v z m n a b _ _ Ha Hb)
  | Ha : pow_is ?u ?z ?m ?a |- pow_is _ ?z _ (curve25519_square_times ?a ?c) => exact (pow_is_square_times u z m a c _ Ha)
  end.

(** Follows the assignments of an addition chain, and compares the last exponent. *)
Ltac pow_chain op :=
  repeat lazymatch goal with
  | |- pow_is ?t ?z ?n (let x := ?e in @?k x) =>
    let v := fresh x in let H := fresh "H" x in
    eassert (pow_is tight z _ e) as H by op;
    match type of H with pow_is ?u _ ?m _ => let m' := eval vm_compute in m in
      apply (pow_is_eq u z m m' e) in H; [|vm_compute; reflexivity] end;
    apply (let_in (pow_is t z n) e k); intros v ->; revert H; generalize e; intros v H; cbv beta
  end;
  eapply pow_is_eq; [op|vm_compute; reflexivity].

Lemma pow_two5mtwo0_spec z b : pow_is tight z (2 ^ 5 - 1) b -> pow_is tight z (2 ^ 250 - 1) (curve25519_pow_two5mtwo0_two250mtwo0 b).
Proof. intros Hb. with_strategy transparent [curve25519_pow_two5mtwo0_two250mtwo0] cbv beta delta [curve25519_pow_two5mtwo0_two250mtwo0]. pow_chain pow_op. Qed.

Ltac pow_op_250 :=
  idtac; lazymatch goal with
  | Hb : pow_is _ ?z _ ?b |- pow_is _ ?z _ (curve25519_pow_two5mtwo0_two250mtwo0 ?b) => exact (pow_two5mtwo0_spec z b Hb)
  | _ => pow_op
  end.

Lemma pow_is_1 u z a : fe_is u z a -> pow_is u z 1 a.
Proof. intros Ha. split; [by rewrite Zmod.pow_1_r|lia]. Qed.

Lemma fe_pow_two252m3 z a : fe_is tight z a -> fe_is tight (Zmod.pow z (2 ^ 252 - 3)) (curve25519_pow_two252m3 a).
Proof.
  intros Ha%pow_is_1. refine (proj1 (_ : pow_is _ _ _ _)). cbv beta delta [curve25519_pow_two252m3]. pow_chain pow_op_250.
Qed.

(** The inverse, by Fermat's little theorem; the inverse of 0 is 0. *)
Lemma fe_recip z a : fe_is loose z a -> fe_is tight (Zmod.inv z) (curve25519_recip a).
Proof.
  intros Ha. assert (pow_is tight z (p25519 - 2) (curve25519_recip a)) as [Hr _].
  { apply pow_is_1 in Ha. cbv beta delta [curve25519_recip]. pow_chain pow_op_250. }
  destruct (F_eq_dec z 0%F) as [->|Hz]; [|by rewrite <- (Zmod.fermat_inv z Hz p25519_prime)].
  by rewrite Zmod.pow_0_l, <- Zmod.inv_0 in Hr by done.
Qed.

(** The field operations on limbs of up to 54 bits agree with arithmetic modulo
    2{^255} - 19, seen through the canonical bytes of their results: products, squares,
    sums, and the inverse, whose product with the element is 1 unless the element is 0. *)
Theorem field_arithmetic a b : limbs loose a -> limbs loose b ->
  curve25519_contract (curve25519_mul a b) = le_bytes 32 ((fe_val a * fe_val b) mod p25519)
  /\ curve25519_contract (curve25519_square a) = le_bytes 32 ((fe_val a * fe_val a) mod p25519)
  /\ curve25519_contract (curve25519_add_reduce a b) = le_bytes 32 ((fe_val a + fe_val b) mod p25519)
  /\ curve25519_contract (curve25519_mul a (curve25519_recip a)) = le_bytes 32 (if fe_val a mod p25519 =? 0 then 0 else 1).
Proof.
  intros La Lb. assert (fe_is loose (fe a) a) as Ha by done. assert (fe_is loose (fe b) b) as Hb by done.
  rewrite (fe_contract _ _ _ (fe_mul _ _ _ _ _ _ Ha Hb _ _) _), (fe_contract _ _ _ (fe_square _ _ _ Ha _) _).
  rewrite (fe_contract _ _ _ (fe_add_reduce _ _ _ _ _ _ Ha Hb _ _) _).
  rewrite (fe_contract _ _ _ (fe_mul _ _ _ _ _ _ Ha (fe_recip _ _ Ha) _ _) _).
  unfold fe. rewrite <- !Zmod.of_Z_mul, <- Zmod.of_Z_add, !Zmod.unsigned_of_Z. do 3 (split; [done|]). f_equal.
  rewrite <- (Zmod.unsigned_of_Z (m := p25519)). fold (fe a). destruct (Z.eqb_spec (Zmod.unsigned (fe a)) 0) as [E|E].
  - apply Zmod.unsigned_0_iff in E as ->. by rewrite Zmod.mul_0_l.
  - assert (fe a <> 0%F) as Hne by (intros H; apply E; by rewrite H).
    replace (fe a * Zmod.inv (fe a))%F with 1%F by (field; done). done.
Qed.
