(* ===== verification/Scalars.v ===== *)
(** * Scalars: arithmetic modulo the order of the base point

    ed25519-donna/modm-donna-64bit.h: a scalar is five limbs of 56 bits; products are
    reduced by Barrett's method with the precomputed quotient [modm_mu]. *)

From stdpp Require Import base numbers list.
From Stdlib Require Import ZArith Lia.
From S2P Require Import Prelude Words Field25519 FieldBytes.
#[local] Open Scope Z_scope.

Record bignum256modm := Sc { s0 : Z; s1 : Z; s2 : Z; s3 : Z; s4 : Z }.

Definition modm_m : bignum256modm :=
  Sc 0x12631a5cf5d3ed 0xf9dea2f79cd658 0x000000000014de 0x00000000000000 0x00000010000000.

Definition modm_mu : bignum256modm :=
  Sc 0x9ce5a30a2c131b 0x215d086329a7ed 0xffffffffeb2106 0xffffffffffffff 0x00000fffffffff.

Abbreviation mask56 := 0xffffffffffffff%Z.
Abbreviation mask40 := 0xffffffffff%Z.
Abbreviation mask32 := 0xffffffff%Z.
Abbreviation mask16 := 0xffff%Z.

Definition lt_modm (a b : Z) : Z := Z.shiftr (u64 (a - b)) 63.

(** ** Reduction *)

(** The limb-wise difference with borrows of [reduce256_modm] and
    [barrett_reduce256_modm]; the last limb has [n] bits. *)
Definition sub_borrow (r m : bignum256modm) (n : Z) : bignum256modm * Z :=
  let pb := s0 m in let b := lt_modm (s0 r) pb in let t0 := u64 (s0 r - pb + Z.shiftl b 56) in let pb := b in
  let pb := u64 (pb + s1 m) in let b := lt_modm (s1 r) pb in let t1 := u64 (s1 r - pb + Z.shiftl b 56) in let pb := b in
  let pb := u64 (pb + s2 m) in let b := lt_modm (s2 r) pb in let t2 := u64 (s2 r - pb + Z.shiftl b 56) in let pb := b in
  let pb := u64 (pb + s3 m) in let b := lt_modm (s3 r) pb in let t3 := u64 (s3 r - pb + Z.shiftl b 56) in let pb := b in
  let pb := u64 (pb + s4 m) in let b := lt_modm (s4 r) pb in let t4 := u64 (s4 r - pb + Z.shiftl b n) in
  (Sc t0 t1 t2 t3 t4, b).

Definition select (mask r t : Z) : Z := Z.lxor r (Z.land mask (Z.lxor r t)).

Definition reduce256_modm (r : bignum256modm) : bignum256modm :=
  let '(t, b) := sub_borrow r modm_m 32 in
  let mask := u64 (b - 1) in
  Sc (select mask (s0 r) (s0 t)) (select mask (s1 r) (s1 t)) (select mask (s2 r) (s2 t))
    (select mask (s3 r) (s3 t)) (select mask (s4 r) (s4 t)).

(** The estimate [q3] of the quotient: the high limbs of [modm_mu] times [q1]. *)
Definition barrett_q3 (q1 : bignum256modm) : bignum256modm :=
  let c := u128 (s0 modm_mu * s3 q1 + s3 modm_mu * s0 q1 + s1 modm_mu * s2 q1 + s2 modm_mu * s1 q1) in
  let f := shr128 c 56 in
  let c := u128 (s0 modm_mu * s4 q1 + f + s4 modm_mu * s0 q1 + s3 modm_mu * s1 q1 + s1 modm_mu * s3 q1 + s2 modm_mu * s2 q1) in
  let f := lo128 c in let q30 := Z.land (Z.shiftr f 40) mask16 in let f := shr128 c 56 in
  let c := u128 (s4 modm_mu * s1 q1 + f + s1 modm_mu * s4 q1 + s2 modm_mu * s3 q1 + s3 modm_mu * s2 q1) in
  let f := lo128 c in let q30 := Z.lor q30 (Z.land (u64 (Z.shiftl f 16)) mask56) in
  let q31 := Z.land (Z.shiftr f 40) mask16 in let f := shr128 c 56 in
  let c := u128 (s4 modm_mu * s2 q1 + f + s2 modm_mu * s4 q1 + s3 modm_mu * s3 q1) in
  let f := lo128 c in let q31 := Z.lor q31 (Z.land (u64 (Z.shiftl f 16)) mask56) in
  let q32 := Z.land (Z.shiftr f 40) mask16 in let f := shr128 c 56 in
  let c := u128 (s4 modm_mu * s3 q1 + f + s3 modm_mu * s4 q1) in
  let f := lo128 c in let q32 := Z.lor q32 (Z.land (u64 (Z.shiftl f 16)) mask56) in
  let q33 := Z.land (Z.shiftr f 40) mask16 in let f := shr128 c 56 in
  let c := u128 (s4 modm_mu * s4 q1 + f) in
  let f := lo128 c in let q33 := Z.lor q33 (Z.land (u64 (Z.shiftl f 16)) mask56) in
  let q34 := Z.land (Z.shiftr f 40) mask16 in let f := shr128 c 56 in
  let q34 := Z.lor q34 (u64 (Z.shiftl f 16)) in
  Sc q30 q31 q32 q33 q34.

(** The low 264 bits of [q3] times the order. *)
Definition barrett_r2 (q3 : bignum256modm) : bignum256modm :=
  let c := u128 (s0 modm_m * s0 q3) in
  let r20 := Z.land (lo128 c) mask56 in let f := shr128 c 56 in
  let c := u128 (s0 modm_m * s1 q3 + f + s1 modm_m * s0 q3) in
  let r21 := Z.land (lo128 c) mask56 in let f := shr128 c 56 in
  let c := u128 (s0 modm_m * s2 q3 + f + s2 modm_m * s0 q3 + s1 modm_m * s1 q3) in
  let r22 := Z.land (lo128 c) mask56 in let f := shr128 c 56 in
  let c := u128 (s0 modm_m * s3 q3 + f + s3 modm_m * s0 q3 + s1 modm_m * s2 q3 + s2 modm_m * s1 q3) in
  let r23 := Z.land (lo128 c) mask56 in let f := shr128 c 56 in
  let c := u128 (s0 modm_m * s4 q3 + f + s4 modm_m * s0 q3 + s3 modm_m * s1 q3 + s1 modm_m * s3 q3 + s2 modm_m * s2 q3) in
  let r24 := Z.land (lo128 c) mask40 in
  Sc r20 r21 r22 r23 r24.

Definition barrett_reduce256_modm (q1 r1 : bignum256modm) : bignum256modm :=
  let q3 := barrett_q3 q1 in
  let r2 := barrett_r2 q3 in
  let r := (sub_borrow r1 r2 40).1 in
  reduce256_modm (reduce256_modm r).

(** ** Sums and products *)

Definition add256_modm (x y : bignum256modm) : bignum256modm :=
  let c := u64 (s0 x + s0 y) in let r0 := Z.land c mask56 in let c := Z.shiftr c 56 in
  let c := u64 (c + (s1 x + s1 y)) in let r1 := Z.land c mask56 in let c := Z.shiftr c 56 in
  let c := u64 (c + (s2 x + s2 y)) in let r2 := Z.land c mask56 in let c := Z.shiftr c 56 in
  let c := u64 (c + (s3 x + s3 y)) in let r3 := Z.land c mask56 in let c := Z.shiftr c 56 in
  let r4 := u64 (c + (s4 x + s4 y)) in
  reduce256_modm (Sc r0 r1 r2 r3 r4).

(** The low 264 bits of the product, and the bits from 248 on. *)
Definition mul_q1_r1 (x y : bignum256modm) : bignum256modm * bignum256modm :=
  let c := u128 (s0 x * s0 y) in
  let f := lo128 c in let r10 := Z.land f mask56 in let f := shr128 c 56 in
  let c := u128 (s0 x * s1 y + f + s1 x * s0 y) in
  let f := lo128 c in let r11 := Z.land f mask56 in let f := shr128 c 56 in
  let c := u128 (s0 x * s2 y + f + s2 x * s0 y + s1 x * s1 y) in
  let f := lo128 c in let r12 := Z.land f mask56 in let f := shr128 c 56 in
  let c := u128 (s0 x * s3 y + f + s3 x * s0 y + s1 x * s2 y + s2 x * s1 y) in
  let f := lo128 c in let r13 := Z.land f mask56 in let f := shr128 c 56 in
  let c := u128 (s0 x * s4 y + f + s4 x * s0 y + s3 x * s1 y + s1 x * s3 y + s2 x * s2 y) in
  let f := lo128 c in let r14 := Z.land f mask40 in
  let q10 := Z.land (Z.shiftr f 24) mask32 in let f := shr128 c 56 in
  let c := u128 (s4 x * s1 y + f + s1 x * s4 y + s2 x * s3 y + s3 x * s2 y) in
  let f := lo128 c in let q10 := Z.lor q10 (Z.land (u64 (Z.shiftl f 32)) mask56) in
  let q11 := Z.land (Z.shiftr f 24) mask32 in let f := shr128 c 56 in
  let c := u128 (s4 x * s2 y + f + s2 x * s4 y + s3 x * s3 y) in
  let f := lo128 c in let q11 := Z.lor q11 (Z.land (u64 (Z.shiftl f 32)) mask56) in
  let q12 := Z.land (Z.shiftr f 24) mask32 in let f := shr128 c 56 in
  let c := u128 (s4 x * s3 y + f + s3 x * s4 y) in
  let f := lo128 c in let q12 := Z.lor q12 (Z.land (u64 (Z.shiftl f 32)) mask56) in
  let q13 := Z.land (Z.shiftr f 24) mask32 in let f := shr128 c 56 in
  let c := u128 (s4 x * s4 y + f) in
  let f := lo128 c in let q13 := Z.lor q13 (Z.land (u64 (Z.shiftl f 32)) mask56) in
  let q14 := Z.land (Z.shiftr f 24) mask32 in let f := shr128 c 56 in
  let q14 := Z.lor q14 (u64 (Z.shiftl f 32)) in
  (Sc q10 q11 q12 q13 q14, Sc r10 r11 r12 r13 r14).

Definition mul256_modm (x y : bignum256modm) : bignum256modm :=
  let '(q1, r1) := mul_q1_r1 x y in barrett_reduce256_modm q1 r1.

(** ** Bytes *)

(** [len] bytes, at most 64, followed by zeros. *)
Definition expand256_modm (i : list byte) : bignum256modm :=
  let work := i ++ replicate (64 - length i) (byte_of_Z 0) in
  let x n := U8TO64_LE work (8 * n) in
  let out := Sc (Z.land (x 0%nat) mask56)
    (Z.land (Z.lor (Z.shiftr (x 0%nat) 56) (u64 (Z.shiftl (x 1%nat) 8))) mask56)
    (Z.land (Z.lor (Z.shiftr (x 1%nat) 48) (u64 (Z.shiftl (x 2%nat) 16))) mask56)
    (Z.land (Z.lor (Z.shiftr (x 2%nat) 40) (u64 (Z.shiftl (x 3%nat) 24))) mask56)
    (Z.land (Z.lor (Z.shiftr (x 3%nat) 32) (u64 (Z.shiftl (x 4%nat) 32))) mask40) in
  if (length i <? 32)%nat then out else
  let q1 := Sc (Z.land (Z.lor (Z.shiftr (x 3%nat) 56) (u64 (Z.shiftl (x 4%nat) 8))) mask56)
    (Z.land (Z.lor (Z.shiftr (x 4%nat) 48) (u64 (Z.shiftl (x 5%nat) 16))) mask56)
    (Z.land (Z.lor (Z.shiftr (x 5%nat) 40) (u64 (Z.shiftl (x 6%nat) 24))) mask56)
    (Z.land (Z.lor (Z.shiftr (x 6%nat) 32) (u64 (Z.shiftl (x 7%nat) 32))) mask56)
    (Z.shiftr (x 7%nat) 24) in
  barrett_reduce256_modm q1 out.

Definition expand_raw256_modm (i : list byte) : bignum256modm :=
  let x n := U8TO64_LE i (8 * n) in
  Sc (Z.land (x 0%nat) mask56)
    (Z.land (Z.lor (Z.shiftr (x 0%nat) 56) (u64 (Z.shiftl (x 1%nat) 8))) mask56)
    (Z.land (Z.lor (Z.shiftr (x 1%nat) 48) (u64 (Z.shiftl (x 2%nat) 16))) mask56)
    (Z.land (Z.lor (Z.shiftr (x 2%nat) 40) (u64 (Z.shiftl (x 3%nat) 24))) mask56)
    (Z.land (Z.shiftr (x 3%nat) 32) mask32).

Definition contract256_modm (i : bignum256modm) : list byte :=
  le_bytes 8 (Z.lor (s0 i) (u64 (Z.shiftl (s1 i) 56)))
  ++ le_bytes 8 (Z.lor (Z.shiftr (s1 i) 8) (u64 (Z.shiftl (s2 i) 48)))
  ++ le_bytes 8 (Z.lor (Z.shiftr (s2 i) 16) (u64 (Z.shiftl (s3 i) 40)))
  ++ le_bytes 8 (Z.lor (Z.shiftr (s3 i) 24) (u64 (Z.shiftl (s4 i) 32))).
