(* ===== verification/ScalarsSpec.v ===== *)
(** * ScalarsSpec: the arithmetic of scalars is arithmetic modulo the order

    Each operation of [Scalars] on limbs within their bounds computes its namesake modulo
    the order [L] of the base point: the estimate of Barrett's quotient is at most two too
    small, and two conditional subtractions correct it. *)

From stdpp Require Import base numbers list.
From Stdlib Require Import ZArith Lia.
From S2P Require Import Prelude Words Field25519 FieldBytes Scalars.
#[local] Open Scope Z_scope.

(** The order of the base point. *)
Definition L : Z := 2 ^ 252 + 27742317777372353535851937790883648493.

Definition sc_val (a : bignum256modm) : Z :=
  s0 a + 2 ^ 56 * s1 a + 2 ^ 112 * s2 a + 2 ^ 168 * s3 a + 2 ^ 224 * s4 a.

(** Four limbs of 56 bits and a last one of at most [u]. *)
Definition sc_limbs (u : Z) (a : bignum256modm) : Prop :=
  Bnd (s0 a) mask56 /\ Bnd (s1 a) mask56 /\ Bnd (s2 a) mask56 /\ Bnd (s3 a) mask56 /\ Bnd (s4 a) u.

(** A reduced scalar. *)
Definition scalar (a : bignum256modm) : Prop := sc_limbs mask32 a /\ 0 <= sc_val a < L.

Lemma modm_m_val : sc_val modm_m = L.
Proof. reflexivity. Qed.

Lemma modm_mu_val : sc_val modm_mu = 2 ^ 512 / L.
Proof. reflexivity. Qed.

(** ** Differences with borrows *)

Lemma lt_modm_spec a b : 0 <= a < 2 ^ 63 -> 0 <= b < 2 ^ 63 -> lt_modm a b = if a <? b then 1 else 0.
Proof.
  intros Ha Hb. unfold lt_modm. rewrite Z.shiftr_div_pow2, u64_wrap by lia. unfold wrap.
  destruct (Z.ltb_spec a b).
  - replace ((a - b) mod 2 ^ 64) with (a - b + 2 ^ 64) by (apply (Z.mod_unique_pos _ _ (-1)); lia).
    symmetry. apply (Z.div_unique_pos _ _ _ (a - b + 2 ^ 63)); lia.
  - rewrite Z.mod_small by lia. apply Z.div_small. lia.
Qed.

Lemma borrow_step a pb n : 0 <= n <= 56 -> 0 <= a < 2 ^ n -> 0 <= pb <= 2 ^ n -> 
  let b := lt_modm a pb in
  0 <= b <= 1 /\ u64 (a - pb + Z.shiftl b n) = a - pb + 2 ^ n * b /\ 0 <= a - pb + 2 ^ n * b < 2 ^ n.
Proof.
  intros Hn Ha Hpb b. assert (2 ^ n <= 2 ^ 56) by (apply Z.pow_le_mono_r; lia).
  subst b. rewrite lt_modm_spec, Z.shiftl_mul_pow2 by lia. destruct (Z.ltb_spec a pb); rewrite u64_small; lia.
Qed.

(** The difference modulo the capacity of the limbs, and the last borrow. *)
Definition sub_post (r m : bignum256modm) (n : Z) (res : bignum256modm * Z) : Prop :=
  sc_limbs (2 ^ n - 1) res.1 /\ 0 <= res.2 <= 1 /\
  sc_val res.1 = sc_val r - sc_val m + 2 ^ 224 * 2 ^ n * res.2.

(** One limb of a difference: the assignments of [pb], [b] and the limb. *)
Ltac borrow n :=
  match goal with
  | Eb : ?b = lt_modm ?a ?pb, Et : ?t = u64 (?a - ?pb + Z.shiftl ?b n) |- _ =>
    let H := fresh in pose proof (borrow_step a pb n ltac:(lia) ltac:(lia) ltac:(lia)) as H; cbv zeta in H;
    rewrite <- Eb, <- Et in H; clear Eb Et
  end.

Lemma sub_borrow_spec r m n : 0 <= n <= 56 -> sc_limbs (2 ^ n - 1) r -> sc_limbs (2 ^ n - 1) m ->
  sub_post r m n (sub_borrow r m n).
Proof.
  unfold sc_limbs, Bnd. intros Hn Hr Hm. assert (1 <= 2 ^ n <= 2 ^ 56) by (split; [|apply Z.pow_le_mono_r]; lia).
  cbv beta delta [sub_borrow]. let_intros. borrow 56. rewrite u64_small in Epb1 by lia. borrow 56.
  rewrite u64_small in Epb3 by lia. borrow 56. rewrite u64_small in Epb5 by lia. borrow 56.
  rewrite u64_small in Epb7 by lia. borrow n. unfold sub_post, sc_limbs, Bnd, sc_val. cbn [fst snd s0 s1 s2 s3 s4]. nia.
Qed.

Lemma select_spec b r t : 0 <= b <= 1 -> 0 <= r <= mask64 -> 0 <= t <= mask64 ->
  select (u64 (b - 1)) r t = if b =? 0 then t else r.
Proof.
  intros Hb Hr Ht. unfold select. assert (b = 0 \/ b = 1) as [-> | ->] by lia.
  - change (u64 (0 - 1)) with mask64. rewrite (Z.land_comm mask64), (land_mask _ 64) by done.
    assert (Z.lxor r t mod 2 ^ 64 = Z.lxor r t) as ->.
    { rewrite <- Z.land_ones by lia. apply Z.bits_inj'. intros i Hi. rewrite Z.land_spec, Z.lxor_spec.
      destruct (Z.lt_ge_cases i 64); [by rewrite Z.ones_spec_low, andb_true_r by lia|].
      rewrite <- (Z.mod_small r (2 ^ 64)), <- (Z.mod_small t (2 ^ 64)), !Z.mod_pow2_bits_high by lia. done. }
    by rewrite <- Z.lxor_assoc, Z.lxor_nilpotent, Z.lxor_0_l.
  - change (u64 (1 - 1)) with 0. by rewrite Z.land_0_l, Z.lxor_0_r.
Qed.

Lemma reduce256_spec r : sc_limbs mask32 r ->
  sc_limbs mask32 (reduce256_modm r) /\ sc_val (reduce256_modm r) = if sc_val r <? L then sc_val r else sc_val r - L.
Proof.
  intros Hr. unfold reduce256_modm. assert (sc_limbs (2 ^ 32 - 1) modm_m) as Hm by (repeat split; vm_compute; congruence).
  pose proof (sub_borrow_spec r modm_m 32 ltac:(lia) Hr Hm) as H. destruct (sub_borrow r modm_m 32) as [t b].
  destruct H as (Ht & Hb & Hv). rewrite modm_m_val in Hv. cbn [fst snd] in *. unfold sc_limbs, Bnd in *. rewrite !select_spec by lia.
  assert (0 <= sc_val t < 2 ^ 256 /\ 0 <= sc_val r < 2 ^ 256) by (unfold sc_val; lia). assert (0 < L < 2 ^ 256) by (by vm_compute).
  destruct (Z.ltb_spec (sc_val r) L); assert (b = 0 \/ b = 1) as [-> | ->] by lia; cbn [Z.eqb]; unfold sc_val in *; cbn [s0 s1 s2 s3 s4]; lia.
Qed.

(** ** Barrett's quotient *)

(** The limbs of the constants, as numerals. *)
Ltac modm_consts :=
  repeat match goal with
  | |- context [?p modm_mu] => let v := eval vm_compute in (p modm_mu) in change (p modm_mu) with v
  | |- context [?p modm_m] => let v := eval vm_compute in (p modm_m) in change (p modm_m) with v
  end.

(** The sum of the limb products from the third position on. *)
Definition high_products (x y : bignum256modm) : Z :=
  2 ^ 168 * (s0 x * s3 y + s3 x * s0 y + s1 x * s2 y + s2 x * s1 y)
  + 2 ^ 224 * (s0 x * s4 y + s4 x * s0 y + s3 x * s1 y + s1 x * s3 y + s2 x * s2 y)
  + 2 ^ 280 * (s4 x * s1 y + s1 x * s4 y + s2 x * s3 y + s3 x * s2 y)
  + 2 ^ 336 * (s4 x * s2 y + s2 x * s4 y + s3 x * s3 y)
  + 2 ^ 392 * (s4 x * s3 y + s3 x * s4 y) + 2 ^ 448 * (s4 x * s4 y).

Definition q3_post (q1 q3 : bignum256modm) : Prop :=
  sc_limbs mask56 q3 /\ 2 ^ 264 * sc_val q3 <= high_products modm_mu q1 < 2 ^ 264 * (sc_val q3 + 1).

Ltac sc_limbs_solve :=
  refine (conj _ (conj _ (conj _ (conj _ _)))); cbn [s0 s1 s2 s3 s4]; eapply Bnd_le; apply _.

(** The parts of every accumulator that is cut at the bits [n] and 56. *)
Ltac split_words n :=
  repeat match goal with
  | H : ?q = (?c / ?p) mod ?p', H' : ?f = ?c / 72057594037927936 |- _ =>
    let E := fresh "E" in
    pose proof (split56 c n ltac:(lia) : c = 72057594037927936 * (c / 72057594037927936) + p * ((c / p) mod p') + c mod p) as E;
    pose proof (Z.mod_pos_bound c p ltac:(lia)); rewrite <- H, <- H' in E; clear H H'
  end.

(** An accumulator of which the low 56 bits, or nothing but the carry, is used. *)
Ltac carry_words :=
  repeat match goal with
  | H' : ?f = ?c / 72057594037927936 |- _ =>
    pose proof (Z.div_mod c 72057594037927936 ltac:(lia)); pose proof (Z.mod_pos_bound c 72057594037927936 ltac:(lia));
    rewrite <- H' in *; clear H'
  end.

Lemma barrett_q3_digits q1 : sc_limbs mask40 q1 -> q3_post q1 (barrett_q3 q1).
Proof.
  intros (?&?&?&?&?). cbv beta delta [barrett_q3]. modm_consts. let_steps.
  split; [sc_limbs_solve|]. unfold sc_val, high_products. modm_consts. cbn [s0 s1 s2 s3 s4].
  split_words 40. carry_words. unfold Bnd in *. lia.
Qed.

Definition r2_post (q3 r2 : bignum256modm) : Prop :=
  sc_limbs mask40 r2 /\ exists k, sc_val r2 = L * sc_val q3 + k * 2 ^ 264.

Lemma barrett_r2_digits q3 : sc_limbs mask56 q3 -> r2_post q3 (barrett_r2 q3).
Proof.
  intros (?&?&?&?&?). cbv beta delta [barrett_r2]. modm_consts. let_steps.
  split; [sc_limbs_solve|]. rewrite <- modm_m_val. exists (- (c3 / 2 ^ 40) - 2 ^ 16 * (s4 modm_m * s1 q3 + s1 modm_m * s4 q3 + s2 modm_m * s3 q3 + s3 modm_m * s2 q3
    + 2 ^ 56 * (s4 modm_m * s2 q3 + s2 modm_m * s4 q3 + s3 modm_m * s3 q3)
    + 2 ^ 112 * (s4 modm_m * s3 q3 + s3 modm_m * s4 q3) + 2 ^ 168 * (s4 modm_m * s4 q3))).
  unfold sc_val. modm_consts. cbn [s0 s1 s2 s3 s4].
  pose proof (Z.div_mod c3 (2 ^ 40) ltac:(lia)). carry_words. change (2 ^ 40) with 1099511627776 in *. lia.
Qed.

(** ** Barrett's reduction *)

Theorem barrett_reduce256_spec q1 r1 x : 0 <= x < 2 ^ 512 ->
  sc_limbs mask40 q1 -> sc_val q1 = x / 2 ^ 248 -> sc_limbs mask40 r1 -> sc_val r1 = x mod 2 ^ 264 ->
  scalar (barrett_reduce256_modm q1 r1) /\ sc_val (barrett_reduce256_modm q1 r1) = x mod L.
Proof.
  intros Hx Hq1 Vq1 Hr1 Vr1. unfold barrett_reduce256_modm.
  destruct (barrett_q3_digits q1 Hq1) as [Hq3 Vq3]. destruct (barrett_r2_digits _ Hq3) as [Hr2 (k & Vr2)].
  destruct (sub_borrow_spec r1 (barrett_r2 (barrett_q3 q1)) 40) as (Hr & Hb & Vr); [lia|done..|].
  set (r := (sub_borrow r1 (barrett_r2 (barrett_q3 q1)) 40).1) in *.
  set (b := (sub_borrow r1 (barrett_r2 (barrett_q3 q1)) 40).2) in *.
  set (Q := sc_val (barrett_q3 q1)) in *.
  assert (0 <= x - L * Q < 3 * L) as HQ.
  { assert (sc_val modm_mu * sc_val q1 - 2 ^ 226 < high_products modm_mu q1 <= sc_val modm_mu * sc_val q1) as Hh.
    { clear - Hq1. unfold sc_limbs, Bnd in Hq1. unfold sc_val, high_products. modm_consts. lia. }
    rewrite Vq1 in Hh. change (sc_val modm_mu) with 0xfffffffffffffffffffffffffffffffeb2106215d086329a7ed9ce5a30a2c131b in Hh.
    clear - Hh Vq3 Hx. unfold L. Z.to_euclidean_division_equations. lia. }
  assert (sc_val r = x - L * Q) as Vr'.
  { rewrite Vr, Vr1, Vr2. unfold sc_limbs, Bnd in Hr. clear - HQ Hb Hr Vr Vr1 Vr2.
    assert (0 <= sc_val r < 2 ^ 264) by (unfold sc_val; lia). unfold L in *. Z.to_euclidean_division_equations. lia. }
  assert (sc_limbs mask32 r) as Hr'.
  { unfold sc_limbs, Bnd in *. assert (sc_val r < 2 ^ 254) by (unfold L in *; lia). unfold sc_val in *. lia. }
  destruct (reduce256_spec r Hr') as [H1 V1]. destruct (reduce256_spec _ H1) as [H2 V2].
  assert (sc_val (reduce256_modm (reduce256_modm r)) = x mod L) as V.
  { rewrite V2, V1, Vr'. clear - HQ. assert (0 < L) by (by vm_compute).
    assert (exists j, 0 <= x - L * j < L /\ (j = Q \/ j = Q + 1 \/ j = Q + 2)) as (j & Hj & Hc).
    { destruct (Z.lt_ge_cases (x - L * Q) L); [exists Q; lia|].
      destruct (Z.lt_ge_cases (x - L * Q) (2 * L)); [exists (Q + 1)|exists (Q + 2)]; lia. }
    rewrite <- (Z.mod_unique_pos x L j (x - L * j)) by lia.
    destruct (Z.ltb_spec (x - L * Q) L); [destruct (Z.ltb_spec (x - L * Q) L)|destruct (Z.ltb_spec (x - L * Q - L) L)]; destruct Hc as [-> | [-> | ->]]; lia. }
  split; [|done]. split; [done|]. rewrite V. apply Z.mod_pos_bound. by vm_compute.
Qed.

Lemma reduce_sum x : 0 <= x < 2 * L -> (if x <? L then x else x - L) = x mod L.
Proof.
  intros Hx. destruct (Z.ltb_spec x L); [by rewrite Z.mod_small by lia|]. apply (Z.mod_unique_pos x L 1); lia.
Qed.

(** A number below [2 ^ 256] on carried limbs has a last limb of 32 bits. *)
Lemma sc_limbs_top u a : sc_limbs u a -> sc_val a < 2 ^ 256 -> sc_limbs mask32 a.
Proof. unfold sc_limbs, Bnd, sc_val. lia. Qed.

Definition sum_post (x y r : bignum256modm) : Prop := scalar r /\ sc_val r = (sc_val x + sc_val y) mod L.

Theorem add256_modm_spec x y : scalar x -> scalar y -> sum_post x y (add256_modm x y).
Proof.
  intros [(?&?&?&?&?) Vx] [(?&?&?&?&?) Vy]. cbv beta delta [add256_modm]. let_steps.
  set (r := Sc r0 r1 r2 r3 r4). assert (sc_val r = sc_val x + sc_val y) as Vr.
  { unfold r, sc_val. cbn [s0 s1 s2 s3 s4]. carry_words. lia. }
  assert (sc_limbs mask32 r) as Hr.
  { apply (sc_limbs_top mask56); [unfold r; sc_limbs_solve|]. rewrite Vr. unfold L in *. lia. }
  destruct (reduce256_spec r Hr) as [Hl Hv]. rewrite reduce_sum in Hv by lia.
  assert (sc_val (reduce256_modm r) = (sc_val x + sc_val y) mod L) as V by (by rewrite Hv, Vr).
  split; [|done]. split; [done|]. rewrite V. apply Z.mod_pos_bound. by vm_compute.
Qed.

Definition product_post (x y : bignum256modm) (r : bignum256modm * bignum256modm) : Prop :=
  sc_limbs mask40 r.1 /\ sc_val r.1 = sc_val x * sc_val y / 2 ^ 248 /\
  sc_limbs mask40 r.2 /\ sc_val r.2 = (sc_val x * sc_val y) mod 2 ^ 264.

Lemma div_bounds a b q : 0 < b -> b * q <= a < b * (q + 1) -> q = a / b.
Proof. intros Hb Hq. apply (Z.div_unique_pos a b q (a - b * q)); lia. Qed.

Lemma mul_q1_r1_spec x y : sc_limbs mask32 x -> sc_limbs mask32 y -> product_post x y (mul_q1_r1 x y).
Proof.
  intros (?&?&?&?&?) (?&?&?&?&?). cbv beta delta [mul_q1_r1]. let_steps.
  pose proof (Z.div_mod c3 1099511627776 ltac:(lia)) as Hc3. rewrite <- Er14 in Hc3. clear Er14.
  split; [sc_limbs_solve|]. split; [|split; [sc_limbs_solve|]].
  - apply div_bounds; [lia|]. unfold sc_val. cbn [fst snd s0 s1 s2 s3 s4]. split_words 24. carry_words. unfold Bnd in *. lia.
  - eapply (Z.mod_unique_pos _ _ (c3 / 1099511627776 + 2 ^ 16 * (s4 x * s1 y + s1 x * s4 y + s2 x * s3 y + s3 x * s2 y
      + 2 ^ 56 * (s4 x * s2 y + s2 x * s4 y + s3 x * s3 y) + 2 ^ 112 * (s4 x * s3 y + s3 x * s4 y) + 2 ^ 168 * (s4 x * s4 y))));
      unfold sc_val; cbn [fst snd s0 s1 s2 s3 s4]; [unfold Bnd in *; lia|].
    split_words 24. carry_words. lia.
Qed.

Definition mul_post (x y r : bignum256modm) : Prop := scalar r /\ sc_val r = (sc_val x * sc_val y) mod L.

Theorem mul256_modm_spec x y : sc_limbs mask32 x -> sc_limbs mask32 y -> mul_post x y (mul256_modm x y).
Proof.
  intros Hx Hy. unfold mul256_modm. destruct (mul_q1_r1_spec x y Hx Hy) as (Hq & Vq & Hr & Vr).
  destruct (mul_q1_r1 x y) as [q1 r1]. apply barrett_reduce256_spec; try done.
  assert (0 <= sc_val x < 2 ^ 256 /\ 0 <= sc_val y < 2 ^ 256) by (unfold sc_limbs, Bnd, sc_val in *; lia). nia.
Qed.

(** ** Bytes *)

Lemma U8TO64_LE_zero p n : (length p <= n)%nat -> U8TO64_LE p n = 0.
Proof. intros H. unfold U8TO64_LE. rewrite drop_ge by done. by rewrite take_nil. Qed.

(** The words of an array of 64 bytes. *)
Lemma of_le_words64 p : length p = 64%nat ->
  of_le_bytes p = U8TO64_LE p 0 + 2 ^ 64 * U8TO64_LE p 8 + 2 ^ 128 * U8TO64_LE p 16 + 2 ^ 192 * U8TO64_LE p 24
    + 2 ^ 256 * (U8TO64_LE p 32 + 2 ^ 64 * U8TO64_LE p 40 + 2 ^ 128 * U8TO64_LE p 48 + 2 ^ 192 * U8TO64_LE p 56).
Proof.
  intros Hp. rewrite <- (take_drop 32 p) at 1. rewrite of_le_bytes_app, length_take, Hp.
  rewrite (of_le_words (take 32 p)), (of_le_words (drop 32 p)) by (rewrite ?length_take, ?length_drop; lia).
  unfold U8TO64_LE. rewrite !drop_drop, !skipn_firstn_comm, !take_take. cbn [Nat.add Nat.sub Nat.min]. change (8 * Z.of_nat 32) with 256. lia.
Qed.

(** Trailing zeros do not change the number. *)
Lemma of_le_zeros p n : of_le_bytes (p ++ replicate n (byte_of_Z 0)) = of_le_bytes p.
Proof.
  rewrite of_le_bytes_app. assert (of_le_bytes (replicate n (byte_of_Z 0)) = 0) as ->; [|lia].
  induction n as [|n IH]; [done|]. change (0 + 256 * of_le_bytes (replicate n (byte_of_Z 0)) = 0). rewrite IH. done.
Qed.

(** Limbs of 56 bits cut from 64-bit words. *)
Ltac words_ranges p :=
  pose proof (U8TO64_LE_range p 0); pose proof (U8TO64_LE_range p 8); pose proof (U8TO64_LE_range p 16);
  pose proof (U8TO64_LE_range p 24); pose proof (U8TO64_LE_range p 32); pose proof (U8TO64_LE_range p 40);
  pose proof (U8TO64_LE_range p 48); pose proof (U8TO64_LE_range p 56).

Ltac cut_words := 
  rewrite ?lor_shifts by lia;
  rewrite ?(land_mask _ 56 mask56) by done; rewrite ?(land_mask _ 40 mask40) by done; rewrite ?(land_mask _ 32 mask32) by done;
  rewrite ?Z.shiftr_div_pow2 by lia.

(** The limbs of [r1] and of [q1] in [expand256_modm]. *)
Lemma expand_limbs x0 x1 x2 x3 x4 : 0 <= x0 < 2 ^ 64 -> 0 <= x1 < 2 ^ 64 -> 0 <= x2 < 2 ^ 64 -> 0 <= x3 < 2 ^ 64 -> 0 <= x4 < 2 ^ 64 ->
  let r := Sc (Z.land x0 mask56) (Z.land (Z.lor (Z.shiftr x0 56) (u64 (Z.shiftl x1 8))) mask56)
    (Z.land (Z.lor (Z.shiftr x1 48) (u64 (Z.shiftl x2 16))) mask56) (Z.land (Z.lor (Z.shiftr x2 40) (u64 (Z.shiftl x3 24))) mask56)
    (Z.land (Z.lor (Z.shiftr x3 32) (u64 (Z.shiftl x4 32))) mask40) in
  sc_limbs mask40 r /\ sc_val r = (x0 + 2 ^ 64 * x1 + 2 ^ 128 * x2 + 2 ^ 192 * x3 + 2 ^ 256 * x4) mod 2 ^ 264.
Proof.
  intros H0 H1 H2 H3 H4 r. subst r. cut_words. split; [sc_limbs_solve|].
  unfold sc_val. cbn [s0 s1 s2 s3 s4]. Z.to_euclidean_division_equations. lia.
Qed.

Lemma expand_q1 x3 x4 x5 x6 x7 : 0 <= x3 < 2 ^ 64 -> 0 <= x4 < 2 ^ 64 -> 0 <= x5 < 2 ^ 64 -> 0 <= x6 < 2 ^ 64 -> 0 <= x7 < 2 ^ 64 ->
  let q := Sc (Z.land (Z.lor (Z.shiftr x3 56) (u64 (Z.shiftl x4 8))) mask56) (Z.land (Z.lor (Z.shiftr x4 48) (u64 (Z.shiftl x5 16))) mask56)
    (Z.land (Z.lor (Z.shiftr x5 40) (u64 (Z.shiftl x6 24))) mask56) (Z.land (Z.lor (Z.shiftr x6 32) (u64 (Z.shiftl x7 32))) mask56)
    (Z.shiftr x7 24) in
  sc_limbs mask40 q /\ sc_val q = x3 / 2 ^ 56 + 2 ^ 8 * x4 + 2 ^ 72 * x5 + 2 ^ 136 * x6 + 2 ^ 200 * x7.
Proof.
  intros H3 H4 H5 H6 H7 q. subst q. cut_words. split.
  - refine (conj _ (conj _ (conj _ (conj _ _)))); cbn [s0 s1 s2 s3 s4]; unfold Bnd; Z.to_euclidean_division_equations; lia.
  - unfold sc_val. cbn [s0 s1 s2 s3 s4]. Z.to_euclidean_division_equations. lia.
Qed.

Theorem expand256_modm_spec i : (32 <= length i <= 64)%nat ->
  scalar (expand256_modm i) /\ sc_val (expand256_modm i) = of_le_bytes i mod L.
Proof.
  intros Hi. unfold expand256_modm. rewrite (proj2 (Nat.ltb_ge _ _)) by lia.
  set (p := i ++ replicate (64 - length i) (byte_of_Z 0)). cbn [Nat.mul Nat.add].
  assert (length p = 64%nat) as Hp by (unfold p; rewrite length_app, length_replicate; lia).
  rewrite <- (of_le_zeros i (64 - length i)). fold p.
  pose proof (of_le_bytes_range p) as Hx. rewrite Hp in Hx. change (8 * Z.of_nat 64) with 512 in Hx.
  words_ranges p. apply barrett_reduce256_spec; [done|..].
  - apply expand_q1; done.
  - destruct (expand_q1 (U8TO64_LE p 24) (U8TO64_LE p 32) (U8TO64_LE p 40) (U8TO64_LE p 48) (U8TO64_LE p 56)) as [_ ->]; try done.
    apply div_bounds; [lia|]. rewrite (of_le_words64 p Hp). Z.to_euclidean_division_equations. lia.
  - apply expand_limbs; done.
  - destruct (expand_limbs (U8TO64_LE p 0) (U8TO64_LE p 8) (U8TO64_LE p 16) (U8TO64_LE p 24) (U8TO64_LE p 32)) as [_ ->]; try done.
    rewrite (of_le_words64 p Hp).
    match goal with |- ?a mod _ = ?b mod _ => replace b with (a + (2 ^ 56 * U8TO64_LE p 40 + 2 ^ 120 * U8TO64_LE p 48 + 2 ^ 184 * U8TO64_LE p 56) * 2 ^ 264) by ring end.
    by rewrite Z_mod_plus_full.
Qed.

(** Short inputs are taken as they are. *)
Lemma expand256_modm_short i : (length i < 32)%nat ->
  sc_limbs mask32 (expand256_modm i) /\ sc_val (expand256_modm i) = of_le_bytes i.
Proof.
  intros Hi. unfold expand256_modm. rewrite (proj2 (Nat.ltb_lt _ _)) by lia.
  set (p := i ++ replicate (64 - length i) (byte_of_Z 0)). cbn [Nat.mul Nat.add].
  assert (length p = 64%nat) as Hp by (unfold p; rewrite length_app, length_replicate; lia).
  pose proof (of_le_bytes_range i) as Hx. assert (of_le_bytes p < 2 ^ 248) as Hlt.
  { unfold p. rewrite of_le_zeros. unfold in_width in Hx. apply Z.lt_le_trans with (2 ^ (8 * Z.of_nat (length i))); [lia|].
    apply Z.pow_le_mono_r; lia. }
  rewrite <- (of_le_zeros i (64 - length i)). fold p. words_ranges p. rewrite (of_le_words64 p Hp) in *.
  destruct (expand_limbs (U8TO64_LE p 0) (U8TO64_LE p 8) (U8TO64_LE p 16) (U8TO64_LE p 24) (U8TO64_LE p 32)) as [Hl Hv]; try done.
  cbv zeta in Hl, Hv. rewrite Z.mod_small in Hv by lia. split; [|rewrite Hv; lia].
  apply (sc_limbs_top mask40); [done|]. rewrite Hv. lia.
Qed.

Lemma expand_raw256_modm_spec i : length i = 32%nat ->
  sc_limbs mask32 (expand_raw256_modm i) /\ sc_val (expand_raw256_modm i) = of_le_bytes i.
Proof.
  intros Hi. rewrite (of_le_words i Hi). unfold expand_raw256_modm. cbn [Nat.mul Nat.add]. words_ranges i.
  cut_words. split; [sc_limbs_solve|]. unfold sc_val. cbn [s0 s1 s2 s3 s4]. Z.to_euclidean_division_equations. lia.
Qed.

Theorem contract256_modm_spec a : sc_limbs mask32 a -> contract256_modm a = le_bytes 32 (sc_val a).
Proof.
  unfold sc_limbs, Bnd, contract256_modm. intros Ha.
  replace (s0 a) with (Z.shiftr (s0 a) 0) at 1 by apply Z.shiftr_0_r. rewrite !lor_shifts by lia.
  rewrite (le_bytes_app 8 8), (le_bytes_app 8 16), (le_bytes_app 8 24); [f_equal|..];
    unfold in_width, sc_val; Z.to_euclidean_division_equations; lia.
Qed.

(** Reading what was written gives the scalar back. *)
Theorem expand_contract256 a : sc_limbs mask32 a -> sc_val (expand_raw256_modm (contract256_modm a)) = sc_val a.
Proof.
  intros Ha. rewrite (contract256_modm_spec a Ha). rewrite (proj2 (expand_raw256_modm_spec _ (le_bytes_length _ _))).
  rewrite of_le_le_bytes. apply wrap_small. unfold sc_limbs, Bnd, in_width, sc_val in *. lia.
Qed.

(** Scalars read from 32 to 64 bytes are multiplied and added modulo the order [L] of
    the base point, and written as the canonical 32 bytes. *)
Theorem scalar_arithmetic x y : (32 <= length x <= 64)%nat -> (32 <= length y <= 64)%nat ->
  contract256_modm (mul256_modm (expand256_modm x) (expand256_modm y)) = le_bytes 32 ((of_le_bytes x * of_le_bytes y) mod L)
  /\ contract256_modm (add256_modm (expand256_modm x) (expand256_modm y)) = le_bytes 32 ((of_le_bytes x + of_le_bytes y) mod L).
Proof.
  intros Hx Hy. destruct (expand256_modm_spec x Hx) as [Sx Vx], (expand256_modm_spec y Hy) as [Sy Vy].
  destruct (mul256_modm_spec _ _ (proj1 Sx) (proj1 Sy)) as [[Lm _] Vm], (add256_modm_spec _ _ Sx Sy) as [[La _] Va].
  rewrite !contract256_modm_spec, Vm, Va, Vx, Vy by done. by rewrite <- Zmult_mod, <- Zplus_mod.
Qed.
