(* ===== verification/ScalarDigits.v ===== *)
(** * ScalarDigits: signed digits of scalars

    The recodings of ed25519-donna/modm-donna-64bit.h: sixty-four digits in base 16, from
    -8 to 8, for the multiples of the base point, and a sliding window of odd digits in
    base 2 for the double multiplication of the verification. Both represent the scalar. *)

From stdpp Require Import base numbers list.
From Stdlib Require Import ZArith Lia.
From S2P Require Import Prelude Words Field25519 FieldBytes Scalars ScalarsSpec.
#[local] Open Scope Z_scope.

(** ** Definitions *)

(** Assignment to a [signed char]. *)
Definition i8 (z : Z) : Z := (z + 128) mod 256 - 128.

(** The [n] low digits of [w] bits of a limb. *)
Fixpoint limb_digits (w v : Z) (n : nat) : list Z :=
  match n with
  | O => []
  | S n => Z.land v (Z.ones w) :: limb_digits w (Z.shiftr v w) n
  end.

Definition quads (a : bignum256modm) : list Z :=
  limb_digits 4 (s0 a) 14 ++ limb_digits 4 (s1 a) 14 ++ limb_digits 4 (s2 a) 14 ++ limb_digits 4 (s3 a) 14 ++ limb_digits 4 (s4 a) 8.

Definition window4_step (st : list Z * Z) (i : nat) : list Z * Z :=
  let '(r, carry) := st in
  let r := <[i := i8 (r !!! i + carry)]> r in
  let r := <[S i := i8 (r !!! S i + Z.shiftr (r !!! i) 4)]> r in
  let r := <[i := Z.land (r !!! i) 15]> r in
  let carry := Z.shiftr (r !!! i) 3 in
  let r := <[i := i8 (r !!! i - Z.shiftl carry 4)]> r in
  (r, carry).

Definition contract256_window4_modm (a : bignum256modm) : list Z :=
  let '(r, carry) := foldl window4_step (quads a, 0) (seq 0 63) in
  <[63%nat := i8 (r !!! 63%nat + carry)]> r.

Definition binary (a : bignum256modm) : list Z :=
  limb_digits 1 (s0 a) 56 ++ limb_digits 1 (s1 a) 56 ++ limb_digits 1 (s2 a) 56 ++ limb_digits 1 (s3 a) 56 ++ limb_digits 1 (s4 a) 32.

(** [soplen] in the code. *)
Abbreviation soplen := 256%nat.

(** The loop over [k]: adds 1 at the position [k]; [n] positions are left. *)
Fixpoint carry_bit (r : list Z) (k n : nat) : list Z :=
  match n with
  | O => r
  | S n => if r !!! k =? 0 then <[k := 1]> r else carry_bit (<[k := 0]> r) (S k) n
  end.

(** The loop over [b], of which [n] turns are left. *)
Fixpoint window_bits (m : Z) (r : list Z) (j b n : nat) : list Z :=
  match n with
  | O => r
  | S n =>
    if (b <? soplen - j)%nat then
      let rb := Z.shiftl (r !!! (j + b)%nat) (Z.of_nat b) in
      if r !!! j + rb <=? m then window_bits m (<[(j + b)%nat := 0]> (<[j := i8 (r !!! j + rb)]> r)) j (S b) n
      else if - m <=? r !!! j - rb then
        window_bits m (carry_bit (<[j := i8 (r !!! j - rb)]> r) (j + b) (soplen - (j + b))) j (S b) n
      else if negb (r !!! (j + b)%nat =? 0) then r
      else window_bits m r j (S b) n
    else r
  end.

Definition window_step (m : Z) (r : list Z) (j : nat) : list Z :=
  if r !!! j =? 0 then r else window_bits m r j 1 6.

Definition contract256_slidingwindow_modm (s : bignum256modm) (windowsize : Z) : list Z :=
  let m := Z.shiftl 1 (windowsize - 1) - 1 in
  foldl (window_step m) (binary s) (seq 0 soplen).

(** ** The number that digits represent *)

Definition digits_val (b : Z) (l : list Z) : Z := foldr (fun d acc => d + b * acc) 0 l.

Lemma i8_small z : -128 <= z < 128 -> i8 z = z.
Proof. intros H. unfold i8. rewrite Z.mod_small; lia. Qed.

Lemma digits_val_app b l l' : digits_val b (l ++ l') = digits_val b l + b ^ Z.of_nat (length l) * digits_val b l'.
Proof.
  induction l as [|d l IH]; [simpl; lia|]. unfold digits_val in *. cbn [foldr app length]. rewrite IH.
  rewrite Nat2Z.inj_succ, Z.pow_succ_r by lia. ring.
Qed.

Lemma digits_val_insert b l i v : (i < length l)%nat ->
  digits_val b (<[i := v]> l) = digits_val b l + (v - l !!! i) * b ^ Z.of_nat i.
Proof.
  revert i. induction l as [|d l IH]; intros i Hi; [simpl in Hi; lia|]. unfold digits_val in *.
  destruct i as [|i]; cbn [foldr]; simpl in Hi.
  - change ((d :: l) !!! 0%nat) with d. rewrite Z.pow_0_r. change (<[0%nat:=v]> (d :: l)) with (v :: l). cbn [foldr]. lia.
  - change ((d :: l) !!! S i) with (l !!! i). change (<[S i:=v]> (d :: l)) with (d :: <[i:=v]> l). cbn [foldr].
    rewrite IH, Nat2Z.inj_succ, Z.pow_succ_r by lia. ring.
Qed.

Lemma limb_digits_length w v n : length (limb_digits w v n) = n.
Proof. revert v. induction n; intros v; simpl; auto. Qed.

Lemma limb_digits_val w v n : 0 <= w -> 0 <= v < 2 ^ (w * Z.of_nat n) -> digits_val (2 ^ w) (limb_digits w v n) = v.
Proof.
  intros Hw. revert v. induction n as [|n IH]; intros v Hv.
  { rewrite Z.mul_0_r in Hv. simpl. lia. }
  unfold digits_val in *. cbn [limb_digits foldr]. rewrite Nat2Z.inj_succ, Z.mul_succ_r, Z.add_comm, Z.pow_add_r in Hv by lia.
  assert (0 <= v / 2 ^ w < 2 ^ (w * Z.of_nat n)) by (split; [apply Z.div_pos|apply Z.div_lt_upper_bound]; lia).
  rewrite Z.land_ones, Z.shiftr_div_pow2, IH by lia.
  rewrite (Z.div_mod v (2 ^ w)) at 3 by lia. ring.
Qed.

Lemma limb_digits_range w v n : 0 <= w -> Forall (fun d => 0 <= d < 2 ^ w) (limb_digits w v n).
Proof.
  intros Hw. revert v. induction n as [|n IH]; intros v; simpl; constructor; [|apply IH].
  rewrite Z.land_ones by lia. apply Z.mod_pos_bound. lia.
Qed.

Lemma quads_val a : sc_limbs mask32 a -> digits_val 16 (quads a) = sc_val a.
Proof.
  unfold sc_limbs, Bnd, quads, sc_val. intros Ha. rewrite !digits_val_app, !limb_digits_length.
  rewrite !(limb_digits_val 4) by lia. lia.
Qed.

Lemma binary_val a : sc_limbs mask32 a -> digits_val 2 (binary a) = sc_val a.
Proof.
  unfold sc_limbs, Bnd, binary, sc_val. intros Ha. rewrite !digits_val_app, !limb_digits_length.
  rewrite !(limb_digits_val 1) by lia. lia.
Qed.

Lemma quads_range a : length (quads a) = 64%nat /\ Forall (fun d => 0 <= d < 16) (quads a).
Proof.
  unfold quads. rewrite !length_app, !limb_digits_length, !Forall_app. split; [done|].
  repeat split; by apply (limb_digits_range 4).
Qed.

Lemma binary_range a : length (binary a) = 256%nat /\ Forall (fun d => 0 <= d < 2) (binary a).
Proof.
  unfold binary. rewrite !length_app, !limb_digits_length, !Forall_app. split; [done|].
  repeat split; by apply (limb_digits_range 1).
Qed.

(** ** Base 16 *)

(** Before position [i]: the digits below are signed, [i] may have received a carry. *)
Definition window4_inv (v : Z) (i : nat) (st : list Z * Z) : Prop :=
  let '(r, carry) := st in
  length r = 64%nat /\ digits_val 16 r + carry * 16 ^ Z.of_nat i = v /\ 0 <= carry <= 1 /\
  (forall j, (j < i)%nat -> -8 <= r !!! j <= 7) /\ 0 <= r !!! i /\ r !!! i + carry <= 16 /\
  (forall j, (i < j < 64)%nat -> 0 <= r !!! j <= 15).

(** Lookups in updated lists. *)
Ltac list_look :=
  repeat first [rewrite list_lookup_total_insert_eq by (rewrite ?length_insert; lia) | rewrite list_lookup_total_insert_ne by lia].

Lemma window4_digit x : 0 <= x <= 16 ->
  x = (Z.land x 15 - Z.shiftl (Z.shiftr (Z.land x 15) 3) 4) + 16 * (Z.shiftr (Z.land x 15) 3 + Z.shiftr x 4) /\
  -8 <= Z.land x 15 - Z.shiftl (Z.shiftr (Z.land x 15) 3) 4 <= 7 /\
  0 <= Z.shiftr (Z.land x 15) 3 <= 1 /\ 0 <= Z.shiftr x 4 /\ Z.shiftr (Z.land x 15) 3 + Z.shiftr x 4 <= 1.
Proof.
  intros Hx. rewrite (land_mask x 4 15), !Z.shiftr_div_pow2, Z.shiftl_mul_pow2 by done.
  change (2 ^ 4) with 16. change (2 ^ 3) with 8. Z.to_euclidean_division_equations. lia.
Qed.

Lemma window4_step_inv v i st : (i < 63)%nat -> window4_inv v i st -> window4_inv v (S i) (window4_step st i).
Proof.
  destruct st as [r carry]. intros Hi (Hl & Hv & Hc & Hlow & Hi0 & Hi1 & Hhigh).
  unfold window4_step. pose proof (Hhigh (S i) ltac:(lia)) as Hs. list_look.
  rewrite (i8_small (r !!! i + carry)) by lia. 
  assert (0 <= r !!! i + carry <= 16) as Hx by lia. destruct (window4_digit _ Hx) as (E & Hd & Hc' & H4 & Hsum).
  set (x := r !!! i + carry) in *. set (c' := Z.shiftr (Z.land x 15) 3) in *. rewrite !i8_small by lia.
  unfold window4_inv. rewrite !length_insert. repeat split; try lia.
  - rewrite !digits_val_insert by (rewrite ?length_insert; lia). list_look.
    rewrite Nat2Z.inj_succ, Z.pow_succ_r by lia. subst x. nia.
  - destruct (decide (j = i)) as [->|]; list_look; [lia|]. specialize (Hlow j). lia.
  - destruct (decide (j = i)) as [->|]; list_look; [lia|]. specialize (Hlow j). lia.
  - list_look. lia.
  - list_look. lia.
  - list_look. specialize (Hhigh j). lia.
  - list_look. specialize (Hhigh j). lia.
Qed.

(** An invariant of a loop over positions. *)
Lemma foldl_seq_inv {A} (f : A -> nat -> A) (P : nat -> A -> Prop) n : forall k a,
  P k a -> (forall i a, (k <= i < k + n)%nat -> P i a -> P (S i) (f a i)) -> P (k + n)%nat (foldl f a (seq k n)).
Proof.
  induction n as [|n IH]; intros k a Ha Hf; simpl; [by rewrite Nat.add_0_r|].
  replace (k + S n)%nat with (S k + n)%nat by lia. apply IH; [apply Hf; [lia|done]|]. intros i b Hi. apply Hf. lia.
Qed.

Lemma signed_digits_bound l : (forall j, (j < length l)%nat -> -8 <= l !!! j <= 7) ->
  - 16 ^ Z.of_nat (length l) < digits_val 16 l < 16 ^ Z.of_nat (length l).
Proof.
  induction l as [|d l IH]; intros H; [simpl; lia|]. pose proof (H 0%nat ltac:(simpl; lia)) as H0. cbn in H0.
  specialize (IH (fun j Hj => H (S j) ltac:(simpl; lia))). unfold digits_val in *. cbn [foldr length].
  rewrite Nat2Z.inj_succ, Z.pow_succ_r by lia. lia.
Qed.

Lemma digits_val_last b l n : length l = S n -> digits_val b l = digits_val b (take n l) + b ^ Z.of_nat n * l !!! n.
Proof.
  intros Hl. rewrite <- (take_drop n l) at 1. rewrite digits_val_app, length_take, Hl.
  replace (n `min` S n)%nat with n by lia. f_equal. f_equal. destruct (lookup_lt_is_Some_2 l n) as [d Hd]; [lia|].
  rewrite (drop_S l d n Hd), drop_ge by lia. rewrite (list_lookup_total_correct l n d Hd). unfold digits_val. simpl. lia.
Qed.

(** The digits represent the scalar, and each has an entry in the tables. *)
Definition window4_post (v : Z) (r : list Z) : Prop :=
  length r = 64%nat /\ digits_val 16 r = v /\ forall i, (i < 64)%nat -> -8 <= r !!! i <= 8.

Theorem window4_spec a : sc_limbs mask32 a -> sc_val a < 2 ^ 255 -> window4_post (sc_val a) (contract256_window4_modm a).
Proof.
  intros Ha Hval. destruct (quads_range a) as [Hl Hq]. pose proof (proj1 (Forall_lookup_total _ _) Hq) as Hq'. clear Hq. rename Hq' into Hq. cbv beta in Hq.
  assert (window4_inv (sc_val a) 63 (foldl window4_step (quads a, 0) (seq 0 63))) as H.
  { apply (foldl_seq_inv _ (window4_inv (sc_val a)) 63 0).
    - unfold window4_inv. rewrite quads_val by done. pose proof (Hq 0%nat ltac:(lia)).
      repeat apply conj; try lia; intros j Hj; specialize (Hq j); lia.
    - intros i st Hi. apply window4_step_inv. lia. }
  unfold contract256_window4_modm. destruct (foldl _ _ _) as [r carry].
  destruct H as (Hlr & Hv & Hc & Hlow & Hi0 & Hi1 & _).
  assert (r !!! 63%nat + carry <= 8) as Htop.
  { rewrite (digits_val_last 16 r 63 Hlr) in Hv.
    pose proof (signed_digits_bound (take 63 r)) as Hb. rewrite length_take, Hlr in Hb.
    change (63 `min` 64)%nat with 63%nat in Hb. specialize (Hb ltac:(intros j Hj; rewrite lookup_total_take_lt by done; auto)).
    change (16 ^ Z.of_nat 63) with (2 ^ 252) in *. lia. }
  rewrite i8_small by lia. unfold window4_post. rewrite length_insert. repeat split; try done.
  - rewrite digits_val_insert, <- Hv by lia. lia.
  - destruct (decide (i = 63%nat)) as [->|]; list_look; [lia|]. specialize (Hlow i). lia.
  - destruct (decide (i = 63%nat)) as [->|]; list_look; [lia|]. specialize (Hlow i). lia.
Qed.

(** ** Sliding windows *)

Definition bit (d : Z) : Prop := d = 0 \/ d = 1.

(** A digit of a window: zero, or odd and at most [m]. *)
Definition wdigit (m d : Z) : Prop := d = 0 \/ (Z.odd d = true /\ -m <= d <= m).

(** The numbers below, at and above a position. *)
Lemma digits_val_at b l i : (i < length l)%nat ->
  digits_val b l = digits_val b (take i l) + b ^ Z.of_nat i * (l !!! i + b * digits_val b (drop (S i) l)).
Proof.
  intros Hi. rewrite <- (take_drop i l) at 1. rewrite digits_val_app, length_take.
  replace (i `min` length l)%nat with i by lia. f_equal. f_equal. destruct (lookup_lt_is_Some_2 l i Hi) as [d Hd].
  by rewrite (drop_S l d i Hd), (list_lookup_total_correct l i d Hd).
Qed.

Lemma digits_val_take_S b l i : (i < length l)%nat ->
  digits_val b (take (S i) l) = digits_val b (take i l) + b ^ Z.of_nat i * l !!! i.
Proof.
  intros Hi. destruct (lookup_lt_is_Some_2 l i Hi) as [d Hd]. rewrite (take_S_r l i d Hd), digits_val_app, length_take.
  replace (i `min` length l)%nat with i by lia. rewrite (list_lookup_total_correct l i d Hd). unfold digits_val. simpl. lia.
Qed.

Lemma digits_val_nonneg b l : 0 <= b -> (forall i, (i < length l)%nat -> 0 <= l !!! i) -> 0 <= digits_val b l.
Proof.
  intros Hb. induction l as [|d l IH]; intros H; [done|]. pose proof (H 0%nat ltac:(simpl; lia)) as H0. cbn in H0.
  specialize (IH (fun j Hj => H (S j) ltac:(simpl; lia))). unfold digits_val in *. cbn [foldr]. nia.
Qed.

Lemma digits_val_ge l i : (i < length l)%nat -> (forall j, (j < length l)%nat -> 0 <= l !!! j) -> l !!! i = 1 ->
  2 ^ Z.of_nat i <= digits_val 2 l.
Proof.
  intros Hi Hl H1. rewrite (digits_val_at 2 l i Hi), H1.
  assert (0 <= digits_val 2 (take i l)).
  { apply digits_val_nonneg; [lia|]. intros j Hj. rewrite length_take in Hj. rewrite lookup_total_take_lt by lia. apply Hl. lia. }
  assert (0 <= digits_val 2 (drop (S i) l)).
  { apply digits_val_nonneg; [lia|]. intros j Hj. rewrite length_drop in Hj. rewrite lookup_total_drop. apply Hl. lia. }
  nia.
Qed.

Lemma take_ext (l l' : list Z) k : length l = length l' -> (forall i, (i < k)%nat -> l' !!! i = l !!! i) -> take k l' = take k l.
Proof.
  intros Hl H. apply list_eq_same_length with (min k (length l)); rewrite ?length_take; [lia|lia|]. intros i x y Hi Hx Hy.
  rewrite lookup_take_Some in Hx, Hy. destruct Hx as [Hx Hk], Hy as [Hy _].
  apply list_lookup_total_correct in Hx, Hy. rewrite <- Hx, <- Hy. by apply H.
Qed.

(** Adding 1 at [k] succeeds if there is a zero above. *)
Lemma carry_bit_spec n : forall r k z, (k + n)%nat = length r -> (forall i, (k <= i < length r)%nat -> bit (r !!! i)) ->
  (k <= z < length r)%nat -> r !!! z = 0 ->
  length (carry_bit r k n) = length r /\ digits_val 2 (carry_bit r k n) = digits_val 2 r + 2 ^ Z.of_nat k /\
  (forall i, (i < k)%nat -> carry_bit r k n !!! i = r !!! i) /\
  (forall i, (k <= i < length r)%nat -> bit (carry_bit r k n !!! i)) /\ (r !!! k = 1 -> carry_bit r k n !!! k = 0).
Proof.
  induction n as [|n IH]; intros r k z Hk Hb Hz H0; [lia|]. cbn [carry_bit].
  destruct (Z.eqb_spec (r !!! k) 0) as [E|E].
  - rewrite length_insert, digits_val_insert, E by lia. repeat split; [lia|..].
    + intros i Hi. by list_look.
    + intros i Hi. destruct (decide (i = k)) as [->|]; list_look; [by right|by apply Hb].
    + lia.
  - assert (r !!! k = 1) as E1 by (destruct (Hb k); [lia|done|done]). assert (z <> k) by congruence.
    destruct (IH (<[k := 0]> r) (S k) z) as (Hl & Hv & Hlow & Hhigh & _); rewrite ?length_insert in *; [lia| |lia|by list_look|].
    { intros i Hi. list_look. apply Hb. lia. }
    rewrite Hl, Hv, digits_val_insert, E1, Nat2Z.inj_succ, Z.pow_succ_r by lia. repeat split; [lia|..].
    + intros i Hi. rewrite Hlow by lia. by list_look.
    + intros i Hi. destruct (decide (i = k)) as [->|]; [rewrite Hlow by lia; list_look; by left|apply Hhigh; lia].
    + intros _. rewrite Hlow by lia. by list_look.
Qed.

Section sliding.
Context (m v : Z) (Hm : 1 <= m <= 63) (Hv : 0 <= v < 2 ^ 253).

(** While position [j] collects its window: the digits below are final and make [low]. *)
Definition window_inv (low : Z) (j : nat) (r : list Z) : Prop :=
  length r = soplen /\ digits_val 2 r = v /\ digits_val 2 (take j r) = low /\
  (forall i, (i < j)%nat -> wdigit m (r !!! i)) /\ (forall i, (j < i < soplen)%nat -> bit (r !!! i)).

(** The positions from [j + 1] up to [e] are zero. *)
Definition zeros (r : list Z) (j e : nat) : Prop := forall i, (j < i < e)%nat -> (i < soplen)%nat -> r !!! i = 0.

(** The bits above a positive digit are less than [2 ^ 253]: the last one is zero. *)
Lemma last_zero low j r : (j < 255)%nat -> window_inv low j r -> - 2 ^ Z.of_nat j < low -> 1 <= r !!! j -> r !!! 255%nat = 0.
Proof.
  intros Hj (Hl & Hval & Hlow & _ & Hbits) Hlo Hd. destruct (Hbits 255%nat) as [E|E]; [lia|done|exfalso].
  pose proof (digits_val_at 2 r j ltac:(lia)) as H. rewrite Hval, Hlow in H.
  pose proof (digits_val_ge (drop (S j) r) (255 - S j)) as Hge. rewrite length_drop, Hl, lookup_total_drop in Hge.
  replace (S j + (255 - S j))%nat with 255%nat in Hge by lia.
  specialize (Hge ltac:(lia) ltac:(intros i Hi; rewrite lookup_total_drop; destruct (Hbits (S j + i)%nat); lia) E).
  assert (2 ^ Z.of_nat j * (2 * 2 ^ Z.of_nat (255 - S j)) = 2 ^ 255) as Hp.
  { rewrite <- Z.pow_succ_r, <- Z.pow_add_r by lia. f_equal. lia. }
  set (u := digits_val 2 (drop (S j) r)) in *. assert (0 < 2 ^ Z.of_nat j) by lia. nia.
Qed.

(** A change of the digit [j] and of the bits above that keeps the number. *)
Lemma window_inv_change low j r r' : (j < soplen)%nat -> window_inv low j r -> length r' = soplen -> digits_val 2 r' = v ->
  (forall i, (i < j)%nat -> r' !!! i = r !!! i) -> (forall i, (j < i < soplen)%nat -> bit (r' !!! i)) -> window_inv low j r'.
Proof.
  intros Hj (Hl & Hval & Hlow & Hdig & Hbits) Hl' Hv' Hsame Hbits'. repeat split; [done|done| |..|done].
  - rewrite <- Hlow. f_equal. apply take_ext; [lia|done].
  - intros i Hi. rewrite Hsame by done. by apply Hdig.
Qed.

(** Subtracting a bit from the digit, with a carry into the bits above. *)
Lemma borrow_inv low j b r d : (1 <= b)%nat -> (j + b < soplen)%nat -> window_inv low j r -> - 2 ^ Z.of_nat j < low ->
  1 <= r !!! j -> r !!! (j + b)%nat = 1 -> d = r !!! j - 2 ^ Z.of_nat b ->
  let r' := carry_bit (<[j := d]> r) (j + b) (soplen - (j + b)) in
  window_inv low j r' /\ r' !!! j = d /\ (forall i, (i < j + b)%nat -> i <> j -> r' !!! i = r !!! i) /\ r' !!! (j + b)%nat = 0.
Proof.
  intros Hb Hjb Hinv Hlo Hd H1 -> r'. pose proof (last_zero low j r ltac:(lia) Hinv Hlo Hd) as Hz.
  pose proof Hinv as (Hl & Hval & Hlow & Hdig & Hbits). set (r1 := <[j := r !!! j - 2 ^ Z.of_nat b]> r) in *.
  assert (length r1 = soplen) as Hl1 by (unfold r1; by rewrite length_insert).
  destruct (carry_bit_spec (soplen - (j + b)) r1 (j + b) 255%nat) as (Hl' & Hv' & Hlow' & Hhigh' & Hk'); [lia| |lia|unfold r1; by list_look|].
  { intros i Hi. unfold r1. list_look. apply Hbits. lia. }
  fold r' in Hl', Hv', Hlow', Hhigh', Hk'. refine (conj _ (conj _ (conj _ _))).
  - apply (window_inv_change low j r); [lia|done|lia| |..].
    + rewrite Hv'. unfold r1. rewrite digits_val_insert, Hval, Nat2Z.inj_add, Z.pow_add_r by lia. lia.
    + intros i Hi. rewrite Hlow' by lia. unfold r1. by list_look.
    + intros i Hi. destruct (decide (i < j + b)%nat); [|apply Hhigh'; lia]. rewrite Hlow' by lia. unfold r1. list_look. by apply Hbits.
  - rewrite Hlow' by lia. unfold r1. by list_look.
  - intros i Hi Hne. rewrite Hlow' by lia. unfold r1. by list_look.
  - apply Hk'. unfold r1. by list_look.
Qed.

(** Adding a bit to the digit. *)
Lemma absorb_inv low j b r d : (1 <= b)%nat -> (j + b < soplen)%nat -> window_inv low j r ->
  d = r !!! j + Z.shiftl (r !!! (j + b)%nat) (Z.of_nat b) ->
  window_inv low j (<[(j + b)%nat := 0]> (<[j := d]> r)).
Proof.
  intros Hb Hjb Hinv ->. pose proof Hinv as (Hl & Hval & Hlow & Hdig & Hbits).
  apply (window_inv_change low j r); [lia|done|by rewrite !length_insert| |..].
  - rewrite !digits_val_insert by (rewrite ?length_insert; lia). list_look.
    rewrite Hval, Z.shiftl_mul_pow2, Nat2Z.inj_add, Z.pow_add_r by lia. lia.
  - intros i Hi. by list_look.
  - intros i Hi. destruct (decide (i = j + b)%nat) as [->|]; list_look; [by left|by apply Hbits].
Qed.

Definition window_done (low : Z) (j : nat) (r : list Z) : Prop :=
  window_inv low j r /\ wdigit m (r !!! j) /\
  exists e, (j < e)%nat /\ zeros r j e /\ - 2 ^ Z.of_nat e < low + 2 ^ Z.of_nat j * r !!! j.

Lemma odd_pow2 d b : (1 <= b)%nat -> Z.odd d = true -> Z.odd (d + 2 ^ Z.of_nat b) = true /\ Z.odd (d - 2 ^ Z.of_nat b) = true.
Proof.
  intros Hb Hd. replace (2 ^ Z.of_nat b) with (2 * 2 ^ (Z.of_nat b - 1)) by (rewrite <- Z.pow_succ_r by lia; f_equal; lia).
  rewrite Z.odd_add, Z.odd_sub, Z.odd_mul, Hd. done.
Qed.

Lemma window_bits_spec low n : forall j b r, (1 <= b)%nat -> (b + n = 7)%nat -> (j < soplen)%nat ->
  window_inv low j r -> - 2 ^ Z.of_nat j < low -> Z.odd (r !!! j) = true -> -m <= r !!! j <= m -> zeros r j (j + b) ->
  window_done low j (window_bits m r j b n).
Proof.
  induction n as [|n IH]; intros j b r Hb Hn Hj Hinv Hlo Hodd Hd Hz.
  - cbn. split; [done|]. split; [by right|]. exists (j + b)%nat. split; [lia|]. split; [done|].
    replace b with 7%nat by lia. rewrite Nat2Z.inj_add, Z.pow_add_r by lia. change (2 ^ Z.of_nat 7) with 128. nia.
  - cbn [window_bits]. destruct (Nat.ltb_spec b (soplen - j)) as [Hlt|Hge].
    2:{ split; [done|]. split; [by right|]. exists (j + 7)%nat. split; [lia|]. split; [intros i Hi1 Hi2; apply Hz; lia|].
        rewrite Nat2Z.inj_add, Z.pow_add_r by lia. change (2 ^ Z.of_nat 7) with 128. nia. }
    pose proof Hinv as (Hl & Hval & Hlow & Hdig & Hbits). pose proof (Hbits (j + b)%nat ltac:(lia)) as Hbit.
    assert (Z.shiftl (r !!! (j + b)%nat) (Z.of_nat b) = 2 ^ Z.of_nat b * r !!! (j + b)%nat) as Hsh
      by (rewrite Z.shiftl_mul_pow2 by lia; apply Z.mul_comm).
    assert (0 < 2 ^ Z.of_nat b <= 64) as Hp by (split; [lia|change 64 with (2 ^ 6); apply Z.pow_le_mono_r; lia]).
    destruct (odd_pow2 (r !!! j) b Hb Hodd) as [Ho1 Ho2].
    destruct (Z.leb_spec (r !!! j + Z.shiftl (r !!! (j + b)%nat) (Z.of_nat b)) m) as [H1|H1]; rewrite Hsh in H1.
    + rewrite i8_small by (rewrite Hsh; destruct Hbit as [E|E]; rewrite E; lia).
      apply IH; [lia|lia|done|apply absorb_inv; [lia|lia|done|done]|done|..]; list_look; rewrite ?Hsh.
      * destruct Hbit as [E|E]; rewrite E; [by rewrite Z.mul_0_r, Z.add_0_r|by rewrite Z.mul_1_r].
      * destruct Hbit as [E|E]; rewrite E in *; lia.
      * intros i Hi1 Hi2. destruct (decide (i = j + b)%nat) as [->|]; list_look; [done|]. apply Hz; lia.
    + destruct Hbit as [E|E]; rewrite E in *; [lia|]. rewrite Hsh. rewrite Z.mul_1_r in *.
      destruct (Z.leb_spec (-m) (r !!! j - 2 ^ Z.of_nat b)) as [H2|H2].
      * rewrite i8_small by lia.
        destruct (borrow_inv low j b r _ Hb ltac:(lia) Hinv Hlo ltac:(lia) E eq_refl) as (Hinv' & Hj' & Hsame & Hk).
        apply IH; [lia|lia|done|done|done|..]; rewrite ?Hj'; [done|lia|].
        intros i Hi1 Hi2. destruct (decide (i = j + b)%nat) as [->|]; [done|]. rewrite Hsame by lia. apply Hz; lia.
      * cbn. split; [done|]. split; [by right|]. exists (j + b)%nat. split; [lia|]. split; [done|].
        rewrite Nat2Z.inj_add, Z.pow_add_r by lia. nia.
Qed.

(** Before position [j]: the digits below are final, the others are bits, and the next
    nonzero bit outweighs the digits below. *)
Definition sliding_inv (j : nat) (r : list Z) : Prop :=
  length r = soplen /\ digits_val 2 r = v /\ (forall i, (i < j)%nat -> wdigit m (r !!! i)) /\
  (forall i, (j <= i < soplen)%nat -> bit (r !!! i)) /\
  exists e, (j <= e)%nat /\ (forall i, (j <= i < e)%nat -> (i < soplen)%nat -> r !!! i = 0) /\
    - 2 ^ Z.of_nat e < digits_val 2 (take j r).

Lemma window_step_inv j r : (j < soplen)%nat -> sliding_inv j r -> sliding_inv (S j) (window_step m r j).
Proof.
  intros Hj (Hl & Hval & Hdig & Hbits & e & He & Hz & Hlo). unfold window_step.
  destruct (Z.eqb_spec (r !!! j) 0) as [E|E].
  - repeat split; [done|done|..].
    + intros i Hi. destruct (decide (i = j)) as [->|]; [by left|apply Hdig; lia].
    + intros i Hi. apply Hbits. lia.
    + exists (max e (S j)). split; [lia|]. split; [intros i Hi1 Hi2; apply Hz; lia|].
      rewrite digits_val_take_S, E, Z.mul_0_r, Z.add_0_r by lia. apply Z.le_lt_trans with (- 2 ^ Z.of_nat e); [|done].
      apply -> Z.opp_le_mono. apply Z.pow_le_mono_r; lia.
  - assert (e = j) as -> by (destruct (decide (e = j)); [done|]; exfalso; apply E, Hz; lia).
    destruct (Hbits j) as [?|E1]; [lia|done|].
    destruct (window_bits_spec (digits_val 2 (take j r)) 6 j 1 r) as ((Hl' & Hv' & Hlow' & Hdig' & Hbits') & Hd & e & He' & Hz' & Hlo'); try lia.
    { repeat split; [done|done|done|]. intros i Hi. apply Hbits. lia. }
    { by rewrite E1. }
    { intros i Hi1 Hi2. lia. }
    repeat split; [done|done|..].
    + intros i Hi. destruct (decide (i = j)) as [->|]; [done|apply Hdig'; lia].
    + intros i Hi. apply Hbits'. lia.
    + exists e. split; [lia|]. split; [intros i Hi1 Hi2; apply Hz'; lia|]. rewrite digits_val_take_S, Hlow' by lia. lia.
Qed.
End sliding.

(** The digits of the sliding window represent the scalar; each is zero or odd, and below
    half the size of the window. *)
Theorem slidingwindow_spec a w : sc_limbs mask32 a -> 0 <= sc_val a < 2 ^ 253 -> 2 <= w <= 7 ->
  let r := contract256_slidingwindow_modm a w in
  length r = soplen /\ digits_val 2 r = sc_val a /\ forall i, (i < soplen)%nat -> wdigit (2 ^ (w - 1) - 1) (r !!! i).
Proof.
  intros Ha Hv Hw r. subst r. unfold contract256_slidingwindow_modm. rewrite Z.shiftl_mul_pow2, Z.mul_1_l by lia.
  assert (1 <= 2 ^ (w - 1) - 1 <= 63) as Hm.
  { assert (2 ^ 1 <= 2 ^ (w - 1) <= 2 ^ 6) by (split; apply Z.pow_le_mono_r; lia). lia. }
  destruct (binary_range a) as [Hl Hq]. pose proof (proj1 (Forall_lookup_total _ _) Hq) as Hb. cbv beta in Hb.
  assert (sliding_inv (2 ^ (w - 1) - 1) (sc_val a) soplen (foldl (window_step (2 ^ (w - 1) - 1)) (binary a) (seq 0 soplen))) as H.
  { apply (foldl_seq_inv _ (sliding_inv _ _) soplen 0).
    - refine (conj Hl (conj (binary_val a Ha) (conj _ (conj _ _)))); [lia|..].
      + intros i Hi. specialize (Hb i ltac:(lia)). unfold bit. lia.
      + exists 0%nat. split; [lia|]. split; [lia|]. cbn. lia.
    - intros i r Hi. apply window_step_inv; [done|done|lia]. }
  destruct H as (Hl' & Hv' & Hd & _). done.
Qed.

(** The two recodings lose nothing: the digits in base 16 lie between -8 and 8, those of
    the sliding window are 0 or odd and below 2{^w-1} in absolute value, and both sum to the
    scalar. *)
Theorem recodings_exact a w : sc_limbs mask32 a -> 0 <= sc_val a < 2 ^ 253 -> 2 <= w <= 7 ->
  let r := contract256_window4_modm a in let s := contract256_slidingwindow_modm a w in
  digits_val 16 r = sc_val a /\ Forall (fun d => -8 <= d <= 8) r
  /\ digits_val 2 s = sc_val a /\ Forall (fun d => d = 0 \/ (d mod 2 = 1 /\ Z.abs d < 2 ^ (w - 1))) s.
Proof.
  intros Ha Hv Hw. cbv zeta. destruct (window4_spec a Ha ltac:(lia)) as (Hl & Hval & Hb).
  destruct (slidingwindow_spec a w Ha Hv Hw) as (Hl' & Hval' & Hb').
  split; [done|]. split; [|split; [done|]]; apply (proj2 (Forall_lookup_total _ _)); intros i Hi.
  - rewrite Hl in Hi. apply (Hb i Hi).
  - rewrite Hl' in Hi. specialize (Hb' i Hi). destruct Hb' as [?|[Ho ?]]; [by left|right]. rewrite Zmod_odd, Ho. lia.
Qed.
