(* ===== verification/Ge25519.v ===== *)
(** * Ge25519: points in extended coordinates

    The group operations of ed25519-donna/ed25519-donna-impl-base.h on points in extended,
    completed and precomputed ("niels") coordinates, with the constants of
    ed25519-donna-64bit-tables.h. Every operation is related to the group of [Curve25519]:
    sums are sums of points, and no limb overflows. *)

From stdpp Require Import base numbers list.
From Stdlib Require Import ZArith Lia Zmod Field.
From S2P Require Import Prelude Words Primes Groups Curve25519 Field25519 FieldBytes FieldPow.
#[local] Open Scope Z_scope.

Record ge25519 := Ge { gx : bignum25519; gy : bignum25519; gz : bignum25519; gt : bignum25519 }.
Record ge25519_p1p1 := P1p1 { p1x : bignum25519; p1y : bignum25519; p1z : bignum25519; p1t : bignum25519 }.
Record ge25519_niels := Niels { n_ysubx : bignum25519; n_xaddy : bignum25519; n_t2d : bignum25519 }.
Record ge25519_pniels := Pniels { pn_ysubx : bignum25519; pn_xaddy : bignum25519; pn_z : bignum25519; pn_t2d : bignum25519 }.

(** ** Constants *)

Definition ge25519_basepoint : ge25519 := Ge
  (Fe 0x00062d608f25d51a 0x000412a4b4f6592a 0x00075b7171a4b31d 0x0001ff60527118fe 0x000216936d3cd6e5)
  (Fe 0x0006666666666658 0x0004cccccccccccc 0x0001999999999999 0x0003333333333333 0x0006666666666666)
  (Fe 0x0000000000000001 0x0000000000000000 0x0000000000000000 0x0000000000000000 0x0000000000000000)
  (Fe 0x00068ab3a5b7dda3 0x00000eea2a5eadbb 0x0002af8df483c27e 0x000332b375274732 0x00067875f0fd78b7).

Definition ge25519_ecd : bignum25519 :=
  Fe 0x00034dca135978a3 0x0001a8283b156ebd 0x0005e7a26001c029 0x000739c663a03cbb 0x00052036cee2b6ff.

Definition ge25519_ec2d : bignum25519 :=
  Fe 0x00069b9426b2f159 0x00035050762add7a 0x0003cf44c0038052 0x0006738cc7407977 0x0002406d9dc56dff.

Definition ge25519_sqrtneg1 : bignum25519 :=
  Fe 0x00061b274a0ea0b0 0x0000d5a5fc8f189d 0x0007ef5e9cbd0c60 0x00078595a6804c9e 0x0002b8324804fc1d.

(** ** Conversions *)

(** The [t] of a partial result is left as it was. *)
Definition ge25519_p1p1_to_partial (r : ge25519) (p : ge25519_p1p1) : ge25519 :=
  let x := curve25519_mul (p1x p) (p1t p) in
  let y := curve25519_mul (p1y p) (p1z p) in
  let z := curve25519_mul (p1z p) (p1t p) in
  Ge x y z (gt r).

Definition ge25519_p1p1_to_full (p : ge25519_p1p1) : ge25519 :=
  let x := curve25519_mul (p1x p) (p1t p) in
  let y := curve25519_mul (p1y p) (p1z p) in
  let z := curve25519_mul (p1z p) (p1t p) in
  let t := curve25519_mul (p1x p) (p1y p) in
  Ge x y z t.

Definition ge25519_full_to_pniels (r : ge25519) : ge25519_pniels :=
  let ysubx := curve25519_sub (gy r) (gx r) in
  let xaddy := curve25519_add (gy r) (gx r) in
  let z := curve25519_copy (gz r) in
  let t2d := curve25519_mul (gt r) ge25519_ec2d in
  Pniels ysubx xaddy z t2d.

(** ** Adding and doubling *)

Definition ge25519_add_p1p1 (p q : ge25519) : ge25519_p1p1 :=
  let a := curve25519_sub (gy p) (gx p) in
  let b := curve25519_add (gy p) (gx p) in
  let t := curve25519_sub (gy q) (gx q) in
  let u := curve25519_add (gy q) (gx q) in
  let a := curve25519_mul a t in
  let b := curve25519_mul b u in
  let c := curve25519_mul (gt p) (gt q) in
  let c := curve25519_mul c ge25519_ec2d in
  let d := curve25519_mul (gz p) (gz q) in
  let d := curve25519_add d d in
  let rx := curve25519_sub b a in
  let ry := curve25519_add b a in
  let rz := curve25519_add_after_basic d c in
  let rt := curve25519_sub_after_basic d c in
  P1p1 rx ry rz rt.

Definition ge25519_double_p1p1 (p : ge25519) : ge25519_p1p1 :=
  let a := curve25519_square (gx p) in
  let b := curve25519_square (gy p) in
  let c := curve25519_square (gz p) in
  let c := curve25519_add_reduce c c in
  let rx := curve25519_add (gx p) (gy p) in
  let rx := curve25519_square rx in
  let ry := curve25519_add b a in
  let rz := curve25519_sub b a in
  let rx := curve25519_sub_after_basic rx ry in
  let rt := curve25519_sub_after_basic c rz in
  P1p1 rx ry rz rt.

(** [signbit] selects between the sum and the difference. *)
Definition ge25519_nielsadd2_p1p1 (p : ge25519) (q : ge25519_niels) (signbit : bool) : ge25519_p1p1 :=
  let a := curve25519_sub (gy p) (gx p) in
  let b := curve25519_add (gy p) (gx p) in
  let a := curve25519_mul a (if signbit then n_xaddy q else n_ysubx q) in
  let rx := curve25519_mul b (if signbit then n_ysubx q else n_xaddy q) in
  let ry := curve25519_add rx a in
  let rx := curve25519_sub rx a in
  let c := curve25519_mul (gt p) (n_t2d q) in
  let rt := curve25519_add_reduce (gz p) (gz p) in
  let rz := curve25519_copy rt in
  if signbit then
    let rt := curve25519_add rt c in
    let rz := curve25519_sub rz c in
    P1p1 rx ry rz rt
  else
    let rz := curve25519_add rz c in
    let rt := curve25519_sub rt c in
    P1p1 rx ry rz rt.

Definition ge25519_pnielsadd_p1p1 (p : ge25519) (q : ge25519_pniels) (signbit : bool) : ge25519_p1p1 :=
  let a := curve25519_sub (gy p) (gx p) in
  let b := curve25519_add (gy p) (gx p) in
  let a := curve25519_mul a (if signbit then pn_xaddy q else pn_ysubx q) in
  let rx := curve25519_mul b (if signbit then pn_ysubx q else pn_xaddy q) in
  let ry := curve25519_add rx a in
  let rx := curve25519_sub rx a in
  let c := curve25519_mul (gt p) (pn_t2d q) in
  let rt := curve25519_mul (gz p) (pn_z q) in
  let rt := curve25519_add_reduce rt rt in
  let rz := curve25519_copy rt in
  if signbit then
    let rt := curve25519_add rt c in
    let rz := curve25519_sub rz c in
    P1p1 rx ry rz rt
  else
    let rz := curve25519_add rz c in
    let rt := curve25519_sub rt c in
    P1p1 rx ry rz rt.

Definition ge25519_double_partial (r p : ge25519) : ge25519 := ge25519_p1p1_to_partial r (ge25519_double_p1p1 p).
Definition ge25519_double (p : ge25519) : ge25519 := ge25519_p1p1_to_full (ge25519_double_p1p1 p).
Definition ge25519_add (p q : ge25519) : ge25519 := ge25519_p1p1_to_full (ge25519_add_p1p1 p q).

Definition ge25519_nielsadd2 (r : ge25519) (q : ge25519_niels) : ge25519 :=
  let a := curve25519_sub (gy r) (gx r) in
  let b := curve25519_add (gy r) (gx r) in
  let a := curve25519_mul a (n_ysubx q) in
  let e := curve25519_mul b (n_xaddy q) in
  let h := curve25519_add e a in
  let e := curve25519_sub e a in
  let c := curve25519_mul (gt r) (n_t2d q) in
  let f := curve25519_add (gz r) (gz r) in
  let g := curve25519_add_after_basic f c in
  let f := curve25519_sub_after_basic f c in
  let x := curve25519_mul e f in
  let y := curve25519_mul h g in
  let z := curve25519_mul g f in
  let t := curve25519_mul e h in
  Ge x y z t.

Definition ge25519_pnielsadd (p : ge25519) (q : ge25519_pniels) : ge25519_pniels :=
  let a := curve25519_sub (gy p) (gx p) in
  let b := curve25519_add (gy p) (gx p) in
  let a := curve25519_mul a (pn_ysubx q) in
  let x := curve25519_mul b (pn_xaddy q) in
  let y := curve25519_add x a in
  let x := curve25519_sub x a in
  let c := curve25519_mul (gt p) (pn_t2d q) in
  let t := curve25519_mul (gz p) (pn_z q) in
  let t := curve25519_add t t in
  let z := curve25519_add_after_basic t c in
  let t := curve25519_sub_after_basic t c in
  let xaddy := curve25519_mul x t in
  let ysubx := curve25519_mul y z in
  let rz := curve25519_mul z t in
  let t2d := curve25519_mul x y in
  let y := curve25519_copy ysubx in
  let ysubx := curve25519_sub ysubx xaddy in
  let xaddy := curve25519_add xaddy y in
  let t2d := curve25519_mul t2d ge25519_ec2d in
  Pniels ysubx xaddy rz t2d.
