(* ===== verification/Ge25519Spec.v ===== *)
(** * Ge25519Spec: operations on coordinates are operations of the group

    What it means for coordinates to represent a point of the curve, and that every
    operation of [Ge25519] takes representations to a representation of the sum, within the
    bounds on limbs that the next operation needs. *)

From stdpp Require Import base numbers list.
From Stdlib Require Import ZArith Lia Zmod Field.
From S2P Require Import Prelude Words Primes Groups Curve25519 Field25519 FieldBytes FieldPow Ge25519.
#[local] Open Scope F_scope.

(** ** Straight-line code over field elements *)

(** The value of one operation, from the values of its arguments. *)
Ltac fe_op :=
  idtac; lazymatch goal with
  | Ha : fe_is ?u ?x ?a, Hb : fe_is ?v ?y ?b |- fe_is _ _ (curve25519_mul ?a ?b) => exact (fe_mul x y a b u v Ha Hb _ _)
  | Ha : fe_is ?u ?x ?a, Hb : fe_is ?v ?y ?b |- fe_is _ _ (curve25519_add ?a ?b) => exact (fe_add x y a b u v Ha Hb _)
  | Ha : fe_is ?u ?x ?a, Hb : fe_is ?v ?y ?b |- fe_is _ _ (curve25519_add_after_basic ?a ?b) => exact (fe_add_after_basic x y a b u v Ha Hb _)
  | Ha : fe_is ?u ?x ?a, Hb : fe_is ?v ?y ?b |- fe_is _ _ (curve25519_sub ?a ?b) => exact (fe_sub x y a b u v Ha Hb _ _)
  | Ha : fe_is ?u ?x ?a, Hb : fe_is ?v ?y ?b |- fe_is _ _ (curve25519_sub_after_basic ?a ?b) => exact (fe_sub_after_basic x y a b u v Ha Hb _ _)
  | Ha : fe_is ?u ?x ?a, Hb : fe_is ?v ?y ?b |- fe_is _ _ (curve25519_add_reduce ?a ?b) => exact (fe_add_reduce x y a b u v Ha Hb _ _)
  | Ha : fe_is ?u ?x ?a, Hb : fe_is ?v ?y ?b |- fe_is _ _ (curve25519_sub_reduce ?a ?b) => exact (fe_sub_reduce x y a b u v Ha Hb _ _)
  | Ha : fe_is ?u ?x ?a |- fe_is _ _ (curve25519_add ?a ?a) => exact (fe_add x x a a u u Ha Ha _)
  | Ha : fe_is ?u ?x ?a |- fe_is _ _ (curve25519_add_reduce ?a ?a) => exact (fe_add_reduce x x a a u u Ha Ha _ _)
  | Ha : fe_is ?u ?x ?a |- fe_is _ _ (curve25519_square ?a) => exact (fe_square x a u Ha _)
  | Ha : fe_is ?u ?x ?a |- fe_is _ _ (curve25519_neg ?a) => exact (fe_neg x a u Ha _)
  | Ha : fe_is ?u ?x ?a |- fe_is _ _ (curve25519_copy ?a) => exact (fe_copy x a u Ha)
  end.

(** One assignment [x := e] of a field element. *)
Ltac fe_step :=
  lazymatch goal with
  | |- ?Q (let x := ?e in @?k x) =>
    let v := fresh x in let H := fresh "H" x in
    eassert (fe_is _ _ e) as H by fe_op;
    match type of H with fe_is ?u _ _ => let u' := eval vm_compute in u in change u with u' in H end;
    apply (let_in Q e k); intros v ->; revert H; generalize e; intros v H; cbv beta
  end.

Ltac fe_steps := repeat fe_step.

(** ** Constants *)

Definition two : F := 1 + 1.

Lemma ecd_is : fe_is tight curve_d ge25519_ecd.
Proof. split; [repeat split; by vm_compute|F_compute]. Qed.

Lemma ec2d_is : fe_is tight (two * curve_d) ge25519_ec2d.
Proof. split; [repeat split; by vm_compute|F_compute]. Qed.

Lemma sqrtneg1_is : fe_is tight curve_i ge25519_sqrtneg1.
Proof. split; [repeat split; by vm_compute|F_compute]. Qed.

(** ** Representations *)

Definition rep (P : point) (r : ge25519) : Prop :=
  exists z, z <> 0 /\ fe_is tight (px P * z) (gx r) /\ fe_is tight (py P * z) (gy r) /\ fe_is tight z (gz r) /\
    fe_is tight (px P * py P * z) (gt r).

(** Without the coordinate [t]. *)
Definition rep_partial (P : point) (r : ge25519) : Prop :=
  exists z, z <> 0 /\ fe_is tight (px P * z) (gx r) /\ fe_is tight (py P * z) (gy r) /\ fe_is tight z (gz r).

Definition rep_p1p1 (P : point) (r : ge25519_p1p1) : Prop :=
  exists z t, z <> 0 /\ t <> 0 /\ fe_is loose (px P * z) (p1x r) /\ fe_is loose (py P * t) (p1y r) /\
    fe_is loose z (p1z r) /\ fe_is loose t (p1t r).

Definition rep_niels (P : point) (q : ge25519_niels) : Prop :=
  fe_is tight (py P - px P) (n_ysubx q) /\ fe_is tight (py P + px P) (n_xaddy q) /\
  fe_is tight (two * curve_d * px P * py P) (n_t2d q).

Definition rep_pniels (P : point) (q : ge25519_pniels) : Prop :=
  exists z, z <> 0 /\ fe_is loose ((py P - px P) * z) (pn_ysubx q) /\ fe_is loose ((py P + px P) * z) (pn_xaddy q) /\
    fe_is tight z (pn_z q) /\ fe_is tight (two * curve_d * px P * py P * z) (pn_t2d q).

Lemma rep_to_partial P r : rep P r -> rep_partial P r.
Proof. intros (z & Hz & Hx & Hy & Hz' & _). by exists z. Qed.

(** [a] stands for [x], in another form and within a larger bound. *)
Lemma fe_is_eq u v x y a : fe_is u x a -> x = y -> Holds (u <=? v)%Z -> fe_is v y a.
Proof. intros H <- Hu. by eapply fe_is_le. Qed.

Ltac fe_same := eapply fe_is_eq; [eassumption|unfold two; ring|apply _].

(** Completed coordinates of a sum, up to a common factor. *)
Lemma p1p1_sum P Q k rx ry rz rt :
  k <> 0 ->
  fe_is loose (k * (px P * py Q + py P * px Q)) rx -> fe_is loose (k * (py P * py Q + px P * px Q)) ry ->
  fe_is loose (k * (1 + curve_d * px P * px Q * py P * py Q)) rz ->
  fe_is loose (k * (1 - curve_d * px P * px Q * py P * py Q)) rt ->
  rep_p1p1 (gadd P Q) (P1p1 rx ry rz rt).
Proof.
  intros Hk Hx Hy Hz Ht. destruct (add_denominators P Q) as [Hp Hm].
  exists (k * (1 + curve_d * px P * px Q * py P * py Q)), (k * (1 - curve_d * px P * px Q * py P * py Q)).
  rewrite px_add, py_add. split_and!; try by apply F_mul_nonzero.
  - eapply fe_is_eq; [exact Hx|by field|apply _].
  - eapply fe_is_eq; [exact Hy|by field|apply _].
  - exact Hz.
  - exact Ht.
Qed.

Lemma p1p1_to_full_rep P r : rep_p1p1 P r -> rep P (ge25519_p1p1_to_full r).
Proof.
  intros (z & t & Hz & Ht & Hx & Hy & Hz' & Ht'). cbv beta delta [ge25519_p1p1_to_full]. fe_steps.
  exists (z * t). split; [by apply F_mul_nonzero|]. split_and!; fe_same.
Qed.

Lemma p1p1_to_partial_rep P r r0 : rep_p1p1 P r -> rep_partial P (ge25519_p1p1_to_partial r0 r).
Proof.
  intros (z & t & Hz & Ht & Hx & Hy & Hz' & Ht'). cbv beta delta [ge25519_p1p1_to_partial]. fe_steps.
  exists (z * t). split; [by apply F_mul_nonzero|]. split_and!; fe_same.
Qed.

Lemma two_z_nonzero z : z <> 0 -> two * z <> 0.
Proof. intros Hz. apply F_mul_nonzero; [apply two_nonzero|done]. Qed.

Lemma full_to_pniels_rep P r : rep P r -> rep_pniels P (ge25519_full_to_pniels r).
Proof.
  intros (z & Hz & Hx & Hy & Hz' & Ht). pose proof ec2d_is. cbv beta delta [ge25519_full_to_pniels]. fe_steps.
  exists z. split; [done|]. split_and!; fe_same.
Qed.

Lemma add_p1p1_rep P Q p q : rep P p -> rep Q q -> rep_p1p1 (gadd P Q) (ge25519_add_p1p1 p q).
Proof.
  intros (z1 & Hz1 & Hx1 & Hy1 & Hz1' & Ht1) (z2 & Hz2 & Hx2 & Hy2 & Hz2' & Ht2). pose proof ec2d_is.
  cbv beta delta [ge25519_add_p1p1]. fe_steps.
  apply (p1p1_sum P Q (two * (z1 * z2))); [by apply two_z_nonzero, F_mul_nonzero|..]; fe_same.
Qed.

Lemma double_p1p1_rep P p : rep_partial P p -> rep_p1p1 (gadd P P) (ge25519_double_p1p1 p).
Proof.
  intros (z & Hz & Hx & Hy & Hz'). cbv beta delta [ge25519_double_p1p1]. fe_steps.
  pose proof (point_on P) as Ho. unfold on_curve in Ho.
  assert (py P * z * (py P * z) - px P * z * (px P * z) = z * z * (1 + curve_d * px P * px P * py P * py P)) as E.
  { transitivity (z * z * (py P * py P - px P * px P)); [ring|]. rewrite Ho. ring. }
  apply (p1p1_sum P P (z * z)); [by apply F_mul_nonzero|..].
  - fe_same.
  - fe_same.
  - eapply fe_is_eq; [eassumption|exact E|apply _].
  - eapply fe_is_eq; [eassumption|rewrite E; ring|apply _].
Qed.

Lemma niels_neg P q : rep_niels P q ->
  fe_is tight (py (gneg P) - px (gneg P)) (n_xaddy q) /\ fe_is tight (py (gneg P) + px (gneg P)) (n_ysubx q).
Proof. intros (Ha & Hb & _). rewrite px_neg, py_neg. split; fe_same. Qed.

(** The sum, or the difference when the sign bit is set. *)
Definition signed (s : bool) (P : point) : point := if s then gneg P else P.

Lemma nielsadd2_p1p1_rep P Q p q s : rep P p -> rep_niels Q q ->
  rep_p1p1 (gadd P (signed s Q)) (ge25519_nielsadd2_p1p1 p q s).
Proof.
  intros (z & Hz & Hx & Hy & Hz' & Ht) (Hq1 & Hq2 & Hq3). destruct s; cbv beta delta [ge25519_nielsadd2_p1p1]; fe_steps.
  - apply (p1p1_sum P (gneg Q) (two * z)); [by apply two_z_nonzero|..]; rewrite ?px_neg, ?py_neg; fe_same.
  - apply (p1p1_sum P Q (two * z)); [by apply two_z_nonzero|..]; fe_same.
Qed.

Lemma pnielsadd_p1p1_rep P Q p q s : rep P p -> rep_pniels Q q ->
  rep_p1p1 (gadd P (signed s Q)) (ge25519_pnielsadd_p1p1 p q s).
Proof.
  intros (z & Hz & Hx & Hy & Hz' & Ht) (z2 & Hz2 & Hq1 & Hq2 & Hq3 & Hq4).
  destruct s; cbv beta delta [ge25519_pnielsadd_p1p1]; fe_steps.
  - apply (p1p1_sum P (gneg Q) (two * (z * z2))); [by apply two_z_nonzero, F_mul_nonzero|..]; rewrite ?px_neg, ?py_neg; fe_same.
  - apply (p1p1_sum P Q (two * (z * z2))); [by apply two_z_nonzero, F_mul_nonzero|..]; fe_same.
Qed.

Lemma double_partial_rep P p r0 : rep_partial P p -> rep_partial (gadd P P) (ge25519_double_partial r0 p).
Proof. intros H. by apply p1p1_to_partial_rep, double_p1p1_rep. Qed.

Lemma double_rep P p : rep_partial P p -> rep (gadd P P) (ge25519_double p).
Proof. intros H. by apply p1p1_to_full_rep, double_p1p1_rep. Qed.

Lemma add_rep P Q p q : rep P p -> rep Q q -> rep (gadd P Q) (ge25519_add p q).
Proof. intros HP HQ. by apply p1p1_to_full_rep, add_p1p1_rep. Qed.

(** [ge25519_nielsadd2] is the sum in completed coordinates, converted back. *)
Lemma nielsadd2_rep P Q r q : rep P r -> rep_niels Q q -> rep (gadd P Q) (ge25519_nielsadd2 r q).
Proof.
  intros (z & Hz & Hx & Hy & Hz' & Ht) (Hq1 & Hq2 & Hq3). cbv beta delta [ge25519_nielsadd2].
  do 10 fe_step. 
  assert (rep_p1p1 (gadd P Q) (P1p1 e0 h g f0)) as H.
  { apply (p1p1_sum P Q (two * z)); [by apply two_z_nonzero|..]; fe_same. }
  apply p1p1_to_full_rep in H. exact H.
Qed.

(** The next odd multiple, in projective niels coordinates. *)
Lemma pnielsadd_rep P Q p q : rep P p -> rep_pniels Q q -> rep_pniels (gadd P Q) (ge25519_pnielsadd p q).
Proof.
  intros (z & Hz & Hx & Hy & Hz' & Ht) (z2 & Hz2 & Hq1 & Hq2 & Hq3 & Hq4). pose proof ec2d_is.
  cbv beta delta [ge25519_pnielsadd]. do 11 fe_step.
  assert (rep_p1p1 (gadd P Q) (P1p1 x0 y z0 t1)) as Hr.
  { apply (p1p1_sum P Q (two * (z * z2))); [by apply two_z_nonzero, F_mul_nonzero|..]; fe_same. }
  destruct Hr as (k & e & Hk & He & Hr1 & Hr2 & Hr3 & Hr4). cbn [p1x p1y p1z p1t] in Hr1, Hr2, Hr3, Hr4.
  clear Hx1 Hy0 Hz0 Ht2. fe_steps. exists (k * e). split; [by apply F_mul_nonzero|]. split_and!; fe_same.
Qed.
