(* ===== verification/GePack.v ===== *)
(** * GePack: points as bytes

    ed25519-donna-impl-base.h packs a point as its [y] coordinate with the parity of [x] in
    the last bit, and unpacks it by a square root; ed25519-donna.h compares byte strings
    without branches. [encode] is the encoding of a point; packing computes it, and
    unpacking finds the negative of an encoded point. *)

From stdpp Require Import base numbers list.
From Stdlib Require Import ZArith Lia Zmod Field.
From S2P Require Import Prelude Words Primes Groups Curve25519 Field25519 FieldBytes FieldPow Ge25519 Ge25519Spec.
#[local] Open Scope Z_scope.

(** ** Definitions *)

Definition byte_at (p : list byte) (n : nat) : Z := Z_of_byte (nth n p (byte_of_Z 0)).

(** 1 when the first [len] bytes agree, else 0. *)
Definition ed25519_verify (x y : list byte) (len : nat) : Z :=
  let differentbits := foldl (fun acc '(a, b) => Z.lor acc (Z.lxor (Z_of_byte a) (Z_of_byte b))) 0 (zip (take len x) (take len y)) in
  Z.land 1 (Z.shiftr (u64 (differentbits - 1)) 8).

Definition ge25519_pack (p : ge25519) : list byte :=
  let zi := curve25519_recip (gz p) in
  let tx := curve25519_mul (gx p) zi in
  let ty := curve25519_mul (gy p) zi in
  let r := curve25519_contract ty in
  let parity := curve25519_contract tx in
  <[31%nat := byte_of_Z (Z.lxor (byte_at r 31) (Z.shiftl (Z.land (byte_at parity 0) 1) 7))]> r.

Definition fe_one : bignum25519 := Fe 1 0 0 0 0.
Definition zero_bytes : list byte := replicate 32 (byte_of_Z 0).

(** A candidate for the square root of [num / den]: [num den^3 (num den^7)^((p-5)/8)]. *)
Definition sqrt_candidate (num den : bignum25519) : bignum25519 :=
  let t := curve25519_square den in
  let d3 := curve25519_mul t den in
  let rx := curve25519_square d3 in
  let rx := curve25519_mul rx den in
  let rx := curve25519_mul rx num in
  let rx := curve25519_pow_two252m3 rx in
  let rx := curve25519_mul rx d3 in
  curve25519_mul rx num.

(** The choice of the root: one of the candidate and its product with the root of -1. *)
Definition sqrt_check (num den rx : bignum25519) : option bignum25519 :=
  let t := curve25519_square rx in
  let t := curve25519_mul t den in
  let root := curve25519_sub_reduce t num in
  let check := curve25519_contract root in
  if ed25519_verify check zero_bytes 32 =? 0 then
    let t := curve25519_add_reduce t num in
    let check := curve25519_contract t in
    if ed25519_verify check zero_bytes 32 =? 0 then None
    else Some (curve25519_mul rx ge25519_sqrtneg1)
  else Some rx.

(** The failure of the code, which returns 0, is [None]. *)
Definition ge25519_unpack_negative_vartime (p : list byte) : option ge25519 :=
  let parity := Z.shiftr (byte_at p 31) 7 in
  let ry := curve25519_expand p in
  let rz := curve25519_copy fe_one in
  let num := curve25519_square ry in
  let den := curve25519_mul num ge25519_ecd in
  let num := curve25519_sub_reduce num rz in
  let den := curve25519_add den rz in
  match sqrt_check num den (sqrt_candidate num den) with
  | None => None
  | Some rx =>
    let check := curve25519_contract rx in
    let rx := if Z.land (byte_at check 0) 1 =? parity then curve25519_neg (curve25519_copy rx) else rx in
    Some (Ge rx ry rz (curve25519_mul rx ry))
  end.

(** The encoding of a point. *)
Definition encode (P : point) : list byte :=
  le_bytes 32 (Zmod.unsigned (py P) + 2 ^ 255 * (Zmod.unsigned (px P) mod 2)).

(** ** Comparison *)

Lemma lor_byte a b : 0 <= a < 256 -> 0 <= b < 256 -> 0 <= Z.lor a b < 256.
Proof.
  intros Ha Hb. split; [by apply Z.lor_nonneg; lia|]. destruct (Z.eq_dec (Z.lor a b) 0) as [->|]; [lia|].
  pose proof (Z.lor_nonneg a b). apply (Z.log2_lt_pow2 _ 8); [lia|]. rewrite Z.log2_lor by lia.
  apply Z.max_lub_lt; [destruct (Z.eq_dec a 0) as [->|]|destruct (Z.eq_dec b 0) as [->|]]; try done; apply Z.log2_lt_pow2; lia.
Qed.

Lemma lxor_byte a b : 0 <= Z.lxor (Z_of_byte a) (Z_of_byte b) < 256.
Proof.
  pose proof (Z_of_byte_range a). pose proof (Z_of_byte_range b). split; [by apply Z.lxor_nonneg; lia|].
  destruct (Z.eq_dec (Z.lxor (Z_of_byte a) (Z_of_byte b)) 0) as [->|]; [lia|].
  pose proof (Z.lxor_nonneg (Z_of_byte a) (Z_of_byte b)). apply (Z.log2_lt_pow2 _ 8); [lia|].
  eapply Z.le_lt_trans; [apply Z.log2_lxor; lia|].
  apply Z.max_lub_lt; [destruct (Z.eq_dec (Z_of_byte a) 0) as [->|]|destruct (Z.eq_dec (Z_of_byte b) 0) as [->|]]; try done; apply Z.log2_lt_pow2; lia.
Qed.

Lemma verify_bits x : forall y acc, length x = length y -> 0 <= acc < 256 ->
  let d := foldl (fun acc '(a, b) => Z.lor acc (Z.lxor (Z_of_byte a) (Z_of_byte b))) acc (zip x y) in
  0 <= d < 256 /\ (d = 0 <-> acc = 0 /\ x = y).
Proof.
  induction x as [|a x IH]; intros [|b y] acc Hl Hacc; try done; [simpl; split; [lia|tauto]|]. cbn [zip zip_with foldl].
  destruct (IH y (Z.lor acc (Z.lxor (Z_of_byte a) (Z_of_byte b))) ltac:(simpl in Hl; lia)) as [Hr Hiff].
  { apply lor_byte; [done|apply lxor_byte]. }
  split; [done|]. rewrite Hiff, Z.lor_eq_0_iff, Z.lxor_eq_0_iff. split.
  - intros [[-> Hab] ->]. split; [done|]. f_equal. rewrite <- (byte_of_Z_of_byte a), <- (byte_of_Z_of_byte b). by rewrite Hab.
  - intros [-> [= -> ->]]. done.
Qed.

Theorem ed25519_verify_spec x y n : length x = n -> length y = n ->
  ed25519_verify x y n = if decide (x = y) then 1 else 0.
Proof.
  intros Hx Hy. unfold ed25519_verify. rewrite !take_ge by lia.
  destruct (verify_bits x y 0) as [Hr Hiff]; [lia|lia|]. set (d := foldl _ _ _) in *.
  rewrite Z.shiftr_div_pow2, u64_wrap by lia. unfold wrap. destruct (decide (x = y)) as [E|E].
  - rewrite (proj2 Hiff) by done. done.
  - assert (d <> 0) by tauto. rewrite Z.mod_small, Z.div_small by lia. done.
Qed.

(** ** Packing *)

(** The last byte of a number of 255 bits, with the parity put above it. *)
Lemma le_bytes_top y b : 0 <= y < 2 ^ 255 -> 0 <= b <= 1 ->
  let r := le_bytes 32 y in
  <[31%nat := byte_of_Z (Z.lxor (byte_at r 31) (Z.shiftl b 7))]> r = le_bytes 32 (y + 2 ^ 255 * b).
Proof.
  intros Hy Hb r. assert (r = le_bytes 31 (y mod 2 ^ 248) ++ [byte_of_Z (y / 2 ^ 248)]) as Hr.
  { change [byte_of_Z (y / 2 ^ 248)] with (le_bytes 1 (y / 2 ^ 248)). rewrite (le_bytes_app 31 1).
    - unfold r. f_equal. change (8 * Z.of_nat 31) with 248. rewrite Z.add_comm. apply Z.div_mod. lia.
    - apply Z.mod_pos_bound. lia. }
  assert (0 <= y / 2 ^ 248 < 128) as Ht by (split; [apply Z.div_pos|apply Z.div_lt_upper_bound]; lia).
  assert (byte_at r 31 = y / 2 ^ 248) as Hat.
  { unfold byte_at. rewrite Hr, app_nth2; rewrite le_bytes_length; [|lia]. change (31 - 31)%nat with 0%nat. cbn [nth].
    rewrite Z_of_byte_of_Z. apply Z.mod_small. lia. }
  rewrite Hat, Hr, insert_app_r_alt by (rewrite le_bytes_length; lia). rewrite le_bytes_length. change (31 - 31)%nat with 0%nat. cbn [insert list_insert].
  replace (Z.lxor (y / 2 ^ 248) (Z.shiftl b 7)) with (y / 2 ^ 248 + 128 * b).
  - change [byte_of_Z (y / 2 ^ 248 + 128 * b)] with (le_bytes 1 (y / 2 ^ 248 + 128 * b)). rewrite (le_bytes_app 31 1).
    + f_equal. change (8 * Z.of_nat 31) with 248. pose proof (Z.div_mod y (2 ^ 248) ltac:(lia)). lia.
    + apply Z.mod_pos_bound. lia.
  - rewrite Z.shiftl_mul_pow2 by lia. change (128 * b) with (2 ^ 7 * b). rewrite (Z.mul_comm (2 ^ 7)), <- (lor_add _ b 7) by lia.
    symmetry. apply Z.lxor_lor. apply Z.bits_inj'. intros i Hi. rewrite Z.land_spec, Z.bits_0, <- Z.shiftl_mul_pow2 by lia.
    destruct (Z.lt_ge_cases i 7); [rewrite Z.shiftl_spec_low by lia; apply andb_false_r|].
    rewrite <- (Z.mod_small (y / 2 ^ 248) (2 ^ 7)) by lia. by rewrite Z.mod_pow2_bits_high by lia.
Qed.

Lemma F_range (x : F) : 0 <= Zmod.unsigned x < p25519.
Proof. apply Zmod.unsigned_pos_bound. done. Qed.

(** The parity is the lowest bit of the first byte. *)
Lemma le_bytes_parity x : Z.land (byte_at (le_bytes 32 x) 0) 1 = x mod 2.
Proof.
  change (byte_at (le_bytes 32 x) 0) with (Z_of_byte (byte_of_Z x)). rewrite Z_of_byte_of_Z.
  rewrite (land_mask _ 1 1) by done. change (2 ^ 1) with 2. change 256 with (2 * 128). rewrite Z.rem_mul_r by lia.
  rewrite Z.mul_comm, Z_mod_plus_full. apply Zmod_mod.
Qed.

Theorem ge25519_pack_spec P p : rep_partial P p -> ge25519_pack p = encode P.
Proof.
  intros (z & Hz & Hx & Hy & Hz'). unfold ge25519_pack. pose proof (fe_recip z _ (fe_is_le _ loose _ _ Hz' _)) as Hi.
  assert (fe_is tight (px P) (curve25519_mul (gx p) (curve25519_recip (gz p)))) as Htx.
  { eapply fe_is_eq; [apply (fe_mul _ _ _ _ tight tight Hx Hi); apply _| |apply _]. field. done. }
  assert (fe_is tight (py P) (curve25519_mul (gy p) (curve25519_recip (gz p)))) as Hty.
  { eapply fe_is_eq; [apply (fe_mul _ _ _ _ tight tight Hy Hi); apply _| |apply _]. field. done. }
  rewrite (fe_contract _ _ tight Htx _), (fe_contract _ _ tight Hty _), le_bytes_parity.
  apply le_bytes_top; [|pose proof (Z.mod_pos_bound (Zmod.unsigned (px P)) 2); lia].
  pose proof (F_range (py P)). unfold p25519 in *. lia.
Qed.

(** ** Square roots *)

#[local] Open Scope F_scope.

Abbreviation pow := (@Zmod.pow p25519).

Lemma pow_split (a : F) n : (0 <= n)%Z -> pow a n * pow a n * a = pow a (2 * n + 1).
Proof.
  intros Hn. rewrite Zmod.pow_add_r_nonneg, Zmod.pow_1_r by lia.
  replace (2 * n)%Z with (n + n)%Z by lia. by rewrite Zmod.pow_add_r_nonneg by lia.
Qed.

(** The candidate squared is [u / v] up to a power of [u v^7]. *)
Lemma candidate_square (u v x : F) : x = pow (v * v * v * (v * v * v) * v * u) (2 ^ 252 - 3) * (v * v * v) * u ->
  x * x * v = u * pow (v * v * v * (v * v * v) * v * u) (2 ^ 253 - 5).
Proof.
  intros ->. set (a := v * v * v * (v * v * v) * v * u). replace (2 ^ 253 - 5)%Z with (2 * (2 ^ 252 - 3) + 1)%Z by lia.
  rewrite <- pow_split by lia. set (q := pow a (2 ^ 252 - 3)). unfold a. ring.
Qed.

Lemma square_one (w : F) : w * w = 1 -> w = 1 \/ w = - (1).
Proof.
  intros H. assert ((w - 1) * (w + 1) = 0) as E by (transitivity (w * w - 1); [ring|rewrite H; ring]).
  apply F_mul_zero in E as [E|E]; [left|right].
  - transitivity ((w - 1) + 1); [ring|]. rewrite E. ring.
  - transitivity ((w + 1) - 1); [ring|]. rewrite E. ring.
Qed.

(** If [u / v] is the square of [x0], the power is 1 or -1. *)
Lemma candidate_sign (u v x0 : F) : x0 * x0 * v = u -> u <> 0 ->
  let w := pow (v * v * v * (v * v * v) * v * u) (2 ^ 253 - 5) in w = 1 \/ w = - (1).
Proof.
  intros Hu Hne w. apply square_one. unfold w.
  replace (v * v * v * (v * v * v) * v * u) with ((x0 * (v * v * v * v)) * (x0 * (v * v * v * v))) by (rewrite <- Hu; ring).
  set (s := x0 * (v * v * v * v)). rewrite pow_square by lia. rewrite <- Zmod.pow_add_r_nonneg by lia.
  replace (2 * (2 ^ 253 - 5) + 2 * (2 ^ 253 - 5))%Z with (Z.pred p25519) by reflexivity.
  apply Zmod.fermat_nz; [|apply p25519_prime]. intros E. apply Hne. apply F_mul_zero in E as [E|E].
  - rewrite <- Hu, E. ring.
  - rewrite <- Hu. destruct (F_mul_zero (v * v * v) v E) as [E'|E']; [|rewrite E'; ring].
    destruct (F_mul_zero (v * v) v E') as [E2|E2]; [|rewrite E2; ring]. destruct (F_mul_zero v v E2) as [E3|E3]; rewrite E3; ring.
Qed.

(** [d y^2 + 1] is never zero: else [d] would be a square. *)
Lemma den_nonzero (y : F) : curve_d * (y * y) + 1 <> 0.
Proof.
  intros H. destruct (F_eq_dec y 0) as [->|Hy].
  - apply one_nonzero. rewrite <- H. ring.
  - apply (curve_d_nonsquare (curve_i / y)). transitivity ((curve_i * curve_i) / (y * y)); [by field|]. rewrite curve_i_square.
    assert (curve_d * (y * y) = - (1)) as E by (transitivity (curve_d * (y * y) + 1 - 1); [ring|rewrite H; ring]).
    rewrite <- E. by field.
Qed.

(** The equation of the curve, solved for [x]. *)
Lemma on_curve_root (x y : F) : on_curve x y <-> x * x * (curve_d * (y * y) + 1) = y * y - 1.
Proof.
  unfold on_curve. split; intros H.
  - transitivity (1 + curve_d * (x * x) * (y * y) - 1 + x * x); [ring|]. rewrite <- H. ring.
  - transitivity ((y * y - 1) + 1 - x * x); [ring|]. rewrite <- H. ring.
Qed.

(** ** Unpacking *)

Lemma zero_check (x : F) a : fe_is tight x a -> ed25519_verify (curve25519_contract a) zero_bytes 32 = if Zmod.eqb x 0 then 1%Z else 0%Z.
Proof.
  intros Ha. rewrite (fe_contract _ _ tight Ha _). change zero_bytes with (le_bytes 32 0).
  rewrite ed25519_verify_spec by apply le_bytes_length. destruct (Zmod.eqb x 0) eqn:E.
  - apply F_eqb_eq in E as ->. by rewrite decide_True.
  - rewrite decide_False; [done|]. intros H. apply (f_equal of_le_bytes) in H. rewrite !of_le_le_bytes in H.
    pose proof (F_range x) as Hr. assert (p25519 < 2 ^ 256)%Z by reflexivity. change (8 * Z.of_nat 32)%Z with 256%Z in H.
    rewrite !wrap_small in H by (unfold in_width; lia). apply Zmod.unsigned_0_iff in H. apply F_eqb_eq in H. congruence.
Qed.

Lemma sqrt_candidate_is u v nu de : fe_is tight u nu -> fe_is loose v de ->
  fe_is tight (pow (v * v * v * (v * v * v) * v * u) (2 ^ 252 - 3) * (v * v * v) * u) (sqrt_candidate nu de).
Proof.
  intros Hu Hv. unfold sqrt_candidate.
  pose proof (fe_square _ _ _ Hv _) as H1. pose proof (fe_mul _ _ _ _ _ _ H1 Hv _ _) as H2.
  pose proof (fe_square _ _ _ H2 _) as H3. pose proof (fe_mul _ _ _ _ _ _ H3 Hv _ _) as H4.
  pose proof (fe_mul _ _ _ _ _ _ H4 Hu _ _) as H5. pose proof (fe_pow_two252m3 _ _ H5) as H6.
  pose proof (fe_mul _ _ _ _ _ _ H6 H2 _ _) as H7. exact (fe_mul _ _ _ _ _ _ H7 Hu _ _).
Qed.

(** The check finds a root if the candidate squared is [u / v] up to the sign, and fails otherwise. *)
Lemma sqrt_check_spec u v x nu de rx : fe_is tight u nu -> fe_is loose v de -> fe_is tight x rx ->
  match sqrt_check nu de rx with
  | Some r => exists x', fe_is tight x' r /\ x' * x' * v = u
  | None => x * x * v <> u /\ x * x * v <> - u
  end.
Proof.
  intros Hu Hv Hx. unfold sqrt_check.
  pose proof (fe_square _ _ _ Hx _) as H1. pose proof (fe_mul _ _ _ _ _ _ H1 Hv _ _) as H2.
  pose proof (fe_sub_reduce _ _ _ _ _ _ H2 Hu _ _) as H3. pose proof (fe_add_reduce _ _ _ _ _ _ H2 Hu _ _) as H4.
  rewrite (zero_check _ _ H3), (zero_check _ _ H4).
  destruct (Zmod.eqb (x * x * v - u) 0) eqn:E1; cbn [Z.eqb].
  - exists x. split; [done|]. apply F_eqb_eq in E1. transitivity (x * x * v - u + u); [ring|]. rewrite E1. ring.
  - destruct (Zmod.eqb (x * x * v + u) 0) eqn:E2; cbn [Z.eqb].
    + exists (x * curve_i). split; [apply (fe_mul _ _ _ _ _ _ Hx sqrtneg1_is); apply _|]. apply F_eqb_eq in E2.
      transitivity (x * x * v * (curve_i * curve_i)); [ring|]. rewrite curve_i_square.
      transitivity (u - (x * x * v + u)); [ring|]. rewrite E2. ring.
    + split; intros E; [apply not_true_iff_false in E1; apply E1|apply not_true_iff_false in E2; apply E2]; apply F_eqb_eq; rewrite E; ring.
Qed.

(** The number that bytes encode: [y] in the low 255 bits, the parity of [x] above. *)
Definition y_of (p : list byte) : F := Zmod.of_Z p25519 (of_le_bytes p mod 2 ^ 255).
Definition parity_of (p : list byte) : Z := of_le_bytes p / 2 ^ 255.

Definition decodes (p : list byte) (A : point) : Prop :=
  py A = y_of p /\ (px A = 0 \/ (Zmod.unsigned (px A) mod 2)%Z = parity_of p).

Lemma parity_byte p : length p = 32%nat -> Z.shiftr (byte_at p 31) 7 = parity_of p.
Proof.
  intros Hp. unfold parity_of, byte_at. rewrite <- (take_drop 31 p) at 2. rewrite of_le_bytes_app, length_take, Hp.
  change (8 * Z.of_nat (31 `min` 32))%Z with 248%Z. destruct (drop 31 p) as [|b [|? ?]] eqn:Hd;
    apply (f_equal length) in Hd as Hl; rewrite length_drop, Hp in Hl; try done.
  replace (nth 31 p (byte_of_Z 0)) with b.
  - change (of_le_bytes [b]) with (Z_of_byte b + 256 * 0)%Z. rewrite Z.shiftr_div_pow2 by lia.
    pose proof (of_le_bytes_range (take 31 p)) as Hr. rewrite length_take, Hp in Hr. change (8 * Z.of_nat (31 `min` 32))%Z with 248%Z in Hr.
    unfold in_width in Hr. pose proof (Z_of_byte_range b). Z.to_euclidean_division_equations. lia.
  - rewrite <- (take_drop 31 p), app_nth2; rewrite length_take, Hp; [|lia]. by rewrite Hd.
Qed.

(** The negative of a nonzero element has the other parity. *)
Lemma parity_opp (x : F) : x <> 0 -> (Zmod.unsigned (- x) mod 2 = 1 - Zmod.unsigned x mod 2)%Z.
Proof.
  intros Hx. pose proof (F_range x) as Hr. assert (Zmod.unsigned x <> 0%Z) as Hne by (intros E; apply Hx; by apply Zmod.unsigned_0_iff).
  rewrite Zmod.unsigned_opp. replace ((- Zmod.unsigned x) mod p25519)%Z with (p25519 - Zmod.unsigned x)%Z
    by (apply (Z.mod_unique_pos _ _ (-1)); lia).
  revert Hr Hne. generalize (Zmod.unsigned x). intros a Hr Hne. unfold p25519 in *. Z.to_euclidean_division_equations. lia.
Qed.

(** The coordinates of the unpacked point, from the root. *)
Lemma unpack_point p x y : length p = 32%nat -> on_curve x y -> y = y_of p ->
  let xf := if (Zmod.unsigned x mod 2 =? parity_of p)%Z then - x else x in
  exists A, decodes p A /\ px (gneg A) = xf /\ py (gneg A) = y.
Proof.
  intros Hp Ho Hy xf. assert (on_curve (- xf) y) as Ho'.
  { unfold on_curve in *. subst xf. destruct (_ =? _)%Z; transitivity (y * y - x * x); try ring; rewrite Ho; ring. }
  exists (mk_point (- xf) y Ho'). rewrite px_neg, py_neg, px_mk, py_mk. split_and!; [|ring|done].
  split; [done|]. rewrite px_mk. subst xf. destruct (Z.eqb_spec (Zmod.unsigned x mod 2) (parity_of p)) as [E|E].
  - right. by replace (- - x) with x by ring.
  - destruct (F_eq_dec x 0) as [->|Hx]; [left; ring|right]. rewrite (parity_opp x Hx).
    assert (0 <= parity_of p < 2)%Z as Hpar.
    { unfold parity_of. pose proof (of_le_bytes_range p) as Hr. rewrite Hp in Hr. change (8 * Z.of_nat 32)%Z with 256%Z in Hr.
      unfold in_width in Hr. split; [apply Z.div_pos; lia|apply Z.div_lt_upper_bound; lia]. }
    pose proof (Z.mod_pos_bound (Zmod.unsigned x) 2). lia.
Qed.

(** Unpacking finds the negative of the point that the bytes decode to, and fails exactly
    if there is no point with that [y]. *)
Theorem unpack_negative_spec p : length p = 32%nat ->
  match ge25519_unpack_negative_vartime p with
  | Some r => exists A, decodes p A /\ rep (gneg A) r
  | None => forall A : point, py A <> y_of p
  end.
Proof.
  intros Hp. unfold ge25519_unpack_negative_vartime. rewrite parity_byte by done.
  pose proof (fe_expand p Hp) as Hy. fold (y_of p) in Hy. set (y := y_of p) in *.
  assert (fe_is tight 1 (curve25519_copy fe_one)) as H1.
  { apply fe_copy. split; [repeat split; by vm_compute|F_compute]. }
  pose proof (fe_square _ _ _ Hy _) as Hyy. pose proof (fe_mul _ _ _ _ _ _ Hyy ecd_is _ _) as Hdyy.
  pose proof (fe_sub_reduce _ _ _ _ _ _ Hyy H1 _ _) as Hnum. pose proof (fe_add _ _ _ _ _ _ Hdyy H1 _) as Hden.
  set (num := curve25519_sub_reduce _ _) in *. set (den := curve25519_add _ _) in *.
  assert (fe_is loose (curve_d * (y * y) + 1) den) as Hden'.
  { eapply fe_is_eq; [exact Hden|ring|apply _]. }
  pose proof (sqrt_candidate_is _ _ _ _ Hnum Hden') as Hc. set (x := pow _ _ * _ * _) in Hc.
  pose proof (candidate_square (y * y - 1) (curve_d * (y * y) + 1) x eq_refl) as Hsq.
  pose proof (sqrt_check_spec _ _ _ _ _ _ Hnum Hden' Hc) as Hs.
  destruct (sqrt_check num den (sqrt_candidate num den)) as [rx|].
  - destruct Hs as (x' & Hx' & Hroot). rewrite (fe_contract _ _ tight Hx' _), le_bytes_parity.
    destruct (unpack_point p x' y Hp (proj2 (on_curve_root x' y) Hroot) eq_refl) as (A & HA & Hpx & Hpy).
    exists A. split; [done|]. set (xf := if (_ =? _)%Z then - x' else x') in Hpx.
    assert (fe_is tight xf (if (Zmod.unsigned x' mod 2 =? parity_of p)%Z then curve25519_neg (curve25519_copy rx) else rx)) as Hxf.
    { unfold xf. destruct (_ =? _)%Z; [|done]. apply (fe_neg _ _ tight); [by apply fe_copy|apply _]. }
    pose proof (fe_mul _ _ _ _ _ _ Hxf Hy _ _) as Ht. exists 1. split; [apply one_nonzero|]. rewrite Hpx, Hpy.
    cbn [gx gy gz gt]. split_and!; eapply fe_is_eq; try eassumption; try ring; apply _.
  - intros A HA. destruct Hs as [Hs1 Hs2]. pose proof (proj1 (on_curve_root _ _) (point_on A)) as Hroot. rewrite HA in Hroot.
    destruct (F_eq_dec (y * y - 1) 0) as [E|E].
    + apply Hs1. rewrite Hsq, E. ring.
    + destruct (candidate_sign _ _ _ Hroot E) as [Hw|Hw]; rewrite Hw in Hsq; [apply Hs1|apply Hs2]; rewrite Hsq; ring.
Qed.

(** Encodings are decoded to the point, and only to it. *)
Lemma decodes_encode P : decodes (encode P) P.
Proof.
  unfold decodes, y_of, parity_of, encode. rewrite of_le_le_bytes. change (8 * Z.of_nat 32)%Z with 256%Z.
  pose proof (F_range (py P)) as Hy. pose proof (Z.mod_pos_bound (Zmod.unsigned (px P)) 2 ltac:(lia)) as Hx.
  assert (p25519 < 2 ^ 255)%Z as Hp by reflexivity. set (y := Zmod.unsigned (py P)) in *. set (b := (Zmod.unsigned (px P) mod 2)%Z) in *.
  rewrite wrap_small by (unfold in_width; lia). split; [|right].
  - rewrite <- (Z.mod_unique_pos (y + 2 ^ 255 * b) (2 ^ 255) b y) by lia. symmetry. apply Zmod.of_Z_unsigned.
  - apply (Z.div_unique_pos _ _ _ y); lia.
Qed.

Lemma decodes_unique p P Q : decodes p P -> decodes p Q -> P = Q.
Proof.
  intros [HyP HxP] [HyQ HxQ]. apply point_eq; [|congruence].
  pose proof (proj1 (on_curve_root _ _) (point_on P)) as RP. pose proof (proj1 (on_curve_root _ _) (point_on Q)) as RQ.
  rewrite HyP in RP. rewrite HyQ, <- RP in RQ. pose proof (den_nonzero (y_of p)) as Hd.
  assert (px Q * px Q = px P * px P) as E.
  { apply (F_mul_cancel (curve_d * (y_of p * y_of p) + 1) _ _ Hd). rewrite !(Zmod.mul_comm (_ + _)). exact RQ. }
  assert ((px Q - px P) * (px Q + px P) = 0) as E' by (transitivity (px Q * px Q - px P * px P); [ring|rewrite E; ring]).
  apply F_mul_zero in E' as [E'|E'].
  - transitivity (px Q - (px Q - px P)); [ring|]. rewrite E'. ring.
  - assert (px Q = - px P) as EQ by (transitivity (px Q + px P - px P); [ring|rewrite E'; ring]). rewrite EQ in *.
    destruct (F_eq_dec (px P) 0) as [->|Hne]; [ring|]. exfalso. destruct HxP as [?|HxP]; [done|].
    destruct HxQ as [HxQ|HxQ]; [apply Hne; transitivity (- - px P); [ring|rewrite HxQ; ring]|].
    rewrite (parity_opp _ Hne), HxP in HxQ. pose proof (Z.mod_pos_bound (Zmod.unsigned (px P)) 2). lia.
Qed.

Theorem encode_inj P Q : encode P = encode Q -> P = Q.
Proof. intros H. apply (decodes_unique (encode P)); [apply decodes_encode|rewrite H; apply decodes_encode]. Qed.

(** [ge25519_unpack_negative_vartime] decides whether 32 bytes decode to a point: it
    gives the negated point, or rejects bytes that no point decodes to; what [ge25519_pack]
    writes for a point is read back. *)
Theorem unpack_decides p : length p = 32%nat ->
  match ge25519_unpack_negative_vartime p with
  | Some r => exists A, decodes p A /\ ge25519_pack r = encode (gneg A) /\ forall P, p = encode P -> A = P
  | None => forall A, ~ decodes p A
  end.
Proof.
  intros Hp. pose proof (unpack_negative_spec p Hp) as H. destruct (ge25519_unpack_negative_vartime p) as [r|].
  - destruct H as (A & HA & Hr). exists A. split; [done|]. split; [by apply ge25519_pack_spec, rep_to_partial|].
    intros P ->. apply (decodes_unique (encode P)); [done|apply decodes_encode].
  - intros A [HA _]. by apply (H A).
Qed.
