(* ===== verification/GeTables.v ===== *)
(** * GeTables: the precomputed multiples of the base point

    The tables of ed25519-donna-basepoint-table.h (sums [ysubx], [xaddy] and [t2d] of 32
    bytes each, for the multiples [(i + 1) 256^pos B], row [8 pos + i]; in the first eight
    rows the third number is [2 x y] instead of [2 d x y]) and of ed25519-donna-64bit-tables.h
    (the odd multiples of the base point, as limbs). *)

From Stdlib Require Import ZArith List Strings.Byte.
From S2P Require Import Field25519 Ge25519.
Import ListNotations.
#[local] Open Scope Z_scope.

Definition ge25519_niels_base_multiples : list (list byte) := [
  [x3e; x91; x40; xd7; x05; x39; x10; x9d; xb3; xbe; x40; xd1; x05; x9f; x39; xfd; x09; x8a; x8f; x68; x34; x84; xc1; xa5; x67; x12; xf8; x98; x92; x2f; xfd; x44; x85; x3b; x8c; xf5; xc6; x93; xbc; x2f; x19; x0e; x8c; xfb; xc6; x2d; x93; xcf; xc2; x42; x3d; x64; x98; x48; x0b; x27; x65; xba; xd4; x33; x3a; x9d; xcf; x07; x59; xbb; x6f; x4b; x67; x15; xbd; xdb; xea; xa5; xa2; xee; x00; x3f; xe1; x41; xfa; xc6; x57; xc9; x1c; x9d; xd4; xcd; xca; xec; x16; xaf; x1f; xbe; x0e; x4f];
  [xa8; xd5; xb4; x42; x60; xa5; x99; x8a; xf6; xac; x60; x4e; x0c; x81; x2b; x8f; xaa; x37; x6e; xb1; x6b; x23; x9e; xe0; x55; x25; xc9; x69; xa6; x95; xb5; x6b; xd7; x71; x3c; x93; xfc; xe7; x24; x92; xb5; xf5; x0f; x7a; x96; x9d; x46; x9f; x02; x07; xd6; xe1; x65; x9a; xa6; x5a; x2e; x2e; x7d; xa8; x3f; x06; x0c; x59; x02; x68; xd3; xda; xaa; x7e; x34; x6e; x05; x48; xee; x83; x93; x59; xf3; xba; x26; x68; x07; xe6; x10; xbe; xca; x3b; xb8; xd1; x5e; x16; x0a; x4f; x31; x49];
  [x65; xd2; xfc; xa4; xe8; x1f; x61; x56; x7d; xba; xc1; xe5; xfd; x53; xd3; x3b; xbd; xd6; x4b; x21; x1a; xf3; x31; x81; x62; xda; x5b; x55; x87; x15; xb9; x2a; x30; x97; xee; x4c; xa8; xb0; x25; xaf; x8a; x4b; x86; xe8; x30; x84; x5a; x02; x32; x67; x01; x9f; x02; x50; x1b; xc1; xf4; xf8; x80; x9a; x1b; x4e; x16; x7a; x34; x48; x67; xf1; xf4; x11; xf2; x9b; x95; xf8; x2d; xf6; x17; x6b; x4e; xb8; x4e; x2a; x72; x5b; x07; x6f; xde; xd7; x21; x2a; xbb; x63; xb9; x04; x9a; x54];
  [xbf; x18; x68; x05; x0a; x05; xfe; x95; xa9; xfa; x60; x56; x71; x89; x7e; x32; x73; x50; xa0; x06; xcd; xe3; xe8; xc3; x9a; xa4; x45; x74; x4c; x3f; x93; x27; x9f; x09; xfc; x8e; xb9; x51; x73; x28; x38; x25; xfd; x7d; xf4; xc6; x65; x67; x65; x92; x0a; xfb; x3d; x8d; x34; xca; x27; x87; xe5; x21; x03; x91; x0e; x68; xb0; x26; x14; xe5; xec; x45; x1e; xbf; x94; x0f; xba; x6d; x3d; xc6; x2b; xe3; xc0; x52; xf8; x8c; xd5; x74; x29; xe4; x18; x4c; xe6; xb0; xb1; x79; xf0; x44];
  [xba; xd6; x47; xa4; xc3; x82; x91; x7f; xb7; x29; x27; x4b; xd1; x14; x00; xd5; x87; xa0; x64; xb8; x1c; xf1; x3c; xe3; xf3; x55; x1b; xeb; x73; x7e; x4a; x15; x33; xbb; xa5; x08; x44; xbc; x12; xa2; x02; xed; x5e; xc7; xc3; x48; x50; x8d; x44; xec; xbf; x5a; x0c; xeb; x1b; xdd; xeb; x06; xe2; x46; xf1; xcc; x45; x29; xb3; x03; xd0; xe7; x79; xa1; x32; xc8; x7e; x4d; x12; x00; x0a; x9d; x72; x5f; xf3; x8f; x6d; x0e; xa1; xd4; xc1; x62; x98; x7a; xb2; x38; x59; xac; xb8; x68];
  [xa4; x8c; x7d; x7b; xb6; x06; x98; x49; x39; x27; xd2; x27; x84; xe2; x5b; x57; xb9; x53; x45; x20; xe7; x5c; x08; xbb; x84; x78; x41; xae; x41; x4c; xb6; x38; x31; x71; x15; x77; xeb; xee; x0c; x3a; x88; xaf; xc8; x00; x89; x15; x27; x9b; x36; xa7; x59; xda; x68; xb6; x65; x80; xbd; x38; xcc; xa2; xb6; x7b; xe5; x51; xa4; xe3; x9d; x68; x91; xad; x9d; x8f; x37; x91; xfb; xf8; x28; x24; x5f; x17; x88; xb9; xcf; x9f; x32; xb5; x0a; x05; x9f; xc0; x54; x13; xa2; xdf; x65; x78];
  [xb1; x21; x32; xaa; x9a; x2c; x6f; xba; xa7; x23; xba; x3b; x53; x21; xa0; x6c; x3a; x2c; x19; x92; x4f; x76; xea; x9d; xe0; x17; x53; x2e; x5d; xdd; x6e; x1d; xbf; xa3; x4e; x94; xd0; x5c; x1a; x6b; xd2; xc0; x9d; xb3; x3a; x35; x70; x74; x49; x2e; x54; x28; x82; x52; xb2; x71; x7e; x92; x3c; x28; x69; xea; x1b; x46; x36; xda; x0f; xab; xac; x8a; x7a; x21; xc8; x49; x35; x3d; x54; xc6; x28; xa5; x68; x75; xab; x13; x8b; x5b; xd0; x37; x37; xbc; x2c; x3a; x62; xef; x3c; x23];
  [xd9; x34; x92; xf3; xed; x5d; xa7; xe2; xf9; x58; xb5; xe1; x80; x76; x3d; x96; xfb; x23; x3c; x6e; xac; x41; x27; x2c; xc3; x01; x0e; x32; xa1; x24; x90; x3a; x8f; x3e; xdd; x04; x66; x59; xb7; x59; x2c; x70; x88; xe2; x77; x03; xb3; x6c; x23; xc3; xd9; x5e; x66; x9c; x33; xb1; x2f; xe5; xbc; x61; x60; xe7; x15; x09; x7e; xa3; x34; xa8; x35; xe8; x7d; xdf; xea; x57; x98; x68; xda; x9c; xe1; x8b; x26; xb3; x67; x71; x36; x85; x11; x2c; xc2; xd5; xef; xdb; xd9; xb3; x9e; x58];
  [x5e; x51; xaa; x49; x54; x63; x5b; xed; x3a; x82; xc6; x0b; x9f; xc4; x65; xa8; xc4; xd1; x42; x5b; xe9; x1f; x0c; x85; xb9; x15; xd3; x03; x6f; x6d; xd7; x30; x1d; x9c; x2f; x63; x0e; xdd; xcc; x2e; x15; x31; x89; x76; x96; xb6; xd0; x51; x58; x7a; x63; xa8; x6b; xb7; xdf; x52; x39; xef; x0e; xa0; x49; x7d; xd3; x6d; xc7; xe4; x06; x21; x17; x44; x44; x6c; x69; x7f; x8d; x92; x80; xd6; x53; xfb; x26; x3f; x4d; x69; xa4; x9e; x73; xb4; xb0; x4b; x86; x2e; x11; x97; xc6; x10];
  [xde; x5f; xbe; x7d; x27; xc4; x93; x64; xa2; x7e; xad; x19; xad; x4f; x5d; x26; x90; x45; x30; x46; xc8; xdf; x00; x0e; x09; xfe; x66; xed; xab; x1c; xe6; x25; x05; xc8; x58; x83; xa0; x2a; xa6; x0c; x47; x42; x20; x7a; xe3; x4a; x3d; x6a; xdc; xed; x11; x3b; xa6; xd3; x64; x74; xef; x06; x08; x55; xaf; x9b; xbf; x03; x04; x66; x58; xcc; x28; xe1; x13; x3f; x7e; x74; x59; xb4; xec; x73; x58; x6f; xf5; x68; x12; xcc; xed; x3d; xb6; xa0; x2c; xe2; x86; x45; x63; x78; x6d; x56];
  [x34; x08; xc1; x9c; x9f; xa4; x37; x16; x51; xc4; x9b; xa8; xd5; x56; x8e; xbc; xdb; xd2; x7f; x7f; x0f; xec; xb5; x1c; xd9; x35; xcc; x5e; xca; x5b; x97; x33; xd0; x2f; x5a; xc6; x85; x42; x05; xa1; xc3; x67; x16; xf3; x2a; x11; x64; x6c; x58; xee; x1a; x73; x40; xe2; x0a; x68; x2a; xb2; x93; x47; xf3; xa5; xfb; x14; xd4; xf7; x85; x69; x16; x46; xd7; x3c; x57; x00; xc8; xc9; x84; x5e; x3e; x59; x1e; x13; x61; x7b; xb6; xf2; xc3; x2f; x6c; x52; xfc; x83; xea; x9c; x82; x14];
  [xc2; x95; xdd; x97; x84; x7b; x43; xff; xa7; xb5; x4e; xaa; x30; x4e; x74; x6c; x8b; xe8; x85; x3c; x61; x5d; x0c; x9e; x73; x81; x75; x5f; x1e; xc7; xd9; x2f; xb8; xec; x71; x4e; x2f; x0b; xe7; x21; xe3; x77; xa4; x40; xb9; xdd; x56; xe6; x80; x4f; x1d; xce; xce; x56; x65; xbf; x7e; x7b; x5d; x53; xc4; x3b; xfc; x05; xdd; xde; xaf; x52; xae; xb3; xb8; x24; xcf; x30; x3b; xed; x8c; x63; x95; x34; x95; x81; xbe; xa9; x83; xbc; xa4; x33; x04; x1f; x65; x5c; x47; x67; x37; x37];
  [xd9; xad; xd1; x40; xfd; x99; xba; x2f; x27; xd0; xf4; x96; x6f; x16; x07; xb3; xae; x3b; xf0; x15; x52; xf0; x63; x43; x99; xf9; x18; x3b; x6c; xa5; xbe; x1f; x90; x65; x24; x14; xcb; x95; x40; x63; x35; x55; xc1; x16; x40; x14; x12; xef; x60; xbc; x10; x89; x0c; x14; x38; x9e; x8c; x7c; x90; x30; x57; x90; xf5; x6b; x8a; x5b; x41; xe1; xf1; x78; xa7; x0f; x7e; xa7; xc3; xba; xf7; x9f; x40; x06; x50; x9a; xa2; x9a; xb8; xd7; x52; x6f; x56; x5a; x63; x7a; xf6; x1c; x52; x02];
  [x94; x52; x9d; x0a; x0b; xee; x3f; x51; x66; x5a; xdf; x0f; x5c; xe7; x98; x8f; xce; x07; xe1; xbf; x88; x86; x61; xd4; xed; x2c; x38; x71; x7e; x0a; xa0; x3f; xe4; x5e; x2f; x77; x20; x67; x14; xb1; xce; x9a; x07; x96; xb1; x94; xf8; xe8; x4a; x82; xac; x00; x4d; x22; xf8; x4a; xc4; x6c; xcd; xf7; xd9; x53; x17; x00; x34; xdb; x3d; x96; x2d; x23; x69; x3c; x58; x38; x97; xb4; xda; x87; xde; x1d; x85; xf2; x91; xa0; xf9; xd1; xd7; xaa; xb6; xed; x48; xa0; x2f; xfe; xb5; x12];
  [x4d; xe3; xfc; x96; xc4; xfb; xf0; x71; xed; x5b; xf3; xad; x6b; x82; xb9; x73; x61; xc5; x28; xff; x61; x72; x04; xd2; x6f; x20; xb1; x6f; xf9; x76; x9b; x74; x92; x1e; x6f; xad; x26; x7c; x2b; xdf; x13; x89; x4b; x50; x23; xd3; x66; x4b; xc3; x8b; x1c; x75; xc0; x9d; x40; x8c; xb8; xc7; x96; x07; xc2; x93; x7e; x6f; x05; xae; xa6; xae; x04; xf6; x5a; x1f; x99; x9c; xe4; xbe; xf1; x51; x23; xc1; x66; x6b; xff; xee; xb5; x08; xa8; x61; x51; x21; xe0; x01; x0f; xc1; xce; x0f];
  [x44; x1e; xfe; x49; xa6; x58; x4d; x64; x7e; x77; xad; x31; xa2; xae; xfc; x21; xd2; xd0; x7f; x88; x5a; x1c; x44; x02; xf3; x11; xc5; x83; x71; xaa; x01; x49; x45; x4e; x24; xc4; x9d; xd2; xf2; x3d; x0a; xde; xd8; x93; x74; x0e; x02; x2b; x4d; x21; x0c; x82; x7e; x06; xc8; x6c; x0a; xb9; xea; x6f; x16; x79; x37; x41; xf0; xf8; x1a; x8c; x54; xb7; xb1; x08; xb4; x99; x62; x24; x7c; x7a; x0f; xce; x39; xd9; x06; x1e; xf9; xb0; x60; xf7; x13; x12; x6d; x72; x7b; x88; xbb; x41];
  [xbe; x46; x43; x74; x44; x7d; xe8; x40; x25; x2b; xb5; x15; xd4; xda; x48; x1d; x3e; x60; x3b; xa1; x18; x8a; x3a; x7c; xf7; xbd; xcd; x2f; xc1; x28; xb7; x4e; xae; x91; x66; x7c; x59; x4c; x23; x7e; xc8; xb4; x85; x0a; x3d; x9d; x88; x64; xe7; xfa; x4a; x35; x0c; xc9; xe2; xda; x1d; x9e; x6a; x0c; x07; x1e; x87; x0a; x89; x89; xbc; x4b; x99; xb5; x01; x33; x60; x42; xdd; x5b; x3a; xae; x6b; x73; x3c; x9e; xd5; x19; xe2; xad; x61; x0d; x64; xd4; x85; x26; x0f; x30; xe7; x3e];
  [xb7; xd6; x7d; x9e; xe4; x55; xd2; xf5; xac; x1e; x0b; x61; x5c; x11; x16; x80; xca; x87; xe1; x92; x5d; x97; x99; x3c; xc2; x25; x91; x97; x62; x57; x81; x13; x18; x75; x1e; x84; x47; x79; xfa; x43; xd7; x46; x9c; x63; x59; xfa; xc6; xe5; x74; x2b; x05; xe3; x1d; x5e; x06; xa1; x30; x90; xb8; xcf; xa2; xc6; x47; x7d; xe0; xd6; xf0; x8e; x14; xd0; xda; x3f; x3c; x6f; x54; x91; x9a; x74; x3e; x9d; x57; x81; xbb; x26; x10; x62; xec; x71; x80; xec; xc9; x34; x8d; xf5; x8c; x14];
  [x27; xf0; x34; x79; xf6; x92; xa4; x46; xa9; x0a; x84; xf6; xbe; x84; x99; x46; x54; x18; x61; x89; x2a; xbc; xa1; x5c; xd4; xbb; x5d; xbd; x1e; xfa; xf2; x3f; x6d; x75; xe4; x9a; x7d; x2f; x57; xe2; x7f; x48; xf3; x88; xbb; x45; xc3; x56; x8d; xa8; x60; x69; x6d; x0b; xd1; x9f; xb9; xa1; xae; x4e; xad; xeb; x8f; x27; x66; x39; x93; x8c; x1f; x68; xaa; xb1; x98; x0c; x29; x20; x9c; x94; x21; x8c; x52; x3c; x9d; x21; x91; x52; x11; x39; x7b; x67; x9c; xfe; x02; xdd; x04; x41];
  [x2a; x42; x24; x11; x5e; xbf; xb2; x72; xb5; x3a; xa3; x98; x33; x0c; xfa; xa1; x66; xb6; x52; xfa; x01; x61; xcb; x94; xd5; x53; xaf; xaf; x00; x3b; x86; x2c; xb8; x6a; x09; xdb; x06; x4e; x21; x81; x35; x4f; xe4; x0c; xc9; xb6; xa8; x21; xf5; x2a; x9e; x40; x2a; xc1; x24; x65; x81; xa4; xfc; x8e; xa4; xb5; x65; x01; x76; x6a; x84; xa0; x74; xa4; x90; xf1; xc0; x7c; x2f; xcd; x84; xf9; xef; x12; x8f; x2b; xaa; x58; x06; x29; x5e; x69; xb8; xc8; xfe; xbf; xd9; x67; x1b; x59];
  [xfa; x9b; xb4; x80; x1c; x0d; x2f; x31; x8a; xec; xf3; xab; x5e; x51; x79; x59; x88; x1c; xf0; x9e; xc0; x33; x70; x72; xcb; x7b; x8f; xca; xc7; x2e; xe0; x3d; x5d; xb5; x18; x9f; x71; xb3; xb9; x99; x1e; x64; x8c; xa1; xfa; xe5; x65; xe4; xed; x05; x9f; xc2; x36; x11; x08; x61; x8b; x12; x30; x70; x86; x4f; x9b; x48; xef; x92; xeb; x3a; x2d; x10; x32; xd2; x61; xa8; x16; x61; xb4; x53; x62; xe1; x24; xaa; x0b; x19; xe7; xab; x7e; x3d; xbf; xbe; x6c; x49; xba; xfb; xf5; x49];
  [xd4; xcf; x5b; x8a; x10; x9a; x94; x30; xeb; x73; x64; xbc; x70; xdd; x40; xdc; x1c; x0d; x7c; x30; xc1; x94; xc2; x92; x74; x6e; xfa; xcb; x6d; xa8; x04; x56; x2e; x57; x9c; x1e; x8c; x62; x5d; x15; x41; x47; x88; xc5; xac; x86; x4d; x8a; xeb; x63; x57; x51; xf6; x52; xa3; x91; x5b; x51; x67; x88; xc2; xa6; xa1; x06; xb6; x64; x17; x7c; xd4; xd1; x88; x72; x51; x8b; x41; xe0; x40; x11; x54; x72; xd1; xf6; xac; x18; x60; x1a; x03; x9f; xc6; x42; x27; xfe; x89; x9e; x98; x20];
  [x7f; xcc; x2d; x3a; xfd; x77; x97; x49; x92; xd8; x4f; xa5; x2c; x7c; x85; x32; xa0; xe3; x07; xd2; x64; xd8; x79; xa2; x29; x7e; xa6; x0c; x1d; xed; x03; x04; x2e; xec; xea; x85; x8b; x27; x74; x16; xdf; x2b; xcb; x7a; x07; xdc; x21; x56; x5a; xf4; xcb; x61; x16; x4c; x0a; x64; xd3; x95; x05; xf7; x50; x99; x0b; x73; x52; xc5; x4e; x87; x35; x2d; x4b; xc9; x8d; x6f; x24; x98; xcf; xc8; xe6; xc5; xce; x35; xc0; x16; xfa; x46; xcb; xf7; xcc; x3d; x30; x08; x43; x45; xd7; x5b];
  [xc2; x4c; xb2; x28; x95; xd1; x9a; x7f; x81; xc1; x35; x63; x65; x54; x6b; x7f; x36; x72; xc0; x4f; x6e; xb6; xb8; x66; x83; xad; x80; x73; x00; x78; x3a; x13; x2a; x79; xe7; x15; x21; x93; xc4; x85; xc9; xdd; xcd; xbd; xa2; x89; x4c; xc6; x62; xd7; xa3; xad; xa8; x3d; x1e; x9d; x2c; xf8; x67; x30; x12; xdb; xb7; x5b; xbe; x62; xca; xc6; x67; xf4; x61; x09; xee; x52; x19; x21; xd6; x21; xec; x04; x70; x47; xd5; x9b; x77; x60; x23; x18; xd2; xe0; xf0; x58; x6d; xca; x0d; x74];
  [x4e; xce; xcf; x52; x07; xee; x48; xdf; xb7; x08; xec; x06; xf3; xfa; xff; xc3; xc4; x59; x54; xb9; x2a; x0b; x71; x05; x8d; xa3; x3e; x96; xfa; x25; x1d; x16; x3c; x43; x78; x04; x57; x8c; x1a; x23; x9d; x43; x81; xc2; x0e; x27; xb5; xb7; x9f; x07; xd9; xe3; xea; x99; xaa; xdb; xd9; x03; x2b; x6c; x25; xf5; x03; x2c; x7d; xa4; x53; x7b; x75; x18; x0f; x79; x79; x58; x0c; xcf; x30; x01; x7b; x30; xf9; xf7; x7e; x25; x77; x3d; x90; x31; xaf; xbb; x96; xbd; xbd; x68; x94; x69];
  [xcf; xfe; xda; xf4; x46; x2f; x1f; xbd; xf7; xd6; x7f; xa4; x14; x01; xef; x7c; x7f; xb3; x47; x4a; xda; xfd; x1f; xd3; x85; x57; x90; x73; xa4; x19; x52; x52; x48; x19; xa9; x6a; xe6; x3d; xdd; xd8; xcc; xd2; xc0; x2f; xc2; x64; x50; x48; x2f; xea; xfd; x34; x66; x24; x48; x9b; x3a; x2e; x4a; x6c; x4e; x1c; x3e; x29; xe1; x12; x51; x92; x4b; x13; x6e; x37; xa0; x5d; xa1; xdc; xb5; x78; x37; x70; x11; x31; x1c; x46; xaf; x89; x45; xb0; x23; x28; x03; x7f; x44; x5c; x60; x5b];
  [x89; x7c; xc4; x20; x59; x80; x65; xb9; xcc; x8f; x3b; x92; x0c; x10; xf0; xe7; x77; xef; xe2; x02; x65; x25; x01; x00; xee; xb3; xae; xa8; xce; x6d; xa7; x24; x4c; xf0; xe7; xf0; xc6; xfe; xe9; x3b; x62; x49; xe3; x75; x9e; x57; x6a; x86; x1a; xe6; x1d; x1e; x16; xef; x42; x55; xd5; xbd; x5a; xcc; xf4; xfe; x12; x2f; x40; xc7; xc0; xdf; xb2; x22; x45; x0a; x07; xa4; xc9; x40; x7f; x6e; xd0; x10; x68; xf6; xcf; x78; x41; x14; xcf; xc6; x90; x37; xa4; x18; x25; x7b; x60; x5e];
  [x18; x18; xdf; x6c; x8f; x1d; xb3; x58; xa2; x58; x62; xc3; x4f; xa7; xcf; x35; x6e; x1d; xe6; x66; x4f; xff; xb3; xe1; xf7; xd5; xcd; x6c; xab; xac; x67; x50; x14; xcf; x96; xa5; x1c; x43; x2c; xa0; x00; xe4; xd3; xae; x40; x2d; xc4; xe3; xdb; x26; x0f; x2e; x80; x26; x45; xd2; x68; x70; x45; x9e; x13; x33; x1f; x20; x51; x9d; x03; x08; x6b; x7f; x52; xfd; x06; x00; x7c; x01; x64; x49; xb1; x18; xa8; xa4; x25; x2e; xb0; x0e; x22; xd5; x75; x03; x46; x62; x88; xba; x7c; x39];
  [xb2; x59; x59; xf0; x93; x30; xc1; x30; x76; x79; xa9; xe9; x8d; xa1; x3a; xe2; x26; x5e; x1d; x72; x91; xd4; x2f; x22; x3a; x6c; x6e; x76; x20; xd3; x39; x23; xe7; x79; x13; xc8; xfb; xc3; x15; x78; xf1; x2a; xe1; xdd; x20; x94; x61; xa6; xd5; xfd; xa8; x85; xf8; xc0; xa9; xff; x52; xc2; xe1; xc1; x22; x40; x1b; x77; xa7; x2f; x3a; x51; x86; xd9; x7d; xd8; x08; xcf; xd4; xf9; x71; x9b; xac; xf5; xb3; x83; xa2; x1e; x1b; xc3; x6b; xd0; x76; x1a; x97; x19; x92; x18; x1a; x33];
  [xc6; x80; x4f; xfb; x45; x6f; x16; xf5; xcf; x75; xc7; x61; xde; xc7; x36; x9c; x1c; xd9; x41; x90; x1b; xe8; xd4; xe3; x21; xfe; xbd; x83; x6b; x7c; x16; x31; xaf; x72; x75; x9d; x3a; x2f; x51; x26; x9e; x4a; x07; x68; x88; xe2; xcb; x5b; xc4; xf7; x80; x11; xc1; xc1; xed; x84; x7b; xa6; x49; xf6; x9f; x61; xc9; x1a; x68; x10; x4b; x52; x42; x38; x2b; xf2; x87; xe9; x9c; xee; x3b; x34; x68; x50; xc8; x50; x62; x4a; x84; x71; x9d; xfc; x11; xb1; x08; x1f; x34; x36; x24; x61];
  [x8d; x89; x4e; x87; xdb; x41; x9d; xd9; x20; xdc; x07; x6c; xf1; xa5; xfe; x09; xbc; x9b; x0f; xd0; x67; x2c; x3d; x79; x40; xff; x5e; x9e; x30; xe2; xeb; x46; x38; x26; x2d; x1a; xe3; x49; x63; x8b; x35; xfd; xd3; x9b; x00; xb7; xdf; x9d; xa4; x6b; xa0; xa3; xb8; xf1; x8b; x7f; x45; x04; xd9; x78; x31; xaa; x22; x15; x38; x49; x61; x69; x53; x2f; x38; x2c; x10; x6d; x2d; xb7; x9a; x40; xfe; xda; x27; xf2; x46; xb6; x91; x33; xc8; xe8; x6c; x30; x24; x05; xf5; x70; xfe; x45];
  [x8c; x0b; x0c; x96; xa6; x75; x48; xda; x20; x2f; x0e; xef; x76; xd0; x68; x5b; xd4; x8f; x0b; x3d; xcf; x51; xfb; x07; xd4; x92; xe3; xa0; x23; x16; x8d; x42; x91; x14; x95; xc8; x20; x49; xf2; x62; xa2; x0c; x63; x3f; xc8; x07; xf0; x05; xb8; xd4; xc9; xf5; xd2; x45; xbb; x6f; x45; x22; x7a; xb5; x6d; x9f; x61; x16; xfd; x08; xa3; x01; x44; x4a; x4f; x08; xac; xca; xa5; x76; xc3; x19; x22; xa8; x7d; xbc; xd1; x43; x46; xde; xb8; xde; xc6; x38; xbd; x60; x2d; x59; x81; x1d];
  [x5f; xac; x0d; xa6; x56; x87; x36; x61; x57; xdc; xab; xeb; x6a; x2f; xe0; x17; x7d; x0f; xce; x4c; x2d; x3f; x19; x7f; xf0; xdc; xec; x89; x77; x4a; x23; x20; xe8; xc5; x85; x7b; x9f; xb6; x65; x87; xb2; xba; x68; xd1; x8b; x67; xf0; x6f; x9b; x0f; x33; x1d; x7c; xe7; x70; x3a; x7c; x8e; xaf; xb0; x51; x6d; x5f; x3a; x52; xb2; x78; x71; xb6; x0d; xd2; x76; x60; xd1; x1e; xd5; xf9; x34; x1c; x07; x70; x11; xe4; xb3; x20; x4a; x2a; xf6; x66; xe3; xff; x3c; x35; x82; xd6; x7c];
  [xb6; xfa; x87; xd8; x5b; xa4; xe1; x0b; x6e; x3b; x40; xba; x32; x6a; x84; x2a; x00; x60; x6e; xe9; x12; x10; x92; xd9; x43; x09; xdc; x3b; x86; xc8; x38; x28; xf3; xf4; xac; x68; x60; xcd; x65; xa6; xd3; xe3; xd7; x3c; x18; x2d; xd9; x42; xd9; x25; x60; x33; x9d; x38; x59; x57; xff; xd8; x2c; x2b; x3b; x25; xf0; x3e; x30; x50; x46; x4a; xcf; xb0; x6b; xd1; xab; x77; xc5; x15; x41; x6b; x49; xfa; x9d; x41; xab; xf4; x8a; xae; xcf; x82; x12; x28; xa8; x06; xa6; xb8; xdc; x21];
  [xc8; x9f; x9d; x8c; x46; x04; x60; x5c; xcb; xa3; x2a; xd4; x6e; x09; x40; x25; x9c; x2f; xee; x12; x4c; x4d; x5b; x12; xab; x1d; xa3; x94; x81; xd0; xc3; x0b; xba; x31; x77; xbe; xfa; x00; x8d; x9a; x89; x18; x9e; x62; x7e; x60; x03; x82; x7f; xd9; xf3; x43; x37; x02; xcc; xb2; x8b; x67; x6f; x6c; xbf; x0d; x84; x5d; x8b; xe1; x9f; x30; x0d; x38; x6e; x70; xc7; x65; xe1; xb9; xa6; x2d; xb0; x6e; xab; x20; xae; x7d; x99; xba; xbb; x57; xdd; x96; xc1; x2a; x23; x76; x42; x3a];
  [xfa; x84; x70; x8a; x2c; x43; x42; x4b; x45; xe5; xb9; xdf; xe3; x19; x8a; x89; x5d; xe4; x58; x9c; x21; x00; x9f; xbe; xd1; xeb; x6d; xa1; xce; x77; xf1; x1f; xcb; x7e; x44; xdb; x72; xc1; xf8; x3b; xbd; x2d; x28; xc6; x1f; xc4; xcf; x5f; xfe; x15; xaa; x75; xc0; xff; xac; x80; xf9; xa9; xe1; x24; xe8; xc9; x70; x07; xfd; xb5; xb5; x45; x9a; xd9; x61; xcf; x24; x79; x3a; x1b; xe9; x84; x09; x86; x89; x3e; x3e; x30; x19; x09; x30; xe7; x1e; x0b; x50; x41; xfd; x64; xf2; x39];
  [x9c; xe2; xe7; xdb; x17; x34; xad; xa7; x9c; x13; x9c; x2b; x6a; x37; x94; xbd; xa9; x7b; x59; x93; x8e; x1b; xe9; xa0; x40; x98; x88; x68; x34; xd7; x12; x17; xe1; x7b; x09; xfe; xab; x4a; x9b; xd1; x29; x19; xe0; xdf; xe1; xfc; x6d; xa4; xff; xf1; xa6; x2c; x94; x08; xc9; xc3; x4e; xf1; x35; x2c; x27; x21; xc6; x65; xdd; x93; x31; xce; xf8; x89; x2b; xe7; xbb; xc0; x25; xa1; x56; x33; x10; x4d; x83; xfe; x1c; x2e; x3d; xa9; x19; x04; x72; xe2; x9c; xb1; x0a; x80; xf9; x22];
  [xcb; xf8; x9e; x3e; x8a; x36; x5a; x60; x15; x47; x50; xa5; x22; xc0; xe9; xe3; x8f; x24; x24; x5f; xb0; x48; x3d; x55; xe5; x26; x76; x64; xcd; x16; xf4; x13; xac; xfd; x6e; x9a; xdd; x9f; x02; x42; x41; x49; xa5; x34; xbe; xce; x12; xb9; x7b; xf3; xbd; x87; xb9; x64; x0f; x64; xb4; xca; x98; x85; xd3; xa4; x71; x41; x8c; x4c; xc9; x99; xaa; x58; x27; xfa; x07; xb8; x00; xb0; x6f; x6f; x00; x23; x92; x53; xda; xad; xdd; x91; xd2; xfb; xab; xd1; x4b; x57; xfa; x14; x82; x50];
  [x4b; xfe; xd6; x3e; x15; x69; x02; xc2; xc4; x77; x1d; x51; x39; x67; x5a; xa6; x94; xaf; x14; x2c; x46; x26; xde; xcb; x4b; xa7; xab; x6f; xec; x60; xf9; x22; xd6; x03; xd0; x53; xbb; x15; x1a; x46; x65; xc9; xf3; xbc; x88; x28; x10; xb2; x5a; x3a; x68; x6c; x75; x76; xc5; x27; x47; xb4; x6c; xc8; xa4; x58; x77; x3a; x76; x50; xae; x93; xf6; x11; x81; x54; xa6; x54; xfd; x1d; xdf; x21; xae; x1d; x65; x5e; x11; xf3; x90; x8c; x24; x12; x94; xf4; xe7; x8d; x5f; xd1; x9f; x5d];
  [x7f; x72; x63; x6d; xd3; x08; x14; x03; x33; xb5; xc7; xd7; xef; x9a; x37; x6a; x4b; xe2; xae; xcc; xc5; x8f; xe1; xa9; xd3; xbe; x8f; x4f; x91; x35; x2f; x33; x1e; x52; xd7; xee; x2a; x4d; x24; x3f; x15; x96; x2e; x43; x28; x90; x3a; x8e; xd4; x16; x9c; x2e; x77; xba; x64; xe1; xd8; x98; xeb; x47; xfa; x87; xc1; x3b; x0c; xc2; x86; xea; x15; x01; x47; x6d; x25; xd1; x46; x6c; xcb; xb7; x8a; x99; x88; x01; x66; x3a; xb5; x32; x78; xd7; x03; xba; x6f; x90; xce; x81; x0d; x45];
  [x75; x52; x20; xa6; xa1; xb6; x7b; x6e; x83; x8e; x3c; x41; xd7; x21; x4f; xaa; xb2; x5c; x8f; xe8; x55; xd1; x56; x6f; xe1; x5b; x34; xa6; x4b; x5d; xe2; x2d; x3f; x74; xae; x1c; x96; xd8; x74; xd0; xed; x63; x1c; xee; xf5; x18; x6d; xf8; x29; xed; xf4; xe7; x5b; xc5; xbd; x97; x08; xb1; x3a; x66; x79; xd2; xba; x4c; xcd; x1f; xd7; xa0; x24; x90; xd1; x80; xf8; x8a; x28; xfb; x0a; xc2; x25; xc5; x19; x64; x3a; x5f; x4b; x97; xa3; xb1; x33; x72; x00; xe2; xef; xbc; x7f; x7d];
  [x01; x28; x6b; x26; x6a; x1e; xef; xfa; x16; x9f; x73; xd5; xc4; x68; x6c; x86; x2c; x76; x03; x1b; xbc; x2f; x8a; xf6; x8d; x5a; xb7; x87; x5e; x43; x75; x59; x94; x90; xc2; xf3; xc5; x5d; x7c; xcd; xab; x05; x91; x2a; x9a; xa2; x81; xc7; x58; x30; x1c; x42; x36; x1d; xc6; x80; xd7; xd4; xd8; xdc; x96; xd1; x9c; x4f; x68; x37; x7b; x6a; xd8; x97; x92; x19; x63; x7a; xd1; x1a; x24; x58; xd0; xd0; x17; x0c; x1c; x5c; xad; x9c; x02; xba; x07; x03; x7a; x38; x84; xd0; xcd; x7c];
  [x17; x04; x26; x6d; x2c; x42; xa6; xdc; xbd; x40; x82; x94; x50; x3d; x15; xae; x77; xc6; x68; xfb; xb4; xc1; xc0; xa9; x53; xcf; xd0; x61; xed; xd0; x8b; x42; x93; xcc; x60; x67; x18; x84; x0c; x9b; x99; x2a; xb3; x1a; x7a; x00; xae; xcd; x18; xda; x0b; x62; x86; xec; x8d; xa8; x44; xca; x90; x81; x84; xca; x93; x35; xa7; x9a; x84; x5e; x9a; x18; x13; x92; xcd; xfa; xd8; x65; x35; xc3; xd8; xd4; xd1; xbb; xfd; x53; x5b; x54; x52; x8c; xe6; x63; x2d; xda; x08; x83; x39; x27];
  [x13; xd4; x5e; x43; x28; x8d; xc3; x42; xc9; xcc; x78; x32; x60; xf3; x50; xbd; xef; x03; xda; x79; x1a; xab; x07; xbb; x55; x33; x8c; xbe; xae; x97; x95; x26; x53; x24; x70; x0a; x4c; x0e; xa1; xb9; xde; x1b; x7d; xd5; x66; x58; xa2; x0f; xf7; xda; x27; xcd; xb5; xd9; xb9; xff; xfd; x33; x2c; x49; x45; x29; x2c; x57; xbe; x30; xcd; xd6; x45; xc7; x7f; xc7; xfb; xae; xba; xe3; xd3; xe8; xdf; xe4; x0c; xda; x5d; xaa; x30; x88; x2c; xa2; x80; xca; x5b; xc0; x98; x54; x98; x7f];
  [x17; xe1; x0b; x9f; x88; xce; x49; x38; x88; xa2; x54; x7b; x1b; xad; x05; x80; x1c; x92; xfc; x23; x9f; xc3; xa3; x3d; x04; xf3; x31; x0a; x47; xec; xc2; x76; x63; x63; xbf; x0f; x52; x15; x56; xd3; xa6; xfb; x4d; xcf; x45; x5a; x04; x08; xc2; xa0; x3f; x87; xbc; x4f; xc2; xee; xe7; x12; x9b; xd6; x3c; x65; xf2; x30; x85; x0c; xc1; xaa; x38; xc9; x08; x8a; xcb; x6b; x27; xdb; x60; x9b; x17; x46; x70; xac; x6f; x0e; x1e; xc0; x20; xa9; xda; x73; x64; x59; xf1; x73; x12; x2f];
  [x11; x1e; xe0; x8a; x7c; xfc; x39; x47; x9f; xab; x6a; x4a; x90; x74; x52; xfd; x2e; x8f; x72; x87; x82; x8a; xd9; x41; xf2; x69; x5b; xd8; x2a; x57; x9e; x5d; xc0; x0b; xa7; x55; xd7; x8b; x48; x30; xe7; x42; xd4; xf1; xa4; xb5; xd6; x06; x62; x61; x59; xbc; x9e; xa6; xd1; xea; x84; xf7; xc5; xed; x97; x19; xac; x38; x3b; xb1; x51; xa7; x17; xb5; x66; x06; x8c; x85; x9b; x7e; x86; x06; x7d; x74; x49; xde; x4d; x45; x11; xc0; xac; xac; x9c; xe6; xe9; xbf; x9c; xcd; xdf; x22];
  [xd9; x0c; x0d; xc3; xe0; xd2; xdb; x8d; x33; x43; xbb; xac; x5f; x66; x8e; xad; x1f; x96; x2a; x32; x8c; x25; x6b; x8f; xc7; xc1; x48; x54; xc0; x16; x29; x6b; xa1; xe0; x3b; x10; xb4; x59; xec; x56; x69; xf9; x59; xd2; xec; xba; xe3; x2e; x32; xcd; xf5; x13; x94; xb2; x7c; x79; x72; xe4; xcd; x24; x78; x87; xe9; x0f; x3b; x91; xba; x0a; xd1; x34; xdb; x7e; x0e; xac; x6d; x2e; x82; xcd; xa3; x4e; x15; xf8; x78; x65; xff; x3d; x08; x66; x17; x0a; xf0; x7f; x30; x3f; x30; x4c];
  [x85; x8c; xb2; x17; xd6; x3b; x0a; xd3; xea; x3b; x77; x39; xb7; x77; xd3; xc5; xbf; x5c; x6a; x1e; x8c; xe7; xc6; xc6; xc4; xb7; x2a; x8b; xf7; xb8; x61; x0d; x00; x45; xd9; x0d; x58; x03; xfc; x29; x93; xec; xbb; x6f; xa4; x7a; xd2; xec; xf8; xa7; xe2; xc2; x5f; x15; x0a; x13; xd5; xa1; x06; xb7; x1a; x15; x6b; x41; xb0; x36; xc1; xe9; xef; xd7; xa8; x56; x20; x4b; xe4; x58; xcd; xe5; x07; xbd; xab; xe0; x57; x1b; xda; x2f; xe6; xaf; xd2; xe8; x77; x42; xf7; x2a; x1a; x19];
  [x31; x14; x3c; xc5; x4b; xf7; x16; xce; xde; xed; x72; x20; xce; x25; x97; x2b; xe7; x3e; xb2; xb5; x6f; xc3; xb9; xb8; x08; xc9; x5c; x0b; x45; x0e; x2e; x7e; xfb; x0e; x46; x4f; x43; x2b; xe6; x9f; xd6; x07; x36; xa6; xd4; x03; xd3; xde; x24; xda; xa0; xb7; x0e; x21; x52; xf0; x93; x5b; x54; x00; xbe; x7d; x7e; x23; x30; xb4; x01; x67; xed; x75; x35; x01; x10; xfd; x0b; x9f; xe6; x94; x10; x23; x22; x7f; xe4; x83; x15; x0f; x32; x75; xe3; x55; x11; xb1; x99; xa6; xaf; x71];
  [x1d; xb6; x53; x39; x9b; x6f; xce; x65; xe6; x41; xa1; xaf; xea; x39; x58; xc6; xfe; x59; xf7; xa9; xfd; x5f; x43; x0f; x8e; xc2; xb1; xc2; xe9; x42; x11; x02; xd6; x50; x3b; x47; x1c; x3c; x42; xea; x10; xef; x38; x3b; x1f; x7a; xe8; x51; x95; xbe; xc9; xb2; x5f; xbf; x84; x9b; x1c; x9a; xf8; x78; xbc; x1f; x73; x00; x80; x18; xf8; x48; x18; xc7; x30; xe4; x19; xc1; xce; x5e; x22; x0c; x96; xbf; xe3; x15; xba; x6b; x83; xe0; xda; xb6; x08; x58; xe1; x47; x33; x6f; x4d; x4c];
  [xc9; x1f; x7d; xc1; xcf; xec; xf7; x18; x14; x3c; x40; x51; xa6; xf5; x75; x6c; xdf; x0c; xee; xf7; x2b; x71; xde; xdb; x22; x7a; xe4; xa7; xaa; xdd; x3f; x19; x70; x19; x8f; x98; xfc; xdd; x0c; x2f; x1b; xf5; xb9; xb0; x27; x62; x91; x6b; xbe; x76; x91; x77; xc4; xb6; xc7; x6e; xa8; x9f; x8f; xa8; x00; x95; xbf; x38; x6f; x87; xe8; x37; x3c; xc9; xd2; x1f; x2c; x46; xd1; x18; x5a; x1e; xf6; xa2; x76; x12; x24; x39; x82; xf5; x80; x50; x69; x49; x0d; xbf; x9e; xb9; x6f; x6a];
  [xeb; x55; x08; x56; xbb; xc1; x46; x6a; x9d; xf0; x93; xf8; x38; xbb; x16; x24; xc1; xac; x71; x8f; x37; x11; x1d; xd7; xea; x96; x18; xa3; x14; x69; xf7; x75; xc6; x23; xe4; xb6; xb5; x22; xb1; xee; x8e; xff; x86; xf2; x10; x70; x9d; x93; x8c; x5d; xcf; x1d; x83; x2a; xa9; x90; x10; xeb; xc5; x42; x9f; xda; x6f; x13; xd1; xbd; x05; xa3; xb1; xdf; x4c; xf9; x08; x2c; xf8; x9f; x9d; x4b; x36; x0f; x8a; x58; xbb; xc3; xa5; xd8; x87; x2a; xba; xdc; xe8; x0b; x51; x83; x21; x02];
  [x14; x2d; xad; x5e; x38; x66; xf7; x4a; x30; x58; x7c; xca; x80; xd8; x8e; xa0; x3d; x1e; x21; x10; xe6; xa6; x13; x0d; x03; x6c; x80; x7b; xe1; x1c; x07; x6a; x7f; x7a; x30; x43; x01; x71; x5a; x9d; x5f; xa4; x7d; xc4; x9e; xde; x63; xb0; xd3; x7a; x92; xbe; x52; xfe; xbb; x22; x6c; x42; x40; xfd; x41; xc4; x87; x13; xf8; x8a; x97; x87; xd1; xc3; xd3; xb5; x13; x44; x0e; x7f; x3d; x5a; x2b; x72; xa0; x7c; x47; xbb; x48; x48; x7b; x0d; x92; xdc; x1e; xaf; x6a; xb2; x71; x31];
  [xa8; x4c; x56; x97; x90; x31; x2f; xa9; x19; xe1; x75; x22; x4c; xb8; x7b; xff; x50; x51; x87; xa4; x37; xfe; x55; x4f; x5a; x83; xf0; x3c; x87; xd4; x1f; x22; xd1; x47; x8a; xb2; xd8; xb7; x0d; xa6; xf1; xa4; x70; x17; xd6; x14; xbf; xa6; x58; xbd; xdd; x53; x93; xf8; xa1; xd4; xe9; x43; x42; x34; x63; x4a; x51; x6c; x41; x63; x15; x3a; x4f; x20; x22; x23; x2d; x03; x0a; xba; xe9; xe0; x73; xfb; x0e; x03; x0f; x41; x4c; xdd; xe0; xfc; xaa; x4a; x92; xfb; x96; xa5; xda; x48];
  [xc7; x9c; xa5; x5c; x66; x8e; xca; x6e; xa0; xac; x38; x2e; x4b; x25; x47; xa8; xce; x17; x1e; xd2; x08; xc7; xaf; x31; xf7; x4a; xd8; xca; xfc; xd6; x6d; x67; x93; x97; x4c; xc8; x5d; x1d; xf6; x14; x06; x82; x41; xef; xe3; xf9; x41; x99; xac; x77; x62; x34; x8f; xb8; xf5; xcd; xa9; x79; x8a; x0e; xfa; x37; xc8; x58; x58; x90; xfc; x96; x85; x68; xf9; x0c; x1b; xa0; x56; x7b; xf3; xbb; xdc; x1d; x6a; xd6; x35; x49; x7d; xe7; xc2; xdc; x0a; x7f; xa5; xc6; xf2; x73; x4f; x1c];
  [xbb; xa0; x5f; x30; xbd; x4f; x7a; x0e; xad; x63; xc6; x54; xe0; x4c; x9d; x82; x48; x38; xe3; x2f; x83; xc3; x21; xf4; x42; x4c; xf6; x1b; x0d; xc8; x5a; x79; x84; x34; x7c; xfc; x6e; x70; x6e; xb3; x61; xcf; xc1; xc3; xb4; xc9; xdf; x73; xe5; xc7; x1c; x78; xc9; x79; x1d; xeb; x5c; x67; xaf; x7d; xdb; x9a; x45; x70; xb3; x2b; xb4; x91; x49; xdb; x91; x1b; xca; xdc; x02; x4b; x23; x96; x26; x57; xdc; x78; x8c; x1f; xe5; x9e; xdf; x9f; xd3; x1f; xe2; x8c; x84; x62; xe1; x5f];
  [x1a; x96; x94; xe1; x4f; x21; x59; x4e; x4f; xcd; x71; x0d; xc7; x7d; xbe; x49; x2d; xf2; x50; x3b; xd2; xcf; x00; x93; x32; x72; x91; xfc; x46; xd4; x89; x47; x08; xb2; x7c; x5d; x2d; x85; x79; x28; xe7; xf2; x7d; x68; x70; xdd; xde; xb8; x91; x78; x68; x21; xab; xff; x0b; xdc; x35; xaa; x7d; x67; x43; xc0; x44; x2b; x8e; xb7; x4e; x07; xab; x87; x1c; x1a; x67; xf4; xda; x99; x8e; xd1; xc6; xfa; x67; x90; x4f; x48; xcd; xbb; xac; x3e; xe4; xa4; xb9; x2b; xef; x2e; xc5; x60];
  [xf1; x8b; xfd; x3b; xbc; x89; x5d; x0b; x1a; x55; xf3; xc9; x37; x92; x6b; xb0; xf5; x28; x30; xd5; xb0; x16; x4c; x0e; xab; xca; xcf; x2c; x31; x9c; xbc; x10; x11; x6d; xae; x7c; xc2; xc5; x2b; x70; xab; x8c; xa4; x54; x9b; x69; xc7; x44; xb2; x2e; x49; xba; x56; x40; xbc; xef; x6d; x67; xb6; xd9; x48; x72; xd7; x70; x5b; xa0; xc2; x3e; x4b; xe8; x8a; xaa; xe0; x81; x17; xed; xf4; x9e; x69; x98; xd1; x85; x8e; x70; xe4; x13; x45; x79; x13; xf4; x76; xa9; xd3; x5b; x75; x63];
  [x53; x08; xd1; x2a; x3e; xa0; x5f; xb5; x69; x35; xe6; x9e; x90; x75; x6f; x35; x90; xb8; x69; xbe; xfd; xf1; xf9; x9f; x84; x6f; xc1; x8b; xc4; xc1; x8c; x0d; xb7; xac; xf1; x97; x18; x10; xc7; x3d; xd8; xbb; x65; xc1; x5e; x7d; xda; x5d; x0f; x02; xa1; x0f; x9c; x5b; x8e; x50; x56; x2a; xc5; x37; x17; x75; x63; x27; xa9; x19; xb4; x6e; xd3; x02; x94; x02; xa5; x60; xb4; x77; x7e; x4e; xb4; xf0; x56; x49; x3c; xd4; x30; x62; xa8; xcf; xe7; x66; xd1; x7a; x8a; xdd; xc2; x70];
  [x0e; xec; x6f; x9f; x50; x94; x61; x65; x8d; x51; xc6; x46; xa9; x7e; x2e; xee; x5c; x9b; xe0; x67; xf3; xc1; x33; x97; x95; x84; x94; x63; x63; xac; x0f; x2e; x13; x7e; xed; xb8; x7d; x96; xd4; x91; x7a; x81; x76; xd7; x0a; x2f; x25; x74; x64; x25; x85; x0d; xe0; x82; x09; xe4; xe5; x3c; xa5; x16; x38; x61; xb8; x32; x64; xcd; x48; xe4; xbe; xf7; xe7; x79; xd0; x86; x78; x08; x67; x3a; xc8; x6a; x2e; xdb; xe4; xa0; xd9; xd4; x9f; xf8; x41; x4f; x5a; x73; x5c; x21; x79; x41];
  [x2a; xed; xdc; xd7; xe7; x94; x70; x8c; x70; x9c; xd3; x47; xc3; x8a; xfb; x97; x02; xd9; x06; xa9; x33; xe0; x3b; xe1; x76; x9d; xd9; x0c; xa3; x44; x03; x70; x34; xcd; x6b; x28; xb9; x33; xae; xe4; xdc; xd6; x9d; x55; xb6; x7e; xef; xb7; x1f; x8e; xd3; xb3; x1f; x14; x8b; x27; x86; xc2; x41; x22; x66; x85; xfa; x31; xf4; x22; x36; x2e; x42; x6c; x82; xaf; x2d; x50; x33; x98; x87; x29; x20; xc1; x23; x91; x38; x2b; xe1; xb7; xc1; x9b; x89; x24; x95; xa9; x12; x23; xbb; x24];
  [xc3; x67; xde; x32; x17; xed; xa8; xb1; x48; x49; x1b; x46; x18; x94; xb4; x3c; xd2; xbc; xcf; x76; x43; x43; xbd; x8e; x08; x80; x18; x1e; x87; x3e; xee; x0f; x6b; x5c; xf8; xf5; x2a; x0c; xf8; x41; x94; x67; xfa; x04; xc3; x84; x72; x68; xad; x1b; xba; xa3; x99; xdf; x45; x89; x16; x5d; xeb; xff; xf9; x2a; x1d; x0d; xdf; x1e; x62; x32; xa1; x8a; xda; xa9; x79; x65; x22; x59; xa1; x22; xb8; x30; x93; xc1; x9a; xa7; x7b; x19; x04; x40; x76; x1d; x53; x18; x97; xd7; xac; x16];
  [x3d; x1d; x9b; x2d; xaf; x72; xdf; x72; x5a; x24; x32; xa4; x36; x2a; x46; x63; x37; x96; xb3; x16; x79; xa0; xce; x3e; x09; x23; x30; xb9; xf6; x0e; x3e; x12; xad; xb6; x87; x78; xc5; xc6; x59; xc9; xba; xfe; x90; x5f; xad; x9e; xe1; x94; x04; xf5; x42; xa3; x62; x4e; xe2; x16; x00; x17; x16; x18; x4b; xd3; x4e; x16; x9a; xe6; x2f; x19; x4c; xd9; x7e; x48; x13; x15; x91; x3a; xea; x2c; xae; x61; x27; xde; xa4; xb9; xd3; xf6; x7b; x87; xeb; xf3; x73; x10; xc6; x0f; xda; x78];
  [x6a; xc6; x2b; xe5; x28; x5d; xf1; x5b; x8e; x1a; xf0; x70; x18; xe3; x47; x2c; xdd; x8b; xc2; x06; xbc; xaf; x19; x24; x3a; x17; x6b; x25; xeb; xde; x25; x2d; x94; x3a; x0c; x68; xf1; x80; x9f; xa2; xe6; xe7; xe9; x1a; x15; x7e; xf7; x71; x73; x79; x01; x48; x58; xf1; x00; x11; xdd; x8d; xb3; x16; xb3; xa4; x4a; x05; xb8; x7c; x26; x19; x8d; x46; xc8; xdf; xaf; x4d; xe5; x66; x9c; x78; x28; x0b; x17; xec; x6e; x66; x2a; x1d; xeb; x2a; x60; xa7; x7d; xab; xa6; x10; x46; x13];
  [xfe; xb0; xf6; x8d; xc7; x8e; x13; x51; x1b; xf5; x75; xe5; x89; xda; x97; x53; xb9; xf1; x7a; x71; x1d; x7a; x20; x09; x50; xd6; x20; x2b; xba; xfd; x02; x21; x15; xf5; xd1; x77; xe7; x65; x2a; xcd; xf1; x60; xaa; x8f; x87; x91; x89; x54; xe5; x06; xbc; xda; xbc; x3b; xb7; xb1; xfb; xc9; x7c; xa9; xcb; x78; x48; x65; xa1; xe6; x5c; x05; x05; xe4; x9e; x96; x29; xad; x51; x12; x68; xa7; xbc; x36; x15; xa4; x7d; xaa; x17; xf5; x1a; x3a; xba; xb2; xec; x29; xdb; x25; xd7; x0a];
  [x57; x24; x4e; x83; xb1; x67; x42; xdc; xc5; x1b; xce; x70; xb5; x44; x75; xb6; xd7; x5e; xd1; xf7; x0b; x7a; xf0; x1a; x50; x36; xa0; x71; xfb; xcf; xef; x4a; x85; x6f; x05; x9b; x0c; xbc; xc7; xfe; xd7; xff; xf5; xe7; x68; x52; x7d; x53; xfa; xae; x12; x43; x62; xc6; xaf; x77; xd9; x9f; x39; x02; x53; x5f; x67; x4f; x1e; x17; x15; x04; x36; x36; x2d; xc3; x3b; x48; x98; x89; x11; xef; x2b; xcd; x10; x51; x94; xd0; xad; x6e; x0a; x87; x61; x65; xa8; xa2; x72; xbb; xcc; x0b];
  [xc8; xa9; xb1; xea; x2f; x96; x5e; x18; xcd; x7d; x14; x65; x35; xe6; xe7; x86; xf2; x6d; x5b; xbb; x31; xe0; x92; xb0; x3e; xb7; xd6; x59; xab; xf0; x24; x40; x96; x12; xfe; x50; x4c; x5e; x6d; x18; x7e; x9f; xe8; xfe; x82; x7b; x39; xe0; xb0; x31; x70; x50; xc5; xf6; xc7; x3b; xc2; x37; x8f; x10; x69; xfd; x78; x66; xc2; x63; x68; x63; x31; xfa; x86; x15; xf2; x33; x2d; x57; x48; x8c; xf6; x07; xfc; xae; x9e; x78; x9f; xcc; x73; x4f; x01; x47; xad; x8e; x10; xe2; x42; x2d];
  [x9b; xd2; xdf; x94; x15; x13; xf5; x97; x6a; x4c; x3f; x31; x5d; x98; x55; x61; x10; x50; x45; x08; x07; x3f; xa1; xeb; x22; xd3; xd2; xb8; x08; x26; x6b; x67; x93; x75; x53; x0f; x0d; x7b; x71; x21; x4c; x06; x1e; x13; x0b; x69; x4e; x91; x9f; xe0; x2a; x75; xae; x87; xb6; x1b; x6e; x3c; x42; x9b; xa7; xf3; x0b; x42; x47; x2b; x5b; x1c; x65; xba; x38; x81; x80; x1b; x1b; x31; xec; xb6; x71; x86; xb0; x35; x31; xbc; xb1; x0c; xff; x7b; xe0; xf1; x0c; x9c; xfa; x2f; x5d; x74];
  [xbd; xc8; xc9; x2b; x1e; x5a; x52; xbf; x81; x9d; x47; x26; x08; x26; x5b; xea; xdb; x55; x01; xdf; x0e; xc7; x11; xd5; xd0; xf5; x0c; x96; xeb; x3c; xe2; x1a; x6a; x4e; xd3; x21; x57; xdf; x36; x60; xd0; xb3; x7b; x99; x27; x88; xdb; xb1; xfa; x6a; x75; xc8; xc3; x09; xc2; xd3; x39; xc8; x1d; x4c; xe5; x5b; xe1; x06; x4a; x99; x32; x19; x87; x5d; x72; x5b; xb0; xda; xb1; xce; xb5; x1c; x35; x32; x05; xca; xb7; xda; x49; x15; xc4; x7d; xf7; xc1; x8e; x27; x61; xd8; xde; x58];
  [x5c; xc5; x66; xf2; x93; x37; x17; xd8; x49; x4e; x45; xcc; xc5; x76; xc9; xc8; xa8; xc3; x26; xbc; xf8; x82; xe3; x5c; xf9; xf6; x85; x54; xe8; x9d; xf3; x2f; xa8; xc9; xc2; xb6; xa8; x5b; xfb; x2d; x8c; x59; x2c; xf5; x8e; xef; xee; x48; x73; x15; x2d; xf1; x07; x91; x80; x33; xd8; x5b; x1d; x53; x6b; x69; xba; x08; x7a; xc5; xef; xc3; xee; x3e; xed; x77; x11; x48; xff; xd4; x17; x55; xe0; x04; xcb; x71; xa6; xf1; x3f; x7a; x3d; xea; x54; xfe; x7c; x94; xb4; x33; x06; x12];
  [x42; x00; x61; x91; x78; x98; x94; x0b; xe8; xfa; xeb; xec; x3c; xb1; xe7; x4e; xc0; xa4; xf0; x94; x95; x73; xbe; x70; x85; x91; xd5; xb4; x99; x0a; xd3; x35; x0a; x10; x12; x49; x47; x31; xbd; x82; x06; xbe; x6f; x7e; x6d; x7b; x23; xde; xc6; x79; xea; x11; x19; x76; x1e; xe1; xde; x3b; x39; xcb; xe3; x3b; x43; x07; xf4; x97; xe9; x5c; xc0; x44; x79; xff; xa3; x51; x5c; xb0; xe4; x3d; x5d; x57; x7c; x84; x76; x5a; xfd; x81; x33; x58; x9f; xda; xf6; x7a; xde; x3e; x87; x2d];
  [x09; x34; x37; x43; x64; x31; x7a; x15; xd9; x81; xaa; xf4; xee; xb7; xb8; xfa; x06; x48; xa6; xf5; xe6; xfe; x93; xb0; xb6; xa7; x7f; x70; x54; x36; x77; x2e; x81; xf9; x5d; x4e; xe1; x02; x62; xaa; xf5; xe1; x15; x50; x17; x59; x0d; xa2; x6c; x1d; xe2; xba; xd3; x75; xa2; x18; x53; x02; x60; x01; x8a; x61; x43; x05; xc1; x23; x4c; x97; xf4; xbd; xea; x0d; x93; x46; xce; x9d; x25; x0a; x6f; xaa; x2c; xba; x9a; xa2; xb8; x2c; x20; x04; x0d; x96; x07; x2d; x36; x43; x14; x4b];
  [x7a; x1f; x6e; xb6; xc7; xb7; xc4; xcc; x7e; x2f; x0c; xf5; x25; x7e; x15; x44; x1c; xaf; x3e; x71; xfc; x6d; xf0; x3e; xf7; x63; xda; x52; x67; x44; x2f; x58; xcb; x9c; x52; x1c; xe9; x54; x7c; x96; xfb; x35; xc6; x64; x92; x26; xf6; x30; x65; x19; x12; x78; xf4; xaf; x47; x27; x5c; x6f; xf6; xea; x18; x84; x03; x17; xe4; x4c; x32; x20; xd3; x7b; x31; xc6; xc4; x8b; x48; xa4; xe8; x42; x10; xa8; x64; x13; x5a; x4e; x8b; xf1; x1e; xb2; xc9; x8d; xa2; xcd; x4b; x1c; x2a; x0c];
  [x47; x04; x1f; x6f; xd0; xc7; x4d; xd2; x59; xc0; x87; xdb; x3e; x9e; x26; xb2; x8f; xd2; xb2; xfb; x72; x02; x5b; xd1; x77; x48; xf6; xc6; xd1; x8b; x55; x7c; x45; x69; xbd; x69; x48; x81; xc4; xed; x22; x8d; x1c; xbe; x7d; x90; x6d; x0d; xab; xc5; x5c; xd5; x12; xd2; x3b; xc6; x83; xdc; x14; xa3; x30; x9b; x6a; x5a; x3d; x46; x96; xd3; x24; x15; xec; xd0; xf0; x24; x5a; xc3; x8a; x62; xbb; x12; xa4; x5f; xbc; x1c; x79; x3a; x0c; xa5; xc3; xaf; xfb; x0a; xca; xa5; x04; x04];
  [xd6; x43; xa7; x0a; x07; x40; x1f; x8c; xe8; x5e; x26; x5b; xcb; xd0; xba; xcc; xde; xd2; x8f; x66; x6b; x04; x4b; x57; x33; x96; xdd; xca; xfd; x5b; x39; x46; xd1; x6f; x41; x2a; x1b; x9e; xbc; x62; x8b; x59; x50; xe3; x28; xf7; xc6; xb5; x67; x69; x5d; x3d; xd8; x3f; x34; x04; x98; xee; xf8; xe7; x16; x75; x52; x39; x9c; x9a; x5d; x1a; x2d; xdb; x7f; x11; x2a; x5c; x00; xd1; xbc; x45; x77; x9c; xea; x6f; xd5; x54; xf1; xbe; xd4; xef; x16; xd0; x22; xe8; x29; x9a; x57; x76];
  [x17; x2a; xc0; x49; x7e; x8e; xb6; x45; x7f; xa3; xa9; xbc; xa2; x51; xcd; x23; x1b; x4c; x22; xec; x11; x5f; xd6; x3e; xb1; xbd; x05; x9e; xdc; x84; xa3; x43; xf2; x34; xb4; x52; x13; xb5; x3c; x33; xe1; x80; xde; x93; x49; x28; x32; xd8; xce; x35; x0d; x75; x87; x28; x51; xb5; xc1; x77; x27; x2a; xbb; x14; xc5; x02; x45; xb6; xf1; x8b; xda; xd5; x4b; x68; x53; x4b; xb5; xf6; x7e; xd3; x8b; xfb; x53; xd2; xb0; xa9; xd7; x16; x39; x31; x59; x80; x54; x61; x09; x92; x60; x11];
  [xaa; xcf; xda; x29; x69; x16; x4d; xb4; x8f; x59; x13; x84; x4c; x9f; x52; xda; x59; x55; x3d; x45; xca; x63; xef; xe9; x0b; x8e; x69; xc5; x5b; x12; x1e; x35; xcd; x4d; x9b; x36; x16; x56; x38; x7a; x63; x35; x5c; x65; xa7; x2c; xc0; x75; x21; x80; xf1; xd4; xf9; x1b; xc2; x7d; x42; xe0; xe6; x91; x74; x7d; x63; x2f; xbe; x7b; xf6; x1a; x46; x9b; xb4; xd4; x61; x89; xab; xc8; x7a; x03; x03; xd6; xfb; x99; xa6; xf9; x9f; xe1; xde; x71; x9a; x2a; xce; xe7; x06; x2d; x18; x7f];
  [xec; x68; x01; xab; x64; x8e; x7c; x7a; x43; xc5; xed; x15; x55; x4a; x5a; xcb; xda; x0e; xcd; x47; xd3; x19; x55; x09; xb0; x93; x3e; x34; x8c; xac; xd4; x67; x22; x75; x21; x8e; x72; x4b; x45; x09; xd8; xb8; x84; xd4; xf4; xe8; x58; xaa; x3c; x90; x46; x7f; x4d; x25; x58; xd3; x17; x52; x1c; x24; x43; xc0; xac; x44; x77; x57; x7a; x4f; xbb; x6b; x7d; x1c; xe1; x13; x83; x91; xd4; xfe; x35; x8b; x84; x46; x6b; xc9; xc6; xa1; xdc; x4a; xbd; x71; xad; x12; x83; x1c; x6d; x55];
  [x82; x39; x8d; x0c; xe3; x40; xef; x17; x34; xfa; xa3; x15; x3e; x07; xf7; x31; x6e; x64; x73; x07; xcb; xf3; x21; x4f; xff; x4e; x82; x1d; x6d; x6c; x6c; x74; x21; xe8; x1b; xb1; x56; x67; xf0; x81; xdd; xf3; xa3; x10; x23; xf8; xaf; x0f; x5d; x46; x99; x6a; x55; xd0; xb2; xf8; x05; x7f; x8c; xcc; x38; xbe; x7a; x09; xa4; x2d; xa5; x7e; x87; xc9; x49; x0c; x43; x1d; xdc; x9b; x55; x69; x43; x4c; xd2; xeb; xcc; xf7; x09; x38; x2c; x02; xbd; x84; xee; x4b; xa3; x14; x7e; x57];
  [x0a; x3b; xa7; x61; xac; x68; xe2; xf0; xf5; xa5; x91; x37; x10; xfa; xfa; xf2; xe9; x00; x6d; x6b; x82; x3e; xe1; xc1; x42; x8f; xd7; x6f; xe9; x7e; xfa; x60; x2b; xd7; x4d; xbd; xbe; xce; xfe; x94; x11; x22; x0f; x06; xda; x4f; x6a; xf4; xff; xd1; xc8; xc0; x77; x59; x4a; x12; x95; x92; x00; xfb; xb8; x04; x53; x70; xc6; x6e; x29; x4d; x35; x1d; x3d; xb6; xd8; x31; xad; x5f; x3e; x05; xc3; xf3; xec; x42; xbd; xb4; x8c; x95; x0b; x67; xfd; x53; x63; xa1; x0c; x8e; x39; x21];
  [xf3; x33; x2b; x38; x8a; x05; xf5; x89; xb4; xc0; x48; xad; x0b; xba; xe2; x5a; x6e; xb3; x3d; xa5; x03; xb5; x93; x8f; xe6; x32; xa2; x95; x9d; xed; xa3; x5a; x01; x56; xb7; xb4; xf9; xaa; x98; x27; x72; xad; x8d; x5c; x13; x72; xac; x5e; x23; xa0; xb7; x61; x61; xaa; xce; xd2; x4e; x7d; x8f; xe9; x84; xb2; xbf; x1b; x61; x65; xd9; xc7; xe9; x77; x67; x65; x36; x80; xc7; x72; x54; x12; x2b; xcb; xee; x6e; x50; xd9; x99; x32; x05; x65; xcc; x57; x89; x5e; x4e; xe1; x07; x4a];
  [x99; xf9; x0d; x98; xcb; x12; xe4; x4e; x71; xc7; x6e; x3c; x6f; xd7; x15; xa3; xfd; x77; x5c; x92; xde; xed; xa5; xbb; x02; x34; x31; x1d; x39; xac; x0b; x3f; x9b; xa4; x77; xc4; xcd; x58; x0b; x24; x17; xf0; x47; x64; xde; xda; x38; xfd; xad; x6a; xc8; xa7; x32; x8d; x92; x19; x81; xa0; xaf; x84; xed; x7a; xaf; x50; xe5; x5b; xf6; x15; x01; xde; x4f; x6e; xb2; x09; x61; x21; x21; x26; x98; x29; xd9; xd6; xad; x0b; x81; x05; x02; x78; x06; xd0; xeb; xba; x16; xa3; x21; x19];
  [xfc; x70; xb8; xdf; x7e; x2f; x42; x89; xbd; xb3; x76; x4f; xeb; x6b; x29; x2c; xf7; x4d; xc2; x36; xd4; xf1; x38; x07; xb0; xae; x73; xe2; x41; xdf; x58; x64; x8b; xc1; xf3; xd9; x9a; xad; x5a; xd7; x9c; xc1; xb1; x60; xef; x0e; x6a; x56; xd9; x0e; x5c; x25; xac; x0b; x9a; x3e; xf5; xc7; x62; xa0; xec; x9d; x04; x7b; x83; x44; x44; x35; x7a; xe3; xcb; xdc; x93; xbe; xed; x0f; x33; x79; x88; x75; x87; xdd; xc5; x12; xc3; x04; x60; x78; x64; x0e; x95; xc2; xcb; xdc; x93; x60];
  [x6d; x70; xe0; x85; x85; x9a; xf3; x1f; x33; x39; xe7; xb3; xd8; xa5; xd0; x36; x3b; x45; x8f; x71; xe1; xf2; xb9; x43; x7c; xa9; x27; x48; x08; xea; xd1; x57; x4b; x03; x84; x60; xbe; xee; xde; x6b; x54; xb8; x0f; x78; xb6; xc2; x99; x31; x95; x06; x2d; xb6; xab; x76; x33; x97; x90; x7d; x64; x8b; xc9; x80; x31; x6e; x71; xb0; x28; xa1; xe7; xb6; x7a; xee; xaa; x8b; xa8; x93; x6d; x59; xc1; xa4; x30; x61; x21; xb2; x82; xde; xb4; xf7; x18; xbd; x97; xdd; x9d; x99; x3e; x36];
  [xc4; x1f; xee; x35; xc1; x43; xa8; x96; xcf; xc8; xe4; x08; x55; xb3; x6e; x97; x30; xd3; x8c; xb5; x01; x68; x2f; xb4; x2b; x05; x3a; x69; x78; x9b; xee; x48; xc6; xae; x4b; xe2; xdc; x48; x18; x2f; x60; xaf; xbc; xba; x55; x72; x9b; x76; x31; xe9; xef; x3c; x6e; x3c; xcb; x90; x55; xb3; xf9; xc6; x9b; x97; x1f; x23; xc6; xf3; x2a; xcc; x4b; xde; x31; x5c; x1f; x8d; x20; xfe; x30; xb0; x4b; xb0; x66; xb4; x4f; xc1; x09; x70; x8d; xb7; x13; x24; x79; x08; x9b; xfa; x9b; x07];
  [xf4; x0d; x30; xda; x51; x3a; x90; xe3; xb0; x5a; xa9; x3d; x23; x64; x39; x84; x80; x64; x35; x0b; x2d; xf1; x3c; xed; x94; x71; x81; x84; xf6; x77; x8c; x03; x45; x42; xd5; xa2; x80; xed; xc9; xf3; x52; x39; xf6; x77; x78; x8b; xa0; x0a; x75; x54; x08; xd1; x63; xac; x6d; xd7; x6b; x63; x70; x94; x15; xfb; xf4; x1e; xec; x7b; x16; x5b; xe6; x5e; x4e; x85; xc2; xcd; xd0; x96; x42; x0a; x59; x59; x99; x21; x10; x98; x34; xdf; xb2; x72; x56; xff; x0b; x4a; x2a; xe9; x5e; x57];
  [xcf; x2f; x18; x8a; x90; x80; xc0; xd4; xbd; x9d; x48; x99; xc2; x70; xe1; x30; xde; x33; xf7; x52; x57; xbd; xba; x05; x00; xfd; xd3; x2c; x11; xe7; xd4; x43; x01; xd8; xa4; x0a; x45; xbc; x46; x5d; xd8; xb9; x33; xa5; x27; x12; xaf; xc3; xc2; x06; x89; x2b; x26; x3b; x9e; x38; x1b; x58; x2f; x38; x7e; x1e; x0a; x20; xc5; x3a; xf9; xea; x67; xb9; x8d; x51; xc0; x52; x66; x05; x9b; x98; xbc; x71; xf5; x97; x71; x56; xd9; x85; x2b; xfe; x38; x4e; x1e; x65; x52; xca; x0e; x05];
  [x9c; x0c; x3f; x45; xde; x1a; x43; xc3; x9b; x3b; x70; xff; x5e; x04; xf5; xe9; x3d; x7b; x84; xed; xc9; x7a; xd9; xfc; xc6; xf4; x58; x1c; xc2; xe6; x0e; x4b; xea; x68; xe6; x60; x76; x39; xac; x97; x97; xb4; x3a; x15; xfe; xbb; x19; x9b; x9f; xa7; xec; x34; xb5; x79; xb1; x4c; x57; xae; x31; xa1; x9f; xc0; x51; x61; x96; x5d; xf0; xfd; x0d; x5c; xf5; x3a; x7a; xee; xb4; x2a; xe0; x2e; x26; xdd; x09; x17; x17; x12; x87; xbb; xb2; x11; x0b; x03; x0f; x80; xfa; x24; xef; x1f];
  [x96; x31; xa7; x1a; xfb; x53; xd6; x37; x18; x64; xd7; x3f; x30; x95; x94; x0f; xb2; x17; x3a; xfb; x09; x0b; x20; xad; x3e; x61; xc8; x2f; x29; x49; x4d; x54; x86; x6b; x97; x30; xf5; xaf; xd2; x22; x04; x46; xd2; xc2; x06; xb8; x90; x8d; xe5; xba; xe5; x4d; x6c; x89; xa1; xdc; x17; x0c; x34; xc8; xe6; x5f; x00; x28; x88; x86; x52; x34; x9f; xba; xef; x6a; xa1; x7d; x10; x25; x94; xff; x1b; x5c; x36; x4b; xd9; x66; xcd; xbb; x5b; xf7; xfa; x6d; x31; x0f; x93; x72; xe4; x72];
  [x4f; x08; x81; x97; x8c; x20; x95; x26; xe1; x0e; x45; x23; x0b; x2a; x50; xb1; x02; xde; xef; x03; xa6; xae; x9d; xfd; x4c; xa3; x33; x27; x8c; x2e; x9d; x5a; x27; x76; x2a; xd3; x35; xf6; xf3; x07; xf0; x66; x65; x5f; x86; x4d; xaa; x7a; x50; x44; xd0; x28; x97; xe7; x85; x3c; x38; x64; xe0; x0f; x00; x7f; xee; x1f; xe5; xf7; xdb; x03; xda; x05; x53; x76; xbd; xcd; x34; x14; x49; xf2; xda; xa4; xec; x88; x4a; xd2; xcd; xd5; x4a; x7b; x43; x05; x04; xee; x51; x40; xf9; x00];
  [xb2; x30; xd3; xc3; x23; x6b; x35; x8d; x06; x1b; x47; xb0; x9b; x8b; x1c; xf2; x3c; xb8; x42; x6e; x6c; x31; x6c; xb3; x0d; xb1; xea; x8b; x7e; x9c; xd7; x07; x53; x97; xaf; x07; xbb; x93; xef; xd7; xa7; x66; xb7; x3d; xcf; xd0; x3e; x58; xc5; x1e; x0b; x6e; xbf; x98; x69; xce; x52; x04; xd4; x5d; xd2; xff; xb7; x47; x12; xdd; x08; xbc; x9c; xfb; xfb; x87; x9b; xc2; xee; xe1; x3a; x6b; x06; x8a; xbf; xc1; x1f; xdb; x2b; x24; x57; x0d; xb6; x4b; xa6; x5e; xa3; x20; x35; x1c];
  [x4a; xa3; xcb; xbc; xa6; x53; xd2; x80; x9b; x21; x38; x38; xa1; xc3; x61; x3e; x96; xe3; x82; x98; x01; xb6; xc3; x90; x6f; xe6; x0e; x5d; x77; x05; x3d; x1c; x59; xc0; x6b; x21; x40; x6f; xa8; xcd; x7e; xd8; xbc; x12; x1d; x23; xbb; x1f; x90; x09; xc7; x17; x9e; x6a; x95; xb4; x55; x2e; xd1; x66; x3b; x0c; x75; x38; x1a; xe5; x22; x94; x40; xf1; x2e; x69; x71; xf6; x5d; x2b; x3c; xc7; xc0; xcb; x29; xe0; x4c; x74; xe7; x4f; x01; x21; x7c; x48; x30; xd3; xc7; xe2; x21; x06];
  [x8d; x83; x59; x82; xcc; x60; x98; xaf; xdc; x9a; x9f; xc6; xc1; x48; xea; x90; x30; x1e; x58; x65; x37; x48; x26; x65; xbc; xa5; xd3; x7b; x09; xd6; x07; x00; xf3; xf0; xdb; xb0; x96; x17; xae; xb7; x96; xe1; x7c; xe1; xb9; xaf; xdf; x54; xb4; xa3; xaa; xe9; x71; x30; x92; x25; x9d; x2e; x00; xa1; x9c; x58; x8e; x5d; x4b; xa9; x42; x08; x95; x1d; xbf; xc0; x3e; x2e; x8f; x58; x63; xc3; xd3; xb2; xef; xe2; x51; xbb; x38; x14; x96; x0a; x86; xbf; x1c; x3c; x78; xd7; x83; x15];
  [xe1; x7a; xa2; x5d; xef; xa2; xee; xec; x74; x01; x67; x55; x14; x3a; x7c; x59; x7a; x16; x09; x66; x12; x2a; xa6; xc9; x70; x8f; xed; x81; x2e; x5f; x2a; x25; xc7; x28; x9d; xcc; x04; x47; x03; x90; x8f; xc5; x2c; xf7; x9e; x67; x1b; x1d; x26; x87; x5b; xbe; x5f; x2b; xe1; x16; x0a; x58; xc5; x83; x4e; x06; x58; x49; x0d; xe8; x66; x50; x26; x94; x28; x0d; x6b; x8c; x7c; x30; x85; xf7; xc3; xfc; xfd; x12; x11; x0c; x78; xda; x53; x1b; x88; xb3; x43; xd8; x0b; x17; x9c; x07];
  [xff; x6f; xfa; x64; xe4; xec; x06; x05; x23; xe5; x05; x62; x1e; x43; xe3; xbe; x42; xea; xb8; x51; x24; x42; x79; x35; x00; xfb; xc9; x4a; xe3; x05; xec; x6d; x56; xd0; xd5; xc0; x50; xcd; xd6; xcd; x3b; x57; x03; xbb; x6d; x68; xf7; x9a; x48; xef; xc3; xf3; x3f; x72; xa6; x3c; xcc; x8a; x7b; x31; xd7; xc0; x68; x67; xb3; xc1; x55; xf1; xe5; x25; xb6; x94; x91; x7b; x7b; x99; xa7; xf3; x7b; x41; x00; x26; x6b; x6d; xdc; xbd; x2c; xc2; xf4; x52; xcd; xdd; x14; x5e; x44; x51];
  [x51; x49; x14; x3b; x4b; x2b; x50; x57; xb3; xbc; x4b; x44; x6b; xff; x67; x8e; xdb; x85; x63; x16; x27; x69; xbd; xb8; xc8; x95; x92; xe3; x31; x6f; x18; x13; x55; xa4; xbe; x2b; xab; x47; x31; x89; x29; x91; x07; x92; x4f; xa2; x53; x8c; xa7; xf7; x30; xbe; x48; xf9; x49; x4b; x3d; xd4; x4f; x6e; x08; x90; xe9; x12; x2e; xbb; xdf; x7f; xb3; x96; x0c; xf1; xf9; xea; x1c; x12; x5e; x93; x9a; x9f; x3f; x98; x5b; x3a; xc4; x36; x11; xdf; xaf; x99; x3e; x5d; xf0; xe3; xb2; x77];
  [xde; xc4; x2e; x9c; xc5; xa9; x6f; x29; xcb; xf3; x84; x4f; xbf; x61; x8b; xbc; x08; xf9; xa8; x17; xd9; x06; x77; x1c; x5d; x25; xd3; x7a; xfc; x95; xb7; x63; xa4; xb0; xdd; x12; x9c; x63; x98; xd5; x6b; x86; x24; xc0; x30; x9f; xd1; xa5; x60; xe4; xfc; x58; x03; x2f; x7c; xd1; x8a; x5e; x09; x2e; x15; x95; xa1; x07; xc8; x5f; x9e; x38; x02; x8f; x36; xa8; x3b; xe4; x8d; xcf; x02; x3b; x43; x90; x43; x26; x41; xc5; x5d; xfd; xa1; xaf; x37; x01; x2f; x03; x3d; xe8; x8f; x3e];
  [x94; xa2; x70; x05; xb9; x15; x8b; x2f; x49; x45; x08; x67; x70; x42; xf2; x94; x84; xfd; xbb; x61; xe1; x5a; x1c; xde; x07; x40; xac; x7f; x79; x3b; xba; x75; x3c; xd1; xef; xe8; x8d; x4c; x70; x08; x31; x37; xe0; x33; x8e; x1a; xc5; xdf; xe3; xcd; x60; x12; xa5; x5d; x9d; xa5; x86; x8c; x25; xa6; x99; x08; xd6; x22; x96; xd1; xcd; x70; xc0; xdb; x39; x62; x9a; x8a; x7d; x6c; x8b; x8a; xfe; x60; x60; x12; x40; xeb; xbc; x47; x88; xb3; x5e; x9e; x77; x87; x7b; xd0; x04; x09];
  [x9c; x91; xba; xdd; xd4; x1f; xce; xb4; xaa; x8d; x4c; xc7; x3e; xdb; x31; xcf; x51; xcc; x86; xad; x63; xcc; x63; x2c; x07; xde; x1d; xbc; x3f; x14; xe2; x43; xb9; x40; xf9; x48; x66; x2d; x32; xf4; x39; x0c; x2d; xbd; x0c; x2f; x95; x06; x31; xf9; x81; xa0; xad; x97; x76; x16; x6c; x2a; xf7; xba; xce; xaa; x40; x62; xa0; x95; xa2; x5b; x9c; x74; x34; xf8; x5a; xd2; x37; xca; x5b; x7c; x94; xd6; x6a; x31; xc9; xe7; xa7; x3b; xf1; x66; xac; x0c; xb4; x8d; x23; xaf; xbd; x56];
  [xeb; x33; x35; xf5; xe3; xb9; x2a; x36; x40; x3d; xb9; x6e; xd5; x68; x85; x33; x72; x55; x5a; x1d; x52; x14; x0e; x9e; x18; x13; x74; x83; x6d; xa8; x24; x1d; xb2; x3b; x9d; xc1; x6c; xd3; x10; x13; xb9; x86; x23; x62; xb7; x6b; x2a; x06; x5c; x4f; xa1; xd7; x91; x85; x9b; x7c; x54; x57; x1e; x7e; x50; x31; xaa; x03; x1f; xce; xd4; xff; x48; x76; xec; xf4; x1c; x8c; xac; x54; xf0; xea; x45; xe0; x7c; x35; x09; x1d; x82; x25; xd2; x88; x59; x48; xeb; x9a; xdc; x61; xb2; x43];
  [xbb; x79; xbb; x88; x19; x1e; x5b; xe5; x9d; x35; x7a; xc1; x7d; xd0; x9e; xa0; x33; xea; x3d; x60; xe2; x2e; x2c; xb0; xc2; x6b; x27; x5b; xcf; x55; x60; x32; x64; x13; x95; x6c; x8b; x3d; x51; x19; x7b; xf4; x0b; x00; x26; x71; xfe; x94; x67; x95; x4f; xd5; xdd; x10; x8d; x02; x64; x09; x94; x42; xe2; xd5; xb4; x02; xf2; x8d; xd1; x28; xcb; x55; xa1; xb4; x08; xe5; x6c; x18; x46; x46; xcc; xea; x89; x43; x82; x6c; x93; xf4; x9c; xc4; x10; x34; x5d; xae; x09; xc8; xa6; x27];
  [x88; xb1; x0d; x1f; xcd; xeb; xa6; x8b; xe8; x5b; x5a; x67; x3a; xd7; xd3; x37; x5a; x58; xf5; x15; xa3; xdf; x2e; xf2; x7e; xa1; x60; xff; x74; x71; xb6; x2c; x54; x69; x3d; xc4; x0a; x27; x2c; xcd; xb2; xca; x66; x6a; x57; x3e; x4a; xdd; x6c; x03; xd7; x69; x24; x59; xfa; x79; x99; x25; x8c; x3d; x60; x03; x15; x22; xd0; xe1; x0b; x39; xf9; xcd; xee; x59; xf1; xe3; x8c; x72; x44; x20; x42; xa9; xf4; xf0; x94; x7a; x66; x1c; x89; x82; x36; xf4; x90; x38; xb7; xf4; x1d; x7b];
  [x24; xa2; xb2; xb3; xe0; xf2; x92; xe4; x60; x11; x55; x2b; x06; x9e; x6c; x7c; x0e; x7b; x7f; x0d; xe2; x8f; xeb; x15; x92; x59; xfc; x58; x26; xef; xfc; x61; x8c; xf5; xf8; x07; x18; x22; x2e; x5f; xd4; x09; x94; xd4; x9f; x5c; x55; xe3; x30; xa6; xb6; x1f; x8d; xa8; xaa; xb2; x3d; xe0; x52; xd3; x45; x82; x69; x68; x7a; x18; x18; x2a; x85; x5d; xb1; xdb; xd7; xac; xdd; x86; xd3; xaa; xe4; xf3; x82; xc4; xf6; x0f; x81; xe2; xba; x44; xcf; x01; xaf; x3d; x47; x4c; xcf; x46];
  [xf9; xe5; xc4; x9e; xed; x25; x65; x42; x03; x33; x90; x16; x01; xda; x5e; x0e; xdc; xca; xe5; xcb; xf2; xa7; xb1; x72; x40; x5f; xeb; x14; xcd; x7b; x38; x29; x40; x81; x49; xf1; xa7; x6e; x3c; x21; x54; x48; x2b; x39; xf8; x7e; x1e; x7c; xba; xce; x29; x56; x8c; xc3; x88; x24; xbb; xc5; x8c; x0d; xe5; xaa; x65; x10; x57; x0d; x20; xdf; x25; x45; x2c; x1c; x4a; x67; xca; xbf; xd6; x2d; x3b; x5c; x30; x40; x83; xe1; xb1; xe7; x07; x0a; x16; xe7; x1c; x4f; xe6; x98; xa1; x69];
  [xbc; x78; x1a; xd9; xe0; xb2; x62; x90; x67; x96; x50; xc8; x9c; x88; xc9; x47; xb8; x70; x50; x40; x66; x4a; xf5; x9d; xbf; xa1; x93; x24; xa9; xe6; x69; x73; xed; xca; xc5; xdc; x34; x44; x01; xe1; x33; xfb; x84; x3c; x96; x5d; xed; x47; xe7; xa0; x86; xed; x76; x95; x01; x70; xe4; xf9; x67; xd2; x7b; x69; xb2; x25; x64; x68; x98; x13; xfb; x3f; x67; x9d; xb8; xc7; x5d; x41; xd9; xfb; xa5; x3c; x5e; x3b; x27; xdf; x3b; xcc; x4e; xe0; xd2; x4c; x4e; xb5; x3d; x68; x20; x14];
  [x97; xd1; x9d; x24; x1e; xbd; x78; xb4; x02; xc1; x58; x5e; x00; x35; x0c; x62; x5c; xac; xba; xcc; x2f; xd3; x02; xfb; x2d; xa7; x08; xf5; xeb; x3b; xb6; x60; xd0; x5a; xcc; xc1; x6f; xbb; xee; x34; x8b; xac; x46; x96; xe9; x0c; x1b; x6a; x53; xde; x6b; xa6; x49; xda; xb0; xd3; xc1; x81; xd0; x61; x41; x3b; xe8; x31; x4f; x2b; x06; x9e; x12; xc7; xe8; x97; xd8; x0a; x32; x29; x4f; x8f; xe4; x49; x3f; x68; x18; x6f; x4b; xe1; xec; x5b; x17; x03; x55; x2d; xb6; x1e; xcf; x55];
  [x58; x3d; xc2; x65; x10; x10; x79; x58; x9c; x81; x94; x50; x6d; x08; x9d; x8b; xa7; x5f; xc5; x12; xa9; x2f; x40; xe2; xd4; x91; x08; x57; x64; x65; x9a; x66; x52; x8c; xf5; x7d; xe3; xb5; x76; x30; x36; xcc; x99; xe7; xdd; xb9; x3a; xd7; x20; xee; x13; x49; xe3; x1c; x83; xbd; x33; x01; xba; x62; xaa; xfb; x56; x1a; xec; xc9; x9d; x5c; x50; x6b; x3e; x94; x1a; x37; x7c; xa7; xbb; x57; x25; x30; x51; x76; x34; x41; x56; xae; x73; x98; x5c; x8a; xc5; x99; x67; x83; xc4; x13];
  [xb9; xe1; xb3; x5a; x46; x5d; x3a; x42; x61; x3f; xf1; xc7; x87; xc1; x13; xfc; xb6; xb9; xb5; xec; x64; x36; xf8; x19; x07; xb6; x37; xa6; x93; x0c; xf8; x66; x80; xd0; x8b; x5d; x6a; xfb; xdc; xc4; x42; x48; x1a; x57; xec; xc4; xeb; xde; x65; x53; xe5; xb8; x83; xe8; xb2; xd4; x27; xb8; xe5; xc8; x7d; xc8; xbd; x50; x11; xe1; xdf; x6e; x83; x37; x6d; x60; xd9; xab; x11; xf0; x15; x3e; x35; x32; x96; x3b; xb7; x25; xc3; x3a; xb0; x64; xae; xd5; x5f; x72; x44; x64; xd5; x1d];
  [x7d; x12; x62; x33; xf8; x7f; xa4; x8f; x15; x7c; xcd; x71; xc4; x6a; x9f; xbc; x8b; x0c; x22; x49; x43; x45; x71; x6e; x2e; x73; x9f; x21; x12; x59; x64; x0e; x9a; xc8; xba; x08; x00; xe6; x97; xc2; xe0; xc3; xe1; xea; x11; xea; x4c; x7d; x7c; x97; xe7; x9f; xe1; x8b; xe3; xf3; xcd; x05; xa3; x63; x0f; x45; x3a; x3a; x27; x46; x39; xd8; x31; x2f; x8f; x07; x10; xa5; x94; xde; x83; x31; x9d; x38; x80; x6f; x99; x17; x6d; x6c; xe3; xd1; x7b; xa8; xa9; x93; x93; x8d; x8c; x31];
  [x19; xfe; xff; x2a; x03; x5d; x74; xf2; x66; xdb; x24; x7f; x49; x3c; x9f; x0c; xef; x98; x85; xba; xe3; xd3; x98; xbc; x14; x53; x1d; x9a; x67; x7c; x4c; x22; x98; xd3; x1d; xab; x29; x9e; x66; x5d; x3b; x9e; x2d; x34; x58; x16; x92; xfc; xcd; x73; x59; xf3; xfd; x1d; x85; x55; xf6; x0a; x95; x25; xc3; x41; x9a; x50; xe9; x25; xf9; xa6; xdc; x6e; xc0; xbd; x33; x1f; x1b; x64; xf4; xf3; x3e; x79; x89; x3e; x83; x9d; x80; x12; xec; x82; x89; x13; xa1; x28; x23; xf0; xbf; x05];
  [x0b; xe0; xca; x23; x70; x13; x32; x36; x59; xcf; xac; xd1; x0a; xcf; x4a; x54; x88; x1c; x1a; xd2; x49; x10; x74; x96; xa7; x44; x2a; xfa; xc3; x8c; x0b; x78; xe4; x12; xc5; x0d; xdd; xa0; x81; x68; xfe; xfa; xa5; x44; xc8; x0d; xe7; x4f; x40; x52; x4a; x8f; x6b; x8e; x74; x1f; xea; xa3; x01; xee; xcd; x77; x62; x57; x5f; x30; x4f; x23; xbc; x8a; xf3; x1e; x08; xde; x05; x14; xbd; x7f; x57; x9a; x0d; x2a; xe6; x34; x14; xa5; x82; x5e; xa1; xb7; x71; x62; x72; x18; xf4; x5f];
  [x9d; xdb; x89; x17; x0c; x08; x8e; x39; xf5; x78; xe7; xf3; x25; x20; x60; xa7; x5d; x03; xbd; x06; x4c; x89; x98; xfa; xbe; x66; xa9; x25; xdc; x03; x6a; x10; x40; x95; xb6; x13; xe8; x47; xdb; xe5; xe1; x10; x26; x43; x3b; x2a; x5d; xf3; x76; x12; x78; x38; xe9; x26; x1f; xac; x69; xcb; xa0; xa0; x8c; xdb; xd4; x29; xd0; x53; x33; x33; xaf; x0a; xad; xd9; xe5; x09; xd3; xac; xa5; x9d; x66; x38; xf0; xf7; x88; xc8; x8a; x65; x57; x3c; xfa; xbe; x2c; x05; x51; x8a; xb3; x4a];
  [x93; xd5; x68; x67; x25; x2b; x7c; xda; x13; xca; x22; x44; x57; xc0; xc1; x98; x1d; xce; x0a; xca; xd5; x0b; xa8; xf1; x90; xa6; x88; xc0; xad; xd1; xcd; x29; x9c; xc0; xdd; x5f; xef; xd1; xcf; xd6; xce; x5d; x57; xf7; xfd; x3e; x2b; xe8; xc2; x34; x16; x20; x5d; x6b; xd5; x25; x9b; x2b; xed; x04; xbb; xc6; x41; x30; x48; xe1; x56; xd9; xf9; xf2; xf2; x0f; x2e; x6b; x35; x9f; x75; x97; xe7; xad; x5c; x02; x6c; x5f; xbb; x98; x46; x1a; x7b; x9a; x04; x14; x68; xbd; x4b; x10];
  [x67; xed; xf1; x68; x31; xfd; xf0; x51; xc2; x3b; x6f; xd8; xcd; x1d; x81; x2c; xde; xf2; xd2; x04; x43; x5c; xdc; x44; x49; x71; x2a; x09; x57; xcc; xe8; x5b; x63; xf1; x7f; xd6; x5f; x9a; x5d; xa9; x81; x56; xc7; x4c; x9d; xe6; x2b; xe9; x57; xf2; x20; xde; x4c; x02; xf8; xb7; xf5; x2d; x07; xfb; x20; x2a; x4f; x20; x79; xb0; xeb; x30; x3d; x3b; x14; xc8; x30; x2e; x65; xbd; x5a; x15; x89; x75; x31; x5c; x6d; x8f; x31; x3c; x3c; x65; x1f; x16; x79; xc2; x17; xfb; x70; x25];
  [x75; x15; xb6; x2c; x7f; x36; xfa; x3e; x6c; x02; xd6; x1c; x76; x6f; xf9; xf5; x62; x25; xb5; x65; x2a; x14; xc7; xe8; xcd; x0a; x03; x53; xea; x65; xcb; x3d; x5a; x24; xb8; x0b; x55; xa9; x2e; x19; xd1; x50; x90; x8f; xa8; xfb; xe6; xc8; x35; xc9; xa4; x88; x2d; xea; x86; x79; x68; x86; x01; xde; x91; x5f; x1c; x24; xaa; x6c; xde; x40; x29; x17; xd8; x28; x3a; x73; xd9; x22; xf0; x2c; xbf; x8f; xd1; x01; x5b; x23; xdd; xfc; xd7; x16; xe5; xf0; xcd; x5f; xdd; x0e; x42; x08];
  [x4a; xfa; x62; x83; xab; x20; xff; xcd; x6e; x3e; x1a; xe2; xd4; x18; xe1; x57; x2b; xe6; x39; xfc; x17; x96; x17; xe3; xfd; x69; x17; xbc; xef; x53; x9a; x0d; xce; x10; xf4; x04; x4e; xc3; x58; x03; x85; x06; x6e; x27; x5a; x5b; x13; xb6; x21; x15; xb9; xeb; xc7; x70; x96; x5d; x9c; x88; xdb; x21; xf3; x54; xd6; x04; xd5; xb5; xbd; xdd; x16; xc1; x7d; x5e; x2d; xdd; xa5; x8d; xb6; xde; x54; x29; x92; xa2; x34; x33; x17; x08; xb6; x1c; xd7; x1a; x99; x18; x26; x4f; x7a; x4a];
  [x95; x5f; xb1; x5f; x02; x18; xa7; xf4; x8f; x1b; x5c; x6b; x34; x5f; xf6; x3d; x12; x11; xe0; x00; x85; xf0; xfc; xcd; x48; x18; xd3; xdd; x4c; x0c; xb5; x11; x4b; x2a; x37; xaf; x91; xb2; xc3; x24; xf2; x47; x81; x71; x70; x82; xda; x93; xf2; x9e; x89; x86; x64; x85; x84; xdd; x33; xee; xe0; x23; x42; x31; x96; x4a; xd6; xff; xa4; x08; x44; x27; xe8; xa6; xd9; x76; x15; x9c; x7e; x17; x8e; x73; xf2; xb3; x02; x3d; xb6; x48; x33; x77; x51; xcc; x6b; xce; x4d; xce; x4b; x4f];
  [x84; x25; x24; xe2; x5a; xce; x1f; xa7; x9e; x8a; xf5; x92; x56; x72; xea; x26; xf4; x3c; xea; x1c; xd7; x09; x1a; xd2; xe6; x01; x1c; xb7; x14; xdd; xfc; x73; x6f; x0b; x9d; xc4; x6e; x61; xe2; x30; x17; x23; xec; xca; x8f; x71; x56; xe4; xa6; x4f; x6b; xf2; x9b; x40; xeb; x48; x37; x5f; x59; x61; xe5; xce; x42; x30; x41; xac; x9b; x44; x79; x70; x7e; x42; x0a; x31; xe2; xbc; x6d; xe3; x5a; x85; x7c; x1a; x84; x5f; x21; x76; xae; x4c; xd6; xe1; x9c; x9a; x0c; x74; x9e; x38];
  [xce; xb9; xdc; x34; xae; xb3; xfc; x64; xad; xd0; x48; xe3; x23; x03; x50; x97; x1b; x38; xc6; x62; x7d; xf0; xb3; x45; x88; x67; x5a; x46; x79; x53; x54; x61; x28; xac; x0e; x57; xf6; x78; xbd; xc9; xe1; x9c; x91; x27; x32; x0b; x5b; xe5; xed; x91; x9b; xa1; xab; x3e; xfc; x65; x90; x36; x26; xd6; xe5; x25; xc4; x25; x6e; xde; xd7; xf1; xa6; x06; x3e; x3f; x08; x23; x06; x8e; x27; x76; xf9; x3e; x77; x6c; x8a; x4e; x26; xf6; x14; x8c; x59; x47; x48; x15; x89; xa0; x39; x65];
  [x73; xf7; xd2; xc3; x74; x1f; xd2; xe9; x45; x68; xc4; x25; x41; x54; x50; xc1; x33; x9e; xb9; xf9; xe8; x5c; x4e; x62; x6c; x18; xcd; xc5; xaa; xe4; xc5; x11; x19; x4a; xbb; x14; xd4; xdb; xc4; xdd; x8e; x4f; x42; x98; x3c; xbc; xb2; x19; x69; x71; xca; x36; xd7; x9f; xa8; x48; x90; xbd; x19; xf0; x0e; x32; x65; x0f; xc6; xe0; xfd; xca; xb1; xd1; x86; xd4; x81; x51; x3b; x16; xe3; xe6; x3f; x4f; x9a; x93; xf2; xfa; x0d; xaf; xa8; x59; x2a; x07; x33; xec; xbd; xc7; xab; x4c];
  [x2e; x0a; x9c; x08; x24; x96; x9e; x23; x38; x47; xfe; x3a; xc0; xc4; x48; xc7; x2a; xa1; x4f; x76; x2a; xed; xdb; x17; x82; x85; x1c; x32; xf0; x93; x9b; x63; x89; xd2; x78; x3f; x8f; x78; x8f; xc0; x9f; x4d; x40; xa1; x2c; xa7; x30; xfe; x9d; xcc; x65; xcf; xfc; x8b; x77; xf2; x21; x20; xcb; x5a; x16; x98; xe4; x7e; xc3; xa1; x11; x91; xe3; x08; xd5; x7b; x89; x74; x90; x80; xd4; x90; x2b; x2b; x19; xfd; x72; xae; xc2; xae; xd2; xe7; xa6; x02; xb6; x85; x3c; x49; xdf; x0e];
  [x68; x5a; x9b; x59; x58; x81; xcc; xae; x0e; xe2; xad; xeb; x0f; x4f; x57; xea; x07; x7f; xb6; x22; x74; x1d; xe4; x4f; xb4; x4f; x9d; x01; xe3; x92; x3b; x40; x13; x41; x76; x84; xd2; xc4; x67; x67; x35; xf8; xf5; xf7; x3f; x40; x90; xa0; xde; xbe; xe6; xca; xfa; xcf; x8f; x1c; x69; xa3; xdf; xd1; x54; x0c; xc0; x04; xf8; x5c; x46; x8b; x81; x2f; xc2; x4d; xf8; xef; x80; x14; x5a; xf3; xa0; x71; x57; xd6; xc7; x04; xad; xbf; xe8; xae; xf4; x76; x61; xb2; x2a; xb1; x5b; x35];
  [xf4; xbb; x93; x74; xcc; x64; x1e; xa7; xc3; xb0; xa3; xec; xd9; x84; xbd; xe5; x85; xe7; x05; xfa; x0c; xc5; x6b; x0a; x12; xc3; x2e; x18; x32; x81; x9b; x0f; x18; x73; x8c; x5a; xc7; xda; x01; xa3; x11; xaa; xce; xb3; x9d; x03; x90; xed; x2d; x3f; xae; x3b; xbf; x7c; x07; x6f; x8e; xad; x52; xe0; xf8; xea; x18; x75; x32; x6c; x7f; x1b; xc4; x59; x88; xa4; x98; x32; x38; xf4; xbc; x60; x2d; x0f; xd9; xd1; xb1; xc9; x29; xa9; x15; x18; xc4; x55; x17; xbb; x1b; x87; xc3; x47];
  [x48; x4f; xec; x71; x97; x53; x44; x51; x6e; x5d; x8c; xc9; x7d; xb1; x05; xf8; x6b; xc6; xc3; x47; x1a; xc1; x62; xf7; xdc; x99; x46; x76; x85; x9b; xb8; x00; xb0; x66; x50; xc8; x50; x5d; xe6; xfb; xb0; x99; xa2; xb3; xb0; xc4; xec; x62; xe0; xe8; x1a; x44; xea; x54; x37; xe5; x5f; x8d; xd4; xe8; x2c; xa0; xfe; x08; xd0; xea; xde; x68; x76; xdd; x4d; x82; x23; x5d; x68; x4b; x20; x45; x64; xc8; x65; xd6; x89; x5d; xcd; xcf; x14; xb5; x37; xd5; x75; x4f; xa7; x29; x38; x47];
  [x18; xc4; x79; x46; x75; xda; xd2; x82; xf0; x8d; x61; xb2; xd8; xd7; x3b; xe6; x0a; xeb; x47; xac; x24; xef; x5e; x35; xb4; xc6; x33; x48; x4c; x68; x78; x20; xc9; x02; x39; xad; x3a; x53; xd9; x23; x8f; x58; x03; xef; xce; xdd; xc2; x64; xb4; x2f; xe1; xcf; x90; x73; x25; x15; x90; xd3; xe4; x44; x4d; x8b; x66; x6c; x0c; x82; x78; x7a; x21; xcf; x48; x3b; x97; x3e; x27; x81; xb2; x0a; x6a; xf7; x7b; xed; x8e; x8c; xa7; x65; x6c; xa9; x3f; x43; x8a; x4f; x05; xa6; x11; x74];
  [x6d; xc8; x9d; xb9; x32; x9d; x65; x4d; x15; xf1; x3a; x60; x75; xdc; x4c; x04; x88; xe4; xc2; xdc; x2c; x71; x4c; xb3; xff; x34; x81; xfb; x74; x65; x13; x7c; xb4; x75; xb1; x18; x3d; xe5; x9a; x57; x02; xa1; x92; xf3; x59; x31; x71; x68; xf5; x35; xef; x1e; xba; xec; x55; x84; x8f; x39; x8c; x45; x72; xa8; xc9; x1e; x9b; x50; xa2; x00; xd4; xa4; xe6; xb8; xb4; x82; xc8; x0b; x02; xd7; x81; x9b; x61; x75; x95; xf1; x9b; xcc; xe7; x57; x60; x64; xcd; xc7; xa5; x88; xdd; x3a];
  [xf2; xdc; x35; xb6; x70; x57; x89; xab; xbc; x1f; x6c; xf6; x6c; xef; xdf; x02; x87; xd1; xb6; xbe; x68; x02; x53; x85; x74; x9e; x87; xcc; xfc; x29; x99; x24; x46; x30; x39; x59; xd4; x98; xc2; x85; xec; x59; xf6; x5f; x98; x35; x7e; x8f; x3a; x6e; xf6; xf2; x2a; xa2; x2c; x1d; x20; xa7; x06; xa4; x31; x11; xba; x61; x29; x90; x95; x16; xf1; xa0; xd0; xa3; x89; xbd; x7e; xba; x6c; x6b; x3b; x02; x07; x33; x78; x26; x3e; x5a; xf1; x7b; xe7; xec; xd8; xbb; x0c; x31; x20; x56];
  [x43; xd6; x34; x49; x43; x93; x89; x52; xf5; x22; x12; xa5; x06; xf8; xdb; xb9; x22; x1c; xf4; xc3; x8f; x87; x6d; x8f; x30; x97; x9d; x4d; x2a; x6a; x67; x37; xd6; x85; xe2; x77; xf4; xb5; x46; x66; x93; x61; x8f; x6c; x67; xff; xe8; x40; xdd; x94; xb5; xab; x11; x73; xec; xa6; x4d; xec; x8c; x65; xf3; x46; xc8; x7e; xc7; x2e; xa2; x1d; x3f; x8f; x5e; x9b; x13; xcd; x01; x6c; x77; x1d; x0f; x13; xb8; x9f; x98; xa2; xcf; x8f; x4c; x21; xd5; x9d; x9b; x39; x23; xf7; xaa; x6d];
  [x47; xbe; x3d; xeb; x62; x75; x3a; x5f; xb8; xa0; xbd; x8e; x54; x38; xea; xf7; x99; x72; x74; x45; x31; xe5; xc3; x00; x51; xd5; x27; x16; xe7; xe9; x04; x13; xa2; x8e; xad; xac; xbf; x04; x3b; x58; x84; xe8; x8b; x14; xe8; x43; xb7; x29; xdb; xc5; x10; x08; x3b; x58; x1e; x2b; xaa; xbb; xb3; x8e; xe5; x49; x54; x2b; xfe; x9c; xdc; x6a; xd2; x14; x98; x78; x0b; xdd; x48; x8b; x3f; xab; x1b; x3c; x0a; xc6; x79; xf9; xff; xe1; x0f; xda; x93; xd6; x2d; x7c; x2d; xde; x68; x44];
  [x9e; x46; x19; x94; x5e; x35; xbb; x51; x54; xc7; xdd; x23; x4c; xdc; xe6; x33; x62; x99; x7f; x44; xd6; xb6; xa5; x93; x63; xbd; x44; xfb; x6f; x7c; xce; x6c; xce; x07; x63; xf8; xc6; xd8; x9a; x4b; x28; x0c; x5d; x43; x31; x35; x11; x21; x2c; x77; x7a; x65; xc5; x66; xa8; xd4; x52; x73; x24; x63; x7e; x42; xa6; x5d; xca; x22; xac; xde; x88; xc6; x94; x1a; xf8; x1f; xae; xbb; xf7; x6e; x06; xb9; x0f; x58; x59; x8d; x38; x8c; xad; x88; xa8; x2c; x9f; xe7; xbf; x9a; xf2; x58];
  [x68; x3e; xe7; x8d; xab; xcf; x0e; xe9; xa5; x76; x7e; x37; x9f; x6f; x03; x54; x82; x59; x01; xbe; x0b; x5b; x49; xf0; x36; x1e; xf4; xa7; xc4; x29; x76; x57; xf6; xcd; x0e; x71; xbf; x64; x5a; x4b; x3c; x29; x2c; x46; x38; xe5; x4c; xb1; xb9; x3a; x0b; xd5; x56; xd0; x43; x36; x70; x48; x5b; x18; x24; x37; xf9; x6a; x88; xa8; xc6; x09; x45; x02; x20; x32; x73; x89; x55; x4b; x13; x36; xe0; xd2; x9f; x28; x33; x3c; x23; x36; xe2; x83; x8f; xc1; xae; x0c; xbb; x25; x1f; x70];
  [xed; x6c; x61; xe4; xf8; xb0; xa8; xc3; x7d; xa8; x25; x9e; x0e; x66; x00; xf7; x9c; xa5; xbc; xf4; x1f; x06; xe3; x61; xe9; x0b; xc4; xbd; xbf; x92; x0c; x2e; x13; xc1; xbe; x7c; xd9; xf6; x18; x9d; xe4; xdb; xbf; x74; xe6; x06; x4a; x84; xd6; x60; x4e; xac; x22; xb5; xf5; x20; x51; x5e; x95; x50; xc0; x5b; x0a; x72; x35; x5a; x80; x9b; x43; x09; x3f; x0c; xfc; xab; x42; x62; x37; x8b; x4e; xe8; x46; x93; x22; x5c; xf3; x17; x14; x69; xec; xf0; x4e; x14; xbb; x9c; x9b; x0e];
  [xad; x20; x57; xfb; x8f; xd4; xba; xfb; x0e; x0d; xf9; xdb; x6b; x91; x81; xee; xbf; x43; x55; x63; x52; x31; x81; xd4; xd8; x7b; x33; x3f; xeb; x04; x11; x22; xee; xbe; xb1; x5d; xd5; x9b; xee; x8d; xb9; x3f; x72; x0a; x37; xab; xc3; xc9; x91; xd7; x68; x1c; xbf; xf1; xa8; x44; xde; x3c; xfd; x1c; x19; x44; x6d; x36; x14; x8c; xbc; xf2; x43; x17; x3c; x9e; x3b; x6c; x85; xb5; xfc; x26; xda; x2e; x97; xfb; xa7; x68; x0e; x2f; xb8; xcc; x44; x32; x59; xbc; xe6; xa4; x67; x41];
  [x00; x27; xf6; x76; x28; x9d; x3b; x64; xeb; x68; x76; x0e; x40; x9d; x1d; x5d; x84; x06; xfc; x21; x03; x43; x4b; x1b; x6a; x24; x55; x22; x7e; xbb; x38; x79; xee; x8f; xce; xf8; x65; x26; xbe; xc2; x2c; xd6; x80; xe8; x14; xff; x67; xe9; xee; x4e; x36; x2f; x7e; x6e; x2e; xf1; xf6; xd2; x7e; xcb; x70; x33; xb3; x34; xcc; xd6; x81; x86; xee; x91; xc5; xcd; x53; xa7; x85; xed; x9c; x10; x02; xce; x83; x88; x80; x58; xc1; x85; x74; xed; xe4; x65; xfe; x2d; x6e; xfc; x76; x11];
  [x9b; x61; x9c; x5b; xd0; x6c; xaf; xb4; x80; x84; xa5; xb2; xf4; xc9; xdf; x2d; xc4; x4d; xe9; xeb; x02; xa5; x4f; x3d; x34; x5f; x7d; x67; x4c; x3a; xfc; x08; xb8; x0e; x77; x49; x89; xe2; x90; xdb; xa3; x40; xf4; xac; x2a; xcc; xfb; x98; x9b; x87; xd7; xde; xfe; x4f; x35; x21; xb6; x06; x69; xf2; x54; x3e; x6a; x1f; xea; x34; x07; xd3; x99; xc1; xa4; x60; xd6; x5c; x16; x31; xb6; x85; xc0; x40; x95; x82; x59; xf7; x23; x3e; x33; xe2; xd1; x00; xb9; x16; x01; xad; x2f; x4f];
  [x54; x4e; xae; x94; x41; xb2; xbe; x44; x6c; xef; x57; x18; x51; x1c; x54; x5f; x98; x04; x8d; x36; x2d; x6b; x1e; xa6; xab; xf7; x2e; x97; xa4; x84; x54; x44; x38; xb6; x3b; xb7; x1d; xd9; x2c; x96; x08; x9c; x12; xfc; xaa; x77; x05; xe6; x89; x16; xb6; xf3; x39; x9b; x61; x6f; x81; xee; x44; x29; x5f; x99; x51; x34; x7c; x7d; xea; x9f; xd0; xfc; x52; x91; xf6; x5c; x93; xb0; x94; x6c; x81; x4a; x40; x5c; x28; x47; xaa; x9a; x8e; x25; xb7; x93; x28; x04; xa6; x9c; xb8; x10];
  [x9c; x28; x18; x97; x49; x47; x59; x3d; x26; x3f; x53; x24; xc5; xf8; xeb; x12; x15; xef; xc3; x14; xcb; xbf; x62; x02; x8e; x51; xb7; x77; xd5; x78; xb8; x20; x6e; xf0; x45; x5a; xbe; x41; x39; x75; x65; x5f; x9c; x6d; xed; xae; x7c; xd0; xb6; x51; xff; x72; x9c; x6b; x77; x11; xa9; x4d; x0d; xef; xd9; xd1; xd2; x17; x6a; x3e; x3f; x07; x18; xaf; xf2; x27; x69; x10; x52; xd7; x19; xe5; x3f; xfd; x22; x00; xa6; x3c; x2c; xb7; xe3; x22; xa7; xc6; x65; xcc; x63; x4f; x21; x72];
  [x93; xa6; x07; x53; x40; x7f; xe3; xb4; x95; x67; x33; x2f; xd7; x14; xa7; xab; x99; x10; x76; x73; xa7; xd0; xfb; xd6; xc9; xcb; x71; x81; xc5; x48; xdf; x5f; xc9; x29; x3b; xf4; xb9; xb7; x9d; x1d; x75; x8f; x51; x4f; x4a; x82; x05; xd6; xc4; x9d; x2f; x31; xbd; x72; xc0; xf2; xb0; x45; x15; x5a; x85; xac; x24; x1f; xaa; x05; x95; x8e; x32; x08; xd6; x24; xee; x20; x14; x0c; xd1; xc1; x48; x47; xa2; x25; xfb; x06; x5c; xe4; xff; xc7; xe6; x95; xe3; x2a; x9e; x73; xba; x00];
  [xd6; x90; x87; x5c; xde; x98; x2e; x59; xdf; xa2; xc2; x45; xd3; xb7; xbf; xe5; x22; x99; xb4; xf9; x60; x3b; x5a; x11; xf3; x78; xad; x67; x3e; x3a; x28; x03; x26; xbb; x88; xea; xf5; x26; x44; xae; xfb; x3b; x97; x84; xd9; x79; x06; x36; x50; x4e; x69; x26; x0c; x03; x9f; x5c; x26; xd2; x18; xd5; xe7; x7d; x29; x72; x39; xb9; x0c; xbe; xc7; x1d; x24; x48; x80; x30; x63; x8b; x4d; x9b; xf1; x32; x08; x93; x28; x02; x0d; xc9; xdf; xd3; x45; x19; x27; x46; x68; x29; xe1; x05];
  [x5a; x49; x9c; x2d; xb3; xee; x82; xba; x7c; xb9; x2b; xf1; xfc; xc8; xef; xce; xe0; xd1; xb5; x93; xae; xab; x2d; xb0; x9b; x8d; x69; x13; x9c; x0c; xc0; x39; x50; x45; x2c; x24; xc8; xbb; xbf; xad; xd9; x81; x30; xd0; xec; x0c; xc8; xbc; x92; xdf; xc8; xf5; xa6; x66; x35; x84; x4c; xce; x58; x82; xd3; x25; xcf; x78; x68; x9d; x48; x31; x8e; x6b; xae; x15; x87; xf0; x2b; x9c; xab; x1c; x85; xaa; x05; xfa; x4e; xf0; x97; x5a; xa7; xc9; x32; xf8; x3f; x6b; x07; x52; x6b; x00];
  [x1c; x78; x95; x9d; xe1; xcf; xe0; x29; xe2; x10; x63; x96; x18; xdf; x81; xb6; x39; x6b; x51; x70; xd3; x39; xdf; x57; x22; x61; xc7; x3b; x44; xe3; x57; x4d; x2d; x08; xce; xb9; x16; x7e; xcb; xf5; x29; xbc; x7a; x41; x4c; xf1; x07; x34; xab; xa7; xf4; x2b; xce; x6b; xb3; xd4; xce; x75; x9f; x1a; x56; xe9; xe2; x7d; xcb; x5e; xa5; xb6; xf4; xd4; x70; xde; x99; xdb; x85; x5d; x7f; x52; x01; x48; x81; x9a; xee; xd3; x40; xc4; xc9; xdb; xed; x29; x60; x1a; xaf; x90; x2a; x6b];
  [x97; x1e; xe6; x9a; xfc; xf4; x23; x69; xd1; x5f; x3f; xe0; x1d; x28; x35; x57; x2d; xd1; xed; xe6; x43; xae; x64; xa7; x4a; x3e; x2d; xd1; xe9; xf4; xd8; x5f; x0a; xd8; xb2; x5b; x24; xf3; xeb; x77; x9b; x07; xb9; x2f; x47; x1b; x30; xd8; x33; x73; xee; x4c; xf2; xe6; x47; xc6; x09; x21; x6c; x27; xc8; x12; x58; x46; xd9; x62; x10; x2a; xb2; xbe; x43; x4d; x16; xdc; x31; x38; x75; xfb; x65; x70; xd7; x68; x29; xde; x7b; x4a; x0d; x18; x90; x67; xb1; x1c; x2b; x2c; xb3; x05];
  [xfd; xa8; x4d; xd2; xcc; x5e; xc0; xc8; x83; xef; xdf; x05; xac; x1a; xcf; xa1; x61; xcd; xf9; x7d; xf2; xef; xbe; xdb; x99; x1e; x47; x7b; xa3; x56; x55; x3b; x95; x81; xd5; x7a; x2c; xa4; xfc; xf7; xcc; xf3; x33; x43; x6e; x28; x14; x32; x9d; x97; x0b; x34; x0d; x9d; xc2; xb6; xe1; x07; x73; x56; x48; x1a; x77; x31; x82; xd4; x4d; xe1; x24; xc5; xb0; x32; xb6; xa4; x2b; x1a; x54; x51; xb3; xed; xf3; x5a; x2b; x28; x48; x60; xd1; xa3; xeb; x36; x73; x7a; xd2; x79; xc0; x4f];
  [x7f; x2f; xbf; x89; xb0; x38; xc9; x51; xa7; xe9; xdf; x02; x65; xbd; x97; x24; x53; xe4; x80; x78; x9c; xc0; xff; xff; x92; x8e; xf9; xca; xce; x67; x45; x12; x0d; xc5; x86; x0c; x44; x8b; x34; xdc; x51; xe6; x94; xcc; xc9; xcb; x37; x13; xb9; x3c; x3e; x64; x4d; xf7; x22; x64; x08; xcd; xe3; xba; xc2; x70; x11; x24; xb4; x73; xc4; x0a; x86; xab; xf9; x3f; x35; xe4; x13; x01; xee; x1d; x91; xf0; xaf; xc4; xc6; xeb; x60; x50; xe7; x4a; x0d; x00; x87; x6c; x96; x12; x86; x3f];
  [xde; x0d; x2a; x78; xc9; x0c; x9a; x55; x85; x83; x71; xea; xb2; xcd; x1d; x55; x8c; x23; xef; x31; x5b; x86; x62; x7f; x3d; x61; x73; x79; x76; xa7; x4a; x50; x13; x8d; x04; x36; xfa; xfc; x18; x9c; xdd; x9d; x89; x73; xb3; x9d; x15; x29; xaa; xd0; x92; x9f; x0b; x35; x9f; xdc; xd4; x19; x8a; x87; xee; x7e; xf5; x26; xb1; xef; x87; x56; xd5; x2c; xab; x0c; x7b; xf1; x7a; x24; x62; xd1; x80; x51; x67; x24; x5a; x4f; x34; x5a; xc1; x85; x69; x30; xba; x9d; x3d; x94; x41; x40];
  [x96; xcc; xeb; x43; xba; xee; xc0; xc3; xaf; x9c; xea; x26; x9c; x9c; x74; x8d; xc6; xcc; x77; x1c; xee; x95; xfa; xd9; x0f; x34; x84; x76; xd9; xa1; x20; x14; xdd; xaa; x6c; xa2; x43; x77; x21; x4b; xce; xb7; x8a; x64; x24; xb4; xa6; x47; xe3; xc9; xfb; x03; x7a; x4f; x1d; xcb; x19; xd0; x00; x98; x42; x31; xd9; x12; x4f; x59; x37; xd3; x99; x77; xc6; x00; x7b; xa4; x3a; xb2; x40; x51; x3c; x5e; x95; xf3; x5f; xe3; x54; x28; x18; x44; x12; xa0; x59; x43; x31; x92; x4f; x1b];
  [x51; x09; x15; x89; x9d; x10; x5c; x3e; x6a; x69; xe9; x2d; x91; xfa; xce; x39; x20; x30; x5f; x97; x3f; xe4; xea; x20; xae; x2d; x13; x7f; x2a; x57; x9b; x23; xb1; x66; x98; xa4; x30; x30; xcf; x33; x59; x48; x5f; x21; xd2; x73; x1f; x25; xf6; xf4; xde; x51; x40; xaa; x82; xab; xf6; x23; x9a; x6f; xd5; x91; xf1; x5f; x68; x90; x2d; xac; x33; xd4; x9e; x81; x23; x85; xc9; x5f; x79; xab; x83; x28; x3d; xeb; x93; x55; x80; x72; x45; xef; xcb; x36; x8f; x75; x6a; x52; x0c; x02];
  [xbc; xdb; xd8; x9e; xf8; x34; x98; x77; x6c; xa4; x7c; xdc; xf9; xaa; xf2; xc8; x74; xb0; xe1; xa3; xdc; x4c; x52; xa9; x77; x38; x31; x15; x46; xcc; xaa; x02; x89; xcc; x42; xf0; x59; xef; x31; xe9; xb6; x4b; x12; x8e; x9d; x9c; x58; x2c; x97; x59; xc7; xae; x8a; xe1; xc8; xad; x0c; xc5; x02; x56; x0a; xfe; x2c; x45; xdf; x77; x78; x64; xa0; xf7; xa0; x86; x9f; x7c; x60; x0e; x27; x64; xc4; xbb; xc9; x11; xfb; xf1; x25; xea; x17; xab; x7b; x87; x4b; x30; x7b; x7d; xfb; x4c];
  [xfe; x75; x9b; xb8; x6c; x3d; xb4; x72; x80; xdc; x6a; x9c; xd9; x94; xc6; x54; x9f; x4c; xe3; x3e; x37; xaa; xc3; xb8; x64; x53; x07; x39; x2b; x62; xb4; x14; x12; xef; x89; x97; xc2; x99; x86; xe2; x0d; x19; x57; xdf; x71; xcd; x6e; x2b; xd0; x70; xc9; xec; x57; xc8; x43; xc3; xc5; x3a; x4d; x43; xbc; x4c; x1d; x5b; x26; x9f; x0a; xcc; x15; x26; xfb; xb6; xe5; xcc; x8d; xb8; x2b; x0e; x4f; x3a; x05; xa7; x69; x33; x8b; x49; x01; x13; xd1; x2d; x59; x58; x12; xf7; x98; x2f];
  [x56; x9e; x0f; xb5; x4c; xa7; x94; x0c; x20; x13; x8e; x8e; xa9; xf4; x1f; x5b; x67; x0f; x30; x82; x21; xcc; x2a; x9a; xf9; xaa; x06; xd8; x49; xe2; x6a; x3a; x01; xa7; x54; x4f; x44; xae; x12; x2e; xde; xd7; xcb; xa9; xf0; x3e; xfe; xfc; xe0; x5d; x83; x75; x0d; x89; xbf; xce; x54; x45; x61; xe7; xe9; x62; x80; x1d; x5a; x7c; x90; xa9; x85; xda; x7a; x65; x62; x0f; xb9; x91; xb5; xa8; x0e; x1a; xe9; xb4; x34; xdf; xfb; x1d; x0e; x8d; xf3; x5f; xf2; xae; xe8; x8c; x8b; x29];
  [xb2; x0c; xf7; xef; x53; x79; x92; x2a; x76; x70; x15; x79; x2a; xc9; x89; x4b; x6a; xcf; xa7; x30; x7a; x45; x18; x94; x85; xe4; x5c; x4d; x40; xa8; xb8; x34; xde; x65; x21; x0a; xea; x72; x7a; x83; xf6; x79; xcf; x0b; xb4; x07; xab; x3f; x70; xae; x38; x77; xc7; x36; x16; x52; xdc; xd7; xa7; x03; x18; x27; xa6; x6b; x35; x33; x69; x83; xb5; xec; x6e; xc2; xfd; xfe; xb5; x63; xdf; x13; xa8; xd5; x73; x25; xb2; xa4; x9a; xaa; x93; xa2; x6a; x1c; x5e; x46; xdd; x2b; xd6; x71];
  [x80; xdf; x78; xd3; x28; xcc; x33; x65; xb4; xa4; x0f; x0a; x79; x43; xdb; xf6; x5a; xda; x01; xf7; xf9; x5f; x64; xe3; xa4; x2b; x17; xf3; x17; xf3; xd5; x74; xf5; x5e; xf7; xb1; xda; xb5; x2d; xcd; xf5; x65; xb0; x16; xcf; x95; x7f; xd7; x85; xf0; x49; x3f; xea; x1f; x57; x14; x3d; x2b; x2b; x26; x21; x36; x33; x1c; x81; xca; xd9; x67; x54; xe5; x6f; xa8; x37; x8c; x29; x2b; x75; x7c; x8b; x39; x3b; x62; xac; xe3; x92; x08; x6d; xda; x8c; xd9; xe9; x47; x45; xcc; xeb; x4a];
  [xc9; x01; x6d; x27; x1b; x07; xf0; x12; x70; x8c; xc4; x86; xc5; xba; xb8; xe7; xa9; xfb; xd6; x71; x9b; x12; x08; x53; x92; xb7; x3d; x5a; xf9; xfb; x88; x5d; x10; xb6; x54; x73; x9e; x8d; x40; x0b; x6e; x5b; xa8; x5b; x53; x32; x6b; x80; x07; xa2; x58; x4a; x03; x3a; xe6; xdb; x2c; xdf; xa1; xc9; xdd; xd9; x3b; x17; xdf; x72; x58; xfe; x1e; x0f; x50; x2b; xc1; x18; x39; xd4; x2e; x58; xd6; x58; xe0; x3a; x67; xc9; x8e; x27; xed; xe6; x19; xa3; x9e; xb1; x13; xcd; xe1; x06];
  [x23; x6f; x16; x6f; x51; xad; xd0; x40; xbe; x6a; xab; x1f; x93; x32; x8e; x11; x8e; x08; x4d; xa0; x14; x5e; xe3; x3f; x66; x62; xe1; x26; x35; x60; x80; x30; x53; x03; x5b; x9e; x62; xaf; x2b; x47; x47; x04; x8d; x27; x90; x0b; xaa; x3b; x27; xbf; x43; x96; x46; x5f; x78; x0c; x13; x7b; x83; x8d; x1a; x6a; x3a; x7f; x0b; x80; x3d; x5d; x39; x44; xe6; xf7; xf6; xed; x01; xc9; x55; xd5; xa8; x95; x39; x63; x2c; x59; x30; x78; xcd; x68; x7e; x30; x51; x2e; xed; xfd; xd0; x30];
  [xb3; x33; x12; xf2; x1a; x4d; x59; xe0; x9c; x4d; xcc; xf0; x8e; xe7; xdb; x1b; x77; x9a; x49; x8f; x7f; x18; x65; x69; x68; x98; x09; x2c; x20; x14; x92; x0a; x50; x47; xb8; x68; x1e; x97; xb4; x9c; xcf; xbb; x64; x66; x29; x72; x95; xa0; x2b; x41; xfa; x72; x26; xe7; x8d; x5c; xd9; x89; xc5; x51; x43; x08; x15; x46; x2e; xa0; xb9; xae; xc0; x19; x90; xbc; xae; x4c; x03; x16; x0d; x11; xc7; x55; xec; x32; x99; x65; x01; xf5; x6d; x0e; xfe; x5d; xca; x95; x28; x0d; xca; x3b];
  [xa4; x62; x5d; x3c; xbc; x31; xf0; x40; x60; x7a; xf0; xcf; x3e; x8b; xfc; x19; x45; xb5; x0f; x13; xa2; x3d; x18; x98; xcd; x13; x8f; xae; xdd; xde; x31; x56; xbf; x01; xcc; x9e; xb6; x8e; x68; x9c; x6f; x89; x44; xa6; xad; x83; xbc; xf0; xe2; x9f; x7a; x5f; x5f; x95; x2d; xca; x41; x82; xf2; x8d; x03; xb4; xa8; x4e; x02; xd2; xca; xf1; x0a; x46; xed; x2a; x83; xee; x8c; xa4; x05; x53; x30; x46; x5f; x1a; xf1; x49; x45; x77; x21; x91; x63; xa4; x2c; x54; x30; x09; xce; x24];
  [x06; xc1; x06; xfd; xf5; x90; xe8; x1f; xf2; x10; x88; x5d; x35; x68; xc4; xb5; x3e; xaf; x8c; x6e; xfe; x08; x78; x82; x4b; xd7; x06; x8a; xc2; xe3; xd4; x41; x85; x0b; xf3; xfd; x55; xa1; xcf; x3f; xa4; x2e; x37; x36; x8e; x16; xf7; xd2; x44; xf8; x92; x64; xde; x64; xe0; xb2; x80; x42; x4f; x32; xa7; x28; x99; x54; x2e; x1a; xee; x63; xa7; x32; x6e; xf2; xea; xfd; x5f; xd2; xb7; xe4; x91; xae; x69; x4d; x7f; xd1; x3b; xd3; x3b; xbc; x6a; xff; xdc; xc0; xde; x66; x1b; x49];
  [xa7; x32; xea; xc7; x3d; xb1; xf5; x98; x98; xdb; x16; x7e; xcc; xf8; xd5; xe3; x47; xd9; xf8; xcb; x52; xbf; x0a; xac; xac; xe4; x5e; xc8; xd0; x38; xf3; x08; xa1; x64; xda; xd0; x8e; x4a; xf0; x75; x4b; x28; xe2; x67; xaf; x2c; x22; xed; xa4; x7b; x7b; x1f; x79; xa3; x34; x82; x67; x8b; x01; xb7; xb0; xb8; xf6; x4c; xbd; x73; x1a; x99; x21; xa8; x83; xc3; x7a; x0c; x32; xdf; x01; xbc; x27; xab; x63; x70; x77; x84; x1b; x33; x3d; xc1; x99; x8a; x07; xeb; x82; x4a; x0d; x53];
  [x25; x48; xf9; xe1; x30; x36; x4c; x00; x5a; x53; xab; x8c; x26; x78; x2d; x7e; x8b; xff; x84; xcc; x23; x23; x48; xc7; xb9; x70; x17; x10; x3f; x75; xea; x65; x9e; xbf; x9a; x6c; x45; x73; x69; x6d; x80; xa8; x00; x49; xfc; xb2; x7f; x25; x50; xb8; xcf; xc8; x12; xf4; xac; x2b; x5b; xbd; xbf; x0c; xe0; xe7; xb3; x0d; x63; x63; x09; xe2; x3e; xfc; x66; x3d; x6b; xcb; xb5; x61; x7f; x2c; xd6; x81; x1a; x3b; x44; x13; x42; x04; xbe; x0f; xdb; xa1; xe1; x21; x19; xec; xa4; x02];
  [xa2; xb8; x24; x3b; x9a; x25; xe6; x5c; xb8; xa0; xaf; x45; xcc; x7a; x57; xb8; x37; x70; xa0; x8b; xe8; xe6; xcb; xcc; xbf; x09; x78; x12; x51; x3c; x14; x3d; x5f; x79; xcf; xf1; x62; x61; xc8; xf5; xf2; x57; xee; x26; x19; x86; x8c; x11; x78; x35; x06; x1c; x85; x24; x21; x17; xcf; x7f; x06; xec; x5d; x2b; xd1; x36; x57; x45; x15; x79; x91; x27; x6d; x12; x0a; x3a; x78; xfc; x5c; x8f; xe4; xd5; xac; x9b; x17; xdf; xe8; xb6; xbd; x36; x59; x28; xa8; x5b; x88; x17; xf5; x2e];
  [xdc; xae; x58; x8c; x4e; x97; x37; x46; xa4; x41; xf0; xab; xfb; x22; xef; xb9; x8a; x71; x80; xe9; x56; xd9; x85; xe1; xa6; xa8; x43; xb1; xfa; x78; x1b; x2f; x51; x2f; x5b; x30; xfb; xbf; xee; x96; xb8; x96; x95; x88; xad; x38; xf9; xd3; x25; xdd; xd5; x46; xc7; x2d; xf5; xf0; x95; x00; x3a; xbb; x90; x82; x96; x57; x01; xe1; x20; x0a; x43; xb8; x1a; xf7; x47; xec; xf0; x24; x8d; x65; x93; xf3; xd1; xee; xe2; x6e; xa8; x09; x75; xcf; xe1; xa3; x2a; xdc; x35; x3e; xc4; x7d];
  [xc3; xd9; x7d; x88; x65; x66; x96; x85; x55; x53; xb0; x4b; x31; x9b; x0f; xc9; xb1; x79; x20; xef; xf8; x8d; xe0; xc6; x2f; xc1; x8c; x75; x16; x20; xf7; x7e; x18; x97; x3e; x27; x5c; x2a; x78; x5a; x94; xfd; x4e; x5e; x99; xc6; x76; x35; x3e; x7d; x23; x1f; x05; xd8; x2e; x0f; x99; x0a; xd5; x82; x1d; xb8; x4f; x04; xd9; xe3; x07; xa9; xc5; x18; xdf; xc1; x59; x63; x4c; xce; x1d; x37; xb3; x57; x49; xbb; x01; xb2; x34; x45; x70; xca; x2e; xdd; x30; x9c; x3f; x82; x79; x7f];
  [xe8; x13; xb5; xa3; x39; xd2; x34; x83; xd8; xa8; x1f; xb9; xd4; x70; x36; xc1; x33; xbd; x90; xf5; x36; x41; xb5; x12; xb4; xd9; x84; xd7; x73; x03; x4e; x0a; xba; x87; xf5; x68; xf0; x1f; x9c; x6a; xde; xc8; x50; x00; x4e; x89; x27; x08; xe7; x5b; xed; x7d; x55; x99; xbf; x3c; xf0; xd6; x06; x1c; x43; xb0; xa9; x64; x19; x29; x7d; x5b; xa1; xd6; xb3; x2e; x35; x82; x3a; xd5; xa0; xf6; xb4; xb0; x47; x5d; xa4; x89; x43; xce; x56; x71; x6c; x34; x18; xce; x0a; x7d; x1a; x07];
  [x0b; xba; x87; xc8; xaa; x2d; x07; xd3; xee; x62; xa5; xbf; x05; x29; x26; x01; x8b; x76; xef; xc0; x02; x30; x54; xcf; x9c; x7e; xea; x46; x71; xcc; x3b; x2c; x31; x44; xe1; x20; x52; x35; x0c; xcc; x41; x51; xb1; x09; x07; x95; x65; x0d; x36; x5f; x9d; x20; x1b; x62; xf5; x9a; xd3; x55; x77; x61; xf7; xbc; x69; x7c; x5f; x29; xe8; x04; xeb; xd7; xf0; x07; x7d; xf3; x50; x2f; x25; x18; xdb; x10; xd7; x98; x17; x17; xa3; xa9; x51; xe9; x1d; xa5; xac; x22; x73; x9a; x5a; x6f];
  [xc5; xc6; x41; x2f; x0c; x00; xa1; x8b; x9b; xfb; xfe; x0c; xc1; x79; x9f; xc4; x9f; x1c; xc5; x3c; x70; x47; xfa; x4e; xca; xaf; x47; xe1; xa2; x21; x4e; x49; xbe; x44; xd9; xa3; xeb; xd4; x29; xe7; x9e; xaf; x78; x80; x40; x09; x9e; x8d; x03; x9c; x86; x47; x7a; x56; x25; x45; x24; x3b; x8d; xee; x80; x96; xab; x02; x9a; x0d; xe5; xdd; x85; x8a; xa4; xef; x49; xa2; xb9; x0f; x4e; x22; x9a; x21; xd9; xf6; x1e; xd9; x1d; x1f; x09; xfa; x34; xbb; x46; xea; xcb; x76; x5d; x6b];
  [x94; xd9; x0c; xec; x6c; x55; x57; x88; xba; x1d; xd0; x5c; x6f; xdc; x72; x64; x77; xb4; x42; x8f; x14; x69; x01; xaf; x54; x73; x27; x85; xf6; x33; xe3; x0a; x22; x25; x78; x1e; x17; x41; xf9; xe0; xd3; x36; x69; x03; x74; xae; xe6; xf1; x46; xc7; xfc; xd0; xa2; x3e; x8b; x40; x3e; x31; xdd; x03; x9c; x86; xfb; x16; x62; x09; xb6; x33; x97; x19; x8e; x28; x33; xe1; xab; xd8; xb4; x72; xfc; x24; x3e; xd0; x91; x09; xed; xf7; x11; x48; x75; xd0; x70; x8f; x8b; xe3; x81; x3f];
  [xfe; xaf; xd9; x7e; xcc; x0f; x91; x7f; x4b; x87; x65; x24; xa1; xb8; x5c; x54; x04; x47; x0c; x4b; xd2; x7e; x39; xa8; x93; x09; xf5; x04; xc1; x0f; x51; x50; x24; xc8; x17; x5f; x35; x7f; xdb; x0a; xa4; x99; x42; xd7; xc3; x23; xb9; x74; xf7; xea; xf8; xcb; x8b; x3e; x7c; xd5; x3d; xdc; xde; x4c; xd3; xe2; xd3; x0a; x9d; x24; x6e; x33; xc5; x0f; x0c; x6f; xd9; xcf; x31; xc3; x19; xde; x5e; x74; x1c; xfe; xee; x09; x00; xfd; xd6; xf2; xbe; x1e; xfa; xf0; x8b; x15; x7c; x12];
  [xa2; x79; x98; x2e; x42; x7c; x19; xf6; x47; x36; xca; x52; xd4; xdd; x4a; xa4; xcb; xac; x4e; x4b; xc1; x3f; x41; x9b; x68; x4f; xef; x07; x7d; xf8; x4e; x35; x74; xb9; x51; xae; xc4; x8f; xa2; xde; x96; xfe; x4d; x74; xd3; x73; x99; x1d; xa8; x48; x38; x87; x0b; x68; x40; x62; x95; xdf; x67; xd1; x79; x24; xd8; x4e; x75; xd9; xc5; x60; x22; xb5; xe3; xfe; xb8; xb0; x41; xeb; xfc; x2e; x35; x50; x3c; x65; xf6; xa9; x30; xac; x08; x88; x6d; x23; x39; x05; xd2; x92; x2d; x30];
  [x3d; x28; xa4; xbc; xa2; xc1; x13; x78; xd9; x3d; x86; xa1; x91; xf0; x62; xed; x86; xfa; x68; xc2; xb8; xbc; xc7; xae; x4c; xae; x1c; x6f; xb7; xd3; xe5; x10; x77; xf1; xe0; xe4; xb6; x6f; xbc; x2d; x93; x6a; xbd; xa4; x29; xbf; xe1; x04; xe8; xf6; x7a; x78; xd4; x66; x19; x5e; x60; xd0; x26; xb4; x5e; x5f; xdc; x0e; x67; x8e; xda; x53; xd6; xbf; x53; x54; x41; xf6; xa9; x24; xec; x1e; xdc; xe9; x23; x8a; x57; x03; x3b; x26; x87; xbf; x72; xba; x1c; x36; x51; x6c; xb4; x45];
  [xa1; x7f; x4f; x31; xbf; x2a; x40; xa9; x50; xf4; x8c; x8e; xdc; xf1; x57; xe2; x84; xbe; xa8; x23; x4b; xd5; xbb; x1d; x3b; x71; xcb; x6d; xa3; xbf; x77; x21; xe4; xe3; x7f; x8a; xdd; x4d; x9d; xce; x30; x0e; x62; x76; x56; x64; x13; xab; x58; x99; x0e; xb3; x7b; x4f; x59; x4b; xdf; x29; x12; x32; xef; x0a; x1c; x5c; x8f; xdb; x79; xfa; xbc; x1b; x08; x37; xb3; x59; x5f; xc2; x1e; x81; x48; x60; x87; x24; x83; x9c; x65; x76; x7a; x08; xbb; xb5; x8a; x7d; x38; x19; xe6; x4a];
  [x2e; xa3; x44; x53; xaa; xf6; xdb; x8d; x78; x40; x1b; xb4; xb4; xea; x88; x7d; x60; x0d; x13; x4a; x97; xeb; xb0; x5e; x03; x3e; xbf; x17; x1b; xd9; x00; x1a; x83; xfb; x5b; x98; x44; x7e; x11; x61; x36; x31; x96; x71; x2a; x46; xe0; xfc; x4b; x90; x25; xd4; x48; x34; xac; x83; x64; x3d; xa4; x5b; xbe; x5a; x68; x75; xb2; xf2; x61; xeb; x33; x09; x96; x6e; x52; x49; xff; xc9; xa8; x0f; x3d; x54; x69; x65; xf6; x7a; x10; x75; x72; xdf; xaa; xe6; xb0; x23; xb6; x29; x55; x13];
  [x18; xd5; xd1; xad; xd7; xdb; xf0; x18; x11; x1f; xc1; xcf; x88; x78; x9f; x97; x9b; x75; x14; x71; xf0; xe1; x32; x87; x01; x3a; xca; x65; x1a; xb8; xb5; x79; xfe; x83; x2e; xe2; xbc; x16; xc7; xf5; xc1; x85; x09; xe8; x19; xeb; x2b; xb4; xae; x4a; x25; x14; x37; xa6; x9d; xec; x13; xa6; x90; x15; x05; xea; x72; x59; x11; x78; x8f; xdc; x20; xac; xd4; x0f; xa8; x4f; x4d; xac; x94; xd2; x9a; x9a; x34; x04; x36; xb3; x64; x2d; x1b; xc0; xdb; x3b; x5f; x90; x95; x9c; x7e; x4f];
  [x2e; x30; x81; x57; xbc; x4b; x67; x62; x0f; xdc; xad; x89; x39; x0f; x52; xd8; xc6; xd9; xfb; x53; xae; x99; x29; x8c; x4c; x8e; x63; x2e; xd9; x3a; x99; x31; xfe; x99; x52; x35; x3d; x44; xc8; x71; xd7; xea; xeb; xdb; x1c; x3b; xcd; x8b; x66; x94; xa4; xf1; x9e; x49; x92; x80; xc8; xad; x44; xa1; xc4; xee; x42; x19; x92; x49; x23; xae; x19; x53; xac; x7d; x92; x3e; xea; x0c; x91; x3d; x1b; x2c; x22; x11; x3c; x25; x94; xe4; x3c; x55; x75; xca; xf9; x4e; x31; x65; x0a; x2a];
  [xc2; x27; xf9; xf7; x7f; x93; xb7; x2d; x35; xa6; xd0; x17; x06; x1f; x74; xdb; x76; xaf; x55; x11; xa2; xf3; x82; x59; xed; x2d; x7c; x64; x18; xe2; xf6; x4c; x3a; x79; x1c; x3c; xcd; x1a; x36; xcf; x3b; xbc; x35; x5a; xac; xbc; x9e; x2f; xab; xa6; xcd; xa8; xe9; x60; xe8; x60; x13; x1a; xea; x6d; x9b; xc3; x5d; x05; xb6; x5b; x8d; xc2; x7c; x22; x19; xb1; xab; xff; x4d; x77; xbc; x4e; xe2; x07; x89; x2c; xa3; xe4; xce; x78; x3c; xa8; xb6; x24; xaa; x10; x77; x30; x1a; x12];
  [x97; x4a; x03; x9f; x5e; x5d; xdb; xe4; x2d; xbc; x34; x30; x09; xfc; x53; xe1; xb1; xd3; x51; x95; x91; x46; x05; x46; x2d; xe5; x40; x7a; x6c; xc7; x3f; x33; xc9; x83; x74; xc7; x3e; x71; x59; xd6; xaf; x96; x2b; xb8; x77; xe0; xbf; x88; xd3; xbc; x97; x10; x23; x28; x9e; x28; x9b; x3a; xed; x6c; x4a; xb9; x7b; x52; x2e; x48; x5b; x99; x2a; x99; x3d; x56; x01; x38; x38; x6e; x7c; xd0; x05; x34; xe5; xd8; x64; x2f; xde; x35; x50; x48; xf7; xa9; xa7; x20; x9b; x06; x89; x6b];
  [x0d; x22; x70; x62; x41; xa0; x2a; x81; x4e; x5b; x24; xf9; xfa; x89; x5a; x99; x05; xef; x72; x50; xce; xc4; xad; xff; x73; xeb; x73; xaa; x03; x21; xbc; x23; x77; xdb; xc7; xb5; x8c; xfa; x82; x40; x55; xc1; x34; xc7; xf8; x86; x86; x06; x7e; xa5; xe7; xf6; xd9; xc8; xe6; x29; xcf; x9b; x63; xa7; x08; xd3; x73; x04; x05; x9e; x58; x03; x26; x79; xee; xca; x92; xc4; xdc; x46; x12; x42; x4b; x2b; x4f; xa9; x01; xe6; x74; xef; xa1; x02; x1a; x34; x04; xde; xbf; x73; x2f; x10];
  [xc6; x45; x57; x7f; xab; xb9; x18; xeb; x90; xc6; x87; x57; xee; x8a; x3a; x02; xa9; xaf; xf7; x2d; xda; x12; x27; xb7; x3d; x01; x5c; xea; x25; x7d; x59; x36; x9a; x1c; x51; xb5; xe0; xda; xb4; xa2; x06; xff; xff; x2b; x29; x60; xc8; x7a; x34; x42; x50; xf5; x5d; x37; x1f; x98; x2d; xa1; x4e; xda; x25; xd7; x6b; x3f; xac; x58; x60; x10; x7b; x8d; x4d; x73; x5f; x90; xc6; x6f; x9e; x57; x40; xd9; x2d; x93; x02; x92; xf9; xf8; x66; x64; xd0; xd6; x60; xda; x19; xcc; x7e; x7b];
  [x0d; x69; x5c; x69; x3c; x37; xc2; x78; x6e; x90; x42; x06; x66; x2e; x25; xdd; xd2; x2b; xe1; x4a; x44; x44; x1d; x95; x56; x39; x74; x01; x76; xad; x35; x42; x9b; xfa; x7c; xa7; x51; x4a; xae; x6d; x50; x86; xa3; xe7; x54; x36; x26; x82; xdb; x82; x2d; x8f; xcd; xff; xbb; x09; xba; xca; xf5; x1b; x66; xdc; xbe; x03; xf5; x75; x89; x07; x0d; xcb; x58; x62; x98; xf2; x89; x91; x54; x42; x29; x49; xe4; x6e; xe3; xe2; x23; xb4; xca; xa0; xa1; x66; xf0; xcd; xb0; xe2; x7c; x0e];
  [xa3; x85; x8c; xc4; x3a; x64; x94; xc4; xad; x39; x61; x3c; xf4; x1d; x36; xfd; x48; x4d; xe9; x3a; xdd; x17; xdb; x09; x4a; x67; xb4; x8f; x5d; x0a; x6e; x66; xf9; x70; x4b; xd9; xdf; xfe; xa6; xfe; x2d; xba; xfc; xc1; x51; xc0; x30; xf1; x89; xab; x2f; x7f; x7e; xd4; x82; x48; xb5; xee; xec; x8a; x13; x56; x52; x61; x0d; xcb; x70; x48; x4e; xf6; xbb; x2a; x6b; x8b; x45; xaa; xf0; xbc; x65; xcd; x5d; x98; xe8; x75; xba; x4e; xbe; x9a; xe4; xde; x14; xd5; x10; xc8; x0b; x7f];
  [x6f; x13; xf4; x26; xa4; x6b; x00; xb9; x35; x30; xe0; x57; x9e; x36; x67; x8d; x28; x3c; x46; x4f; xd9; xdf; xc8; xcb; xf5; xdb; xee; xf8; xbc; x8d; x1f; x0d; xa0; x13; x72; x73; xad; x9d; xac; x83; x98; x2e; xf7; x2e; xba; xf8; xf6; x9f; x57; x69; xec; x43; xdd; x2e; x1e; x31; x75; xab; xc5; xde; x7d; x90; x3a; x1d; xdc; x81; xd0; x3e; x31; x93; x16; xba; x80; x34; x1b; x85; xad; x9f; x32; x29; xcb; x21; x03; x03; x3c; x01; x28; x01; xe3; xfd; x1b; xa3; x44; x1b; x01; x00];
  [x0c; x6c; xc6; x3f; x6c; xa0; xdf; x3f; xd2; x0d; xd6; x4d; x8e; xe3; x40; x5d; x71; x4d; x8e; x26; x38; x8b; xe3; x7a; xe1; x57; x83; x6e; x91; x8d; xc4; x3a; x5c; xa7; x0a; x6a; x69; x1f; x56; x16; x6a; xbd; x52; x58; x5c; x72; xbf; xc1; xad; x66; x79; x9a; x7f; xdd; xa8; x11; x26; x10; x85; xd2; xa2; x88; xd9; x63; x2e; x23; xbd; xaf; x53; x07; x12; x00; x83; xf6; xd8; xfd; xb8; xce; x2b; xe9; x91; x2b; xe7; x84; xb3; x69; x16; xf8; x66; xa0; x68; x23; x2b; xd5; xfa; x33];
  [x16; x1e; xe4; xc5; xc6; x49; x06; x54; x35; x77; x3f; x33; x30; x64; xf8; x0a; x46; xe7; x05; xf3; xd2; xfc; xac; xb2; xa7; xdc; x56; xa2; x29; xf4; xc0; x16; xe8; xcf; x22; xc4; xd0; xc8; x2c; x8d; xcb; x3a; xa1; x05; x7b; x4f; x2b; x07; x6f; xa5; xf6; xec; xe6; xb6; xfe; xa3; xe2; x71; x0a; xb9; xcc; x55; xc3; x3c; x31; x91; x3e; x90; x43; x94; xb6; xe9; xce; x37; x56; x7a; xcb; x94; xa4; xb8; x44; x92; xba; xba; xa4; xd1; x7c; xc8; x68; x75; xae; x6b; x42; xaf; x1e; x63];
  [x9f; xfe; x66; xda; x10; x04; xe9; xb3; xa6; xe5; x16; x6c; x52; x4b; xdd; x85; x83; xbf; xf9; x1e; x61; x97; x3d; xbc; xb5; x19; xa9; x1e; x8b; x64; x99; x55; xe8; x0d; x70; xa3; xb9; x75; xd9; x47; x52; x05; xf8; xe2; xfb; xc5; x80; x72; xe1; x5d; xe4; x32; x27; x8f; x65; x53; xb5; x80; x5f; x66; x7f; x2c; x1f; x43; x19; x7b; x8f; x85; x44; x63; x02; xd6; x4a; x51; xea; xa1; x2f; x35; xab; x14; xd7; xa9; x90; x20; x1a; x44; x00; x89; x26; x3b; x25; x91; x5f; x71; x04; x7b];
  [x43; xae; xf6; xac; x28; xbd; xed; x83; xb4; x7a; x5c; x7d; x8b; x7c; x35; x86; x44; x2c; xeb; xb7; x69; x47; x40; xc0; x3f; x58; xf6; xc2; xf5; x7b; xb3; x59; xc6; xba; xe6; xc4; x80; xc2; x76; xb3; x0b; x9b; x1d; x6d; xdd; xd3; x0e; x97; x44; xf9; x0b; x45; x58; x95; x9a; xb0; x23; xe2; xcd; x57; xfa; xac; xd0; x48; x71; xe6; xab; x7d; xe4; x26; x0f; xb6; x37; x3a; x2f; x62; x97; xa1; xd1; xf1; x94; x03; x96; xe9; x7e; xce; x08; x42; xdb; x3b; x6d; x33; x91; x41; x23; x16];
  [xf6; x7f; x26; xf6; xde; x99; xe4; xb9; x43; x08; x2c; x74; x7b; xca; x72; x77; xb1; xf2; xa4; xe9; x3f; x15; xa0; x23; x06; x50; xd0; xd5; xec; xdf; xdf; x2c; x40; x86; xf3; x1f; xd6; x9c; x49; xdd; xa0; x25; x36; x06; xc3; x9b; xcd; x29; xc3; x3d; xd7; x3d; x02; xd8; xe2; x51; x31; x92; x3b; x20; x7a; x70; x25; x4a; x6a; xed; xf6; x53; x8a; x66; xb7; x2a; xa1; x70; xd1; x1d; x58; x42; x42; x30; x61; x01; xe2; x3a; x4c; x14; x00; x40; xfc; x49; x8e; x24; x6d; x89; x21; x57];
  [xae; x1b; x18; xfd; x17; x55; x6e; x0b; xb4; x63; xb9; x2b; x9f; x62; x22; x90; x25; x46; x06; x32; xe9; xbc; x09; x55; xda; x13; x3c; xf6; x74; xdd; x8e; x57; x4e; xda; xd0; xa1; x91; x50; x5d; x28; x08; x3e; xfe; xb5; xa7; x6f; xaa; x4b; xb3; x93; x93; xe1; x7c; x17; xe5; x63; xfd; x30; xb0; xc4; xaf; x35; xc9; x03; x3d; x0c; x2b; x49; xc6; x76; x72; x99; xfc; x05; xe2; xdf; xc4; xc2; xcc; x47; x3c; x3a; x62; xdd; x84; x9b; xd2; xdc; xa2; xc7; x88; x02; x59; xab; xc2; x3e];
  [xb9; x7b; xd8; xe4; x7b; xd2; xa0; xa1; xed; x1a; x39; x61; xeb; x4d; x8b; xa9; x83; x9b; xcb; x73; xd0; xdd; xa0; x99; xce; xca; x0f; x20; x5a; xc2; xd5; x2d; xcb; xd1; x32; xae; x09; x3a; x21; xa7; xd5; xc2; xf5; x40; xdf; x87; x2b; x0f; x29; xab; x1e; xe8; xc6; xa4; xae; x0b; x5e; xac; xdb; x6a; x6c; xf6; x1b; x0e; x7e; x88; x2c; x79; xe9; xd5; xab; xe2; x5d; x6d; x92; xcb; x18; x00; x02; x1a; x1e; x5f; xae; xba; xcd; x69; xba; xbf; x5f; x8f; xe8; x5a; xb3; x48; x05; x73];
  [xee; xb8; xa8; xcb; xa3; x51; x35; xc4; x16; x5f; x11; xb2; x1d; x6f; xa2; x65; x50; x38; x8c; xab; x52; x4f; x0f; x76; xca; xb8; x1d; x41; x3b; x44; x43; x30; x34; xe3; xd6; xa1; x4b; x09; x5b; x80; x19; x3f; x35; x09; x77; xf1; x3e; xbf; x2b; x70; x22; x06; xcb; x06; x3f; x42; xdd; x45; x78; xd8; x77; x22; x5a; x58; x62; x89; xd4; x33; x82; x5f; x8a; xa1; x7f; x25; x78; xec; xb5; xc4; x98; x66; xff; x41; x3e; x37; xa5; x6f; x8e; xa7; x1f; x98; xef; x50; x89; x27; x56; x76];
  [xc0; xc8; x1f; xd5; x59; xcf; xc3; x38; xf2; xb6; x06; x05; xfd; xd2; xed; x9b; x8f; x0e; x57; xab; x9f; x10; xbf; x26; xa6; x46; xb8; xc1; xa8; x60; x41; x3f; x9d; xcf; x86; xea; xa3; x73; x70; xe1; xdc; x5f; x15; x07; xb7; xfb; x8c; x3a; x8e; x8a; x83; x31; xfc; xe7; x53; x48; x16; xf6; x13; xb6; x84; xf4; xbb; x28; x7c; x6c; x13; x6f; x5c; x2f; x61; xf2; xbe; x11; xdd; xf6; x07; xd1; xea; xaf; x33; x6f; xde; x13; xd2; x9a; x7e; x52; x5d; xf7; x88; x81; x35; xcb; x79; x1e];
  [xf1; xe3; xf7; xee; xc3; x36; x34; x01; xf8; x10; x9e; xfe; x7f; x6a; x8b; x82; xfc; xde; xf9; xbc; xe5; x08; xf9; x7f; x31; x38; x3b; x3a; x1b; x95; xd7; x65; x81; x81; xe0; xf5; xd8; x53; xe9; x77; xd9; xde; x9d; x29; x44; x0c; xa5; x84; xe5; x25; x45; x86; x0c; x2d; x6c; xdc; xf4; xf2; xd1; x39; x2d; xb5; x8a; x47; x59; xd1; x52; x92; xd3; xa4; xa6; x66; x07; xc8; x1a; x87; xbc; xe1; xdd; xe5; x6f; xc9; xc1; xa6; x40; x6b; x2c; xb8; x14; x22; x21; x1a; x41; x7a; xd8; x16];
  [x15; x62; x06; x42; x5a; x7e; xbd; xb3; xc1; x24; x5a; x0c; xcd; xe3; x9b; x87; xb7; x94; xf9; xd6; xb1; x5d; xc0; x57; xa6; x8c; xf3; x65; x81; x7c; xf8; x28; x83; x05; x4e; xd5; xe2; xd5; xa4; xfb; xfa; x99; xbd; x2e; xd7; xaf; x1f; xe2; x8f; x77; xe9; x6e; x73; xc2; x7a; x49; xde; x6d; x5a; x7a; x57; x0b; x99; x1f; xd6; xf7; xe8; x1b; xad; x4e; x34; xa3; x8f; x79; xea; xac; xeb; x50; x1e; x7d; x52; xe0; x0d; x52; x9e; x56; xc6; x77; x3e; x6d; x4d; x53; xe1; x2f; x88; x45];
  [xd6; x83; x79; x75; x5d; x34; x69; x66; xa6; x11; xaa; x17; x11; xed; xb6; x62; x8f; x12; x5e; x98; x57; x18; xdd; x7d; xdd; xf6; x26; xf6; xb8; xe5; x8f; x68; xe4; x6f; x3c; x94; x29; x99; xac; xd8; xa2; x92; x83; xa3; x61; xf1; xf9; xb5; xf3; x9a; xc8; xbe; x13; xdb; x99; x26; x74; xf0; x05; xe4; x3c; x84; xcf; x7d; xc0; x32; x47; x4a; x48; xd6; x90; x6c; x99; x32; x56; xca; xfd; x43; x21; xd5; xe1; xc6; x5d; x91; xc3; x28; xbe; xb3; x1b; x19; x27; x73; x7e; x68; x39; x67];
  [xa6; x75; x56; x38; x14; x20; x78; xef; xe8; xa9; xfd; xaa; x30; x9f; x64; xa2; xcb; xa8; xdf; x5c; x50; xeb; xd1; x4c; xb3; xc0; x4d; x1d; xba; x5a; x11; x46; xc0; x1a; x0c; xc8; x9d; xcc; x6d; xa6; x36; xa4; x38; x1b; xf4; x5c; xa0; x97; xc6; xd7; xdb; x95; xbe; xf3; xeb; xa7; xab; x7d; x7e; x8d; xf6; xb8; xa0; x7d; x76; xda; xb5; xc3; x53; x19; x0f; xd4; x9b; x9e; x11; x21; x73; x6f; xac; x1d; x60; x59; xb2; xfe; x21; x60; xcc; x03; x4b; x4b; x67; x83; x7e; x88; x5f; x5a];
  [x11; x3d; xa1; x70; xcf; x01; x63; x8f; xc4; xd0; x0d; x35; x15; xb8; xce; xcf; x7e; xa4; xbc; xa4; xd4; x97; x02; xf7; x34; x14; x4d; xe4; x56; xb6; x69; x36; xb9; x43; xa6; xa0; xd3; x28; x96; x9e; x64; x20; xc3; xe6; x00; xcb; xc3; xb5; x32; xec; x2d; x7c; x89; x02; x53; x9b; x0c; xc7; xd1; xd5; xe2; x7a; xe3; x43; x33; xe1; xa6; xed; x06; x3f; x7e; x38; xc0; x3a; xa1; x99; x51; x1d; x30; x67; x11; x38; x26; x36; xf8; xd8; x5a; xbd; xbe; xe9; xd5; x4f; xcd; xe6; x21; x6a];
  [x5f; xe6; x46; x30; x0a; x17; xc6; xf1; x24; x35; xd2; x00; x2a; x2a; x71; x58; x55; xb7; x82; x8c; x3c; xbd; xdb; x69; x57; xff; x95; xa1; xf1; xf9; x6b; x58; xe3; xb2; x99; x66; x12; x29; x41; xef; x01; x13; x8d; x70; x47; x08; xd3; x71; xbd; xb0; x82; x11; xd0; x32; x54; x32; x36; x8b; x1e; x00; x07; x1b; x37; x45; x0b; x79; xf8; x5e; x8d; x08; xdb; xa6; xe5; x37; x09; x61; xdc; xf0; x78; x52; xb8; x6e; xa1; x61; xd2; x49; x03; xac; x79; x21; xe5; x90; x37; xb0; xaf; x0e];
  [x2f; x04; x48; x37; xc1; x55; x05; x96; x11; xaa; x0b; x82; xe6; x41; x9a; x21; x0c; x6d; x48; x73; x38; xf7; x81; x1c; x61; xc6; x02; x5a; x67; xcc; x9a; x30; x1d; xae; x75; x0f; x5e; x80; x40; x51; x30; xcc; x62; x26; xe3; xfb; x02; xec; x6d; x39; x92; xea; x1e; xdf; xeb; x2c; xb3; x5b; x43; xc5; x44; x33; xae; x44; xee; x43; xa5; xbb; xb9; x89; xf2; x9c; x42; x71; xc9; x5a; x9d; x0e; x76; xf3; xaa; x60; x93; x4f; xc6; xe5; x82; x1d; x8f; x67; x94; x7f; x1b; x22; xd5; x62];
  [x6d; x93; xd0; x18; x9c; x29; x4c; x52; x0c; x1a; x0c; x8a; x6c; xb5; x6b; xc8; x31; x86; x4a; xdb; x2e; x05; x75; xa3; x62; x45; x75; xbc; xe4; xfd; x0e; x5c; x3c; x7a; xf7; x3a; x26; xd4; x85; x75; x4d; x14; xe9; xfe; x11; x7b; xae; xdf; x3d; x19; xf7; x59; x80; x70; x06; xa5; x37; x20; x92; x83; x53; x9a; xf2; x14; xf5; xd7; xb2; x25; xdc; x7e; x71; xdf; x40; x30; xb5; x99; xdb; x70; xf9; x21; x62; x4c; xed; xc3; xb7; x34; x92; xda; x3e; x09; xee; x7b; x5c; x36; x72; x5e];
  [x7f; x21; x71; x45; x07; xfc; x5b; x57; x5b; xd9; x94; x06; x5d; x67; x79; x37; x33; x1e; x19; xf4; xbb; x37; x0a; x9a; xbc; xea; xb4; x47; x4c; x10; xf1; x77; x3e; xb3; x08; x2f; x06; x39; x93; x7d; xbe; x32; x9f; xdf; xe5; x59; x96; x5b; xfd; xbd; x9e; x1f; xad; x3d; xff; xac; xb7; x49; x73; xcb; x55; x05; xb2; x70; x4c; x2c; x11; x55; xc5; x13; x51; xbe; xcd; x1f; x88; x9a; x3a; x42; x88; x66; x47; x3b; x50; x5e; x85; x77; x66; x44; x4a; x40; x06; x4a; x8f; x39; x34; x0e];
  [xe8; xbd; xce; x3e; xd9; x22; x7d; xb6; x07; x2f; x82; x27; x41; xe8; xb3; x09; x8d; x6d; x5b; xb0; x1f; xa6; x3f; x74; x72; x23; x36; x8a; x36; x05; x54; x5e; x28; x19; x4b; x3e; x09; x0b; x93; x18; x40; xf6; xf3; x73; x0e; xe1; xe3; x7d; x6f; x5d; x39; x73; xda; x17; x32; xf4; x3e; x9c; x37; xca; xd6; xde; x8a; x6f; x9a; xb2; xb7; xfd; x3d; x12; x40; xe3; x91; xb2; x1a; xa2; xe1; x97; x7b; x48; x9e; x94; xe6; xfd; x02; x7d; x96; xf9; x97; xde; xd3; xc8; x2e; xe7; x0d; x78];
  [xbc; xe7; x9a; x08; x45; x85; xe2; x0a; x06; x4d; x7f; x1c; xcf; xde; x8d; x38; xb8; x11; x48; x0a; x51; x15; xac; x38; xe4; x8c; x92; x71; xf6; x8b; xb2; x0e; x72; x27; xf4; x00; xf3; xea; x1f; x67; xaa; x41; x8c; x2a; x2a; xeb; x72; x8f; x92; x32; x37; x97; xd7; x7f; xa1; x29; xa6; x87; xb5; x32; xad; xc6; xef; x1d; xa7; x95; x51; xef; x1a; xbe; x5b; xaf; xed; x15; x7b; x91; x77; x12; x8c; x14; x2e; xda; xe5; x7a; xfb; xf7; x91; x29; x67; x28; xdd; xf8; x1b; x20; x7d; x46];
  [xad; x4f; xef; x74; x9a; x91; xfe; x95; xa2; x08; xa3; xf6; xec; x7b; x82; x3a; x01; x7b; xa4; x09; xd3; x01; x4e; x96; x97; xc7; xa3; x5b; x4f; x3c; xc4; x71; xa9; xe7; x7a; x56; xbd; xf4; x1e; xbc; xbd; x98; x44; xd6; xb2; x4c; x62; x3f; xc8; x4e; x1f; x2c; xd2; x64; x10; xe4; x01; x40; x38; xba; xa5; xc5; xf9; x2e; xcd; x74; x9e; xfa; xf6; x6d; xfd; xb6; x7a; x26; xaf; xe4; xbc; x78; x82; xf1; x0e; x99; xef; xf1; xd0; xb3; x55; x82; x93; xf2; xc5; x90; xa3; x8c; x75; x5a];
  [x95; x24; x46; xd9; x10; x27; xb7; xa2; x03; x50; x7d; xd5; xd2; xc6; xa8; x3a; xca; x87; xb4; xa0; xbf; x00; xd4; xe3; xec; x72; xeb; xb3; x44; xe2; xba; x2d; x94; xdc; x61; x1d; x8b; x91; xe0; x8c; x66; x30; x81; x9a; x46; x36; xed; x8d; xd3; xaa; xe8; xaf; x29; xa8; xe6; xd4; x3f; xd4; x39; xf6; x27; x80; x73; x0a; xcc; xe1; xff; x57; x2f; x4a; x0f; x98; x43; x98; x83; xe1; x0d; x0d; x67; x00; xfd; x15; xfb; x49; x4a; x3f; x5c; x10; x9c; xa6; x26; x51; x63; xca; x98; x26];
  [x78; xba; xb0; x32; x88; x31; x65; xe7; x8b; xff; x5c; x92; xf7; x31; x18; x38; xcc; x1f; x29; xa0; x91; x1b; xa8; x08; x07; xeb; xca; x49; xcc; x3d; xb4; x1f; x0e; xd9; x3d; x5e; x2f; x70; x3d; x2e; x86; x53; xd2; xe4; x18; x09; x3f; x9e; x6a; xa9; x4d; x02; xf6; x3e; x77; x5e; x32; x33; xfa; x4a; x0c; x4b; x00; x3c; x2b; xb8; xf4; x06; xac; x46; xa9; x9a; xf3; xc4; x06; xa8; xa5; x84; xa2; x1c; x87; x47; xcd; xc6; x5f; x26; xd3; x3e; x17; xd2; x1f; xcd; x01; xfd; x43; x6b];
  [x44; xc5; x97; x46; x4b; x5d; xa7; xc7; xbf; xff; x0f; xdf; x48; xf8; xfd; x15; x5a; x78; x46; xaa; xeb; xb9; x68; x28; x14; xf7; x52; x5b; x10; xd7; x68; x5a; xf3; x0e; x76; x3e; x58; x42; xc7; xb5; x90; xb9; x0a; xee; xb9; x52; xdc; x75; x3f; x92; x2b; x07; xc2; x27; x14; xbf; xf0; xd9; xf0; x6f; x2d; x0b; x42; x73; x06; x1e; x85; x9e; xcb; xf6; x2c; xaf; xc4; x38; x22; xc6; x13; x39; x59; x8f; x73; xf3; xfb; x99; x96; xb8; x8a; xda; x9e; xbc; x34; xea; x2f; x63; xb5; x3d];
  [xd8; xd9; x5d; xf7; x2b; xee; x6e; xf4; xa5; x59; x67; x39; xf6; xb1; x17; x0d; x73; x72; x9e; x49; x31; xd1; xf2; x1b; x13; x5f; xd7; x49; xdf; x1a; x32; x04; xd5; x25; x98; x82; xb1; x90; x49; x2e; x91; x89; x9a; x3e; x87; xeb; xea; xed; xf8; x4a; x70; x4c; x39; x3d; xf0; xee; x0e; x2b; xdf; x95; xa4; x7e; x19; x59; xae; x5a; xe5; xe4; x19; x60; xe1; x04; xe9; x92; x2f; x7e; x7a; x43; x7b; xe7; xa4; x9a; x15; x6f; xc1; x2d; xce; xc7; xc0; x0c; xd7; xf4; xc1; xfd; xea; x45];
  [x2b; xd7; x45; x80; x85; x01; x84; x69; x51; x06; x2f; xcf; xa2; xfa; x22; x4c; xc6; x2d; x22; x6b; x65; x36; x1a; x94; xde; xda; x62; x03; xc8; xeb; x5e; x5a; xed; xb1; xcc; xcf; x24; x46; x0e; xb6; x95; x03; x5c; xbd; x92; xc2; xdb; x59; xc9; x81; x04; xdc; x1d; x9d; xa0; x31; x40; xd9; x56; x5d; xea; xce; x73; x3f; xc6; x8d; x4e; x0a; xd1; xbf; xa7; xb7; x39; xb3; xc9; x44; x7e; x00; x57; xbe; xfa; xae; x57; x15; x7f; x20; xc1; x60; xdb; x18; x62; x26; x91; x88; x05; x26];
  [x04; xff; x60; x83; xa6; x04; xf7; x59; xf4; xe6; x61; x76; xde; x3f; xd9; xc3; x51; x35; x87; x12; x73; x2a; x1b; x83; x57; x5d; x61; x4e; x2e; x0c; xad; x54; x42; xe5; x76; xc6; x3c; x8e; x81; x4c; xad; xcc; xce; x03; x93; x2c; x42; x5e; x08; x9f; x12; xb4; xca; xcc; x07; xec; xb8; x43; x44; xb2; x10; xfa; xed; x0d; x2a; x52; x2b; xb8; xd5; x67; x3b; xee; xeb; xc1; xa5; x9f; x46; x63; xf1; x36; xd3; x9f; xc1; x6e; xf2; xd2; xb4; xa5; x08; x94; x7a; xa7; xba; xb2; xec; x62];
  [x3d; x2b; x15; x61; x52; x79; xed; xe5; xd1; xd7; xdd; x0e; x7d; x35; x62; x49; x71; x4c; x6b; xb9; xd0; xc8; x82; x74; xbe; xd8; x66; xa9; x19; xf9; x59; x2e; x74; x28; xb6; xaf; x36; x28; x07; x92; xa5; x04; xe1; x79; x85; x5e; xcd; x5f; x4a; xa1; x30; xc6; xad; x01; xad; x5a; x98; x3f; x66; x75; x50; x3d; x91; x61; xda; x31; x32; x1a; x36; x2d; xc6; x0d; x70; x02; x20; x94; x32; x58; x47; xfa; xce; x94; x95; x3f; x51; x01; xd8; x02; x5c; x5d; xc0; x31; xa1; xc2; xdb; x3d];
  [x4b; xc5; x5e; xce; xf9; x0f; xdc; x9a; x0d; x13; x2f; x8c; x6b; x2a; x9c; x03; x15; x95; xf8; xf0; xc7; x07; x80; x02; x6b; xb3; x04; xac; x14; x83; x96; x78; x14; xbb; x96; x27; xa2; x57; xaa; xf3; x21; xda; x07; x9b; xb7; xba; x3a; x88; x1c; x39; xa0; x31; x18; xe2; x4b; xe5; xf9; x05; x32; xd8; x38; xfb; xe7; x5e; x8e; x6a; x44; x41; xcb; xfd; x8d; x53; xf9; x37; x49; x43; xa9; xfd; xac; xa5; x78; x8c; x3c; x26; x8d; x90; xaf; x46; x09; x0d; xca; x9b; x3c; x63; xd0; x61];
  [x66; x25; xdb; xff; x35; x49; x74; x63; xbb; x68; x0b; x78; x89; x6b; xbd; xc5; x03; xec; x3e; x55; x80; x32; x1b; x6f; xf5; xd7; xae; x47; xd8; x5f; x96; x6e; xdf; x73; xfc; xf8; xbc; x28; xa3; xad; xfc; x37; xf0; xa6; x5d; x69; x84; xee; x09; xa9; xc2; x38; xdb; xb4; x7f; x63; xdc; x7b; x06; xf8; x2d; xac; x23; x5b; x7b; x52; x80; xee; x53; xb9; xd2; x9a; x8d; x6d; xde; xfa; xaa; x19; x8f; xe8; xcf; x82; x0e; x15; x04; x17; x71; x0e; xdc; xde; x95; xdd; xb9; xbb; xb9; x79];
  [xc2; x26; x31; x6a; x40; x55; xb3; xeb; x93; xc3; xc8; x68; xa8; x83; x63; xd2; x82; x7a; xb9; xe5; x29; x64; x0c; x6c; x47; x21; xfd; xc9; x58; xf1; x65; x50; x74; x73; x9f; x8e; xae; x7d; x99; xd1; x16; x08; xbb; xcf; xf8; xa2; x32; xa0; x0a; x5f; x44; x6d; x12; xba; x6c; xcd; x34; xb8; xcc; x0a; x46; x11; xa8; x1b; x54; x99; x42; x0c; xfb; x69; x81; x70; x67; xcf; x6e; xd7; xac; x00; x46; xe1; xba; x45; xe6; x70; x8a; xb9; xaa; x2e; xf2; xfa; xa4; x58; x9e; xf3; x81; x39];
  [x93; x0a; x23; x59; x75; x8a; xfb; x18; x5d; xf4; xe6; x60; x69; x8f; x16; x1d; xb5; x3c; xa9; x14; x45; xa9; x85; x3a; xfd; xd0; xac; x05; x37; x08; xdc; x38; xde; x6f; xe6; x6d; xa5; xdf; x45; xc8; x3a; x48; x40; x2c; x00; xa5; x52; xe1; x32; xf6; xb4; xc7; x63; xe1; xd2; xe9; x65; x1b; xbc; xdc; x2e; x45; xf4; x30; x40; x97; x75; xc5; x82; x27; x6d; x85; xcc; xbe; x9c; xf9; x69; x45; x13; xfa; x71; x4e; xea; xc0; x73; xfc; x44; x88; x69; x24; x3f; x59; x1a; x9a; x2d; x63];
  [xa6; xcb; x07; xb8; x15; x6b; xbb; xf6; xd7; xf0; x54; xbc; xdf; xc7; x23; x18; x0b; x67; x29; x6e; x03; x97; x1d; xbb; x57; x4a; xed; x47; x88; xf4; x24; x0b; xa7; x84; x0c; xed; x11; xfd; x09; xbf; x3a; x69; x9f; x0d; x81; x71; xf0; x63; x79; x87; xcf; x57; x2d; x8c; x90; x21; xa2; x4b; xf6; x8a; xf2; x7d; x5a; x3a; xc7; xea; x1b; x51; xbe; xd4; xda; xdc; xf2; xcc; x26; xed; x75; x80; x53; xa4; x65; x9a; x5f; x00; x9f; xff; x9c; xe1; x63; x1f; x48; x75; x44; xf7; xfc; x34];
  [xca; x67; x97; x78; x4c; xe0; x97; xc1; x7d; x46; xd9; x38; xcb; x4d; x71; xb8; xa8; x5f; xf9; x83; x82; x88; xde; x55; xf7; x63; xfa; x4d; x16; xdc; x3b; x3d; x98; xaa; xcf; x78; xab; x1d; xbb; xa5; xf2; x72; x0b; x19; x67; xa2; xed; x5c; x8e; x60; x92; x0a; x11; xc9; x09; x93; xb0; x74; xb3; x2f; x04; xa3; x19; x01; x7d; x17; xc2; xe8; x9c; xd8; xa2; x67; xc1; xd0; x95; x68; xf6; xa5; x9d; x66; xb0; xa2; x82; xb2; xe5; x98; x65; xf5; x73; x0a; xe2; xed; xf1; x88; xc0; x56];
  [x17; x6e; xa8; x10; x11; x3d; x6d; x33; xfa; xb2; x75; x0b; x32; x88; xf3; xd7; x88; x29; x07; x25; x76; x33; x15; xf9; x87; x8b; x10; x99; x6b; x4c; x67; x09; x02; x8f; xf3; x24; xac; x5f; x1b; x58; xbd; x0c; xe3; xba; xfe; xe9; x0b; xa9; xf0; x92; xcf; x8a; x02; x69; x21; x9a; x8f; x03; x59; x83; xa4; x7e; x8b; x03; xf8; x6f; x31; x99; x21; xf8; x4e; x9f; x4f; x8d; xa7; xea; x82; xd2; x49; x2f; x74; x31; xef; x5a; xab; xa5; x71; x09; x65; xeb; x69; x59; x02; x31; x5e; x6e];
  [xfb; x93; xe5; x87; xf5; x62; x6c; xb1; x71; x3e; x5d; xca; xde; xed; x99; x49; x6d; x3e; xcc; x14; xe0; xc1; x91; xb4; xa8; xdb; xa8; x89; x47; x11; xf5; x08; x22; x62; x06; x63; x0e; xfb; x04; x33; x3f; xba; xac; x87; x89; x06; x35; xfb; xa3; x61; x10; x8c; x77; x24; x19; xbd; x20; x86; x83; xd1; x43; xad; x58; x30; xd0; x63; x76; xe5; xfd; x0f; x3c; x32; x10; xa6; x2e; xa2; x38; xdf; xc3; x05; x9a; x4f; x99; xac; xbd; x8a; xc7; xbd; x99; xdc; xe3; xef; xa4; x9f; x54; x26];
  [xd6; xf9; x6b; x1e; x46; x5a; x1d; x74; x81; xa5; x77; x77; xfc; xb3; x05; x23; xd9; xd3; x74; x64; xa2; x74; x55; xd4; xff; xe0; x01; x64; xdc; xe1; x26; x19; x6e; x66; x3f; xaf; x49; x85; x46; xdb; xa5; x0e; x4a; xf1; x04; xcf; x7f; xd7; x47; x0c; xba; xa4; xf7; x3f; xf2; x3d; x85; x3c; xce; x32; xe1; xdf; x10; x3a; xa0; xce; x17; xea; x8a; x4e; x7f; xe0; xfd; xc1; x1f; x3a; x46; x15; xd5; x2f; xf1; xc0; xf2; x31; xfd; x22; x53; x17; x15; x5d; x1e; x86; x1d; xd0; xa1; x1f];
  [x32; x98; x59; x7d; x94; x55; x80; xcc; x20; x55; xf1; x37; xda; x56; x46; x1e; x20; x93; x05; x4e; x74; xf7; xf6; x99; x33; xcf; x75; x6a; xbc; x63; x35; x77; xab; x94; xdf; xd1; x00; xac; xdc; x38; xe9; x0d; x08; xd1; xdd; x2b; x71; x2e; x62; xe2; xd5; xfd; x3e; xe9; x13; x7f; xe5; x01; x9a; xee; x18; xed; xfc; x73; xb3; x9c; x13; x63; x08; xe9; xb1; x06; xcd; x3e; xa0; xc5; x67; xda; x93; xa4; x32; x89; x63; xad; xc8; xce; x77; x8d; x44; x4f; x86; x1b; x70; x6b; x42; x1f];
  [x01; x1c; x91; x41; x4c; x26; xc9; xef; x25; x2c; xa2; x17; xb8; xb7; xa3; xf1; x47; x14; x0f; xf3; x6b; xda; x75; x58; x90; xb0; x31; x1d; x27; xf5; x1a; x4e; x52; x25; xa1; x91; xc8; x35; x7e; xf1; x76; x9c; x5e; x57; x53; x81; x6b; xb7; x3e; x72; x9b; x0d; x6f; x40; x83; xfa; x38; xe4; xa7; x3f; x1b; xbb; x76; x0b; x9b; x93; x92; x7f; xf9; xc1; xb8; x08; x6e; xab; x44; xd4; xcb; x71; x67; xbe; x17; x80; xbb; x99; x63; x64; xe5; x22; x55; xa9; x72; xb7; x1e; xd6; x6d; x7b];
  [x92; x3d; xf3; x50; xe8; xc1; xad; xb7; xcf; xd5; x8c; x60; x4f; xfa; x98; x79; xdb; x5b; xfc; x8d; xbd; x2d; x96; xad; x4f; x2f; x1d; xaf; xce; x9b; x3e; x70; xc7; xd2; x01; xab; xf9; xab; x30; x57; x18; x3b; x14; x40; xdc; x76; xfb; x16; x81; xb2; xcb; xa0; x65; xbe; x6c; x86; xfe; x6a; xff; x9b; x65; x9b; xfa; x53; x55; x54; x88; x94; xe9; xc8; x14; x6c; xe5; xd4; xae; x65; x66; x5d; x3a; x84; xf1; x5a; xd6; xbc; x3e; xb7; x1b; x18; x50; x1f; xc6; xc4; xe5; x93; x8d; x39];
  [xf3; x48; xe2; x33; x67; xd1; x4b; x1c; x5f; x0a; xbf; x15; x87; x12; x9e; xbd; x76; x03; x0b; xa1; xf0; x8c; x3f; xd4; x13; x1b; x19; xdf; x5d; x9b; xb0; x53; xf2; xe3; xe7; xd2; x60; x7c; x87; xc3; xb1; x8b; x82; x30; xa0; xaa; x34; x3b; x38; xf1; x9e; x73; xe7; x26; x3e; x28; x77; x05; xc3; x02; x90; x9c; x9c; x69; xcc; xf1; x46; x59; x23; xa7; x06; xf3; x7d; xd9; xe5; xcc; xb5; x18; x17; x92; x75; xe9; xb4; x81; x47; xd2; xcd; x28; x07; xd9; xcd; x6f; x0c; xf3; xca; x51];
  [x0a; xe0; x74; x76; x42; xa7; x0b; xa6; xf3; x7b; x7a; xa1; x70; x85; x0e; x63; xcc; x24; x33; xcf; x3d; x56; x58; x37; xaa; xfd; x83; x23; x29; xaa; x04; x55; xc7; x54; xac; x18; x9a; xf9; x7a; x73; x0f; xb3; x1c; xc5; xdc; x78; x33; x90; xc7; x0c; xe1; x4c; x33; xbc; x89; x2b; x9a; xe9; xf8; x89; xc1; x29; xae; x12; xcf; x01; x0d; x1f; xcb; xc0; x9e; xa9; xae; xf7; x34; x3a; xcc; xef; xd1; x0d; x22; x4e; x9c; xd0; x21; x75; xca; x55; xea; xa5; xeb; x58; xe9; x4f; xd1; x5f];
  [x2c; xab; x45; x28; xdf; x2d; xdc; xb5; x93; xe9; x7f; x0a; xb1; x91; x94; x06; x46; xe3; x02; x40; xd6; xf3; xaa; x4d; xd1; x74; x64; x58; x6e; xf2; x3f; x09; x8e; xcb; x93; xbf; x5e; xfe; x42; x3c; x5f; x56; xd4; x36; x51; xa8; xdf; xbe; xe8; x20; x42; x88; x9e; x85; xf0; xe0; x28; xd1; x25; x07; x96; x3f; xd7; x7d; x29; x98; x05; x68; xfe; x24; x0d; xb1; xe5; x23; xaf; xdb; x72; x06; x73; x75; x29; xac; x57; xb4; x3a; x25; x67; x13; xa4; x70; xb4; x86; xbc; xbc; x59; x2f];
  [x5f; x13; x17; x99; x42; x7d; x84; x83; xd7; x03; x7d; x56; x1f; x91; x1b; xad; xd1; xaa; x77; xbe; xd9; x48; x77; x7e; x4a; xaf; x51; x2e; x2e; xb4; x58; x54; x01; xc3; x91; xb6; x60; xd5; x41; x70; x1e; xe7; xd7; xad; x3f; x1b; x20; x85; x85; x55; x33; x11; x63; xe1; xc2; x16; xb1; x28; x08; x01; x3d; x5e; xa5; x2a; x4f; x44; x07; x0c; xe6; x92; x51; xed; x10; x1d; x42; x74; x2d; x4e; xc5; x42; x64; xc8; xb5; xfd; x82; x4c; x2b; x35; x64; x86; x76; x8a; x4a; x00; xe9; x13];
  [xdb; xce; x2f; x83; x45; x88; x9d; x73; x63; xf8; x6b; xae; xc9; xd6; x38; xfa; xf7; xfe; x4f; xb7; xca; x0d; xbc; x32; x5e; xe4; xbc; x14; x88; x7e; x93; x73; x7f; x87; x3b; x19; xc9; x00; x2e; xbb; x6b; x50; xdc; xe0; x90; xa8; xe3; xec; x9f; x64; xde; x36; xc0; xb7; xf3; xec; x1a; x9e; xde; x98; x08; x04; x46; x5f; x8d; xf4; x7b; x29; x16; x71; x03; xb9; x34; x68; xf0; xd4; x22; x3b; xd1; xa9; xc6; xbd; x96; x46; x57; x15; x97; xe1; x35; xe8; xd5; x91; xe8; xa4; xf8; x2c];
  [x67; x0f; x11; x07; x87; xfd; x93; x6d; x49; xb5; x38; x7c; xd3; x09; x4c; xdd; x86; x6a; x73; xc2; x4c; x6a; xb1; x7c; x09; x2a; x25; x58; x6e; xbd; x49; x20; xa2; x6b; xd0; x17; x7e; x48; xb5; x2c; x6b; x19; x50; x39; x1c; x38; xd2; x24; x30; x8a; x97; x85; x81; x9c; x65; xd7; xf6; xa4; xd6; x91; x28; x7f; x6f; x7a; x49; xef; x9a; x6a; x8d; xfd; x09; x7d; x0b; xb9; x3d; x5b; xbe; x60; xee; xf0; xd4; xbf; x9e; x51; x2c; xb5; x21; x4c; x1d; x94; x45; xc5; xdf; xaa; x11; x60];
  [x3c; xf8; x95; xcf; x6d; x92; x67; x5f; x71; x90; x28; x71; x61; x85; x7e; x7c; x5b; x7a; x8f; x99; xf3; xe7; xa1; xd6; xe0; xf9; x62; x0b; x1b; xcc; xc5; x6f; x90; xf8; xcb; x02; xc8; xd0; xde; x63; xaa; x6a; xff; x0d; xca; x98; xd0; xfb; x99; xed; xb6; xb9; xfd; x0a; x4d; x62; x1e; x0b; x34; x79; xb7; x18; xce; x69; xcb; x79; x98; xb2; x28; x55; xef; xd1; x92; x90; x7e; xd4; x3c; xae; x1a; xdd; x52; x23; x9f; x18; x42; x04; x7e; x12; xf1; x01; x71; xe5; x3a; x6b; x59; x15];
  [xa2; x79; x91; x3f; xd2; x39; x27; x46; xcf; xdd; xd6; x97; x31; x12; x83; xff; x8a; x14; xf2; x53; xb5; xde; x07; x13; xda; x4d; x5f; x7b; x68; x37; x22; x0d; xca; x24; x51; x7e; x16; x31; xff; x09; xdf; x45; xc7; xd9; x8b; x15; xe4; x0b; xe5; x56; xf5; x7e; x22; x7d; x2b; x29; x38; xd1; xb6; xaf; x41; xe2; xa4; x3a; xf5; x05; x33; x2a; xbf; x38; xc1; x2c; xc3; x26; xe9; xa2; x8f; x3f; x58; x48; xeb; xd2; x49; x55; xa2; xb1; x3a; x08; x6c; xa3; x87; x46; x6e; xaa; xfc; x32];
  [xf5; x9a; x7d; xc5; x8d; x6e; xc5; x7b; xf2; xbd; xf0; x9d; xed; xd2; x0b; x3e; xa3; xe4; xef; x22; xde; x14; xc0; xaa; x5c; x6a; xbd; xfe; xce; xe9; x27; x46; xdf; xcc; x87; x27; x73; xa4; x07; x32; xf8; xe3; x13; xf2; x08; x19; xe3; x17; x4e; x96; x0d; xf6; xd7; xec; xb2; xd5; xe9; x0b; x60; xc2; x36; x63; x6f; x74; x1c; x97; x6c; xab; x45; xf3; x4a; x3f; x1f; x73; x43; x99; x72; xeb; x88; xe2; x6d; x18; x44; x03; x8a; x6a; x59; x33; x93; x62; xd6; x7e; x00; x17; x49; x7b];
  [x64; xb0; x84; xab; x5c; xfb; x85; x2d; x14; xbc; xf3; x89; xd2; x10; x78; x49; x0c; xce; x15; x7b; x44; xdc; x6a; x47; x7b; xfd; x44; xf8; x76; xa3; x2b; x12; xdd; xa2; x53; xdd; x28; x1b; x34; x54; x3f; xfc; x42; xdf; x5b; x90; x17; xaa; xf4; xf8; xd2; x4d; xd9; x92; xf5; x0f; x7d; xd3; x8c; xe0; x0f; x62; x03; x1d; x54; xe5; xb4; xa2; xcd; x32; x02; xc2; x7f; x18; x5d; x11; x42; xfd; xd0; x9e; xd9; x79; xd4; x7d; xbe; xb4; xab; x2e; x4c; xec; x68; x2b; xf5; x0b; xc7; x02];
  [xbb; x2f; x0b; x5d; x4b; xec; x87; xa2; xca; x82; x48; x07; x90; x57; x5c; x41; x5c; x81; xd0; xc1; x1e; xa6; x44; xe0; xe0; xf5; x9e; x40; x0a; x4f; x33; x26; xe1; x72; x8d; x45; xbf; x32; xe5; xac; xb5; x3c; xb7; x7c; xe0; x68; xe7; x5b; xe7; xbd; x8b; xee; x94; x7d; xcf; x56; x03; x3a; xb4; xfe; xe3; x97; x06; x6b; xc0; xa3; x62; xdf; x4a; xf0; xc8; xb6; x5d; xa4; x6d; x07; xef; x00; xf0; x3e; xa9; xd2; xf0; x49; x58; xb9; x9c; x9c; xae; x2f; x1b; x44; x43; x7f; xc3; x1c];
  [x4f; x32; xc7; x5c; x5a; x56; x8f; x50; x22; xa9; x06; xe5; xc0; xc4; x61; xd0; x19; xac; x45; x5c; xdb; xab; x18; xfb; x4a; x31; x80; x03; xc1; x09; x68; x6c; xb9; xae; xce; xc9; xf1; x56; x66; xd7; x6a; x65; xe5; x18; xf8; x15; x5b; x1c; x34; x23; x4c; x84; x32; x28; xe7; x26; x38; x68; x19; x2f; x77; x6f; x34; x3a; xc8; x6a; xda; xe2; x12; x51; xd5; xd2; xed; x51; xe8; xb1; x31; x03; xbd; xe9; x62; x72; xc6; x8e; xdd; x46; x07; x96; xd0; xc5; xf7; x6e; x9f; x1b; x91; x05];
  [xbb; x0e; xdf; xf5; x83; x99; x33; xc1; xac; x4c; x2c; x51; x8f; x75; xf3; xc0; xe1; x98; xb3; x0b; x0a; x13; xf1; x2c; x62; x0c; x27; xaa; xf9; xec; x3c; x6b; xef; xea; x2e; x51; xf3; xac; x49; x53; x49; xcb; xc1; x1c; xd3; x41; xc1; x20; x8d; x68; x9a; xa9; x07; x0c; x18; x24; x17; x2d; x4b; xc6; xd1; xf9; x5e; x55; x08; xbd; x73; x3b; xba; x70; xa7; x36; x0c; xbf; xaf; xa3; x08; xef; x4a; x62; xf2; x46; x09; xb4; x98; xff; x37; x57; x9d; x74; x81; x33; xe1; x4d; x5f; x67];
  [xfc; x82; x17; x6b; x03; x52; x2c; x0e; xb4; x83; xad; x6c; x81; x6c; x81; x64; x3e; x07; x64; x69; xd9; xbd; xdc; xd0; x20; xc5; x64; x01; xf7; x9d; xd9; x13; x1d; xb3; xda; x3b; xd9; xf6; x2f; xa1; xfe; x2d; x65; x9d; x0f; xd8; x25; x07; x87; x94; xbe; x9a; xf3; x4f; x9c; x01; x43; x3c; xcd; x82; xb8; x50; xf4; x60; xca; xc0; xe5; x21; xc3; x5e; x4b; x01; xa2; xbf; x19; xd7; xc9; x69; xcb; x4f; xa0; x23; x00; x75; x18; x1c; x5f; x4e; x80; xac; xed; x55; x9e; xde; x06; x1c];
  [xe2; xc4; x3e; xa3; xd6; x7a; x0f; x99; x8e; xe0; x2e; xbe; x38; xf9; x08; x66; x15; x45; x28; x63; xc5; x43; xa1; x9c; x0d; xb6; x2d; xec; x1f; x8a; xf3; x4c; xaa; x69; x6d; xff; x40; x2b; xd5; xff; xbb; x49; x40; xdc; x18; x0b; x53; x34; x97; x98; x4d; xa3; x2f; x5c; x4a; x5e; x2d; xba; x32; x7d; x8e; x6f; x09; x78; xe7; x5c; xfa; x0d; x65; xaa; xaa; xa0; x8c; x47; xb5; x48; x2a; x9e; xc4; xf9; x5b; x72; x03; x70; x7d; xcc; x09; x4f; xbe; x1a; x09; x26; x3a; xad; x3c; x37];
  [x7c; xf5; xc9; x82; x4d; x63; x94; xb2; x36; x45; x93; x24; xe1; xfd; xcb; x1f; x5a; xdb; x8c; x41; xb3; x4d; x9c; x9e; xfc; x19; x44; x45; xd9; xf3; x40; x00; xad; xbb; xdd; x89; xfb; xa8; xbe; xf1; xcb; xae; xae; x61; xbc; x2c; xcb; x3b; x9d; x8d; x9b; x1f; xbb; xa7; x58; x8f; x86; xa6; x12; x51; xda; x7e; x54; x21; xd3; x86; x59; xfd; x39; xe9; xfd; xde; x0c; x38; x0a; x51; x89; x2c; x27; xf4; xb9; x19; x31; xbb; x07; xa4; x2b; xb7; xf4; x4d; x25; x4a; x33; x0a; x55; x63];
  [x37; xcf; x69; xb5; xed; xd6; x07; x65; xe1; x2e; xa5; x0c; xb0; x29; x84; x17; x5d; xd6; x6b; xeb; x90; x00; x7c; xea; x51; x8f; xf7; xda; xc7; x62; xea; x3e; x49; x7b; x54; x72; x45; x58; xba; x9b; xe0; x08; xc4; xe2; xfa; xc6; x05; xf3; x8d; xf1; x34; xc7; x69; xfa; xe8; x60; x7a; x76; x7d; xaa; xaf; x2b; xa9; x39; x4e; x27; x93; xe6; x13; xc7; x24; x9d; x75; xd3; xdb; x68; x77; x85; x63; x5f; x9a; xb3; x8a; xeb; x60; x55; x52; x70; xcd; xc4; xc9; x65; x06; x6a; x43; x68];
  [x27; x3f; x2f; x20; xe8; x35; x02; xbc; xb0; x75; xf9; x64; xe2; x00; x5c; xc7; x16; x24; x8c; xa3; xd5; xe9; xa4; x91; xf9; x89; xb7; x8a; xf6; xe7; xb6; x17; x7c; x10; x20; xe8; x17; xd3; x56; x1e; x65; xe9; x0a; x84; x44; x68; x26; xc5; x7a; xfc; x0f; x32; xc6; xa1; xe0; xc1; x72; x14; x61; x91; x9c; x66; x73; x53; x57; x52; x0e; x9a; xab; x14; x28; x5d; xfc; xb3; xca; xc9; x84; x20; x8f; x90; xca; x1e; x2d; x5b; x88; xf5; xca; xaf; x11; x7d; xf8; x78; xa6; xb5; xb4; x1c];
  [x6c; xfc; x4a; x39; x6b; xc0; x64; xb6; xb1; x5f; xda; x98; x24; xde; x88; x0c; x34; xd8; xca; x4b; x16; x03; x8d; x4f; xa2; x34; x74; xde; x78; xca; x0b; x33; xe7; x07; xa0; xa2; x62; xaa; x74; x6b; xb1; xc7; x71; xf0; xb0; xe0; x11; xf3; x23; xe2; x0b; x00; x38; xe4; x07; x57; xac; x6e; xef; x82; x2d; xfd; xc0; x2d; x4e; x74; x19; x11; x84; xff; x2e; x98; x24; x47; x07; x2b; x96; x5e; x69; xf9; xfb; x53; xc9; xbf; x4f; xc1; x8a; xc5; xf5; x1c; x9f; x36; x1b; xbe; x31; x3c];
  [xee; x8a; x94; x08; x4d; x86; xf4; xb0; x6f; x1c; xba; x91; xee; x19; xdc; x07; x58; xa1; xac; xa6; xae; xcd; x75; x79; xbb; xd4; x62; x42; x13; x61; x0b; x33; x72; x42; xcb; xf9; x93; xbc; x68; xc1; x98; xdb; xce; xc7; x1f; x71; xb8; xae; x7a; x8d; xac; x34; xaa; x52; x0e; x7f; xbb; x55; x7d; x7e; x09; xc1; xce; x41; x8a; x80; x6d; xa2; xd7; x19; x96; xf7; x6d; x15; x9e; x1d; x9e; xd4; x1f; xbb; x27; xdf; xa1; xdb; x6c; xc3; xd7; x73; x7d; x77; x28; x1f; xd9; x4c; xb4; x26];
  [x75; x74; x38; x8f; x47; x48; xf0; x51; x3c; xcb; xbe; x9c; xf4; xbc; x5d; xb2; x55; x20; x9f; xd9; x44; x12; xab; x9a; xd6; xa5; x10; x1c; x6c; x9e; x70; x2c; x83; x03; x73; x62; x93; xf2; xb7; xe1; x2c; x8a; xca; xeb; xff; x79; x52; x4b; x14; x13; xd4; xbf; x8a; x77; xfc; xda; x0f; x61; x72; x9c; x14; x10; xeb; x7d; x7a; xee; x66; x87; x6a; xaf; x62; xcb; x0e; xcd; x53; x55; x04; xec; xcb; x66; xb5; xe4; x0b; x0f; x38; x01; x80; x58; xea; xe2; x2c; xf6; x9f; x8e; xe6; x08];
  [xad; x30; xc1; x4b; x0a; x50; xad; x34; x9c; xd4; x0b; x3d; x49; xdb; x38; x8d; xbe; x89; x0a; x50; x98; x3d; x5c; xa2; x09; x3b; xba; xee; x87; x3f; x1f; x2f; xf9; xf2; xb8; x0a; xd5; x09; x2d; x2f; xdf; x23; x59; xc5; x8d; x21; xb9; xac; xb9; x6c; x76; x73; x26; x34; x8f; x4a; xf5; x19; xf7; x38; xd7; x3b; xb1; x4c; x4a; xb6; x15; xe5; x75; x8c; x84; xf7; x38; x90; x4a; xdb; xba; x01; x95; xa5; x50; x1b; x75; x3f; x3f; x31; x0d; xc2; xe8; x2e; xae; xc0; x53; xe3; xa1; x19];
  [xc3; x05; xfa; xba; x60; x75; x1c; x7d; x61; x5e; xe5; xc6; xa0; xa0; xe1; xb3; x73; x64; xd6; xc0; x18; x97; x52; xe3; x86; x34; x0c; xc2; x11; x6b; x54; x41; xbd; xbd; x96; xd5; xcd; x72; x21; xb4; x40; xfc; xee; x98; x43; x45; xe0; x93; xb5; x09; x41; xb4; x47; x53; xb1; x9f; x34; xae; x66; x02; x99; xd3; x6b; x73; xb4; xb3; x34; x93; x50; x2d; x53; x85; x73; x65; x81; x60; x4b; x11; xfd; x46; x75; x83; x5c; x42; x30; x5f; x5f; xcc; x5c; xab; x7f; xb8; xa2; x95; x22; x41];
  [xe9; xd6; x7e; xf5; x88; x9b; xc9; x19; x25; xc8; xf8; x6d; x26; xcb; x93; x53; x73; xd2; x0a; xb3; x13; x32; xee; x5c; x34; x2e; x2d; xb5; xeb; x53; xe1; x14; xc6; xea; x93; xe2; x61; x52; x65; x2e; xdb; xac; x33; x21; x03; x92; x5a; x84; x6b; x99; x00; x79; xcb; x75; x09; x46; x80; xdd; x5a; x19; x8d; xbb; x60; x07; x8a; x81; xe6; xcd; x17; x1a; x3e; x41; x84; xa0; x69; xed; xa9; x6d; x15; x57; xb1; xcc; xca; x46; x8f; x26; xbf; x2c; xf2; xc5; x3a; xc3; x9b; xbe; x34; x6b];
  [xb2; xc0; x78; x3a; x64; x2f; xdf; xf3; x7c; x02; x2e; xf2; x1e; x97; x3e; x4c; xa3; xb5; xc1; x49; x5e; x1c; x7d; xec; x2d; xdd; x22; x09; x8f; xc1; x12; x20; xd3; xf2; x71; x65; x65; x69; xfc; x11; x7a; x73; x0e; x53; x45; xe8; xc9; xc6; x35; x50; xfe; xd4; xa2; xe7; x3a; xe3; x0b; xd3; x6d; x2e; xb6; xc7; xb9; x01; x29; x9d; xc8; x5a; xe5; x55; x0b; x88; x63; xa7; xa0; x45; x1f; x24; x83; x14; x1f; x6c; xe7; xc2; xdf; xef; x36; x3d; xe8; xad; x4b; x4e; x78; x5b; xaf; x08];
  [x33; x25; x1f; x88; xdc; x99; x34; x28; xb6; x23; x93; x77; xda; x25; x05; x9d; xf4; x41; x34; x67; xfb; xdd; x7a; x89; x8d; x16; x3a; x16; x71; x9d; xb7; x32; x4b; x2c; xcc; x89; xd2; x14; x73; xe2; x8d; x17; x87; xa2; x11; xbd; xe4; x4b; xce; x64; x33; xfa; xd6; x28; xd5; x18; x6e; x82; xd9; xaf; xd5; xc1; x23; x64; x6a; xb3; xfc; xed; xd9; xf8; x85; xcc; xf9; xe5; x46; x37; x8f; xc2; xbc; x22; xcd; xd3; xe5; xf9; x38; xe3; x9d; xe4; xcc; x2d; x3e; xc1; xfb; x5e; x0a; x48];
  [x71; x20; x62; x01; x0b; xe7; x51; x0b; xc5; xaf; x1d; x8b; xcf; x05; xb5; x06; xcd; xab; x5a; xef; x61; xb0; x6b; x2c; x31; xbf; xb7; x0c; x60; x27; xaa; x47; x1f; x22; xce; x42; xe4; x4c; x61; xb6; x28; x39; x05; x4c; xcc; x9d; x19; x6e; x03; xbe; x1c; xdc; xa4; xb4; x3f; x66; x06; x8e; x1c; x69; x47; x1d; xb3; x24; xc3; xf8; x15; xc0; xed; x1e; x54; x2a; x7c; x3f; x69; x7c; x7e; xfe; xa4; x11; xd6; x78; xa2; x4e; x13; x66; xaf; xf0; x94; xa0; xdd; x14; x5d; x58; x5b; x54];
  [x0f; x3a; xd4; xa0; x5e; x27; xbf; x67; xbe; xee; x9b; x08; x34; x8e; xe6; xad; x2e; xe7; x79; xd4; x4c; x13; x89; x42; x54; x54; xba; x32; xc3; xf9; x62; x0f; xe1; x21; xb3; xe3; xd0; xe4; x04; x62; x95; x1e; xff; x28; x7a; x63; xaa; x3b; x9e; xbd; x99; x5b; xfd; xcf; x0c; x0b; x71; xd0; xc8; x64; x3e; xdc; x22; x4d; x39; x5f; x3b; xd6; x89; x65; xb4; xfc; x61; xcf; xcb; x57; x3f; x6a; xae; x5c; x05; xfa; x3a; x95; xd2; xc2; xba; xfe; x36; x14; x37; x36; x1a; xa0; x0f; x1c];
  [xff; x3d; x94; x22; xb6; x04; xc6; xd2; xa0; xb3; xcf; x44; xce; xbe; x8c; xbc; x78; x86; x80; x97; xf3; x4f; x25; x5d; xbf; xa6; x1c; x3b; x4f; x61; xa3; x0f; x50; x6a; x93; x8c; x0e; x2b; x08; x69; xb6; xc5; xda; xc1; x35; xa0; xc9; xf9; x34; xb6; xdf; xc4; x54; x3e; xb7; x6f; x40; xc1; x2b; x1d; x9b; x41; x05; x40; xf0; x82; xbe; xb9; xbd; xfe; x03; xa0; x90; xac; x44; x3a; xaf; xc1; x89; x20; x8e; xfa; x54; x19; x91; x9f; x49; xf8; x42; xab; x40; xef; x8a; x21; xba; x1f];
  [x3e; xf5; xc8; xfa; x48; x94; x54; xab; x41; x37; xa6; x7b; x9a; xe8; xf6; x81; x01; x5e; x2b; x6c; x7d; x6c; xfd; x74; x42; x6e; xc8; xa8; xca; x3a; x2e; x39; x94; x01; x7b; x3e; x04; x57; x3e; x4f; x7f; xaf; xda; x08; xee; x3e; x1d; xa8; xf1; xde; xdc; x99; xab; xc6; x39; xc8; xd5; x61; x77; xff; x13; x5d; x53; x6c; xaf; x35; x8a; x3e; xe9; x34; xbd; x4c; x16; xe8; x87; x58; x44; x81; x07; x2e; xab; xb0; x9a; xf2; x76; x9c; x31; x19; x3b; xc1; x0a; xd5; xe4; x7f; xe1; x25];
  [x76; xf6; x04; x1e; xd7; x9b; x28; x0a; x95; x0f; x42; xd6; x52; x1c; x8e; x20; xab; x1f; x69; x34; xb0; xd8; x86; x51; x51; xb3; x9f; x2a; x44; x51; x57; x25; xa7; x21; xf1; x76; xf5; x7f; x5f; x91; xe3; x87; xcd; x2f; x27; x32; x4a; xc3; x26; xe5; x1b; x4d; xde; x2f; xba; xcc; x9b; x89; x69; x89; x8f; x82; xba; x6b; x01; x39; xfe; x90; x66; xbc; xd1; xe2; xd5; x7a; x99; xa0; x18; x4a; xb5; x4c; xd4; x60; x84; xaf; x14; x69; x1d; x97; xe4; x7b; x6b; x7f; x4f; x50; x9d; x55];
  [xd5; x54; xeb; xb3; x78; x83; x73; xa7; x7c; x3c; x55; xa5; x66; xd3; x69; x1d; xba; x00; x28; xf9; x62; xcf; x26; x0a; x17; x32; x7e; x80; xd5; x12; xab; x01; xfd; x66; xd2; xf6; xe7; x91; x48; x9c; x1b; x78; x07; x03; x9b; xa1; x44; x07; x3b; xe2; x61; x60; x1d; x8f; x38; x88; x0e; xd5; x4b; x35; xa3; xa6; x3e; x12; x96; x2d; xe3; x41; x90; x18; x8d; x11; x48; x58; x31; xd8; xc2; xe3; xed; xb9; xd9; x45; x32; xd8; x71; x42; xab; x1e; x54; xa1; x18; xc9; xe2; x61; x39; x4a];
  [xa0; xbb; xe6; xf8; xe0; x3b; xdc; x71; x0a; xe3; xff; x7e; x34; xf8; xce; xd6; x6a; x47; x3a; xe1; x5f; x42; x92; xa9; x63; xb7; x1d; xfb; xe3; xbc; xd6; x2c; x1e; x3f; x23; xf3; x44; xd6; x27; x03; x16; xf0; xfc; x34; x0e; x26; x9a; x49; x79; xb9; xda; xf2; x16; xa7; xb5; x83; x1f; x11; xd4; x9b; xad; xee; xac; x68; x10; xc2; xd7; xf3; x0e; xc9; xb4; x38; x0c; x04; xad; xb7; x24; x6e; x8e; x30; x23; x3e; xe7; xb7; xf1; xd9; x60; x38; x97; xf5; x08; xb5; xd5; x60; x57; x59];
  [x97; x63; xaa; x04; xe1; xbf; x29; x61; xcb; xfc; xa7; xa4; x08; x00; x96; x8f; x58; x94; x90; x7d; x89; xc0; x8b; x3f; xa9; x91; xb2; xdc; x3e; xa4; x9f; x70; x90; x27; x02; xfd; xeb; xcb; x2a; x88; x60; x57; x11; xc4; x05; x33; xaf; x89; xf4; x73; x34; x7d; xe3; x92; xf4; x65; x2b; x5a; x51; x54; xdf; xc5; xb2; x2c; xca; x2a; xfd; x63; x8c; x5d; x0a; xeb; xff; x4e; x69; x2e; x66; xc1; x2b; xd2; x3a; xb0; xcb; xf8; x6e; xf3; x23; x27; x1f; x13; xc8; xf0; xec; x29; xf0; x70];
  [x33; x3e; xed; x2e; xb3; x07; x13; x46; xe7; x81; x55; xa4; x33; x2f; x04; xae; x66; x03; x5f; x19; xd3; x49; x44; xc9; x58; x48; x31; x6c; x8a; x5d; x7d; x0b; xb9; xb0; x10; x5e; xaa; xaf; x6a; x2a; xa9; x1a; x04; xef; x70; xa3; xf0; x78; x1f; xd6; x3a; xaa; x77; xfb; x3e; x77; xe1; xd9; x4b; xa7; xa2; xa5; xec; x44; x43; xd5; x95; x7b; x32; x48; xd4; x25; x1d; x0f; x34; xa3; x00; x83; xd3; x70; x2b; xc5; xe1; x60; x1c; x53; x1c; xde; xe4; xe9; x7d; x2c; x51; x24; x22; x27];
  [x2e; x34; xc5; x49; xaf; x92; xbc; x1a; xd0; xfa; xe6; xb2; x11; xd8; xee; xff; x29; x4e; xc8; xfc; x8d; x8c; xa2; xef; x43; xc5; x4c; xa4; x18; xdf; xb5; x11; xfc; x75; xa9; x42; x8a; xbb; x7b; xbf; x58; xa3; xad; x96; x77; x39; x5c; x8c; x48; xaa; xed; xcd; x6f; xc7; x7f; xe2; xa6; x20; xbc; xf6; xd7; x5f; x73; x19; x66; x42; xc8; x42; xd0; x90; xab; xe3; x7e; x54; x19; x7f; x0f; x8e; x84; xeb; xb9; x97; xa4; x65; xd0; xa1; x03; x25; x5f; x89; xdf; x91; x11; x91; xef; x0f]
].

Definition ge25519_niels_sliding_multiples : list ge25519_niels := [
  Niels (Fe 0x00003905d740913e 0x0000ba2817d673a2 0x00023e2827f4e67c 0x000133d2e0c21a34 0x00044fd2f9298f81)
    (Fe 0x000493c6f58c3b85 0x0000df7181c325f7 0x0000f50b0b3e4cb7 0x0005329385a44c32 0x00007cf9d3a33d4b)
    (Fe 0x00011205877aaa68 0x000479955893d579 0x00050d66309b67a0 0x0002d42d0dbee5ee 0x0006f117b689f0c6);
  Niels (Fe 0x00011fe8a4fcd265 0x0007bcb8374faacc 0x00052f5af4ef4d4f 0x0005314098f98d10 0x0002ab91587555bd)
    (Fe 0x0005b0a84cee9730 0x00061d10c97155e4 0x0004059cc8096a10 0x00047a608da8014f 0x0007a164e1b9a80f)
    (Fe 0x0006933f0dd0d889 0x00044386bb4c4295 0x0003cb6d3162508c 0x00026368b872a2c6 0x0005a2826af12b9b);
  Niels (Fe 0x000182c3a447d6ba 0x00022964e536eff2 0x000192821f540053 0x0002f9f19e788e5c 0x000154a7e73eb1b5)
    (Fe 0x0002bc4408a5bb33 0x000078ebdda05442 0x0002ffb112354123 0x000375ee8df5862d 0x0002945ccf146e20)
    (Fe 0x0003dbf1812a8285 0x0000fa17ba3f9797 0x0006f69cb49c3820 0x00034d5a0db3858d 0x00043aabe696b3bb);
  Niels (Fe 0x00072c9aaa3221b1 0x000267774474f74d 0x000064b0e9b28085 0x0003f04ef53b27c9 0x0001d6edd5d2e531)
    (Fe 0x00025cd0944ea3bf 0x00075673b81a4d63 0x000150b925d1c0d4 0x00013f38d9294114 0x000461bea69283c9)
    (Fe 0x00036dc801b8b3a2 0x0000e0a7d4935e30 0x0001deb7cecc0d7d 0x000053a94e20dd2c 0x0007a9fbb1c6a0f9);
  Niels (Fe 0x0006217e039d8064 0x0006dea408337e6d 0x00057ac112628206 0x000647cb65e30473 0x00049c05a51fadc9)
    (Fe 0x0006678aa6a8632f 0x0005ea3788d8b365 0x00021bd6d6994279 0x0007ace75919e4e3 0x00034b9ed338add7)
    (Fe 0x0004e8bf9045af1b 0x000514e33a45e0d6 0x0007533c5b8bfe0f 0x000583557b7e14c9 0x00073c172021b008);
  Niels (Fe 0x00075b0249864348 0x00052ee11070262b 0x000237ae54fb5acd 0x0003bfd1d03aaab5 0x00018ab598029d5c)
    (Fe 0x000700848a802ade 0x0001e04605c4e5f7 0x0005c0d01b9767fb 0x0007d7889f42388b 0x0004275aae2546d8)
    (Fe 0x00032cc5fd6089e9 0x000426505c949b05 0x00046a18880c7ad2 0x0004a4221888ccda 0x0003dc65522b53df);
  Niels (Fe 0x0007013b327fbf93 0x0001336eeded6a0d 0x0002b565a2bbf3af 0x000253ce89591955 0x0000267882d17602)
    (Fe 0x0000c222a2007f6d 0x000356b79bdb77ee 0x00041ee81efe12ce 0x000120a9bd07097d 0x000234fd7eec346f)
    (Fe 0x0000a119732ea378 0x00063bf1ba8e2a6c 0x00069f94cc90df9a 0x000431d1779bfc48 0x000497ba6fdaa097);
  Niels (Fe 0x0003cd86468ccf0b 0x00048553221ac081 0x0006c9464b4e0a6e 0x00075fba84180403 0x00043b5cd4218d05)
    (Fe 0x0006cc0313cfeaa0 0x0001a313848da499 0x0007cb534219230a 0x00039596dedefd60 0x00061e22917f12de)
    (Fe 0x0002762f9bd0b516 0x0001c6e7fbddcbb3 0x00075909c3ace2bd 0x00042101972d3ec9 0x000511d61210ae4d);
  Niels (Fe 0x000386484420de87 0x0002d6b25db68102 0x000650b4962873c0 0x0004081cfd271394 0x00071a7fe6fe2482)
    (Fe 0x000676ef950e9d81 0x0001b81ae089f258 0x00063c4922951883 0x0002f1d54d9b3237 0x0006d325924ddb85)
    (Fe 0x000182b8a5c8c854 0x00073fcbe5406d8e 0x0005de3430cff451 0x000554b967ac8c41 0x0004746c4b6559ee);
  Niels (Fe 0x000546c864741147 0x0003a1df99092690 0x0001ca8cc9f4d6bb 0x00036b7fc9cd3b03 0x000219663497db5e)
    (Fe 0x00077b3c6dc69a2b 0x0004edf13ec2fa6e 0x0004e85ad77beac8 0x0007dba2b28e7bda 0x0005c9a51de34fe9)
    (Fe 0x0000f1cf79f10e67 0x00043ccb0a2b7ea2 0x00005089dfff776a 0x0001dd84e1d38b88 0x0004804503c60822);
  Niels (Fe 0x000021d23a36d175 0x0004fd3373c6476d 0x00020e291eeed02a 0x00062f2ecf2e7210 0x000771e098858de4)
    (Fe 0x00049ed02ca37fc7 0x000474c2b5957884 0x0005b8388e816683 0x0004b6c454b76be4 0x000553398a516506)
    (Fe 0x0002f5d278451edf 0x000730b133997342 0x0006965420eb6975 0x000308a3bfa516cf 0x0005a5ed1d68ff5a);
  Niels (Fe 0x0005e0c558527359 0x0003395b73afd75c 0x000072afa4e4b970 0x00062214329e0f6d 0x000019b60135fefd)
    (Fe 0x0005122afe150e83 0x0004afc966bb0232 0x0001c478833c8268 0x00017839c3fc148f 0x00044acb897d8bf9)
    (Fe 0x000068145e134b83 0x0001e4860982c3cc 0x000068fb5f13d799 0x0007c9283744547e 0x000150c49fde6ad2);
  Niels (Fe 0x0001863c9cdca868 0x0003770e295a1709 0x0000d85a3720fd13 0x0005e0ff1f71ab06 0x00078a6d7791e05f)
    (Fe 0x0003f29509471138 0x000729eeb4ca31cf 0x00069c22b575bfbc 0x0004910857bce212 0x0006b2b5a075bb99)
    (Fe 0x0007704b47a0b976 0x0002ae82e91aab17 0x00050bd6429806cd 0x00068055158fd8ea 0x000725c7ffc4ad55);
  Niels (Fe 0x00002bf71cd098c0 0x00049dabcc6cd230 0x00040a6533f905b2 0x000573efac2eb8a4 0x0004cd54625f855f)
    (Fe 0x00026715d1cf99b2 0x0002205441a69c88 0x000448427dcd4b54 0x0001d191e88abdc5 0x000794cc9277cb1f)
    (Fe 0x0006c426c2ac5053 0x0005a65ece4b095e 0x0000c44086f26bb6 0x0007429568197885 0x0007008357b6fcc8);
  Niels (Fe 0x00039fbb82584a34 0x00047a568f257a03 0x00014d88091ead91 0x0002145b18b1ce24 0x00013a92a3669d6d)
    (Fe 0x0000672738773f01 0x000752bf799f6171 0x0006b4a6dae33323 0x0007b54696ead1dc 0x00006ef7e9851ad0)
    (Fe 0x0003771cc0577de5 0x0003ca06bb8b9952 0x00000b81c5d50390 0x00043512340780ec 0x0003c296ddf8a2af);
  Niels (Fe 0x00034d2ebb1f2541 0x0000e815b723ff9d 0x000286b416e25443 0x0000bdfe38d1bee8 0x0000a892c7007477)
    (Fe 0x000515f9d914a713 0x00073191ff2255d5 0x00054f5cc2a4bdef 0x0003dd57fc118bcf 0x0007a99d393490c7)
    (Fe 0x0002ed2436bda3e8 0x00002afd00f291ea 0x0000be7381dea321 0x0003e952d4b2b193 0x000286762d28302f);
  Niels (Fe 0x00058e2bce2ef5bd 0x00068ce8f78c6f8a 0x0006ee26e39261b2 0x00033d0aa50bcf9d 0x0007686f2a3d6f17)
    (Fe 0x000036093ce35b25 0x0003b64d7552e9cf 0x00071ee0fe0b8460 0x00069d0660c969e5 0x00032f1da046a9d9)
    (Fe 0x000512a66d597c6a 0x0000609a70a57551 0x000026c08a3c464c 0x0004531fc8ee39e1 0x000561305f8a9ad2);
  Niels (Fe 0x0002cc28e7b0c0d5 0x00077b60eb8a6ce4 0x0004042985c277a6 0x000636657b46d3eb 0x000030a1aef2c57c)
    (Fe 0x0004978dec92aed1 0x000069adae7ca201 0x00011ee923290f55 0x00069641898d916c 0x00000aaec53e35d4)
    (Fe 0x0001f773003ad2aa 0x000005642cc10f76 0x00003b48f82cfca6 0x0002403c10ee4329 0x00020be9c1c24065);
  Niels (Fe 0x0000e44ae2025e60 0x0005f97b9727041c 0x0005683472c0ecec 0x000188882eb1ce7c 0x00069764c545067e)
    (Fe 0x000387d8249673a6 0x0005bea8dc927c2a 0x0005bd8ed5650ef0 0x0000ef0e3fcd40e1 0x000750ab3361f0ac)
    (Fe 0x00023283a2f81037 0x000477aff97e23d1 0x0000b8958dbcbb68 0x0000205b97e8add6 0x00054f96b3fb7075);
  Niels (Fe 0x0005afc616b11ecd 0x00039f4aec8f22ef 0x0003b39e1625d92e 0x0005f85bd4508873 0x00078e6839fbe85d)
    (Fe 0x0005f20429669279 0x00008fafae4941f5 0x00015d83c4eb7688 0x0001cf379eca4146 0x0003d7fe9c52bb75)
    (Fe 0x00032df737b8856b 0x0000608342f14e06 0x0003967889d74175 0x0001211907fba550 0x00070f268f350088);
  Niels (Fe 0x0004112070dcf355 0x0007dcff9c22e464 0x00054ada60e03325 0x00025cd98eef769a 0x000404e56c039b8c)
    (Fe 0x00064583b1805f47 0x00022c1baf832cd0 0x000132c01bd4d717 0x0004ecf4c3a75b8f 0x0007c0d345cfad88)
    (Fe 0x00071f4b8c78338a 0x00062cfc16bc2b23 0x00017cf51280d9aa 0x0003bbae5e20a95a 0x00020d754762aaec);
  Niels (Fe 0x0004feb135b9f543 0x00063bd192ad93ae 0x00044e2ea612cdf7 0x000670f4991583ab 0x00038b8ada8790b4)
    (Fe 0x0007c36fc73bb758 0x0004a6c797734bd1 0x0000ef248ab3950e 0x00063154c9a53ec8 0x0002b8f1e46f3cee)
    (Fe 0x00004a9cdf51f95d 0x0005d963fbd596b8 0x00022d9b68ace54a 0x0004a98e8836c599 0x000049aeb32ceba1);
  Niels (Fe 0x00067d3c63dcfe7e 0x000112f0adc81aee 0x00053df04c827165 0x0002fe5b33b430f0 0x00051c665e0c8d62)
    (Fe 0x00007d0b75fc7931 0x00016f4ce4ba754a 0x0005ace4c03fbe49 0x00027e0ec12a159c 0x000795ee17530f67)
    (Fe 0x00025b0a52ecbd81 0x0005dc0695fce4a9 0x0003b928c575047d 0x00023bf3512686e5 0x0006cd19bf49dc54);
  Niels (Fe 0x0007619052179ca3 0x0000c16593f0afd0 0x000265c4795c7428 0x00031c40515d5442 0x0007520f3db40b2e)
    (Fe 0x0006612165afc386 0x0001171aa36203ff 0x0002642ea820a8aa 0x0001f3bb7b313f10 0x0005e01b3a7429e4)
    (Fe 0x00050be3d39357a1 0x0003ab33d294a7b6 0x0004c479ba59edb3 0x0004c30d184d326f 0x00071092c9ccef3c);
  Niels (Fe 0x0000523f0364918c 0x000687f56d638a7b 0x00020796928ad013 0x0005d38405a54f33 0x0000ea15b03d0257)
    (Fe 0x0003d8ac74051dcf 0x00010ab6f543d0ad 0x0005d0f3ac0fda90 0x0005ef1d2573e5e4 0x0004173a5bb7137a)
    (Fe 0x00056e31f0f9218a 0x0005635f88e102f8 0x0002cbc5d969a5b8 0x000533fbc98b347a 0x0005fc565614a4e3);
  Niels (Fe 0x0006570dc46d7ae5 0x00018a9f1b91e26d 0x000436b6183f42ab 0x000550acaa4f8198 0x00062711c414c454)
    (Fe 0x0002e1e67790988e 0x0001e38b9ae44912 0x000648fbb4075654 0x00028df1d840cd72 0x0003214c7409d466)
    (Fe 0x0001827406651770 0x0004d144f286c265 0x00017488f0ee9281 0x00019e6cdb5c760c 0x0005bea94073ecb8);
  Niels (Fe 0x0005bf0912c89be4 0x00062fadcaf38c83 0x00025ec196b3ce2c 0x00077655ff4f017b 0x0003aacd5c148f61)
    (Fe 0x0000ce63f343d2f8 0x0001e0a87d1e368e 0x000045edbc019eea 0x0006979aed28d0d1 0x0004ad0785944f1b)
    (Fe 0x00063b34c3318301 0x0000e0e62d04d0b1 0x000676a233726701 0x00029e9a042d9769 0x0003aff0cb1d9028);
  Niels (Fe 0x0005c7eb3a20405e 0x0005fdb5aad930f8 0x0004a757e63b8c47 0x00028e9492972456 0x000110e7e86f4cd2)
    (Fe 0x0006430bf4c53505 0x000264c3e4507244 0x00074c9f19a39270 0x00073f84f799bc47 0x0002ccf9f732bd99)
    (Fe 0x0000d89ed603f5e4 0x00051e1604018af8 0x0000b8eedc4a2218 0x00051ba98b9384d0 0x00005c557e0b9693);
  Niels (Fe 0x0001ce311fc97e6f 0x0006023f3fb5db1f 0x0007b49775e8fc98 0x0003ad70adbf5045 0x0006e154c178fe98)
    (Fe 0x0006bbb089c20eb0 0x0006df41fb0b9eee 0x00051087ed87e16f 0x000102db5c9fa731 0x000289fef0841861)
    (Fe 0x00016336fed69abf 0x0004f066b929f9ec 0x0004e9ff9e6c5b93 0x00018c89bc4bb2ba 0x0006afbf642a95ca);
  Niels (Fe 0x0000de0c62f5d2c1 0x00049601cf734fb5 0x0006b5c38263f0f6 0x0004623ef5b56d06 0x0000db4b851b9503)
    (Fe 0x00055070f913a8cc 0x000765619eac2bbc 0x0003ab5225f47459 0x00076ced14ab5b48 0x00012c093cedb801)
    (Fe 0x00047f9308b8190f 0x000414235c621f82 0x00031f5ff41a5a76 0x0006736773aab96d 0x00033aa8799c6635);
  Niels (Fe 0x0007f51ebd085cf2 0x00012cfa67e3f5e1 0x0001800cf1e3d46a 0x00054337615ff0a8 0x000233c6f29e8e21)
    (Fe 0x0000f588fc156cb1 0x000363414da4f069 0x0007296ad9b68aea 0x0004d3711316ae43 0x000212cd0c1c8d58)
    (Fe 0x0004d5107f18c781 0x00064a4fd3a51a5e 0x0004f4cd0448bb37 0x000671d38543151e 0x0001db7778911914);
  Niels (Fe 0x000352397c6bc26f 0x00018a7aa0227bbe 0x0005e68cc1ea5f8b 0x0006fe3e3a7a1d5f 0x00031ad97ad26e2a)
    (Fe 0x00014769dd701ab6 0x00028339f1b4b667 0x0004ab214b8ae37b 0x00025f0aefa0b0fe 0x0007ae2ca8a017d2)
    (Fe 0x000017ed0920b962 0x000187e33b53b6fd 0x00055829907a1463 0x000641f248e0a792 0x0001ed1fc53a6622)
].
