(* ===== verification/ScalarMult.v ===== *)
(** * ScalarMult: multiples of points

    The scalar multiplications of ed25519-donna/ed25519-donna-impl-base.h: multiples of the
    base point by a constant-time choice from the table of [GeTables], and the sum of a
    multiple of a point and a multiple of the base point that a verification needs. *)

From stdpp Require Import base numbers list.
From Stdlib Require Import ZArith Lia.
From S2P Require Import Prelude Words Field25519 FieldBytes FieldPow Scalars ScalarDigits Ge25519 GeTables.
#[local] Open Scope Z_scope.

(** ** Multiples of the base point *)

Definition u32 (z : Z) : Z := Z.land z 0xffffffff.

Definition ge25519_windowb_equal (b c : Z) : Z := Z.shiftr (u32 (Z.lxor b c - 1)) 31.

(** The sign bit of a [signed char]. *)
Definition char_sign (b : Z) : Z := Z.shiftr (b mod 256) 7.

(** The packed entry for [u], 1 to 8; the neutral element for 0. *)
Definition choose_packed (table : list (list byte)) (pos : nat) (u : Z) : list byte :=
  let packed := <[32%nat := byte_of_Z 1]> (<[0%nat := byte_of_Z 1]> (replicate 96 (byte_of_Z 0))) in
  foldl (fun packed i => curve25519_move_conditional_bytes packed (nth (pos * 8 + i) table [])
      (ge25519_windowb_equal u (Z.of_nat i + 1))) packed (seq 0 8).

Definition ge25519_scalarmult_base_choose_niels (table : list (list byte)) (pos : nat) (b : Z) : ge25519_niels :=
  let sign := char_sign b in
  let mask := Z.lxor (u32 (sign - 1)) 0xffffffff in
  let u := Z.lxor (u32 (b + mask)) mask in
  let packed := choose_packed table pos u in
  let ysubx := curve25519_expand (take 32 packed) in
  let xaddy := curve25519_expand (take 32 (drop 32 packed)) in
  let t2d := curve25519_expand (take 32 (drop 64 packed)) in
  let '(ysubx, xaddy) := curve25519_swap_conditional ysubx xaddy sign in
  let neg := curve25519_neg t2d in
  let '(t2d, neg) := curve25519_swap_conditional t2d neg sign in
  Niels ysubx xaddy t2d.

Definition ge25519_scalarmult_base_niels (basepoint_table : list (list byte)) (s : bignum256modm) : ge25519 :=
  let b := contract256_window4_modm s in
  let t := ge25519_scalarmult_base_choose_niels basepoint_table 0 (b !!! 1%nat) in
  let r := Ge (curve25519_sub_reduce (n_xaddy t) (n_ysubx t)) (curve25519_add_reduce (n_xaddy t) (n_ysubx t))
    (Fe 2 0 0 0 0) (curve25519_copy (n_t2d t)) in
  let r := foldl (fun r k => let i := (2 * k + 3)%nat in
      ge25519_nielsadd2 r (ge25519_scalarmult_base_choose_niels basepoint_table (i / 2) (b !!! i))) r (seq 0 31) in
  let r := ge25519_double_partial r r in
  let r := ge25519_double_partial r r in
  let r := ge25519_double_partial r r in
  let r := ge25519_double r in
  let t := ge25519_scalarmult_base_choose_niels basepoint_table 0 (b !!! 0%nat) in
  let t := Niels (n_ysubx t) (n_xaddy t) (curve25519_mul (n_t2d t) ge25519_ecd) in
  let r := ge25519_nielsadd2 r t in
  foldl (fun r k => let i := (2 * k + 2)%nat in
      ge25519_nielsadd2 r (ge25519_scalarmult_base_choose_niels basepoint_table (i / 2) (b !!! i))) r (seq 0 31).

(** ** A multiple of a point plus a multiple of the base point *)

Abbreviation S1_SWINDOWSIZE := 5%Z.
Abbreviation S1_TABLE_SIZE := 8%nat.
Abbreviation S2_SWINDOWSIZE := 7%Z.

Definition fe_zero : bignum25519 := Fe 0 0 0 0 0.
Definition ge_neutral : ge25519 := Ge fe_zero (Fe 1 0 0 0 0) (Fe 1 0 0 0 0) fe_zero.

(** The odd multiples of a point: [d1] is its double, [n] entries follow [q]. *)
Fixpoint odd_multiples (d1 : ge25519) (q : ge25519_pniels) (n : nat) : list ge25519_pniels :=
  match n with
  | O => [q]
  | S n => q :: odd_multiples d1 (ge25519_pnielsadd d1 q) n
  end.

(** The number of positions up to the first one, from the top, with a nonzero digit. *)
Fixpoint top_position (slide1 slide2 : list Z) (n : nat) : nat :=
  match n with
  | O => O
  | S i => if Z.lor (slide1 !!! i) (slide2 !!! i) =? 0 then top_position slide1 slide2 i else n
  end.

Definition double_scalarmult_step (pre1 : list ge25519_pniels) (slide1 slide2 : list Z) (r : ge25519) (i : nat) : ge25519 :=
  let t := ge25519_double_p1p1 r in
  let '(r, t) := if negb (slide1 !!! i =? 0) then
      let r := ge25519_p1p1_to_full t in
      (r, ge25519_pnielsadd_p1p1 r (nth (Z.to_nat (Z.abs (slide1 !!! i) / 2)) pre1 (Pniels fe_zero fe_zero fe_zero fe_zero))
        (char_sign (slide1 !!! i) =? 1))
    else (r, t) in
  let '(r, t) := if negb (slide2 !!! i =? 0) then
      let r := ge25519_p1p1_to_full t in
      (r, ge25519_nielsadd2_p1p1 r (nth (Z.to_nat (Z.abs (slide2 !!! i) / 2)) ge25519_niels_sliding_multiples (Niels fe_zero fe_zero fe_zero))
        (char_sign (slide2 !!! i) =? 1))
    else (r, t) in
  ge25519_p1p1_to_partial r t.

(** The loop from position [n - 1] down to 0. *)
Fixpoint double_scalarmult_loop (pre1 : list ge25519_pniels) (slide1 slide2 : list Z) (r : ge25519) (n : nat) : ge25519 :=
  match n with
  | O => r
  | S i => double_scalarmult_loop pre1 slide1 slide2 (double_scalarmult_step pre1 slide1 slide2 r i) i
  end.

Definition ge25519_double_scalarmult_vartime (p1 : ge25519) (s1 s2 : bignum256modm) : ge25519 :=
  let slide1 := contract256_slidingwindow_modm s1 S1_SWINDOWSIZE in
  let slide2 := contract256_slidingwindow_modm s2 S2_SWINDOWSIZE in
  let d1 := ge25519_double p1 in
  let pre1 := odd_multiples d1 (ge25519_full_to_pniels p1) (S1_TABLE_SIZE - 1) in
  double_scalarmult_loop pre1 slide1 slide2 ge_neutral (top_position slide1 slide2 256).
