(* ===== verification/BaseTable.v ===== *)
(** * BaseTable: the tables hold multiples of the base point

    Every entry of the tables of [GeTables] is compared, with the group operations of
    [Ge25519], with the multiple of the base point that the code takes it for; and the
    choice from the table by a digit is the entry of that digit, its negative for a
    negative digit and the neutral element for zero. *)

From stdpp Require Import base numbers list.
From Stdlib Require Import ZArith Lia Zmod Field.
From S2P Require Import Prelude Words Primes Groups Curve25519 Field25519 FieldBytes FieldPow Scalars ScalarsSpec ScalarDigits.
From S2P Require Import Ge25519 Ge25519Spec GePack GeTables ScalarMult.
#[local] Open Scope Z_scope.

(** ** The base point *)

Definition base_x : F := Zmod.of_Z _ 15112221349535400772501151409588531511454012693041857206046113283949847762202.
Definition base_y : F := Zmod.of_Z _ 46316835694926478169428394003475163141307993866256225615783033603165251855960.

Lemma base_on : on_curve base_x base_y.
Proof. unfold on_curve. F_compute. Qed.

Definition B : point := mk_point base_x base_y base_on.

Lemma basepoint_rep : rep B ge25519_basepoint.
Proof.
  exists 1%F. split; [apply one_nonzero|]. unfold B. rewrite px_mk, py_mk.
  split_and!; (split; [repeat split; by vm_compute|F_compute]).
Qed.

(** ** Entries of the tables *)

(** Niels coordinates with the factor [c] of the third one: [2 d], or 2 in the first rows. *)
Definition rep_entry (c : F) (P : point) (q : ge25519_niels) : Prop :=
  fe_is tight (py P - px P)%F (n_ysubx q) /\ fe_is tight (py P + px P)%F (n_xaddy q) /\
  fe_is tight (c * px P * py P)%F (n_t2d q).

(** Equality modulo p of small representatives. *)
Definition same (a b : bignum25519) : bool :=
  let d := fe_val a - fe_val b in (d =? 0) || (d =? p25519) || (d =? - p25519) || (d =? 2 * p25519) || (d =? - (2 * p25519)).

Lemma same_fe a b : same a b = true -> fe a = fe b.
Proof.
  unfold same, fe. intros H. assert (exists k, fe_val a = fe_val b + k * p25519) as (k & ->).
  { repeat (apply orb_true_iff in H as [H|H]); apply Z.eqb_eq in H;
      [exists 0|exists 1|exists (-1)|exists 2|exists (-2)]; lia. }
  apply Zmod.of_Z_inj, Z_mod_plus_full.
Qed.

Definition limbs_b (a : bignum25519) : bool :=
  forallb (fun x => (0 <=? x) && (x <=? tight)) [f0 a; f1 a; f2 a; f3 a; f4 a].

Lemma limbs_b_spec a : limbs_b a = true -> limbs tight a.
Proof.
  unfold limbs_b, limbs, Bnd. cbn [forallb]. rewrite !andb_true_iff, !Z.leb_le. tauto.
Qed.

(** Compares an entry [q] with the extended coordinates [r] of a point; [k] stands for the factor. *)
Definition check_entry (k : bignum25519) (r : ge25519) (q : ge25519_niels) : bool :=
  limbs_b (n_ysubx q) && limbs_b (n_xaddy q) && limbs_b (n_t2d q) &&
  same (curve25519_mul (n_ysubx q) (gz r)) (curve25519_sub_reduce (gy r) (gx r)) &&
  same (curve25519_mul (n_xaddy q) (gz r)) (curve25519_add_reduce (gy r) (gx r)) &&
  same (curve25519_mul (n_t2d q) (gz r)) (curve25519_mul (gt r) k).

Lemma check_entry_sound c k P r q : fe_is tight c k -> rep P r -> check_entry k r q = true -> rep_entry c P q.
Proof.
  intros Hk (z & Hz & Hx & Hy & Hz' & Ht). unfold check_entry. rewrite !andb_true_iff.
  intros [[[[[L1%limbs_b_spec L2%limbs_b_spec] L3%limbs_b_spec] S1%same_fe] S2%same_fe] S3%same_fe].
  assert (forall a, limbs tight a -> fe_is tight (fe a) a) as Hfe by done.
  rewrite (proj2 (fe_mul _ _ _ _ _ _ (Hfe _ L1) Hz' _ _)), (proj2 (fe_sub_reduce _ _ _ _ _ _ Hy Hx _ _)) in S1.
  rewrite (proj2 (fe_mul _ _ _ _ _ _ (Hfe _ L2) Hz' _ _)), (proj2 (fe_add_reduce _ _ _ _ _ _ Hy Hx _ _)) in S2.
  rewrite (proj2 (fe_mul _ _ _ _ _ _ (Hfe _ L3) Hz' _ _)), (proj2 (fe_mul _ _ _ _ _ _ Ht Hk _ _)) in S3.
  split_and!; (split; [done|]; apply (F_mul_cancel z); [done|]); rewrite Zmod.mul_comm; [rewrite S1|rewrite S2|rewrite S3]; ring.
Qed.

(** Consecutive multiples: the entries of [qs] against [r], [r + step], ... *)
Fixpoint check_entries (k : bignum25519) (r step : ge25519) (qs : list ge25519_niels) : bool :=
  match qs with
  | [] => true
  | q :: qs => check_entry k r q && check_entries k (ge25519_add r step) step qs
  end.

Lemma check_entries_sound c k : fe_is tight c k -> forall qs P Q r step, rep P r -> rep Q step ->
  check_entries k r step qs = true -> forall i q, qs !! i = Some q -> rep_entry c (gadd P (gmul (Z.of_nat i) Q)) q.
Proof.
  intros Hk. induction qs as [|q' qs IH]; intros P Q r step HP HQ H i q Hi; [done|].
  cbn [check_entries] in H. apply andb_true_iff in H as [H1 H2]. destruct i as [|i].
  - injection Hi as ->. change (gmul (Z.of_nat 0) Q) with (gzero : point). rewrite gadd_zero. by eapply check_entry_sound.
  - specialize (IH (gadd P Q) Q _ step (add_rep _ _ _ _ HP HQ) HQ H2 i q Hi).
    rewrite Nat2Z.inj_succ, gmul_succ, <- gadd_assoc. exact IH.
Qed.

(** ** The table of the base point *)

Definition row_niels (row : list byte) : ge25519_niels :=
  Niels (curve25519_expand (take 32 row)) (curve25519_expand (take 32 (drop 32 row))) (curve25519_expand (take 32 (drop 64 row))).

Definition double8 (r : ge25519) : ge25519 := Pos.iter ge25519_double r 8.

Fixpoint check_groups (k : bignum25519) (r : ge25519) (rows : list (list byte)) (n : nat) : bool :=
  match n with
  | O => true
  | S n => forallb (fun row => length row =? 96)%nat (take 8 rows) && (length (take 8 rows) =? 8)%nat &&
      check_entries k r r (row_niels <$> take 8 rows) && check_groups ge25519_ec2d (double8 r) (drop 8 rows) n
  end.

Lemma double8_rep P r : rep P r -> rep (gmul 256 P) (double8 r).
Proof.
  intros H. assert (forall Q q, rep Q q -> rep (gmul 2 Q) (ge25519_double q)) as Hd.
  { intros Q q Hq. change 2 with (1 + 1). rewrite gmul_add, gmul_1. by apply double_rep, rep_to_partial. }
  change 256 with (2 * (2 * (2 * (2 * (2 * (2 * (2 * 2))))))). rewrite !gmul_mul. unfold double8. cbn [Pos.iter]. by do 8 apply Hd.
Qed.

Lemma lookup_nth_app (rows : list (list byte)) i : (i < length (take 8 rows))%nat -> take 8 rows !! i = Some (nth i rows []).
Proof.
  intros Hi. rewrite length_take in Hi. rewrite lookup_take_lt by lia. destruct (lookup_lt_is_Some_2 rows i) as [x Hx]; [lia|].
  rewrite Hx. f_equal. symmetry. by apply nth_lookup_Some.
Qed.

Lemma check_groups_sound n : forall c k P r rows, fe_is tight c k -> rep P r -> check_groups k r rows n = true ->
  forall pos i, (pos < n)%nat -> (i < 8)%nat ->
    length (nth (pos * 8 + i) rows []) = 96%nat /\
    rep_entry (if (pos =? 0)%nat then c else (two * curve_d)%F) (gmul ((Z.of_nat i + 1) * 256 ^ Z.of_nat pos) P)
      (row_niels (nth (pos * 8 + i) rows [])).
Proof.
  induction n as [|n IH]; intros c k P r rows Hk HP H pos i Hpos Hi; [lia|]. cbn [check_groups] in H.
  rewrite !andb_true_iff in H. destruct H as [[[Hlen Hl8%Nat.eqb_eq] He] Hn]. destruct pos as [|pos].
  - cbn [Nat.mul Nat.add Nat.eqb]. pose proof (lookup_nth_app rows i ltac:(lia)) as Hrow. split.
    + apply forallb_forall with (x := nth i rows []) in Hlen; [by apply Nat.eqb_eq|]. apply list_elem_of_In, list_elem_of_lookup. by exists i.
    + rewrite Z.pow_0_r, Z.mul_1_r, gmul_add, gmul_1, gadd_comm. apply (check_entries_sound c k Hk _ _ _ _ _ HP HP He i). by rewrite list_lookup_fmap, Hrow.
  - specialize (IH _ _ _ _ (drop 8 rows) ec2d_is (double8_rep P r HP) Hn pos i ltac:(lia) Hi).
    assert (nth (pos * 8 + i) (drop 8 rows) [] = nth (S pos * 8 + i) rows []) as E.
    { rewrite !nth_lookup, lookup_drop. f_equal. }
    rewrite E in IH. destruct IH as [Hl Hr]. split; [done|]. cbn [Nat.eqb].
    rewrite <- gmul_mul, <- Z.mul_assoc, (Z.mul_comm _ 256), <- Z.pow_succ_r, <- Nat2Z.inj_succ in Hr by lia.
    by destruct (pos =? 0)%nat.
Qed.

Definition fe_two : bignum25519 := Fe 2 0 0 0 0.

Lemma fe_two_is : fe_is tight two fe_two.
Proof. split; [repeat split; by vm_compute|F_compute]. Qed.

Lemma base_table_checked : check_groups fe_two ge25519_basepoint ge25519_niels_base_multiples 32 = true.
Proof. vm_cast_no_check (eq_refl true). Qed.

(** Row [8 pos + i] holds the multiple [(i + 1) 256^pos] of the base point. *)
Lemma base_table_rows pos i : (pos < 32)%nat -> (i < 8)%nat ->
  length (nth (pos * 8 + i) ge25519_niels_base_multiples []) = 96%nat /\
  rep_entry (if (pos =? 0)%nat then two else (two * curve_d)%F) (gmul ((Z.of_nat i + 1) * 256 ^ Z.of_nat pos) B)
    (row_niels (nth (pos * 8 + i) ge25519_niels_base_multiples [])).
Proof. apply (check_groups_sound 32 two fe_two B ge25519_basepoint); [apply fe_two_is|apply basepoint_rep|apply base_table_checked]. Qed.

Lemma sliding_table_checked :
  check_entries ge25519_ec2d ge25519_basepoint (ge25519_double ge25519_basepoint) ge25519_niels_sliding_multiples = true.
Proof. vm_cast_no_check (eq_refl true). Qed.

(** Entry [i] of the second table holds the multiple [2 i + 1] of the base point. *)
Lemma sliding_table_entries i : (i < 32)%nat ->
  rep_niels (gmul (2 * Z.of_nat i + 1) B) (nth i ge25519_niels_sliding_multiples (Niels fe_zero fe_zero fe_zero)).
Proof.
  intros Hi. assert (rep (gmul 2 B) (ge25519_double ge25519_basepoint)) as Hd.
  { change 2 with (1 + 1). rewrite gmul_add, gmul_1. apply double_rep, rep_to_partial, basepoint_rep. }
  destruct (lookup_lt_is_Some_2 ge25519_niels_sliding_multiples i) as [q Hq]; [done|].
  rewrite (nth_lookup_Some _ _ _ _ Hq), Z.add_comm, gmul_add, gmul_1, Z.mul_comm, gmul_mul.
  exact (check_entries_sound _ _ ec2d_is _ _ _ _ _ basepoint_rep Hd sliding_table_checked i q Hq).
Qed.

(** ** The choice from the table *)

(** A statement about small numbers, by enumeration. *)
Lemma small_numbers (lo : Z) (n : nat) (f : Z -> bool) :
  forallb f ((fun k => lo + Z.of_nat k) <$> seq 0 n) = true -> forall z, lo <= z < lo + Z.of_nat n -> f z = true.
Proof.
  intros H z Hz. apply (proj1 (forallb_forall _ _) H). apply list_elem_of_In, list_elem_of_fmap.
  exists (Z.to_nat (z - lo)). split; [lia|]. apply elem_of_seq. lia.
Qed.

Lemma windowb_equal_spec u c : 0 <= u < 9 -> 1 <= c < 9 -> ge25519_windowb_equal u c = if u =? c then 1 else 0.
Proof.
  intros Hu Hc. apply Z.eqb_eq.
  pose proof (small_numbers 0 9 (fun u => forallb (fun c => ge25519_windowb_equal u c =? (if u =? c then 1 else 0)) ((fun k => 1 + Z.of_nat k) <$> seq 0 8))) as H.
  specialize (H eq_refl u Hu). cbv beta in H. exact (small_numbers 1 8 _ H c Hc).
Qed.

Definition neutral_packed : list byte := <[32%nat := byte_of_Z 1]> (<[0%nat := byte_of_Z 1]> (replicate 96 (byte_of_Z 0))).

Lemma choose_packed_spec table pos u : (forall i, (i < 8)%nat -> length (nth (pos * 8 + i) table []) = 96%nat) -> 0 <= u < 9 ->
  choose_packed table pos u = if u =? 0 then neutral_packed else nth (pos * 8 + Z.to_nat (u - 1)) table [].
Proof.
  intros Hl Hu. unfold choose_packed. fold neutral_packed.
  set (P := fun (i : nat) (p : list byte) => length p = 96%nat /\
    p = if decide (1 <= u <= Z.of_nat i) then nth (pos * 8 + Z.to_nat (u - 1)) table [] else neutral_packed).
  match goal with |- foldl ?f ?a _ = _ => assert (P (0 + 8)%nat (foldl f a (seq 0 8))) as [_ H] end.
  { apply foldl_seq_inv.
    - split; [done|]. by rewrite decide_False by lia.
    - intros i p Hi [Hp E]. rewrite windowb_equal_spec by lia. specialize (Hl i ltac:(lia)).
      rewrite curve25519_move_conditional_bytes_spec by (try done; destruct (_ =? _); lia).
      destruct (Z.eqb_spec u (Z.of_nat i + 1)) as [->|Hne]; cbn [Z.eqb]; (split; [done|]).
      + rewrite decide_True by lia. do 2 f_equal. lia.
      + rewrite E. destruct (decide (1 <= u <= Z.of_nat i)); [rewrite decide_True by lia|rewrite decide_False by lia]; done. }
  rewrite H. destruct (Z.eqb_spec u 0); [rewrite decide_False by lia|rewrite decide_True by lia]; done.
Qed.

Lemma entry_neg c P q : rep_entry c P q ->
  rep_entry c (gneg P) (Niels (n_xaddy q) (n_ysubx q) (curve25519_neg (n_t2d q))).
Proof.
  intros (H1 & H2 & H3). pose proof (fe_neg _ _ _ H3 _) as H4. unfold rep_entry. rewrite px_neg, py_neg. cbn [n_ysubx n_xaddy n_t2d].
  split_and!; eapply fe_is_eq; try eassumption; try ring; apply _.
Qed.

Lemma entry_neutral c : rep_entry c gzero (row_niels neutral_packed).
Proof.
  unfold rep_entry. rewrite px_zero, py_zero.
  split_and!; (split; [repeat split; by vm_compute|]); cbn [row_niels n_ysubx n_xaddy n_t2d]; [F_compute|F_compute|].
  transitivity (0%F : F); [F_compute|ring].
Qed.

Lemma limbs_mask64 a : limbs tight a -> limbs mask64 a.
Proof. intros H. by eapply limbs_le. Qed.

(** The sign and the absolute value of a digit. *)
Lemma choose_digit b : -8 <= b <= 8 ->
  char_sign b = (if b <? 0 then 1 else 0) /\
  Z.lxor (u32 (b + Z.lxor (u32 (char_sign b - 1)) 0xffffffff)) (Z.lxor (u32 (char_sign b - 1)) 0xffffffff) = Z.abs b.
Proof.
  intros Hb. split; apply Z.eqb_eq.
  - exact (small_numbers (-8) 17 (fun b => char_sign b =? (if b <? 0 then 1 else 0)) eq_refl b ltac:(lia)).
  - exact (small_numbers (-8) 17 (fun b => Z.lxor (u32 (b + Z.lxor (u32 (char_sign b - 1)) 0xffffffff)) (Z.lxor (u32 (char_sign b - 1)) 0xffffffff) =? Z.abs b) eq_refl b ltac:(lia)).
Qed.

Definition entry_factor (pos : nat) : F := if (pos =? 0)%nat then two else (two * curve_d)%F.

Theorem choose_niels_spec pos b : (pos < 32)%nat -> -8 <= b <= 8 ->
  rep_entry (entry_factor pos) (gmul (b * 256 ^ Z.of_nat pos) B)
    (ge25519_scalarmult_base_choose_niels ge25519_niels_base_multiples pos b).
Proof.
  intros Hpos Hb. unfold ge25519_scalarmult_base_choose_niels. destruct (choose_digit b Hb) as [Hs Hu]. rewrite Hu, Hs.
  rewrite choose_packed_spec by (try lia; intros i Hi; by apply base_table_rows).
  set (packed := if _ =? 0 then _ else _).
  assert (rep_entry (entry_factor pos) (gmul (Z.abs b * 256 ^ Z.of_nat pos) B) (row_niels packed)) as H.
  { unfold packed. destruct (Z.eqb_spec (Z.abs b) 0) as [->|Hne]; [apply entry_neutral|].
    destruct (base_table_rows pos (Z.to_nat (Z.abs b - 1)) Hpos ltac:(lia)) as [_ H].
    by replace (Z.of_nat (Z.to_nat (Z.abs b - 1)) + 1) with (Z.abs b) in H by lia. }
  unfold row_niels in H. pose proof (entry_neg _ _ _ H) as Hn. cbn [n_ysubx n_xaddy n_t2d] in Hn.
  destruct H as (H1 & H2 & H3), Hn as (N1 & N2 & N3). cbn [n_ysubx n_xaddy n_t2d] in *.
  destruct (curve25519_swap_conditional_spec (curve25519_expand (take 32 packed)) (curve25519_expand (take 32 (drop 32 packed)))) as [E0 E1];
    [apply limbs_mask64, H1|apply limbs_mask64, H2|].
  destruct (curve25519_swap_conditional_spec (curve25519_expand (take 32 (drop 64 packed))) (curve25519_neg (curve25519_expand (take 32 (drop 64 packed))))) as [E2 E3];
    [apply limbs_mask64, H3|apply limbs_mask64, N3|].
  destruct (Z.ltb_spec b 0).
  - rewrite E1, E3. replace (b * 256 ^ Z.of_nat pos) with (- (Z.abs b * 256 ^ Z.of_nat pos)) by lia. rewrite gmul_opp. done.
  - rewrite E0, E2. replace b with (Z.abs b) by lia. done.
Qed.
