(* ===== verification/ScalarMultSpec.v ===== *)
(** * ScalarMultSpec: the scalar multiplications compute multiples

    [ge25519_scalarmult_base_niels] computes the multiple of the base point by its scalar,
    and [ge25519_double_scalarmult_vartime] the sum of a multiple of its point and a
    multiple of the base point. The base point has the order [L]. *)

From stdpp Require Import base numbers list.
From Stdlib Require Import ZArith Lia Zmod Field.
From S2P Require Import Prelude Words Primes Groups Curve25519 Field25519 FieldBytes FieldPow Scalars ScalarsSpec ScalarDigits.
From S2P Require Import Ge25519 Ge25519Spec GePack GeTables ScalarMult BaseTable.
#[local] Open Scope Z_scope.

(** ** Sums of digits *)

Fixpoint Zsum (f : nat -> Z) (n : nat) : Z :=
  match n with
  | O => 0
  | S n => Zsum f n + f n
  end.

Lemma Zsum_left f n : Zsum f (S n) = f 0%nat + Zsum (fun k => f (S k)) n.
Proof. induction n as [|n IH]; [simpl; lia|]. cbn [Zsum] in *. lia. Qed.

Lemma Zsum_ext f g n : (forall k, (k < n)%nat -> f k = g k) -> Zsum f n = Zsum g n.
Proof. induction n as [|n IH]; intros H; [done|]. cbn [Zsum]. rewrite IH, H; auto. Qed.

Lemma Zsum_scale c f n : Zsum (fun k => c * f k) n = c * Zsum f n.
Proof. induction n as [|n IH]; cbn [Zsum]; [lia|]. rewrite IH. ring. Qed.

(** The digits in base 16, the even and the odd ones apart. *)
Lemma digits_val_pairs n : forall l, length l = (2 * n)%nat ->
  digits_val 16 l = Zsum (fun k => l !!! (2 * k)%nat * 256 ^ Z.of_nat k) n + 16 * Zsum (fun k => l !!! (2 * k + 1)%nat * 256 ^ Z.of_nat k) n.
Proof.
  induction n as [|n IH]; intros l Hl; [by apply nil_length_inv in Hl as ->|].
  destruct l as [|a [|b l]]; simpl in Hl; [lia|lia|]. rewrite !Zsum_left.
  change (digits_val 16 (a :: b :: l)) with (a + 16 * (b + 16 * digits_val 16 l)). rewrite (IH l) by lia.
  assert (forall f, Zsum (fun k => f k * 256 ^ Z.of_nat (S k)) n = 256 * Zsum (fun k => f k * 256 ^ Z.of_nat k) n) as Hs.
  { intros f. rewrite <- Zsum_scale. apply Zsum_ext. intros k _. rewrite Nat2Z.inj_succ, Z.pow_succ_r by lia. ring. }
  rewrite !Hs. cbn [Nat.mul Nat.add]. rewrite !Z.pow_0_r.
  rewrite (Zsum_ext (fun k => (a :: b :: l) !!! (S k + S (k + 0))%nat * 256 ^ Z.of_nat k) (fun k => l !!! (k + (k + 0))%nat * 256 ^ Z.of_nat k)).
  2:{ intros k _. by replace (S k + S (k + 0))%nat with (S (S (k + (k + 0)))) by lia. }
  rewrite (Zsum_ext (fun k => (a :: b :: l) !!! (S k + S (k + 0) + 1)%nat * 256 ^ Z.of_nat k) (fun k => l !!! (k + (k + 0) + 1)%nat * 256 ^ Z.of_nat k)).
  2:{ intros k _. by replace (S k + S (k + 0) + 1)%nat with (S (S (k + (k + 0) + 1))) by lia. }
  change ((a :: b :: l) !!! 0%nat) with a. change ((a :: b :: l) !!! 1%nat) with b. ring.
Qed.

(** ** Multiples of the base point *)

Lemma entry_niels pos P q : (0 < pos)%nat -> rep_entry (entry_factor pos) P q -> rep_niels P q.
Proof. intros Hpos H. unfold entry_factor in H. by rewrite (proj2 (Nat.eqb_neq pos 0)) in H by lia. Qed.

(** Adding the entries of the digits [i = 2 k + a] of the positions [k = 1 .. 31]. *)
Lemma add_digits_rep (b : list Z) (a : nat) (m : Z) r : (a <= 1)%nat -> (forall i, (i < 64)%nat -> -8 <= b !!! i <= 8) ->
  rep (gmul (m + b !!! a) B) r ->
  rep (gmul (m + Zsum (fun k => b !!! (2 * k + a)%nat * 256 ^ Z.of_nat k) 32) B)
    (foldl (fun r k => let i := (2 * k + (a + 2))%nat in
       ge25519_nielsadd2 r (ge25519_scalarmult_base_choose_niels ge25519_niels_base_multiples (i / 2) (b !!! i))) r (seq 0 31)).
Proof.
  intros Ha Hb Hr.
  set (f := fun k => b !!! (2 * k + a)%nat * 256 ^ Z.of_nat k).
  apply (foldl_seq_inv _ (fun k r => rep (gmul (m + Zsum f (S k)) B) r) 31 0).
  - cbn [Zsum]. unfold f. rewrite Nat.mul_0_r, Nat.add_0_l, Z.pow_0_r, Z.mul_1_r, Z.add_0_l. exact Hr.
  - intros k r' Hk Hr'. cbv zeta. replace ((2 * k + (a + 2)) / 2)%nat with (S k).
    2:{ apply (Nat.div_unique _ _ _ a); lia. }
    change (Zsum f (S (S k))) with (Zsum f (S k) + f (S k)). rewrite Z.add_assoc, gmul_add. apply nielsadd2_rep; [done|].
    apply (entry_niels (S k)); [lia|]. unfold f. replace (2 * S k + a)%nat with (2 * k + (a + 2))%nat by lia.
    apply choose_niels_spec; [lia|apply Hb; lia].
Qed.

(** The first entry, doubled, as extended coordinates. *)
Lemma first_entry_rep P t : rep_entry two P t ->
  rep P (Ge (curve25519_sub_reduce (n_xaddy t) (n_ysubx t)) (curve25519_add_reduce (n_xaddy t) (n_ysubx t)) (Fe 2 0 0 0 0) (curve25519_copy (n_t2d t))).
Proof.
  intros (H1 & H2 & H3). exists two. split; [apply two_nonzero|]. cbn [gx gy gz gt].
  pose proof (fe_sub_reduce _ _ _ _ _ _ H2 H1 _ _) as Hx. pose proof (fe_add_reduce _ _ _ _ _ _ H2 H1 _ _) as Hy.
  pose proof (fe_copy _ _ _ H3) as Ht. split_and!; [fe_same|fe_same|exact fe_two_is|fe_same].
Qed.

(** The entry of the last digit, with the factor [d] that the first rows leave out. *)
Lemma last_entry_rep P t : rep_entry two P t -> rep_niels P (Niels (n_ysubx t) (n_xaddy t) (curve25519_mul (n_t2d t) ge25519_ecd)).
Proof.
  intros (H1 & H2 & H3). pose proof (fe_mul _ _ _ _ _ _ H3 ecd_is _ _) as H4. split_and!; cbn [n_ysubx n_xaddy n_t2d]; fe_same.
Qed.

Lemma gmul_16 (P : point) : gmul 16 P = gadd (gadd (gadd (gadd P P) (gadd P P)) (gadd (gadd P P) (gadd P P))) (gadd (gadd (gadd P P) (gadd P P)) (gadd (gadd P P) (gadd P P))).
Proof.
  assert (forall Q : point, gadd Q Q = gmul 2 Q) as H2 by (intros Q; change 2 with (1 + 1); by rewrite gmul_add, gmul_1).
  rewrite !H2, <- !gmul_mul. done.
Qed.

Theorem scalarmult_base_spec s : sc_limbs mask32 s -> sc_val s < 2 ^ 255 ->
  rep (gmul (sc_val s) B) (ge25519_scalarmult_base_niels ge25519_niels_base_multiples s).
Proof.
  intros Hs Hv. destruct (window4_spec s Hs Hv) as (Hl & Hval & Hb). unfold ge25519_scalarmult_base_niels.
  set (b := contract256_window4_modm s) in *. rewrite <- Hval, (digits_val_pairs 32 b Hl), Z.add_comm.
  pose proof (choose_niels_spec 0 (b !!! 0%nat) ltac:(lia) ltac:(apply Hb; lia)) as H0.
  pose proof (choose_niels_spec 0 (b !!! 1%nat) ltac:(lia) ltac:(apply Hb; lia)) as H1.
  rewrite Z.pow_0_r, Z.mul_1_r in H0, H1. apply last_entry_rep in H0. apply first_entry_rep in H1.
  set (odd := Zsum (fun k => b !!! (2 * k + 1)%nat * 256 ^ Z.of_nat k) 32).
  rewrite (Zsum_ext _ (fun k => b !!! (2 * k + 0)%nat * 256 ^ Z.of_nat k) 32) by (intros k _; by rewrite Nat.add_0_r).
  apply (add_digits_rep b 0 (16 * odd)); [lia|done|]. rewrite gmul_add. apply nielsadd2_rep; [|done].
  rewrite gmul_mul, gmul_16. apply double_rep. do 3 apply double_partial_rep. apply rep_to_partial.
  rewrite <- (Z.add_0_l odd). apply (add_digits_rep b 1 0); [lia|done|]. rewrite Z.add_0_l. exact H1.
Qed.

(** ** The order of the base point *)

Definition neutral_b (r : ge25519) : bool := same (gx r) fe_zero && same (gy r) (gz r).

Lemma neutral_b_spec P r : rep P r -> neutral_b r = true -> P = gzero.
Proof.
  intros (z & Hz & Hx & Hy & Hz' & _) H. apply andb_true_iff in H as [H1%same_fe H2%same_fe].
  rewrite (proj2 Hx) in H1. rewrite (proj2 Hy), (proj2 Hz') in H2.
  apply point_eq; [rewrite px_zero|rewrite py_zero]; apply (F_mul_cancel z); try done; rewrite Zmod.mul_comm.
  - rewrite H1. transitivity (0%F : F); [F_compute|ring].
  - rewrite H2. ring.
Qed.

Lemma base_order_computed : neutral_b (ge25519_scalarmult_base_niels ge25519_niels_base_multiples modm_m) = true.
Proof. vm_cast_no_check (eq_refl true). Qed.

Lemma modm_m_limbs : sc_limbs mask32 modm_m.
Proof. unfold sc_limbs, Bnd. cbn. lia. Qed.

Theorem base_order : gmul L B = gzero.
Proof.
  rewrite <- modm_m_val. refine (neutral_b_spec _ _ (scalarmult_base_spec modm_m modm_m_limbs _) base_order_computed).
  rewrite modm_m_val. unfold L. lia.
Qed.

(** ** The double multiplication *)

Lemma odd_multiples_rep D d1 n : rep D d1 -> forall Q q i x, rep_pniels Q q -> odd_multiples d1 q n !! i = Some x ->
  rep_pniels (gadd (gmul (Z.of_nat i) D) Q) x.
Proof.
  intros HD. induction n as [|n IH]; intros Q q i x HQ Hi; cbn [odd_multiples] in Hi; destruct i as [|i]; try done.
  - injection Hi as <-. change (gmul (Z.of_nat 0) D) with (gzero : point). by rewrite gadd_zero_l.
  - injection Hi as <-. change (gmul (Z.of_nat 0) D) with (gzero : point). by rewrite gadd_zero_l.
  - specialize (IH (gadd D Q) _ i x (pnielsadd_rep _ _ _ _ HD HQ) Hi).
    rewrite Nat2Z.inj_succ, gmul_succ, (gadd_comm D), gadd_assoc. exact IH.
Qed.

Lemma odd_multiples_length d1 q n : length (odd_multiples d1 q n) = S n.
Proof. revert q. induction n; intros q; simpl; auto. Qed.

Lemma char_sign_spec s : -128 <= s < 128 -> (char_sign s =? 1) = (s <? 0).
Proof. intros Hs. pose proof (small_numbers (-128) 256 (fun s => Bool.eqb (char_sign s =? 1) (s <? 0)) eq_refl s ltac:(lia)) as H. by apply eqb_prop in H. Qed.

(** An odd digit is the sign and the index of its absolute value. *)
Lemma wdigit_split m s P : wdigit m s -> s <> 0 -> m <= 63 ->
  (char_sign s =? 1) = (s <? 0) /\ (Z.to_nat (Z.abs s / 2) <= Z.to_nat (m / 2))%nat /\
  signed (s <? 0) (gmul (2 * Z.of_nat (Z.to_nat (Z.abs s / 2)) + 1) P) = gmul s P.
Proof.
  intros [?|[Hodd Hs]] Hne Hm; [done|]. split; [apply char_sign_spec; lia|]. split.
  { apply Z2Nat.inj_le; try (apply Z.div_pos; lia). apply Z.div_le_mono; lia. }
  rewrite Z2Nat.id by (apply Z.div_pos; lia). replace (2 * (Z.abs s / 2) + 1) with (Z.abs s).
  - unfold signed. destruct (Z.ltb_spec s 0); [rewrite <- gmul_opp|]; f_equal; lia.
  - apply Z.odd_spec in Hodd as [k ->]. Z.to_euclidean_division_equations. lia.
Qed.

Lemma digits_val_drop (l : list Z) i : (i < length l)%nat -> digits_val 2 (drop i l) = l !!! i + 2 * digits_val 2 (drop (S i) l).
Proof.
  intros Hi. destruct (lookup_lt_is_Some_2 l i Hi) as [d Hd]. by rewrite (drop_S l d i Hd), (list_lookup_total_correct l i d Hd).
Qed.

(** The positions that are skipped have zero digits. *)
Lemma top_position_zeros slide1 slide2 n : length slide1 = 256%nat -> length slide2 = 256%nat -> (n <= 256)%nat -> digits_val 2 (drop n slide1) = 0 -> digits_val 2 (drop n slide2) = 0 ->
  let k := top_position slide1 slide2 n in
  (k <= n)%nat /\ digits_val 2 (drop k slide1) = 0 /\ digits_val 2 (drop k slide2) = 0.
Proof.
  intros Hl1 Hl2. induction n as [|n IH]; intros Hn H1 H2; [done|]. cbn [top_position].
  destruct (Z.eqb_spec (Z.lor (slide1 !!! n) (slide2 !!! n)) 0) as [E|E]; [|done].
  apply Z.lor_eq_0_iff in E as [E1 E2]. destruct IH as (Hk & H); [lia|rewrite digits_val_drop, E1, H1 by lia; done|rewrite digits_val_drop, E2, H2 by lia; done|].
  split; [lia|exact H].
Qed.
Section double.
Context (P : point) (pre1 : list ge25519_pniels) (slide1 slide2 : list Z).
Context (Hpre : forall i x, pre1 !! i = Some x -> rep_pniels (gmul (2 * Z.of_nat i + 1) P) x) (Hlen : length pre1 = 8%nat).
Context (Hd1 : forall i, (i < 256)%nat -> wdigit 15 (slide1 !!! i)) (Hd2 : forall i, (i < 256)%nat -> wdigit 63 (slide2 !!! i)).
Context (Hl1 : length slide1 = 256%nat) (Hl2 : length slide2 = 256%nat).

Lemma double_step_rep i h1 h2 r : (i < 256)%nat -> rep_partial (gadd (gmul h1 P) (gmul h2 B)) r ->
  rep_partial (gadd (gmul (slide1 !!! i + 2 * h1) P) (gmul (slide2 !!! i + 2 * h2) B)) (double_scalarmult_step pre1 slide1 slide2 r i).
Proof.
  intros Hi Hr. unfold double_scalarmult_step. set (s1 := slide1 !!! i). set (s2 := slide2 !!! i).
  apply double_p1p1_rep in Hr. set (t := ge25519_double_p1p1 r) in *.
  assert (exists r' t', (if negb (s1 =? 0) then (ge25519_p1p1_to_full t, ge25519_pnielsadd_p1p1 (ge25519_p1p1_to_full t)
      (nth (Z.to_nat (Z.abs s1 / 2)) pre1 (Pniels fe_zero fe_zero fe_zero fe_zero)) (char_sign s1 =? 1)) else (r, t)) = (r', t') /\
      rep_p1p1 (gadd (gmul (s1 + 2 * h1) P) (gmul (2 * h2) B)) t') as (r' & t' & -> & Ht').
  { assert (gadd (gmul (2 * h1) P) (gmul (2 * h2) B) = gadd (gadd (gmul h1 P) (gmul h2 B)) (gadd (gmul h1 P) (gmul h2 B))) as E.
    { rewrite !gmul_mul, <- gmul_padd. change 2 with (1 + 1). by rewrite gmul_add, gmul_1. }
    destruct (Z.eqb_spec s1 0) as [->|Hne]; cbn [negb]; do 2 eexists; (split; [reflexivity|]).
    - rewrite Z.add_0_l, E. exact Hr.
    - destruct (wdigit_split 15 s1 P (Hd1 i Hi) Hne ltac:(lia)) as (Hs & Hn & Hm). rewrite Hs.
      rewrite gmul_add, (gadd_comm (gmul s1 P)), gadd_assoc, (gadd_comm (gmul s1 P)), <- gadd_assoc, E, <- Hm.
      destruct (lookup_lt_is_Some_2 pre1 (Z.to_nat (Z.abs s1 / 2))) as [x Hx]; [rewrite Hlen; change (Z.to_nat (15 / 2)) with 7%nat in Hn; lia|].
      rewrite (nth_lookup_Some _ _ _ _ Hx). apply pnielsadd_p1p1_rep; [by apply p1p1_to_full_rep|by apply Hpre]. }
  cbv beta iota. destruct (Z.eqb_spec s2 0) as [->|Hne]; cbn [negb].
  - apply p1p1_to_partial_rep. by rewrite Z.add_0_l.
  - apply p1p1_to_partial_rep. destruct (wdigit_split 63 s2 B (Hd2 i Hi) Hne ltac:(lia)) as (Hs & Hn & Hm). rewrite Hs.
    rewrite (Z.add_comm s2), (gmul_add (2 * h2)), <- gadd_assoc, <- Hm. apply nielsadd2_p1p1_rep; [by apply p1p1_to_full_rep|].
    apply sliding_table_entries. change (Z.to_nat (63 / 2)) with 31%nat in Hn. lia.
Qed.

Lemma double_loop_rep n : forall r, (n <= 256)%nat ->
  rep_partial (gadd (gmul (digits_val 2 (drop n slide1)) P) (gmul (digits_val 2 (drop n slide2)) B)) r ->
  rep_partial (gadd (gmul (digits_val 2 slide1) P) (gmul (digits_val 2 slide2) B)) (double_scalarmult_loop pre1 slide1 slide2 r n).
Proof.
  induction n as [|n IH]; intros r Hn Hr; [exact Hr|]. cbn [double_scalarmult_loop]. apply IH; [lia|].
  rewrite (digits_val_drop slide1 n), (digits_val_drop slide2 n) by lia. apply double_step_rep; [lia|done].
Qed.
End double.

Lemma neutral_rep : rep_partial gzero ge_neutral.
Proof.
  exists 1%F. split; [apply one_nonzero|]. rewrite px_zero, py_zero. split_and!; (split; [repeat split; by vm_compute|F_compute]).
Qed.

Theorem double_scalarmult_spec P p1 s1 s2 : rep P p1 -> sc_limbs mask32 s1 -> 0 <= sc_val s1 < 2 ^ 253 ->
  sc_limbs mask32 s2 -> 0 <= sc_val s2 < 2 ^ 253 ->
  rep_partial (gadd (gmul (sc_val s1) P) (gmul (sc_val s2) B)) (ge25519_double_scalarmult_vartime p1 s1 s2).
Proof.
  intros HP H1 V1 H2 V2. unfold ge25519_double_scalarmult_vartime.
  destruct (slidingwindow_spec s1 5 H1 V1 ltac:(lia)) as (L1 & E1 & D1). destruct (slidingwindow_spec s2 7 H2 V2 ltac:(lia)) as (L2 & E2 & D2).
  set (slide1 := contract256_slidingwindow_modm s1 5) in *. set (slide2 := contract256_slidingwindow_modm s2 7) in *.
  rewrite <- E1, <- E2. assert (rep (gmul 2 P) (ge25519_double p1)) as HD.
  { change 2 with (1 + 1). rewrite gmul_add, gmul_1. by apply double_rep, rep_to_partial. }
  destruct (top_position_zeros slide1 slide2 256 L1 L2) as (Hk & Z1 & Z2); [lia|by rewrite drop_ge by lia|by rewrite drop_ge by lia|].
  eapply double_loop_rep; try done.
  - intros i x Hx. pose proof (odd_multiples_rep _ _ _ HD _ _ _ _ (full_to_pniels_rep _ _ HP) Hx) as H.
    rewrite gmul_add, gmul_1, Z.mul_comm, gmul_mul. exact H.
  - rewrite Z1, Z2, !gmul_0, gadd_zero. apply neutral_rep.
Qed.

(** C11. The scalar multiplications compute multiples of points: of the base point, from the
    table of its multiples, and of a point plus the base point, from two sliding windows.
    The base point has the order [L], so that its multiples need no reduced scalar. *)
Theorem scalar_multiples P p x y : rep P p -> (32 <= length x <= 64)%nat -> (32 <= length y <= 64)%nat ->
  ge25519_pack (ge25519_scalarmult_base_niels ge25519_niels_base_multiples (expand256_modm x)) = encode (gmul (of_le_bytes x) B)
  /\ ge25519_pack (ge25519_double_scalarmult_vartime p (expand256_modm x) (expand256_modm y))
     = encode (gadd (gmul (of_le_bytes x mod L) P) (gmul (of_le_bytes y) B)).
Proof.
  intros HP Hx Hy. destruct (expand256_modm_spec x Hx) as [[Lx Bx] Vx], (expand256_modm_spec y Hy) as [[Ly By] Vy].
  assert (L < 2 ^ 253) as HL by (unfold L; lia). split.
  - rewrite <- (gmul_mod (of_le_bytes x) L B base_order), <- Vx. apply ge25519_pack_spec, rep_to_partial, scalarmult_base_spec; [done|lia].
  - rewrite <- (gmul_mod (of_le_bytes y) L B base_order), <- Vx, <- Vy. apply ge25519_pack_spec, double_scalarmult_spec; (done || lia).
Qed.
