(* ===== verification/Ed25519.v ===== *)
(** * Ed25519: signatures

    The hash of ed25519-donna as lib/interface.cpp provides it (Blake2b with 64-byte
    digests in place of SHA-512), and the functions of ed25519-donna/ed25519.c: public
    keys, signatures, their verification, and the multiplication of the base point of
    Curve25519. Every function that hashes returns an option, as the Blake2b calls do. *)

From stdpp Require Import base numbers list option.
From Stdlib Require Import ZArith Lia.
From S2P Require Import Prelude Blake2b Blake2bSpec Words Field25519 FieldBytes FieldPow Scalars Ge25519 GePack GeTables ScalarMult.
#[local] Open Scope Z_scope.

(** ** The hash *)

Definition ed25519_hash_init : option blake2b_state := blake2b_init 64.
Definition ed25519_hash_update (ctx : blake2b_state) (i : list byte) : option blake2b_state := blake2b_update i ctx.
Definition ed25519_hash_final (ctx : blake2b_state) : option (list byte) := blake2b_final 64 ctx.

Definition ed25519_hash (i : list byte) : option (list byte) :=
  ctx ← ed25519_hash_init;
  ctx ← ed25519_hash_update ctx i;
  ed25519_hash_final ctx.

(** ** Keys *)

(** The three assignments to the first 32 bytes of a hash or a key. *)
Definition clamp (e : list byte) : list byte :=
  let e := <[0%nat := byte_of_Z (Z.land (byte_at e 0) 248)]> e in
  let e := <[31%nat := byte_of_Z (Z.land (byte_at e 31) 127)]> e in
  <[31%nat := byte_of_Z (Z.lor (byte_at e 31) 64)]> e.

Definition ed25519_extsk (sk : list byte) : option (list byte) :=
  extsk ← ed25519_hash (take 32 sk);
  Some (clamp extsk).

Definition ed25519_hram (RS pk m : list byte) : option (list byte) :=
  ctx ← ed25519_hash_init;
  ctx ← ed25519_hash_update ctx (take 32 RS);
  ctx ← ed25519_hash_update ctx (take 32 pk);
  ctx ← ed25519_hash_update ctx m;
  ed25519_hash_final ctx.

Definition ed25519_publickey (sk : list byte) : option (list byte) :=
  extsk ← ed25519_extsk sk;
  let a := expand256_modm (take 32 extsk) in
  let A := ge25519_scalarmult_base_niels ge25519_niels_base_multiples a in
  Some (ge25519_pack A).

(** ** Signatures *)

(** The result is the 64 bytes of [RS]. *)
Definition ed25519_sign (m sk pk : list byte) : option (list byte) :=
  extsk ← ed25519_extsk sk;
  ctx ← ed25519_hash_init;
  ctx ← ed25519_hash_update ctx (take 32 (drop 32 extsk));
  ctx ← ed25519_hash_update ctx m;
  hashr ← ed25519_hash_final ctx;
  let r := expand256_modm hashr in
  let R := ge25519_scalarmult_base_niels ge25519_niels_base_multiples r in
  let RS := ge25519_pack R in
  hram ← ed25519_hram RS pk m;
  let S := expand256_modm hram in
  let a := expand256_modm (take 32 extsk) in
  let S := mul256_modm S a in
  let S := add256_modm S r in
  Some (RS ++ contract256_modm S).

Definition ed25519_sign_open (m pk RS : list byte) : option Z :=
  if negb (Z.land (byte_at RS 63) 224 =? 0) then Some (-1) else
  match ge25519_unpack_negative_vartime pk with
  | None => Some (-1)
  | Some A =>
    hash ← ed25519_hram RS pk m;
    let hram := expand256_modm hash in
    let S := expand256_modm (take 32 (drop 32 RS)) in
    let R := ge25519_double_scalarmult_vartime A hram S in
    let checkR := ge25519_pack R in
    Some (if negb (ed25519_verify RS checkR 32 =? 0) then 0 else -1)
  end.

(** ** The base point of Curve25519 *)

Definition curved25519_scalarmult_basepoint (e : list byte) : list byte :=
  let ec := clamp e in
  let s := expand_raw256_modm ec in
  let p := ge25519_scalarmult_base_niels ge25519_niels_base_multiples s in
  let yplusz := curve25519_add (gy p) (gz p) in
  let zminusy := curve25519_sub (gz p) (gy p) in
  let zminusy := curve25519_recip zminusy in
  let yplusz := curve25519_mul yplusz zminusy in
  curve25519_contract yplusz.
