(* ===== verification/Ed25519Spec.v ===== *)
(** * Ed25519Spec: signatures made with a key verify under its public key

    The specification of [Ed25519] on the points of the curve: the scalars of a secret key
    and of a message, the public key as the encoding of a multiple of the base point, and
    the equation that [ed25519_sign_open] decides. *)

From stdpp Require Import base numbers list option.
From Stdlib Require Import ZArith Lia Zmod Field.
From S2P Require Import Prelude Blake2b Blake2bSpec Words Primes Groups Curve25519 Field25519 FieldBytes FieldPow.
From S2P Require Import Scalars ScalarsSpec ScalarDigits Ge25519 Ge25519Spec GePack GeTables ScalarMult BaseTable ScalarMultSpec Ed25519.
#[local] Open Scope Z_scope.

(** ** The hash *)

Definition ed25519_H (m : list byte) : list byte := blake2b_spec 64 [] m.

Lemma ed25519_H_length m : length (ed25519_H m) = 64%nat.
Proof. apply spec_length. lia. Qed.

(** Hashing in pieces is hashing the pieces together. *)
Lemma hash_chunks chunks :
  (ctx ← ed25519_hash_init; ctx ← blake2b_updates chunks ctx; ed25519_hash_final ctx) = Some (ed25519_H (concat chunks)).
Proof. exact (proj1 (digest_ok 64 chunks ltac:(lia))). Qed.

Lemma ed25519_hash_spec i : ed25519_hash i = Some (ed25519_H i).
Proof.
  pose proof (hash_chunks [i]) as E. cbn [concat] in E. rewrite app_nil_r in E. rewrite <- E.
  unfold ed25519_hash, ed25519_hash_update. destruct ed25519_hash_init as [S|]; [|done]. cbn [mbind option_bind blake2b_updates].
  by destruct (blake2b_update i S).
Qed.

Lemma ed25519_hram_spec RS pk m : ed25519_hram RS pk m = Some (ed25519_H (take 32 RS ++ take 32 pk ++ m)).
Proof.
  pose proof (hash_chunks [take 32 RS; take 32 pk; m]) as E. cbn [concat] in E. rewrite app_nil_r in E. rewrite <- E.
  unfold ed25519_hram, ed25519_hash_update. destruct ed25519_hash_init as [c|]; [|done]. cbn [mbind option_bind blake2b_updates].
  destruct (blake2b_update _ c) as [c1|]; [|done]. cbn [mbind option_bind]. destruct (blake2b_update _ c1) as [c2|]; [|done].
  cbn [mbind option_bind]. by destruct (blake2b_update m c2).
Qed.

Lemma hash2_spec x y :
  (ctx ← ed25519_hash_init; ctx ← ed25519_hash_update ctx x; ctx ← ed25519_hash_update ctx y; ed25519_hash_final ctx)
  = Some (ed25519_H (x ++ y)).
Proof.
  pose proof (hash_chunks [x; y]) as E. cbn [concat] in E. rewrite app_nil_r in E. rewrite <- E.
  unfold ed25519_hash_update. destruct ed25519_hash_init as [c|]; [|done]. cbn [mbind option_bind blake2b_updates].
  destruct (blake2b_update _ c) as [c1|]; [|done]. cbn [mbind option_bind]. by destruct (blake2b_update y c1).
Qed.

(** ** Scalars of keys and messages *)

(** The secret scalar and the prefix of a secret key, the scalar [r] of a signature, and
    the scalar of the hash of [R], the public key and the message. *)
Definition secret_scalar (sk : list byte) : Z := of_le_bytes (take 32 (clamp (ed25519_H (take 32 sk)))) mod L.
Definition secret_prefix (sk : list byte) : list byte := drop 32 (ed25519_H (take 32 sk)).
Definition nonce (m sk : list byte) : Z := of_le_bytes (ed25519_H (secret_prefix sk ++ m)) mod L.
Definition challenge (R pk m : list byte) : Z := of_le_bytes (ed25519_H (take 32 R ++ take 32 pk ++ m)) mod L.

Lemma clamp_length e : length (clamp e) = length e.
Proof. unfold clamp. by rewrite !length_insert. Qed.

Lemma clamp_drop e : drop 32 (clamp e) = drop 32 e.
Proof. unfold clamp. rewrite !drop_insert_lt by lia. done. Qed.

Lemma L_range : 2 ^ 252 < L < 2 ^ 253.
Proof. unfold L. lia. Qed.

Lemma scalar_mod z : 0 <= z mod L < L.
Proof. apply Z.mod_pos_bound. pose proof L_range. lia. Qed.

(** The scalars read from 32 to 64 bytes, and the multiples of the base point by them. *)
Lemma expand_scalar i : (32 <= length i <= 64)%nat ->
  scalar (expand256_modm i) /\ sc_val (expand256_modm i) = of_le_bytes i mod L /\ 0 <= sc_val (expand256_modm i) < 2 ^ 253.
Proof.
  intros Hi. destruct (expand256_modm_spec i Hi) as [Hs Hv]. split_and!; try done; destruct Hs as [_ Hs]; pose proof L_range; lia.
Qed.

Lemma base_multiple_packed s z : scalar s -> sc_val s = z ->
  ge25519_pack (ge25519_scalarmult_base_niels ge25519_niels_base_multiples s) = encode (gmul z B).
Proof.
  intros [Hl Hs] <-. apply ge25519_pack_spec, rep_to_partial, scalarmult_base_spec; [done|]. pose proof L_range. lia.
Qed.

(** ** Keys and signatures *)

Lemma publickey_value sk : ed25519_publickey sk = Some (encode (gmul (secret_scalar sk) B)).
Proof.
  unfold ed25519_publickey, ed25519_extsk. rewrite ed25519_hash_spec. cbn [mbind option_bind].
  destruct (expand_scalar (take 32 (clamp (ed25519_H (take 32 sk))))) as (Hs & Hv & _).
  { rewrite length_take, clamp_length, ed25519_H_length. lia. }
  by rewrite (base_multiple_packed _ _ Hs Hv).
Qed.

Lemma sign_value m sk pk :
  let R := encode (gmul (nonce m sk) B) in
  ed25519_sign m sk pk = Some (R ++ le_bytes 32 ((challenge R pk m * secret_scalar sk + nonce m sk) mod L)).
Proof.
  cbv zeta. unfold ed25519_sign, ed25519_extsk. rewrite ed25519_hash_spec. cbn [mbind option_bind].
  rewrite clamp_drop, (take_ge (drop 32 _)) by (rewrite length_drop, ed25519_H_length; lia).
  fold (secret_prefix sk). pose proof (hash2_spec (secret_prefix sk) m) as E.
  destruct ed25519_hash_init as [c|]; [|done]. cbn [mbind option_bind] in *.
  destruct (ed25519_hash_update c _) as [c1|]; [|done]. cbn [mbind option_bind] in *.
  destruct (ed25519_hash_update c1 m) as [c2|]; [|done]. cbn [mbind option_bind] in *. rewrite E. cbn [mbind option_bind].
  destruct (expand_scalar (ed25519_H (secret_prefix sk ++ m))) as (Hr & Vr & _); [rewrite ed25519_H_length; lia|].
  rewrite (base_multiple_packed _ _ Hr Vr). fold (nonce m sk). rewrite ed25519_hram_spec. cbn [mbind option_bind].
  do 2 f_equal. set (R := encode _). set (h := ed25519_H (_ ++ _ ++ m)).
  destruct (expand_scalar h) as (Hh & Vh & _); [unfold h; rewrite ed25519_H_length; lia|].
  destruct (expand_scalar (take 32 (clamp (ed25519_H (take 32 sk))))) as (Ha & Va & _).
  { rewrite length_take, clamp_length, ed25519_H_length. lia. }
  destruct (mul256_modm_spec _ _ (proj1 Hh) (proj1 Ha)) as [Hm Vm]. destruct (add256_modm_spec _ _ Hm Hr) as [Hs Vs].
  rewrite (contract256_modm_spec _ (proj1 Hs)), Vs, Vm, Vh, Va, Vr, Zplus_mod_idemp_l. done.
Qed.

(** ** Verification *)

(** The equation of a signature: the scalar [S] is below 2{^253}, the public key is the
    encoding of a point [A] (or its [y] is that of [A], when the [x] of [A] is 0), and [R] is the encoding of [S B - h A]. *)
Definition valid (m pk RS : list byte) : Prop :=
  of_le_bytes (drop 32 RS) < 2 ^ 253 /\
  exists A, decodes pk A /\
    take 32 RS = encode (gadd (gmul (challenge RS pk m) (gneg A)) (gmul (of_le_bytes (drop 32 RS) mod L) B)).

Lemma top_bits RS : length RS = 64%nat -> (Z.land (byte_at RS 63) 224 =? 0) = (of_le_bytes (drop 32 RS) <? 2 ^ 253).
Proof.
  intros HRS. unfold byte_at. rewrite <- (take_drop 63 RS) at 1. rewrite (app_nth2 (take 63 RS)); rewrite length_take, HRS; [|lia].
  rewrite <- (take_drop 31 (drop 32 RS)), drop_drop, of_le_bytes_app, length_take, length_drop, HRS.
  change (32 + 31)%nat with 63%nat. change (8 * Z.of_nat (31 `min` (64 - 32)))%Z with 248%Z.
  pose proof (of_le_bytes_range (take 31 (drop 32 RS))) as Hr. rewrite length_take, length_drop, HRS in Hr. unfold in_width in Hr.
  change (8 * Z.of_nat (31 `min` (64 - 32)))%Z with 248%Z in Hr.
  destruct (drop 63 RS) as [|b [|? ?]] eqn:Hd; apply (f_equal length) in Hd; rewrite length_drop, HRS in Hd; cbn in Hd; [lia| |lia].
  change (63 - (63 `min` 64))%nat with 0%nat. cbn [nth]. replace (of_le_bytes [b]) with (Z_of_byte b) by (by destruct b).
  assert ((Z.land (Z_of_byte b) 224 =? 0) = (Z_of_byte b <? 32)) as -> by (by destruct b).
  destruct (Z.ltb_spec (Z_of_byte b) 32), (Z.ltb_spec (of_le_bytes (take 31 (drop 32 RS)) + 2 ^ 248 * Z_of_byte b) (2 ^ 253)); lia.
Qed.

Lemma sign_open_eq m pk RS : length pk = 32%nat -> length RS = 64%nat ->
  exists r, ed25519_sign_open m pk RS = Some r /\ (r = 0 /\ valid m pk RS \/ r = -1 /\ ~ valid m pk RS).
Proof.
  intros Hpk HRS. unfold ed25519_sign_open, valid. rewrite (top_bits _ HRS).
  destruct (Z.ltb_spec (of_le_bytes (drop 32 RS)) (2 ^ 253)) as [HS|HS]; cbn [negb].
  2: { exists (-1). split; [done|]. right. split; [done|]. intros [? _]. lia. }
  pose proof (unpack_negative_spec pk Hpk) as Hu. destruct (ge25519_unpack_negative_vartime pk) as [a|].
  2: { exists (-1). split; [done|]. right. split; [done|]. intros (_ & A & [HA _] & _). by apply (Hu A). }
  destruct Hu as (A & HA & Ha). rewrite ed25519_hram_spec. cbn [mbind option_bind].
  set (h := ed25519_H _). destruct (expand_scalar h) as (Hh & Vh & Rh); [unfold h; rewrite ed25519_H_length; lia|].
  assert (length (drop 32 RS) = 32%nat) as HD by (rewrite length_drop; lia). rewrite (take_ge (drop 32 RS)) by lia.
  destruct (expand_scalar (drop 32 RS)) as (Hs & Vs & Rs); [lia|].
  rewrite (ge25519_pack_spec _ _ (double_scalarmult_spec _ _ _ _ Ha (proj1 Hh) Rh (proj1 Hs) Rs)), Vh, Vs.
  change (of_le_bytes h mod L) with (challenge RS pk m). set (E := encode _).
  assert (ed25519_verify RS E 32 = if decide (take 32 RS = E) then 1 else 0) as ->.
  { rewrite <- ed25519_verify_spec with (n := 32%nat); [|rewrite length_take; lia|apply le_bytes_length].
    unfold ed25519_verify. by rewrite take_take. }
  destruct (decide (take 32 RS = E)) as [e|e]; cbn [Z.eqb negb]; eexists; (split; [done|]); [left|right]; (split; [done|]).
  - split; [done|]. by exists A.
  - intros (_ & A' & HA' & He). apply e. unfold E. by rewrite (decodes_unique _ _ _ HA HA').
Qed.

(** Multiples of the base point depend on the scalar modulo its order. *)
Lemma gmul_base_mod n : gmul (n mod L) B = gmul n B.
Proof. apply gmul_mod, base_order. Qed.

(** The equation holds of the signature that [ed25519_sign] makes, for the public key [sk]
    has. *)
Lemma signature_equation (a r h : Z) :
  gadd (gmul h (gneg (gmul a B))) (gmul ((h * a + r) mod L) B) = gmul r B.
Proof.
  rewrite gmul_base_mod, gmul_add, gmul_neg, gmul_mul, <- gadd_assoc, gadd_neg_l. apply gadd_zero_l.
Qed.

(** A signature of 32 bytes [R] and the scalar [S]. *)
Lemma valid_parts m pk R S : length R = 32%nat -> 0 <= S < 2 ^ 256 ->
  valid m pk (R ++ le_bytes 32 S) <->
  S < 2 ^ 253 /\ exists A, decodes pk A /\ R = encode (gadd (gmul (challenge R pk m) (gneg A)) (gmul S B)).
Proof.
  intros HR HS. unfold valid, challenge. rewrite drop_app_length', take_app_length', (take_ge R) by lia.
  rewrite of_le_le_bytes, wrap_small, gmul_base_mod by (unfold in_width; lia). done.
Qed.

Lemma signed_is_valid m sk pk RS : ed25519_publickey sk = Some pk -> ed25519_sign m sk pk = Some RS ->
  length pk = 32%nat /\ length RS = 64%nat /\ valid m pk RS.
Proof.
  rewrite publickey_value, sign_value. cbv zeta. intros <-%(inj Some) <-%(inj Some).
  split; [apply le_bytes_length|]. split; [by rewrite length_app, !le_bytes_length|].
  pose proof L_range. pose proof (scalar_mod (challenge (encode (gmul (nonce m sk) B)) (encode (gmul (secret_scalar sk) B)) m * secret_scalar sk + nonce m sk)) as HS.
  apply valid_parts; [apply le_bytes_length|lia|]. split; [lia|].
  exists (gmul (secret_scalar sk) B). split; [apply decodes_encode|]. by rewrite signature_equation.
Qed.

(** ** The base point of Curve25519 *)

(** The coordinate [u] of a point on the Montgomery form of the curve. *)
Definition montgomery_u (P : point) : F := ((1 + py P) / (1 - py P))%F.

Lemma clamp_range e : length e = 32%nat -> 2 ^ 254 <= of_le_bytes (clamp e) < 2 ^ 255 /\ of_le_bytes (clamp e) mod 8 = 0.
Proof.
  intros He. destruct e as [|b0 e]; [done|]. rewrite <- (take_drop 30 e) in *. cbn [length] in He.
  assert (length (take 30 e) = 30%nat) as Ht by (rewrite length_app, length_take, length_drop in *; lia).
  destruct (drop 30 e) as [|b31 [|? ?]]; rewrite length_app, Ht in He; cbn [length] in He; [lia| |lia].
  set (l := take 30 e) in *. set (c0 := byte_of_Z (Z.land (Z_of_byte b0) 248)).
  set (c31 := byte_of_Z (Z.lor (Z_of_byte (byte_of_Z (Z.land (Z_of_byte b31) 127))) 64)).
  assert (clamp (b0 :: l ++ [b31]) = c0 :: l ++ [c31]) as ->.
  { do 31 (destruct l as [|? l]; [try (cbn in Ht; lia)|]); [reflexivity|cbn in Ht; lia]. }
  change (c0 :: l ++ [c31]) with ([c0] ++ l ++ [c31]). rewrite !of_le_bytes_app, Ht.
  pose proof (of_le_bytes_range l) as Hl. rewrite Ht in Hl. unfold in_width in Hl.
  assert (0 <= of_le_bytes [c0] < 256 /\ of_le_bytes [c0] mod 8 = 0) as [H0 H8] by (destruct b0; by vm_compute).
  assert (64 <= of_le_bytes [c31] < 128) as H31 by (destruct b31; by vm_compute).
  change (8 * Z.of_nat (length [c0])) with 8. change (8 * Z.of_nat 30) with 240 in *. clearbody c0 c31.
  split; [lia|]. Z.to_euclidean_division_equations. lia.
Qed.

Lemma montgomery_fraction (y z : F) : z <> 0%F -> ((y * z + z) * Zmod.inv (z - y * z) = (1 + y) / (1 - y))%F.
Proof.
  intros Hz. destruct (F_eq_dec (1 - y)%F 0%F) as [E|E]; [|field].
  - assert (y = 1%F) as -> by (transitivity (1 - (1 - y))%F; [ring|rewrite E; ring]).
    replace (z - 1 * z)%F with 0%F by ring. replace (1 - 1)%F with 0%F by ring. rewrite Zmod.inv_0.
    unfold Zmod.mdiv. rewrite Zmod.inv_0. ring.
  - split; [done|]. replace (z - y * z)%F with (z * (1 - y))%F by ring. by apply F_mul_nonzero.
Qed.

(** ** Theorems *)

(** C9. A signature that [ed25519_sign] makes with a secret key and its public key is
    accepted by [ed25519_sign_open] under that public key, for every message. *)
Theorem sign_then_open m sk :
  exists pk RS, ed25519_publickey sk = Some pk /\ ed25519_sign m sk pk = Some RS /\ ed25519_sign_open m pk RS = Some 0.
Proof.
  exists (encode (gmul (secret_scalar sk) B)). eexists. split; [apply publickey_value|]. split; [apply sign_value|].
  destruct (signed_is_valid m sk _ _ (publickey_value sk) (sign_value m sk _)) as (Hp & HRS & Hv).
  destruct (sign_open_eq m _ _ Hp HRS) as (r & -> & [[-> _]|[_ Hn]]); [done|by destruct Hn].
Qed.

(** C10. [ed25519_sign_open] accepts exactly the signatures [R], [S] with [S] below 2{^253}
    for which the public key decodes to a point [A] and [R] is the encoding of
    [S B - h A], [h] the hash of [R], the key and the message; it rejects all others with
    -1. *)
Theorem sign_open_decides m pk RS : length pk = 32%nat -> length RS = 64%nat ->
  (ed25519_sign_open m pk RS = Some 0 <-> valid m pk RS) /\ (ed25519_sign_open m pk RS = Some (-1) <-> ~ valid m pk RS).
Proof.
  intros Hpk HRS. destruct (sign_open_eq m pk RS Hpk HRS) as (r & -> & [[-> Hv]|[-> Hv]]); split; split; (done || tauto).
Qed.

(** The scalar of a signature counts only modulo the order of the base point: below
    2{^253}, [S] and [S + L] are both accepted or both rejected. *)
Theorem sign_open_malleable m pk R S : length pk = 32%nat -> length R = 32%nat -> 0 <= S -> S + L < 2 ^ 253 ->
  ed25519_sign_open m pk (R ++ le_bytes 32 (S + L)) = ed25519_sign_open m pk (R ++ le_bytes 32 S).
Proof.
  intros Hpk HR HS HL. pose proof L_range.
  assert (forall S', length (R ++ le_bytes 32 S') = 64%nat) as HRS by (intros; rewrite length_app, le_bytes_length; lia).
  assert (valid m pk (R ++ le_bytes 32 (S + L)) <-> valid m pk (R ++ le_bytes 32 S)) as Hiff.
  { rewrite !valid_parts by lia. rewrite gmul_add, base_order, gadd_zero. intuition lia. }
  destruct (sign_open_eq m pk _ Hpk (HRS (S + L))) as (r & -> & Hr). destruct (sign_open_eq m pk _ Hpk (HRS S)) as (r' & -> & Hr').
  f_equal. revert Hr Hr' Hiff. clear. generalize (valid m pk (R ++ le_bytes 32 (S + L))) (valid m pk (R ++ le_bytes 32 S)).
  intros P Q [[-> ?]|[-> ?]] [[-> ?]|[-> ?]]; tauto.
Qed.

(** The public key of a secret key and the signatures made with it, as the encodings of
    multiples of the base point: [R] is [r B], and [S] is [h a + r] modulo the order. *)
Theorem sign_spec m sk pk :
  ed25519_publickey sk = Some (encode (gmul (secret_scalar sk) B)) /\
  ed25519_sign m sk pk = Some (let R := encode (gmul (nonce m sk) B) in
    R ++ le_bytes 32 ((challenge R pk m * secret_scalar sk + nonce m sk) mod L)).
Proof. split; [apply publickey_value|apply sign_value]. Qed.

(** [curved25519_scalarmult_basepoint] computes the coordinate [u] of the multiple of the
    base point by the clamped key, which is a multiple of 8 between 2{^254} and 2{^255}. *)
Theorem scalarmult_basepoint_spec e : length e = 32%nat ->
  curved25519_scalarmult_basepoint e = le_bytes 32 (Zmod.unsigned (montgomery_u (gmul (of_le_bytes (clamp e)) B)))
  /\ 2 ^ 254 <= of_le_bytes (clamp e) < 2 ^ 255 /\ of_le_bytes (clamp e) mod 8 = 0.
Proof.
  intros He. destruct (clamp_range e He) as [Hr H8]. split; [|done]. unfold curved25519_scalarmult_basepoint.
  destruct (expand_raw256_modm_spec (clamp e)) as [Hs Hv]; [by rewrite clamp_length|].
  assert (sc_val (expand_raw256_modm (clamp e)) < 2 ^ 255) as Hlt by lia.
  pose proof (rep_to_partial _ _ (scalarmult_base_spec _ Hs Hlt)) as (z & Hz & _ & Hy & Hz'). rewrite Hv in *.
  set (P := gmul _ B) in *. set (p := ge25519_scalarmult_base_niels _ _) in *.
  refine (fe_contract _ _ tight _ _). unfold montgomery_u. rewrite <- (montgomery_fraction _ z) by done.
  clearbody p P. pose proof (fe_add _ _ _ _ tight tight Hy Hz' _) as Hn.
  pose proof (fe_sub _ _ _ _ tight tight Hz' Hy _ _) as Hd. apply (fe_is_le _ loose) in Hd; [|apply _].
  exact (fe_mul _ _ _ _ _ tight Hn (fe_recip _ _ Hd) _ _).
Qed.

(** * The theorems on Ed25519 at concrete inputs *)

Definition bytes_of (n : nat) (z : Z) : list byte := le_bytes n z.

Lemma field_arithmetic_witness :
  let a := Fe 1 2 3 4 (2 ^ 54 - 1) in
  curve25519_contract (curve25519_mul a (curve25519_recip a)) = le_bytes 32 1.
Proof.
  cbv zeta. refine (proj2 (proj2 (proj2 (field_arithmetic (Fe 1 2 3 4 (2 ^ 54 - 1)) (Fe 5 6 7 8 9) _ _))));
    unfold limbs, Bnd; cbn [f0 f1 f2 f3 f4]; lia.
Defined.

Lemma scalar_arithmetic_witness :
  contract256_modm (mul256_modm (expand256_modm (bytes_of 32 (L + 6))) (expand256_modm (bytes_of 64 (3 * L + 7)))) = le_bytes 32 42.
Proof.
  refine (eq_trans (proj1 (scalar_arithmetic (bytes_of 32 (L + 6)) (bytes_of 64 (3 * L + 7)) _ _)) _); [unfold bytes_of; rewrite le_bytes_length; lia..|by vm_compute].
Defined.

Lemma recodings_exact_witness :
  let a := Sc (2 ^ 56 - 1) 0 0 0 (2 ^ 28) in
  digits_val 16 (contract256_window4_modm a) = 2 ^ 252 + 2 ^ 56 - 1 /\ digits_val 2 (contract256_slidingwindow_modm a 5) = 2 ^ 252 + 2 ^ 56 - 1.
Proof.
  cbv zeta. destruct (recodings_exact (Sc (2 ^ 56 - 1) 0 0 0 (2 ^ 28)) 5) as (H1 & _ & H2 & _).
  - unfold sc_limbs, Bnd. cbn [s0 s1 s2 s3 s4]. lia.
  - unfold sc_val. cbn [s0 s1 s2 s3 s4]. lia.
  - lia.
  - split; [exact H1|exact H2].
Defined.

Lemma unpack_decides_witness :
  match ge25519_unpack_negative_vartime (encode B) with
  | Some r => exists A, decodes (encode B) A /\ ge25519_pack r = encode (gneg A) /\ forall P, encode B = encode P -> A = P
  | None => forall A, ~ decodes (encode B) A
  end.
Proof. apply (unpack_decides (encode B)). apply le_bytes_length. Defined.

Lemma scalar_multiples_witness :
  ge25519_pack (ge25519_scalarmult_base_niels ge25519_niels_base_multiples (expand256_modm (bytes_of 32 (L + 3)))) = encode (gmul (L + 3) B)
  /\ ge25519_pack (ge25519_double_scalarmult_vartime ge25519_basepoint (expand256_modm (bytes_of 32 (L + 3))) (expand256_modm (bytes_of 32 5)))
     = encode (gadd (gmul 3 B) (gmul 5 B)).
Proof.
  apply (scalar_multiples B ge25519_basepoint (bytes_of 32 (L + 3)) (bytes_of 32 5) basepoint_rep); unfold bytes_of; rewrite le_bytes_length; lia.
Defined.

Lemma sign_open_decides_witness :
  let pk := bytes_of 32 4 in let RS := bytes_of 64 9 in
  (ed25519_sign_open [] pk RS = Some 0 <-> valid [] pk RS) /\ (ed25519_sign_open [] pk RS = Some (-1) <-> ~ valid [] pk RS).
Proof. apply (sign_open_decides [] (bytes_of 32 4) (bytes_of 64 9)); apply le_bytes_length. Defined.

Lemma sign_open_malleable_witness :
  ed25519_sign_open [] (bytes_of 32 4) (bytes_of 32 9 ++ le_bytes 32 (7 + L)) = ed25519_sign_open [] (bytes_of 32 4) (bytes_of 32 9 ++ le_bytes 32 7).
Proof. apply (sign_open_malleable [] (bytes_of 32 4) (bytes_of 32 9) 7); [apply le_bytes_length|apply le_bytes_length|lia|unfold L; lia]. Defined.

Lemma scalarmult_basepoint_witness :
  curved25519_scalarmult_basepoint (bytes_of 32 9) = le_bytes 32 (Zmod.unsigned (montgomery_u (gmul (2 ^ 254 + 8) B))).
Proof.
  refine (eq_trans (proj1 (scalarmult_basepoint_spec (bytes_of 32 9) _)) _); [apply le_bytes_length|].
  replace (of_le_bytes (clamp (bytes_of 32 9))) with (2 ^ 254 + 8) by (by vm_compute). reflexivity.
Defined.
