(* ===== verification/Signatures.v ===== *)
(** * Signatures: the environment with the modelled Ed25519

    The functions of ed25519-donna on words, as numbers.cpp and common.cpp call them with
    the bytes of [uint256_union] and [uint512_union]; the environments of the three
    networks with them, and the laws that the wallet relies on. *)

From stdpp Require Import base numbers list option gmap.
From Stdlib Require Import ZArith Lia.
From S2P Require Import Prelude Blocks Common Genesis Work Messages Networks WalletStore WalletActions.
From S2P Require Import GePack Ed25519 Ed25519Spec.
#[local] Open Scope Z_scope.

(** ** Words *)

(** The calls in [sign_message], [validate_message] and the constructors of [keypair];
    Blake2b never fails there. *)
Definition sign_open_words (message public_key signature : Z) : Z :=
  default (-1) (Ed25519.ed25519_sign_open (be_bytes 32 message) (be_bytes 32 public_key) (be_bytes 64 signature)).
Definition sign_words (message private_key public_key : Z) : Z :=
  of_be_bytes (default [] (Ed25519.ed25519_sign (be_bytes 32 message) (be_bytes 32 private_key) (be_bytes 32 public_key))).
Definition publickey_words (private_key : Z) : Z :=
  of_be_bytes (default [] (Ed25519.ed25519_publickey (be_bytes 32 private_key))).

(** A signature made with a private key and its public key is accepted. *)
Lemma words_signed prv message :
  negb (0 =? sign_open_words message (publickey_words prv) (sign_words message prv (publickey_words prv))) = false.
Proof.
  unfold sign_open_words, sign_words, publickey_words. rewrite publickey_value. cbn [from_option id].
  set (pk := encode _). assert (length pk = 32%nat) as Hpk by apply le_bytes_length.
  assert (be_bytes 32 (of_be_bytes pk) = pk) as Epk by (rewrite <- Hpk; apply be_of_be_bytes). rewrite Epk, sign_value.
  cbv zeta. cbn [from_option id]. set (RS := _ ++ _). set (m := be_bytes 32 message).
  destruct (signed_is_valid m _ _ RS (publickey_value (be_bytes 32 prv)) (sign_value m _ pk)) as (_ & HRS & Hv).
  assert (be_bytes 64 (of_be_bytes RS) = RS) as -> by (rewrite <- HRS; apply be_of_be_bytes).
  destruct (sign_open_eq m pk RS Hpk HRS) as (r & -> & [[-> _]|[_ Hn]]); [done|by destruct Hn].
Qed.

Section networks.
Variables (clock : nat -> Z) (enc dec : Z -> Z -> Z -> Z) (argon2 : stream -> Z -> Z) (n : rai_networks).

Definition signed_env : Env := network_env sign_open_words sign_words clock n.
Definition signed_crypto : Crypto := {|
  ctr_encrypt := enc;
  ctr_decrypt := dec;
  argon2_hash := argon2;
  WalletStore.ed25519_publickey := publickey_words
|}.

(** What [sign_message] makes with a private key and its public key, [validate_message]
    accepts. *)
Lemma signed_message_valid prv message :
  let E := signed_env in let K := signed_crypto in
  let pub := WalletStore.ed25519_publickey prv in
  validate_message pub message (sign_message prv pub message) = false.
Proof.
  cbv zeta. unfold validate_message, sign_message. cbn [Common.ed25519_sign_open Common.ed25519_sign WalletStore.ed25519_publickey signed_env network_env signed_crypto].
  apply words_signed.
Qed.

(** The laws of the wallet hold once the work found is valid. *)
#[export] Instance signed_wallet_laws (w : WorkConfig) (c : WalletConfig) :
  (forall r, @work_validate signed_env w r (generate_work r) = false) -> @WalletLaws signed_env w signed_crypto c.
Proof. intros Hw. split; [done|]. apply signed_message_valid. Qed.

(** With the modelled Blake2b and Ed25519, on each network, [validate_message] accepts
    what [sign_message] makes with a private key and its public key. *)
Theorem sign_message_valid prv message :
  let E := signed_env in let K := signed_crypto in
  let pub := WalletStore.ed25519_publickey prv in
  validate_message pub message (sign_message prv pub message) = false.
Proof. apply signed_message_valid. Qed.

End networks.
